(* ===== verification/_CoqProject ===== *)
-Q . S2P
Prelude.v
Bytes.v
VmId.v
Events.v
Ring.v
RingSpsc.v
ShmLayout.v
Slots.v
Interact.v
Accept.v
Stream.v
Frame.v
WStr.v
Snapshot.v
SnapshotInv.v
SnapshotLoad.v
SnapshotUse.v
BlockIO.v
ImageWrites.v
Rfc3174.v
Sha1.v
Gpt.v
Fat32.v
Fat32Files.v
Outcome.v
Huffman.v
Lzx.v
Wim.v
WimXml.v
WimImage.v
WimEntry.v
Bcd.v
BcdProofs.v
BcdAlloc.v
WimExtract.v
Bitmap.v
NtfsCodec.v
NtfsIndex.v
NtfsDir.v
NtfsRecord.v
NtfsLookup.v
NtfsVolume.v
NtfsAlloc.v
NtfsSession.v
NtfsRuns.v
NtfsSteps.v
NtfsOpen.v
NtfsTree.v
NtfsMeta.v
NtfsLinks.v
NtfsClose.v
NtfsIndexed.v
NtfsNamed.v
NtfsPlan.v
NtfsSecure.v
NtfsFill.v
NtfsWrites.v
NtfsFinish.v
NtfsMount.v
Squashfs.v
SqfsSafe.v
SqfsOpen.v
SqfsTree.v
