(* ===== verification/Prelude.v ===== *)
(** * A verification library for AppSandbox

    AppSandbox runs virtual machines on Windows and macOS hosts.  Its C code has
    five parts with logic of their own: the core (identifiers, events), the
    guest transport over a shared-memory device, the snapshot tree of the
    Windows backend, the disk builder that turns an installation image into a
    bootable disk without mounting anything, and the reader of Linux images.  This library models those parts
    file by file and proves what each promises; the rest of the repository is
    user interface, drivers and calls of the operating system (see Not
    modelled).

    ** Conventions

    A [w]-bit unsigned integer is a [Z], and every C operation that can leave
    the range is followed by its wrap ([u8], [u16], [u32], [u64]; [i32], [i64]
    read two's complement).  Byte buffers are lists of [Z] in 0..255 ([bytes]);
    memory reached through base pointers (the device's BAR, a disk image) is a
    total map [mem] from address to byte.  A pointer into a buffer is an offset.
    Allocation succeeds unless a file says otherwise, and [free] and [close] do
    nothing.  Three kinds of partiality are kept apart, each in the file that
    needs it: a system that has not answered yet or a guest that has not been
    scheduled ([None] of [BlockIO], [Interact]); a run of a parser that leaves
    its buffer or never ends ([Fault], [Spin] of [Outcome]); and ordinary error
    codes, which are values.

    ** Core ([src/src/core])

    - [VmId] ([asb_vm_id.h]): text form, parser, generation and repair of VM
      identifiers.  Formatting then parsing is the identity, accepted non-zero
      text is canonical (C1); a repaired list is non-zero and distinct and an
      already good list is left alone (C2).
    - [Events] ([asb_events.c]): the 16-entry subscriber table refines a finite
      map from fresh identifiers to callbacks (C3).

    ** Guest transport ([src/tools/transport])

    - [Ring], [RingSpsc] ([ring_write], [ring_read]): a ring refines a byte
      queue at every index position, including the wrap at 2^64 (C4); one
      producer and one consumer interleaved at each byte deliver a prefix of
      what was sent (C5).
    - [ShmLayout], [Slots] ([asb_shm_layout.h], [find_region], [bind_slot]):
      every channel's region is found with two empty rings per slot, the regions
      are disjoint, and the magic word is published last (C6).
    - [Interact]: programs of the guest against a host that changes the shared
      memory between any two accesses; clocks and sleeps are accesses too.
    - [Accept] ([asb_listen], [asb_accept], [asb_connect]): the handshake writes
      only the guest's words, and a returned connection is the end of a full
      handshake (C7).
    - [Stream] ([asb_send], [asb_recv], [asb_poll], [asb_close], the heartbeat
      registry): sending and receiving move exactly the counted bytes and
      fall short only for a reason they saw (C8, C9), closing stores at most one
      word, under this acceptance's identity except on 9P, which looks at the
      state alone (C10), the heartbeat registry holds no closed connection and
      beats for those it holds.
    - [Frame] ([asb_transport_init], [asb_frame_*]): backend selection (C12) and
      double buffering: the buffer handed out is the active one only when the
      region holds a single buffer (C13).

    ** Snapshot tree ([src/src/backend_win/snapshot.c])

    - [WStr]: wide strings and the C runtime calls on them.
    - [Snapshot]: the tree and its operations; every answer of the system is an
      argument and every request an effect.
    - [SnapshotInv]: the disks stay consistent with the tree in every reachable
      state, whatever the system answers (C14).  [SnapshotUse]: the disk that
      will be booted is no other disk's parent (C15), the current branch is
      found exactly (C17), a snapshot forks the base disk (C18).
      [SnapshotLoad]: saving and loading [tree.dat] is the identity on trees
      without newlines in their names (C16).

    ** Disk builder ([src/tools/iso-patch-mac/engine])

    - [BlockIO] ([blockio.c]): the coalescing buffer refines direct access to the
      image under partial writes, interruptions and failures (C19) and writes
      once per batch (C20).  Its class [Image] is the interface the file-system
      writers are proved against; a plain memory is a second instance.
    - [Sha1] ([sha1.c]): streaming equals the digest of RFC 3174 (C21), which
      [Rfc3174] specifies on strings of bits from the RFC alone.
    - [Gpt] ([gpt.c]): the written table is valid for the UEFI specification
      (C22) and its layout is sound or refused with nothing written (C23).
    - [Fat32], [Fat32Files] ([fat32.c]): the geometry (C24), and every file of a
      session whose root directory fits its first cluster is read back by
      following the FAT on the disk (C25); a longer root overwrites files.
    - [Outcome]: results of code on untrusted bytes; [safe] is the judgement that
      a run neither leaves its buffers nor loops.
    - [Huffman] ([decompress_common.h]): the bit stream and the canonical decode
      table; decoding inverts the canonical code (C26).
    - [Lzx] ([lzx.c]): decompression is safe and total on every input (C27).
    - [Wim], [WimXml] ([wim.c], [resource.c]): a compressed resource is read back
      chunk by chunk (C28), safely on every file (C29), with the capacity of the
      chunk buffer and of the output in the model; the lookup table and
      the searches in it; the size of an image in the XML description.
    - [WimImage], [WimEntry] ([wimimg.c]): directory entries and security
      descriptors are read inside the metadata unless a 64-bit sum wraps (C32,
      C33), and an entry laid out as documented is read back exactly (C34).
    - [WimExtract] ([wim_extract.c]): on an image that describes a directory
      tree the tool resolves, lists and extracts exactly what the image holds
      (C37).
    - [ImageWrites]: batches of writes through [Image] and what they leave alone.
    - [Bcd], [BcdProofs], [BcdAlloc] ([bcd.c]): the registry hive patcher.  A
      finished hive has a valid base block and is a number of pages larger than
      the template (C35); indexes nested to any depth are followed;
      allocating and freeing cells refines independent zeroed buffers, and the
      bins it appends are exactly tiled (C36).

    The NTFS writer ([ntfs.c]) takes the longest stretch, from bytes to volume:

    - [Bitmap]: allocation bitmaps.  [NtfsCodec]: little-endian stores, run
      lists, update sequences.
      [NtfsIndex], [NtfsDir], [NtfsLookup]: the B-tree of a directory, its
      blocks and its root, and a driver's search in them.
    - [NtfsRecord]: file records.  What is appended or inserted reads back as
      exactly what fitted, in order, under the sector protection (C39);
      [tracks] is the relation between a record and its list of attributes.
    - [NtfsVolume]: the volume being built and the calls that build it.
      [NtfsAlloc]: the cluster allocator's invariant, [alloc_low]; [NtfsRuns]:
      a run allocated and written, and what that leaves alone.
      [NtfsSession], [NtfsSteps], [NtfsOpen]: the invariant of a session, the
      step of each call, and any sequence of calls (C40).
    - [NtfsTree], [NtfsMeta], [NtfsLinks], [NtfsClose]: the close, phase by
      phase: indexes put on the volume, the contents of the metafiles, records
      with more names than fit, the layout and the final writes.
      Its proof follows the phases.  [NtfsIndexed]: a directory gets an
      index in which a driver finds every name and no other, or its record was
      too full and the close fails (C38); nothing the session wrote is taken
      back.
      [NtfsNamed]: the names of the root, the metafiles and the index of reparse
      points; [NtfsPlan]: the layout, whose runs are apart; [NtfsSecure]: the
      descriptors and their two indexes; [NtfsFill]: the metafile records;
      [NtfsWrites]: the final writes are apart, so all of them stand at the end;
      [NtfsFinish]: the close as a whole ([close_ok]).
    - [NtfsMount]: a reader that has only the image and the partition's offset.
      The close of a session within stated limits ([closable]: names per file,
      reparse points, descriptors, size of the directory records, room) succeeds
      and the reader finds every file, name and link with its data, and the
      system files agree (C31): the session's theorem and the close's composed.

    ** Linux disk builder ([src/tools/iso-patch/engine])

    - [Squashfs] ([squashfs.c]): the reader of the installation image: metadata
      blocks, the inode and directory tables, the walk, files and capabilities.
      XZ Embedded is the class [XzDec].  [SqfsSafe]: reading is safe on every
      file, but for one shift in a log line (C11).  [SqfsOpen]: the documented
      format as an encoder, and opening what it wrote; [SqfsTree]: on an image
      that holds a tree the walk reports exactly its nodes and every file reads
      back (C30).

    ** How the parts meet

    [Wim] calls [Lzx], which calls [Huffman]; [WimImage] reads its metadata
    through [Wim], so that C33 composes the safety of all four, and
    [WimExtract] runs on both.  [Gpt], [Fat32Files], [NtfsLookup] and the NTFS
    session write through the [Image] interface of [BlockIO], so that their
    theorems hold for the coalescing writer and for a plain memory alike.
    [NtfsMount] puts the session ([NtfsOpen]) and the close ([NtfsFinish])
    together and reads the outcome through [NtfsLookup].  [Stream] and
    [Accept] run on slots laid out by [ShmLayout], and take a ring operation as
    one step, which [RingSpsc] justifies.

    ** Fuel and bounds

    Loops that are not structural take fuel, always from the sizes of the data:
    a precode loop consumes at least one length per round, an LZX block at least
    one byte, a system-call loop one answer per call, a guest loop one access
    per round.  Theorems state that this is enough: [safe] excludes [Spin], the
    totality lemmas of [Interact] and [BlockIO] exclude [None].  LZX and WIM
    theorems assume what a caller can hold in memory: chunks of at most 2^31
    bytes, resources under 2^60, buffers under 2^62.  The descent of a reader
    into a directory ([NtfsLookup], [NtfsMount]) is bounded by a depth, and the
    theorems say that every depth from some on gives the same answer.

    ** Not modelled

    The disk assembly above the NTFS writer.  The close of the NTFS writer is
    proved for volumes without a record that has more names than fit: the
    conversion of such a record to an attribute list ([NtfsLinks]) is modelled
    and run, not proved.  The ext4 writer of the
    Windows image builder;
    the backends' lifecycle code, networking, display, clipboard, audio, agents,
    drivers and shims, whose steps are almost all calls of the operating system;
    Objective-C code, tests, vendored code and data tables.  The AF_HYPERV
    branches of the transport only forward to Winsock.  XPRESS and LZMS are
    stubs in the source and so in the model. *)

From Stdlib Require Export ZArith Lia.
From stdpp Require Export base sets list numbers option relations.

#[global] Open Scope Z_scope.
#[global] Set Default Goal Selector "!".

(** ** Machine integers

    A [w]-bit unsigned C integer is a [Z] in [0 .. 2^w); every operation that
    can leave the range is followed by the wrap the C standard prescribes. *)

Definition u8 (z : Z) : Z := z mod 256.
Definition u16 (z : Z) : Z := z mod 65536.
Definition u32 (z : Z) : Z := z mod 4294967296.
Definition u64 (z : Z) : Z := z mod 18446744073709551616.
(** Two's-complement reading of the low 32 bits (the cast [(int32_t)x]). *)
Definition i32 (z : Z) : Z := (z + 2147483648) mod 4294967296 - 2147483648.
(** Two's-complement reading of the low 64 bits (the cast [(int64_t)x]). *)
Definition i64 (z : Z) : Z :=
  (z + 9223372036854775808) mod 18446744073709551616 - 9223372036854775808.

Declare Scope asb_scope.
Delimit Scope asb_scope with asb.
Infix ".&" := Z.land (at level 38, left associativity) : asb_scope.
Infix ".|" := Z.lor (at level 40, left associativity) : asb_scope.
Infix ".^" := Z.lxor (at level 39, left associativity) : asb_scope.

Definition is_byte (b : Z) : Prop := 0 <= b < 256.
Definition is_u32 (z : Z) : Prop := 0 <= z < 4294967296.
Definition is_u64 (z : Z) : Prop := 0 <= z < 18446744073709551616.
Abbreviation bytes := (Forall is_byte).

#[global] Instance is_byte_dec b : Decision (is_byte b).
Proof. unfold is_byte. apply _. Defined.
#[global] Instance is_u32_dec b : Decision (is_u32 b).
Proof. unfold is_u32. apply _. Defined.
#[global] Instance is_u64_dec b : Decision (is_u64 b).
Proof. unfold is_u64. apply _. Defined.

(** ** Automation *)

Create HintDb asb discriminated.
Create Rewrite HintDb wrap.

(** Reflect the boolean comparisons of the goal and of the hypotheses. *)
Ltac zbool :=
  repeat match goal with
  | H : (_ <? _) = true |- _ => apply Z.ltb_lt in H
  | H : (_ <? _) = false |- _ => apply Z.ltb_ge in H
  | H : (_ <=? _) = true |- _ => apply Z.leb_le in H
  | H : (_ <=? _) = false |- _ => apply Z.leb_gt in H
  | H : (_ =? _) = true |- _ => apply Z.eqb_eq in H
  | H : (_ =? _) = false |- _ => apply Z.eqb_neq in H
  | H : (_ && _) = true |- _ => apply andb_true_iff in H as [? ?]
  | H : (_ && _) = false |- _ =>
      apply andb_false_iff in H; rewrite ?Z.leb_gt, ?Z.ltb_ge, ?Z.eqb_neq in H
  | H : (_ || _) = false |- _ => apply orb_false_iff in H as [? ?]
  | H : (_ || _) = true |- _ =>
      apply orb_true_iff in H; rewrite ?Z.leb_le, ?Z.ltb_lt, ?Z.eqb_eq in H
  | H : negb _ = true |- _ => apply negb_true_iff in H
  | H : negb _ = false |- _ => apply negb_false_iff in H
  end.

(** Case analysis on the innermost boolean test of the goal. *)
Ltac bcase :=
  match goal with
  | |- context [if ?b then _ else _] =>
      lazymatch b with
      | context [if _ then _ else _] => fail
      | context [match _ with _ => _ end] => fail
      | _ => let E := fresh "E" in destruct b eqn:E
      end
  end; zbool.

Ltac bcases := repeat bcase.

(** Enumerate the values of [x], which is bounded by the context. *)
Ltac zenum x :=
  destruct x as [|x|x]; [try lia| |try lia];
  repeat (destruct x as [x|x|]; try lia).

Ltac unwrap := unfold u8, u16, u32, u64, i32, i64, is_byte, is_u32, is_u64 in *.

(** Linear arithmetic with division by constants. *)
Ltac dlia := unwrap; Z.to_euclidean_division_equations; lia.

(** Step through the [option] binds of an operation's run. *)
Ltac obind H x E :=
  match type of H with
  | (mbind ?f ?o) = Some _ =>
      destruct o as [x|] eqn:E; cbn [mbind option_bind] in H; [|discriminate H]
  end.

(** ** Wrap-around lemmas *)

Lemma u32_small z : 0 <= z < 4294967296 → u32 z = z.
Proof. intros. unfold u32. by apply Z.mod_small. Qed.
Lemma u64_small z : 0 <= z < 18446744073709551616 → u64 z = z.
Proof. intros. unfold u64. by apply Z.mod_small. Qed.
Lemma u16_small z : 0 <= z < 65536 → u16 z = z.
Proof. intros. unfold u16. by apply Z.mod_small. Qed.
Lemma u8_small z : 0 <= z < 256 → u8 z = z.
Proof. intros. unfold u8. by apply Z.mod_small. Qed.
Lemma u8_byte z : is_byte (u8 z).
Proof. unfold is_byte, u8. apply Z.mod_pos_bound. lia. Qed.
Lemma u32_range z : is_u32 (u32 z).
Proof. unfold is_u32, u32. apply Z.mod_pos_bound. lia. Qed.
Lemma u64_range z : is_u64 (u64 z).
Proof. unfold is_u64, u64. apply Z.mod_pos_bound. lia. Qed.
#[export] Hint Resolve u8_byte u32_range u64_range : asb.

Lemma u64_add_l a b : u64 (u64 a + b) = u64 (a + b).
Proof. unfold u64. by rewrite Zplus_mod_idemp_l. Qed.
Lemma u64_add_r a b : u64 (a + u64 b) = u64 (a + b).
Proof. unfold u64. by rewrite Zplus_mod_idemp_r. Qed.
Lemma u64_sub_l a b : u64 (u64 a - b) = u64 (a - b).
Proof. unfold u64. by rewrite Zminus_mod_idemp_l. Qed.
Lemma u64_sub_r a b : u64 (a - u64 b) = u64 (a - b).
Proof. unfold u64. by rewrite Zminus_mod_idemp_r. Qed.
#[export] Hint Rewrite u64_add_l u64_add_r u64_sub_l u64_sub_r : wrap.

(** ** Bit operations *)

Lemma land_mask z m n : 0 <= n → m = 2 ^ n - 1 → Z.land z m = z mod 2 ^ n.
Proof. intros ? ->. rewrite <- Z.land_ones by lia. f_equal. rewrite Z.ones_equiv. lia. Qed.

Lemma land_15 z : Z.land z 15 = z mod 16.
Proof. by apply (land_mask z 15 4). Qed.

(** Disjoint bit fields add up. *)
Lemma lor_shiftl_add a b n :
  0 <= n → 0 <= a < 2 ^ n → Z.lor a (Z.shiftl b n) = a + b * 2 ^ n.
Proof.
  intros Hn Ha. pose proof (Z.add_lor_land a (Z.shiftl b n)) as E.
  rewrite <- (Z.shiftl_mul_pow2 b n) by lia.
  enough (Z.land a (Z.shiftl b n) = 0) by lia.
  apply Z.bits_inj'. intros i Hi. rewrite Z.land_spec, Z.bits_0, Z.shiftl_spec by lia.
  destruct (Z.ltb_spec i n).
  - rewrite (Z.testbit_neg_r b) by lia. by rewrite andb_false_r.
  - replace a with (a mod 2 ^ n) by (by apply Z.mod_small).
    by rewrite Z.mod_pow2_bits_high by lia.
Qed.

Lemma testbit_small z n i : 0 <= z < 2 ^ n → n <= i → Z.testbit z i = false.
Proof.
  intros Hz Hi. destruct (Z.eq_dec z 0) as [->|]; [apply Z.bits_0|].
  destruct (Z.lt_ge_cases n 0); [rewrite Z.pow_neg_r in Hz by lia; lia|].
  apply Z.bits_above_log2; [lia|]. apply Z.log2_lt_pow2; [lia|].
  eapply Z.lt_le_trans; [apply Hz|]. apply Z.pow_le_mono_r; lia.
Qed.

Lemma lt_pow2_testbit z n : 0 <= z → 0 <= n → (∀ i, n <= i → Z.testbit z i = false) → z < 2 ^ n.
Proof.
  intros Hz Hn Hb. destruct (Z.eq_dec z 0) as [->|]; [lia|].
  apply Z.log2_lt_pow2; [lia|]. destruct (Z.lt_ge_cases (Z.log2 z) n); [done|].
  pose proof (Z.bit_log2 z ltac:(lia)) as H1. rewrite Hb in H1 by lia. done.
Qed.

(** Clearing the low three bits rounds down to a multiple of 8. *)
Lemma land_round8 y w : 3 <= w → 0 <= y < 2 ^ w → Z.land y (Z.shiftl (Z.ones (w - 3)) 3) = y / 8 * 8.
Proof.
  intros Hw [Hy1 Hy2]. change 8 with (2 ^ 3). rewrite <- (Z.shiftl_mul_pow2 _ 3) by lia.
  apply Z.bits_inj'. intros i Hi. rewrite Z.land_spec, !Z.shiftl_spec by lia. destruct (Z.lt_ge_cases i 3) as [H|H].
  { rewrite (Z.testbit_neg_r (Z.ones _)), (Z.testbit_neg_r (y / 2 ^ 3)) by lia. apply andb_false_r. }
  rewrite <- Z.shiftr_div_pow2, Z.shiftr_spec by lia. replace (i - 3 + 3) with i by lia.
  destruct (Z.lt_ge_cases i w) as [H'|H'].
  - rewrite Z.ones_spec_low by lia. apply andb_true_r.
  - rewrite (testbit_small y w) by lia. done.
Qed.

Lemma lxor_u32 a b : is_u32 a → is_u32 b → is_u32 (Z.lxor a b).
Proof.
  unfold is_u32. change 4294967296 with (2 ^ 32). intros Ha Hb. assert (0 <= Z.lxor a b) by (apply Z.lxor_nonneg; lia).
  split; [done|]. apply lt_pow2_testbit; [done|lia|]. intros i Hi.
  rewrite Z.lxor_spec, (testbit_small a 32), (testbit_small b 32) by lia. done.
Qed.

(** ** Lists *)

Lemma filter_all {A} (P : A → Prop) `{∀ x, Decision (P x)} (l : list A) :
  Forall P l → filter P l = l.
Proof. induction 1 as [|x l Hx _ IH]; [done|]. by rewrite filter_cons_True, IH. Qed.
