(* ===== verification/Bytes.v ===== *)
(** * Byte strings, little-endian integers and byte-addressed memories

    The buffers the C code handles are lists of bytes ([Z] in [0..255]); a
    mapped BAR, a disk image or any region addressed through a base pointer is a
    [mem], a total map from byte address to byte, compared pointwise. *)

From S2P Require Import Prelude.
From Stdlib Require Import Morphisms Setoid.

(** ** Little-endian encoding *)

(** [p[i] = (uint8_t)(v >> 8*i)] for [i < n]. *)
Fixpoint le_bytes (n : nat) (z : Z) : list Z :=
  match n with O => [] | S n' => u8 z :: le_bytes n' (z / 256) end.

Fixpoint le_val (l : list Z) : Z :=
  match l with [] => 0 | b :: l' => b + 256 * le_val l' end.

Lemma length_le_bytes n z : length (le_bytes n z) = n.
Proof. revert z. induction n; intros; simpl; auto. Qed.

Lemma le_bytes_bytes n z : bytes (le_bytes n z).
Proof. revert z. induction n; intros; simpl; constructor; auto with asb. Qed.
#[export] Hint Resolve le_bytes_bytes : asb.

Lemma le_val_bound l : bytes l → 0 <= le_val l < 256 ^ Z.of_nat (length l).
Proof.
  induction 1 as [|b l Hb Hl IH]; simpl; [lia|].
  rewrite Nat2Z.inj_succ, Z.pow_succ_r by lia. unfold is_byte in Hb. nia.
Qed.

Lemma le_val_le_bytes n z : le_val (le_bytes n z) = z mod 256 ^ Z.of_nat n.
Proof.
  revert z. induction n as [|n IH]; intros z; [simpl; by rewrite Z.mod_1_r|].
  cbn [le_bytes le_val]. rewrite IH, Nat2Z.inj_succ, Z.pow_succ_r by lia. unfold u8.
  rewrite Z.rem_mul_r by lia. lia.
Qed.

Lemma le_val_le_bytes_small n z :
  0 <= z < 256 ^ Z.of_nat n → le_val (le_bytes n z) = z.
Proof. intros. rewrite le_val_le_bytes. by apply Z.mod_small. Qed.

Lemma le_bytes_le_val l : bytes l → le_bytes (length l) (le_val l) = l.
Proof.
  induction 1 as [|b l Hb Hl IH]; simpl; [done|]. unfold is_byte in Hb.
  assert (u8 (b + 256 * le_val l) = b) as -> by (unfold u8; dlia).
  assert ((b + 256 * le_val l) / 256 = le_val l) as -> by dlia. by rewrite IH.
Qed.

Lemma le_val_inj l1 l2 :
  bytes l1 → bytes l2 → length l1 = length l2 → le_val l1 = le_val l2 → l1 = l2.
Proof.
  intros H1 H2 HL HV. by rewrite <- (le_bytes_le_val l1), HL, HV, le_bytes_le_val.
Qed.

Lemma le_val_replicate_0 n : le_val (replicate n 0) = 0.
Proof. induction n as [|n IH]; simpl; [done|]. by rewrite IH. Qed.

(** ** Access to byte lists by [Z] index *)

Definition bget (l : list Z) (i : Z) : Z := nth (Z.to_nat i) l 0.

(** Overwrite [src] into [dst] at byte offset [off]; the C code writes inside
    the buffer, what would fall past its end is dropped. *)
Definition splice (dst : list Z) (off : nat) (src : list Z) : list Z :=
  take off dst ++ take (length dst - off) src ++ drop (off + length src) dst.

Lemma length_splice dst off src : length (splice dst off src) = length dst.
Proof.
  unfold splice. rewrite !length_app, !length_take, length_drop. lia.
Qed.

Lemma splice_bytes dst off src : bytes dst → bytes src → bytes (splice dst off src).
Proof.
  intros. unfold splice. apply Forall_app; split; [by apply Forall_take|].
  apply Forall_app; split; [by apply Forall_take|by apply Forall_drop].
Qed.

Lemma splice_get_in dst off src :
  (off + length src <= length dst)%nat →
  take (length src) (drop off (splice dst off src)) = src.
Proof.
  intros. unfold splice.
  rewrite drop_app_length' by (rewrite length_take; lia).
  rewrite take_app_length' by (rewrite length_take; lia).
  apply take_ge. lia.
Qed.

Lemma splice_take dst off src n :
  (n <= off)%nat → (off <= length dst)%nat → take n (splice dst off src) = take n dst.
Proof.
  intros. unfold splice. rewrite take_app_le by (rewrite length_take; lia).
  rewrite take_take. f_equal. lia.
Qed.

Lemma splice_drop dst off src n :
  (off + length src <= n)%nat → (off + length src <= length dst)%nat →
  drop n (splice dst off src) = drop n dst.
Proof.
  intros. unfold splice. rewrite (take_ge src) by lia. rewrite app_assoc.
  rewrite drop_app_ge by (rewrite length_app, length_take; lia).
  rewrite length_app, length_take, drop_drop. f_equal. lia.
Qed.

(** [n] bytes of [l] from offset [off]. *)
Definition sub (l : list Z) (off n : nat) : list Z := take n (drop off l).

Lemma length_sub l off n : (off + n <= length l)%nat → length (sub l off n) = n.
Proof. intros. unfold sub. rewrite length_take, length_drop. lia. Qed.

Lemma sub_bytes l o n : bytes l → bytes (sub l o n).
Proof. intros H. unfold sub. by apply Forall_take, Forall_drop. Qed.

Lemma sub_splice_same dst off src n :
  n = length src → (off + length src <= length dst)%nat → sub (splice dst off src) off n = src.
Proof. intros ->. apply splice_get_in. Qed.

Lemma sub_splice_other dst off src o n :
  (off + length src <= length dst)%nat → (o + n <= off ∨ off + length src <= o)%nat →
  sub (splice dst off src) o n = sub dst o n.
Proof.
  intros Hl [H|H]; unfold sub; [|by rewrite splice_drop].
  rewrite !take_drop_commute. f_equal. apply splice_take; lia.
Qed.

(** Writing back what was there undoes a write. *)
Lemma splice_restore dst off src old :
  (off + length src <= length dst)%nat → length old = length src →
  sub dst off (length src) = old → splice (splice dst off src) off old = dst.
Proof.
  intros Hl Ho Hs. unfold splice at 1. rewrite length_splice, splice_take by lia.
  rewrite (take_ge old) by lia. rewrite Ho, splice_drop by lia.
  rewrite <- Hs. unfold sub. rewrite <- (take_drop off dst) at 4. f_equal.
  rewrite <- (take_drop (length src) (drop off dst)) at 2. f_equal. by rewrite drop_drop.
Qed.

Lemma take_splice dst off src n :
  (off + length src <= n)%nat → (n <= length dst)%nat →
  take n (splice dst off src) = splice (take n dst) off src.
Proof.
  intros H1 H2. unfold splice. rewrite (take_ge src (length dst - off)) by lia.
  rewrite length_take, (take_ge src (n `min` length dst - off)) by lia.
  rewrite take_app_ge, length_take by (rewrite length_take; lia). f_equal.
  { rewrite take_take. f_equal. lia. }
  rewrite take_app_ge by lia. f_equal. rewrite skipn_firstn_comm. f_equal. lia.
Qed.

(** A range of a range. *)
Lemma sub_sub l off n a b : (a + b <= n)%nat → sub (sub l off n) a b = sub l (off + a) b.
Proof.
  intros H. unfold sub. rewrite skipn_firstn_comm, drop_drop, take_take. f_equal. lia.
Qed.

Lemma drop_splice dst p o src :
  (p + o + length src <= length dst)%nat → drop p (splice dst (p + o) src) = splice (drop p dst) o src.
Proof.
  intros H. unfold splice. rewrite (take_ge src), (take_ge src) by (rewrite ?length_drop; lia).
  rewrite drop_app_le by (rewrite length_take; lia). rewrite drop_drop.
  rewrite skipn_firstn_comm. replace (p + o - p)%nat with o by lia. do 2 f_equal. f_equal. lia.
Qed.

(** A write inside a range, seen from the range. *)
Lemma sub_splice_in dst p n o src :
  (o + length src <= n)%nat → (p + n <= length dst)%nat →
  sub (splice dst (p + o) src) p n = splice (sub dst p n) o src.
Proof.
  intros H1 H2. unfold sub. rewrite drop_splice by lia. apply take_splice; [done|rewrite length_drop; lia].
Qed.

(** ** Memories *)

Definition mem := Z → Z.

Definition mem_eq : relation mem := pointwise_relation Z eq.
Infix "≡m" := mem_eq (at level 70).
#[export] Instance mem_eq_equiv : Equivalence mem_eq.
Proof. unfold mem_eq. apply _. Qed.

(** [n] bytes at address [a]. *)
Fixpoint mread (m : mem) (a : Z) (n : nat) : list Z :=
  match n with O => [] | S n' => m a :: mread m (a + 1) n' end.

(** [memcpy(base + a, bs, length bs)]. *)
Definition mwrite (m : mem) (a : Z) (bs : list Z) : mem := λ x,
  if (a <=? x) && (x <? a + Z.of_nat (length bs)) then bget bs (x - a) else m x.

(** [memset(base + a, v, n)]. *)
Definition mfill (m : mem) (a n v : Z) : mem := λ x,
  if (a <=? x) && (x <? a + n) then v else m x.

Definition ld32 (m : mem) (a : Z) : Z := le_val (mread m a 4).
Definition ld64 (m : mem) (a : Z) : Z := le_val (mread m a 8).
Definition st32 (m : mem) (a v : Z) : mem := mwrite m a (le_bytes 4 v).
Definition st64 (m : mem) (a v : Z) : mem := mwrite m a (le_bytes 8 v).

#[export] Instance mread_proper : Proper (mem_eq ==> eq ==> eq ==> eq) mread.
Proof.
  intros m m' Hm a ? <- n ? <-. revert a.
  induction n as [|n IH]; intros; simpl; [done|]. by rewrite (Hm a), IH.
Qed.
#[export] Instance mwrite_proper : Proper (mem_eq ==> eq ==> eq ==> mem_eq) mwrite.
Proof. intros m m' Hm a ? <- l ? <- x. unfold mwrite. by rewrite (Hm x). Qed.
#[export] Instance ld32_proper : Proper (mem_eq ==> eq ==> eq) ld32.
Proof. intros m m' Hm a ? <-. unfold ld32. by rewrite Hm. Qed.
#[export] Instance ld64_proper : Proper (mem_eq ==> eq ==> eq) ld64.
Proof. intros m m' Hm a ? <-. unfold ld64. by rewrite Hm. Qed.

Lemma length_mread m a n : length (mread m a n) = n.
Proof. revert a. induction n; intros; simpl; auto. Qed.

Lemma mread_app m a n k :
  mread m a (n + k) = mread m a n ++ mread m (a + Z.of_nat n) k.
Proof.
  revert a. induction n as [|n IH]; intros; simpl; [f_equal; lia|].
  rewrite IH. do 3 f_equal. lia.
Qed.

(** A read only depends on the bytes it covers. *)
Lemma mread_ext m m' a n :
  (∀ x, a <= x < a + Z.of_nat n → m x = m' x) → mread m a n = mread m' a n.
Proof.
  revert a. induction n as [|n IH]; intros a H; simpl; [done|].
  rewrite (H a), (IH (a + 1)); [done| |lia]. intros. apply H. lia.
Qed.

Lemma mwrite_out m a bs x :
  x < a ∨ a + Z.of_nat (length bs) <= x → mwrite m a bs x = m x.
Proof. intros. unfold mwrite. bcases; lia || done. Qed.

Lemma mwrite_in m a bs x :
  a <= x < a + Z.of_nat (length bs) → mwrite m a bs x = bget bs (x - a).
Proof. intros. unfold mwrite. bcases; lia || done. Qed.

Lemma mfill_out m a n v x : x < a ∨ a + n <= x → mfill m a n v x = m x.
Proof. intros. unfold mfill. bcases; lia || done. Qed.

Lemma mfill_in m a n v x : a <= x < a + n → mfill m a n v x = v.
Proof. intros. unfold mfill. bcases; lia || done. Qed.

Lemma sub_mread m a N o n : (o + n <= N)%nat → sub (mread m a N) o n = mread m (a + Z.of_nat o) n.
Proof.
  intros H. unfold sub. replace N with (o + (n + (N - o - n)))%nat by lia.
  rewrite !mread_app. rewrite drop_app_length' by (by rewrite length_mread).
  rewrite take_app_length' by (by rewrite length_mread). done.
Qed.

Lemma mread_lookup m a n i :
  (i < n)%nat → nth i (mread m a n) 0 = m (a + Z.of_nat i).
Proof.
  revert a i. induction n as [|n IH]; intros a i Hi; [lia|].
  destruct i as [|i]; simpl; [f_equal; lia|]. rewrite IH by lia. f_equal. lia.
Qed.

Lemma mread_eq m a n l :
  length l = n →
  (∀ i, (i < n)%nat → m (a + Z.of_nat i) = nth i l 0) → mread m a n = l.
Proof.
  intros HL H. eapply (nth_ext _ _ 0 0); rewrite length_mread; [done|].
  intros i Hi. by rewrite mread_lookup, H.
Qed.

Lemma mread_mwrite_same m a bs : mread (mwrite m a bs) a (length bs) = bs.
Proof.
  apply mread_eq; [done|]. intros i Hi. rewrite mwrite_in by lia.
  unfold bget. f_equal. lia.
Qed.

Lemma mread_mwrite_at m a bs n : n = length bs → mread (mwrite m a bs) a n = bs.
Proof. intros ->. apply mread_mwrite_same. Qed.

Lemma mread_mwrite_disjoint m a bs a' n :
  a' + Z.of_nat n <= a ∨ a + Z.of_nat (length bs) <= a' →
  mread (mwrite m a bs) a' n = mread m a' n.
Proof. intros. apply mread_ext. intros. apply mwrite_out. lia. Qed.

Lemma mread_mfill_disjoint m a k v a' n :
  a' + Z.of_nat n <= a ∨ a + k <= a' →
  mread (mfill m a k v) a' n = mread m a' n.
Proof. intros. apply mread_ext. intros. apply mfill_out. lia. Qed.

Lemma mread_mfill_in m a k v a' n :
  a <= a' → a' + Z.of_nat n <= a + k → mread (mfill m a k v) a' n = replicate n v.
Proof.
  intros. apply mread_eq; [by rewrite length_replicate|]. intros i Hi.
  rewrite mfill_in by lia. by rewrite nth_lookup, lookup_replicate_2.
Qed.

Lemma ld32_st32 m a v : ld32 (st32 m a v) a = u32 v.
Proof.
  unfold ld32, st32. rewrite <- (length_le_bytes 4 v) at 2.
  by rewrite mread_mwrite_same, le_val_le_bytes.
Qed.
Lemma ld64_st64 m a v : ld64 (st64 m a v) a = u64 v.
Proof.
  unfold ld64, st64. rewrite <- (length_le_bytes 8 v) at 2.
  by rewrite mread_mwrite_same, le_val_le_bytes.
Qed.
Lemma ld32_mwrite_ne m a bs a' :
  a' + 4 <= a ∨ a + Z.of_nat (length bs) <= a' → ld32 (mwrite m a bs) a' = ld32 m a'.
Proof. intros. unfold ld32. rewrite mread_mwrite_disjoint; [done|lia]. Qed.
Lemma ld64_mwrite_ne m a bs a' :
  a' + 8 <= a ∨ a + Z.of_nat (length bs) <= a' → ld64 (mwrite m a bs) a' = ld64 m a'.
Proof. intros. unfold ld64. rewrite mread_mwrite_disjoint; [done|lia]. Qed.

(** Two successive writes of adjacent blocks are one write. *)
Lemma mwrite_app m a l1 l2 :
  mwrite (mwrite m a l1) (a + Z.of_nat (length l1)) l2 ≡m mwrite m a (l1 ++ l2).
Proof.
  intros x. unfold mwrite, bget. rewrite length_app, Nat2Z.inj_add.
  destruct (Z.leb_spec a x), (Z.ltb_spec x (a + Z.of_nat (length l1))),
    (Z.leb_spec (a + Z.of_nat (length l1)) x),
    (Z.ltb_spec x (a + Z.of_nat (length l1) + Z.of_nat (length l2))),
    (Z.ltb_spec x (a + (Z.of_nat (length l1) + Z.of_nat (length l2))));
    simpl; try lia; try done.
  - rewrite app_nth1 by lia. done.
  - rewrite app_nth2 by lia. f_equal. lia.
Qed.

Lemma mwrite_nil m a : mwrite m a [] ≡m m.
Proof. intros x. unfold mwrite. simpl. bcases; [lia|done]. Qed.

(** Memories whose cells all hold bytes. *)
Definition mem_bytes (m : mem) : Prop := ∀ x, is_byte (m x).

Lemma bget_byte l i : bytes l → is_byte (bget l i).
Proof.
  intros H. unfold bget. destruct (nth_in_or_default (Z.to_nat i) l 0) as [Hin| ->].
  - exact (proj1 (List.Forall_forall _ _) H _ Hin).
  - unfold is_byte. lia.
Qed.

Lemma mwrite_mem_bytes m a bs : mem_bytes m → bytes bs → mem_bytes (mwrite m a bs).
Proof. intros Hm Hb x. unfold mwrite. bcase; [apply bget_byte, Hb|apply Hm]. Qed.

Lemma mread_bytes m a n : mem_bytes m → bytes (mread m a n).
Proof. intros Hm. revert a. induction n; intros; simpl; constructor; auto. Qed.

Lemma mfill_mem_bytes m a k v : mem_bytes m → is_byte v → mem_bytes (mfill m a k v).
Proof. intros Hm Hb x. unfold mfill. bcase; [done|apply Hm]. Qed.
#[export] Hint Resolve mwrite_mem_bytes mfill_mem_bytes mread_bytes bget_byte : asb.

Lemma ld64_range m a : mem_bytes m → is_u64 (ld64 m a).
Proof.
  intros Hm. unfold ld64, is_u64.
  pose proof (le_val_bound (mread m a 8) (mread_bytes m a 8 Hm)) as H.
  rewrite length_mread in H. exact H.
Qed.
Lemma ld32_range m a : mem_bytes m → is_u32 (ld32 m a).
Proof.
  intros Hm. unfold ld32, is_u32.
  pose proof (le_val_bound (mread m a 4) (mread_bytes m a 4 Hm)) as H.
  rewrite length_mread in H. exact H.
Qed.
#[export] Hint Resolve ld64_range ld32_range : asb.
