(* ===== verification/VmId.v ===== *)
(** * VM identifiers ([src/src/core/asb_vm_id.h])

    Text form of the 64-bit VM identifier, its parser, and the routine that
    repairs a loaded list of identifiers so that they are all set and distinct.
    Strings are lists of character codes that include their terminating NUL. *)

From S2P Require Import Prelude Bytes.

Definition ASB_VM_ID_TEXT_SIZE : Z := 20.

(** [static const char hex[] = "0123456789abcdef"]. *)
Definition hex : list Z :=
  [48; 49; 50; 51; 52; 53; 54; 55; 56; 57; 97; 98; 99; 100; 101; 102].

(** [strlen]/[wcslen]: the index of the first NUL. *)
Fixpoint strlen (s : list Z) : Z :=
  match s with
  | [] => 0
  | c :: s' => if c =? 0 then 0 else 1 + strlen s'
  end.

(** ** [asb_vm_id_format] *)

Definition asb_vm_id_format (id : Z) : list Z :=
  [118; 109; 45] ++
  map (λ i, bget hex (Z.land (id ≫ (60 - i * 4)) 15)) (seqZ 0 16) ++ [0].

Definition asb_vm_id_format_w (id : Z) : list Z :=
  map (λ i, bget (asb_vm_id_format id) i) (seqZ 0 ASB_VM_ID_TEXT_SIZE).

(** ** [asb_vm_id_parse] *)

(** The value of one digit, or [None] for the early [return 0]. *)
Definition hex_digit (c : Z) : option Z :=
  if (48 <=? c) && (c <=? 57) then Some (c - 48)
  else if (97 <=? c) && (c <=? 102) then Some (c - (97 - 10))
  else None.

Fixpoint parse_digits (id : Z) (cs : list Z) : Z :=
  match cs with
  | [] => id
  | c :: cs' =>
      match hex_digit (u8 c) with
      | Some d => parse_digits (Z.lor (u64 (id ≪ 4)) d) cs'
      | None => 0
      end
  end.

Definition asb_vm_id_parse (text : option (list Z)) : Z :=
  match text with
  | None => 0
  | Some t =>
      if negb (strlen t =? 19) || negb (bool_decide (take 3 t = [118; 109; 45])) then 0
      else parse_digits 0 (take 16 (drop 3 t))
  end.

Fixpoint narrow (t : list Z) : option (list Z) :=
  match t with
  | [] => Some []
  | c :: t' => if 127 <? u32 c then None else c' ← narrow t'; Some (c :: c')
  end.

Definition asb_vm_id_parse_w (text : option (list Z)) : Z :=
  match text with
  | None => 0
  | Some t =>
      if negb (strlen t =? 19) then 0
      else match narrow (take 20 t) with
           | None => 0
           | Some n => asb_vm_id_parse (Some n)
           end
  end.

(** ** [asb_vm_id_new] and [asb_vm_ids_ensure]

    The system random generator is a stream of outcomes: [Some v] when it
    filled the identifier with [v], [None] when [BCryptGenRandom] failed.  The
    functions return [None] when the stream runs out before they do. *)

Definition rng := list (option Z).

Fixpoint asb_vm_id_new (r : rng) : option (Z * rng) :=
  match r with
  | [] => None
  | None :: r' => Some (0, r')
  | Some v :: r' => if v =? 0 then asb_vm_id_new r' else Some (v, r')
  end.

(** The duplicate scan [for (j = 0; j < i; ++j)]. *)
Definition clear_duplicate (i : nat) (ids : list Z) : list Z :=
  if bool_decide (nth i ids 0 ∈ take i ids) then <[i := 0]> ids else ids.

(** The [for (;;)] that draws candidates until one is new. *)
Fixpoint draw_fresh (fuel : nat) (ids : list Z) (r : rng) : option (Z * rng) :=
  match fuel with
  | O => None
  | S fuel' =>
      '(candidate, r') ← asb_vm_id_new r;
      if candidate =? 0 then Some (0, r')
      else if bool_decide (candidate ∈ ids) then draw_fresh fuel' ids r'
      else Some (candidate, r')
  end.

Fixpoint ids_ensure_from (n : nat) (i : nat) (changed : Z) (ids : list Z) (r : rng)
  : option (Z * list Z * rng) :=
  match n with
  | O => Some (changed, ids, r)
  | S n' =>
      let ids1 := clear_duplicate i ids in
      if negb (nth i ids1 0 =? 0) then ids_ensure_from n' (S i) changed ids1 r
      else
        '(candidate, r') ← draw_fresh (S (length r)) ids1 r;
        if candidate =? 0 then Some (-1, ids1, r')
        else ids_ensure_from n' (S i) 1 (<[i := candidate]> ids1) r'
  end.

Definition asb_vm_ids_ensure (ids : list Z) (r : rng) : option (Z * list Z * rng) :=
  ids_ensure_from (length ids) 0 0 ids r.

#[global] Arguments draw_fresh : simpl never.

(** ** Digits *)

Lemma hex_digit_hex d : 0 <= d < 16 → hex_digit (u8 (bget hex d)) = Some d.
Proof. intros. zenum d; reflexivity. Qed.

Lemma hex_digit_inv c d :
  is_byte c → hex_digit c = Some d → 0 <= d < 16 ∧ bget hex d = c.
Proof.
  unfold hex_digit, is_byte. intros Hc. bcases; intros [= <-]; (split; [lia|]).
  - clear Hc. zenum c; reflexivity.
  - clear Hc E. zenum c; reflexivity.
Qed.

(** ** Round trip *)

(** The digits that [asb_vm_id_format] prints, most significant first. *)
Definition digits (id : Z) (n : Z) : list Z :=
  map (λ i, Z.land (id ≫ (n * 4 - 4 - i * 4)) 15) (seqZ 0 n).

Lemma digits_succ id (n : nat) :
  digits id (Z.of_nat (S n)) = digits (id ≫ 4) (Z.of_nat n) ++ [Z.land id 15].
Proof.
  unfold digits. rewrite Nat2Z.inj_succ.
  replace (seqZ 0 (Z.succ (Z.of_nat n))) with (seqZ 0 (Z.of_nat n) ++ [Z.of_nat n])
    by (rewrite <- (seqZ_S 0 n) || (rewrite <- Z.add_1_r, seqZ_app by lia; simpl; f_equal; f_equal; lia)).
  rewrite map_app. f_equal.
  - apply map_ext_in. intros i Hi%list_elem_of_In%elem_of_seqZ.
    rewrite Z.shiftr_shiftr by lia. do 2 f_equal. lia.
  - simpl. do 2 f_equal. rewrite <- (Z.shiftr_0_r id) at 2. f_equal. lia.
Qed.

Definition push_digit (a d : Z) : Z := Z.lor (u64 (a ≪ 4)) d.
Abbreviation nibbles := (Forall (λ d, 0 <= d < 16)).

Lemma push_digit_val a d :
  0 <= a → 0 <= d < 16 → push_digit a d = u64 (a * 16) + d.
Proof.
  intros. unfold push_digit. rewrite Z.shiftl_mul_pow2 by lia. change (2 ^ 4) with 16.
  assert (E : u64 (a * 16) = (u64 (a * 16) / 16) ≪ 4).
  { rewrite Z.shiftl_mul_pow2 by lia. change (2 ^ 4) with 16. dlia. }
  rewrite E at 1. rewrite Z.lor_comm, lor_shiftl_add by lia. change (2 ^ 4) with 16. dlia.
Qed.

Lemma parse_digits_hex ds acc :
  nibbles ds → parse_digits acc (map (bget hex) ds) = fold_left push_digit ds acc.
Proof.
  intros H. revert acc. induction H as [|d ds Hd Hds IH]; intros acc; [done|].
  simpl. by rewrite hex_digit_hex.
Qed.

Lemma parse_digits_inv cs acc :
  bytes cs → parse_digits acc cs ≠ 0 →
  ∃ ds, nibbles ds ∧ cs = map (bget hex) ds ∧ parse_digits acc cs = fold_left push_digit ds acc.
Proof.
  intros H. revert acc. induction H as [|c cs Hc Hcs IH]; intros acc; simpl.
  - intros. by exists [].
  - rewrite u8_small by done. destruct (hex_digit c) as [d|] eqn:E; [|done].
    intros (ds & ? & -> & ?)%IH. destruct (hex_digit_inv c d Hc E) as [? <-].
    exists (d :: ds). split_and!; [by constructor|done|done].
Qed.

Lemma digits_nibbles id n : nibbles (digits id n).
Proof.
  unfold digits. apply Forall_map, Forall_true. intros i.
  rewrite land_15. apply Z.mod_pos_bound. lia.
Qed.

Lemma fold_digits (n : nat) id :
  0 <= id → (n <= 16)%nat →
  fold_left push_digit (digits id (Z.of_nat n)) 0 = id mod 16 ^ Z.of_nat n.
Proof.
  revert id. induction n as [|n IH]; intros id Hid Hn; [simpl; by rewrite Z.mod_1_r|].
  rewrite digits_succ, fold_left_app, IH by (try (rewrite Z.shiftr_nonneg); lia). simpl fold_left.
  rewrite land_15, Z.shiftr_div_pow2 by lia. change (2 ^ 4) with 16.
  pose proof (Z.mod_pos_bound (id / 16) (16 ^ Z.of_nat n) ltac:(lia)) as B.
  rewrite push_digit_val by dlia. rewrite Nat2Z.inj_succ, Z.pow_succ_r by lia.
  rewrite (Z.rem_mul_r id) by lia. rewrite u64_small; [lia|].
  enough (16 ^ Z.of_nat n <= 1152921504606846976) by lia.
  change 1152921504606846976 with (16 ^ 15). apply Z.pow_le_mono_r; lia.
Qed.

Lemma fold_push_bound ds acc :
  nibbles ds → 0 <= acc < 2 ^ 64 → 0 <= fold_left push_digit ds acc < 2 ^ 64.
Proof.
  intros H. revert acc. induction H as [|d ds Hd Hds IH]; intros acc Ha; [done|].
  simpl. apply IH. rewrite push_digit_val by lia. dlia.
Qed.

Lemma digits_fold ds :
  nibbles ds → (length ds <= 16)%nat →
  digits (fold_left push_digit ds 0) (Z.of_nat (length ds)) = ds ∧
  0 <= fold_left push_digit ds 0 < 16 ^ Z.of_nat (length ds).
Proof.
  induction ds as [|d ds IH] using rev_ind; intros Hn Hl; [split; [done|simpl; lia]|].
  apply Forall_app in Hn as [Hds Hd]. rewrite length_app in Hl |- *. simpl in Hl |- *.
  inversion Hd as [|? ? Hd' _]; subst. destruct (IH Hds ltac:(lia)) as [E B].
  assert (16 ^ Z.of_nat (length ds) <= 1152921504606846976).
  { change 1152921504606846976 with (16 ^ 15). apply Z.pow_le_mono_r; lia. }
  rewrite fold_left_app. simpl fold_left. rewrite push_digit_val by lia.
  rewrite u64_small by lia. set (v := fold_left push_digit ds 0) in *.
  replace (length ds + 1)%nat with (S (length ds)) by lia. split.
  - rewrite digits_succ, land_15, Z.shiftr_div_pow2 by lia. change (2 ^ 4) with 16.
    replace ((v * 16 + d) / 16) with v by dlia. rewrite E. do 2 f_equal. dlia.
  - rewrite Nat2Z.inj_succ, Z.pow_succ_r by lia. lia.
Qed.

Lemma asb_vm_id_format_digits id :
  asb_vm_id_format id = [118; 109; 45] ++ map (bget hex) (digits id 16) ++ [0].
Proof. unfold asb_vm_id_format, digits. by rewrite map_map. Qed.

Lemma strlen_cons_ne c s : c ≠ 0 → strlen (c :: s) = 1 + strlen s.
Proof. intros. simpl. destruct (Z.eqb_spec c 0); lia. Qed.

Lemma hex_nonzero d : 0 <= d < 16 → bget hex d ≠ 0.
Proof. intros. zenum d; done. Qed.

Lemma strlen_hex ds :
  nibbles ds → strlen (map (bget hex) ds ++ [0]) = Z.of_nat (length ds).
Proof.
  induction 1 as [|d ds Hd _ IH]; [done|]. cbn [map app].
  rewrite strlen_cons_ne by (by apply hex_nonzero). rewrite IH. simpl length. lia.
Qed.

Lemma length_digits id n : 0 <= n → Z.of_nat (length (digits id n)) = n.
Proof. intros. unfold digits. rewrite length_map, length_seqZ. lia. Qed.

Lemma length_digits16 id : length (digits id 16) = 16%nat.
Proof. apply Nat2Z.inj. rewrite length_digits; lia. Qed.

Lemma strlen_format id : strlen (asb_vm_id_format id) = 19.
Proof.
  rewrite asb_vm_id_format_digits. cbn [app].
  rewrite (strlen_cons_ne 118), (strlen_cons_ne 109), (strlen_cons_ne 45) by done.
  by rewrite strlen_hex, length_digits16 by apply digits_nibbles.
Qed.

Lemma length_format id : length (asb_vm_id_format id) = 20%nat.
Proof.
  rewrite asb_vm_id_format_digits, !length_app, length_map, length_digits16. done.
Qed.

Lemma format_chars id : Forall (λ c, 0 <= c <= 127) (asb_vm_id_format id).
Proof.
  rewrite asb_vm_id_format_digits. rewrite !Forall_app.
  split_and!; [repeat constructor; lia| |repeat constructor; lia].
  apply Forall_map. eapply List.Forall_impl; [|apply digits_nibbles].
  intros d Hd. simpl in Hd |- *. zenum d; vm_compute; split; discriminate.
Qed.

Lemma format_w_eq id : asb_vm_id_format_w id = asb_vm_id_format id.
Proof.
  unfold asb_vm_id_format_w. apply (nth_ext _ _ 0 0); rewrite length_map, length_seqZ, ?length_format; [done|].
  intros n Hn. rewrite (nth_indep _ 0 (bget (asb_vm_id_format id) 0)) by (rewrite length_map, length_seqZ; lia).
  rewrite map_nth, nth_lookup, lookup_seqZ_lt by (unfold ASB_VM_ID_TEXT_SIZE in *; lia).
  unfold bget. f_equal. simpl. lia.
Qed.

Lemma narrow_ascii t : Forall (λ c, 0 <= c <= 127) t → narrow t = Some t.
Proof.
  induction 1 as [|c t Hc _ IH]; [done|]. simpl. rewrite u32_small by lia.
  destruct (Z.ltb_spec 127 c); [lia|]. by rewrite IH.
Qed.

Lemma strlen_le s : 0 <= strlen s <= Z.of_nat (length s).
Proof. induction s as [|c s IH]; simpl; [lia|]. bcases; lia. Qed.

Lemma parse_format id : is_u64 id → asb_vm_id_parse (Some (asb_vm_id_format id)) = id.
Proof.
  intros Hid. unfold asb_vm_id_parse. rewrite strlen_format, asb_vm_id_format_digits.
  cbn [app take drop]. rewrite take_0, drop_0, take_app_length'
    by (by rewrite length_map, length_digits16).
  rewrite Z.eqb_refl, bool_decide_true by done. cbn [negb orb]. rewrite parse_digits_hex by apply digits_nibbles.
  unfold is_u64 in Hid. rewrite (fold_digits 16) by lia. apply Z.mod_small. exact Hid.
Qed.

(** C1: parsing the text that [asb_vm_id_format] writes gives the identifier
    back, for every 64-bit identifier, through the narrow and the wide pair; and
    a text that parses to a non-zero identifier is exactly that identifier's
    canonical text, so no two texts name the same VM. *)
Theorem asb_vm_id_roundtrip :
  (∀ id, 0 <= id < 2 ^ 64 →
    asb_vm_id_parse (Some (asb_vm_id_format id)) = id ∧
    asb_vm_id_parse_w (Some (asb_vm_id_format_w id)) = id) ∧
  (∀ t, bytes t → asb_vm_id_parse (Some t) ≠ 0 →
    take 19 t = take 19 (asb_vm_id_format (asb_vm_id_parse (Some t)))).
Proof.
  split.
  - intros id Hid. split; [by apply parse_format|].
    rewrite format_w_eq. unfold asb_vm_id_parse_w. rewrite strlen_format, Z.eqb_refl. cbn [negb].
    rewrite take_ge, narrow_ascii by (rewrite ?length_format; auto using format_chars; lia).
    by apply parse_format.
  - intros t Ht. unfold asb_vm_id_parse at 1 2.
    destruct (Z.eqb_spec (strlen t) 19) as [Hl|]; [|done].
    case_bool_decide as Hp; [|done]. cbn [negb orb]. intros Hne.
    destruct (parse_digits_inv (take 16 (drop 3 t)) 0) as (ds & Hds & Hcs & Hv); [auto using Forall_take, Forall_drop|done|].
    assert (Hds16 : length ds = 16%nat).
    { pose proof (strlen_le t). apply (f_equal length) in Hcs.
      rewrite length_take, length_drop, length_map in Hcs. lia. }
    destruct (digits_fold ds) as [E _]; [done|lia|]. rewrite Hds16 in E.
    change (Z.of_nat 16) with 16 in E.
    rewrite Hv, asb_vm_id_format_digits, E, app_assoc, take_app_length'
      by (rewrite length_app, length_map, Hds16; done).
    rewrite <- Hcs, <- Hp. by rewrite take_take_drop.
Qed.

(** ** Repairing a list of identifiers *)

(** What [asb_vm_ids_ensure] promises of positions below [i]. *)
Definition ensured (i : nat) (ids : list Z) : Prop :=
  NoDup (take i ids) ∧ 0 ∉ take i ids.

Lemma ensured_step i ids v :
  (i < length ids)%nat → ensured i ids → v ≠ 0 → v ∉ take i ids → ids !! i = Some v →
  ensured (S i) ids.
Proof.
  intros Hi [Hnd H0] Hv Hfresh Hl. unfold ensured. rewrite (take_S_r _ _ v) by done. split.
  - apply list.NoDup_app. split; [done|]. split; [|apply NoDup_singleton].
    intros x Hx ->%list_elem_of_singleton. done.
  - rewrite not_elem_of_app, list_elem_of_singleton. auto.
Qed.

Lemma nth_lookup_lt (l : list Z) i : (i < length l)%nat → l !! i = Some (nth i l 0).
Proof. intros. destruct (lookup_lt_is_Some_2 l i H) as [x Hx]. by erewrite Hx, nth_lookup_Some. Qed.

Lemma asb_vm_id_new_spec r v r' :
  asb_vm_id_new r = Some (v, r') → ∃ k, r' = drop (S k) r ∧ (k < length r)%nat.
Proof.
  revert v r'. induction r as [|[w|] r IH]; intros v r'; simpl; [done| |].
  - case_match; [|intros [= <- <-]; exists O; simpl; split; [done|lia]].
    intros (k & -> & Hk)%IH. exists (S k). simpl. split; [done|lia].
  - intros [= <- <-]. exists O. simpl. split; [done|lia].
Qed.

Lemma draw_fresh_spec fuel ids r v r' :
  draw_fresh fuel ids r = Some (v, r') → v = 0 ∨ (v ≠ 0 ∧ v ∉ ids).
Proof.
  revert r. induction fuel as [|fuel IH]; intros r; [done|]. unfold draw_fresh; fold draw_fresh.
  destruct (asb_vm_id_new r) as [[c r1]|]; simpl; [|done].
  destruct (Z.eqb_spec c 0); [intros [= <- <-]; by left|].
  case_bool_decide; [apply IH|]. intros [= <- <-]. by right.
Qed.

Lemma clear_duplicate_spec i ids :
  (i < length ids)%nat → ensured i ids →
  length (clear_duplicate i ids) = length ids ∧ take i (clear_duplicate i ids) = take i ids ∧
  (nth i (clear_duplicate i ids) 0 ≠ 0 → ensured (S i) (clear_duplicate i ids)).
Proof.
  intros Hi He. unfold clear_duplicate. case_bool_decide as Hd.
  - rewrite length_insert, take_insert_ge by lia. split_and!; [done|done|].
    intros Hn. exfalso. apply Hn. erewrite nth_lookup_Some; [done|]. by apply list_lookup_insert_eq.
  - split_and!; [done|done|]. intros Hn. by eapply ensured_step; eauto using nth_lookup_lt.
Qed.

Lemma ids_ensure_from_spec n i changed ids r c ids' r' :
  ids_ensure_from n i changed ids r = Some (c, ids', r') →
  (i + n = length ids)%nat → ensured i ids → 0 <= changed →
  length ids' = length ids ∧ (c = -1 ∨ (0 <= c ∧ ensured (length ids) ids')).
Proof.
  revert i changed ids r. induction n as [|n IH]; intros i changed ids r; simpl.
  { intros [= <- <- <-] Hl He Hc. split; [done|right; split; [done|]]. by replace (length ids) with i by lia. }
  intros H Hl He Hc. destruct (clear_duplicate_spec i ids) as (L & T & N); [lia|done|].
  set (ids1 := clear_duplicate i ids) in *.
  destruct (Z.eqb_spec (nth i ids1 0) 0) as [Hz|Hz]; simpl in H.
  - destruct (draw_fresh _ ids1 r) as [[v r1]|] eqn:D; simpl in H; [|done].
    apply draw_fresh_spec in D. destruct (Z.eqb_spec v 0).
    { injection H as <- <- <-. split; [done|by left]. }
    destruct D as [?|[_ Hf]]; [done|]. apply IH in H; rewrite ?length_insert, ?L in *; [done|lia| |lia].
    eapply (ensured_step _ _ v); rewrite ?length_insert, ?L; try lia.
    + unfold ensured. by rewrite take_insert_ge, T.
    + rewrite take_insert_ge by lia. intros Hin. apply Hf. eapply elem_of_take in Hin as (k & ? & ?).
      by eapply list_elem_of_lookup_2.
    + apply list_lookup_insert_eq. lia.
  - apply IH in H; rewrite ?L in *; [done|lia|by apply N|lia].
Qed.

(** Randomness that suffices: the values of the stream that are not taken. *)
Definition fresh_count (ids vs : list Z) : nat :=
  length (filter (λ v, v ∉ ids) vs).

Lemma fresh_count_mono ids ids' vs :
  (∀ v, v ∈ vs → v ∈ ids' → v ∈ ids) → (fresh_count ids vs <= fresh_count ids' vs)%nat.
Proof.
  unfold fresh_count. intros H. induction vs as [|v vs IH]; [done|].
  rewrite !filter_cons. specialize (IH ltac:(set_solver)).
  repeat case_decide; simpl; try lia. exfalso. set_solver.
Qed.

Lemma draw_fresh_live ids vs fuel :
  NoDup vs → 0 ∉ vs → (0 < fresh_count ids vs)%nat → (length vs < fuel)%nat →
  ∃ v vs', draw_fresh fuel ids (map Some vs) = Some (v, map Some vs') ∧ v ≠ 0 ∧ v ∉ vs' ∧
    NoDup vs' ∧ 0 ∉ vs' ∧ fresh_count ids vs = S (fresh_count ids vs').
Proof.
  revert fuel. induction vs as [|v vs IH]; intros fuel Hnd H0 Hf Hl.
  { unfold fresh_count in Hf. simpl in Hf. lia. }
  apply list.NoDup_cons in Hnd as [Hv Hnd]. apply not_elem_of_cons in H0 as [Hv0 H0].
  destruct fuel as [|fuel]; [simpl in Hl; lia|]. unfold draw_fresh; fold draw_fresh. simpl in Hl |- *.
  destruct (Z.eqb_spec v 0); [done|]. simpl. destruct (Z.eqb_spec v 0); [done|].
  unfold fresh_count in *. rewrite filter_cons in Hf |- *.
  case_bool_decide as Hin; case_decide; try done.
  - apply IH; [done|done|done|lia].
  - exists v, vs. by split_and!.
Qed.

Lemma elem_of_insert_inv {A} (l : list A) i x y : y ∈ <[i:=x]> l → y = x ∨ y ∈ l.
Proof.
  revert i. induction l as [|z l IH]; intros [|i]; simpl; rewrite ?elem_of_cons; try tauto.
  intros [->|H]; [tauto|]. destruct (IH _ H); tauto.
Qed.

Lemma ids_ensure_from_live n i changed ids vs :
  NoDup vs → 0 ∉ vs → (n <= fresh_count ids vs)%nat → 0 <= changed →
  ∃ c ids' vs', ids_ensure_from n i changed ids (map Some vs) = Some (c, ids', map Some vs') ∧ 0 <= c.
Proof.
  revert i changed ids vs. induction n as [|n IH]; intros i changed ids vs Hnd H0 Hf Hc; simpl.
  { by exists changed, ids, vs. }
  set (ids1 := clear_duplicate i ids).
  assert (Hf1 : (S n <= fresh_count ids1 vs)%nat).
  { etrans; [exact Hf|]. apply fresh_count_mono. intros v Hv. unfold ids1, clear_duplicate.
    case_bool_decide; [|done]. intros [-> | Hin]%elem_of_insert_inv; done. }
  destruct (Z.eqb_spec (nth i ids1 0) 0) as [Hz|Hz]; simpl; [|apply IH; [done|done|lia|done]].
  destruct (draw_fresh_live ids1 vs (S (length (map Some vs)))) as (v & vs' & E & Hv & Hv' & Hnd' & H0' & Hcnt);
    [done|done|lia|rewrite length_map; lia|].
  rewrite E. simpl. destruct (Z.eqb_spec v 0); [done|]. apply IH; [done|done| |lia].
  assert (fresh_count ids1 vs' <= fresh_count (<[i:=v]> ids1) vs')%nat; [|lia].
  apply fresh_count_mono. intros w Hw [-> | Hin]%elem_of_insert_inv; done.
Qed.

Lemma ids_ensure_from_id n i ids r :
  NoDup ids → 0 ∉ ids → (i + n = length ids)%nat → ids_ensure_from n i 0 ids r = Some (0, ids, r).
Proof.
  intros Hnd H0. revert i. induction n as [|n IH]; intros i Hl; simpl; [done|].
  pose proof (nth_lookup_lt ids i ltac:(lia)) as Hi.
  assert (clear_duplicate i ids = ids) as ->.
  { unfold clear_duplicate. case_bool_decide as Hd; [|done]. exfalso.
    apply elem_of_take in Hd as (k & Hk & ?). pose proof (NoDup_lookup _ _ _ _ Hnd Hi Hk). lia. }
  destruct (Z.eqb_spec (nth i ids 0) 0) as [Hz|]; simpl; [|apply IH; lia].
  exfalso. apply H0. rewrite <- Hz. by eapply list_elem_of_lookup_2.
Qed.

(** C2: [asb_vm_ids_ensure] keeps the number of identifiers; unless the random
    generator fails (result -1) every identifier it leaves is non-zero and they
    are pairwise distinct; a list that already is so is returned untouched with
    result 0 and no randomness drawn; and it does return, with no failure,
    whenever the generator delivers as many distinct non-zero values outside
    the list as the list is long. *)
Theorem asb_vm_ids_ensure_correct ids :
  (∀ r c ids' r', asb_vm_ids_ensure ids r = Some (c, ids', r') →
     length ids' = length ids ∧ (c = -1 ∨ (0 <= c ∧ NoDup ids' ∧ 0 ∉ ids'))) ∧
  (NoDup ids → 0 ∉ ids → ∀ r, asb_vm_ids_ensure ids r = Some (0, ids, r)) ∧
  (∀ vs, NoDup vs → 0 ∉ vs → (length ids <= fresh_count ids vs)%nat →
     ∃ c ids' vs', asb_vm_ids_ensure ids (map Some vs) = Some (c, ids', map Some vs') ∧ 0 <= c).
Proof.
  unfold asb_vm_ids_ensure. split_and!.
  - intros r c ids' r' H. apply ids_ensure_from_spec in H as [L H]; [|done| |done].
    + split; [done|]. destruct H as [?|[? [? ?]]]; [by left|right].
      rewrite <- L, take_ge in * by lia. auto.
    + split; [constructor|apply not_elem_of_nil].
  - intros. by apply ids_ensure_from_id.
  - intros. by apply ids_ensure_from_live.
Qed.

Example asb_vm_ids_ensure_repairs :
  asb_vm_ids_ensure [7; 0; 7] [Some 7; Some 0; Some 5; Some 5; Some 9] =
  Some (1, [7; 5; 9], []).
Proof. vm_compute. reflexivity. Qed.
