(* ===== verification/Events.v ===== *)
(** * Core event fan-out ([src/src/core/asb_events.c])

    A fixed table of 16 subscriptions guarded by a lock; every exported function
    runs its critical section as one step.  The specification is a finite map
    from subscription identifiers to callbacks. *)

From stdpp Require Import gmap.
From S2P Require Import Prelude Bytes.

(** ** State *)

(** A function pointer and its context, as addresses (0 is NULL). *)
Record Subscription := mkSubscription {
  id : Z;
  callback : Z;
  context : Z;
}.

Record EventsState := mkEvents {
  subscribers : list Subscription;   (* [static Subscription subscribers[16]] *)
  next_id : Z;                       (* [static unsigned next_id] *)
}.

Record CoreVmEvent := mkEvent {
  vm_id : Z;
  type : Z;
  vm_name : list Z;
  int_value : Z;
  str_value : option (list Z);
  staging : Z;
}.

Definition CORE_VM_EVENT_LIST_CHANGED : Z := 6.

Definition no_subscription : Subscription := mkSubscription 0 0 0.
Definition init : EventsState := mkEvents (replicate 16 no_subscription) 0.

(** ** Operations *)

(** Index of the first free slot. *)
Fixpoint first_free (l : list Subscription) (i : nat) : option nat :=
  match l with
  | [] => None
  | s :: l' => if id s =? 0 then Some i else first_free l' (S i)
  end.

Definition bump (n : Z) : Z :=
  let n1 := u32 (n + 1) in if n1 =? 0 then u32 (n1 + 1) else n1.

Definition asb_events_subscribe (cb ctx : Z) (s : EventsState) : Z * EventsState :=
  if cb =? 0 then (0, s)
  else match first_free (subscribers s) 0 with
       | None => (0, s)
       | Some i =>
           let n := bump (next_id s) in
           (n, mkEvents (<[i := mkSubscription n cb ctx]> (subscribers s)) n)
       end.

Definition asb_events_unsubscribe (sub : Z) (s : EventsState) : EventsState :=
  mkEvents
    (map (λ e, if id e =? sub then no_subscription else e) (subscribers s))
    (next_id s).

(** The callback invocations, in order, as (callback, context, event). *)
Definition asb_events_emit (ev : CoreVmEvent) (s : EventsState)
  : list (Z * Z * CoreVmEvent) :=
  map (λ e, (callback e, context e, ev))
    (filter (λ e, id e ≠ 0) (subscribers s)).

Definition asb_events_changed (s : EventsState) : list (Z * Z * CoreVmEvent) :=
  asb_events_emit (mkEvent 0 CORE_VM_EVENT_LIST_CHANGED (replicate 128 0) 0 None 0) s.

(** ** Specification: a map of live subscriptions *)

Definition spec := gmap Z (Z * Z).

Definition entry (e : Subscription) : Z * (Z * Z) := (id e, (callback e, context e)).
Definition live (s : EventsState) : list Subscription :=
  filter (λ e, id e ≠ 0) (subscribers s).
Definition absr (s : EventsState) : gmap Z (Z * Z) :=
  list_to_map (map entry (live s)).

(** Table invariant: 16 slots, live identifiers distinct and issued already;
    [k] bounds the identifiers issued so far. *)
Record inv (k : Z) (s : EventsState) : Prop := {
  inv_len : length (subscribers s) = 16%nat;
  inv_nodup : NoDup (map id (live s));
  inv_bound : Forall (λ e, 1 <= id e <= next_id s) (live s);
  inv_next : 0 <= next_id s <= k;
}.

Inductive op := Subscribe (cb ctx : Z) | Unsubscribe (sub : Z).

Definition run_op (s : EventsState) (o : op) : EventsState :=
  match o with
  | Subscribe cb ctx => (asb_events_subscribe cb ctx s).2
  | Unsubscribe i => asb_events_unsubscribe i s
  end.

(** ** Lemmas *)

Lemma init_inv : inv 0 init.
Proof. split; [done|vm_compute; constructor|vm_compute; constructor|done]. Qed.

Lemma first_free_spec l i :
  match first_free l i with
  | Some j => ∃ l1 e l2, l = l1 ++ e :: l2 ∧ j = (i + length l1)%nat ∧ id e = 0 ∧
                         filter (λ e, id e ≠ 0) l1 = l1
  | None => filter (λ e, id e ≠ 0) l = l
  end.
Proof.
  revert i. induction l as [|e l IH]; intros i; simpl; [done|].
  destruct (Z.eqb_spec (id e) 0) as [He|He].
  - exists [], e, l. simpl. split_and!; [done|lia|done|done].
  - specialize (IH (S i)). destruct (first_free l (S i)) as [j|].
    + destruct IH as (l1 & e' & l2 & -> & -> & ? & Hf). exists (e :: l1), e', l2.
      simpl. split_and!; [done|lia|done|]. by rewrite filter_cons_True, Hf.
    + by rewrite filter_cons_True, IH.
Qed.

Lemma subscribe_live cb ctx s n s' :
  cb ≠ 0 → length (subscribers s) = 16%nat →
  asb_events_subscribe cb ctx s = (n, s') → bump (next_id s) ≠ 0 →
  (n = 0 ∧ s' = s ∧ length (live s) = 16%nat) ∨
  (n = bump (next_id s) ∧ next_id s' = n ∧ length (subscribers s') = 16%nat ∧
   (length (live s) < 16)%nat ∧ live s' ≡ₚ mkSubscription n cb ctx :: live s).
Proof.
  intros Hcb Hlen. unfold asb_events_subscribe. destruct (Z.eqb_spec cb 0); [done|].
  pose proof (first_free_spec (subscribers s) 0) as Hf.
  destruct (first_free (subscribers s) 0) as [j|].
  - destruct Hf as (l1 & e & l2 & Hs & -> & He & Hl1). intros [= <- <-] Hb. right.
    unfold live. simpl. rewrite Hs, length_app in Hlen. simpl in Hlen. rewrite Hs.
    replace (length l1) with (length l1 + 0)%nat by lia. rewrite insert_app_r. simpl.
    rewrite !list.filter_app, (filter_cons_False _ e l2), filter_cons_True by (simpl; lia).
    rewrite Hl1, !length_app. simpl.
    pose proof (list.length_filter (λ e, id e ≠ 0) l2). split_and!; try done; try lia.
    by rewrite Permutation_middle.
  - intros [= <- <-] _. left. unfold live. by rewrite Hf.
Qed.

Lemma unsubscribe_live i s :
  i ≠ 0 → live (asb_events_unsubscribe i s) = filter (λ e, id e ≠ i) (live s).
Proof.
  intros Hi. unfold live, asb_events_unsubscribe. simpl.
  induction (subscribers s) as [|e l IH]; [done|]. simpl map.
  destruct (Z.eqb_spec (id e) i) as [He|He].
  - rewrite filter_cons_False by (simpl; lia). rewrite IH.
    rewrite (filter_cons_True _ e l) by (simpl; lia). by rewrite filter_cons_False by (simpl; lia).
  - destruct (decide (id e = 0)).
    + by rewrite !(filter_cons_False (λ e, id e ≠ 0)) by (simpl; lia).
    + by rewrite !filter_cons_True by (simpl; lia); rewrite IH.
Qed.

Lemma unsubscribe_live_0 s : live (asb_events_unsubscribe 0 s) = live s.
Proof.
  unfold live, asb_events_unsubscribe. simpl.
  induction (subscribers s) as [|e l IH]; [done|]. simpl map.
  destruct (Z.eqb_spec (id e) 0) as [He|He].
  - by rewrite !filter_cons_False by (simpl; lia).
  - by rewrite !filter_cons_True, IH by (simpl; lia).
Qed.

Lemma bump_succ n : 0 <= n < 4294967295 → bump n = n + 1.
Proof. intros. unfold bump. rewrite u32_small by lia. bcase; lia. Qed.

Lemma live_not_0 s e : e ∈ live s → id e ≠ 0.
Proof. unfold live. rewrite list_elem_of_filter. tauto. Qed.

Lemma subscribe_inv k cb ctx s :
  inv k s → k < 4294967295 → inv (k + 1) (asb_events_subscribe cb ctx s).2.
Proof.
  intros [Hlen Hnd Hb Hn] Hk. destruct (decide (cb = 0)) as [->|Hcb].
  { split; [done|done|done|simpl; lia]. }
  destruct (asb_events_subscribe cb ctx s) as [n s'] eqn:E. simpl.
  pose proof (bump_succ (next_id s) ltac:(lia)) as B.
  destruct (subscribe_live _ _ _ _ _ Hcb Hlen E) as [(-> & -> & _)|(Hnn & Hn' & Hl' & _ & Hp)];
    [lia|split; [done|done|done|lia]|].
  split; [done| | |lia].
  - rewrite Hp. simpl. apply list.NoDup_cons. split; [|done].
    intros (e & He & Hin)%list_elem_of_fmap.
    apply (proj1 (list.Forall_forall _ _) Hb) in Hin. simpl in Hin. lia.
  - rewrite Hp. constructor; [simpl; lia|]. eapply list.Forall_impl; [exact Hb|]. simpl. lia.
Qed.

Lemma unsubscribe_inv k i s : inv k s → inv k (asb_events_unsubscribe i s).
Proof.
  intros [Hlen Hnd Hb Hn]. destruct (decide (i = 0)) as [->|Hi].
  - split; [by simpl; rewrite length_map|by rewrite unsubscribe_live_0|by rewrite unsubscribe_live_0|done].
  - split; [by simpl; rewrite length_map| | |done]; rewrite unsubscribe_live by done.
    + clear -Hnd. induction (live s) as [|e l IH]; [constructor|].
      simpl in Hnd. apply list.NoDup_cons in Hnd as [He Hnd]. rewrite filter_cons. case_decide; [|auto].
      simpl. apply list.NoDup_cons. split; [|auto].
      intros (e' & E & [_ Hin]%list_elem_of_filter)%list_elem_of_fmap. apply He. rewrite E.
      by apply list_elem_of_fmap_2.
    + apply list.Forall_forall. intros e [_ He]%list_elem_of_filter. by apply (proj1 (list.Forall_forall _ _) Hb).
Qed.

Lemma absr_lookup_None k s n : inv k s → next_id s < n → absr s !! n = None.
Proof.
  intros [_ _ Hb _] Hn. apply not_elem_of_list_to_map. rewrite map_map.
  intros (e & He & Hin)%list_elem_of_fmap. simpl in He.
  apply (proj1 (list.Forall_forall _ _) Hb) in Hin. simpl in Hin. lia.
Qed.

Lemma live_keys s : (map entry (live s)).*1 = map id (live s).
Proof. change (map entry (live s)).*1 with (map fst (map entry (live s))). by rewrite map_map. Qed.

Lemma absr_perm s l :
  NoDup (map id (live s)) → live s ≡ₚ l → absr s = list_to_map (map entry l).
Proof.
  intros Hnd Hp. apply list_to_map_proper; [by rewrite live_keys|]. by rewrite Hp.
Qed.

Lemma absr_unsubscribe k s i :
  inv k s → absr (asb_events_unsubscribe i s) = delete i (absr s).
Proof.
  intros Hinv. destruct (decide (i = 0)) as [->|Hi].
  - unfold absr. rewrite unsubscribe_live_0. symmetry. apply delete_id.
    apply not_elem_of_list_to_map. rewrite live_keys.
    intros (e & He & Hin%live_not_0)%list_elem_of_fmap. by rewrite <- He in Hin.
  - unfold absr. rewrite unsubscribe_live by done. destruct Hinv as [_ Hnd _ _].
    induction (live s) as [|e l IH]; [simpl; by rewrite delete_empty|].
    simpl in Hnd. apply list.NoDup_cons in Hnd as [He Hnd]. specialize (IH Hnd).
    rewrite filter_cons. case_decide as Hd; simpl.
    + by rewrite IH, delete_insert_ne.
    + assert (id e = i) as <- by lia. by rewrite IH, delete_insert_eq.
Qed.

(** ** Reachable tables *)

(** Tables reached with at most [k] subscribe calls. *)
Inductive reachable : Z → EventsState → Prop :=
| reach_init : reachable 0 init
| reach_subscribe k s cb ctx :
    reachable k s → reachable (k + 1) (run_op s (Subscribe cb ctx))
| reach_unsubscribe k s i : reachable k s → reachable k (run_op s (Unsubscribe i)).

Lemma reachable_inv k s : reachable k s → k < 4294967296 → 0 <= k ∧ inv k s.
Proof.
  induction 1 as [|k s cb ctx _ IH|k s i _ IH]; intros Hk.
  - split; [done|apply init_inv].
  - destruct IH as [? IH]; [lia|]. split; [lia|]. apply subscribe_inv; [done|lia].
  - destruct IH as [? IH]; [lia|]. split; [done|]. by apply unsubscribe_inv.
Qed.

Lemma emit_live k s ev :
  inv k s →
  asb_events_emit ev s ≡ₚ map (λ p, (p.2.1, p.2.2, ev)) (map_to_list (absr s)).
Proof.
  intros [_ Hnd _ _]. unfold absr.
  rewrite map_to_list_to_map by (by rewrite live_keys). by rewrite map_map.
Qed.

(** C3: in any table reached by fewer than 2^32 - 1 subscriptions, the code
    refines the map of live subscriptions: a subscription with a callback gets a
    fresh non-zero identifier and is added, unless 16 are live, when the call
    returns 0 and changes nothing; unsubscribing removes exactly that
    identifier; and an event is delivered to each live callback exactly once. *)
Theorem events_refine_map k s :
  reachable k s → k < 4294967295 →
  (∀ cb ctx n s', cb ≠ 0 → asb_events_subscribe cb ctx s = (n, s') →
     (n = 0 ∧ s' = s ∧ size (absr s) = 16%nat) ∨
     (n ≠ 0 ∧ absr s !! n = None ∧ (size (absr s) < 16)%nat ∧
      absr s' = <[n := (cb, ctx)]> (absr s))) ∧
  (∀ i, absr (asb_events_unsubscribe i s) = delete i (absr s)) ∧
  (∀ ev, asb_events_emit ev s ≡ₚ map (λ p, (p.2.1, p.2.2, ev)) (map_to_list (absr s))).
Proof.
  intros Hr Hk. destruct (reachable_inv _ _ Hr) as [Hk0 Hinv]; [lia|].
  assert (Hsz : size (absr s) = length (live s)).
  { unfold absr. rewrite map_size_list_to_map by (rewrite live_keys; apply Hinv). by rewrite length_map. }
  split_and!; [|intros; by eapply absr_unsubscribe|intros; by eapply emit_live].
  intros cb ctx n s' Hcb E. pose proof (inv_next _ _ Hinv) as Hn.
  pose proof (bump_succ (next_id s) ltac:(lia)) as B.
  destruct (subscribe_live _ _ _ _ _ Hcb (inv_len _ _ Hinv) E) as [(-> & -> & ?)|(Hnn & Hn' & _ & ? & Hp)];
    [lia|left; by rewrite Hsz|right].
  pose proof (subscribe_inv k cb ctx s Hinv ltac:(lia)) as Hinv'. rewrite E in Hinv'. simpl in Hinv'.
  split_and!; [lia|eapply absr_lookup_None; [done|lia]|by rewrite Hsz|].
  by rewrite (absr_perm s' _ (inv_nodup _ _ Hinv') Hp).
Qed.

Lemma events_refine_map_witness :
  size (absr (run_op init (Subscribe 4096 1))) = 1%nat ∧
  absr (run_op (run_op init (Subscribe 4096 1)) (Unsubscribe 1)) =
  delete 1 (absr (run_op init (Subscribe 4096 1))).
Proof.
  split; [vm_compute; reflexivity|].
  apply (events_refine_map (0 + 1) (run_op init (Subscribe 4096 1))); [|lia].
  apply reach_subscribe, reach_init.
Defined.
