(* ===== verification/Ring.v ===== *)
(** * SPSC byte rings ([AsbRing] of [src/tools/transport/asb_transport.h],
      [ring_write]/[ring_read] of [src/tools/transport/asb_transport.c])

    A ring lives in the mapped BAR: a 24-byte header at address [r] (head at +0,
    tail at +8, cap at +16) and [cap] data bytes at address [data].  The
    specification is a byte queue of capacity [cap]. *)

From S2P Require Import Prelude Bytes.

(** ** Layout *)

Definition RING_HEAD (r : Z) : Z := r.
Definition RING_TAIL (r : Z) : Z := r + 8.
Definition RING_CAP (r : Z) : Z := r + 16.
(** [sizeof(AsbRing)]. *)
Definition ASB_RING_HDR : Z := 24.

(** ** Operations *)

(** The arithmetic both functions share: bytes used, and bytes left before the
    end of the data area at index [ix]. *)
Definition ring_used (head tail : Z) : Z := u32 (u64 (tail - head)).
Definition ring_first (cap ix : Z) : Z := u32 (cap - u32 (Z.land ix (u32 (cap - 1)))).

(** The number of bytes [ring_write] takes. *)
Definition write_count (head tail cap len : Z) : Z :=
  let freeb := u32 (cap - ring_used head tail) in
  if u32 len <? freeb then u32 len else freeb.

(** The number of bytes [ring_read] delivers. *)
Definition read_count (head tail len : Z) : Z :=
  let used := ring_used head tail in
  if u32 len <? used then u32 len else used.

(** The one or two [memcpy] calls into the data area. *)
Definition copy_in (m : mem) (data cap ix : Z) (src : list Z) : mem :=
  let n := Z.of_nat (length src) in
  let first := ring_first cap ix in
  let off := Z.land ix (u32 (cap - 1)) in
  if n <=? first then mwrite m (data + off) src
  else mwrite (mwrite m (data + off) (take (Z.to_nat first) src))
         data (drop (Z.to_nat first) src).

(** The one or two [memcpy] calls out of the data area. *)
Definition copy_out (m : mem) (data cap ix n : Z) : list Z :=
  let first := ring_first cap ix in
  let off := Z.land ix (u32 (cap - 1)) in
  if n <=? first then mread m (data + off) (Z.to_nat n)
  else mread m (data + off) (Z.to_nat first) ++ mread m data (Z.to_nat (n - first)).

Definition ring_write (m : mem) (r data : Z) (buf : list Z) (len : Z) : mem * Z :=
  let head := ld64 m (RING_HEAD r) in
  let tail := ld64 m (RING_TAIL r) in
  let cap := ld32 m (RING_CAP r) in
  let n := write_count head tail cap len in
  if n =? 0 then (m, 0)
  else
    let m1 := copy_in m data cap tail (take (Z.to_nat n) buf) in
    (st64 m1 (RING_TAIL r) (u64 (tail + n)), i32 n).

(** The new memory, the bytes stored at [buf], and the return value. *)
Definition ring_read (m : mem) (r data : Z) (len : Z) : mem * list Z * Z :=
  let head := ld64 m (RING_HEAD r) in
  let tail := ld64 m (RING_TAIL r) in
  let cap := ld32 m (RING_CAP r) in
  let n := read_count head tail len in
  if n =? 0 then (m, [], 0)
  else
    let out := copy_out m data cap head n in
    (st64 m (RING_HEAD r) (u64 (head + n)), out, i32 n).

(** [asb_ring_drain]: a bare ring whose data follows its header. *)
Definition asb_ring_drain (m : mem) (region_base : option Z) (len : Z) : mem * list Z * Z :=
  match region_base with
  | None => (m, [], 0)
  | Some r => ring_read m r (r + ASB_RING_HDR) len
  end.

(** ** Representation *)

(** The bytes queued in a ring, oldest first. *)
Definition contents (m : mem) (data cap head n : Z) : list Z :=
  map (λ i, m (data + (head + i) mod cap)) (seqZ 0 n).

(** A well-formed ring holding the queue [q]: the capacity is a power of two, at
    most [cap] bytes are in flight, and the header and the data are disjoint. *)
Record ring_at (m : mem) (r data cap head tail : Z) (q : list Z) : Prop := {
  ra_cap : ∃ k, 0 <= k <= 31 ∧ cap = 2 ^ k;
  ra_head : ld64 m (RING_HEAD r) = head;
  ra_tail : ld64 m (RING_TAIL r) = tail;
  ra_capm : ld32 m (RING_CAP r) = cap;
  ra_used : u64 (tail - head) <= cap;
  ra_disj : r + ASB_RING_HDR <= data ∨ data + cap <= r;
  ra_q : q = contents m data cap head (u64 (tail - head));
  ra_hr : is_u64 head;
  ra_tr : is_u64 tail;
}.

(** ** Arithmetic of a power-of-two capacity *)

Lemma cap_bounds cap : (∃ k, 0 <= k <= 31 ∧ cap = 2 ^ k) → 0 < cap <= 2147483648.
Proof.
  intros (k & Hk & ->). split; [lia|]. change 2147483648 with (2 ^ 31).
  apply Z.pow_le_mono_r; lia.
Qed.

Lemma land_cap ix cap :
  (∃ k, 0 <= k <= 31 ∧ cap = 2 ^ k) → Z.land ix (u32 (cap - 1)) = ix mod cap.
Proof.
  intros Hc. pose proof (cap_bounds _ Hc). rewrite u32_small by lia.
  destruct Hc as (k & ? & ->). by rewrite (land_mask _ _ k) by lia.
Qed.

Lemma u64_mod_cap z cap :
  (∃ k, 0 <= k <= 31 ∧ cap = 2 ^ k) → u64 z mod cap = z mod cap.
Proof.
  intros (k & Hk & ->). unfold u64. apply Z.mod_mod_divide.
  exists (2 ^ (64 - k)). rewrite <- Z.pow_add_r by lia. by replace (64 - k + k) with 64 by lia.
Qed.

Lemma ring_first_eq cap ix :
  (∃ k, 0 <= k <= 31 ∧ cap = 2 ^ k) → ring_first cap ix = cap - ix mod cap.
Proof.
  intros Hc. pose proof (cap_bounds _ Hc). unfold ring_first. rewrite land_cap by done.
  pose proof (Z.mod_pos_bound ix cap). rewrite (u32_small (ix mod cap)), u32_small by lia. done.
Qed.

(** Position of the [j]-th byte after index [ix]. *)
Lemma add_mod_cap ix j cap :
  0 < cap → 0 <= j < cap →
  (ix + j) mod cap = if ix mod cap + j <? cap then ix mod cap + j else ix mod cap + j - cap.
Proof.
  intros Hc Hj. pose proof (Z.mod_pos_bound ix cap Hc).
  rewrite <- (Z.add_mod_idemp_l ix j) by lia. bcase.
  - apply Z.mod_small. lia.
  - symmetry. apply (Z.mod_unique_pos _ _ 1); lia.
Qed.

Lemma add_mod_inj ix j1 j2 cap :
  0 < cap → 0 <= j1 < cap → 0 <= j2 < cap →
  (ix + j1) mod cap = (ix + j2) mod cap → j1 = j2.
Proof.
  intros Hc H1 H2. rewrite !add_mod_cap by done. pose proof (Z.mod_pos_bound ix cap Hc).
  bcases; lia.
Qed.

(** ** The copies *)

Lemma copy_in_spec m data cap ix src :
  (∃ k, 0 <= k <= 31 ∧ cap = 2 ^ k) → Z.of_nat (length src) <= cap →
  (∀ j, 0 <= j < cap → copy_in m data cap ix src (data + (ix + j) mod cap) =
     if j <? Z.of_nat (length src) then bget src j else m (data + (ix + j) mod cap)) ∧
  (∀ x, x < data ∨ data + cap <= x → copy_in m data cap ix src x = m x).
Proof.
  intros Hc Hl. pose proof (cap_bounds _ Hc) as Hb. unfold copy_in.
  rewrite ring_first_eq, land_cap by done. pose proof (Z.mod_pos_bound ix cap ltac:(lia)) as Hp.
  set (p := ix mod cap) in *. set (n := Z.of_nat (length src)) in *. split.
  - intros j Hj. rewrite !add_mod_cap by lia. fold p.
    destruct (Z.leb_spec n (cap - p)) as [Hn|Hn].
    + destruct (Z.ltb_spec (p + j) cap), (Z.ltb_spec j n).
      * rewrite mwrite_in by (fold n; lia). f_equal; lia.
      * by rewrite mwrite_out by (fold n; lia).
      * lia.
      * by rewrite mwrite_out by (fold n; lia).
    + destruct (Z.ltb_spec (p + j) cap), (Z.ltb_spec j n); try lia.
      * rewrite mwrite_out, mwrite_in by (rewrite ?length_drop, ?length_take; lia).
        unfold bget. rewrite !nth_lookup, lookup_take_lt by lia. do 2 f_equal; lia.
      * rewrite mwrite_in by (rewrite ?length_drop; lia).
        unfold bget. rewrite !nth_lookup, lookup_drop. do 2 f_equal; lia.
      * by rewrite !mwrite_out by (rewrite ?length_drop, ?length_take; lia).
  - intros x Hx. destruct (Z.leb_spec n (cap - p)) as [Hn|Hn].
    + by rewrite mwrite_out by (fold n; lia).
    + by rewrite !mwrite_out by (rewrite ?length_drop, ?length_take; lia).
Qed.

Lemma length_contents m data cap head n : 0 <= n → Z.of_nat (length (contents m data cap head n)) = n.
Proof. intros. unfold contents. rewrite length_map, length_seqZ. lia. Qed.

Lemma contents_lookup m data cap head n (i : nat) :
  Z.of_nat i < n → contents m data cap head n !! i = Some (m (data + (head + Z.of_nat i) mod cap)).
Proof.
  intros. unfold contents. change (map ?f ?l) with (f <$> l).
  rewrite list_lookup_fmap, lookup_seqZ_lt by lia. simpl. do 3 f_equal; lia.
Qed.

Lemma copy_out_spec m data cap ix n :
  (∃ k, 0 <= k <= 31 ∧ cap = 2 ^ k) → 0 <= n <= cap →
  copy_out m data cap ix n = contents m data cap ix n.
Proof.
  intros Hc Hn. pose proof (cap_bounds _ Hc) as Hb. unfold copy_out.
  rewrite ring_first_eq, land_cap by done. pose proof (Z.mod_pos_bound ix cap ltac:(lia)) as Hp.
  set (p := ix mod cap) in *. pose proof (length_contents m data cap ix n ltac:(lia)) as HL.
  assert (G : ∀ i, (i < Z.to_nat n)%nat →
    nth i (contents m data cap ix n) 0 = m (data + (ix + Z.of_nat i) mod cap)).
  { intros i Hi. apply nth_lookup_Some, contents_lookup. lia. }
  destruct (Z.leb_spec n (cap - p)).
  - apply mread_eq; [lia|]. intros i Hi. rewrite G by done. f_equal.
    rewrite add_mod_cap by lia. fold p. bcase; lia.
  - rewrite <- (take_drop (Z.to_nat (cap - p)) (contents m data cap ix n)). f_equal.
    + apply mread_eq; [rewrite length_take; lia|]. intros i Hi.
      rewrite nth_lookup, lookup_take_lt, <- nth_lookup, G by lia. f_equal.
      rewrite add_mod_cap by lia. fold p. bcase; lia.
    + apply mread_eq; [rewrite length_drop; lia|]. intros i Hi.
      rewrite nth_lookup, lookup_drop, <- nth_lookup, G by lia. f_equal.
      rewrite add_mod_cap by lia. fold p. bcase; lia.
Qed.

(** ** Sequential correctness *)

(** Positions counted from the tail instead of the head. *)
Lemma pos_from_tail cap head tail i :
  (∃ k, 0 <= k <= 31 ∧ cap = 2 ^ k) → is_u64 head →
  let used := u64 (tail - head) in
  (head + i) mod cap = (tail + (if i <? used then i - used + cap else i - used)) mod cap.
Proof.
  intros Hc Hh used. pose proof (cap_bounds _ Hc) as Hb.
  assert (E : (head + i) mod cap = (tail + (i - used)) mod cap).
  { replace (head + i) with ((tail + i) - (tail - head)) by lia.
    rewrite Zminus_mod, <- (u64_mod_cap (tail - head) cap Hc), <- Zminus_mod. fold used.
    f_equal. lia. }
  rewrite E. bcase; [|done]. rewrite Z.add_assoc.
  replace (tail + (i - used)) with (tail + (i - used + cap) + -1 * cap) by lia.
  rewrite Z.mod_add by lia. f_equal. lia.
Qed.

Lemma contents_app m data cap head a b :
  0 <= a → 0 <= b →
  contents m data cap head (a + b) =
  contents m data cap head a ++ contents m data cap (head + a) b.
Proof.
  intros. unfold contents. rewrite seqZ_app, map_app by done. f_equal.
  change (map ?f ?l) with (f <$> l). apply list_eq. intros i.
  rewrite !list_lookup_fmap. destruct (decide (Z.of_nat i < b)).
  - rewrite !lookup_seqZ_lt by lia. simpl. do 4 f_equal; lia.
  - by rewrite !lookup_seqZ_ge by lia.
Qed.

Lemma contents_ext m m' data cap head n :
  (∀ i, 0 <= i < n → m (data + (head + i) mod cap) = m' (data + (head + i) mod cap)) →
  contents m data cap head n = contents m' data cap head n.
Proof.
  intros H. unfold contents. apply map_ext_in. intros i Hi%list_elem_of_In%elem_of_seqZ.
  apply H. lia.
Qed.

Section ring_specs.
Context {m : mem} {r data cap head tail : Z} {q : list Z}.
Context (R : ring_at m r data cap head tail q).

Lemma ring_at_bounds : 0 < cap <= 2147483648.
Proof. apply cap_bounds, R. Qed.

Lemma ring_at_length : Z.of_nat (length q) = u64 (tail - head).
Proof. rewrite (ra_q _ _ _ _ _ _ _ R). apply length_contents, u64_range. Qed.

Lemma ring_used_eq : ring_used head tail = Z.of_nat (length q).
Proof.
  pose proof ring_at_bounds. pose proof (ra_used _ _ _ _ _ _ _ R).
  pose proof (u64_range (tail - head)) as U. unfold is_u64 in U.
  unfold ring_used. rewrite u32_small by lia. by rewrite ring_at_length.
Qed.

Lemma ring_at_fits : Z.of_nat (length q) <= cap.
Proof. rewrite ring_at_length. apply R. Qed.

Lemma write_count_eq len :
  0 <= len < 2147483648 →
  write_count head tail cap len = Z.min len (cap - Z.of_nat (length q)).
Proof.
  intros. pose proof ring_at_bounds. pose proof ring_at_fits. unfold write_count.
  rewrite ring_used_eq, !u32_small by lia. bcase; lia.
Qed.

Lemma read_count_eq len :
  0 <= len < 2147483648 → read_count head tail len = Z.min len (Z.of_nat (length q)).
Proof.
  intros. pose proof ring_at_bounds. pose proof ring_at_fits. unfold read_count.
  rewrite ring_used_eq, u32_small by lia. bcase; lia.
Qed.

(** Publishing [bs], already copied in behind the tail. *)
Lemma ring_publish m' bs :
  Z.of_nat (length q) + Z.of_nat (length bs) <= cap →
  (∀ x, x < data ∨ data + cap <= x → x < RING_TAIL r ∨ RING_TAIL r + 8 <= x → m' x = m x) →
  (∀ i, 0 <= i < Z.of_nat (length q) →
     m' (data + (head + i) mod cap) = m (data + (head + i) mod cap)) →
  (∀ j, 0 <= j < Z.of_nat (length bs) → m' (data + (tail + j) mod cap) = bget bs j) →
  ld64 m' (RING_TAIL r) = u64 (tail + Z.of_nat (length bs)) →
  ring_at m' r data cap head (u64 (tail + Z.of_nat (length bs))) (q ++ bs).
Proof.
  intros Hfit Hframe Hold Hnew Htail. pose proof ring_at_bounds. pose proof ring_at_length as L.
  pose proof (ra_disj _ _ _ _ _ _ _ R). unfold RING_TAIL, RING_HEAD, RING_CAP, ASB_RING_HDR in *.
  assert (U : u64 (u64 (tail + Z.of_nat (length bs)) - head) =
              Z.of_nat (length q) + Z.of_nat (length bs)).
  { rewrite L, u64_sub_l. replace (tail + Z.of_nat (length bs) - head)
      with ((tail - head) + Z.of_nat (length bs)) by lia.
    rewrite <- u64_add_l. apply u64_small. rewrite <- L. lia. }
  split; unfold RING_TAIL, RING_HEAD, RING_CAP, ASB_RING_HDR.
  - apply R.
  - rewrite <- (ra_head _ _ _ _ _ _ _ R). unfold ld64, RING_HEAD. f_equal. apply mread_ext.
    intros. apply Hframe; lia.
  - done.
  - rewrite <- (ra_capm _ _ _ _ _ _ _ R). unfold ld32, RING_CAP. f_equal. apply mread_ext.
    intros. apply Hframe; lia.
  - rewrite U. done.
  - done.
  - rewrite U, contents_app by lia. f_equal.
    + rewrite (ra_q _ _ _ _ _ _ _ R) at 1. rewrite <- L. apply contents_ext.
      intros. symmetry. by apply Hold.
    + apply list_eq_same_length with (n := length bs);
        [apply Nat2Z.inj; rewrite length_contents; lia|done|].
      intros i x y Hi Hx Hy. rewrite contents_lookup in Hy by lia. simplify_eq.
      replace (head + Z.of_nat (length q) + Z.of_nat i) with
        (head + (Z.of_nat (length q) + Z.of_nat i)) by lia.
      rewrite (pos_from_tail cap head tail) by apply R. rewrite <- L.
      destruct (Z.ltb_spec (Z.of_nat (length q) + Z.of_nat i) (Z.of_nat (length q))); [lia|].
      replace (Z.of_nat (length q) + Z.of_nat i - Z.of_nat (length q)) with (Z.of_nat i) by lia.
      rewrite Hnew by lia. unfold bget. rewrite Nat2Z.id. symmetry. by apply nth_lookup_Some.
  - apply R.
  - apply u64_range.
Qed.

(** Retiring the [n] oldest bytes. *)
Lemma ring_retire m' n :
  0 <= n <= Z.of_nat (length q) →
  (∀ x, x < RING_HEAD r ∨ RING_HEAD r + 8 <= x → m' x = m x) →
  ld64 m' (RING_HEAD r) = u64 (head + n) →
  ring_at m' r data cap (u64 (head + n)) tail (drop (Z.to_nat n) q).
Proof.
  intros Hn Hframe Hhead. pose proof ring_at_bounds. pose proof ring_at_length as L.
  pose proof ring_at_fits. pose proof (ra_disj _ _ _ _ _ _ _ R).
  unfold RING_TAIL, RING_HEAD, RING_CAP, ASB_RING_HDR in *.
  assert (U : u64 (tail - u64 (head + n)) = Z.of_nat (length q) - n).
  { rewrite u64_sub_r. replace (tail - (head + n)) with ((tail - head) - n) by lia.
    rewrite <- u64_sub_l, <- L. apply u64_small. lia. }
  split; unfold RING_TAIL, RING_HEAD, RING_CAP, ASB_RING_HDR.
  - apply R.
  - done.
  - rewrite <- (ra_tail _ _ _ _ _ _ _ R). unfold ld64, RING_TAIL. f_equal. apply mread_ext.
    intros. apply Hframe; lia.
  - rewrite <- (ra_capm _ _ _ _ _ _ _ R). unfold ld32, RING_CAP. f_equal. apply mread_ext.
    intros. apply Hframe; lia.
  - rewrite U. lia.
  - done.
  - rewrite U. rewrite (ra_q _ _ _ _ _ _ _ R) at 1. rewrite <- L.
    replace (Z.of_nat (length q)) with (n + (Z.of_nat (length q) - n)) at 1 by lia.
    rewrite contents_app, drop_app_length' by (try (apply Nat2Z.inj; rewrite length_contents); lia).
    unfold contents. apply map_ext_in. intros i _.
    pose proof (Z.mod_pos_bound (head + n + i) cap ltac:(lia)).
    rewrite <- (Z.add_mod_idemp_l (u64 (head + n))), u64_mod_cap, Z.add_mod_idemp_l by (apply R || lia).
    symmetry. apply Hframe. lia.
  - apply u64_range.
  - apply R.
Qed.
End ring_specs.

Lemma i32_small z : 0 <= z < 2147483648 → i32 z = z.
Proof. intros. unfold i32. rewrite Z.mod_small by lia. lia. Qed.

Lemma length_take_Z (l : list Z) n :
  0 <= n <= Z.of_nat (length l) → Z.of_nat (length (take (Z.to_nat n) l)) = n.
Proof. intros. rewrite length_take. lia. Qed.

Lemma ring_write_spec m r data cap head tail q buf len :
  ring_at m r data cap head tail q → 0 <= len < 2147483648 → len <= Z.of_nat (length buf) →
  let n := Z.min len (cap - Z.of_nat (length q)) in
  ∃ m', ring_write m r data buf len = (m', n) ∧
    ring_at m' r data cap head (u64 (tail + n)) (q ++ take (Z.to_nat n) buf) ∧
    (∀ x, x < data ∨ data + cap <= x → x < r + 8 ∨ r + 16 <= x → m' x = m x).
Proof.
  intros R Hlen Hbuf n. pose proof (ring_at_bounds R) as Hb. pose proof (ring_at_fits R) as Hf.
  unfold ring_write. rewrite (ra_head _ _ _ _ _ _ _ R), (ra_tail _ _ _ _ _ _ _ R),
    (ra_capm _ _ _ _ _ _ _ R), (write_count_eq R len Hlen). fold n.
  destruct (Z.eqb_spec n 0) as [Hn|Hn].
  { exists m. rewrite Hn, Z.add_0_r, take_0, app_nil_r. split_and!; [done| |done].
    rewrite u64_small by apply R. done. }
  destruct (copy_in_spec m data cap tail (take (Z.to_nat n) buf)) as [Cin Cout];
    [apply R|rewrite length_take_Z; lia|]. rewrite length_take_Z in Cin by lia.
  assert (HT : ∀ m0 x, x < RING_TAIL r ∨ RING_TAIL r + 8 <= x → st64 m0 (RING_TAIL r) (u64 (tail + n)) x = m0 x).
  { intros. apply mwrite_out. by rewrite length_le_bytes. }
  pose proof (ra_disj _ _ _ _ _ _ _ R) as Hd. unfold ASB_RING_HDR in Hd.
  assert (HD : ∀ ix j m0, 0 <= j < cap → st64 m0 (RING_TAIL r) (u64 (tail + n)) (data + (ix + j) mod cap)
               = m0 (data + (ix + j) mod cap)).
  { intros ix j m0 Hj. apply HT. unfold RING_TAIL. pose proof (Z.mod_pos_bound (ix + j) cap). lia. }
  eexists. split; [rewrite i32_small by lia; reflexivity|]. split.
  - pose proof (ring_publish R (st64 (copy_in m data cap tail (take (Z.to_nat n) buf)) (RING_TAIL r) (u64 (tail + n)))
      (take (Z.to_nat n) buf)) as P. rewrite length_take_Z in P by lia. apply P; [lia| | | |].
    + intros x Hx Ht. by rewrite HT, Cout.
    + intros i Hi. rewrite HD by lia.
      rewrite (pos_from_tail cap head tail i) by apply R. rewrite <- (ring_at_length R).
      destruct (Z.ltb_spec i (Z.of_nat (length q))); [|lia].
      rewrite Cin by lia. bcase; [lia|done].
    + intros j Hj. rewrite HD, Cin by lia. bcase; [done|lia].
    + by rewrite ld64_st64, u64_small by apply u64_range.
  - intros x Hx Ht. rewrite HT, Cout; [done|done|unfold RING_TAIL; lia].
Qed.

Lemma ring_read_spec m r data cap head tail q len :
  ring_at m r data cap head tail q → 0 <= len < 2147483648 →
  let n := Z.min len (Z.of_nat (length q)) in
  ∃ m', ring_read m r data len = (m', take (Z.to_nat n) q, n) ∧
    ring_at m' r data cap (u64 (head + n)) tail (drop (Z.to_nat n) q) ∧
    (∀ x, x < r ∨ r + 8 <= x → m' x = m x).
Proof.
  intros R Hlen n. pose proof (ring_at_bounds R) as Hb. pose proof (ring_at_fits R) as Hf.
  unfold ring_read. rewrite (ra_head _ _ _ _ _ _ _ R), (ra_tail _ _ _ _ _ _ _ R),
    (ra_capm _ _ _ _ _ _ _ R), (read_count_eq R len Hlen). fold n.
  destruct (Z.eqb_spec n 0) as [Hn|Hn].
  { exists m. rewrite Hn, Z.add_0_r, take_0, drop_0. split_and!; [done| |done].
    rewrite u64_small by apply R. done. }
  assert (HT : ∀ x, x < RING_HEAD r ∨ RING_HEAD r + 8 <= x → st64 m (RING_HEAD r) (u64 (head + n)) x = m x).
  { intros. apply mwrite_out. by rewrite length_le_bytes. }
  eexists. split; [|split].
  - rewrite copy_out_spec by (apply R || lia). rewrite i32_small by lia. do 2 f_equal.
    rewrite (ra_q _ _ _ _ _ _ _ R). rewrite <- (ring_at_length R).
    replace (Z.of_nat (length q)) with (n + (Z.of_nat (length q) - n)) by lia.
    rewrite contents_app, take_app_length' by (try (apply Nat2Z.inj; rewrite length_contents); lia). done.
  - apply (ring_retire R); [lia|exact HT|]. by rewrite ld64_st64, u64_small by apply u64_range.
  - exact HT.
Qed.

(** C4: on a well-formed ring holding the queue [q], [ring_write] appends the
    longest prefix of the buffer that fits and returns its length, [ring_read]
    returns the longest prefix of [q] that fits the buffer and removes it; both
    leave the ring well formed (also when the 64-bit indices wrap) and touch
    only the data area and their own index word. *)
Theorem ring_refines_queue m r data cap head tail q :
  ring_at m r data cap head tail q →
  (∀ buf len, 0 <= len < 2 ^ 31 → len <= Z.of_nat (length buf) →
     let n := Z.min len (cap - Z.of_nat (length q)) in
     ∃ m', ring_write m r data buf len = (m', n) ∧
       ring_at m' r data cap head (u64 (tail + n)) (q ++ take (Z.to_nat n) buf) ∧
       (∀ x, x < data ∨ data + cap <= x → x < r + 8 ∨ r + 16 <= x → m' x = m x)) ∧
  (∀ len, 0 <= len < 2 ^ 31 →
     let n := Z.min len (Z.of_nat (length q)) in
     ∃ m', ring_read m r data len = (m', take (Z.to_nat n) q, n) ∧
       ring_at m' r data cap (u64 (head + n)) tail (drop (Z.to_nat n) q) ∧
       (∀ x, x < r ∨ r + 8 <= x → m' x = m x)).
Proof.
  intros R. split; intros; [by apply ring_write_spec|by apply (ring_read_spec _ _ _ cap head tail)].
Qed.

(** An empty 8-byte ring whose indices are about to wrap around 2^64. *)
Definition wrapping_ring : mem :=
  st32 (st64 (st64 (λ _, 0) 0 (2 ^ 64 - 3)) 8 (2 ^ 64 - 3)) 16 8.

Lemma wrapping_ring_at : ring_at wrapping_ring 0 24 8 (2 ^ 64 - 3) (2 ^ 64 - 3) [].
Proof.
  split; try (vm_compute; reflexivity);
    [exists 3; split; [lia|reflexivity]|vm_compute; discriminate|left; vm_compute; discriminate
    |vm_compute; split; [discriminate|reflexivity]|vm_compute; split; [discriminate|reflexivity]].
Qed.

Lemma ring_refines_queue_witness :
  ∃ m', ring_write wrapping_ring 0 24 [1; 2; 3; 4; 5] 5 = (m', 5) ∧
    ring_at m' 0 24 8 (2 ^ 64 - 3) 2 [1; 2; 3; 4; 5].
Proof.
  destruct (proj1 (ring_refines_queue wrapping_ring 0 24 8 (2 ^ 64 - 3) (2 ^ 64 - 3) [] wrapping_ring_at)
    [1; 2; 3; 4; 5] 5 ltac:(lia) ltac:(simpl; lia)) as (m' & H & R & _).
  exists m'. split; [exact H|exact R].
Defined.
