(* ===== verification/RingSpsc.v ===== *)
(** * Concurrent use of a ring by one producer and one consumer

    [ring_write] and [ring_read] run in two processes that share the BAR.  Each
    is split at its shared accesses: the loads of the indices, every byte of the
    [memcpy] calls, and the store that publishes the new index; the steps of the
    two sides interleave arbitrarily.  The memory is sequentially consistent:
    the barriers of the C code are what makes that model right. *)

From S2P Require Import Prelude Bytes Ring.

(** Where each side is; [i] bytes of the current chunk have been copied. *)
Inductive producer :=
| PIdle
| PCopy (bs : list Z) (tail cap : Z) (i : nat).

Inductive consumer :=
| CIdle
| CCopy (head cap n : Z) (i : nat) (out : list Z).

Record spsc := mkSpsc {
  shared : mem;
  prod : producer;
  cons : consumer;
  sent : list Z;     (* bytes whose tail update was published *)
  recvd : list Z;    (* bytes delivered to the reader's callers *)
}.

Section spsc.
Context (r data : Z).

(** Address of the [i]-th byte of a chunk that starts at index [ix]. *)
Definition cell (ix cap : Z) (i : nat) : Z :=
  data + Z.land (u64 (ix + Z.of_nat i)) (u32 (cap - 1)).

Inductive step : spsc → spsc → Prop :=
| p_start m c s v buf len n :
    0 <= len < 2 ^ 31 → len <= Z.of_nat (length buf) →
    n = write_count (ld64 m (RING_HEAD r)) (ld64 m (RING_TAIL r)) (ld32 m (RING_CAP r)) len →
    n ≠ 0 →
    step (mkSpsc m PIdle c s v)
      (mkSpsc m (PCopy (take (Z.to_nat n) buf) (ld64 m (RING_TAIL r)) (ld32 m (RING_CAP r)) 0) c s v)
| p_copy m c s v bs tail cap i :
    (i < length bs)%nat →
    step (mkSpsc m (PCopy bs tail cap i) c s v)
      (mkSpsc (mwrite m (cell tail cap i) [nth i bs 0]) (PCopy bs tail cap (S i)) c s v)
| p_publish m c s v bs tail cap :
    step (mkSpsc m (PCopy bs tail cap (length bs)) c s v)
      (mkSpsc (st64 m (RING_TAIL r) (u64 (tail + Z.of_nat (length bs)))) PIdle c (s ++ bs) v)
| c_start m p s v len n :
    0 <= len < 2 ^ 31 →
    n = read_count (ld64 m (RING_HEAD r)) (ld64 m (RING_TAIL r)) len →
    n ≠ 0 →
    step (mkSpsc m p CIdle s v)
      (mkSpsc m p (CCopy (ld64 m (RING_HEAD r)) (ld32 m (RING_CAP r)) n 0 []) s v)
| c_copy m p s v head cap n i out :
    Z.of_nat i < n →
    step (mkSpsc m p (CCopy head cap n i out) s v)
      (mkSpsc m p (CCopy head cap n (S i) (out ++ [m (cell head cap i)])) s v)
| c_publish m p s v head cap n i out :
    Z.of_nat i = n →
    step (mkSpsc m p (CCopy head cap n i out) s v)
      (mkSpsc (st64 m (RING_HEAD r) (u64 (head + n))) p CIdle s (v ++ out)).

Context (cap0 : Z).

(** What each side knows about the ring while it copies. *)
Definition producer_ok (m : mem) (tail : Z) (q : list Z) (p : producer) : Prop :=
  match p with
  | PIdle => True
  | PCopy bs t cap i =>
      t = tail ∧ cap = cap0 ∧ (i <= length bs)%nat ∧
      Z.of_nat (length q) + Z.of_nat (length bs) <= cap0 ∧
      (∀ j, 0 <= j < Z.of_nat i → m (data + (tail + j) mod cap0) = bget bs j)
  end.

Definition consumer_ok (head : Z) (q : list Z) (c : consumer) : Prop :=
  match c with
  | CIdle => True
  | CCopy h cap n i out =>
      h = head ∧ cap = cap0 ∧ Z.of_nat i <= n <= Z.of_nat (length q) ∧ out = take i q
  end.

Definition invariant (st : spsc) : Prop :=
  ∃ head tail q,
    ring_at (shared st) r data cap0 head tail q ∧ sent st = recvd st ++ q ∧
    producer_ok (shared st) tail q (prod st) ∧ consumer_ok head q (cons st).

Lemma cell_eq ix i :
  (∃ k, 0 <= k <= 31 ∧ cap0 = 2 ^ k) → cell ix cap0 i = data + (ix + Z.of_nat i) mod cap0.
Proof. intros. unfold cell. by rewrite land_cap, u64_mod_cap. Qed.

(** A store outside the header and the queued bytes keeps the queue. *)
Lemma ring_at_frame m m' head tail q :
  ring_at m r data cap0 head tail q →
  (∀ x, x < data ∨ data + cap0 <= x → m' x = m x) →
  (∀ i, 0 <= i < Z.of_nat (length q) →
     m' (data + (head + i) mod cap0) = m (data + (head + i) mod cap0)) →
  ring_at m' r data cap0 head tail q.
Proof.
  intros R Hf Hq. pose proof (ra_disj _ _ _ _ _ _ _ R) as Hd. pose proof (ring_at_bounds R).
  unfold ASB_RING_HDR in Hd. split; try apply R.
  - rewrite <- (ra_head _ _ _ _ _ _ _ R). unfold ld64, RING_HEAD. f_equal.
    apply mread_ext. intros. apply Hf. lia.
  - rewrite <- (ra_tail _ _ _ _ _ _ _ R). unfold ld64, RING_TAIL. f_equal.
    apply mread_ext. intros. apply Hf. lia.
  - rewrite <- (ra_capm _ _ _ _ _ _ _ R). unfold ld32, RING_CAP. f_equal.
    apply mread_ext. intros. apply Hf. lia.
  - rewrite (ra_q _ _ _ _ _ _ _ R) at 1. rewrite <- (ring_at_length R).
    apply contents_ext. intros. symmetry. by apply Hq.
Qed.

Lemma p_copy_ok m head tail q bs i :
  ring_at m r data cap0 head tail q → (i < length bs)%nat →
  producer_ok m tail q (PCopy bs tail cap0 i) →
  let m' := mwrite m (cell tail cap0 i) [nth i bs 0] in
  ring_at m' r data cap0 head tail q ∧ producer_ok m' tail q (PCopy bs tail cap0 (S i)).
Proof.
  intros R Hi (_ & _ & _ & Hfit & Hbs) m'. pose proof (ring_at_bounds R) as Hb.
  assert (Hm : ∀ x, m' x = if x =? data + (tail + Z.of_nat i) mod cap0 then nth i bs 0 else m x).
  { intros x. unfold m'. rewrite cell_eq by apply R. unfold mwrite. simpl.
    destruct (Z.eqb_spec x (data + (tail + Z.of_nat i) mod cap0)) as [->|].
    - rewrite Z.sub_diag. bcase; [done|lia].
    - bcase; [lia|done]. }
  assert (Hin : ∀ j, 0 <= j < cap0 → j ≠ Z.of_nat i →
            m' (data + (tail + j) mod cap0) = m (data + (tail + j) mod cap0)).
  { intros j Hj Hne. rewrite Hm. bcase; [|done]. exfalso. apply Hne.
    apply (add_mod_inj tail _ _ cap0); lia. }
  split.
  - apply (ring_at_frame m); [done| |].
    + intros x Hx. rewrite Hm. bcase; [|done].
      pose proof (Z.mod_pos_bound (tail + Z.of_nat i) cap0). lia.
    + intros k Hk. rewrite (pos_from_tail cap0 head tail k) by apply R.
      rewrite <- (ring_at_length R). destruct (Z.ltb_spec k (Z.of_nat (length q))); [|lia].
      apply Hin; lia.
  - split_and!; [done|done|lia|done|]. intros j Hj.
    destruct (decide (j = Z.of_nat i)) as [->|].
    + rewrite Hm, Z.eqb_refl. unfold bget. by rewrite Nat2Z.id.
    + rewrite Hin by lia. apply Hbs. lia.
Qed.

Lemma step_invariant st st' : step st st' → invariant st → invariant st'.
Proof.
  intros Hstep (head & tail & q & R & Hs & HP & HC). simpl in *.
  pose proof (ring_at_bounds R) as Hb. pose proof (ring_at_fits R) as Hfit.
  destruct Hstep; simpl in *.
  - exists head, tail, q. simpl. split_and!; try done.
    + by rewrite (ra_tail _ _ _ _ _ _ _ R).
    + by rewrite (ra_capm _ _ _ _ _ _ _ R).
    + lia.
    + revert H1. rewrite (ra_head _ _ _ _ _ _ _ R), (ra_tail _ _ _ _ _ _ _ R),
        (ra_capm _ _ _ _ _ _ _ R), (write_count_eq R) by lia. intros ->. rewrite length_take. lia.
    + intros. lia.
  - destruct HP as (-> & -> & Hi & Hf & Hbs).
    destruct (p_copy_ok m head tail q bs i R H) as [R' HP']; [done|]. by exists head, tail, q.
  - destruct HP as (-> & -> & _ & Hf & Hbs).
    exists head, (u64 (tail + Z.of_nat (length bs))), (q ++ bs).
    pose proof (ra_disj _ _ _ _ _ _ _ R) as Hd. unfold ASB_RING_HDR in Hd.
    assert (HT : ∀ x, x < RING_TAIL r ∨ RING_TAIL r + 8 <= x →
              st64 m (RING_TAIL r) (u64 (tail + Z.of_nat (length bs))) x = m x).
    { intros. apply mwrite_out. by rewrite length_le_bytes. }
    assert (HD : ∀ ix j, st64 m (RING_TAIL r) (u64 (tail + Z.of_nat (length bs))) (data + (ix + j) mod cap0)
              = m (data + (ix + j) mod cap0)).
    { intros. apply HT. pose proof (Z.mod_pos_bound (ix + j) cap0). unfold RING_TAIL. lia. }
    simpl. split_and!; try done.
    + apply (ring_publish R); [done|auto|auto| |by rewrite ld64_st64, u64_small by apply u64_range].
      intros. rewrite HD. by apply Hbs.
    + by rewrite Hs, app_assoc.
    + destruct c; [done|]. destruct HC as (-> & -> & Hn & ->). simpl.
      split_and!; try done; rewrite ?length_app; try lia. by rewrite take_app_le by lia.
  - exists head, tail, q. simpl. split_and!; try done.
    + by rewrite (ra_head _ _ _ _ _ _ _ R).
    + by rewrite (ra_capm _ _ _ _ _ _ _ R).
    + revert H0. rewrite (ra_head _ _ _ _ _ _ _ R), (ra_tail _ _ _ _ _ _ _ R),
        (read_count_eq R) by lia. intros ->. lia.
    + revert H0. rewrite (ra_head _ _ _ _ _ _ _ R), (ra_tail _ _ _ _ _ _ _ R),
        (read_count_eq R) by lia. intros ->. lia.
  - exists head, tail, q. destruct HC as (-> & -> & Hn & ->). simpl. split_and!; try done; [lia|lia|].
    rewrite cell_eq by apply R. symmetry. apply take_S_r.
    rewrite (ra_q _ _ _ _ _ _ _ R), <- (ring_at_length R). apply contents_lookup. lia.
  - destruct HC as (-> & -> & Hn & ->). exists (u64 (head + n)), tail, (drop (Z.to_nat n) q).
    assert (HT : ∀ x, x < RING_HEAD r ∨ RING_HEAD r + 8 <= x →
              st64 m (RING_HEAD r) (u64 (head + n)) x = m x).
    { intros. apply mwrite_out. by rewrite length_le_bytes. }
    pose proof (ra_disj _ _ _ _ _ _ _ R) as Hd. unfold ASB_RING_HDR in Hd.
    simpl. split_and!; try done.
    + apply (ring_retire R); [lia|done|]. by rewrite ld64_st64, u64_small by apply u64_range.
    + rewrite Hs, <- app_assoc. f_equal. rewrite <- (take_drop i q) at 1. do 2 f_equal. lia.
    + destruct p; [done|]. destruct HP as (-> & -> & ? & ? & Hbs). simpl. split_and!; try done.
      * rewrite length_drop. lia.
      * intros j Hj. rewrite HT; [by apply Hbs|].
        pose proof (Z.mod_pos_bound (tail + j) cap0). unfold RING_HEAD. lia.
Qed.
End spsc.

(** C5: however the steps of one producer and one consumer interleave, starting
    on an empty ring, the consumer has received exactly a prefix of what the
    producer published, the rest of which is the queue the ring holds, never
    more than its capacity. *)
Theorem spsc_prefix r data cap m head st :
  ring_at m r data cap head head [] →
  rtc (step r data) (mkSpsc m PIdle CIdle [] []) st →
  ∃ head' tail' q,
    ring_at (shared st) r data cap head' tail' q ∧
    sent st = recvd st ++ q ∧ Z.of_nat (length q) <= cap.
Proof.
  intros R Hrtc.
  enough (I : invariant r data cap st).
  { destruct I as (h & t & q & R' & E & _). exists h, t, q. split_and!; [done|done|apply (ring_at_fits R')]. }
  revert Hrtc. apply rtc_ind_r; [by exists head, head, []|].
  intros st1 st2 _ H12 I. by eapply step_invariant.
Qed.

(** The producer sends one byte while the consumer is idle, then the consumer
    takes it. *)
Lemma spsc_prefix_witness :
  ∃ st, rtc (step 0 24) (mkSpsc wrapping_ring PIdle CIdle [] []) st ∧
    sent st = [9] ∧ recvd st = [9] ∧
    ∃ head' tail' q, ring_at (shared st) 0 24 8 head' tail' q ∧ sent st = recvd st ++ q ∧
      Z.of_nat (length q) <= 8.
Proof.
  assert (H : ∃ st, rtc (step 0 24) (mkSpsc wrapping_ring PIdle CIdle [] []) st ∧ sent st = [9] ∧ recvd st = [9]).
  { eexists. split; [|split].
    - eapply rtc_l; [apply (p_start 0 24 _ _ _ _ [9] 1 1); [lia|simpl; lia|vm_compute; reflexivity|lia]|].
      eapply rtc_l; [apply p_copy; simpl; lia|].
      eapply rtc_l; [apply (p_publish 0 24 _ _ _ _ [9])|].
      eapply rtc_l; [apply (c_start 0 24 _ _ _ _ 1 1); [lia|vm_compute; reflexivity|lia]|].
      eapply rtc_l; [apply c_copy; simpl; lia|].
      eapply rtc_l; [apply c_publish; simpl; lia|]. apply rtc_refl.
    - reflexivity.
    - vm_compute. reflexivity. }
  destruct H as (st & Hrtc & Hs & Hr). exists st. split; [exact Hrtc|]. split; [exact Hs|]. split; [exact Hr|].
  exact (spsc_prefix 0 24 8 wrapping_ring (2 ^ 64 - 3) st wrapping_ring_at Hrtc).
Defined.
