(* ===== verification/ShmLayout.v ===== *)
(** * The shared-memory region table ([src/tools/transport/asb_shm_layout.h])

    The launcher writes the directory and initialises every slot before the
    guest boots.  Publication is modelled as the list of its stores, in program
    order, so that what a guest can observe part way is expressible. *)

From S2P Require Import Prelude Bytes Ring.

(** ** Constants ([asb_transport.h], [asb_shm_layout.h]) *)

Definition ASB_CH_AGENT : Z := 1.
Definition ASB_CH_DISPLAY : Z := 2.
Definition ASB_CH_INPUT : Z := 3.
Definition ASB_CH_AUDIO : Z := 4.
Definition ASB_CH_CLIPBOARD : Z := 5.
Definition ASB_CH_CLIPBOARD_READER : Z := 6.
Definition ASB_CH_SSH : Z := 7.
Definition ASB_CH_9P : Z := 50001.

Definition ASB_SHM_DIR_MAGIC : Z := 0x31444D4853425341.
Definition ASB_SHM_VERSION : Z := 1.
Definition ASB_REGION_STREAM : Z := 1.
Definition ASB_REGION_FRAME : Z := 2.
Definition ASB_SLOT_HDR : Z := 64.
Definition ASB_SLOT_OWNER_OFFSET : Z := 8.
Definition ASB_SLOT_HOST_TOKEN_OFFSET : Z := 16.
Definition ASB_SLOT_GUEST_ACK_OFFSET : Z := 24.
Definition ASB_SLOT_HOST_GEN_OFFSET : Z := 32.
Definition ASB_SLOT_GUEST_HB_OFFSET : Z := 40.

Definition ASB_SLOT_FREE : Z := 0.
Definition ASB_SLOT_CONNECTING : Z := 1.
Definition ASB_SLOT_ESTABLISHED : Z := 2.
Definition ASB_SLOT_CLOSING : Z := 3.
Definition ASB_SLOT_CLOSED : Z := 4.

Definition ASB_FRAME_REGION_OFF : Z := 0x10000.
Definition ASB_FRAME_REGION_SIZE : Z := 48 * 1024 * 1024.
Definition ASB_DISPLAY_RING_CAP : Z := 0x1000000.
Definition ASB_DISPLAY_H2G_CAP : Z := 4096.
Definition ASB_INPUT_REGION_OFF : Z := ASB_FRAME_REGION_OFF + ASB_FRAME_REGION_SIZE.
Definition ASB_INPUT_REGION_SIZE : Z := 0x10000.
Definition ASB_INPUT_RING_CAP : Z := 4096.
Definition ASB_AUDIO_REGION_OFF : Z := ASB_INPUT_REGION_OFF + ASB_INPUT_REGION_SIZE.
Definition ASB_AUDIO_REGION_SIZE : Z := 0x100000.
Definition ASB_AUDIO_RING_CAP : Z := 0x40000.
Definition ASB_CLIPW_REGION_OFF : Z := ASB_AUDIO_REGION_OFF + ASB_AUDIO_REGION_SIZE.
Definition ASB_CLIPW_REGION_SIZE : Z := 0x400000.
Definition ASB_CLIPR_REGION_OFF : Z := ASB_CLIPW_REGION_OFF + ASB_CLIPW_REGION_SIZE.
Definition ASB_CLIPR_REGION_SIZE : Z := 0x400000.
Definition ASB_CLIP_RING_CAP : Z := 0x100000.
Definition ASB_AGENT_REGION_OFF : Z := ASB_CLIPR_REGION_OFF + ASB_CLIPR_REGION_SIZE.
Definition ASB_AGENT_REGION_SIZE : Z := 0x21000.
Definition ASB_AGENT_RING_CAP : Z := 0x10000.
Definition ASB_SSH_REGION_OFF : Z := ASB_AGENT_REGION_OFF + ASB_AGENT_REGION_SIZE.
Definition ASB_SSH_REGION_SIZE : Z := 0x200000.
Definition ASB_SSH_RING_CAP : Z := 0x20000.
Definition ASB_SSH_N_SLOTS : Z := 4.
Definition ASB_P9_REGION_OFF : Z := ASB_SSH_REGION_OFF + ASB_SSH_REGION_SIZE.
Definition ASB_P9_REGION_SIZE : Z := 0x400000.
Definition ASB_P9_RING_CAP : Z := 0x20000.
Definition ASB_P9_N_SLOTS : Z := 2.

(** [ASB_SLOT_HDR + (hdr + g2h) + (hdr + h2g)]. *)
Definition slot_stride (g2h_cap h2g_cap : Z) : Z :=
  ASB_SLOT_HDR + (ASB_RING_HDR + g2h_cap) + (ASB_RING_HDR + h2g_cap).
Definition ASB_DISPLAY_SLOT_STRIDE : Z := slot_stride ASB_DISPLAY_RING_CAP ASB_DISPLAY_H2G_CAP.
Definition ASB_INPUT_SLOT_STRIDE : Z := ASB_SLOT_HDR + 2 * (ASB_RING_HDR + ASB_INPUT_RING_CAP).
Definition ASB_AUDIO_SLOT_STRIDE : Z := ASB_SLOT_HDR + 2 * (ASB_RING_HDR + ASB_AUDIO_RING_CAP).
Definition ASB_CLIP_SLOT_STRIDE : Z := ASB_SLOT_HDR + 2 * (ASB_RING_HDR + ASB_CLIP_RING_CAP).
Definition ASB_AGENT_SLOT_STRIDE : Z := ASB_SLOT_HDR + 2 * (ASB_RING_HDR + ASB_AGENT_RING_CAP).
Definition ASB_SSH_SLOT_STRIDE : Z := ASB_SLOT_HDR + 2 * (ASB_RING_HDR + ASB_SSH_RING_CAP).
Definition ASB_P9_SLOT_STRIDE : Z := ASB_SLOT_HDR + 2 * (ASB_RING_HDR + ASB_P9_RING_CAP).
Definition ASB_SHM_N_REGIONS : Z := 8.

(** ** The directory *)

Record AsbShmRegionDesc := mkDesc {
  channel_id : Z;
  flags : Z;
  offset : Z;
  size : Z;
  n_slots : Z;
  stride : Z;     (* the field [slot_stride] *)
}.

(** Offsets in [AsbShmDirectory] and in one 32-byte descriptor. *)
Definition DIR_MAGIC : Z := 0.
Definition DIR_VERSION : Z := 8.
Definition DIR_BAR_SIZE : Z := 12.
Definition DIR_N_REGIONS : Z := 32.
Definition DIR_REGIONS : Z := 40.
Definition DESC_SIZE : Z := 32.

(** [&dir->regions[idx]]. *)
Definition desc_addr (dir idx : Z) : Z := dir + DIR_REGIONS + idx * DESC_SIZE.

(** [*d], the descriptor at address [d]. *)
Definition read_desc (m : mem) (d : Z) : AsbShmRegionDesc :=
  mkDesc (ld32 m d) (ld32 m (d + 4)) (ld64 m (d + 8)) (ld64 m (d + 16))
    (ld32 m (d + 24)) (ld32 m (d + 28)).

(** ** Stores *)

Inductive store :=
| Fill (a n v : Z)          (* memset *)
| St32 (a v : Z)
| St64 (a v : Z).

Definition do_store (m : mem) (s : store) : mem :=
  match s with
  | Fill a n v => mfill m a n v
  | St32 a v => st32 m a v
  | St64 a v => st64 m a v
  end.

Definition do_stores (m : mem) (l : list store) : mem := fold_left do_store l m.

Definition asb_shm_init_slots (bar off n_slots strd g2h_cap h2g_cap : Z) : list store :=
  concat (map (λ i,
    let slot := bar + off + i * strd in
    let g2h := slot + ASB_SLOT_HDR in
    let h2g := g2h + ASB_RING_HDR + g2h_cap in
    [Fill slot strd 0; St32 (RING_CAP g2h) g2h_cap; St32 (RING_CAP h2g) h2g_cap;
     St32 slot ASB_SLOT_FREE]) (seqZ 0 n_slots)).

Definition asb_shm_set_region (dir idx channel off sz n_slots strd : Z) : list store :=
  let d := desc_addr dir idx in
  [St32 d channel; St32 (d + 4) ASB_REGION_STREAM; St64 (d + 8) off; St64 (d + 16) sz;
   St32 (d + 24) n_slots; St32 (d + 28) strd].

Definition asb_shm_publish (bar bar_size : Z) : list store :=
  [Fill bar 4096 0; St32 (bar + DIR_VERSION) ASB_SHM_VERSION;
   St32 (bar + DIR_BAR_SIZE) (u32 bar_size); St32 (bar + DIR_N_REGIONS) ASB_SHM_N_REGIONS] ++
  asb_shm_set_region bar 0 ASB_CH_DISPLAY ASB_FRAME_REGION_OFF ASB_FRAME_REGION_SIZE 1 ASB_DISPLAY_SLOT_STRIDE ++
  asb_shm_set_region bar 1 ASB_CH_INPUT ASB_INPUT_REGION_OFF ASB_INPUT_REGION_SIZE 1 ASB_INPUT_SLOT_STRIDE ++
  asb_shm_set_region bar 2 ASB_CH_AUDIO ASB_AUDIO_REGION_OFF ASB_AUDIO_REGION_SIZE 1 ASB_AUDIO_SLOT_STRIDE ++
  asb_shm_set_region bar 3 ASB_CH_CLIPBOARD ASB_CLIPW_REGION_OFF ASB_CLIPW_REGION_SIZE 1 ASB_CLIP_SLOT_STRIDE ++
  asb_shm_set_region bar 4 ASB_CH_CLIPBOARD_READER ASB_CLIPR_REGION_OFF ASB_CLIPR_REGION_SIZE 1 ASB_CLIP_SLOT_STRIDE ++
  asb_shm_set_region bar 5 ASB_CH_AGENT ASB_AGENT_REGION_OFF ASB_AGENT_REGION_SIZE 1 ASB_AGENT_SLOT_STRIDE ++
  asb_shm_set_region bar 6 ASB_CH_SSH ASB_SSH_REGION_OFF ASB_SSH_REGION_SIZE ASB_SSH_N_SLOTS ASB_SSH_SLOT_STRIDE ++
  asb_shm_set_region bar 7 ASB_CH_9P ASB_P9_REGION_OFF ASB_P9_REGION_SIZE ASB_P9_N_SLOTS ASB_P9_SLOT_STRIDE ++
  asb_shm_init_slots bar ASB_FRAME_REGION_OFF 1 ASB_DISPLAY_SLOT_STRIDE ASB_DISPLAY_RING_CAP ASB_DISPLAY_H2G_CAP ++
  asb_shm_init_slots bar ASB_INPUT_REGION_OFF 1 ASB_INPUT_SLOT_STRIDE ASB_INPUT_RING_CAP ASB_INPUT_RING_CAP ++
  asb_shm_init_slots bar ASB_AUDIO_REGION_OFF 1 ASB_AUDIO_SLOT_STRIDE ASB_AUDIO_RING_CAP ASB_AUDIO_RING_CAP ++
  asb_shm_init_slots bar ASB_CLIPW_REGION_OFF 1 ASB_CLIP_SLOT_STRIDE ASB_CLIP_RING_CAP ASB_CLIP_RING_CAP ++
  asb_shm_init_slots bar ASB_CLIPR_REGION_OFF 1 ASB_CLIP_SLOT_STRIDE ASB_CLIP_RING_CAP ASB_CLIP_RING_CAP ++
  asb_shm_init_slots bar ASB_AGENT_REGION_OFF 1 ASB_AGENT_SLOT_STRIDE ASB_AGENT_RING_CAP ASB_AGENT_RING_CAP ++
  asb_shm_init_slots bar ASB_SSH_REGION_OFF ASB_SSH_N_SLOTS ASB_SSH_SLOT_STRIDE ASB_SSH_RING_CAP ASB_SSH_RING_CAP ++
  asb_shm_init_slots bar ASB_P9_REGION_OFF ASB_P9_N_SLOTS ASB_P9_SLOT_STRIDE ASB_P9_RING_CAP ASB_P9_RING_CAP ++
  [St64 (bar + DIR_MAGIC) ASB_SHM_DIR_MAGIC].

(** ** Reading around stores *)

(** The store leaves the [n] bytes at [a] alone. *)
Definition clear_of (a n : Z) (s : store) : Prop :=
  match s with
  | Fill b k _ => a + n <= b ∨ b + k <= a
  | St32 b _ => a + n <= b ∨ b + 4 <= a
  | St64 b _ => a + n <= b ∨ b + 8 <= a
  end.

Lemma do_store_clear m s a n x : clear_of a n s → a <= x < a + n → do_store m s x = m x.
Proof.
  destruct s; simpl; intros.
  - apply mfill_out. lia.
  - apply mwrite_out. rewrite length_le_bytes. lia.
  - apply mwrite_out. rewrite length_le_bytes. lia.
Qed.

Lemma do_stores_clear m l a n x : Forall (clear_of a n) l → a <= x < a + n → do_stores m l x = m x.
Proof.
  intros H Hx. revert m. induction H as [|s l Hs _ IH]; intros m; [done|].
  cbn [do_stores fold_left]. fold (do_stores (do_store m s) l). rewrite IH. by eapply do_store_clear.
Qed.

Lemma ld32_do_stores m l a : Forall (clear_of a 4) l → ld32 (do_stores m l) a = ld32 m a.
Proof. intros. unfold ld32. f_equal. apply mread_ext. intros. by eapply do_stores_clear. Qed.
Lemma ld64_do_stores m l a : Forall (clear_of a 8) l → ld64 (do_stores m l) a = ld64 m a.
Proof. intros. unfold ld64. f_equal. apply mread_ext. intros. by eapply do_stores_clear. Qed.

(** The last store to a word decides its value. *)
Lemma ld32_last_store m l1 a v l2 :
  Forall (clear_of a 4) l2 → ld32 (do_stores m (l1 ++ St32 a v :: l2)) a = u32 v.
Proof.
  intros. unfold do_stores. rewrite fold_left_app. cbn [fold_left do_store].
  fold (do_stores (st32 (fold_left do_store l1 m) a v) l2). by rewrite ld32_do_stores, ld32_st32.
Qed.
Lemma ld64_last_store m l1 a v l2 :
  Forall (clear_of a 8) l2 → ld64 (do_stores m (l1 ++ St64 a v :: l2)) a = u64 v.
Proof.
  intros. unfold do_stores. rewrite fold_left_app. cbn [fold_left do_store].
  fold (do_stores (st64 (fold_left do_store l1 m) a v) l2). by rewrite ld64_do_stores, ld64_st64.
Qed.
