(* ===== verification/Slots.v ===== *)
(** * Finding a region and binding a slot ([asb_transport.c]), against the
      published layout *)

From S2P Require Import Prelude Bytes Ring ShmLayout.

(** ** [find_region] *)

(** The loop of [find_region]; the result is the descriptor's address. *)
Fixpoint find_region_from (fuel : nat) (m : mem) (dir i channel : Z) : option Z :=
  match fuel with
  | O => None
  | S fuel' =>
      if (i <? ld32 m (dir + DIR_N_REGIONS)) && (i <? 16) then
        if channel_id (read_desc m (desc_addr dir i)) =? u32 channel then Some (desc_addr dir i)
        else find_region_from fuel' m dir (i + 1) channel
      else None
  end.

(** [g_dir] is NULL until the BAR is mapped. *)
Definition find_region (m : mem) (g_dir : option Z) (channel : Z) : option Z :=
  match g_dir with
  | None => None
  | Some dir => find_region_from 17 m dir 0 channel
  end.

Lemma find_region_from_Some fuel m dir i ch d :
  find_region_from fuel m dir i ch = Some d →
  ∃ j, i <= j < ld32 m (dir + DIR_N_REGIONS) ∧ d = desc_addr dir j ∧
    channel_id (read_desc m d) = u32 ch.
Proof.
  revert i. induction fuel as [|fuel IH]; intros i; cbn [find_region_from]; [done|].
  destruct (i <? ld32 m (dir + DIR_N_REGIONS)) eqn:E1; [|done].
  destruct (i <? 16); [|done]. cbn [andb].
  destruct (channel_id (read_desc m (desc_addr dir i)) =? u32 ch) eqn:E2; zbool.
  - intros [= <-]. exists i. split_and!; [lia|lia|done|done].
  - intros (j & ? & ?)%IH. exists j. split; [lia|done].
Qed.

(** ** [bind_slot] *)

(** The pointers into the BAR of [struct AsbConn]. *)
Record SlotPtrs := mkPtrs {
  state : Z;
  owner_id : Z;
  host_token : Z;
  guest_ack : Z;
  guest_hb : Z;
  g2h : Z;
  g2h_data : Z;
  h2g : Z;
  h2g_data : Z;
}.

Definition bind_slot (m : mem) (g_bar : Z) (r : AsbShmRegionDesc) (slot_index : Z) : SlotPtrs :=
  let slot := g_bar + offset r + slot_index * stride r in
  let g := slot + ASB_SLOT_HDR in
  let gd := g + ASB_RING_HDR in
  let h := gd + ld32 m (RING_CAP g) in
  mkPtrs slot (slot + ASB_SLOT_OWNER_OFFSET) (slot + ASB_SLOT_HOST_TOKEN_OFFSET)
    (slot + ASB_SLOT_GUEST_ACK_OFFSET) (slot + ASB_SLOT_GUEST_HB_OFFSET)
    g gd h (h + ASB_RING_HDR).

(** ** The layout the host and the guest must agree on *)

(** Every region with the capacities of its two rings. *)
Definition layout : list (AsbShmRegionDesc * Z * Z) :=
  [ (mkDesc ASB_CH_DISPLAY 1 ASB_FRAME_REGION_OFF ASB_FRAME_REGION_SIZE 1 ASB_DISPLAY_SLOT_STRIDE,
     ASB_DISPLAY_RING_CAP, ASB_DISPLAY_H2G_CAP);
    (mkDesc ASB_CH_INPUT 1 ASB_INPUT_REGION_OFF ASB_INPUT_REGION_SIZE 1 ASB_INPUT_SLOT_STRIDE,
     ASB_INPUT_RING_CAP, ASB_INPUT_RING_CAP);
    (mkDesc ASB_CH_AUDIO 1 ASB_AUDIO_REGION_OFF ASB_AUDIO_REGION_SIZE 1 ASB_AUDIO_SLOT_STRIDE,
     ASB_AUDIO_RING_CAP, ASB_AUDIO_RING_CAP);
    (mkDesc ASB_CH_CLIPBOARD 1 ASB_CLIPW_REGION_OFF ASB_CLIPW_REGION_SIZE 1 ASB_CLIP_SLOT_STRIDE,
     ASB_CLIP_RING_CAP, ASB_CLIP_RING_CAP);
    (mkDesc ASB_CH_CLIPBOARD_READER 1 ASB_CLIPR_REGION_OFF ASB_CLIPR_REGION_SIZE 1 ASB_CLIP_SLOT_STRIDE,
     ASB_CLIP_RING_CAP, ASB_CLIP_RING_CAP);
    (mkDesc ASB_CH_AGENT 1 ASB_AGENT_REGION_OFF ASB_AGENT_REGION_SIZE 1 ASB_AGENT_SLOT_STRIDE,
     ASB_AGENT_RING_CAP, ASB_AGENT_RING_CAP);
    (mkDesc ASB_CH_SSH 1 ASB_SSH_REGION_OFF ASB_SSH_REGION_SIZE ASB_SSH_N_SLOTS ASB_SSH_SLOT_STRIDE,
     ASB_SSH_RING_CAP, ASB_SSH_RING_CAP);
    (mkDesc ASB_CH_9P 1 ASB_P9_REGION_OFF ASB_P9_REGION_SIZE ASB_P9_N_SLOTS ASB_P9_SLOT_STRIDE,
     ASB_P9_RING_CAP, ASB_P9_RING_CAP) ].

(** [l] fits in the BAR after the directory page, in order and without overlap. *)
Fixpoint placed (lo hi : Z) (l : list (AsbShmRegionDesc * Z * Z)) : Prop :=
  match l with
  | [] => lo <= hi
  | (d, _, _) :: l' =>
      lo <= offset d ∧ n_slots d * stride d <= size d ∧ placed (offset d + size d) hi l'
  end.

(** A freshly initialised slot: free, its rings empty, ending inside it. *)
Definition fresh_slot (m : mem) (d : AsbShmRegionDesc) (gcap hcap i : Z) : Prop :=
  let p := bind_slot m 0 d i in
  ld32 m (state p) = ASB_SLOT_FREE ∧
  ring_at m (g2h p) (g2h_data p) gcap 0 0 [] ∧
  ring_at m (h2g p) (h2g_data p) hcap 0 0 [] ∧
  h2g p = g2h_data p + gcap ∧
  h2g_data p + hcap = state p + stride d.

Lemma fresh_ring m r data cap :
  (∃ k, 0 <= k <= 31 ∧ cap = 2 ^ k) → data = r + ASB_RING_HDR →
  ld64 m (RING_HEAD r) = 0 → ld64 m (RING_TAIL r) = 0 → ld32 m (RING_CAP r) = cap →
  ring_at m r data cap 0 0 [].
Proof.
  intros Hc -> Hh Ht Hm. pose proof (cap_bounds _ Hc). split; try done.
  - change (u64 (0 - 0)) with 0. lia.
  - left. lia.
Qed.

(** No store of [l] touches the directory's magic word. *)
Definition misses_magic (s : store) : bool :=
  match s with
  | Fill a n _ => (8 <=? a) || (a + n <=? 0)
  | St32 a _ => (8 <=? a) || (a + 4 <=? 0)
  | St64 a _ => (8 <=? a) || (a + 8 <=? 0)
  end.

Lemma misses_magic_all m l :
  forallb misses_magic l = true → ld64 (do_stores m l) DIR_MAGIC = ld64 m DIR_MAGIC.
Proof.
  intros H. apply ld64_do_stores. apply list.Forall_forall. intros s Hs%list_elem_of_In.
  apply (proj1 (forallb_forall _ _) H) in Hs. unfold DIR_MAGIC.
  destruct s; simpl in *; zbool; lia.
Qed.

(** The last store of the publication is the magic word's; the others, after
    the page is cleared, leave it alone. *)
Lemma publish_split bar_size :
  ∃ body, asb_shm_publish 0 bar_size = Fill 0 4096 0 :: body ++ [St64 DIR_MAGIC ASB_SHM_DIR_MAGIC] ∧
    forallb misses_magic body = true.
Proof.
  exists (take 99 (drop 1 (asb_shm_publish 0 bar_size))).
  unfold asb_shm_publish. generalize (u32 bar_size) as v. intros v.
  vm_compute. split; reflexivity.
Qed.

(** Part way through the publication the magic word reads 0. *)
Lemma publish_partial m bar_size k :
  (0 < k < length (asb_shm_publish 0 bar_size))%nat →
  ld64 (do_stores m (take k (asb_shm_publish 0 bar_size))) DIR_MAGIC = 0.
Proof.
  destruct (publish_split bar_size) as (body & -> & Hb). intros Hk.
  destruct k as [|k]; [lia|]. simpl in Hk. rewrite length_app in Hk. simpl in Hk.
  cbn [take]. rewrite take_app_le by lia. cbn [do_stores fold_left do_store].
  fold (do_stores (mfill m 0 4096 0) (take k body)). rewrite misses_magic_all.
  - unfold ld64. rewrite mread_mfill_in by (unfold DIR_MAGIC; lia). reflexivity.
  - rewrite <- (take_drop k body), forallb_app in Hb. by apply andb_true_iff in Hb as [? _].
Qed.

Ltac each_region H :=
  unfold layout in H;
  repeat (apply elem_of_cons in H as [H|H]; [injection H as -> -> ->|]);
  [..|by apply not_elem_of_nil in H].

Ltac pow2_cap :=
  first [exists 12; split; [lia|reflexivity] | exists 16; split; [lia|reflexivity]
        | exists 17; split; [lia|reflexivity] | exists 18; split; [lia|reflexivity]
        | exists 20; split; [lia|reflexivity] | exists 24; split; [lia|reflexivity]].

Section published.
Context (m : mem) (bar_size : Z).
Let m' := do_stores m (asb_shm_publish 0 bar_size).

Lemma published_regions d gcap hcap :
  (d, gcap, hcap) ∈ layout →
  ∃ a, find_region m' (Some 0) (channel_id d) = Some a ∧ read_desc m' a = d.
Proof.
  unfold m', asb_shm_publish. generalize (u32 bar_size) as v. intros v H.
  each_region H;
    [exists (desc_addr 0 0)|exists (desc_addr 0 1)|exists (desc_addr 0 2)|exists (desc_addr 0 3)
    |exists (desc_addr 0 4)|exists (desc_addr 0 5)|exists (desc_addr 0 6)|exists (desc_addr 0 7)];
    (split; vm_compute; reflexivity).
Qed.

Lemma published_slots d gcap hcap i :
  (d, gcap, hcap) ∈ layout → 0 <= i < n_slots d → fresh_slot m' d gcap hcap i.
Proof.
  unfold m', asb_shm_publish. generalize (u32 bar_size) as v. intros v H Hi.
  each_region H; unfold n_slots, ASB_SSH_N_SLOTS, ASB_P9_N_SLOTS in Hi;
    first [assert (i = 0) as -> by lia | assert (i = 0 ∨ i = 1) as [-> | ->] by lia
          | assert (i = 0 ∨ i = 1 ∨ i = 2 ∨ i = 3) as [-> | [-> | [-> | ->]]] by lia];
    (split; [vm_compute; reflexivity|]);
    (split; [apply fresh_ring; [pow2_cap| | | |]; vm_compute; reflexivity|]);
    (split; [apply fresh_ring; [pow2_cap| | | |]; vm_compute; reflexivity|]);
    vm_compute; split; reflexivity.
Qed.

(** Nothing else is found. *)
Lemma published_only ch a :
  find_region m' (Some 0) ch = Some a → read_desc m' a ∈ layout.*1.*1.
Proof.
  intros (j & Hj & -> & _)%find_region_from_Some.
  revert Hj. unfold m', asb_shm_publish. generalize (u32 bar_size) as v. intros v.
  match goal with |- context [ld32 ?x (0 + DIR_N_REGIONS)] =>
    assert (ld32 x (0 + DIR_N_REGIONS) = 8) as -> by (vm_compute; reflexivity) end.
  intros Hj. apply list_elem_of_In.
  assert (j = 0 ∨ j = 1 ∨ j = 2 ∨ j = 3 ∨ j = 4 ∨ j = 5 ∨ j = 6 ∨ j = 7) as Hc by lia.
  destruct Hc as [->|[->|[->|[->|[->|[->|[->| ->]]]]]]]; vm_compute; tauto.
Qed.
End published.

(** C6: once [asb_shm_publish] has run, [find_region] finds exactly the eight
    channels, each with its descriptor; every slot of every region is FREE with
    two empty rings of the agreed capacities that end where the slot ends; the
    regions follow the directory page in order, disjoint, inside the 128 MiB BAR;
    and a guest that looks while the publication is under way never sees the
    magic word. *)
Theorem publish_layout m bar_size :
  let m' := do_stores m (asb_shm_publish 0 bar_size) in
  ld64 m' DIR_MAGIC = ASB_SHM_DIR_MAGIC ∧
  (∀ d gcap hcap, (d, gcap, hcap) ∈ layout →
     (∃ a, find_region m' (Some 0) (channel_id d) = Some a ∧ read_desc m' a = d) ∧
     ∀ i, 0 <= i < n_slots d → fresh_slot m' d gcap hcap i) ∧
  (∀ ch a, find_region m' (Some 0) ch = Some a → read_desc m' a ∈ layout.*1.*1) ∧
  placed 4096 (128 * 1024 * 1024) layout ∧
  (∀ k, (0 < k < length (asb_shm_publish 0 bar_size))%nat →
     ld64 (do_stores m (take k (asb_shm_publish 0 bar_size))) DIR_MAGIC = 0).
Proof.
  split_and!.
  - destruct (publish_split bar_size) as (body & -> & _).
    unfold do_stores. cbn [fold_left]. rewrite fold_left_app.
    cbn [fold_left do_store]. by rewrite ld64_st64.
  - intros d gcap hcap H. split; [by apply (published_regions m bar_size d gcap hcap)|].
    intros. by apply published_slots.
  - apply published_only.
  - vm_compute. repeat split; discriminate.
  - intros. by apply publish_partial.
Qed.
