(* ===== verification/Interact.v ===== *)
(** * Guest code against a concurrently running host

    The transport's guest functions poll words of the BAR that the host writes
    at any moment.  They are programs of a state monad over a [world]: the
    memory, a time index and the globals of [asb_transport.c].  Every access to
    shared memory, every clock read and every [Sleep] first lets the host act:
    [env k] is what the host does to the memory between the accesses [k] and
    [k + 1], and is arbitrary unless a theorem restricts it.  Loops take fuel;
    [None] is only ever "out of fuel". *)

From S2P Require Import Prelude Bytes.

(** ** The world *)

(** Accesses of the guest to the words of a slot, for the protocol theorems. *)
Inductive event :=
| EvLoad (a v : Z)
| EvStore (a v : Z).

Record world := mkW {
  w_mem : mem;
  w_now : nat;                (* index of the next shared access *)
  w_seq : Z;                  (* g_accept_seq *)
  w_pid : Z;                  (* g_guest_pid *)
  w_allocs : nat;             (* calls of calloc so far *)
  w_hb : list (nat * Z);      (* g_hb_conns: the connection and its guest_hb word *)
  w_trace : list event;       (* slot words accessed, newest first *)
}.

Definition M (A : Type) : Type := world → option (A * world).
#[export] Instance M_ret : MRet M := λ A x w, Some (x, w).
#[export] Instance M_bind : MBind M := λ A B k m w,
  match m w with None => None | Some (a, w') => k a w' end.

Lemma bind_Some {A B} (m : M A) (k : A → M B) w b w' :
  (x ← m; k x) w = Some (b, w') ↔ ∃ a w1, m w = Some (a, w1) ∧ k a w1 = Some (b, w').
Proof.
  unfold mbind, M_bind. destruct (m w) as [[a w1]|].
  - split; [by exists a, w1|by intros (? & ? & [= -> ->] & ?)].
  - split; [done|by intros (? & ? & ? & ?)].
Qed.

Lemma ret_Some {A} (a : A) w b w' : (mret a : M A) w = Some (b, w') ↔ b = a ∧ w' = w.
Proof. unfold mret, M_ret. split; [by intros [= -> ->]|by intros [-> ->]]. Qed.

(** ** Loops *)

(** A C loop: the body either continues with a new state or leaves. *)
Fixpoint loop {X A} (fuel : nat) (body : X → M (X + A)) (s : X) : M A :=
  match fuel with
  | O => λ _, None
  | S fuel' => r ← body s; match r with inl s' => loop fuel' body s' | inr a => mret a end
  end.

(** Every completed run of [m] from a [P] world ends in [Q]. *)
Definition triple {A} (P : world → Prop) (m : M A) (Q : A → world → Prop) : Prop :=
  ∀ w a w', P w → m w = Some (a, w') → Q a w'.

Lemma loop_inv {X A} (I : X → world → Prop) (Q : A → world → Prop) body :
  (∀ s, triple (I s) (body s) (λ r w, match r with inl s' => I s' w | inr a => Q a w end)) →
  ∀ fuel s, triple (I s) (loop fuel body s) Q.
Proof.
  intros Hb fuel. induction fuel as [|fuel IH]; intros s w a w' HI H; [done|].
  apply bind_Some in H as (r & w1 & H1 & H). pose proof (Hb s _ _ _ HI H1) as Hr.
  destruct r as [s'|b]; [by eapply IH|]. by apply ret_Some in H as [-> ->].
Qed.

(** More fuel, and bodies given more fuel, do not change a result. *)
Definition extends {A} (m m' : M A) : Prop := ∀ w r, m w = Some r → m' w = Some r.

Lemma extends_refl {A} (m : M A) : extends m m.
Proof. by intros w r H. Qed.

Lemma extends_bind {A B} (m m' : M A) (k k' : A → M B) :
  extends m m' → (∀ a, extends (k a) (k' a)) → extends (x ← m; k x) (x ← m'; k' x).
Proof.
  intros Hm Hk w [b w']. rewrite !bind_Some. intros (a & w1 & H1 & H2).
  exists a, w1. split; [by apply Hm|by apply Hk].
Qed.

Lemma extends_loop {X A} (b b' : X → M (X + A)) f f' s :
  (∀ s, extends (b s) (b' s)) → (f <= f')%nat → extends (loop f b s) (loop f' b' s).
Proof.
  intros Hb. revert f' s. induction f as [|f IH]; intros f' s Hf; [by intros w r|].
  destruct f' as [|f']; [lia|]. simpl. apply extends_bind; [done|].
  intros [s'|a]; [apply IH; lia|apply extends_refl].
Qed.

(** Total correctness of a loop whose body takes fuel too: [Nat]-valued measure. *)
Lemma loop_total {X A} (I : X → world → Prop) (μ : X → world → nat) (Q : A → world → Prop)
    (body : nat → X → M (X + A)) :
  (∀ f f' s, (f <= f')%nat → extends (body f s) (body f' s)) →
  (∀ s w, I s w → ∃ f r w', body f s w = Some (r, w') ∧
     match r with inl s' => I s' w' ∧ (μ s' w' < μ s w)%nat | inr a => Q a w' end) →
  ∀ s w, I s w → ∃ f a w', loop f (body f) s w = Some (a, w') ∧ Q a w'.
Proof.
  intros Hmono Hb s w. remember (μ s w) as n eqn:En. revert s w En.
  induction n as [n IH] using (well_founded_induction lt_wf). intros s w -> HI.
  destruct (Hb s w HI) as (f & r & w1 & Hf & Hr). destruct r as [s'|a].
  - destruct Hr as [HI' Hlt]. destruct (IH _ Hlt s' w1 eq_refl HI') as (f' & a & w' & Hl & HQ).
    exists (S (f `max` f'))%nat, a, w'. split; [|done]. simpl. apply bind_Some.
    exists (inl s'), w1. split.
    + eapply Hmono; [|exact Hf]. lia.
    + eapply (extends_loop (body f')); [intros s0; apply Hmono; lia| |exact Hl]. lia.
  - exists (S f), a, w1. split; [|done]. simpl. apply bind_Some.
    exists (inr a), w1. split; [eapply Hmono; [|exact Hf]; lia|done].
Qed.

(** ** Shared accesses *)

Section accesses.
Context (env : nat → mem → mem) (clock : nat → Z).

(** The host acts once. *)
Definition host (w : world) : world :=
  mkW (env (w_now w) (w_mem w)) (S (w_now w)) (w_seq w) (w_pid w) (w_allocs w) (w_hb w) (w_trace w).

Definition log (e : event) (w : world) : world :=
  mkW (w_mem w) (w_now w) (w_seq w) (w_pid w) (w_allocs w) (w_hb w) (e :: w_trace w).

Definition put_mem (m : mem) (w : world) : world :=
  mkW m (w_now w) (w_seq w) (w_pid w) (w_allocs w) (w_hb w) (w_trace w).

(** A [Sleep], or the time between two accesses. *)
Definition pause : M unit := λ w, Some (tt, host w).

Definition load32 (a : Z) : M Z := λ w,
  let v := ld32 (w_mem (host w)) a in Some (v, log (EvLoad a v) (host w)).
Definition load64 (a : Z) : M Z := λ w,
  let v := ld64 (w_mem (host w)) a in Some (v, log (EvLoad a v) (host w)).
Definition store32 (a v : Z) : M unit := λ w,
  Some (tt, log (EvStore a v) (put_mem (st32 (w_mem (host w)) a v) (host w))).
Definition store64 (a v : Z) : M unit := λ w,
  Some (tt, log (EvStore a v) (put_mem (st64 (w_mem (host w)) a v) (host w))).

(** A function of the memory, after the host has acted. *)
Definition gets {A} (f : mem → A) : M A := λ w, Some (f (w_mem (host w)), host w).

(** A memory transformer, after the host has acted. *)
Definition updates {A} (f : mem → mem * A) : M A := λ w,
  Some ((f (w_mem (host w))).2, put_mem (f (w_mem (host w))).1 (host w)).

(** [GetTickCount64()]; its wrap-around, after 584 million years, is left out. *)
Definition GetTickCount64 : M Z := λ w, Some (clock (w_now (host w)), host w).

(** Completed runs of the accesses. *)
Lemma pause_Some w u w' : pause w = Some (u, w') → w' = host w.
Proof. by intros [= _ <-]. Qed.
Lemma load32_Some a w v w' :
  load32 a w = Some (v, w') → v = ld32 (w_mem (host w)) a ∧ w' = log (EvLoad a v) (host w).
Proof. unfold load32. generalize (ld32 (w_mem (host w)) a). by intros ? [= <- <-]. Qed.
Lemma load64_Some a w v w' :
  load64 a w = Some (v, w') → v = ld64 (w_mem (host w)) a ∧ w' = log (EvLoad a v) (host w).
Proof. unfold load64. generalize (ld64 (w_mem (host w)) a). by intros ? [= <- <-]. Qed.
Lemma store32_Some a v w u w' :
  store32 a v w = Some (u, w') →
  w' = log (EvStore a v) (put_mem (st32 (w_mem (host w)) a v) (host w)).
Proof. unfold store32. by intros [= _ <-]. Qed.
Lemma store64_Some a v w u w' :
  store64 a v w = Some (u, w') →
  w' = log (EvStore a v) (put_mem (st64 (w_mem (host w)) a v) (host w)).
Proof. unfold store64. by intros [= _ <-]. Qed.
Lemma gets_Some {A} (f : mem → A) w v w' :
  gets f w = Some (v, w') → v = f (w_mem (host w)) ∧ w' = host w.
Proof. unfold gets. generalize (f (w_mem (host w))). by intros ? [= <- <-]. Qed.
Lemma updates_Some {A} (f : mem → mem * A) w v w' :
  updates f w = Some (v, w') →
  v = (f (w_mem (host w))).2 ∧ w' = put_mem (f (w_mem (host w))).1 (host w).
Proof. unfold updates. generalize (f (w_mem (host w))). by intros ? [= <- <-]. Qed.
Lemma GetTickCount64_Some w v w' :
  GetTickCount64 w = Some (v, w') → v = clock (w_now (host w)) ∧ w' = host w.
Proof. unfold GetTickCount64. by intros [= <- <-]. Qed.
End accesses.

(** [mlet H v w Ev Ew]: the next step of the run [H] yields [v] in the world
    [w]; [Ev] and [Ew] say what they are. *)
Tactic Notation "mlet" hyp(H) ident(v) ident(w) ident(Ev) ident(Ew) :=
  apply bind_Some in H as (v & w & Ew & H);
  first
    [ apply load32_Some in Ew as [Ev Ew] | apply load64_Some in Ew as [Ev Ew]
    | apply gets_Some in Ew as [Ev Ew] | apply updates_Some in Ew as [Ev Ew]
    | apply GetTickCount64_Some in Ew as [Ev Ew] | idtac ].
(** The same for a step without a result. *)
Tactic Notation "mdo" hyp(H) ident(w) ident(Ew) :=
  let u := fresh "u" in
  apply bind_Some in H as (u & w & Ew & H); destruct u;
  first
    [ apply pause_Some in Ew | apply store32_Some in Ew | apply store64_Some in Ew | idtac ].
Ltac mret H :=
  let E := fresh "E" in
  apply ret_Some in H as [H E];
  match type of E with ?x = _ => subst x end;
  try match type of H with ?x = _ => subst x end.

(** The clock never goes back and passes every deadline. *)
Record live_clock (clock : nat → Z) : Prop := {
  clock_mono : ∀ i j, (i <= j)%nat → clock i <= clock j;
  clock_live : ∀ t, ∃ j, t <= clock j;
}.

(** A concrete run that is known to end well, named. *)
Lemma run_result {A B} (m : option (option A * B)) (P : A → B → Prop) :
  match m with Some (Some c, w) => P c w | _ => False end →
  ∃ c w, m = Some (Some c, w) ∧ P c w.
Proof. destruct m as [[[c|] w]|]; [by exists c, w|done|done]. Qed.
Lemma run_some {A B} (m : option (A * B)) (P : A → B → Prop) :
  match m with Some (a, w) => P a w | None => False end → ∃ a w, m = Some (a, w) ∧ P a w.
Proof. destruct m as [[a w]|]; [by exists a, w|done]. Qed.
