(* ===== verification/Accept.v ===== *)
(** * The guest's side of the connection handshake
      ([src/tools/transport/asb_transport.c]: [asb_listen], [asb_accept],
      [asb_connect], the liveness registry and [next_owner_id])

    Backend: ivshmem.  On channels 1 to 7 the host owns the slot's [state] word:
    it publishes CONNECTING with a fresh [host_token], the guest answers by
    writing [owner_id] and echoing the token in [guest_ack], the host publishes
    ESTABLISHED.  On the 9P channel the guest is the connector and owns [state].
    The AF_HYPERV branches only call Winsock and are not modelled. *)

From S2P Require Import Prelude Bytes Ring ShmLayout Slots Interact.

(** [struct AsbListener]: the channel and the address of its descriptor. *)
Record AsbListener := mkListener { l_channel : Z; l_region : Z }.

(** [struct AsbConn]; [c_id] is the identity of the allocation. *)
Record AsbConn := mkConn {
  c_id : nat;
  channel : Z;
  send_timeout_ms : Z;
  ptrs : SlotPtrs;
  my_owner_id : Z;
  my_host_token : Z;
}.

Definition ACCEPT_EST_WAIT_MS : Z := 2000.
Definition ASB_HB_MAX_CONNS : nat := 64.

(** ** Pure globals *)

(** [InterlockedIncrement] on a 32-bit [LONG]. *)
Definition next_owner_id : M Z := λ w,
  let seq := i32 (w_seq w + 1) in
  Some (Z.lor (u64 (Z.shiftl (w_pid w) 32)) (u32 seq),
        mkW (w_mem w) (w_now w) seq (w_pid w) (w_allocs w) (w_hb w) (w_trace w)).

Definition set_hb (f : list (nat * Z) → list (nat * Z)) : M unit := λ w,
  Some (tt, mkW (w_mem w) (w_now w) (w_seq w) (w_pid w) (w_allocs w) (f (w_hb w)) (w_trace w)).

Definition hb_add (c : AsbConn) (l : list (nat * Z)) : list (nat * Z) :=
  if Nat.ltb (length l) ASB_HB_MAX_CONNS then l ++ [(c_id c, guest_hb (ptrs c))] else l.

(** The array entry is replaced by the last one, and the count decremented. *)
Fixpoint hb_remove (c : nat) (l : list (nat * Z)) : list (nat * Z) :=
  match l with
  | [] => []
  | e :: l' =>
      if Nat.eqb (e.1) c then
        match last l' with None => [] | Some z => z :: take (length l' - 1) l' end
      else e :: hb_remove c l'
  end.

Definition hb_register (c : AsbConn) : M unit := set_hb (hb_add c).
Definition hb_unregister (c : AsbConn) : M unit := set_hb (hb_remove (c_id c)).

(** One round of [hb_thread_proc]: [( *c->guest_hb)++] for each entry. *)
Definition hb_tick (m : mem) (hb : list (nat * Z)) : mem :=
  fold_left (λ m e, st64 m e.2 (u64 (ld64 m e.2 + 1))) hb m.

Section transport.
Context (env : nat → mem → mem) (clock : nat → Z).
(** Whether the [k]-th [calloc] succeeds. *)
Context (alloc : nat → bool).
(** [g_bar], where the BAR is mapped ([g_dir] points to it too). *)
Context (g_bar : Z).

Abbreviation load32 := (load32 env).
Abbreviation load64 := (load64 env).
Abbreviation store32 := (store32 env).
Abbreviation store64 := (store64 env).
Abbreviation GetTickCount64 := (GetTickCount64 env clock).
Abbreviation pause := (pause env).

(** A fresh allocation, or NULL. *)
Definition calloc : M (option nat) := λ w,
  Some (if alloc (w_allocs w) then Some (w_allocs w) else None,
        mkW (w_mem w) (w_now w) (w_seq w) (w_pid w) (S (w_allocs w)) (w_hb w) (w_trace w)).

Definition asb_listen (chan : Z) : M (option AsbListener) :=
  p ← calloc;
  match p with
  | None => mret None
  | Some _ =>
      r ← gets env (λ m, find_region m (Some g_bar) chan);
      match r with
      | None => mret None
      | Some r => mret (Some (mkListener chan r))
      end
  end.

Definition bind (region s : Z) : M SlotPtrs :=
  gets env (λ m, bind_slot m g_bar (read_desc m region) s).

(** ** [asb_accept] *)

(** One turn of the wait for ESTABLISHED: [inr true] leaves with a connection,
    [inr false] is [break]. *)
Definition wait_body (p : SlotPtrs) (tok accepted : Z) (_ : unit) : M (unit + bool) :=
  st2 ← load32 (state p);
  tok2 ← load64 (host_token p);
  if (st2 =? ASB_SLOT_ESTABLISHED) && (tok2 =? tok) then mret (inr true)
  else if negb (tok2 =? tok) || (st2 =? ASB_SLOT_FREE) || (st2 =? ASB_SLOT_CLOSED)
          || (st2 =? ASB_SLOT_CLOSING) then mret (inr false)
  else
    now ← GetTickCount64;
    if ACCEPT_EST_WAIT_MS <=? now - accepted then mret (inr false)
    else _ ← pause; mret (inl tt).

(** One slot; [Some r] means that [asb_accept] returns [r]. *)
Definition try_slot (fuel : nat) (l : AsbListener) (s : Z) : M (option (option AsbConn)) :=
  p ← bind (l_region l) s;
  st ← load32 (state p);
  tok ← load64 (host_token p);
  ack ← load64 (guest_ack p);
  if (st =? ASB_SLOT_CONNECTING) && negb (tok =? 0) && negb (ack =? tok) then
    accepted ← GetTickCount64;
    oid ← next_owner_id;
    _ ← store64 (owner_id p) oid;
    _ ← store64 (guest_ack p) tok;
    ok ← loop fuel (wait_body p tok accepted) tt;
    if (ok : bool) then
      c ← calloc;
      match c with
      | None => mret (Some None)
      | Some i =>
          let c := mkConn i (l_channel l) 0 p oid tok in
          _ ← hb_register c; mret (Some (Some c))
      end
    else mret None
  else mret None.

(** [for (s = 0; s < l->region->n_slots; s++)]. *)
Definition scan_body (fuel : nat) (l : AsbListener) (s : Z) : M (Z + option (option AsbConn)) :=
  n ← gets env (λ m, n_slots (read_desc m (l_region l)));
  if s <? n then
    r ← try_slot fuel l s;
    match r with
    | Some c => mret (inr (Some c))
    | None => mret (inl (u32 (s + 1)))
    end
  else mret (inr None).

Definition accept_body (fuel : nat) (l : AsbListener) (timeout_ms started : Z) (_ : unit)
    : M (unit + option AsbConn) :=
  r ← loop fuel (scan_body fuel l) 0;
  match r with
  | Some c => mret (inr c)
  | None =>
      if 0 <=? timeout_ms then
        now ← GetTickCount64;
        if timeout_ms <=? now - started then mret (inr None) else _ ← pause; mret (inl tt)
      else _ ← pause; mret (inl tt)
  end.

Definition asb_accept (fuel : nat) (l : option AsbListener) (timeout_ms : Z) : M (option AsbConn) :=
  match l with
  | None => mret None
  | Some l =>
      started ← GetTickCount64;
      loop fuel (accept_body fuel l timeout_ms started) tt
  end.

(** ** [asb_connect] (the guest connects out, channel 9P) *)

(** [while ( *state != ESTABLISHED)]: [inr false] is the five-second timeout. *)
Definition connect_wait (p : SlotPtrs) (started : Z) (_ : unit) : M (unit + bool) :=
  st ← load32 (state p);
  if st =? ASB_SLOT_ESTABLISHED then mret (inr true)
  else
    now ← GetTickCount64;
    if 5000 <=? now - started then
      _ ← store32 (state p) ASB_SLOT_FREE; mret (inr false)
    else _ ← pause; mret (inl tt).

Definition connect_body (fuel : nat) (chan r s : Z) : M (Z + option AsbConn) :=
  n ← gets env (λ m, n_slots (read_desc m r));
  if s <? n then
    p ← bind r s;
    st ← load32 (state p);
    if st =? ASB_SLOT_FREE then
      started ← GetTickCount64;
      oid ← next_owner_id;
      _ ← store64 (owner_id p) oid;
      _ ← store32 (state p) ASB_SLOT_CONNECTING;
      ok ← loop fuel (connect_wait p started) tt;
      if (ok : bool) then
        c ← calloc;
        match c with
        | None => _ ← store32 (state p) ASB_SLOT_FREE; mret (inr None)
        | Some i =>
            mine ← load64 (owner_id p);
            let c := mkConn i chan 0 p mine 0 in
            _ ← hb_register c; mret (inr (Some c))
        end
      else mret (inr None)
    else mret (inl (u32 (s + 1)))
  else mret (inr None).

Definition asb_connect (fuel : nat) (chan : Z) : M (option AsbConn) :=
  r ← gets env (λ m, find_region m (Some g_bar) chan);
  match r with
  | None => mret None
  | Some r => loop fuel (connect_body fuel chan r) 0
  end.
End transport.

(** ** What a run of the guest's code does to the world *)

Definition is_load (e : event) : Prop := match e with EvLoad _ _ => True | EvStore _ _ => False end.

Section accept_runs.
Context (env : nat → mem → mem) (clock : nat → Z) (alloc : nat → bool) (g_bar : Z).
Context (l : AsbListener) (d : AsbShmRegionDesc).
(** The host does not rewrite the directory entry, which the slots do not overlap. *)
Context (Henv : ∀ k m, read_desc m (l_region l) = d → read_desc (env k m) (l_region l) = d).
Context (Hdisj : l_region l + DESC_SIZE <= g_bar + offset d) (Hstride : 0 <= stride d).

Abbreviation p s := (bind_slot (λ _, 0) g_bar d s).

(** The guest stores to the [owner_id] and [guest_ack] words of the region's
    slots only. *)
Definition safe (e : event) : Prop :=
  match e with
  | EvLoad _ _ => True
  | EvStore a _ => ∃ s, 0 <= s < n_slots d ∧ (a = owner_id (p s) ∨ a = guest_ack (p s))
  end.

(** The world has evolved from [w0] by safe events. *)
Definition J (w0 w : world) : Prop :=
  read_desc (w_mem w) (l_region l) = d ∧ ∃ tr, w_trace w = tr ++ w_trace w0 ∧ Forall safe tr.

Lemma J_refl w : read_desc (w_mem w) (l_region l) = d → J w w.
Proof. intros. split; [done|]. by exists []. Qed.

Lemma J_ext w0 w w' tr :
  J w0 w → read_desc (w_mem w') (l_region l) = d → w_trace w' = tr ++ w_trace w →
  Forall safe tr → J w0 w'.
Proof.
  intros [_ (tr0 & E & S)] Hd E' S'. split; [done|]. exists (tr ++ tr0).
  split; [by rewrite E', E, app_assoc|by apply Forall_app].
Qed.

Lemma read_desc_mwrite m a bs :
  l_region l + DESC_SIZE <= a → read_desc (mwrite m a bs) (l_region l) = read_desc m (l_region l).
Proof.
  unfold DESC_SIZE. intros. unfold read_desc.
  by rewrite !ld32_mwrite_ne, !ld64_mwrite_ne by lia.
Qed.

Lemma read_desc_store m s off v :
  0 <= s → 0 <= off → read_desc m (l_region l) = d →
  read_desc (st64 m (state (p s) + off) v) (l_region l) = d.
Proof.
  intros. unfold st64. rewrite read_desc_mwrite; [done|]. simpl. nia.
Qed.

(** What a load-only stretch of the run keeps. *)
Definition quiet (w w' : world) (tr : list event) : Prop :=
  w_trace w' = tr ++ w_trace w ∧ Forall is_load tr ∧ w_hb w' = w_hb w ∧ w_allocs w' = w_allocs w ∧
  (read_desc (w_mem w) (l_region l) = d → read_desc (w_mem w') (l_region l) = d) ∧
  (∀ x, (∀ k m, env k m x = m x) → w_mem w' x = w_mem w x).

Lemma quiet_trans w1 w2 w3 t1 t2 :
  quiet w1 w2 t1 → quiet w2 w3 t2 → quiet w1 w3 (t2 ++ t1).
Proof.
  intros (E1 & L1 & H1 & A1 & D1 & M1) (E2 & L2 & H2 & A2 & D2 & M2).
  split_and!; [by rewrite E2, E1, app_assoc|by apply Forall_app|congruence|congruence|auto|].
  intros x Hx. by rewrite M2, M1.
Qed.

Lemma quiet_host w : quiet w (host env w) [].
Proof. split_and!; try done; [apply Henv|]. intros x Hx. apply Hx. Qed.

Lemma quiet_load w a v : quiet w (log (EvLoad a v) (host env w)) [EvLoad a v].
Proof.
  split_and!; try done; [by repeat constructor|apply Henv|]. intros x Hx. apply Hx.
Qed.

(** The wait only loads; if it succeeds, its last loads are ESTABLISHED and
    the accepted token. *)
Lemma wait_run fuel q tok accepted w ok w' :
  loop fuel (wait_body env clock q tok accepted) tt w = Some (ok, w') →
  ∃ tr, quiet w w' tr ∧
    (ok = true → ∃ tr', tr = EvLoad (host_token q) tok :: EvLoad (state q) ASB_SLOT_ESTABLISHED :: tr').
Proof.
  revert w. induction fuel as [|fuel IH]; intros w H; [done|].
  cbn [loop] in H. apply bind_Some in H as (r & wr & H0 & H). unfold wait_body in H0.
  mlet H0 st2 w1 Est Ew1. mlet H0 tok2 w2 Etok Ew2.
  pose proof (quiet_trans _ _ _ _ _ (quiet_load w (state q) st2) (quiet_load _ (host_token q) tok2)) as Q.
  rewrite <- Ew1, <- Ew2 in Q.
  destruct ((st2 =? ASB_SLOT_ESTABLISHED) && (tok2 =? tok)) eqn:E1.
  { mret H0. mret H. zbool. eexists. split; [exact Q|].
    intros _. exists []. simpl. congruence. }
  destruct (negb (tok2 =? tok) || _ || _ || _).
  { mret H0. mret H. eexists. split; [exact Q|done]. }
  mlet H0 now w3 Enow Ew3.
  pose proof (quiet_trans _ _ _ _ _ Q (quiet_host w2)) as Q3. rewrite <- Ew3 in Q3.
  destruct (_ <=? now - accepted).
  { mret H0. mret H. eexists. split; [exact Q3|done]. }
  mdo H0 w4 Ew4. mret H0.
  pose proof (quiet_trans _ _ _ _ _ Q3 (quiet_host w3)) as Q4. rewrite <- Ew4 in Q4.
  destruct (IH _ H) as (tr & Qr & Hok). eexists. split; [eapply quiet_trans; [exact Q4|exact Qr]|].
  intros Ht. destruct (Hok Ht) as (tr' & ->). eexists. reflexivity.
Qed.

Lemma J_quiet w0 w w' tr : J w0 w → quiet w w' tr → J w0 w'.
Proof.
  intros HJ (E & L & _ & _ & D & _). eapply (J_ext w0 w w' tr HJ); [apply D, HJ|done|].
  eapply list.Forall_impl; [exact L|]. by intros [].
Qed.

Lemma J_same w0 w w' : J w0 w → w_mem w' = w_mem w → w_trace w' = w_trace w → J w0 w'.
Proof. intros [Hd Ht] Em Et. split; [by rewrite Em|by rewrite Et]. Qed.

Lemma J_store w0 w s a v :
  J w0 w → 0 <= s < n_slots d → a = owner_id (p s) ∨ a = guest_ack (p s) →
  J w0 (log (EvStore a v) (put_mem (st64 (w_mem (host env w)) a v) (host env w))).
Proof.
  intros HJ Hs Ha. eapply (J_ext w0 w _ [EvStore a v] HJ); [|done|].
  - simpl. destruct Ha as [-> | ->];
      (apply (read_desc_store _ s); [lia|done|apply Henv, HJ]).
  - constructor; [|by constructor]. by exists s.
Qed.

(** The words of a slot that only the guest writes. *)
Definition guest_sole (s x : Z) : Prop :=
  owner_id (p s) <= x < owner_id (p s) + 8 ∨ guest_ack (p s) <= x < guest_ack (p s) + 8.

(** The protocol run that ends in the connection [c]: a fresh offer is seen
    (CONNECTING, a token that is not 0 nor the one acknowledged), the identity
    then the acknowledgement are stored, and the last two loads are the host's
    ESTABLISHED and the same token. *)
Record handshake (w0 : world) (c : AsbConn) (w : world) : Prop := {
  hs_slot : ∃ s m, 0 <= s < n_slots d ∧ ptrs c = bind_slot m g_bar d s ∧
    ((∀ k m x, guest_sole s x → env k m x = m x) →
     ld64 (w_mem w) (owner_id (ptrs c)) = u64 (my_owner_id c) ∧
     ld64 (w_mem w) (guest_ack (ptrs c)) = u64 (my_host_token c));
  hs_channel : channel c = l_channel l;
  hs_token : my_host_token c ≠ 0;
  hs_trace : ∃ ack waits tr, ack ≠ my_host_token c ∧ Forall is_load waits ∧
    w_trace w =
      EvLoad (host_token (ptrs c)) (my_host_token c) ::
      EvLoad (state (ptrs c)) ASB_SLOT_ESTABLISHED :: waits ++
      EvStore (guest_ack (ptrs c)) (my_host_token c) ::
      EvStore (owner_id (ptrs c)) (my_owner_id c) ::
      EvLoad (guest_ack (ptrs c)) ack ::
      EvLoad (host_token (ptrs c)) (my_host_token c) ::
      EvLoad (state (ptrs c)) ASB_SLOT_CONNECTING :: tr ++ w_trace w0;
  hs_hb : ∃ hb, w_hb w = hb_add c hb;
}.

Lemma ld64_agree m m' a : (∀ x, a <= x < a + 8 → m x = m' x) → ld64 m a = ld64 m' a.
Proof. intros H. unfold ld64. f_equal. apply mread_ext. intros. apply H. lia. Qed.

(** The two identity words survive what the host and the wait do. *)
Lemma identity_words s oid tok m n w w' tr :
  (∀ k m x, guest_sole s x → env k m x = m x) →
  (∀ x, guest_sole s x → w_mem w x = st64 (env n (st64 m (owner_id (p s)) oid)) (guest_ack (p s)) tok x) →
  quiet w w' tr →
  ld64 (w_mem w') (owner_id (p s)) = u64 oid ∧ ld64 (w_mem w') (guest_ack (p s)) = u64 tok.
Proof.
  intros He Hw (_ & _ & _ & _ & _ & Hm). unfold guest_sole in *. simpl in *. split.
  - rewrite <- (ld64_st64 m (g_bar + offset d + s * stride d + ASB_SLOT_OWNER_OFFSET) oid).
    apply ld64_agree. intros x Hx.
    rewrite Hm by (intros; apply He; auto). rewrite Hw by auto. unfold st64 at 1.
    rewrite mwrite_out by (rewrite length_le_bytes; unfold ASB_SLOT_OWNER_OFFSET, ASB_SLOT_GUEST_ACK_OFFSET in *; lia).
    apply He. auto.
  - rewrite <- (ld64_st64 (env n (st64 m (g_bar + offset d + s * stride d + ASB_SLOT_OWNER_OFFSET) oid))
      (g_bar + offset d + s * stride d + ASB_SLOT_GUEST_ACK_OFFSET) tok).
    apply ld64_agree. intros x Hx.
    rewrite Hm by (intros; apply He; auto). by rewrite Hw by auto.
Qed.

Lemma try_slot_run fuel s w0 w r w' :
  J w0 w → 0 <= s < n_slots d →
  try_slot env clock alloc g_bar fuel l s w = Some (r, w') →
  J w0 w' ∧ ∀ c, r = Some (Some c) → handshake w0 c w'.
Proof.
  intros HJ Hs H. unfold try_slot in H. mlet H q w1 Eq Ew1.
  rewrite (proj1 (J_quiet _ _ _ _ HJ (quiet_host w))) in Eq.
  mlet H st w2 Est Ew2. mlet H tok w3 Etok Ew3. mlet H ack w4 Eack Ew4.
  assert (HJ4 : J w0 w4).
  { rewrite Ew4, Ew3, Ew2, Ew1. repeat (eapply J_quiet; [|apply quiet_load]).
    eapply J_quiet; [exact HJ|apply quiet_host]. }
  destruct (_ && _ && _) eqn:Eoffer; [|by mret H].
  mlet H accepted w5 Eacc Ew5.
  apply bind_Some in H as (oid & w6 & [= Eoid Ew6] & H).
  mdo H w7 Ew7. mdo H w8 Ew8. apply bind_Some in H as (ok & w9 & Hwait & H).
  destruct (wait_run _ _ _ _ _ _ _ Hwait) as (tr & Q & Hok).
  assert (Ho : owner_id q = owner_id (p s)) by (by subst q).
  assert (Ha : guest_ack q = guest_ack (p s)) by (by subst q).
  assert (HJ9 : J w0 w9).
  { eapply J_quiet; [|exact Q]. rewrite Ew8. apply (J_store _ _ s); [|done|auto].
    rewrite Ew7. apply (J_store _ _ s); [|done|auto].
    eapply (J_same w0 (host env w4)); [|by rewrite <- Ew6, Ew5|by rewrite <- Ew6, Ew5].
    eapply J_quiet; [exact HJ4|apply quiet_host]. }
  destruct ok; [|by mret H].
  apply bind_Some in H as (ca & w10 & [= Eca Ew10] & H).
  assert (HJ10 : J w0 w10) by (apply (J_same w0 w9); [done|by rewrite <- Ew10|by rewrite <- Ew10]).
  destruct ca as [i|]; [|by mret H].
  apply bind_Some in H as (u & w11 & [= _ Ew11] & H). mret H.
  split; [by apply (J_same w0 w10); [|rewrite <- Ew11..]|].
  intros c [= <-]. destruct (Hok eq_refl) as (waits & ->). zbool.
  destruct HJ as (Hd & tr0 & Htr & _). split; cbn [ptrs my_owner_id my_host_token channel].
  - exists s, (w_mem (host env w)). split; [done|]. split; [done|]. intros He.
    rewrite Ho, Ha, <- Ew11, <- Ew10. cbn [w_mem].
    eapply (identity_words s oid tok (w_mem (host env w6)) (w_now w7) w8 w9); [done| |exact Q].
    intros x _. by rewrite Ew8, Ew7, Ho, Ha.
  - done.
  - done.
  - exists ack, waits, tr0. split; [done|]. destruct Q as (Et & HL & _). split.
    { by inversion_clear HL as [|? ? _ HL2]; inversion_clear HL2. }
    rewrite <- Ew11, <- Ew10. cbn [w_trace]. rewrite Et, Ew8, Ew7, <- Ew6, Ew5, Ew4, Ew3, Ew2, Ew1.
    cbn [w_trace log put_mem host]. rewrite Htr. simpl. congruence.
  - exists (w_hb w10). by rewrite <- Ew11.
Qed.

Lemma scan_run fuel0 w0 fuel s w r w' :
  J w0 w → 0 <= s →
  loop fuel (scan_body env clock alloc g_bar fuel0 l) s w = Some (r, w') →
  J w0 w' ∧ ∀ c, r = Some (Some c) → handshake w0 c w'.
Proof.
  intros HJ Hs H.
  refine (loop_inv (λ s w, J w0 w ∧ 0 <= s)
    (λ r w, J w0 w ∧ ∀ c, r = Some (Some c) → handshake w0 c w) _ _ _ _ _ _ _ (conj HJ Hs) H).
  clear HJ H Hs w r w' s fuel. intros s w r w' [HJ Hs] H. unfold scan_body in H. mlet H n w1 En Ew1.
  rewrite (proj1 (J_quiet _ _ _ _ HJ (quiet_host w))) in En. subst n.
  assert (HJ1 : J w0 w1) by (rewrite Ew1; eapply J_quiet; [exact HJ|apply quiet_host]).
  destruct (s <? n_slots d) eqn:Hlt; zbool.
  - apply bind_Some in H as (r1 & w2 & Htry & H).
    destruct (try_slot_run _ _ w0 _ _ _ HJ1 (conj Hs Hlt) Htry) as [HJ2 Hc].
    destruct r1 as [r1|]; mret H; [split; [done|]; intros c [= ->]; auto|].
    split; [done|]. pose proof (u32_range (s + 1)) as [? _]. done.
  - mret H. done.
Qed.

Lemma accept_run fuel timeout_ms w r w' :
  read_desc (w_mem w) (l_region l) = d →
  asb_accept env clock alloc g_bar fuel (Some l) timeout_ms w = Some (r, w') →
  J w w' ∧ ∀ c, r = Some c → handshake w c w'.
Proof.
  intros Hd H. cbn [asb_accept] in H. mlet H started w1 Et Ew1.
  assert (HJ : J w w1) by (rewrite Ew1; eapply J_quiet; [by apply J_refl|apply quiet_host]).
  refine (loop_inv (λ _ w1, J w w1) (λ r w1, J w w1 ∧ ∀ c, r = Some c → handshake w c w1)
    _ _ _ _ _ _ _ HJ H).
  clear H HJ. intros [] w2 r2 w3 HJ H. unfold accept_body in H.
  apply bind_Some in H as (r1 & w4 & Hscan & H).
  destruct (scan_run _ _ _ _ _ _ _ HJ (Z.le_refl 0) Hscan) as [HJ4 Hc].
  destruct r1 as [c|]; [mret H; split; [done|]; intros c' [= ->]; auto|].
  destruct (0 <=? timeout_ms).
  - mlet H now w5 En Ew5.
    assert (HJ5 : J w w5) by (rewrite Ew5; eapply J_quiet; [exact HJ4|apply quiet_host]).
    destruct (_ <=? now - started); [by mret H|]. mdo H w6 Ew6. mret H.
    rewrite Ew6. eapply J_quiet; [exact HJ5|apply quiet_host].
  - mdo H w5 Ew5. mret H. rewrite Ew5. eapply J_quiet; [exact HJ4|apply quiet_host].
Qed.

(** ** Termination *)

Context (Hclock : live_clock clock).

Lemma extends_wait q tok acc fuel fuel' :
  (fuel <= fuel')%nat →
  extends (loop fuel (wait_body env clock q tok acc) tt) (loop fuel' (wait_body env clock q tok acc) tt).
Proof. intros. apply extends_loop; [intros; apply extends_refl|done]. Qed.

Lemma extends_try fuel fuel' s :
  (fuel <= fuel')%nat →
  extends (try_slot env clock alloc g_bar fuel l s) (try_slot env clock alloc g_bar fuel' l s).
Proof.
  intros Hf. unfold try_slot. do 4 (apply extends_bind; [apply extends_refl|intros]).
  destruct (_ && _ && _); [|apply extends_refl].
  do 4 (apply extends_bind; [apply extends_refl|intros]).
  apply extends_bind; [by apply extends_wait|intros; apply extends_refl].
Qed.

Lemma extends_scan fuel fuel' s :
  (fuel <= fuel')%nat →
  extends (scan_body env clock alloc g_bar fuel l s) (scan_body env clock alloc g_bar fuel' l s).
Proof.
  intros Hf. unfold scan_body. apply extends_bind; [apply extends_refl|intros n].
  destruct (s <? n); [|apply extends_refl].
  apply extends_bind; [by apply extends_try|intros; apply extends_refl].
Qed.

Lemma extends_accept fuel fuel' t st u :
  (fuel <= fuel')%nat →
  extends (accept_body env clock alloc g_bar fuel l t st u)
    (accept_body env clock alloc g_bar fuel' l t st u).
Proof.
  intros Hf. unfold accept_body. apply extends_bind; [|intros; apply extends_refl].
  apply extends_loop; [intros; by apply extends_scan|done].
Qed.

(** The wait for ESTABLISHED ends: the clock passes its deadline. *)
Lemma wait_total q tok acc w :
  ∃ fuel ok w', loop fuel (wait_body env clock q tok acc) tt w = Some (ok, w') ∧
    (w_now w < w_now w')%nat.
Proof.
  destruct (clock_live _ Hclock (acc + ACCEPT_EST_WAIT_MS)) as (T & HT).
  apply (loop_total (λ _ w1, (w_now w <= w_now w1)%nat) (λ _ w, (T - w_now w)%nat)
    (λ _ w1, (w_now w < w_now w1)%nat) (λ _, wait_body env clock q tok acc));
    [intros; apply extends_refl| |lia].
  intros [] w1 Hw1. exists 0%nat. unfold wait_body.
  unfold mbind, M_bind, load32, load64. cbn [w_now log host].
  destruct (_ && _); [do 2 eexists; split; [reflexivity|simpl; lia]|].
  destruct (_ || _); [do 2 eexists; split; [reflexivity|simpl; lia]|].
  unfold GetTickCount64. cbn [w_now log host].
  destruct (_ <=? _) eqn:E; [do 2 eexists; split; [reflexivity|simpl; lia]|].
  do 2 eexists. split; [reflexivity|]. simpl. zbool.
  pose proof (clock_mono _ Hclock T (S (S (S (w_now w1))))). lia.
Qed.

Lemma try_total s w :
  ∃ fuel r w', try_slot env clock alloc g_bar fuel l s w = Some (r, w') ∧ (w_now w < w_now w')%nat.
Proof.
  unfold try_slot, mbind, M_bind, bind, load32, load64, gets. cbn [w_now log host].
  destruct (_ && _ && _); [|exists 0%nat; do 2 eexists; split; [reflexivity|simpl; lia]].
  unfold GetTickCount64, next_owner_id, store64. cbn [w_now log host put_mem].
  match goal with |- context [loop _ (wait_body env clock ?q ?tok ?acc) tt ?w1] =>
    destruct (wait_total q tok acc w1) as (fuel & ok & w' & E & Hlt) end.
  exists fuel. rewrite E. destruct ok; [|do 2 eexists; split; [reflexivity|simpl in *; lia]].
  unfold calloc. destruct (alloc _); do 2 eexists; (split; [reflexivity|simpl in *; lia]).
Qed.

Lemma scan_total w :
  is_u32 (n_slots d) → read_desc (w_mem w) (l_region l) = d →
  ∃ fuel r w', loop fuel (scan_body env clock alloc g_bar fuel l) 0 w = Some (r, w') ∧
    (read_desc (w_mem w') (l_region l) = d ∧ (w_now w < w_now w')%nat).
Proof.
  intros Hn Hd. unfold is_u32 in Hn.
  apply (loop_total (λ s w1, J w w1 ∧ 0 <= s <= n_slots d ∧ (w_now w <= w_now w1)%nat)
    (λ s _, Z.to_nat (n_slots d - s))
    (λ _ w1, read_desc (w_mem w1) (l_region l) = d ∧ (w_now w < w_now w1)%nat)
    (λ fuel, scan_body env clock alloc g_bar fuel l));
    [intros; by apply extends_scan| |split; [by apply J_refl|lia]].
  intros s w1 (HJ & Hs & Hw1).
  assert (HJ1 : J w (host env w1)) by (eapply J_quiet; [exact HJ|apply quiet_host]).
  destruct (try_total s (host env w1)) as (fuel & r & w' & Htry & Hlt). simpl in Hlt.
  exists fuel. unfold scan_body, mbind, M_bind, gets.
  rewrite (proj1 HJ1). destruct (s <? n_slots d) eqn:E; zbool.
  - destruct (try_slot_run _ _ w _ _ _ HJ1 (conj (proj1 Hs) E) Htry) as [HJ2 _].
    rewrite Htry. destruct r; do 2 eexists; (split; [reflexivity|]); simpl.
    + split; [apply HJ2|lia].
    + rewrite u32_small by lia. split; [split; [done|lia]|lia].
  - do 2 eexists. split; [reflexivity|]. simpl. split; [apply HJ1|lia].
Qed.

Lemma accept_total timeout_ms w :
  0 <= timeout_ms → is_u32 (n_slots d) → read_desc (w_mem w) (l_region l) = d →
  ∃ fuel r w', asb_accept env clock alloc g_bar fuel (Some l) timeout_ms w = Some (r, w').
Proof.
  intros Ht Hn Hd. unfold asb_accept, mbind, M_bind, GetTickCount64.
  set (w1 := host env w). set (started := clock (w_now w1)).
  destruct (clock_live _ Hclock (started + timeout_ms)) as (T & HT).
  enough (∃ fuel r w', loop fuel (accept_body env clock alloc g_bar fuel l timeout_ms started) tt w1
    = Some (r, w') ∧ True) as (fuel & r & w' & E & _) by (by exists fuel, r, w').
  apply (loop_total (λ _ w2, read_desc (w_mem w2) (l_region l) = d) (λ _ w, T - w_now w)%nat
    (λ _ _, True) (λ fuel, accept_body env clock alloc g_bar fuel l timeout_ms started));
    [intros; by apply extends_accept| |by apply Henv].
  intros [] w2 Hw2. destruct (scan_total w2 Hn Hw2) as (fuel & r & w3 & E & Hw3 & Hlt).
  exists fuel. unfold accept_body, mbind, M_bind. rewrite E.
  destruct r as [c|]; [do 2 eexists; split; [reflexivity|done]|].
  destruct (Z.leb_spec 0 timeout_ms); [|lia]. unfold GetTickCount64.
  destruct (_ <=? _) eqn:E2; [do 2 eexists; split; [reflexivity|done]|].
  do 2 eexists. split; [reflexivity|]. simpl. zbool. split; [by apply Henv, Henv|].
  pose proof (clock_mono _ Hclock T (w_now (host env w3))). simpl in *. lia.
Qed.
End accept_runs.

(** C7: against an arbitrary host that leaves the region's directory entry alone,
    [asb_accept] stores to the guest's words ([owner_id], [guest_ack]) of the
    region's slots only, so never to [state]; a connection it returns is the end
    of a complete handshake run on a slot of the region, and if the host leaves
    the guest's words alone, the slot still carries the connection's identity and
    acknowledgement; and with a timeout and a running clock the call returns. *)
Theorem accept_protocol env clock alloc g_bar l d :
  (∀ k m, read_desc m (l_region l) = d → read_desc (env k m) (l_region l) = d) →
  l_region l + DESC_SIZE <= g_bar + offset d → 0 <= stride d →
  (∀ fuel timeout_ms w r w',
     read_desc (w_mem w) (l_region l) = d →
     asb_accept env clock alloc g_bar fuel (Some l) timeout_ms w = Some (r, w') →
     (∃ tr, w_trace w' = tr ++ w_trace w ∧ Forall (safe g_bar d) tr) ∧
     ∀ c, r = Some c → handshake env g_bar l d w c w') ∧
  (∀ timeout_ms w,
     live_clock clock → 0 <= timeout_ms → is_u32 (n_slots d) →
     read_desc (w_mem w) (l_region l) = d →
     ∃ fuel r w', asb_accept env clock alloc g_bar fuel (Some l) timeout_ms w = Some (r, w')).
Proof.
  intros Henv Hdisj Hstride. split.
  - intros fuel t w r w' Hd H.
    destruct (accept_run env clock alloc g_bar l d Henv Hdisj Hstride fuel t w r w' Hd H) as [[_ HJ] Hc].
    done.
  - intros. by eapply accept_total.
Qed.

(** A host that offers the agent's slot with token 7 and establishes it once the
    guest has acknowledged. *)
Definition demo_slot : SlotPtrs :=
  bind_slot (λ _, 0) 0
    (mkDesc ASB_CH_AGENT 1 ASB_AGENT_REGION_OFF ASB_AGENT_REGION_SIZE 1 ASB_AGENT_SLOT_STRIDE) 0.
Definition demo_mem : mem :=
  st64 (st32 (do_stores (λ _, 0) (asb_shm_publish 0 0)) (state demo_slot) ASB_SLOT_CONNECTING)
    (host_token demo_slot) 7.
Definition demo_host (_ : nat) (m : mem) : mem :=
  if ld64 m (guest_ack demo_slot) =? 7 then st32 m (state demo_slot) ASB_SLOT_ESTABLISHED else m.
Definition demo_world : world := mkW demo_mem 0 41 1000 0 [] [].

Lemma accept_protocol_witness :
  let d := mkDesc ASB_CH_AGENT 1 ASB_AGENT_REGION_OFF ASB_AGENT_REGION_SIZE 1 ASB_AGENT_SLOT_STRIDE in
  let l := mkListener ASB_CH_AGENT (desc_addr 0 5) in
  ∃ c w', asb_accept demo_host (λ k, Z.of_nat k) (λ _, true) 0 20 (Some l) 100 demo_world = Some (Some c, w') ∧
    my_owner_id c = 1000 * 2 ^ 32 + 42 ∧ my_host_token c = 7 ∧ w_hb w' = [(0%nat, guest_hb demo_slot)] ∧
    handshake demo_host 0 l d demo_world c w'.
Proof.
  intros d l.
  destruct (run_result (asb_accept demo_host (λ k, Z.of_nat k) (λ _, true) 0 20 (Some l) 100 demo_world)
    (λ c w', my_owner_id c = 1000 * 2 ^ 32 + 42 ∧ my_host_token c = 7 ∧
       w_hb w' = [(0%nat, guest_hb demo_slot)])) as (c & w' & E & R1 & R2 & R3);
    [vm_compute; repeat split; reflexivity|].
  exists c, w'. split; [exact E|]. split; [exact R1|]. split; [exact R2|]. split; [exact R3|].
  refine (proj2 (proj1 (accept_protocol demo_host (λ k, Z.of_nat k) (λ _, true) 0 l d _ _ _)
    20%nat 100 demo_world (Some c) w' _ E) c eq_refl).
  - intros k m Hm. unfold demo_host. destruct (_ =? 7); [|done].
    unfold st32. rewrite read_desc_mwrite; [done|]. vm_compute. discriminate.
  - vm_compute. discriminate.
  - vm_compute. discriminate.
  - vm_compute. reflexivity.
Defined.
