(* ===== verification/Stream.v ===== *)
(** * The guest's stream operations ([src/tools/transport/asb_transport.c]:
      [asb_send], [asb_recv], [asb_poll], [asb_close], [asb_abandon], the
      newline-framed helpers)

    A ring operation is one step here: [RingSpsc] is what justifies it, since the
    host's concurrent ring operation cannot be told from one before or after it. *)

From S2P Require Import Prelude Bytes Ring ShmLayout Slots Interact Accept.

Section stream.
Context (env : nat → mem → mem) (clock : nat → Z).

Abbreviation load32 := (load32 env).
Abbreviation load64 := (load64 env).
Abbreviation store32 := (store32 env).
Abbreviation store64 := (store64 env).
Abbreviation GetTickCount64 := (GetTickCount64 env clock).
Abbreviation pause := (pause env).

(** [ *c->state != ESTABLISHED || (c->my_host_token != 0 &&
    *c->host_token != c->my_host_token)]. *)
Definition gone (c : AsbConn) : M bool :=
  st ← load32 (state (ptrs c));
  if negb (st =? ASB_SLOT_ESTABLISHED) then mret true
  else if my_host_token c =? 0 then mret false
  else t ← load64 (host_token (ptrs c)); mret (negb (t =? my_host_token c)).

Definition elapsed (start limit : Z) : M bool :=
  now ← GetTickCount64; mret (limit <=? now - start).

(** [return off ? off : -1;] *)
Definition partial (off : Z) : Z := if off =? 0 then -1 else off.

Definition send_body (c : AsbConn) (buf : list Z) (len progress off : Z) : M (Z + Z) :=
  if off <? len then
    late ← (if send_timeout_ms c =? 0 then mret false else elapsed progress (send_timeout_ms c));
    if (late : bool) then mret (inr (partial off))
    else
      _ ← pause;
      out ← gone c;
      if (out : bool) then mret (inr (partial off))
      else
        n ← updates env (λ m, ring_write m (g2h (ptrs c)) (g2h_data (ptrs c))
                                (drop (Z.to_nat off) buf) (len - off));
        if 0 <? n then mret (inl (off + n))
        else _ ← pause; mret (inl off)
  else mret (inr off).

Definition asb_send (fuel : nat) (c : option AsbConn) (buf : list Z) (len : Z) : M Z :=
  match c with
  | None => mret (-1)
  | Some c =>
      progress ← (if send_timeout_ms c =? 0 then mret 0 else GetTickCount64);
      loop fuel (send_body c buf len progress) 0
  end.

(** The bytes stored at [buf] and the return value. *)
Definition recv_body (c : AsbConn) (len spins : Z) : M (Z + list Z * Z) :=
  r ← updates env (λ m, let '(m', out, n) := ring_read m (h2g (ptrs c)) (h2g_data (ptrs c)) len
                        in (m', (out, n)));
  if 0 <? r.2 then mret (inr r)
  else
    _ ← pause;
    out ← gone c;
    if (out : bool) then mret (inr ([], 0))
    else _ ← pause; mret (inl (if spins <? 2000 then spins + 1 else spins)).

Definition asb_recv (fuel : nat) (c : option AsbConn) (len : Z) : M (list Z * Z) :=
  match c with
  | None => mret ([], -1)
  | Some c => loop fuel (recv_body c len) 0
  end.

Definition poll_body (c : AsbConn) (timeout_ms started : Z) (_ : unit) : M (unit + Z) :=
  _ ← pause;
  t ← load64 (RING_TAIL (h2g (ptrs c)));
  h ← load64 (RING_HEAD (h2g (ptrs c)));
  if negb (t =? h) then mret (inr 1)
  else
    out ← gone c;
    if (out : bool) then mret (inr (-1))
    else
      late ← (if 0 <=? timeout_ms then elapsed started timeout_ms else mret false);
      if (late : bool) then mret (inr 0)
      else _ ← pause; mret (inl tt).

Definition asb_poll (fuel : nat) (c : option AsbConn) (timeout_ms : Z) : M Z :=
  match c with
  | None => mret (-1)
  | Some c => started ← GetTickCount64; loop fuel (poll_body c timeout_ms started) tt
  end.

Definition asb_set_timeout (c : AsbConn) (recv_ms send_ms : Z) : AsbConn :=
  mkConn (c_id c) (channel c) (if 0 <? send_ms then send_ms else 0) (ptrs c)
    (my_owner_id c) (my_host_token c).

Definition asb_close (c : option AsbConn) : M unit :=
  match c with
  | None => mret tt
  | Some c =>
      _ ← hb_unregister c;
      _ ← pause;
      if channel c =? ASB_CH_9P then
        st ← load32 (state (ptrs c));
        if st =? ASB_SLOT_ESTABLISHED then store32 (state (ptrs c)) ASB_SLOT_CLOSING
        else mret tt
      else
        st ← load32 (state (ptrs c));
        if st =? ASB_SLOT_ESTABLISHED then
          o ← load64 (owner_id (ptrs c));
          if o =? my_owner_id c then oid ← next_owner_id; store64 (owner_id (ptrs c)) oid
          else mret tt
        else mret tt
  end.

Definition asb_abandon (c : option AsbConn) : M unit :=
  match c with None => mret tt | Some c => hb_unregister c end.

(** [asb_recv_line]: the line without its terminator and carriage returns, or
    [asb_recv]'s failure code; the state of the loop is the line so far. *)
Definition recv_line_body (fuel : nat) (c : option AsbConn) (buf_size : Z) (line : list Z)
    : M (list Z + list Z * Z) :=
  if Z.of_nat (length line) <? buf_size - 1 then
    r ← asb_recv fuel c 1;
    if r.2 <=? 0 then mret (inr (line, r.2))
    else
      let ch := bget r.1 0 in
      if ch =? 10 then mret (inr (line, Z.of_nat (length line)))
      else if negb (ch =? 13) then mret (inl (line ++ [ch]))
      else mret (inl line)
  else mret (inr (line, Z.of_nat (length line))).

Definition asb_recv_line (fuel : nat) (c : option AsbConn) (buf_size : Z) : M (list Z * Z) :=
  loop fuel (recv_line_body fuel c buf_size) [].

Definition asb_send_line (fuel : nat) (c : option AsbConn) (msg : list Z) : M Z :=
  n ← asb_send fuel c msg (Z.of_nat (length msg));
  if 0 <? n then asb_send fuel c [10] 1 else mret n.
End stream.

(** ** What the host may do to the rings *)

(** The host is the consumer of guest-to-host rings and the producer of
    host-to-guest rings, whatever else it does. *)
Definition host_reads (env : nat → mem → mem) (r data cap : Z) : Prop :=
  ∀ k m head tail q, ring_at m r data cap head tail q →
    ∃ n, 0 <= n <= Z.of_nat (length q) ∧
      ring_at (env k m) r data cap (u64 (head + n)) tail (drop (Z.to_nat n) q).

Definition host_writes (env : nat → mem → mem) (r data cap : Z) : Prop :=
  ∀ k m head tail q, ring_at m r data cap head tail q →
    ∃ bs, ring_at (env k m) r data cap head (u64 (tail + Z.of_nat (length bs))) (q ++ bs).

(** The last load of the run shows that the slot left the connection. *)
Definition disconnected (c : AsbConn) (w : world) : Prop :=
  ∃ v tr, (w_trace w = EvLoad (state (ptrs c)) v :: tr ∧ v ≠ ASB_SLOT_ESTABLISHED) ∨
    (w_trace w = EvLoad (host_token (ptrs c)) v :: tr ∧ v ≠ my_host_token c ∧ my_host_token c ≠ 0).

Section stream_runs.
Context (env : nat → mem → mem) (clock : nat → Z) (c : AsbConn).

(** [gone] only loads, and a [true] is justified by its last load. *)
Lemma gone_run (P : mem → Prop) w b w' :
  (∀ k m, P m → P (env k m)) → P (w_mem w) → gone env c w = Some (b, w') →
  P (w_mem w') ∧ (b = true → disconnected c w').
Proof.
  intros HP Hw H. unfold gone in H. mlet H st w1 Est Ew1.
  assert (P (w_mem w1)) as Hw1 by (rewrite Ew1; by apply HP).
  destruct (negb _) eqn:E; [mret H|].
  { split; [done|]. intros _. zbool. exists st, (w_trace w). left. by rewrite Ew1. }
  destruct (my_host_token c =? 0) eqn:E0; [by mret H|]. mlet H t w2 Et Ew2. mret H. zbool.
  split; [rewrite Ew2; by apply HP|]. intros Ht. zbool. exists t, (w_trace w1). right. by rewrite Ew2.
Qed.

Lemma elapsed_run (P : mem → Prop) a b w x w' :
  (∀ k m, P m → P (env k m)) → P (w_mem w) → elapsed env clock a b w = Some (x, w') →
  P (w_mem w').
Proof.
  intros HP Hw H. unfold elapsed in H. mlet H n w1 En Ew1. mret H. rewrite Ew1. by apply HP.
Qed.

(** *** Sending *)

Section send.
Context (cap : Z) (q0 buf : list Z) (len : Z).
Abbreviation r := (g2h (ptrs c)).
Abbreviation data := (g2h_data (ptrs c)).
Context (Henv : host_reads env r data cap).
Context (Hlen : 0 <= len < 2147483648) (Hbuf : len <= Z.of_nat (length buf)).

(** What the host has taken and what the ring holds is [q0] and then [bs]. *)
Definition sent (bs : list Z) (m : mem) : Prop :=
  ∃ head tail q got, ring_at m r data cap head tail q ∧ got ++ q = q0 ++ bs.

Lemma sent_host bs k m : sent bs m → sent bs (env k m).
Proof.
  intros (h & t & q & got & R & E). destruct (Henv k m h t q R) as (n & Hn & R').
  exists (u64 (h + n)), t, (drop (Z.to_nat n) q), (got ++ take (Z.to_nat n) q).
  split; [done|]. by rewrite <- app_assoc, take_drop.
Qed.

Lemma sent_write m off :
  0 <= off <= len → sent (take (Z.to_nat off) buf) m →
  ∃ n m', ring_write m r data (drop (Z.to_nat off) buf) (len - off) = (m', n) ∧
    0 <= n <= len - off ∧ sent (take (Z.to_nat (off + n)) buf) m'.
Proof.
  intros Hoff (h & t & q & got & R & E).
  destruct (ring_write_spec m r data cap h t q (drop (Z.to_nat off) buf) (len - off) R)
    as (m' & Hw & R' & _); [lia|rewrite length_drop; lia|].
  pose proof (ring_at_fits R). eexists _, m'. split; [exact Hw|]. split; [lia|].
  eexists _, _, _, got. split; [exact R'|].
  rewrite app_assoc, E, <- app_assoc. f_equal. rewrite take_take_drop. f_equal. lia.
Qed.

Lemma send_body_run progress off w x w' :
  0 <= off <= len → sent (take (Z.to_nat off) buf) (w_mem w) →
  send_body env clock c buf len progress off w = Some (x, w') →
  match x with
  | inl off' => off <= off' <= len ∧ sent (take (Z.to_nat off') buf) (w_mem w')
  | inr ret => sent (take (Z.to_nat (Z.max 0 ret)) buf) (w_mem w') ∧
      (ret = len ∨ (ret = partial off ∧ off < len ∧ (send_timeout_ms c ≠ 0 ∨ disconnected c w')))
  end.
Proof.
  intros Hoff Hs H. unfold send_body in H.
  assert (Hp : Z.max 0 (partial off) = off) by (unfold partial; bcases; lia).
  destruct (off <? len) eqn:Elt; zbool; [|mret H].
  2:{ split; [by rewrite Z.max_r by lia|]. left. lia. }
  apply bind_Some in H as (late & w1 & Hl & H).
  assert (Hs1 : sent (take (Z.to_nat off) buf) (w_mem w1)).
  { destruct (_ =? 0); [by mret Hl|]. eapply elapsed_run; [by apply sent_host|exact Hs|exact Hl]. }
  destruct late.
  { mret H. rewrite Hp. split; [done|]. right. split_and!; [done|lia|]. left.
    destruct (_ =? 0) eqn:E0; [by mret Hl|by zbool]. }
  mdo H w2 Ew2. apply bind_Some in H as (out & w3 & Hg & H).
  destruct (gone_run _ w2 out w3 (sent_host _) ltac:(rewrite Ew2; by apply sent_host) Hg) as [Hs3 Hd].
  destruct out.
  { mret H. rewrite Hp. split; [done|]. right. auto. }
  mlet H n w4 En Ew4.
  destruct (sent_write (w_mem (host env w3)) off Hoff) as (n' & m' & Hw & Hn & Hs4);
    [by apply sent_host|]. rewrite Hw in En, Ew4. simpl in En, Ew4. subst n' w4.
  destruct (0 <? n) eqn:En0; [mret H; split; [lia|done]|].
  mdo H w5 Ew5. mret H. zbool. assert (n = 0) as -> by lia. rewrite Z.add_0_r in Hs4.
  split; [lia|]. rewrite Ew5. by apply sent_host.
Qed.

Definition send_post (ret : Z) (w : world) : Prop :=
  sent (take (Z.to_nat (Z.max 0 ret)) buf) (w_mem w) ∧
  (ret = len ∨ ((ret = -1 ∨ 0 < ret < len) ∧ (send_timeout_ms c ≠ 0 ∨ disconnected c w))).

Lemma asb_send_run fuel w ret w' :
  sent [] (w_mem w) → asb_send env clock fuel (Some c) buf len w = Some (ret, w') →
  send_post ret w'.
Proof.
  intros Hs H. cbn [asb_send] in H. apply bind_Some in H as (p & w1 & Hp & H).
  assert (Hs1 : sent (take (Z.to_nat 0) buf) (w_mem w1)).
  { destruct (_ =? 0); [by mret Hp|].
    apply GetTickCount64_Some in Hp as [_ ->]. by apply sent_host. }
  refine (loop_inv (λ off w, 0 <= off <= len ∧ sent (take (Z.to_nat off) buf) (w_mem w))
    send_post _ _ _ _ _ _ _ (conj _ Hs1) H); [|lia].
  clear Hs1 H Hp Hs w1 w' w ret fuel. intros off w1 [off'|r1] w2 [Hoff Hs] H;
    pose proof (send_body_run _ _ _ _ _ Hoff Hs H) as HR; cbn in HR.
  - split; [lia|apply HR].
  - destruct HR as (HS & [->|(-> & Hlt & Hd)]);
      (split; [exact HS|]); [by left|]. right. split; [|exact Hd].
    unfold partial. bcases; lia.
Qed.
End send.

Lemma gone_total w : ∃ b w', gone env c w = Some (b, w') ∧ (w_now w < w_now w')%nat.
Proof.
  unfold gone, mbind, M_bind, load32, load64. cbn [w_now log host].
  destruct (negb _); [do 2 eexists; split; [reflexivity|simpl; lia]|].
  destruct (_ =? 0); do 2 eexists; (split; [reflexivity|simpl; lia]).
Qed.

(** With a send timeout and a running clock, [asb_send] returns. *)
Lemma asb_send_total buf len w :
  live_clock clock → send_timeout_ms c ≠ 0 →
  ∃ fuel ret w', asb_send env clock fuel (Some c) buf len w = Some (ret, w').
Proof.
  intros Hclock Ht. unfold asb_send, mbind, M_bind.
  destruct (send_timeout_ms c =? 0) eqn:E0; zbool; [done|]. unfold GetTickCount64.
  set (w1 := host env w). set (progress := clock (w_now w1)).
  destruct (clock_live _ Hclock (progress + send_timeout_ms c)) as (T & HT).
  enough (∃ fuel r w', loop fuel (send_body env clock c buf len progress) 0 w1 = Some (r, w') ∧ True)
    as (fuel & r & w' & E & _) by (by exists fuel, r, w').
  apply (loop_total (λ _ _, True) (λ _ w, (T - w_now w)%nat) (λ _ _, True)
    (λ _, send_body env clock c buf len progress)); [intros; apply extends_refl| |done].
  intros off w2 _. exists 0%nat. unfold send_body.
  destruct (off <? len); [|do 2 eexists; split; [reflexivity|done]].
  destruct (send_timeout_ms c =? 0) eqn:E1; zbool; [done|].
  unfold elapsed, mbind, M_bind, GetTickCount64, mret, M_ret, pause.
  destruct (_ <=? _) eqn:E2; [do 2 eexists; split; [reflexivity|done]|]. zbool.
  destruct (gone_total (host env (host env w2))) as (b & w3 & Eg & Hlt). rewrite Eg. simpl in Hlt.
  destruct b; [do 2 eexists; split; [reflexivity|done]|]. unfold updates.
  pose proof (clock_mono _ Hclock T (w_now (host env w2))). simpl in *.
  destruct (0 <? _); (do 2 eexists; split; [reflexivity|]; simpl; split; [done|lia]).
Qed.

(** *** Receiving *)

Section recv.
Context (cap : Z).
Abbreviation r := (h2g (ptrs c)).
Abbreviation data := (h2g_data (ptrs c)).
Context (Henv : host_writes env r data cap).

(** The ring holds [q0] without what was taken, and what the host added. *)
Definition recvd (q0 out : list Z) (m : mem) : Prop :=
  ∃ head tail q more, ring_at m r data cap head tail q ∧ out ++ q = q0 ++ more.

Lemma recvd_host q0 out k m : recvd q0 out m → recvd q0 out (env k m).
Proof.
  intros (h & t & q & more & R & E). destruct (Henv k m h t q R) as (bs & R').
  eexists _, _, _, (more ++ bs). split; [exact R'|]. by rewrite !app_assoc, E.
Qed.

Lemma recvd_read q0 m len :
  0 <= len < 2147483648 → recvd q0 [] m →
  ∃ m' out n, ring_read m r data len = (m', out, n) ∧ n = Z.of_nat (length out) ∧
    n <= len ∧ recvd q0 out m' ∧ (len ≠ 0 → q0 ≠ [] → 0 < n).
Proof.
  intros Hl (h & t & q & more & R & E).
  destruct (ring_read_spec m r data cap h t q len R Hl) as (m' & Hr & R' & _).
  eexists m', _, _. split; [exact Hr|]. simpl in E. split; [rewrite length_take; lia|].
  split; [lia|]. split.
  - eexists _, _, _, more. split; [exact R'|]. by rewrite take_drop.
  - intros ? Hq. subst q. rewrite length_app. destruct q0; [done|]. simpl. lia.
Qed.

Definition recv_post (q0 : list Z) (len : Z) (x : list Z * Z) (w : world) : Prop :=
  recvd q0 x.1 (w_mem w) ∧ x.2 = Z.of_nat (length x.1) ∧ x.2 <= len ∧
  (x.2 = 0 → disconnected c w).

Lemma recv_body_run q0 len spins w x w' :
  0 <= len < 2147483648 → recvd q0 [] (w_mem w) →
  recv_body env c len spins w = Some (x, w') →
  match x with
  | inl _ => recvd q0 [] (w_mem w')
  | inr y => recv_post q0 len y w'
  end.
Proof.
  intros Hl Hr H. unfold recv_body in H. mlet H y w1 Ey Ew1.
  destruct (recvd_read q0 (w_mem (host env w)) len Hl) as (m' & out & n & Hrd & En & Hnl & Hr' & _);
    [by apply recvd_host|]. rewrite Hrd in Ey, Ew1. simpl in Ey, Ew1. subst y. cbn [fst snd] in H.
  destruct (0 <? n) eqn:E; zbool.
  { mret H. rewrite Ew1. split_and!; [done|done|done|]. simpl. lia. }
  assert (out = []) as -> by (destruct out; [done|simpl in *; lia]).
  mdo H w2 Ew2. apply bind_Some in H as (b & w3 & Hg & H).
  destruct (gone_run _ w2 b w3 (recvd_host q0 []) ltac:(rewrite Ew2, Ew1; by apply recvd_host) Hg)
    as [Hr3 Hd].
  destruct b; [mret H; split_and!; auto; simpl; lia|].
  mdo H w4 Ew4. mret H. rewrite Ew4. by apply recvd_host.
Qed.

Lemma asb_recv_run q0 fuel len w x w' :
  0 <= len < 2147483648 → recvd q0 [] (w_mem w) →
  asb_recv env fuel (Some c) len w = Some (x, w') → recv_post q0 len x w'.
Proof.
  intros Hl Hr H.
  refine (loop_inv (λ _ w, recvd q0 [] (w_mem w)) (recv_post q0 len) _ _ _ _ _ _ _ Hr H).
  intros s w1 y w2 Hr1 H1. exact (recv_body_run _ _ _ _ _ _ Hl Hr1 H1).
Qed.

(** A ring that holds something is read at once. *)
Lemma asb_recv_ready q0 len w :
  0 < len < 2147483648 → recvd q0 [] (w_mem w) → q0 ≠ [] →
  ∃ x w', asb_recv env 1 (Some c) len w = Some (x, w') ∧ 0 < x.2.
Proof.
  intros Hl Hr Hq. cbn [asb_recv loop]. unfold recv_body, mbind, M_bind, updates.
  destruct (recvd_read q0 (w_mem (host env w)) len ltac:(lia)) as (m' & out & n & Hrd & En & Hnl & Hr' & Hp);
    [by apply recvd_host|]. rewrite Hrd. cbn [fst snd]. specialize (Hp ltac:(lia) Hq).
  destruct (Z.ltb_spec 0 n); [|lia]. do 2 eexists. split; [reflexivity|done].
Qed.

(** *** Polling *)

Definition poll_post (ret : Z) (w : world) : Prop :=
  (ret = 1 ∧ ∃ q, q ≠ [] ∧ recvd q [] (w_mem w)) ∨ (ret = -1 ∧ disconnected c w) ∨ ret = 0.

Lemma poll_body_run q0 timeout_ms started u w x w' :
  recvd q0 [] (w_mem w) → poll_body env clock c timeout_ms started u w = Some (x, w') →
  match x with inl _ => recvd q0 [] (w_mem w') | inr ret => poll_post ret w' end.
Proof.
  intros Hr H. unfold poll_body in H. mdo H w1 Ew1. mlet H t w2 Et Ew2. mlet H h w3 Eh Ew3.
  assert (Hr2 : recvd q0 [] (w_mem w2)) by (rewrite Ew2, Ew1; by do 2 apply recvd_host).
  assert (Hr3 : recvd q0 [] (w_mem w3)) by (rewrite Ew3; by apply recvd_host).
  destruct (negb (t =? h)) eqn:E; zbool.
  { mret H. left. split; [done|].
    assert (R1 : recvd q0 [] (w_mem (host env w1))) by (rewrite Ew1; by do 2 apply recvd_host).
    destruct R1 as (h1 & t1 & q1 & m1 & R1 & _).
    rewrite (ra_tail _ _ _ _ _ _ _ R1) in Et. subst t1. rewrite Ew2 in Eh.
    destruct (Henv (w_now w2) (w_mem w2) h1 t q1 ltac:(by rewrite Ew2)) as (bs & R2).
    rewrite Ew2 in R2. cbn [w_now w_mem log host] in R2.
    change (ring_at (w_mem (host env (log (EvLoad (RING_TAIL r) t) (host env w1)))) r data cap h1
      (u64 (t + Z.of_nat (length bs))) (q1 ++ bs)) in R2.
    rewrite (ra_head _ _ _ _ _ _ _ R2) in Eh. subst h1.
    exists (q1 ++ bs). split.
    - intros [-> ->]%app_eq_nil. pose proof (ring_at_length R1) as L. simpl in L.
      pose proof (ra_hr _ _ _ _ _ _ _ R1). pose proof (ra_tr _ _ _ _ _ _ _ R1). dlia.
    - rewrite Ew3, Ew2. eexists _, _, _, []. split; [exact R2|]. by rewrite app_nil_r. }
  apply bind_Some in H as (b & w4 & Hg & H).
  destruct (gone_run _ w3 b w4 (recvd_host q0 []) Hr3 Hg) as [Hr4 Hd].
  destruct b; [mret H; right; left; auto|].
  apply bind_Some in H as (late & w5 & Hl & H).
  assert (Hr5 : recvd q0 [] (w_mem w5)).
  { destruct (0 <=? timeout_ms); [|by mret Hl].
    eapply elapsed_run; [by apply recvd_host|exact Hr4|exact Hl]. }
  destruct late; [mret H; by right; right|]. mdo H w6 Ew6. mret H. rewrite Ew6. by apply recvd_host.
Qed.

Lemma asb_poll_run q0 fuel timeout_ms w ret w' :
  recvd q0 [] (w_mem w) → asb_poll env clock fuel (Some c) timeout_ms w = Some (ret, w') →
  poll_post ret w'.
Proof.
  intros Hr H. cbn [asb_poll] in H. mlet H st w1 Est Ew1.
  refine (loop_inv (λ _ w, recvd q0 [] (w_mem w)) poll_post _ _ _ _ _ _ _ _ H);
    [|rewrite Ew1; by apply recvd_host].
  intros s w2 y w3 Hr1 H1. exact (poll_body_run _ _ _ _ _ _ _ Hr1 H1).
Qed.
End recv.
End stream_runs.

(** ** Theorems *)

(** C8: while the host only consumes the guest-to-host ring, [asb_send] on a
    connection appends to the stream exactly the prefix of the buffer whose length
    it returns (nothing for -1); it returns less than [len] only with a send
    timeout set or after a load that shows the slot has left the connection; and
    with a send timeout and a running clock it returns. *)
Theorem send_stream env clock c cap buf len :
  host_reads env (g2h (ptrs c)) (g2h_data (ptrs c)) cap →
  0 <= len < 2 ^ 31 → len <= Z.of_nat (length buf) →
  (∀ fuel w ret w' head tail q,
     ring_at (w_mem w) (g2h (ptrs c)) (g2h_data (ptrs c)) cap head tail q →
     asb_send env clock fuel (Some c) buf len w = Some (ret, w') →
     (∃ head' tail' q' got,
        ring_at (w_mem w') (g2h (ptrs c)) (g2h_data (ptrs c)) cap head' tail' q' ∧
        got ++ q' = q ++ take (Z.to_nat (Z.max 0 ret)) buf) ∧
     (ret = len ∨ ((ret = -1 ∨ 0 < ret < len) ∧ (send_timeout_ms c ≠ 0 ∨ disconnected c w')))) ∧
  (∀ w, live_clock clock → send_timeout_ms c ≠ 0 →
     ∃ fuel ret w', asb_send env clock fuel (Some c) buf len w = Some (ret, w')).
Proof.
  intros Henv Hlen Hbuf. split.
  - intros fuel w ret w' head tail q R H.
    eapply (asb_send_run env clock c cap q buf len Henv Hlen Hbuf); [|exact H].
    exists head, tail, q, []. by rewrite app_nil_r.
  - intros. by apply asb_send_total.
Qed.

(** C9: while the host only produces into the host-to-guest ring, [asb_recv]
    delivers the next bytes of the stream, at most [len], removing exactly those
    from the ring; it reports the end (0) only after a load that shows the slot
    has left the connection; [asb_poll] reports data (1) only if the ring then
    holds some, and closed (-1) only after such a load; and a receive on a ring
    that holds data does not block. *)
Theorem recv_stream env clock c cap :
  host_writes env (h2g (ptrs c)) (h2g_data (ptrs c)) cap →
  ∀ w head tail q, ring_at (w_mem w) (h2g (ptrs c)) (h2g_data (ptrs c)) cap head tail q →
  (∀ fuel len out n w', 0 <= len < 2 ^ 31 →
     asb_recv env fuel (Some c) len w = Some ((out, n), w') →
     n = Z.of_nat (length out) ∧ n <= len ∧ (n = 0 → disconnected c w') ∧
     ∃ head' tail' q' more,
       ring_at (w_mem w') (h2g (ptrs c)) (h2g_data (ptrs c)) cap head' tail' q' ∧
       out ++ q' = q ++ more) ∧
  (∀ len, 0 < len < 2 ^ 31 → q ≠ [] →
     ∃ x w', asb_recv env 1 (Some c) len w = Some (x, w') ∧ 0 < x.2) ∧
  (∀ fuel timeout_ms ret w', asb_poll env clock fuel (Some c) timeout_ms w = Some (ret, w') →
     (ret = 1 ∧ ∃ head' tail' q',
        ring_at (w_mem w') (h2g (ptrs c)) (h2g_data (ptrs c)) cap head' tail' q' ∧ q' ≠ []) ∨
     (ret = -1 ∧ disconnected c w') ∨ ret = 0).
Proof.
  intros Henv w head tail q R.
  assert (Hr : recvd c cap q [] (w_mem w)) by (exists head, tail, q, []; by rewrite app_nil_r).
  split_and!.
  - intros fuel len out n w' Hl H.
    destruct (asb_recv_run env c cap Henv q fuel len w (out, n) w' Hl Hr H) as (HR & Hn & Hle & Hd). done.
  - intros len Hl Hq. by eapply asb_recv_ready.
  - intros fuel t ret w' H.
    destruct (asb_poll_run env clock c cap Henv q fuel t w ret w' Hr H) as [[-> (q1 & Hq1 & HR)]|?]; [|by right].
    left. split; [done|]. destruct HR as (h' & t' & q' & more & R' & E). exists h', t', q'.
    split; [done|]. simpl in E. subst q'. by destruct q1.
Qed.

(** ** Closing *)

(** The owner identity drawn by the [seq]-th acceptance of process [pid]. *)
Definition owner_value (pid seq : Z) : Z := Z.lor (u64 (Z.shiftl pid 32)) (u32 seq).

Lemma owner_value_low pid seq : owner_value pid seq mod 4294967296 = u32 seq.
Proof.
  unfold owner_value. change 4294967296 with (2 ^ 32).
  rewrite <- Z.land_ones, Z.land_lor_distr_l, !Z.land_ones by lia.
  change (u32 seq) with (seq mod 2 ^ 32). rewrite Z.mod_mod by lia.
  change (u64 (Z.shiftl pid 32)) with (Z.shiftl pid 32 mod 2 ^ 64).
  rewrite Z.mod_mod_divide by (exists (2 ^ 32); reflexivity).
  rewrite Z.shiftl_mul_pow2, Z.mod_mul by lia. apply Z.lor_0_l.
Qed.

Lemma u32_i32 z : u32 (i32 z) = u32 z.
Proof.
  unfold u32, i32. rewrite Zminus_mod_idemp_l. f_equal. lia.
Qed.

(** The word a close writes, if it writes one, and the loads that justify it. *)
Inductive close_events (c : AsbConn) (w : world) : list event → Prop :=
| close_not_established st :
    st ≠ ASB_SLOT_ESTABLISHED → close_events c w [EvLoad (state (ptrs c)) st]
| close_9p :
    channel c = ASB_CH_9P →
    close_events c w [EvStore (state (ptrs c)) ASB_SLOT_CLOSING;
                      EvLoad (state (ptrs c)) ASB_SLOT_ESTABLISHED]
| close_superseded o :
    channel c ≠ ASB_CH_9P → o ≠ my_owner_id c →
    close_events c w [EvLoad (owner_id (ptrs c)) o; EvLoad (state (ptrs c)) ASB_SLOT_ESTABLISHED]
| close_owner :
    channel c ≠ ASB_CH_9P →
    close_events c w [EvStore (owner_id (ptrs c)) (owner_value (w_pid w) (w_seq w + 1));
                      EvLoad (owner_id (ptrs c)) (my_owner_id c);
                      EvLoad (state (ptrs c)) ASB_SLOT_ESTABLISHED].

Lemma close_total env c w : ∃ w', asb_close env (Some c) w = Some (tt, w').
Proof.
  unfold asb_close, hb_unregister, set_hb, pause, mbind, M_bind, load32, load64, store32, store64, next_owner_id.
  destruct (channel c =? ASB_CH_9P), (_ =? ASB_SLOT_ESTABLISHED); try (eexists; reflexivity).
  destruct (_ =? my_owner_id c); eexists; reflexivity.
Qed.

(** The same connection, of another acceptance. *)
Definition accepted_as (oid token : Z) (c : AsbConn) : AsbConn :=
  mkConn (c_id c) (channel c) (send_timeout_ms c) (ptrs c) oid token.

Lemma close_9p_blind env c oid token w :
  channel c = ASB_CH_9P → asb_close env (Some (accepted_as oid token c)) w = asb_close env (Some c) w.
Proof. intros H. unfold asb_close, hb_unregister, accepted_as. cbn [c_id channel ptrs]. by rewrite H, Z.eqb_refl. Qed.

(** C10: [asb_close] always returns, forgets the connection's heartbeat, and
    stores at most one word.  On the channels other than 9P it is never [state],
    but a new identity into [owner_id], and only if the slot was just seen
    ESTABLISHED under this acceptance's identity; the new identity differs from
    the old one unless 2^32 acceptances later.  On 9P it is CLOSING into a
    [state] just seen ESTABLISHED: there the identity is not looked at, so a
    wrapper of an earlier acceptance does exactly the same to the slot. *)
Theorem close_protocol env c w :
  ∃ w' tr, asb_close env (Some c) w = Some (tt, w') ∧
    w_trace w' = tr ++ w_trace w ∧ close_events c w tr ∧
    w_hb w' = hb_remove (c_id c) (w_hb w) ∧
    (∀ pid seq, my_owner_id c = owner_value pid seq → u32 (w_seq w + 1 - seq) ≠ 0 →
       owner_value (w_pid w) (w_seq w + 1) ≠ my_owner_id c) ∧
    (channel c = ASB_CH_9P → ∀ oid token,
       asb_close env (Some (accepted_as oid token c)) w = asb_close env (Some c) w).
Proof.
  assert (Hid : ∀ pid seq, my_owner_id c = owner_value pid seq → u32 (w_seq w + 1 - seq) ≠ 0 →
       owner_value (w_pid w) (w_seq w + 1) ≠ my_owner_id c).
  { intros pid seq -> Hne E. apply Hne. apply (f_equal (λ z, z mod 4294967296)) in E.
    rewrite !owner_value_low in E. unfold u32 in *. rewrite Zminus_mod, E, Z.sub_diag. done. }
  destruct (close_total env c w) as (w' & H). exists w'.
  enough (∃ tr, w_trace w' = tr ++ w_trace w ∧ close_events c w tr ∧ w_hb w' = hb_remove (c_id c) (w_hb w))
    as (tr & ? & ? & ?) by (exists tr; split_and!; auto using close_9p_blind).
  cbn [asb_close] in H. mdo H w1 Ew1. injection Ew1 as Ew1. mdo H w2 Ew2.
  destruct (channel c =? ASB_CH_9P) eqn:E9; zbool; mlet H st w3 Est Ew3;
    (destruct (st =? ASB_SLOT_ESTABLISHED) eqn:E; zbool).
  - apply store32_Some in H. exists [EvStore (state (ptrs c)) ASB_SLOT_CLOSING; EvLoad (state (ptrs c)) st].
    rewrite H, Ew3, Ew2, <- Ew1, E. split; [done|]. split; [by constructor|done].
  - mret H. exists [EvLoad (state (ptrs c)) st]. rewrite Ew3, Ew2, <- Ew1.
    split; [done|]. split; [by constructor|done].
  - mlet H o w4 Eo Ew4. destruct (o =? my_owner_id c) eqn:E1; zbool.
    + apply bind_Some in H as (oid & w5 & [= Eoid Ew5] & H). apply store64_Some in H.
      exists [EvStore (owner_id (ptrs c)) oid; EvLoad (owner_id (ptrs c)) o; EvLoad (state (ptrs c)) st].
      assert (oid = owner_value (w_pid w) (w_seq w + 1)) as ->.
      { rewrite <- Eoid, Ew4, Ew3, Ew2, <- Ew1, u32_i32. done. }
      rewrite H, <- Ew5, Ew4, Ew3, Ew2, <- Ew1, E, E1. split; [done|]. split; [by apply close_owner|done].
    + mret H. exists [EvLoad (owner_id (ptrs c)) o; EvLoad (state (ptrs c)) st].
      rewrite Ew4, Ew3, Ew2, <- Ew1, E. split; [done|]. split; [by constructor|done].
  - mret H. exists [EvLoad (state (ptrs c)) st]. rewrite Ew3, Ew2, <- Ew1.
    split; [done|]. split; [by constructor|done].
Qed.

(** ** The liveness registry *)

Abbreviation beat c := (c_id c, guest_hb (ptrs c)).

(** The registry after a history of accepts and closes, at most [n] connections
    being open at once, and the connections now open. *)
Inductive hb_run (n : nat) : list AsbConn → list (nat * Z) → Prop :=
| hb_init : hb_run n [] []
| hb_open c live hb :
    hb_run n live hb → (length live < n)%nat → c_id c ∉ map c_id live →
    hb_run n (c :: live) (hb_add c hb)
| hb_shut c live hb :
    hb_run n live hb → c ∈ live →
    hb_run n (filter (λ x, c_id x ≠ c_id c) live) (hb_remove (c_id c) hb).

Lemma last_take_Permutation {A} (l : list A) z :
  last l = Some z → z :: take (length l - 1) l ≡ₚ l.
Proof.
  intros (l' & ->)%last_Some. rewrite length_app. simpl.
  rewrite take_app_le, take_ge by lia. apply Permutation_cons_append.
Qed.

Lemma hb_remove_perm c l : NoDup l.*1 → hb_remove c l ≡ₚ filter (λ e, e.1 ≠ c) l.
Proof.
  induction l as [|e l IH]; intros Hnd; [done|].
  apply list.NoDup_cons in Hnd as [Hni Hnd]. cbn [hb_remove].
  destruct (Nat.eqb_spec (e.1) c) as [<-|Hne].
  - rewrite filter_cons_False by naive_solver.
    replace (filter (λ e0, e0.1 ≠ e.1) l) with l.
    + destruct (last l) eqn:El; [by apply last_take_Permutation|]. by apply last_None in El as ->.
    + symmetry. apply filter_all, list.Forall_forall. intros x Hx Heq. apply Hni.
      rewrite <- Heq. by apply list_elem_of_fmap_2.
  - rewrite filter_cons_True by done. by rewrite IH.
Qed.

Lemma fmap_filter_ids (k : nat) (l : list AsbConn) :
  map c_id (filter (λ x, c_id x ≠ k) l) = filter (λ i, i ≠ k) (map c_id l).
Proof.
  induction l as [|x l IH]; [done|]. rewrite filter_cons. cbn [map]. rewrite filter_cons.
  by destruct (decide (c_id x ≠ k)); cbn [map]; rewrite IH.
Qed.

(** The invariant of the registry. *)
Lemma hb_run_inv n live hb :
  hb_run n live hb →
  NoDup (map c_id live) ∧ NoDup hb.*1 ∧ (length hb <= 64)%nat ∧ (length hb <= length live)%nat ∧
  (∀ e, e ∈ hb → ∃ c, c ∈ live ∧ e = beat c) ∧
  ((n <= 64)%nat → ∀ c, c ∈ live → beat c ∈ hb).
Proof.
  induction 1 as [|c live hb Hrun (Nl & Nh & L64 & Lle & Hin & Hall) Hn Hfresh
                 |c live hb Hrun (Nl & Nh & L64 & Lle & Hin & Hall) Hc].
  - split_and!; try constructor; simpl; try lia; intros; by exfalso; eapply not_elem_of_nil.
  - unfold hb_add, ASB_HB_MAX_CONNS. destruct (Nat.ltb_spec (length hb) 64) as [Hlt|Hge].
    + split_and!; [by apply list.NoDup_cons| |rewrite length_app; simpl; lia
                  |rewrite length_app; simpl; lia| |].
      * rewrite fmap_app. apply list.NoDup_app. split_and!; [done| |apply NoDup_singleton].
        intros x Hx Hx'%list_elem_of_singleton. apply list_elem_of_fmap in Hx as (e & Ee & He).
        destruct (Hin e He) as (c' & Hc' & ->). apply Hfresh. simpl in *.
        rewrite <- Hx', Ee. by apply list_elem_of_fmap_2.
      * intros e [He|He]%elem_of_app.
        -- destruct (Hin e He) as (c' & ? & ->). exists c'. split; [by right|done].
        -- apply list_elem_of_singleton in He as ->. exists c. split; [by left|done].
      * intros H64 c' [->|Hc']%elem_of_cons; apply elem_of_app; [right; by left|left; auto].
    + split_and!; [by apply list.NoDup_cons|done|done|simpl; lia| |].
      * intros e He. destruct (Hin e He) as (c' & ? & ->). exists c'. split; [by right|done].
      * intros. lia.
  - pose proof (hb_remove_perm (c_id c) hb Nh) as HP.
    assert (Hlen : (length (hb_remove (c_id c) hb) <= length hb)%nat).
    { rewrite HP. apply list.length_filter. }
    assert (Hin' : ∀ e, e ∈ hb_remove (c_id c) hb → ∃ c0, c0 ∈ filter (λ x, c_id x ≠ c_id c) live ∧ e = beat c0).
    { intros e He. rewrite HP in He. apply list_elem_of_filter in He as [Hne He].
      destruct (Hin e He) as (c0 & Hc0 & ->). exists c0. split; [|done]. by apply list_elem_of_filter. }
    assert (Nh' : NoDup (hb_remove (c_id c) hb).*1).
    { rewrite HP. eapply sublist_NoDup; [exact Nh|]. apply fmap_sublist, sublist_filter. }
    split_and!; [rewrite fmap_filter_ids; by apply NoDup_filter|done|lia| |done|].
    + rewrite <- (length_fmap fst). rewrite <- (length_map c_id).
      apply submseteq_length, NoDup_submseteq; [done|].
      intros x (e & -> & He)%list_elem_of_fmap. destruct (Hin' e He) as (c0 & Hc0 & ->).
      by apply (list_elem_of_fmap_2 c_id).
    + intros H64 c0 [Hne Hc0]%list_elem_of_filter. rewrite HP. apply list_elem_of_filter. auto.
Qed.

(** Two beacon words do not overlap. *)
Definition apart (a b : Z) : Prop := a + 8 <= b ∨ b + 8 <= a.

Lemma hb_tick_frame m hb x :
  Forall (λ e, x < e.2 ∨ e.2 + 8 <= x) hb → hb_tick m hb x = m x.
Proof.
  revert m. induction hb as [|e hb IH]; intros m; [done|]. intros [He Hhb]%Forall_cons.
  cbn [hb_tick fold_left]. fold (hb_tick (st64 m e.2 (u64 (ld64 m e.2 + 1))) hb).
  rewrite IH by done. apply mwrite_out. rewrite length_le_bytes. lia.
Qed.

Lemma hb_tick_word m hb a :
  Forall (λ e, apart a e.2) hb → ld64 (hb_tick m hb) a = ld64 m a.
Proof.
  intros H. unfold ld64. f_equal. apply mread_ext. intros x Hx. apply hb_tick_frame.
  eapply list.Forall_impl; [exact H|]. unfold apart. simpl. intros. lia.
Qed.

Lemma hb_tick_beats m hb e :
  ForallOrdPairs (λ e1 e2, apart e1.2 e2.2) hb → e ∈ hb →
  ld64 (hb_tick m hb) e.2 = u64 (ld64 m e.2 + 1).
Proof.
  intros H. revert m. induction H as [|e1 hb H1 Hp IH]; intros m; [by intros ?%not_elem_of_nil|].
  cbn [hb_tick fold_left]. fold (hb_tick (st64 m e1.2 (u64 (ld64 m e1.2 + 1))) hb).
  intros [->|He]%elem_of_cons.
  - rewrite hb_tick_word by done. rewrite ld64_st64, u64_small by apply u64_range. done.
  - rewrite IH by done. do 2 f_equal. apply ld64_mwrite_ne. rewrite length_le_bytes.
    pose proof (proj1 (list.Forall_forall _ _) H1 e He) as [?|?]; simpl in *; lia.
Qed.

(** Through any history of accepts and closes, the beacon registry holds no
    connection twice and none that is closed (so the ticker thread never follows
    a freed connection), at most 64, and every open one if no more than 64 were
    ever open at once; a tick adds one to the beacon of each registered slot and
    changes no other byte. *)
Theorem hb_registry n live hb :
  hb_run n live hb →
  NoDup hb.*1 ∧ (length hb <= ASB_HB_MAX_CONNS)%nat ∧
  (∀ e, e ∈ hb → ∃ c, c ∈ live ∧ e = beat c) ∧
  ((n <= ASB_HB_MAX_CONNS)%nat → ∀ c, c ∈ live → beat c ∈ hb) ∧
  (ForallOrdPairs (λ e1 e2, apart e1.2 e2.2) hb → ∀ m,
     (∀ e, e ∈ hb → ld64 (hb_tick m hb) e.2 = u64 (ld64 m e.2 + 1)) ∧
     (∀ x, Forall (λ e, x < e.2 ∨ e.2 + 8 <= x) hb → hb_tick m hb x = m x)).
Proof.
  intros (_ & ? & ? & _ & ? & ?)%hb_run_inv. split_and!; [done|done|done|done|].
  intros Hp m. split; [intros; by apply hb_tick_beats|intros; by apply hb_tick_frame].
Qed.

(** ** Concrete runs *)

(** An ESTABLISHED connection over two 8-byte rings, their indices about to wrap. *)
Definition link_ptrs : SlotPtrs := mkPtrs 0 8 16 24 40 64 88 96 120.
Definition link_conn : AsbConn := mkConn 0 ASB_CH_AGENT 0 link_ptrs 5 7.
Definition link_start : Z := 2 ^ 64 - 3.
Definition link_mem : mem :=
  do_stores (λ _, 0)
    [St32 0 ASB_SLOT_ESTABLISHED; St64 8 5; St64 16 7; St64 24 7;
     St64 64 link_start; St64 72 link_start; St32 80 8;
     St64 96 link_start; St64 104 link_start; St32 112 8].
Definition link_world : world := mkW link_mem 0 5 0 1 [beat link_conn] [].

Lemma link_rings :
  ring_at link_mem 64 88 8 link_start link_start [] ∧
  ring_at link_mem 96 120 8 link_start link_start [].
Proof.
  split; (split; try (vm_compute; reflexivity);
    [exists 3; split; [lia|reflexivity]|vm_compute; discriminate|left; vm_compute; discriminate
    |vm_compute; split; [discriminate|reflexivity]|vm_compute; split; [discriminate|reflexivity]]).
Qed.

Lemma send_stream_witness :
  ∃ w', asb_send (λ _ m, m) (λ k, Z.of_nat k) 20 (Some link_conn) [65; 66; 67; 68; 69] 5 link_world = Some (5, w') ∧
    ∃ head' tail' q' got,
      ring_at (w_mem w') 64 88 8 head' tail' q' ∧ got ++ q' = [65; 66; 67; 68; 69].
Proof.
  destruct (run_some (asb_send (λ _ m, m) (λ k, Z.of_nat k) 20 (Some link_conn) [65; 66; 67; 68; 69] 5 link_world)
    (λ r _, r = 5)) as (r & w' & E & ->); [vm_compute; reflexivity|].
  exists w'. split; [exact E|].
  refine (proj1 (proj1 (send_stream (λ _ m, m) (λ k, Z.of_nat k) link_conn 8 [65; 66; 67; 68; 69] 5 _ _ _)
    20%nat link_world 5 w' link_start link_start [] (proj1 link_rings) E)).
  - intros k m h t q R. exists 0. rewrite Z.add_0_r, drop_0, u64_small by apply R. split; [lia|done].
  - lia.
  - simpl. lia.
Defined.

Lemma recv_stream_witness :
  ∃ w', asb_recv (λ _ m, m) 5 (Some link_conn) 4
      (put_mem (ring_write link_mem 96 120 [65; 66; 67; 68; 69] 5).1 link_world) = Some (([65; 66; 67; 68], 4), w') ∧
    4 = Z.of_nat (length [65; 66; 67; 68]).
Proof.
  destruct (run_some (asb_recv (λ _ m, m) 5 (Some link_conn) 4
      (put_mem (ring_write link_mem 96 120 [65; 66; 67; 68; 69] 5).1 link_world))
    (λ r _, r = ([65; 66; 67; 68], 4))) as (r & w' & E & ->); [vm_compute; reflexivity|].
  exists w'. split; [exact E|].
  destruct (ring_write_spec link_mem 96 120 8 link_start link_start [] [65; 66; 67; 68; 69] 5
    (proj2 link_rings)) as (m' & Hm' & R & _); [lia|simpl; lia|].
  refine (proj1 (proj1 (recv_stream (λ _ m, m) (λ k, Z.of_nat k) link_conn 8 _ _ _ _ _ _)
    5%nat 4 [65; 66; 67; 68] 4 w' _ E)).
  - intros k m h t q R'. exists []. rewrite Z.add_0_r, app_nil_r, u64_small by apply R'. done.
  - cbn [w_mem put_mem]. rewrite Hm'. exact R.
  - lia.
Defined.

Lemma hb_registry_witness :
  hb_run 2 [link_conn] (hb_add link_conn []) ∧
  ld64 (hb_tick link_mem (hb_add link_conn [])) 40 = 1.
Proof.
  assert (R : hb_run 2 [link_conn] (hb_add link_conn [])).
  { apply hb_open; [constructor|simpl; lia|apply not_elem_of_nil]. }
  split; [exact R|].
  change 40 with ((beat link_conn).2).
  rewrite (proj1 (proj2 (proj2 (proj2 (proj2 (hb_registry 2 [link_conn] _ R))))
    ltac:(repeat constructor) link_mem)); [reflexivity|by left].
Defined.

(** Between the ring read that found nothing and the test of the slot's state,
    the host may write its last bytes and close: the receive then reports the end
    of the stream while the ring still holds them. *)
Lemma recv_eof_race :
  let env k m := match k with
    | 1%nat => st32 (ring_write m 96 120 [90; 91] 2).1 0 ASB_SLOT_CLOSED
    | _ => m end in
  ∃ w', asb_recv env 5 (Some link_conn) 16 link_world = Some (([], 0), w') ∧
    (ring_read (w_mem w') 96 120 16).1.2 = [90; 91].
Proof.
  intros env.
  destruct (run_some (asb_recv env 5 (Some link_conn) 16 link_world)
    (λ r w', r = ([], 0) ∧ (ring_read (w_mem w') 96 120 16).1.2 = [90; 91])) as (r & w' & E & -> & Hr);
    [vm_compute; split; reflexivity|].
  exists w'. split; [exact E|exact Hr].
Qed.
