(* ===== verification/Frame.v ===== *)
(** * Backend selection and the frame region
      ([src/tools/transport/asb_transport.c]: [open_ivshmem],
      [asb_transport_init], [asb_frame_open], [asb_frame_back_buffer],
      [asb_frame_publish], [asb_frame_cursor], [asb_transport_region_base]) *)

From S2P Require Import Prelude Bytes Ring ShmLayout Slots.

(** ** Backend selection *)

(** The globals [asb_transport_init] sets, and its static [inited]. *)
Record globals := mkG {
  g_is_ivshmem : bool;
  g_bar : option Z;          (* NULL until mapped *)
  g_dir : option Z;
  g_accept_seq : Z;
  inited : bool;
}.

(** What the registry value [SOFTWARE\AppSandbox\Transport] selects. *)
Inductive transport_override := NoOverride | ForceIvshmem | ForceHyperv.

(** [dev] is where the driver maps the BAR, [None] if a step up to the map
    fails; the globals are set before the magic is tested. *)
Definition open_ivshmem (m : mem) (dev : option Z) (g : globals) : Z * globals :=
  match dev with
  | None => (-1, g)
  | Some va =>
      let g' := mkG (g_is_ivshmem g) (Some va) (Some va) (g_accept_seq g) (inited g) in
      if ld64 m (va + DIR_MAGIC) =? ASB_SHM_DIR_MAGIC then (0, g') else (-1, g')
  end.

(** [tick] is the [GetTickCount64()] that seeds the acceptance counter; the
    ticker thread it starts is [hb_tick]. *)
Definition asb_transport_init (m : mem) (dev : option Z) (o : transport_override) (tick : Z)
    (g : globals) : globals :=
  if inited g then g
  else
    let g0 := mkG (g_is_ivshmem g) (g_bar g) (g_dir g) (g_accept_seq g) true in
    let '(iv, g1) :=
      match o with
      | ForceHyperv => (false, g0)
      | ForceIvshmem => (true, g0)                 (* [force_iv ||] skips the call *)
      | NoOverride => let '(r, g1) := open_ivshmem m dev g0 in (r =? 0, g1)
      end in
    if (iv : bool) then mkG true (g_bar g1) (g_dir g1) (Z.land tick 0x3FFFFFFF) (inited g1)
    else mkG false (g_bar g1) (g_dir g1) (g_accept_seq g1) (inited g1).

Definition asb_transport_region_base (m : mem) (g : globals) (channel : Z) : option Z :=
  if negb (g_is_ivshmem g) then None
  else
    match g_bar g with
    | None => None
    | Some bar =>
        match find_region m (g_dir g) channel with
        | None => None
        | Some r => Some (bar + offset (read_desc m r))
        end
    end.

Definition globals0 : globals := mkG false None None 0 false.

(** C12: [asb_transport_init] selects the shared-memory backend by itself exactly
    when a device maps a directory whose magic is published, and then the
    directory pointer is set; the hyperv override never touches the device; the
    ivshmem override selects the backend without mapping the BAR, so that no
    channel has a region; and a second call changes nothing. *)
Theorem transport_init_backend m dev o tick :
  let g := asb_transport_init m dev o tick globals0 in
  (∀ m2 dev2 o2 tick2, asb_transport_init m2 dev2 o2 tick2 g = g) ∧
  (o = NoOverride →
     (g_is_ivshmem g = true ↔ ∃ va, dev = Some va ∧ ld64 m (va + DIR_MAGIC) = ASB_SHM_DIR_MAGIC) ∧
     (g_is_ivshmem g = true → g_dir g = dev ∧ g_bar g = dev)) ∧
  (o = ForceHyperv → g_is_ivshmem g = false ∧ g_bar g = None) ∧
  (o = ForceIvshmem → g_is_ivshmem g = true ∧
     ∀ m2 ch, find_region m2 (g_dir g) ch = None ∧ asb_transport_region_base m2 g ch = None).
Proof.
  intros g. unfold g, asb_transport_init, globals0, open_ivshmem. cbn [inited g_is_ivshmem g_bar g_dir g_accept_seq].
  split.
  { destruct o; [|done|done]. destruct dev as [va|]; [|done]. by destruct (_ =? _). }
  split; [intros ->|split; [intros ->; done|intros ->; done]].
  destruct dev as [va|]; [|split; [split; [done|by intros (? & ? & ?)]|done]].
  destruct (_ =? _) eqn:E; cbn [Z.eqb g_is_ivshmem g_dir g_bar]; zbool.
  - split; [|done]. split; [by exists va|done].
  - split; [|done]. split; [done|]. by intros (? & [= <-] & ?).
Qed.

(** ** The frame region *)

Definition ASB_FRAME_MAGIC : Z := 0x52465341.
Definition ASB_CURSOR_MAGIC : Z := 0x52435341.
Definition CURSOR_HDR : Z := 52.                              (* sizeof(AsbCursor) *)
Definition ASB_CURSOR_AREA : Z := CURSOR_HDR + 256 * 256 * 4 * 2.
Definition hdr_sz : Z := 4096.

(** Offsets in [AsbFrameRegion]. *)
Definition FR_MAGIC : Z := 0.
Definition FR_N_BUFFERS : Z := 4.
Definition FR_WIDTH : Z := 8.
Definition FR_HEIGHT : Z := 12.
Definition FR_STRIDE : Z := 16.
Definition FR_FORMAT : Z := 20.
Definition FR_PRODUCED : Z := 24.
Definition FR_CONSUMED : Z := 28.
Definition FR_ACTIVE : Z := 32.
Definition FR_DIRTY : Z := 36.
Definition FR_BUFFERS_OFFSET : Z := 40.
Definition FR_BUFFER_STRIDE : Z := 48.
Definition FR_CURSOR_OFFSET : Z := 56.

(** [struct AsbFrame]; [fr] and [base] are the same address. *)
Record AsbFrame := mkFrame {
  base : Z;
  n_buffers : Z;
  buf_stride : Z;
  back : Z;
}.

(** The page-aligned size of a buffer. *)
Definition frame_stride (width height : Z) : Z :=
  Z.land (u64 (u64 (u64 (u64 width * u64 height) * 4) + 4095)) (u64 (Z.lnot 4095)).

(** The number of buffers that fit, [None] if none does. *)
Definition fit_buffers (sz bs n : Z) : option Z :=
  if sz <? u64 (hdr_sz + u64 (u64 n * bs)) then
    let n' := i32 (u64 (sz - hdr_sz) / bs) in
    if n' <? 1 then None else Some n'
  else Some n.

(** The handle and the stores into the region; [mem_ok] is whether [calloc]
    succeeds. *)
Definition asb_frame_open (m : mem) (g : globals) (mem_ok : bool) (width height n : Z)
    : option (AsbFrame * list store) :=
  if negb (g_is_ivshmem g) then None
  else
    match g_bar g, find_region m (g_dir g) ASB_CH_DISPLAY with
    | Some bar, Some ra =>
        let r := read_desc m ra in
        if Z.land (flags r) ASB_REGION_FRAME =? 0 then None
        else
          let n := if n <? 2 then 2 else n in
          let bs := frame_stride width height in
          match fit_buffers (size r) bs n with
          | None => None
          | Some n =>
              if negb mem_ok then None
              else
                let b := bar + offset r in
                let cur_off := u64 (hdr_sz + u64 (u64 n * bs)) in
                Some (mkFrame b (u32 n) bs 0,
                  [St32 (b + FR_N_BUFFERS) (u32 n); St32 (b + FR_WIDTH) (u32 width);
                   St32 (b + FR_HEIGHT) (u32 height); St32 (b + FR_STRIDE) (u32 (u32 width * 4));
                   St32 (b + FR_FORMAT) 0; St64 (b + FR_BUFFERS_OFFSET) hdr_sz;
                   St64 (b + FR_BUFFER_STRIDE) bs; St32 (b + FR_CONSUMED) 0;
                   St32 (b + FR_ACTIVE) 0; St32 (b + FR_DIRTY) 0] ++
                  (if u64 (cur_off + ASB_CURSOR_AREA) <=? size r then
                     [Fill (b + cur_off) CURSOR_HDR 0; St32 (b + cur_off) ASB_CURSOR_MAGIC;
                      St64 (b + FR_CURSOR_OFFSET) cur_off]
                   else [St64 (b + FR_CURSOR_OFFSET) 0]) ++
                  [St32 (b + FR_PRODUCED) 0; St32 (b + FR_MAGIC) ASB_FRAME_MAGIC])
          end
    | _, _ => None
    end.

Definition asb_frame_back_buffer (m : mem) (f : AsbFrame) : AsbFrame * Z :=
  let bk := i32 (u32 (ld32 m (base f + FR_ACTIVE) + 1) mod n_buffers f) in
  (mkFrame (base f) (n_buffers f) (buf_stride f) bk,
   base f + ld64 m (base f + FR_BUFFERS_OFFSET) + u64 (u64 bk * buf_stride f)).

Definition asb_frame_publish (m : mem) (f : AsbFrame) : mem :=
  let m1 := st32 m (base f + FR_ACTIVE) (u32 (back f)) in
  st32 m1 (base f + FR_PRODUCED) (u32 (ld32 m1 (base f + FR_PRODUCED) + 1)).

Definition asb_frame_cursor (m : mem) (f : AsbFrame) : option Z :=
  let c := ld64 m (base f + FR_CURSOR_OFFSET) in
  if c =? 0 then None else Some (base f + c).

(** *** Geometry *)

Lemma land_pages x : is_u64 x → Z.land x (u64 (Z.lnot 4095)) = x - x mod 4096.
Proof.
  intros Hx. unfold is_u64 in Hx.
  assert (u64 (Z.lnot 4095) = Z.ldiff (Z.ones 64) (Z.ones 12)) as -> by reflexivity.
  replace (Z.land x (Z.ldiff (Z.ones 64) (Z.ones 12))) with (Z.ldiff (Z.land x (Z.ones 64)) (Z.ones 12)).
  - rewrite Z.land_ones, Z.mod_small, Z.ldiff_ones_r, Z.shiftl_mul_pow2, Z.shiftr_div_pow2 by lia.
    change (2 ^ 12) with 4096. dlia.
  - apply Z.bits_inj'. intros i _. rewrite !Z.ldiff_spec, !Z.land_spec, Z.ldiff_spec. by rewrite andb_assoc.
Qed.

Lemma frame_stride_spec w h :
  0 < w <= 32768 → 0 < h <= 32768 →
  w * h * 4 <= frame_stride w h <= 4294967296 ∧ 4096 <= frame_stride w h.
Proof.
  intros Hw Hh. unfold frame_stride. assert (0 < w * h <= 32768 * 32768) by nia.
  rewrite (u64_small w), (u64_small h), (u64_small (w * h)), (u64_small (w * h * 4)), (u64_small (_ + 4095)) by lia.
  rewrite land_pages by (unfold is_u64; lia). dlia.
Qed.

Lemma fit_buffers_spec sz bs n n' :
  4096 <= sz < 2 ^ 40 → 4096 <= bs <= 4294967296 → 2 <= n < 2147483648 →
  fit_buffers sz bs n = Some n' → 1 <= n' <= n ∧ hdr_sz + n' * bs <= sz ∧ n' = Z.min n ((sz - hdr_sz) / bs).
Proof.
  intros Hsz Hbs Hn. unfold fit_buffers, hdr_sz. change (2 ^ 40) with 1099511627776 in Hsz.
  assert (n * bs <= 2147483648 * 4294967296) by nia. assert (0 <= n * bs) by nia.
  rewrite (u64_small n), (u64_small (n * bs)), (u64_small (4096 + n * bs)), (u64_small (sz - 4096)) by lia.
  destruct (Z.ltb_spec sz (4096 + n * bs)) as [Hlt|Hge].
  2:{ intros [= <-]. pose proof (Z.div_le_lower_bound (sz - 4096) bs n ltac:(lia) ltac:(nia)). lia. }
  assert (0 <= (sz - 4096) / bs) by (apply Z.div_pos; lia).
  assert ((sz - 4096) / bs * bs <= sz - 4096) by (rewrite Z.mul_comm; apply Z.mul_div_le; lia).
  assert ((sz - 4096) / bs < 2147483648) by nia.
  assert (i32 ((sz - 4096) / bs) = (sz - 4096) / bs) as -> by (unfold i32; dlia).
  destruct (_ <? 1) eqn:E; [done|]. intros [= <-]. zbool.
  assert ((sz - 4096) / bs < n) by (apply Z.div_lt_upper_bound; [lia|nia]). lia.
Qed.

(** *** The invariant of an open frame region *)

Record frame_ok (m : mem) (f : AsbFrame) (sz w h : Z) : Prop := {
  fo_n : 1 <= n_buffers f < 2147483648;
  fo_size : sz < 2 ^ 40;
  fo_stride : w * h * 4 <= buf_stride f;
  fo_pos : 0 < buf_stride f;
  fo_fit : hdr_sz + n_buffers f * buf_stride f <= sz;
  fo_off : ld64 m (base f + FR_BUFFERS_OFFSET) = hdr_sz;
  fo_active : 0 <= ld32 m (base f + FR_ACTIVE) < n_buffers f;
  fo_cursor : ld64 m (base f + FR_CURSOR_OFFSET) = 0 ∨
    (hdr_sz + n_buffers f * buf_stride f <= ld64 m (base f + FR_CURSOR_OFFSET) ∧
     ld64 m (base f + FR_CURSOR_OFFSET) + ASB_CURSOR_AREA <= sz);
}.

(** Address of buffer [i]. *)
Definition buffer (f : AsbFrame) (i : Z) : Z := base f + hdr_sz + i * buf_stride f.

Ltac fr_offsets :=
  unfold FR_MAGIC, FR_N_BUFFERS, FR_WIDTH, FR_HEIGHT, FR_STRIDE, FR_FORMAT, FR_PRODUCED, FR_CONSUMED,
    FR_ACTIVE, FR_DIRTY, FR_BUFFERS_OFFSET, FR_BUFFER_STRIDE, FR_CURSOR_OFFSET, CURSOR_HDR, hdr_sz in *.
(** The listed stores miss a header word. *)
Ltac clears := fr_offsets; repeat (apply Forall_cons; split; [simpl; lia|]); apply Forall_nil; exact I.

(** What [asb_frame_open] returns and stores, on its one successful path. *)
Lemma frame_open_inv m g mem_ok w h n f ss ra :
  find_region m (g_dir g) ASB_CH_DISPLAY = Some ra →
  asb_frame_open m g mem_ok w h n = Some (f, ss) →
  ∃ bar n', g_bar g = Some bar ∧ Z.land (flags (read_desc m ra)) ASB_REGION_FRAME ≠ 0 ∧
    fit_buffers (size (read_desc m ra)) (frame_stride w h) (if n <? 2 then 2 else n) = Some n' ∧
    f = mkFrame (bar + offset (read_desc m ra)) (u32 n') (frame_stride w h) 0 ∧
    let b := base f in
    let bs := frame_stride w h in
    let cur_off := u64 (hdr_sz + u64 (u64 n' * bs)) in
    ss = [St32 (b + FR_N_BUFFERS) (u32 n'); St32 (b + FR_WIDTH) (u32 w);
          St32 (b + FR_HEIGHT) (u32 h); St32 (b + FR_STRIDE) (u32 (u32 w * 4));
          St32 (b + FR_FORMAT) 0; St64 (b + FR_BUFFERS_OFFSET) hdr_sz;
          St64 (b + FR_BUFFER_STRIDE) bs; St32 (b + FR_CONSUMED) 0;
          St32 (b + FR_ACTIVE) 0; St32 (b + FR_DIRTY) 0] ++
         (if u64 (cur_off + ASB_CURSOR_AREA) <=? size (read_desc m ra) then
            [Fill (b + cur_off) CURSOR_HDR 0; St32 (b + cur_off) ASB_CURSOR_MAGIC;
             St64 (b + FR_CURSOR_OFFSET) cur_off]
          else [St64 (b + FR_CURSOR_OFFSET) 0]) ++
         [St32 (b + FR_PRODUCED) 0; St32 (b + FR_MAGIC) ASB_FRAME_MAGIC].
Proof.
  intros Hra. unfold asb_frame_open. rewrite Hra.
  destruct (negb (g_is_ivshmem g)); [done|]. destruct (g_bar g) as [bar|]; [|done].
  destruct (_ =? 0) eqn:Ef; [done|]. destruct (fit_buffers _ _ _) as [n'|] eqn:En; [|done].
  destruct mem_ok; [|done]. intros [= <- <-]. zbool. by exists bar, n'.
Qed.

Lemma frame_open_ok m g mem_ok w h n f ss ra :
  find_region m (g_dir g) ASB_CH_DISPLAY = Some ra →
  4096 <= size (read_desc m ra) < 2 ^ 40 → 0 < w <= 32768 → 0 < h <= 32768 → n < 2147483648 →
  asb_frame_open m g mem_ok w h n = Some (f, ss) →
  frame_ok (do_stores m ss) f (size (read_desc m ra)) w h ∧
  n_buffers f = Z.min (Z.max 2 n) ((size (read_desc m ra) - hdr_sz) / frame_stride w h) ∧
  ld32 (do_stores m ss) (base f + FR_MAGIC) = ASB_FRAME_MAGIC ∧
  (∀ k, (k < length ss)%nat →
     ld32 (do_stores m (take k ss)) (base f + FR_MAGIC) = ld32 m (base f + FR_MAGIC)).
Proof.
  intros Hra Hsz Hw Hh Hn Hopen.
  destruct (frame_open_inv _ _ _ _ _ _ _ _ _ Hra Hopen) as (bar & n' & _ & _ & Hfit & Hf & Hss).
  pose proof (frame_stride_spec w h Hw Hh) as [Hbs Hbs'].
  assert (Hn2 : 2 <= (if n <? 2 then 2 else n) < 2147483648) by (bcase; lia).
  apply fit_buffers_spec in Hfit as (Hn' & Hfit & Hnum); [|done|lia|done].
  set (b := base f) in *. set (sz := size (read_desc m ra)) in *. set (bs := frame_stride w h) in *.
  assert (Hnb : 0 <= n' * bs <= sz) by (unfold hdr_sz in *; nia).
  change (2 ^ 40) with 1099511627776 in Hsz. cbv zeta in Hss.
  rewrite (u64_small n'), (u64_small (n' * bs)) in Hss by lia.
  rewrite (u64_small (hdr_sz + n' * bs)), (u64_small (_ + ASB_CURSOR_AREA)) in Hss
    by (unfold hdr_sz, ASB_CURSOR_AREA, CURSOR_HDR; lia).
  set (cur := if _ <=? sz then _ else _) in Hss.
  assert (Hcur : Forall (λ s, clear_of b 40 s) cur ∧ Forall (λ s, clear_of (b + 40) 8 s) cur).
  { unfold cur. destruct (_ <=? sz); split; clears. }
  assert (Hclear : ∀ a k, b <= a → a + k <= b + 40 ∨ b + 40 <= a ∧ a + k <= b + 48 → Forall (clear_of a k) cur).
  { intros a k Ha [?|?]; eapply list.Forall_impl; [exact (proj1 Hcur)| |exact (proj2 Hcur)|];
      intros []; simpl; lia. }
  assert (Hmag : ∃ body, ss = body ++ [St32 (b + FR_MAGIC) ASB_FRAME_MAGIC] ∧ Forall (clear_of (b + FR_MAGIC) 4) body).
  { match type of Hss with ss = ?l ++ _ => exists (l ++ cur ++ [St32 (b + FR_PRODUCED) 0]) end.
    split; [by rewrite Hss, <- !app_assoc|].
    repeat (apply Forall_app; split); [clears|apply Hclear; fr_offsets; lia|clears]. }
  destruct Hmag as (body & Ebody & Hbody).
  split; [|split; [|split]].
  2:{ subst f. cbn [n_buffers]. rewrite u32_small, Hnum by lia. f_equal. bcase; lia. }
  - subst f. split; cbn [base n_buffers buf_stride back] in *; fold b bs.
    + rewrite u32_small; lia.
    + exact (proj2 Hsz).
    + lia.
    + lia.
    + rewrite u32_small; lia.
    + rewrite Hss. change 4096 with hdr_sz.
      match goal with |- context [do_stores m ((?a1 :: ?a2 :: ?a3 :: ?a4 :: ?a5 :: ?s :: ?l) ++ ?l2)] =>
        change ((a1 :: a2 :: a3 :: a4 :: a5 :: s :: l) ++ l2) with ([a1; a2; a3; a4; a5] ++ s :: (l ++ l2)) end.
      rewrite ld64_last_store; [reflexivity|].
      repeat (apply Forall_app; split); [clears|apply Hclear; fr_offsets; lia|clears].
    + rewrite Hss.
      match goal with |- context [do_stores m ((?a1 :: ?a2 :: ?a3 :: ?a4 :: ?a5 :: ?a6 :: ?a7 :: ?a8 :: ?s :: ?l) ++ ?l2)] =>
        change ((a1 :: a2 :: a3 :: a4 :: a5 :: a6 :: a7 :: a8 :: s :: l) ++ l2) with
          ([a1; a2; a3; a4; a5; a6; a7; a8] ++ s :: (l ++ l2)) end.
      rewrite ld32_last_store; [rewrite !u32_small by lia; lia|].
      repeat (apply Forall_app; split); [clears|apply Hclear; fr_offsets; lia|clears].
    + rewrite Hss, app_assoc. unfold cur. destruct (_ <=? sz) eqn:E; zbool.
      * rewrite u32_small by lia. right.
        match goal with |- context [do_stores m ((?l ++ [?a1; ?a2; ?s]) ++ ?l2)] =>
          replace ((l ++ [a1; a2; s]) ++ l2) with ((l ++ [a1; a2]) ++ s :: l2) by (by rewrite <- !app_assoc) end.
        rewrite ld64_last_store, u64_small by (clears || (fr_offsets; lia)). split; [done|exact E].
      * left. rewrite <- app_assoc. match goal with |- context [[?x] ++ ?l] => change ([x] ++ l) with (x :: l) end.
        rewrite ld64_last_store by clears. reflexivity.
  - rewrite Ebody. by rewrite ld32_last_store.
  - intros k Hk. rewrite Ebody in Hk |- *. rewrite length_app in Hk. simpl in Hk.
    rewrite take_app_le by lia. apply ld32_do_stores. by apply Forall_take.
Qed.

(** *** Drawing and publishing *)

Lemma i32_id z : 0 <= z < 2147483648 → i32 z = z.
Proof. intros. unfold i32. dlia. Qed.

Lemma back_buffer_spec m f sz w h :
  frame_ok m f sz w h →
  let bk := (ld32 m (base f + FR_ACTIVE) + 1) mod n_buffers f in
  asb_frame_back_buffer m f = (mkFrame (base f) (n_buffers f) (buf_stride f) bk, buffer f bk) ∧
  0 <= bk < n_buffers f ∧ (bk = ld32 m (base f + FR_ACTIVE) ↔ n_buffers f = 1).
Proof.
  intros F bk. pose proof (fo_n _ _ _ _ _ F) as Hn. pose proof (fo_active _ _ _ _ _ F) as Ha.
  pose proof (fo_fit _ _ _ _ _ F) as Hf. pose proof (fo_pos _ _ _ _ _ F) as Hp.
  pose proof (fo_size _ _ _ _ _ F) as Hs. change (2 ^ 40) with 1099511627776 in Hs.
  assert (Hbk : 0 <= bk < n_buffers f) by (apply Z.mod_pos_bound; lia).
  unfold asb_frame_back_buffer. rewrite (u32_small (_ + 1)) by lia. fold bk.
  rewrite i32_id by lia. split; [|split; [done|]].
  - f_equal. unfold buffer. rewrite (fo_off _ _ _ _ _ F). unfold hdr_sz in *.
    rewrite (u64_small bk), u64_small; nia.
  - split; [intros E; unfold bk in E|lia].
    destruct (Z.eq_dec (ld32 m (base f + FR_ACTIVE) + 1) (n_buffers f)) as [Heq|Hne].
    + rewrite Heq, Z.mod_same in E by lia. lia.
    + rewrite Z.mod_small in E; lia.
Qed.

(** Words of the header survive a write into a buffer. *)
Lemma header_write m f sz w h i px a :
  frame_ok m f sz w h → 0 <= i < n_buffers f → a + 8 <= 4096 →
  (∀ x, x < base f + 4096 → mwrite m (buffer f i) px x = m x) ∧
  ld32 (mwrite m (buffer f i) px) (base f + a) = ld32 m (base f + a) ∧
  ld64 (mwrite m (buffer f i) px) (base f + a) = ld64 m (base f + a).
Proof.
  intros F Hi Ha. pose proof (fo_pos _ _ _ _ _ F). unfold buffer, hdr_sz.
  assert (0 <= i * buf_stride f) by nia. split; [|split].
  - intros. apply mwrite_out. lia.
  - apply ld32_mwrite_ne. lia.
  - apply ld64_mwrite_ne. lia.
Qed.

(** C13: a frame region [asb_frame_open] has opened holds its buffers, each at
    least the frame's size, disjoint and inside the region, and its cursor area
    behind them; their number is what was asked for (two at least) or as many as
    fit, which may be one; its magic is stored last.  From then on, the buffer
    handed out for drawing is the active one exactly when there is only one.
    With two or more, drawing in it leaves the header and the active buffer
    alone; in every case publishing makes it the active buffer and advances the
    sequence number. *)
Theorem frame_double_buffer :
  (∀ m g mem_ok w h n f ss ra,
     find_region m (g_dir g) ASB_CH_DISPLAY = Some ra →
     4096 <= size (read_desc m ra) < 2 ^ 40 → 0 < w <= 32768 → 0 < h <= 32768 → n < 2147483648 →
     asb_frame_open m g mem_ok w h n = Some (f, ss) →
     frame_ok (do_stores m ss) f (size (read_desc m ra)) w h ∧
     n_buffers f = Z.min (Z.max 2 n) ((size (read_desc m ra) - hdr_sz) / frame_stride w h) ∧
     ld32 (do_stores m ss) (base f + FR_MAGIC) = ASB_FRAME_MAGIC ∧
     (∀ k, (k < length ss)%nat →
        ld32 (do_stores m (take k ss)) (base f + FR_MAGIC) = ld32 m (base f + FR_MAGIC))) ∧
  (∀ m f sz w h px, frame_ok m f sz w h → Z.of_nat (length px) <= buf_stride f →
     ∃ f' bk, asb_frame_back_buffer m f = (f', buffer f bk) ∧ back f' = bk ∧ 0 <= bk < n_buffers f ∧
       let m1 := mwrite m (buffer f bk) px in
       let m2 := asb_frame_publish m1 f' in
       (bk = ld32 m (base f + FR_ACTIVE) ↔ n_buffers f = 1) ∧
       (2 <= n_buffers f →
          ∀ x, buffer f (ld32 m (base f + FR_ACTIVE)) <= x < buffer f (ld32 m (base f + FR_ACTIVE)) + buf_stride f →
               m1 x = m x) ∧
       frame_ok m2 f' sz w h ∧ ld32 m2 (base f + FR_ACTIVE) = bk ∧
       ld32 m2 (base f + FR_PRODUCED) = u32 (ld32 m (base f + FR_PRODUCED) + 1)).
Proof.
  split; [intros; by eapply frame_open_ok|].
  intros m f sz w h px F Hpx. destruct (back_buffer_spec _ _ _ _ _ F) as (E & Hbk & Hne).
  set (bk := (ld32 m (base f + FR_ACTIVE) + 1) mod n_buffers f) in *.
  eexists _, bk. split; [exact E|]. split; [done|]. split; [done|].
  pose proof (fo_n _ _ _ _ _ F) as Hn. pose proof (fo_pos _ _ _ _ _ F) as Hp.
  pose proof (fo_active _ _ _ _ _ F) as Ha.
  cbv zeta. split; [done|]. split; [|split; [|split]].
  - intros H2 x Hx. apply mwrite_out. assert (bk ≠ ld32 m (base f + FR_ACTIVE)) by (intros E1; apply Hne in E1; lia).
    unfold buffer in *. destruct (Z.lt_total bk (ld32 m (base f + FR_ACTIVE))) as [?|[?|?]]; nia.
  - unfold asb_frame_publish, st32. cbn [base back n_buffers buf_stride].
    split; cbn [base back n_buffers buf_stride]; try apply F.
    + rewrite !ld64_mwrite_ne by (rewrite length_le_bytes; fr_offsets; lia).
      rewrite (proj2 (proj2 (header_write m f sz w h bk px FR_BUFFERS_OFFSET F Hbk ltac:(fr_offsets; lia)))).
      apply F.
    + rewrite ld32_mwrite_ne by (rewrite length_le_bytes; fr_offsets; lia).
      fold (st32 (mwrite m (buffer f bk) px) (base f + FR_ACTIVE) (u32 bk)).
      rewrite ld32_st32, (u32_small bk), u32_small by lia. lia.
    + rewrite !ld64_mwrite_ne by (rewrite length_le_bytes; fr_offsets; lia).
      rewrite (proj2 (proj2 (header_write m f sz w h bk px FR_CURSOR_OFFSET F Hbk ltac:(fr_offsets; lia)))).
      apply F.
  - unfold asb_frame_publish. cbn [base back]. unfold st32 at 1.
    rewrite ld32_mwrite_ne by (rewrite length_le_bytes; fr_offsets; lia).
    rewrite ld32_st32, (u32_small bk), u32_small by lia. done.
  - unfold asb_frame_publish. cbn [base back]. rewrite ld32_st32. unfold st32.
    rewrite ld32_mwrite_ne by (rewrite length_le_bytes; fr_offsets; lia).
    rewrite (proj1 (proj2 (header_write m f sz w h bk px FR_PRODUCED F Hbk ltac:(fr_offsets; lia)))).
    apply u32_small, u32_range.
Qed.

(** On the layout the launcher publishes, the display region is a stream, so that
    [asb_frame_open] always declines. *)
Lemma frame_open_published m bar_size g mem_ok w h n :
  g_dir g = Some 0 →
  asb_frame_open (do_stores m (asb_shm_publish 0 bar_size)) g mem_ok w h n = None.
Proof.
  intros Hg. unfold asb_frame_open. rewrite Hg.
  destruct (negb _); [done|]. destruct (g_bar g); [|done].
  edestruct (published_regions m bar_size) as (a & Ea & Ed); [by left|].
  cbn [channel_id] in Ea. rewrite Ea, Ed. reflexivity.
Qed.

(** A directory with one frame region, of the published size, and a 1080p display opened in it. *)
Definition frame_mem : mem :=
  do_stores (λ _, 0)
    [St32 DIR_N_REGIONS 1; St32 (desc_addr 0 0) ASB_CH_DISPLAY; St32 (desc_addr 0 0 + 4) ASB_REGION_FRAME;
     St64 (desc_addr 0 0 + 8) 65536; St64 (desc_addr 0 0 + 16) (48 * 1024 * 1024)].

Lemma frame_double_buffer_witness :
  ∃ f ss, asb_frame_open frame_mem (mkG true (Some 0) (Some 0) 1 true) true 1920 1080 3 = Some (f, ss) ∧
    n_buffers f = 3 ∧ frame_ok (do_stores frame_mem ss) f (48 * 1024 * 1024) 1920 1080.
Proof.
  eexists _, _. split; [vm_compute; reflexivity|]. split; [reflexivity|].
  refine (proj1 (proj1 frame_double_buffer frame_mem (mkG true (Some 0) (Some 0) 1 true) true 1920 1080 3
    _ _ (desc_addr 0 0) _ _ _ _ _ _)).
  - vm_compute. reflexivity.
  - vm_compute. split; [discriminate|reflexivity].
  - lia.
  - lia.
  - lia.
  - vm_compute. reflexivity.
Defined.

(** In the same region a 3840x2160 display has one buffer, and the address handed
    out for drawing is that of the active one. *)
Lemma one_buffer :
  ∃ f ss, asb_frame_open frame_mem (mkG true (Some 0) (Some 0) 1 true) true 3840 2160 2 = Some (f, ss) ∧
    n_buffers f = 1 ∧
    (asb_frame_back_buffer (do_stores frame_mem ss) f).2 =
      buffer f (ld32 (do_stores frame_mem ss) (base f + FR_ACTIVE)).
Proof. eexists _, _. split; [vm_compute; reflexivity|]. split; vm_compute; reflexivity. Qed.
