(* ===== verification/WStr.v ===== *)
(** * Wide strings and the C runtime functions the Windows backend uses

    A [wchar_t] string is the list of its code units before the terminator.
    [None] is the CRT's invalid-parameter handler, which ends the process when a
    [_s] function is given too small a buffer. *)

From Stdlib Require Import String Ascii.
From S2P Require Import Prelude.

Abbreviation wstr := (list Z).

(** A literal [L"..."]. *)
Definition lit (s : string) : wstr := map (λ c, Z.of_nat (nat_of_ascii c)) (list_ascii_of_string s).
Arguments lit s%_string.

(** [wcscpy_s(dst, n, src)]: the new contents of [dst]. *)
Definition wcscpy_s (n : Z) (src : wstr) : option wstr :=
  if Z.of_nat (length src) <? n then Some src else None.
(** [swprintf_s] with its output already formatted. *)
Definition swprintf_s (n : Z) (out : wstr) : option wstr := wcscpy_s n out.

(** [wcsncmp(line, prefix, wcslen(prefix)) == 0], and the rest of the line. *)
Fixpoint after_prefix (prefix line : wstr) : option wstr :=
  match prefix, line with
  | [], _ => Some line
  | p :: prefix', c :: line' => if p =? c then after_prefix prefix' line' else None
  | _, [] => None
  end.

(** ** Numbers *)

Definition hexd (d : Z) : Z := if d <? 10 then 48 + d else 87 + d.
(** [%0nx] of a value that fits. *)
Fixpoint hexn (n : nat) (v : Z) : wstr :=
  match n with O => [] | S n' => hexn n' (v / 16) ++ [hexd (v mod 16)] end.

(** Decimal digits, most significant first ([%llu]). *)
Fixpoint dec_fuel (fuel : nat) (v : Z) : wstr :=
  match fuel with
  | O => []
  | S fuel' => (if v <? 10 then [] else dec_fuel fuel' (v / 10)) ++ [48 + v mod 10]
  end.
Definition dec (v : Z) : wstr := dec_fuel 20 v.
(** [%0wd] of a non-negative value. *)
Definition decw (w : nat) (v : Z) : wstr := replicate (w - length (dec v)) 48 ++ dec v.

Definition ULLONG_MAX : Z := 18446744073709551615.
Fixpoint parse_dec (acc : Z) (s : wstr) : Z :=
  match s with
  | c :: s' => if (48 <=? c) && (c <=? 57) then parse_dec (acc * 10 + (c - 48)) s' else acc
  | [] => acc
  end.
Definition is_space (c : Z) : bool := (c =? 32) || ((9 <=? c) && (c <=? 13)).
Fixpoint skip_space (s : wstr) : wstr :=
  match s with c :: s' => if is_space c then skip_space s' else s | [] => [] end.
(** [_wcstoui64(s, NULL, 10)]: saturates, and negates after a minus sign. *)
Definition wcstoui64 (s : wstr) : Z :=
  match skip_space s with
  | 43 :: s' => Z.min (parse_dec 0 s') ULLONG_MAX
  | 45 :: s' =>
      let v := parse_dec 0 s' in if ULLONG_MAX <? v then ULLONG_MAX else u64 (- v)
  | s' => Z.min (parse_dec 0 s') ULLONG_MAX
  end.

(** ** Text files *)

(** [fgetws(line, n + 1, f)]: at most [n] characters, up to and with the newline;
    [None] at the end of the file. *)
Fixpoint fgetws (n : nat) (text : wstr) : wstr * wstr :=
  match n, text with
  | S n', c :: text' =>
      if c =? 10 then ([c], text')
      else let '(l, r) := fgetws n' text' in (c :: l, r)
  | _, _ => ([], text)
  end.

(** The string up to a terminator inside it. *)
Fixpoint cstr (s : wstr) : wstr :=
  match s with c :: s' => if c =? 0 then [] else c :: cstr s' | [] => [] end.

(** [while (len > 0 && (line[len-1] is '\n' or '\r')) line[--len] = 0;] *)
Definition is_eol (c : Z) : bool := (c =? 10) || (c =? 13).
Fixpoint chomp (s : wstr) : wstr :=
  match s with
  | [] => []
  | c :: s' => match chomp s' with [] => if is_eol c then [] else [c] | t => c :: t end
  end.

(** The lines a loop over [fgetws] with a 1024-character buffer yields. *)
Fixpoint lines_fuel (fuel : nat) (text : wstr) : list wstr :=
  match fuel, text with
  | S fuel', _ :: _ =>
      let '(l, r) := fgetws 1023 text in chomp (cstr l) :: lines_fuel fuel' r
  | _, _ => []
  end.
Definition lines (text : wstr) : list wstr := lines_fuel (length text) text.

(** ** Lemmas *)

(** A string the text format can carry: no terminator, no line break. *)
Definition clean (s : wstr) : Prop := Forall (λ c, c ≠ 0 ∧ c ≠ 10 ∧ c ≠ 13) s.

Lemma clean_app s t : clean s → clean t → clean (s ++ t).
Proof. intros. by apply Forall_app. Qed.

Lemma chomp_clean s : clean s → chomp (s ++ [10]) = s.
Proof.
  induction 1 as [|c s Hc Hs IH]; [done|]. cbn [app chomp]. rewrite IH.
  destruct s as [|d s]; [|done]. unfold is_eol.
  destruct (Z.eqb_spec c 10), (Z.eqb_spec c 13); simpl; [lia|lia|lia|done].
Qed.

Lemma cstr_clean s t : clean s → cstr (s ++ 10 :: t) = s ++ 10 :: cstr t.
Proof.
  induction 1 as [|c s Hc Hs IH]; [done|]. cbn [app cstr].
  destruct (Z.eqb_spec c 0); [lia|]. by rewrite IH.
Qed.

Lemma fgetws_clean n s rest :
  clean s → (length s < n)%nat → fgetws n (s ++ 10 :: rest) = (s ++ [10], rest).
Proof.
  intros Hs. revert n. induction Hs as [|c s Hc Hs IH]; intros n Hn; (destruct n as [|n]; [simpl in Hn; lia|]).
  - done.
  - cbn [app fgetws]. destruct (Z.eqb_spec c 10); [lia|].
    rewrite IH by (simpl in Hn; lia). done.
Qed.

Lemma lines_fuel_step fuel s rest :
  clean s → (length s < 1023)%nat →
  lines_fuel (S fuel) (s ++ 10 :: rest) = s :: lines_fuel fuel rest.
Proof.
  intros Hs Hl. cbn [lines_fuel].
  destruct (s ++ 10 :: rest) eqn:E; [by destruct s|]. rewrite <- E.
  rewrite fgetws_clean by done. rewrite cstr_clean by done. cbn [cstr]. by rewrite chomp_clean.
Qed.

(** Reading back a text written line by line. *)
Lemma lines_unlines ls :
  Forall (λ s, clean s ∧ (length s < 1023)%nat) ls →
  lines (concat (map (λ s, s ++ [10]) ls)) = ls.
Proof.
  intros H. unfold lines.
  enough (G : ∀ fuel, (length ls <= fuel)%nat →
    lines_fuel fuel (concat (map (λ s, s ++ [10]) ls)) = ls).
  { apply G. clear G. induction H as [|s ls _ _ IH]; [simpl; lia|].
    simpl. rewrite !length_app. simpl. lia. }
  induction H as [|s ls [Hs Hl] _ IH]; intros fuel Hf; [by destruct fuel|].
  destruct fuel as [|fuel]; [simpl in Hf; lia|]. cbn [map concat].
  rewrite <- app_assoc. cbn [app]. rewrite lines_fuel_step by done. f_equal. apply IH. simpl in Hf. lia.
Qed.

(** Digits *)

Lemma dec_fuel_digits fuel v : 0 <= v → Forall (λ c, 48 <= c <= 57) (dec_fuel fuel v).
Proof.
  revert v. induction fuel as [|fuel IH]; intros v Hv; cbn [dec_fuel]; [constructor|].
  apply Forall_app. split.
  - bcase; [constructor|]. apply IH. apply Z.div_pos; lia.
  - repeat constructor; pose proof (Z.mod_pos_bound v 10); lia.
Qed.

Lemma parse_dec_app acc s t :
  Forall (λ c, 48 <= c <= 57) s → parse_dec acc (s ++ t) = parse_dec (parse_dec acc s) t.
Proof.
  intros H. revert acc. induction H as [|c s Hc _ IH]; intros acc; [done|]. cbn [app parse_dec].
  destruct (Z.leb_spec 48 c), (Z.leb_spec c 57); try lia. cbn [andb]. apply IH.
Qed.

Lemma dec_fuel_S fuel v :
  dec_fuel (S fuel) v = (if v <? 10 then [] else dec_fuel fuel (v / 10)) ++ [48 + v mod 10].
Proof. done. Qed.

Lemma parse_dec_fuel fuel v : 0 <= v < 10 ^ Z.of_nat fuel → parse_dec 0 (dec_fuel fuel v) = v.
Proof.
  revert v. induction fuel as [|fuel IH]; intros v Hv; [simpl in *; lia|].
  rewrite Nat2Z.inj_succ, Z.pow_succ_r in Hv by lia.
  rewrite dec_fuel_S, parse_dec_app by (bcase; [constructor|apply dec_fuel_digits; dlia]).
  assert (E : parse_dec 0 (if v <? 10 then [] else dec_fuel fuel (v / 10)) = v / 10).
  { bcase; [simpl; symmetry; apply Z.div_small; lia|]. apply IH.
    split; [dlia|]. apply Z.div_lt_upper_bound; lia. }
  rewrite E. cbn [parse_dec]. pose proof (Z.mod_pos_bound v 10).
  destruct (Z.leb_spec 48 (48 + v mod 10)), (Z.leb_spec (48 + v mod 10) 57); try lia. cbn [andb]. dlia.
Qed.

Lemma dec_clean v : 0 <= v → clean (dec v).
Proof.
  intros. eapply list.Forall_impl; [by apply dec_fuel_digits|]. simpl. intros. lia.
Qed.

Lemma length_dec_fuel fuel v : (length (dec_fuel fuel v) <= fuel)%nat.
Proof.
  revert v. induction fuel as [|fuel IH]; intros v; [done|]. cbn [dec_fuel].
  rewrite length_app. simpl. specialize (IH (v / 10)). destruct (v <? 10); simpl; lia.
Qed.

(** [Created=] survives a save and a load. *)
Lemma wcstoui64_dec v : is_u64 v → wcstoui64 (dec v) = v.
Proof.
  intros Hv. unfold is_u64 in Hv.
  assert (P : parse_dec 0 (dec v) = v) by (apply parse_dec_fuel; change (10 ^ Z.of_nat 20) with 100000000000000000000; lia).
  pose proof (dec_fuel_digits 20 v ltac:(lia)) as D. fold (dec v) in D.
  unfold wcstoui64. destruct (dec v) as [|c s] eqn:E.
  { unfold dec in E. rewrite dec_fuel_S in E. by apply app_eq_nil in E as [_ ?]. }
  apply Forall_cons in D as [Hc D].
  assert (is_space c = false) as Hsp.
  { unfold is_space. destruct (Z.eqb_spec c 32), (Z.leb_spec 9 c), (Z.leb_spec c 13); simpl; lia. }
  cbn [skip_space]. rewrite Hsp.
  assert (Hmin : Z.min (parse_dec 0 (c :: s)) ULLONG_MAX = v) by (rewrite P; unfold ULLONG_MAX; lia).
  assert (c = 48 ∨ c = 49 ∨ c = 50 ∨ c = 51 ∨ c = 52 ∨ c = 53 ∨ c = 54 ∨ c = 55 ∨ c = 56 ∨ c = 57) as Hcs by lia.
  destruct Hcs as [->|[->|[->|[->|[->|[->|[->|[->|[->| ->]]]]]]]]]; exact Hmin.
Qed.

Lemma after_prefix_app p s : after_prefix p (p ++ s) = Some s.
Proof. induction p as [|c p IH]; [done|]. cbn [app after_prefix]. by rewrite Z.eqb_refl. Qed.
