(* ===== verification/Snapshot.v ===== *)
(** * The snapshot tree ([src/src/backend_win/snapshot.c], [snapshot.h])

    A VM's base disk, its frozen snapshots and their working branches.  The
    arrays of the C structs are modelled by the list of their used entries: an
    entry past the count is zero and never read.  What the operating system
    returns (GUIDs, the result of creating a differencing disk, the local time,
    whether [tree.dat] opens) is an argument of each operation; what is asked of
    it is the list of effects the operation returns, in order. *)

From Stdlib Require Import String.
From S2P Require Import Prelude WStr.

Definition MAX_SNAPSHOTS : Z := 64.
Definition MAX_BRANCHES : Z := 8.
Definition MAX_PATH : Z := 260.

Definition S_OK : Z := 0.
Definition S_FALSE : Z := 1.
Definition E_INVALIDARG : Z := -2147024809.
Definition E_NOT_VALID_STATE : Z := -2147019873.
Definition HR_BUFFER_OVERFLOW : Z := -2147024785.
Definition FAILED (hr : Z) : bool := hr <? 0.

Record BranchEntry := mkBranch {
  b_guid : wstr;
  friendly_name : wstr;
  vhdx_path : wstr;
  b_valid : bool;
}.

Record SnapNode := mkNode {
  guid : wstr;
  name : wstr;
  snap_vhdx : wstr;
  created : Z;          (* the FILETIME as one 64-bit number *)
  valid : bool;
  branches : list BranchEntry;
}.

Record SnapshotTree := mkTree {
  nodes : list SnapNode;
  base_dir : wstr;
  base_vhdx : wstr;
  base_branches : list BranchEntry;
}.

(** The fields of [VmInstance] these operations use. *)
Record VmInstance := mkInstance { i_vhdx_path : wstr; running : bool }.

Inductive effect :=
| CreateDifferencing (child parent : wstr) (hr : Z)
| DeleteFile (path : wstr)          (* a disk *)
| DeleteTreeDat (path : wstr)       (* [tree.dat] *)
| WriteFile (path text : wstr).

Definition set_nodes (t : SnapshotTree) (l : list SnapNode) : SnapshotTree :=
  mkTree l (base_dir t) (base_vhdx t) (base_branches t).
Definition set_base_vhdx (t : SnapshotTree) (p : wstr) : SnapshotTree :=
  mkTree (nodes t) (base_dir t) p (base_branches t).
Definition set_base_branches (t : SnapshotTree) (l : list BranchEntry) : SnapshotTree :=
  mkTree (nodes t) (base_dir t) (base_vhdx t) l.
Definition set_branches (n : SnapNode) (l : list BranchEntry) : SnapNode :=
  mkNode (guid n) (name n) (snap_vhdx n) (created n) (valid n) l.
Definition set_path (i : VmInstance) (p : wstr) : VmInstance := mkInstance p (running i).

(** ** Helpers *)

(** The fields of a [GUID]. *)
Record GUID := mkGuid { Data1 : Z; Data2 : Z; Data3 : Z; Data4 : list Z }.

(** [None] is a failure of [CoCreateGuid]. *)
Definition generate_guid_string (g : option GUID) : wstr :=
  match g with
  | None => []
  | Some g =>
      hexn 8 (Data1 g) ++ lit "-" ++ hexn 4 (Data2 g) ++ lit "-" ++ hexn 4 (Data3 g) ++ lit "-" ++
      concat (map (hexn 2) (take 2 (Data4 g))) ++ lit "-" ++
      concat (map (hexn 2) (drop 2 (Data4 g)))
  end.

Record SYSTEMTIME := mkTime { wYear : Z; wMonth : Z; wDay : Z; wHour : Z; wMinute : Z; wSecond : Z }.

Definition make_datetime_name (st : SYSTEMTIME) : wstr :=
  decw 4 (wYear st) ++ lit "-" ++ decw 2 (wMonth st) ++ lit "-" ++ decw 2 (wDay st) ++ lit " " ++
  decw 2 (wHour st) ++ lit ":" ++ decw 2 (wMinute st) ++ lit ":" ++ decw 2 (wSecond st).

(** [tree->nodes[index]] when [index] is in range. *)
Definition node_at (t : SnapshotTree) (index : Z) : option SnapNode :=
  if (0 <=? index) && (index <? Z.of_nat (length (nodes t))) then nodes t !! Z.to_nat index else None.

(** The branches and the parent disk of the base (-2) or of a snapshot. *)
Definition get_branch_list (t : SnapshotTree) (index : Z) : option (list BranchEntry * wstr) :=
  if index =? -2 then Some (base_branches t, base_vhdx t)
  else
    match node_at t index with
    | Some n => if valid n then Some (branches n, snap_vhdx n) else None
    | None => None
    end.

(** Write back through the pointers [get_branch_list] returned. *)
Definition put_branch_list (t : SnapshotTree) (index : Z) (l : list BranchEntry) : SnapshotTree :=
  if index =? -2 then set_base_branches t l
  else set_nodes t (alter (λ n, set_branches n l) (Z.to_nat index) (nodes t)).

Definition branch_at (l : list BranchEntry) (b : Z) : option BranchEntry :=
  if (b <? 0) || (Z.of_nat (length l) <=? b) then None
  else match l !! Z.to_nat b with
       | Some e => if b_valid e then Some e else None
       | None => None
       end.

(** ** Persistence *)

Definition ln (s : wstr) : wstr := s ++ [10].

Definition branch_text (header : wstr) (b : BranchEntry) : wstr :=
  if b_valid b then
    ln header ++ ln (lit "Guid=" ++ b_guid b) ++ ln (lit "Name=" ++ friendly_name b) ++
    ln (lit "Vhdx=" ++ vhdx_path b) ++ ln []
  else [].

Definition node_text (n : SnapNode) : wstr :=
  if valid n then
    ln (lit "[Snapshot]") ++ ln (lit "Guid=" ++ guid n) ++ ln (lit "Name=" ++ name n) ++
    ln (lit "Vhdx=" ++ snap_vhdx n) ++ ln (lit "Created=" ++ dec (created n)) ++ ln [] ++
    concat (map (branch_text (lit "[Branch]")) (branches n))
  else [].

Definition tree_text (t : SnapshotTree) : wstr :=
  ln (lit "[Base]") ++ ln (base_vhdx t) ++ ln [] ++
  concat (map (branch_text (lit "[BaseBranch]")) (base_branches t)) ++
  concat (map node_text (nodes t)).

Definition tree_dat (t : SnapshotTree) : option wstr := swprintf_s MAX_PATH (base_dir t ++ lit "\tree.dat").

(** [open_ok] is whether [_wfopen_s] succeeds. *)
Definition snapshot_save (t : SnapshotTree) (open_ok : bool) : option (SnapshotTree * list effect) :=
  path ← tree_dat t;
  match nodes t, base_branches t with
  | [], [] => Some (set_base_vhdx t [], [DeleteTreeDat path])
  | _, _ => if open_ok then Some (t, [WriteFile path (tree_text t)]) else Some (t, [])
  end.

(** The state of the load loop; [ls_node] is whether [node] points to the last
    node, [ls_cur] whether [cur_branch] points to the last branch of the section. *)
Record load_state := mkLoad { ls_tree : SnapshotTree; ls_section : Z; ls_node : bool; ls_cur : bool }.

Definition upd_last {A} (f : A → option A) (l : list A) : option (list A) :=
  match last l with
  | None => Some l
  | Some x => x' ← f x; Some (take (length l - 1) l ++ [x'])
  end.

Definition zero_branch : BranchEntry := mkBranch [] [] [] true.
Definition zero_node : SnapNode := mkNode [] [] [] 0 true [].

(** The [Guid=]/[Name=]/[Vhdx=] lines of a branch. *)
Definition branch_line (line : wstr) (b : BranchEntry) : option BranchEntry :=
  match after_prefix (lit "Guid=") line with
  | Some v => v ← wcscpy_s 64 v; Some (mkBranch v (friendly_name b) (vhdx_path b) (b_valid b))
  | None =>
  match after_prefix (lit "Name=") line with
  | Some v => v ← wcscpy_s 128 v; Some (mkBranch (b_guid b) v (vhdx_path b) (b_valid b))
  | None =>
  match after_prefix (lit "Vhdx=") line with
  | Some v => v ← wcscpy_s MAX_PATH v; Some (mkBranch (b_guid b) (friendly_name b) v (b_valid b))
  | None => Some b
  end end end.

Definition node_line (line : wstr) (n : SnapNode) : option SnapNode :=
  match after_prefix (lit "Guid=") line with
  | Some v => v ← wcscpy_s 64 v; Some (mkNode v (name n) (snap_vhdx n) (created n) (valid n) (branches n))
  | None =>
  match after_prefix (lit "Name=") line with
  | Some v => v ← wcscpy_s 128 v; Some (mkNode (guid n) v (snap_vhdx n) (created n) (valid n) (branches n))
  | None =>
  match after_prefix (lit "Vhdx=") line with
  | Some v => v ← wcscpy_s MAX_PATH v; Some (mkNode (guid n) (name n) v (created n) (valid n) (branches n))
  | None =>
  match after_prefix (lit "Created=") line with
  | Some v => Some (mkNode (guid n) (name n) (snap_vhdx n) (wcstoui64 v) (valid n) (branches n))
  | None => Some n
  end end end end.

Definition is_line (line : wstr) (s : wstr) : bool := bool_decide (line = s).

(** A line that is not a section header. *)
Definition load_field (s : load_state) (line : wstr) : option load_state :=
  let t := ls_tree s in
  if (ls_section s =? 1) && match base_vhdx t with [] => true | _ => false end then
    v ← wcscpy_s MAX_PATH line; Some (mkLoad (set_base_vhdx t v) 0 (ls_node s) (ls_cur s))
  else if (ls_section s =? 2) && ls_cur s then
    l ← upd_last (branch_line line) (base_branches t);
    Some (mkLoad (set_base_branches t l) 2 (ls_node s) true)
  else if (ls_section s =? 4) && ls_cur s then
    l ← upd_last (λ n, bs ← upd_last (branch_line line) (branches n); Some (set_branches n bs)) (nodes t);
    Some (mkLoad (set_nodes t l) 4 (ls_node s) true)
  else if negb (ls_section s =? 3) || negb (ls_node s) then Some s
  else
    l ← upd_last (node_line line) (nodes t);
    Some (mkLoad (set_nodes t l) 3 true (ls_cur s)).

Definition load_line (s : load_state) (line : wstr) : option load_state :=
  let t := ls_tree s in
  match line with
  | [] => Some s
  | _ =>
    if is_line line (lit "[Base]") then Some (mkLoad t 1 false false)
    else if is_line line (lit "[BaseBranch]") then
      if Z.of_nat (length (base_branches t)) <? MAX_BRANCHES
      then Some (mkLoad (set_base_branches t (base_branches t ++ [zero_branch])) 2 (ls_node s) true)
      else Some (mkLoad t 2 (ls_node s) false)
    else if is_line line (lit "[Snapshot]") then
      if Z.of_nat (length (nodes t)) <? MAX_SNAPSHOTS
      then Some (mkLoad (set_nodes t (nodes t ++ [zero_node])) 3 true false)
      else Some (mkLoad t 3 false false)
    else if is_line line (lit "[Branch]") then
      match (if ls_node s then last (nodes t) else None) with
      | Some n =>
          if Z.of_nat (length (branches n)) <? MAX_BRANCHES
          then
            l ← upd_last (λ n, Some (set_branches n (branches n ++ [zero_branch]))) (nodes t);
            Some (mkLoad (set_nodes t l) 4 true true)
          else Some (mkLoad t 4 true false)
      | None => Some (mkLoad t 4 (ls_node s) false)
      end
    else load_field s line
  end.

Fixpoint load_lines (s : load_state) (ls : list wstr) : option load_state :=
  match ls with
  | [] => Some s
  | line :: ls' => s' ← load_line s line; load_lines s' ls'
  end.

(** [file] is the text of [tree.dat], if it opens. *)
Definition snapshot_load (t : SnapshotTree) (file : option wstr) : option SnapshotTree :=
  _ ← tree_dat t;
  match file with
  | None => Some t
  | Some text => s ← load_lines (mkLoad t 0 false false) (lines text); Some (ls_tree s)
  end.

Definition snapshot_init (dir : wstr) (file : option wstr) (open_ok : bool)
    : option (SnapshotTree * list effect) :=
  d ← wcscpy_s MAX_PATH dir;
  t ← snapshot_load (mkTree [] d [] []) file;
  match nodes t, base_branches t, base_vhdx t with
  | [], [], _ :: _ => snapshot_save t open_ok
  | _, _, _ => Some (t, [])
  end.

(** ** Operations *)

(** HRESULT, tree, instance and effects. *)
Definition outcome : Type := Z * SnapshotTree * VmInstance * list effect.

Section operations.
(** The case folding of one character by [_wcsicmp]. *)
Context (lower : Z → Z).

Definition key (p : wstr) : wstr := map lower p.
(** [_wcsicmp(a, b) == 0]. *)
Definition same_path (a b : wstr) : bool := bool_decide (key a = key b).

Definition snapshot_path (t : SnapshotTree) (g : wstr) : option wstr :=
  swprintf_s MAX_PATH (base_dir t ++ lit "\snapshot_" ++ g ++ lit ".vhdx").
Definition branch_path (t : SnapshotTree) (g : wstr) : option wstr :=
  swprintf_s MAX_PATH (base_dir t ++ lit "\branch_" ++ g ++ lit ".vhdx").

(** [g1], [g2]: the two GUIDs; [hr1], [hr2]: the results of creating the disks;
    [now]: the system time. *)
Definition snapshot_take (t : SnapshotTree) (i : VmInstance) (nm : wstr)
    (g1 g2 : option GUID) (hr1 hr2 now : Z) (open_ok : bool) : option outcome :=
  if MAX_SNAPSHOTS <=? Z.of_nat (length (nodes t)) then Some (HR_BUFFER_OVERFLOW, t, i, [])
  else if running i then Some (E_NOT_VALID_STATE, t, i, [])
  else
    t1 ← match base_vhdx t with
         | [] => p ← wcscpy_s MAX_PATH (i_vhdx_path i); Some (set_base_vhdx t p)
         | _ => Some t
         end;
    let snap_guid := generate_guid_string g1 in
    vp ← snapshot_path t1 snap_guid;
    if FAILED hr1 then Some (hr1, t1, i, [CreateDifferencing vp (base_vhdx t1) hr1])
    else
      let branch_guid := generate_guid_string g2 in
      bp ← branch_path t1 branch_guid;
      if FAILED hr2 then
        Some (hr2, t1, i, [CreateDifferencing vp (base_vhdx t1) hr1; CreateDifferencing bp vp hr2; DeleteFile vp])
      else
        sg ← wcscpy_s 64 snap_guid;
        nm' ← wcscpy_s 128 nm;
        bg ← wcscpy_s 64 branch_guid;
        let node := mkNode sg nm' vp now true [mkBranch bg (lit "Default Branch") bp true] in
        let t2 := set_nodes t1 (nodes t1 ++ [node]) in
        '(t3, e) ← snapshot_save t2 open_ok;
        Some (S_OK, t3, set_path i bp,
              [CreateDifferencing vp (base_vhdx t1) hr1; CreateDifferencing bp vp hr2] ++ e).

Definition snapshot_new_branch (t : SnapshotTree) (i : VmInstance) (index : Z)
    (g : option GUID) (hr : Z) (now : SYSTEMTIME) (open_ok : bool) : option outcome :=
  match base_vhdx t with
  | [] => Some (E_NOT_VALID_STATE, t, i, [])
  | _ =>
    match get_branch_list t index with
    | None => Some (E_INVALIDARG, t, i, [])
    | Some (bs, parent) =>
        if MAX_BRANCHES <=? Z.of_nat (length bs) then Some (HR_BUFFER_OVERFLOW, t, i, [])
        else
          let gs := generate_guid_string g in
          bp ← branch_path t gs;
          if FAILED hr then Some (hr, t, i, [CreateDifferencing bp parent hr])
          else
            gs' ← wcscpy_s 64 gs;
            nm ← swprintf_s 128 (make_datetime_name now);
            let t2 := put_branch_list t index (bs ++ [mkBranch gs' nm bp true]) in
            '(t3, e) ← snapshot_save t2 open_ok;
            Some (S_OK, t3, set_path i bp, CreateDifferencing bp parent hr :: e)
    end
  end.

Definition snapshot_select_branch (t : SnapshotTree) (i : VmInstance) (index branch_idx : Z)
    : option outcome :=
  match get_branch_list t index with
  | None => Some (E_INVALIDARG, t, i, [])
  | Some (bs, _) =>
      match branch_at bs branch_idx with
      | None => Some (E_INVALIDARG, t, i, [])
      | Some b => p ← wcscpy_s MAX_PATH (vhdx_path b); Some (S_OK, t, set_path i p, [])
      end
  end.

(** The first snapshot whose frozen disk is [p]. *)
Fixpoint frozen_index (p : wstr) (l : list SnapNode) (k : Z) : option Z :=
  match l with
  | [] => None
  | n :: l' => if valid n && same_path p (snap_vhdx n) then Some k else frozen_index p l' (k + 1)
  end.

Definition snapshot_ensure_writable (t : SnapshotTree) (i : VmInstance)
    (g : option GUID) (hr : Z) (now : SYSTEMTIME) (open_ok : bool) : option outcome :=
  if running i then Some (E_NOT_VALID_STATE, t, i, [])
  else if (negb (bool_decide (nodes t = [])) || negb (bool_decide (base_branches t = [])))
          && negb (bool_decide (base_vhdx t = [])) && same_path (i_vhdx_path i) (base_vhdx t)
  then snapshot_new_branch t i (-2) g hr now open_ok
  else
    match frozen_index (i_vhdx_path i) (nodes t) 0 with
    | Some k => snapshot_new_branch t i k g hr now open_ok
    | None => Some (S_FALSE, t, i, [])
    end.

(** The first valid branch of a list. *)
Fixpoint first_valid (l : list BranchEntry) : option BranchEntry :=
  match l with [] => None | b :: l' => if b_valid b then Some b else first_valid l' end.

(** The first valid branch of a valid snapshot other than [index]. *)
Fixpoint other_branch (l : list SnapNode) (k index : Z) : option BranchEntry :=
  match l with
  | [] => None
  | n :: l' =>
      if (k =? index) || negb (valid n) then other_branch l' (k + 1) index
      else match first_valid (branches n) with
           | Some b => Some b
           | None => other_branch l' (k + 1) index
           end
  end.

(** Where [snapshot_delete] moves an instance whose disk goes away. *)
Definition delete_fallback (t : SnapshotTree) (index : Z) : wstr :=
  match first_valid (base_branches t) with
  | Some b => vhdx_path b
  | None =>
      match other_branch (nodes t) 0 index with
      | Some b => vhdx_path b
      | None => base_vhdx t
      end
  end.

Definition snapshot_delete (t : SnapshotTree) (i : VmInstance) (index : Z) (open_ok : bool)
    : option outcome :=
  match node_at t index with
  | None => Some (E_INVALIDARG, t, i, [])
  | Some n =>
      if negb (valid n) then Some (E_NOT_VALID_STATE, t, i, [])
      else
        let need_fallback :=
          existsb (λ b, b_valid b && same_path (i_vhdx_path i) (vhdx_path b)) (branches n)
          || same_path (i_vhdx_path i) (snap_vhdx n) in
        i' ← (if need_fallback then p ← wcscpy_s MAX_PATH (delete_fallback t index); Some (set_path i p)
              else Some i);
        let dels := map (λ b, DeleteFile (vhdx_path b)) (filter (λ b, b_valid b = true) (branches n)) in
        let t2 := set_nodes t (delete (Z.to_nat index) (nodes t)) in
        '(t3, e) ← snapshot_save t2 open_ok;
        Some (S_OK, t3, i', dels ++ [DeleteFile (snap_vhdx n)] ++ e)
  end.

(** The first valid branch other than number [skip]. *)
Fixpoint sibling (l : list BranchEntry) (k skip : Z) : option BranchEntry :=
  match l with
  | [] => None
  | b :: l' => if negb (k =? skip) && b_valid b then Some b else sibling l' (k + 1) skip
  end.

Definition snapshot_delete_branch (t : SnapshotTree) (i : VmInstance) (index branch_idx : Z)
    (open_ok : bool) : option outcome :=
  match get_branch_list t index with
  | None => Some (E_INVALIDARG, t, i, [])
  | Some (bs, _) =>
      match branch_at bs branch_idx with
      | None => Some (E_INVALIDARG, t, i, [])
      | Some b =>
          i' ← (if same_path (i_vhdx_path i) (vhdx_path b) then
                  p ← wcscpy_s MAX_PATH (match sibling bs 0 branch_idx with
                                         | Some b' => vhdx_path b'
                                         | None => base_vhdx t
                                         end);
                  Some (set_path i p)
                else Some i);
          let t2 := put_branch_list t index (delete (Z.to_nat branch_idx) bs) in
          '(t3, e) ← snapshot_save t2 open_ok;
          Some (S_OK, t3, i', DeleteFile (vhdx_path b) :: e)
      end
  end.

(** The first valid branch whose disk is [p]. *)
Fixpoint find_branch (p : wstr) (l : list BranchEntry) (k : Z) : option Z :=
  match l with
  | [] => None
  | b :: l' => if b_valid b && same_path p (vhdx_path b) then Some k else find_branch p l' (k + 1)
  end.

Fixpoint find_in_nodes (p : wstr) (l : list SnapNode) (k : Z) : option (Z * Z) :=
  match l with
  | [] => None
  | n :: l' =>
      if valid n then
        match find_branch p (branches n) 0 with
        | Some b => Some (k, b)
        | None => find_in_nodes p l' (k + 1)
        end
      else find_in_nodes p l' (k + 1)
  end.

(** [snap_idx] and [branch_idx]. *)
Definition snapshot_find_current (t : SnapshotTree) (p : wstr) : Z * Z :=
  match p with
  | [] => (-1, -1)
  | _ =>
      match find_branch p (base_branches t) 0 with
      | Some b => (-2, b)
      | None => match find_in_nodes p (nodes t) 0 with Some ib => ib | None => (-1, -1) end
      end
  end.

(** [times] is the last-write time of a file, if it exists. *)
Definition snapshot_get_branch_time (t : SnapshotTree) (times : wstr → option Z) (snap_idx branch_idx : Z)
    : option Z :=
  match get_branch_list t snap_idx with
  | None => None
  | Some (bs, _) => match branch_at bs branch_idx with None => None | Some b => times (vhdx_path b) end
  end.

Definition set_friendly (v : wstr) (b : BranchEntry) : BranchEntry :=
  mkBranch (b_guid b) v (vhdx_path b) (b_valid b).

Definition snapshot_rename (t : SnapshotTree) (snap_idx branch_idx : Z) (new_name : wstr) (open_ok : bool)
    : option (Z * SnapshotTree * list effect) :=
  match new_name with
  | [] => Some (E_INVALIDARG, t, [])
  | _ =>
    match get_branch_list t snap_idx with
    | None => Some (E_INVALIDARG, t, [])
    | Some (bs, _) =>
        if (branch_idx <? 0) && negb (snap_idx =? -2) then
          v ← wcscpy_s 128 new_name;
          let t2 := set_nodes t (alter (λ n, mkNode (guid n) v (snap_vhdx n) (created n) (valid n) (branches n))
                                   (Z.to_nat snap_idx) (nodes t)) in
          '(t3, e) ← snapshot_save t2 open_ok; Some (S_OK, t3, e)
        else
          match branch_at bs branch_idx with
          | None => Some (E_INVALIDARG, t, [])
          | Some _ =>
              v ← wcscpy_s 128 new_name;
              let t2 := put_branch_list t snap_idx (alter (set_friendly v) (Z.to_nat branch_idx) bs) in
              '(t3, e) ← snapshot_save t2 open_ok; Some (S_OK, t3, e)
          end
    end
  end.
End operations.
