(* ===== verification/SnapshotInv.v ===== *)
(** * The disks of a snapshot tree stay consistent

    The virtual disks are a map from (case-folded) path to the path of the
    parent a differencing disk was created on.  The invariant relates it to the
    tree; every operation of [Snapshot] preserves it, whatever the operating
    system answers. *)

From stdpp Require Import gmap.
From Stdlib Require Import String.
From S2P Require Import Prelude WStr Snapshot.

Abbreviation disks := (gmap (list Z) (list Z)).

Section disks.
Context (lower : Z → Z).
Abbreviation key := (key lower).

(** What an effect does to the disks; [del_ok] is whether a deletion succeeds. *)
Definition apply_effect (del_ok : wstr → bool) (fs : disks) (e : effect) : disks :=
  match e with
  | CreateDifferencing c p hr => if FAILED hr then fs else <[key c := key p]> fs
  | DeleteFile p => if del_ok p then delete (key p) fs else fs
  | DeleteTreeDat _ | WriteFile _ _ => fs
  end.
Definition apply_effects (del_ok : wstr → bool) (fs : disks) (l : list effect) : disks :=
  fold_left (apply_effect del_ok) l fs.

(** [CreateVirtualDisk] does not replace an existing file. *)
Fixpoint legal (del_ok : wstr → bool) (fs : disks) (l : list effect) : Prop :=
  match l with
  | [] => True
  | e :: l' =>
      match e with CreateDifferencing c _ hr => FAILED hr = false → fs !! key c = None | _ => True end ∧
      legal del_ok (apply_effect del_ok fs e) l'
  end.

(** ** The disks a tree refers to, with the parent each must have *)

Definition branch_disks (parent : wstr) (l : list BranchEntry) : list (wstr * wstr) :=
  map (λ b, (vhdx_path b, parent)) l.
Definition node_disks (base : wstr) (n : SnapNode) : list (wstr * wstr) :=
  (snap_vhdx n, base) :: branch_disks (snap_vhdx n) (branches n).
Definition tree_disks (t : SnapshotTree) : list (wstr * wstr) :=
  branch_disks (base_vhdx t) (base_branches t) ++ concat (map (node_disks (base_vhdx t)) (nodes t)).

Definition all_valid (l : list BranchEntry) : Prop := Forall (λ b, b_valid b = true) l.

Record intact (t : SnapshotTree) (fs : disks) : Prop := {
  it_named : fs !! [] = None;
  it_count : Z.of_nat (length (nodes t)) <= MAX_SNAPSHOTS;
  it_base_branches : Z.of_nat (length (base_branches t)) <= MAX_BRANCHES ∧ all_valid (base_branches t);
  it_nodes : Forall (λ n, valid n = true ∧ Z.of_nat (length (branches n)) <= MAX_BRANCHES ∧
                          all_valid (branches n)) (nodes t);
  it_base : base_vhdx t = [] → nodes t = [] ∧ base_branches t = [];
  it_base_disk : base_vhdx t ≠ [] → is_Some (fs !! key (base_vhdx t));
  it_disks : Forall (λ d, fs !! key d.1 = Some (key d.2)) (tree_disks t);
  it_nodup : NoDup (map key (base_vhdx t :: map fst (tree_disks t)));
}.

(** The instance's disk exists. *)
Definition on_disk (i : VmInstance) (fs : disks) : Prop := is_Some (fs !! key (i_vhdx_path i)).

(** ** Generic facts *)

Lemma wcscpy_Some n s v : wcscpy_s n s = Some v → v = s.
Proof. unfold wcscpy_s. bcase; [by intros [= <-]|done]. Qed.

(** The tree and the list that [get_branch_list] gives, rewritten. *)
Lemma put_branch_list_perm t index bs parent :
  get_branch_list t index = Some (bs, parent) → ∀ bs',
  tree_disks (put_branch_list t index bs') ++ branch_disks parent bs ≡ₚ
  tree_disks t ++ branch_disks parent bs'.
Proof.
  unfold get_branch_list, put_branch_list. intros H bs'.
  destruct (index =? -2) eqn:E.
  - injection H as <- <-. unfold tree_disks. cbn [base_branches nodes base_vhdx set_base_branches].
    solve_Permutation.
  - destruct (node_at t index) as [n|] eqn:En; [|done]. destruct (valid n); [|done]. injection H as <- <-.
    unfold node_at in En. destruct (_ && _); [|done].
    unfold tree_disks. cbn [base_branches nodes base_vhdx set_nodes].
    rewrite <- (take_drop_middle (nodes t) (Z.to_nat index) n En) at 2.
    assert (alter (λ n, set_branches n bs') (Z.to_nat index) (nodes t) =
      take (Z.to_nat index) (nodes t) ++ set_branches n bs' :: drop (S (Z.to_nat index)) (nodes t)) as ->.
    { rewrite <- (take_drop_middle (nodes t) (Z.to_nat index) n En) at 1.
      rewrite alter_app_r_alt by (rewrite length_take; lia). f_equal.
      apply lookup_lt_Some in En. rewrite length_take, Nat.min_l, Nat.sub_diag by lia. done. }
    rewrite !map_app, !concat_app. cbn [map concat]. unfold node_disks at 2 4.
    cbn [snap_vhdx branches set_branches]. solve_Permutation.
Qed.

Lemma put_branch_list_base t index bs' :
  base_vhdx (put_branch_list t index bs') = base_vhdx t ∧
  base_dir (put_branch_list t index bs') = base_dir t ∧
  length (nodes (put_branch_list t index bs')) = length (nodes t).
Proof. unfold put_branch_list. bcase; [done|]. cbn. by rewrite length_alter. Qed.

(** The parts of the invariant that do not mention the disks. *)
Definition shape (t : SnapshotTree) : Prop :=
  Z.of_nat (length (nodes t)) <= MAX_SNAPSHOTS ∧
  (Z.of_nat (length (base_branches t)) <= MAX_BRANCHES ∧ all_valid (base_branches t)) ∧
  Forall (λ n, valid n = true ∧ Z.of_nat (length (branches n)) <= MAX_BRANCHES ∧ all_valid (branches n)) (nodes t).

Lemma intact_shape t fs : intact t fs → shape t.
Proof. intros I. split_and!; apply I. Qed.

Lemma shape_put t index bs' :
  shape t → Z.of_nat (length bs') <= MAX_BRANCHES → all_valid bs' → shape (put_branch_list t index bs').
Proof.
  intros (Hc & Hb & Hn) Hl Hv. unfold put_branch_list. bcase; [done|].
  split_and!; cbn [nodes base_branches set_nodes]; [by rewrite length_alter|apply Hb|apply Hb|].
  apply Forall_alter; [done|]. intros n _ (? & _). done.
Qed.

Lemma get_branch_list_shape t index bs parent :
  shape t → get_branch_list t index = Some (bs, parent) →
  Z.of_nat (length bs) <= MAX_BRANCHES ∧ all_valid bs.
Proof.
  intros (_ & Hb & Hn). unfold get_branch_list, node_at. bcase; [by intros [= <- <-]|].
  bcase; [|done]. destruct (nodes t !! Z.to_nat index) as [n|] eqn:En; [|done].
  destruct (valid n); [|done]. intros [= <- <-]. eapply Forall_lookup_1 in Hn; [|exact En]. tauto.
Qed.

(** A parent is the base disk or a snapshot's disk. *)
Lemma get_branch_list_parent t index bs parent fs :
  intact t fs → base_vhdx t ≠ [] → get_branch_list t index = Some (bs, parent) →
  is_Some (fs !! key parent).
Proof.
  intros I Hb. unfold get_branch_list, node_at. bcase; [intros [= <- <-]; by apply I|].
  bcase; [|done]. destruct (nodes t !! Z.to_nat index) as [n|] eqn:En; [|done].
  destruct (valid n); [|done]. intros [= <- <-]. exists (key (base_vhdx t)).
  pose proof (it_disks _ _ I) as D. unfold tree_disks in D. apply Forall_app in D as [_ D].
  apply (proj1 (list.Forall_forall _ _) D (snap_vhdx n, base_vhdx t)).
  apply list_elem_of_In, in_concat. exists (node_disks (base_vhdx t) n). split; [|by left].
  apply in_map, list_elem_of_In. by eapply list_elem_of_lookup_2.
Qed.

(** Every disk of the tree exists, so a new path is none of them. *)
Lemma fresh_path t fs p :
  intact t fs → base_vhdx t ≠ [] → fs !! key p = None → key p ∉ map key (base_vhdx t :: map fst (tree_disks t)).
Proof.
  intros I Hb Hp Hin. cbn [map] in Hin. apply elem_of_cons in Hin as [E|Hin].
  - destruct (it_base_disk _ _ I Hb) as [x Hx]. rewrite <- E in Hx. congruence.
  - apply list_elem_of_fmap in Hin as (c & E & Hc). apply list_elem_of_fmap in Hc as (d & -> & Hd).
    pose proof (proj1 (list.Forall_forall _ _) (it_disks _ _ I) d Hd) as Hx. simpl in Hx.
    rewrite <- E in Hx. congruence.
Qed.

(** Disks outside the tree may come and go. *)
Lemma intact_frame t fs fs' :
  intact t fs → fs' !! [] = None →
  (∀ k, k ∈ map key (base_vhdx t :: map fst (tree_disks t)) → fs' !! k = fs !! k) → intact t fs'.
Proof.
  intros I He H. split; try apply I; [done| |].
  - intros Hb. rewrite H; [by apply I|]. by left.
  - apply list.Forall_forall. intros d Hd. rewrite H.
    + by apply (proj1 (list.Forall_forall _ _) (it_disks _ _ I)).
    + right. by apply list_elem_of_fmap_2, list_elem_of_fmap_2.
Qed.

(** Adding one disk [c], created on [p]. *)
Lemma intact_add t t' fs c p :
  intact t fs → shape t' → base_vhdx t ≠ [] → base_vhdx t' = base_vhdx t →
  tree_disks t' ≡ₚ (c, p) :: tree_disks t → fs !! key c = None → c ≠ [] →
  intact t' (<[key c := key p]> fs).
Proof.
  intros I (S1 & S2 & S3) Hb Eb P Hc Hne. pose proof (fresh_path _ _ _ I Hb Hc) as Hnew.
  split; try done.
  - rewrite lookup_insert_ne; [apply I|]. by destruct c.
  - rewrite Eb. done.
  - rewrite Eb. intros _. rewrite lookup_insert_ne; [by apply I|].
    intros E. apply Hnew. rewrite E. by left.
  - rewrite P. apply Forall_cons. split; [by rewrite lookup_insert_eq|].
    apply list.Forall_forall. intros d Hd. rewrite lookup_insert_ne.
    + by apply (proj1 (list.Forall_forall _ _) (it_disks _ _ I)).
    + intros E. apply Hnew. rewrite E. right. by apply list_elem_of_fmap_2, list_elem_of_fmap_2.
  - assert (P' : map key (base_vhdx t' :: map fst (tree_disks t')) ≡ₚ
      key c :: map key (base_vhdx t :: map fst (tree_disks t))).
    { rewrite Eb. cbn [map]. rewrite (fmap_Permutation fst _ _ P). cbn. apply perm_swap. }
    rewrite P'. apply list.NoDup_cons. split; [done|apply I].
Qed.

(** Removing the disks [ds]. *)
Lemma intact_drop t t' fs fs' ds :
  intact t fs → shape t' → base_vhdx t' = base_vhdx t →
  (base_vhdx t' = [] → nodes t' = [] ∧ base_branches t' = []) →
  tree_disks t ≡ₚ ds ++ tree_disks t' →
  (∀ k, k ∉ map key (map fst ds) → fs' !! k = fs !! k) →
  intact t' fs' ∧ ∀ k, k ∈ map key (base_vhdx t' :: map fst (tree_disks t')) → k ∉ map key (map fst ds).
Proof.
  intros I (S1 & S2 & S3) Eb Hbe P Hfs.
  assert (ND : NoDup (map key (map fst ds) ++ map key (base_vhdx t' :: map fst (tree_disks t')))).
  { pose proof (it_nodup _ _ I) as ND. cbn [map] in ND |- *.
    rewrite (fmap_Permutation fst _ _ P) in ND. rewrite fmap_app in ND.
    rewrite map_app in ND. rewrite <- Eb in ND. rewrite <- Permutation_middle. exact ND. }
  apply list.NoDup_app in ND as (_ & Hdisj & ND).
  assert (Hk : ∀ k, k ∈ map key (base_vhdx t' :: map fst (tree_disks t')) → k ∉ map key (map fst ds)).
  { intros k Hk Hk'. by eapply Hdisj. }
  split; [|exact Hk]. split; try done.
  - rewrite Hfs; [apply I|]. intros Hin. apply list_elem_of_fmap in Hin as (c & Ec & Hc).
    apply list_elem_of_fmap in Hc as (d & -> & Hd). pose proof (it_named _ _ I) as Hn.
    assert (Hd' : d ∈ tree_disks t) by (rewrite P; apply elem_of_app; by left).
    pose proof (proj1 (list.Forall_forall _ _) (it_disks _ _ I) d Hd') as Hx. simpl in Hx. congruence.
  - intros Hb. rewrite Hfs by (apply Hk; by left). rewrite Eb in Hb |- *. by apply I.
  - apply list.Forall_forall. intros d Hd. rewrite Hfs.
    + apply (proj1 (list.Forall_forall _ _) (it_disks _ _ I)). rewrite P. apply elem_of_app. by right.
    + apply Hk. right. by apply list_elem_of_fmap_2, list_elem_of_fmap_2.
Qed.

Lemma apply_effects_app del l1 l2 fs :
  apply_effects del fs (l1 ++ l2) = apply_effects del (apply_effects del fs l1) l2.
Proof. apply fold_left_app. Qed.

Lemma deletes_frame del l fs k :
  k ∉ map key l → apply_effects del fs (map DeleteFile l) !! k = fs !! k.
Proof.
  revert fs. induction l as [|p l IH]; intros fs Hk; [done|]. cbn [map] in Hk.
  apply not_elem_of_cons in Hk as [Hp Hk]. cbn [map apply_effects fold_left].
  fold (apply_effects del (apply_effect del fs (DeleteFile p)) (map DeleteFile l)).
  rewrite IH by done. cbn [apply_effect]. bcase; [|done]. by rewrite lookup_delete_ne.
Qed.

(** Saving touches no disk; it forgets the base of a tree without disks. *)
Lemma save_intact t ok t' e fs del :
  snapshot_save t ok = Some (t', e) → intact t fs →
  intact t' fs ∧ apply_effects del fs e = fs ∧ base_dir t' = base_dir t.
Proof.
  unfold snapshot_save. intros H I. destruct (tree_dat t) as [path|]; [|done]. cbn [mbind option_bind] in H.
  destruct (nodes t) as [|n l] eqn:En, (base_branches t) as [|b bs] eqn:Eb.
  - injection H as <- <-. split; [|done]. destruct I as [I0 I1 I2 I3 _ _ _ _].
    rewrite En in I1, I3. rewrite Eb in I2.
    split; cbn [nodes base_branches base_vhdx set_base_vhdx]; rewrite ?En, ?Eb; try done.
    + unfold tree_disks. cbn. by rewrite En, Eb.
    + unfold tree_disks. cbn. rewrite En, Eb. cbn. apply NoDup_singleton.
  - destruct ok; injection H as <- <-; done.
  - destruct ok; injection H as <- <-; done.
  - destruct ok; injection H as <- <-; done.
Qed.

Lemma on_disk_named t i fs : intact t fs → on_disk i fs → i_vhdx_path i ≠ [].
Proof. intros I [x Hx] E. rewrite E in Hx. pose proof (it_named _ _ I). simpl in *. congruence. Qed.

(** A generated disk path is not empty. *)
Lemma branch_path_named t g p : branch_path t g = Some p → p ≠ [].
Proof. unfold branch_path. intros ->%wcscpy_Some. by destruct (base_dir t). Qed.
Lemma snapshot_path_named t g p : snapshot_path t g = Some p → p ≠ [].
Proof. unfold snapshot_path. intros ->%wcscpy_Some. by destruct (base_dir t). Qed.

Lemma on_disk_frame i fs fs' : on_disk i fs → fs' !! key (i_vhdx_path i) = fs !! key (i_vhdx_path i) → on_disk i fs'.
Proof. unfold on_disk. by intros ? ->. Qed.

Lemma tree_disks_snoc t n :
  tree_disks (set_nodes t (nodes t ++ [n])) ≡ₚ
  branch_disks (snap_vhdx n) (branches n) ++ (snap_vhdx n, base_vhdx t) :: tree_disks t.
Proof.
  unfold tree_disks. cbn [nodes base_branches base_vhdx set_nodes].
  rewrite map_app, concat_app. cbn [map concat]. unfold node_disks at 2. solve_Permutation.
Qed.

Lemma shape_snoc t n :
  shape t → Z.of_nat (length (nodes t)) < MAX_SNAPSHOTS → valid n = true →
  Z.of_nat (length (branches n)) <= MAX_BRANCHES → all_valid (branches n) →
  shape (set_nodes t (nodes t ++ [n])).
Proof.
  intros (S1 & S2 & S3) Hlt Hv Hl Ha. split_and!; cbn [nodes base_branches set_nodes];
    [rewrite length_app; simpl; lia|apply S2|apply S2|].
  apply Forall_app. split; [done|]. by repeat constructor.
Qed.

(** ** The operations *)

(** What every operation keeps. *)
Definition keeps (del : wstr → bool) (fs : disks) (o : outcome) : Prop :=
  let '(_, t', i', e) := o in
  legal del fs e →
  intact t' (apply_effects del fs e) ∧ on_disk i' (apply_effects del fs e).

Lemma new_branch_keeps t i index g hr now ok o fs del :
  intact t fs → on_disk i fs →
  snapshot_new_branch t i index g hr now ok = Some o → keeps del fs o.
Proof.
  intros I Hi H. unfold snapshot_new_branch in H.
  destruct (base_vhdx t) as [|c0 base] eqn:Ebase; [injection H as <-; done|].
  assert (Hb : base_vhdx t ≠ []) by (by rewrite Ebase).
  destruct (get_branch_list t index) as [[bs parent]|] eqn:Eg; [|injection H as <-; done].
  destruct (_ <=? _) eqn:El; zbool; [injection H as <-; done|].
  obind H bp Ebp. destruct (FAILED hr) eqn:Ehr.
  { injection H as <-. unfold keeps, apply_effects. cbn. by rewrite Ehr. }
  obind H gs Egs. obind H nm Enm. obind H te Es. destruct te as [t3 e]. injection H as <-.
  unfold keeps. cbn [legal apply_effects fold_left apply_effect]. rewrite Ehr. intros [Hfresh _].
  specialize (Hfresh eq_refl).
  fold (apply_effects del (<[key bp := key parent]> fs) e).
  set (b := mkBranch gs nm bp true) in *.
  destruct (get_branch_list_shape _ _ _ _ (intact_shape _ _ I) Eg) as [Hlen Hval].
  assert (I2 : intact (put_branch_list t index (bs ++ [b])) (<[key bp := key parent]> fs)).
  { destruct (put_branch_list_base t index (bs ++ [b])) as (E1 & _ & _).
    eapply intact_add; [done| |done|done| |done|by eapply branch_path_named].
    - apply shape_put; [by eapply intact_shape|rewrite length_app; simpl; lia|].
      apply Forall_app. split; [done|]. by repeat constructor.
    - apply (Permutation_app_inv_r (branch_disks parent bs)).
      rewrite (put_branch_list_perm _ _ _ _ Eg). unfold branch_disks. rewrite map_app. cbn [map].
      solve_Permutation. }
  destruct (save_intact _ _ _ _ _ del Es I2) as (I3 & -> & _). split; [done|].
  unfold on_disk. cbn. by rewrite lookup_insert_eq.
Qed.

Lemma take_keeps t i nm g1 g2 hr1 hr2 now ok o fs del :
  intact t fs → on_disk i fs →
  snapshot_take t i nm g1 g2 hr1 hr2 now ok = Some o → keeps del fs o.
Proof.
  intros I Hi H. pose proof (on_disk_named _ _ _ I Hi) as Hne. unfold snapshot_take in H.
  destruct (_ <=? _) eqn:Ec; zbool; [injection H as <-; done|].
  destruct (running i); [injection H as <-; done|]. obind H t1 Et1.
  assert (I1 : intact t1 fs ∧ base_vhdx t1 ≠ [] ∧ length (nodes t1) = length (nodes t)).
  { destruct (base_vhdx t) as [|c0 base] eqn:Eb; [|by injection Et1 as <-; rewrite Eb].
    obind Et1 p Ep. apply wcscpy_Some in Ep as ->. injection Et1 as <-. split; [|done].
    destruct (it_base _ _ I Eb) as [En Ebb].
    split; cbn [nodes base_branches base_vhdx set_base_vhdx]; try apply I; try done.
    - unfold tree_disks. cbn. by rewrite En, Ebb.
    - unfold tree_disks. cbn. rewrite En, Ebb. cbn. apply NoDup_singleton. }
  clear Et1. destruct I1 as (I1 & Hb & Hlen). obind H vp Evp. destruct (FAILED hr1) eqn:E1.
  { injection H as <-. unfold keeps, apply_effects. cbn. by rewrite E1. }
  obind H bp Ebp. destruct (FAILED hr2) eqn:E2.
  { injection H as <-. unfold keeps, apply_effects. cbn. rewrite E1, E2. intros (Hv & _).
    specialize (Hv eq_refl). pose proof (fresh_path _ _ _ I1 Hb Hv) as Hnew.
    assert (Hfr : ∀ k, k ≠ key vp → (if del vp then delete (key vp) (<[key vp := key (base_vhdx t1)]> fs)
      else <[key vp := key (base_vhdx t1)]> fs) !! k = fs !! k).
    { intros k Hk. bcase; [rewrite lookup_delete_ne by done|]; by rewrite lookup_insert_ne. }
    split.
    - eapply intact_frame; [exact I1|rewrite Hfr; [apply I|]|].
      { intros E. apply (snapshot_path_named _ _ _ Evp). by apply symmetry, map_eq_nil in E. }
      intros k Hk. apply Hfr. by intros ->.
    - eapply on_disk_frame; [exact Hi|]. apply Hfr. intros E. unfold on_disk in Hi. rewrite E in Hi.
      destruct Hi as [x Hx]. congruence. }
  obind H sg Esg. obind H nm' Enm. obind H bg Ebg. obind H te Es. destruct te as [t3 e]. injection H as <-.
  set (b := mkBranch bg _ bp true) in *. set (n := mkNode sg nm' vp now true [b]) in *.
  unfold keeps. cbn [legal apply_effects fold_left apply_effect app]. rewrite E1, E2.
  intros (Hv & Hbp & _). specialize (Hv eq_refl). specialize (Hbp eq_refl).
  fold (apply_effects del (<[key bp := key vp]> (<[key vp := key (base_vhdx t1)]> fs)) e).
  pose proof (intact_shape _ _ I1) as S1.
  assert (I2 : intact (set_nodes t1 (nodes t1 ++ [mkNode sg nm' vp now true []])) (<[key vp := key (base_vhdx t1)]> fs)).
  { eapply intact_add; [exact I1| |done|done|by rewrite tree_disks_snoc|done|by eapply snapshot_path_named].
    apply shape_snoc; [done|lia|done|done|constructor]. }
  assert (I3 : intact (set_nodes t1 (nodes t1 ++ [n])) (<[key bp := key vp]> (<[key vp := key (base_vhdx t1)]> fs))).
  { eapply intact_add; [exact I2| |done|done|by rewrite !tree_disks_snoc|done|by eapply branch_path_named].
    apply shape_snoc; [done|lia|done|done|by repeat constructor]. }
  destruct (save_intact _ _ _ _ _ del Es I3) as (I4 & -> & _). split; [done|].
  unfold on_disk. cbn. by rewrite lookup_insert_eq.
Qed.

Lemma branch_in_disks t index bs parent b :
  get_branch_list t index = Some (bs, parent) → b ∈ bs → (vhdx_path b, parent) ∈ tree_disks t.
Proof.
  intros Hg Hb. pose proof (put_branch_list_perm _ _ _ _ Hg []) as P. cbn [branch_disks map] in P.
  rewrite app_nil_r in P. rewrite <- P. apply elem_of_app. right.
  by apply (list_elem_of_fmap_2 (λ b, (vhdx_path b, parent))).
Qed.

Lemma branch_at_elem bs k b : branch_at bs k = Some b → bs !! Z.to_nat k = Some b ∧ 0 <= k.
Proof.
  unfold branch_at. bcase; [done|]. destruct (bs !! Z.to_nat k) as [x|] eqn:E1; [|done].
  destruct (b_valid x); [|done]. intros [= <-]. split; [done|lia].
Qed.

Lemma disk_exists t fs c p : intact t fs → (c, p) ∈ tree_disks t → is_Some (fs !! key c).
Proof. intros I H. pose proof (proj1 (list.Forall_forall _ _) (it_disks _ _ I) _ H). by exists (key p). Qed.

Lemma select_branch_keeps t i index k o fs del :
  intact t fs → on_disk i fs → snapshot_select_branch t i index k = Some o → keeps del fs o.
Proof.
  intros I Hi H. unfold snapshot_select_branch in H.
  destruct (get_branch_list t index) as [[bs parent]|] eqn:Eg; [|injection H as <-; done].
  destruct (branch_at bs k) as [b|] eqn:Eb; [|injection H as <-; done].
  obind H p Ep. apply wcscpy_Some in Ep as ->. injection H as <-. intros _. split; [done|].
  apply branch_at_elem in Eb as [Eb _]. eapply disk_exists; [exact I|].
  eapply branch_in_disks; [exact Eg|]. by eapply list_elem_of_lookup_2.
Qed.

Lemma ensure_writable_keeps t i g hr now ok o fs del :
  intact t fs → on_disk i fs →
  snapshot_ensure_writable lower t i g hr now ok = Some o → keeps del fs o.
Proof.
  intros I Hi H. unfold snapshot_ensure_writable in H.
  destruct (running i); [injection H as <-; done|].
  destruct (_ && _ && _); [by eapply new_branch_keeps|].
  destruct (frozen_index _ _ _ _) as [k|]; [by eapply new_branch_keeps|]. injection H as <-. done.
Qed.

(** The entries that stay when number [i] is deleted. *)
Lemma elem_of_delete {A} (l : list A) i j x : l !! j = Some x → j ≠ i → x ∈ delete i l.
Proof.
  intros Hj Hne. destruct (decide (j < i)%nat).
  - apply (list_elem_of_lookup_2 _ j). by rewrite list_lookup_delete_lt.
  - apply (list_elem_of_lookup_2 _ (j - 1)). rewrite list_lookup_delete_ge by lia.
    by replace (S (j - 1))%nat with j by lia.
Qed.

Lemma first_valid_elem l b : first_valid l = Some b → b ∈ l.
Proof.
  induction l as [|c l IH]; [done|]. cbn. bcase; [intros [= ->]; by left|]. intros ?%IH. by right.
Qed.

Lemma other_branch_elem l k index b :
  other_branch l k index = Some b →
  ∃ j n, l !! j = Some n ∧ k + Z.of_nat j ≠ index ∧ b ∈ branches n.
Proof.
  revert k. induction l as [|n l IH]; intros k; [done|]. cbn [other_branch].
  assert (R : other_branch l (k + 1) index = Some b →
    ∃ j n0, (n :: l) !! j = Some n0 ∧ k + Z.of_nat j ≠ index ∧ b ∈ branches n0).
  { intros (j & n0 & ? & ? & ?)%IH. exists (S j), n0. split_and!; [done|lia|done]. }
  destruct (k =? index) eqn:E; cbn [orb]; [exact R|]. destruct (negb (valid n)); [exact R|].
  destruct (first_valid (branches n)) as [b0|] eqn:Ef; [|exact R].
  intros [= ->]. zbool. exists 0%nat, n. split_and!; [done|lia|by apply first_valid_elem].
Qed.

Lemma sibling_elem l k skip b :
  sibling l k skip = Some b → ∃ j, l !! j = Some b ∧ k + Z.of_nat j ≠ skip.
Proof.
  revert k. induction l as [|c l IH]; intros k; [done|]. cbn [sibling]. bcase.
  - intros [= ->]. exists 0%nat. split; [done|lia].
  - intros (j & ? & ?)%IH. exists (S j). split; [done|lia].
Qed.

Lemma tree_disks_delete t k n :
  nodes t !! k = Some n →
  tree_disks t ≡ₚ node_disks (base_vhdx t) n ++ tree_disks (set_nodes t (delete k (nodes t))).
Proof.
  intros Hk. unfold tree_disks. cbn [nodes base_branches base_vhdx set_nodes].
  rewrite delete_take_drop. rewrite <- (take_drop_middle (nodes t) k n Hk) at 1.
  rewrite !map_app, !concat_app. cbn [map concat]. solve_Permutation.
Qed.

Lemma node_in_disks t n b :
  n ∈ nodes t → b ∈ branches n → (vhdx_path b, snap_vhdx n) ∈ tree_disks t.
Proof.
  intros Hn Hb. unfold tree_disks. apply elem_of_app. right. apply list_elem_of_In, in_concat.
  exists (node_disks (base_vhdx t) n). split; [by apply in_map, list_elem_of_In|].
  apply list_elem_of_In. right. by apply (list_elem_of_fmap_2 (λ b, (vhdx_path b, snap_vhdx n))).
Qed.

Lemma in_tree_keys t c p : (c, p) ∈ tree_disks t → key c ∈ map key (base_vhdx t :: map fst (tree_disks t)).
Proof. intros H. right. apply list_elem_of_fmap_2. by apply (list_elem_of_fmap_2 fst _ (c, p)). Qed.

(** [snapshot_delete]'s fallback is a disk of the remaining tree. *)
Lemma delete_fallback_in t index :
  0 <= index →
  key (delete_fallback t index) ∈
  map key (base_vhdx t :: map fst (tree_disks (set_nodes t (delete (Z.to_nat index) (nodes t))))).
Proof.
  intros Hi. set (t2 := set_nodes t (delete (Z.to_nat index) (nodes t))).
  change (base_vhdx t) with (base_vhdx t2). unfold delete_fallback.
  destruct (first_valid (base_branches t)) as [b|] eqn:E1.
  { eapply in_tree_keys, elem_of_app. left. cbn.
    apply (list_elem_of_fmap_2 (λ b, (vhdx_path b, base_vhdx t))). by apply first_valid_elem. }
  destruct (other_branch (nodes t) 0 index) as [b|] eqn:E2; [|by left].
  apply other_branch_elem in E2 as (j & n & Hj & Hne & Hb).
  eapply in_tree_keys, (node_in_disks t2 n b); [|done]. apply (elem_of_delete _ _ j); [done|lia].
Qed.

Lemma same_path_key a b : same_path lower a b = true ↔ key a = key b.
Proof. unfold same_path. apply bool_decide_eq_true. Qed.

Lemma shape_delete t k : shape t → shape (set_nodes t (delete k (nodes t))).
Proof.
  intros (S1 & S2 & S3). split_and!; cbn [nodes base_branches set_nodes]; [|apply S2|apply S2|].
  - pose proof (sublist_length _ _ (sublist_delete (nodes t) k)). lia.
  - by apply Forall_delete.
Qed.

(** Common end of the two deletions: the disks [ds] go, the instance has left them. *)
Lemma drop_keeps t t2 t3 i fs ds paths e ok del :
  intact t fs → shape t2 → base_vhdx t2 = base_vhdx t →
  (base_vhdx t2 = [] → nodes t2 = [] ∧ base_branches t2 = []) →
  tree_disks t ≡ₚ ds ++ tree_disks t2 →
  (∀ p, key p ∈ map key paths → key p ∈ map key (map fst ds)) →
  snapshot_save t2 ok = Some (t3, e) →
  (key (i_vhdx_path i) ∈ map key (base_vhdx t2 :: map fst (tree_disks t2)) ∧ base_vhdx t ≠ [] ∨
   on_disk i fs ∧ key (i_vhdx_path i) ∉ map key (map fst ds)) →
  intact t3 (apply_effects del fs (map DeleteFile paths ++ e)) ∧
  on_disk i (apply_effects del fs (map DeleteFile paths ++ e)).
Proof.
  intros I S2 Eb Hbe P Hp Hs Hi. rewrite apply_effects_app.
  assert (Hfs : ∀ k, k ∉ map key (map fst ds) → apply_effects del fs (map DeleteFile paths) !! k = fs !! k).
  { intros k Hk. apply deletes_frame. intros Hk2. apply Hk.
    apply list_elem_of_fmap in Hk2 as (p & -> & Hpp). apply Hp. by apply list_elem_of_fmap_2. }
  destruct (intact_drop _ _ _ _ _ I S2 Eb Hbe P Hfs) as [I2 Hk].
  destruct (save_intact _ _ _ _ _ del Hs I2) as (I3 & -> & _). split; [done|].
  destruct Hi as [[Hin Hb]|[Hi Hni]].
  - pose proof (Hk _ Hin) as Hni. eapply on_disk_frame; [|by apply Hfs]. unfold on_disk.
    cbn [map] in Hin. apply elem_of_cons in Hin as [->|Hin].
    + rewrite Eb. by apply I.
    + apply list_elem_of_fmap in Hin as (c & -> & Hc). apply list_elem_of_fmap in Hc as ([c' p] & -> & Hd).
      eapply (disk_exists t fs c' p I). rewrite P. apply elem_of_app. by right.
  - eapply on_disk_frame; [exact Hi|by apply Hfs].
Qed.

Lemma filter_all_valid l : all_valid l → filter (λ b, b_valid b = true) l = l.
Proof. apply filter_all. Qed.

Lemma delete_keeps t i index ok o fs del :
  intact t fs → on_disk i fs → snapshot_delete lower t i index ok = Some o → keeps del fs o.
Proof.
  intros I Hi H. unfold snapshot_delete in H.
  destruct (node_at t index) as [n|] eqn:En; [|injection H as <-; done].
  destruct (negb (valid n)); [injection H as <-; done|].
  obind H i' Ei'. obind H te Es. destruct te as [t3 e]. injection H as <-. intros _.
  unfold node_at in En. destruct (_ && _) eqn:Er; [|done]. zbool.
  assert (Hn : n ∈ nodes t) by (by eapply list_elem_of_lookup_2).
  assert (Hb : base_vhdx t ≠ []).
  { intros E. destruct (it_base _ _ I E) as [E1 _]. rewrite E1 in Hn. by apply not_elem_of_nil in Hn. }
  assert (Hv : all_valid (branches n)).
  { by destruct (proj1 (list.Forall_forall _ _) (it_nodes _ _ I) n Hn) as (_ & _ & ?). }
  rewrite (filter_all_valid _ Hv).
  replace (map (λ b, DeleteFile (vhdx_path b)) (branches n) ++ DeleteFile (snap_vhdx n) :: e) with
    (map DeleteFile (map vhdx_path (branches n) ++ [snap_vhdx n]) ++ e)
    by (by rewrite map_app, map_map, <- app_assoc).
  eapply (drop_keeps t _ t3 i' fs (node_disks (base_vhdx t) n)); [done|by apply shape_delete, intact_shape with fs|done|done| | |exact Es|].
  - by apply tree_disks_delete.
  - intros p. rewrite map_app. cbn [node_disks map fst]. unfold branch_disks. rewrite !map_map. cbn [fst].
    intros [Hp|Hp]%elem_of_app; [by right|]. apply list_elem_of_singleton in Hp. rewrite Hp. by left.
  - destruct (existsb _ (branches n) || same_path lower (i_vhdx_path i) (snap_vhdx n)) eqn:Ef.
    + obind Ei' p Ep. apply wcscpy_Some in Ep as ->. injection Ei' as <-. left. split; [|done].
      refine (delete_fallback_in t index _). lia.
    + injection Ei' as <-. right. split; [done|]. apply orb_false_iff in Ef as [Ef1 Ef2].
      cbn [node_disks map fst]. unfold branch_disks. rewrite map_map. cbn [fst].
      intros [E|Hin]%elem_of_cons.
      * apply same_path_key in E. congruence.
      * apply list_elem_of_fmap in Hin as (c & E & Hc). apply list_elem_of_fmap in Hc as (b & -> & Hbb).
        apply not_true_iff_false in Ef1. apply Ef1. apply existsb_exists. exists b.
        split; [by apply list_elem_of_In|]. rewrite (proj1 (list.Forall_forall _ _) Hv b Hbb).
        by apply same_path_key.
Qed.

Lemma delete_branch_keeps t i index k ok o fs del :
  intact t fs → on_disk i fs → snapshot_delete_branch lower t i index k ok = Some o → keeps del fs o.
Proof.
  intros I Hi H. unfold snapshot_delete_branch in H.
  destruct (get_branch_list t index) as [[bs parent]|] eqn:Eg; [|injection H as <-; done].
  destruct (branch_at bs k) as [b|] eqn:Eb; [|injection H as <-; done].
  obind H i' Ei'. obind H te Es. destruct te as [t3 e]. injection H as <-. intros _.
  apply branch_at_elem in Eb as [Ebk Hk0].
  assert (Hb : base_vhdx t ≠ []).
  { intros E. destruct (it_base _ _ I E) as [E1 E2]. unfold get_branch_list, node_at in Eg.
    rewrite E1, E2 in Eg. destruct (index =? -2); [injection Eg as <- _; done|]. by destruct (_ && _). }
  destruct (get_branch_list_shape _ _ _ _ (intact_shape _ _ I) Eg) as [Hlen Hval].
  set (t2 := put_branch_list t index (delete (Z.to_nat k) bs)) in *.
  destruct (put_branch_list_base t index (delete (Z.to_nat k) bs)) as (E1 & _ & _). fold t2 in E1.
  assert (P : tree_disks t ≡ₚ [(vhdx_path b, parent)] ++ tree_disks t2).
  { apply (Permutation_app_inv_r (branch_disks parent (delete (Z.to_nat k) bs))).
    rewrite <- (put_branch_list_perm _ _ _ _ Eg (delete (Z.to_nat k) bs)). fold t2.
    unfold branch_disks. rewrite <- (take_drop_middle bs _ b Ebk) at 1.
    rewrite delete_take_drop, !map_app. cbn [map]. solve_Permutation. }
  eapply (drop_keeps t t2 t3 i' fs [(vhdx_path b, parent)] [vhdx_path b]); [done| |done|by rewrite E1|exact P|done|exact Es|].
  - apply shape_put; [by eapply intact_shape| |].
    + pose proof (sublist_length _ _ (sublist_delete bs (Z.to_nat k))). lia.
    + by apply Forall_delete.
  - destruct (same_path lower (i_vhdx_path i) (vhdx_path b)) eqn:Ef.
    + obind Ei' p Ep. apply wcscpy_Some in Ep as ->. injection Ei' as <-. left. split; [|done].
      cbn [i_vhdx_path set_path]. destruct (sibling bs 0 k) as [b'|] eqn:Esb; [|rewrite E1; by left].
      apply sibling_elem in Esb as (j & Hj & Hne).
      assert (Hb' : (vhdx_path b', parent) ∈ tree_disks t2); [|by apply in_tree_keys in Hb'].
      assert (Hin : b' ∈ delete (Z.to_nat k) bs) by (apply (elem_of_delete _ _ j); [done|lia]).
      unfold t2, put_branch_list. unfold get_branch_list in Eg. destruct (index =? -2).
      * injection Eg as <- <-. unfold tree_disks. cbn. apply elem_of_app. left.
        by apply (list_elem_of_fmap_2 (λ b, (vhdx_path b, base_vhdx t))).
      * unfold node_at in Eg. destruct (_ && _); [|done].
        destruct (nodes t !! Z.to_nat index) as [n|] eqn:En; [|done].
        destruct (valid n); [|done]. injection Eg as <- <-.
        apply (node_in_disks _ (set_branches n (delete (Z.to_nat k) (branches n)))); [|done].
        cbn [nodes set_nodes]. apply (list_elem_of_lookup_2 _ (Z.to_nat index)).
        by rewrite list_lookup_alter_eq, En.
    + injection Ei' as <-. right. split; [done|]. cbn. intros E%list_elem_of_singleton.
      apply same_path_key in E. congruence.
Qed.

Lemma intact_perm t t' fs :
  intact t fs → shape t' → base_vhdx t' = base_vhdx t →
  (base_vhdx t' = [] → nodes t' = [] ∧ base_branches t' = []) →
  tree_disks t' ≡ₚ tree_disks t → intact t' fs.
Proof.
  intros I S Eb Hbe P.
  eapply (intact_drop t t' fs fs []); [done|done|done|done|by rewrite P|done].
Qed.

Lemma map_alter {A B} (g : A → B) (f : A → A) k (l : list A) :
  (∀ x, g (f x) = g x) → map g (alter f k l) = map g l.
Proof.
  intros Hf. revert k. induction l as [|x l IH]; intros k; [done|].
  destruct k; cbn; [by rewrite Hf|]. f_equal. apply IH.
Qed.

Lemma alter_nil_inv {A} (f : A → A) k (l : list A) : l = [] → alter f k l = [].
Proof. by intros ->. Qed.

Lemma rename_keeps t index k nm ok hr t' e fs del :
  intact t fs → snapshot_rename t index k nm ok = Some (hr, t', e) →
  intact t' (apply_effects del fs e) ∧ apply_effects del fs e = fs.
Proof.
  intros I H. unfold snapshot_rename in H.
  destruct nm as [|c0 nm]; [injection H as <- <- <-; done|].
  destruct (get_branch_list t index) as [[bs parent]|] eqn:Eg; [|injection H as <- <- <-; done].
  pose proof (intact_shape _ _ I) as S.
  destruct ((k <? 0) && negb (index =? -2)).
  - obind H v Ev. obind H te Es. destruct te as [t3 e3]. injection H as <- <- <-.
    match type of Es with snapshot_save ?x _ = _ => set (t2 := x) in * end.
    assert (I2 : intact t2 fs).
    { destruct S as (S1 & S2 & S3). apply (intact_perm t); [done| |done| |].
      - split_and!; cbn [nodes base_branches t2 set_nodes]; [by rewrite length_alter|apply S2|apply S2|].
        apply Forall_alter; [done|]. intros n _ ?. done.
      - intros E. destruct (it_base _ _ I E) as [En Ebb]. split; [|done]. cbn. by rewrite En.
      - unfold tree_disks, t2. cbn [nodes base_branches base_vhdx set_nodes]. by rewrite map_alter. }
    destruct (save_intact _ _ _ _ _ del Es I2) as (I3 & -> & _). done.
  - destruct (branch_at bs k) as [b|] eqn:Eb; [|injection H as <- <- <-; done].
    obind H v Ev. obind H te Es. destruct te as [t3 e3]. injection H as <- <- <-.
    match type of Es with snapshot_save ?x _ = _ => set (t2 := x) in * end.
    destruct (get_branch_list_shape _ _ _ _ S Eg) as [Hlen Hval].
    assert (I2 : intact t2 fs).
    { destruct (put_branch_list_base t index (alter (set_friendly v) (Z.to_nat k) bs)) as (E1 & _ & E3).
      apply (intact_perm t); [done| |done| |].
      - apply shape_put; [done|by rewrite length_alter|]. apply Forall_alter; [done|]. by intros.
      - unfold t2. rewrite E1. intros E. destruct (it_base _ _ I E) as [En Ebb].
        unfold get_branch_list, node_at in Eg. rewrite En, Ebb in Eg.
        destruct (index =? -2); [injection Eg as <- _; by apply branch_at_elem in Eb as [? _]|].
        by destruct (_ && _).
      - apply (Permutation_app_inv_r (branch_disks parent bs)). unfold t2.
        rewrite (put_branch_list_perm _ _ _ _ Eg). unfold branch_disks. by rewrite (map_alter _ (set_friendly v)). }
    destruct (save_intact _ _ _ _ _ del Es I2) as (I3 & -> & _). done.
Qed.

(** ** Histories *)

Definition state : Type := SnapshotTree * VmInstance * disks.

(** One call of the module, with arbitrary answers of the operating system, or
    the VM starting or stopping. *)
Inductive step : state → state → Prop :=
| step_take t i fs nm g1 g2 hr1 hr2 now ok hr t' i' e del :
    snapshot_take t i nm g1 g2 hr1 hr2 now ok = Some (hr, t', i', e) → legal del fs e →
    step (t, i, fs) (t', i', apply_effects del fs e)
| step_new_branch t i fs index g hr0 now ok hr t' i' e del :
    snapshot_new_branch t i index g hr0 now ok = Some (hr, t', i', e) → legal del fs e →
    step (t, i, fs) (t', i', apply_effects del fs e)
| step_select t i fs index k hr t' i' e del :
    snapshot_select_branch t i index k = Some (hr, t', i', e) → legal del fs e →
    step (t, i, fs) (t', i', apply_effects del fs e)
| step_ensure t i fs g hr0 now ok hr t' i' e del :
    snapshot_ensure_writable lower t i g hr0 now ok = Some (hr, t', i', e) → legal del fs e →
    step (t, i, fs) (t', i', apply_effects del fs e)
| step_delete t i fs index ok hr t' i' e del :
    snapshot_delete lower t i index ok = Some (hr, t', i', e) → legal del fs e →
    step (t, i, fs) (t', i', apply_effects del fs e)
| step_delete_branch t i fs index k ok hr t' i' e del :
    snapshot_delete_branch lower t i index k ok = Some (hr, t', i', e) → legal del fs e →
    step (t, i, fs) (t', i', apply_effects del fs e)
| step_rename t i fs index k nm ok hr t' e del :
    snapshot_rename t index k nm ok = Some (hr, t', e) →
    step (t, i, fs) (t', i, apply_effects del fs e)
| step_power t i fs b : step (t, i, fs) (t, mkInstance (i_vhdx_path i) b, fs).

Definition consistent (s : state) : Prop := let '(t, i, fs) := s in intact t fs ∧ on_disk i fs.

Lemma step_consistent s s' : step s s' → consistent s → consistent s'.
Proof.
  intros Hstep Hc. destruct Hstep; destruct Hc as [I Hi]; cbn [consistent];
    try match goal with
    | H : snapshot_rename _ _ _ _ _ = _ |- _ =>
        destruct (rename_keeps _ _ _ _ _ _ _ _ _ del I H) as [? E]; split; [done|by rewrite E]
    | H : _ = Some (_, ?t', ?i', ?e), L : legal ?del ?fs ?e |- _ =>
        first [ eapply (take_keeps _ _ _ _ _ _ _ _ _ _ _ del I Hi H)
              | eapply (new_branch_keeps _ _ _ _ _ _ _ _ _ del I Hi H)
              | eapply (select_branch_keeps _ _ _ _ _ _ del I Hi H)
              | eapply (ensure_writable_keeps _ _ _ _ _ _ _ _ del I Hi H)
              | eapply (delete_keeps _ _ _ _ _ _ del I Hi H)
              | eapply (delete_branch_keeps _ _ _ _ _ _ _ del I Hi H) ]; exact L
    end.
  done.
Qed.
End disks.

Lemma initial_consistent lower dir i fs :
  fs !! [] = None → on_disk lower i fs → consistent lower (mkTree [] dir [] [], i, fs).
Proof.
  intros He Hi. split; [|done]. split; cbn;
    [done|unfold MAX_SNAPSHOTS; lia|split; [unfold MAX_BRANCHES; lia|constructor]|constructor|done|done
    |constructor|apply NoDup_singleton].
Qed.

(** C14: from a tree without snapshots and an instance on an existing disk,
    through any history of snapshot operations and power changes and whatever the
    operating system answers (disk creations that fail, GUIDs, deletions that do
    not succeed), every disk the tree refers to exists and was created on the
    parent the tree shows (the base for snapshots and base branches, the snapshot
    for its branches), no two entries share a disk, the arrays keep their bounds,
    and the instance is never left on a deleted disk. *)
Theorem snapshot_consistent lower dir i fs s :
  fs !! [] = None → on_disk lower i fs →
  rtc (step lower) (mkTree [] dir [] [], i, fs) s → consistent lower s.
Proof.
  intros He Hi Hrtc.
  pose proof (initial_consistent lower dir i fs He Hi) as I.
  revert Hrtc. apply rtc_ind_r; [done|]. intros s1 s2 _ Hstep IH. by eapply step_consistent.
Qed.

(** ** A concrete history: the first snapshot of a VM *)

Definition vm_dir : wstr := lit "C:\vm\snapshots".
Definition vm_disk : wstr := lit "C:\vm\disk.vhdx".
Definition vm_fs : disks := {[ vm_disk := [] ]}.
Definition guid_of (n : Z) : option GUID := Some (mkGuid n 0 0 [0; 0; 0; 0; 0; 0; 0; 0]).
Definition first_take : option outcome :=
  snapshot_take (mkTree [] vm_dir [] []) (mkInstance vm_disk false) (lit "first")
    (guid_of 1) (guid_of 2) S_OK S_OK 7 true.

Definition taken_tree : SnapshotTree :=
  mkTree
    [mkNode (generate_guid_string (guid_of 1)) (lit "first")
       (vm_dir ++ lit "\snapshot_" ++ generate_guid_string (guid_of 1) ++ lit ".vhdx") 7 true
       [mkBranch (generate_guid_string (guid_of 2)) (lit "Default Branch")
          (vm_dir ++ lit "\branch_" ++ generate_guid_string (guid_of 2) ++ lit ".vhdx") true]]
    vm_dir vm_disk [].
Definition taken_path : wstr := vm_dir ++ lit "\branch_" ++ generate_guid_string (guid_of 2) ++ lit ".vhdx".
Definition taken_effects : list effect :=
  match first_take with Some (_, _, _, e) => e | None => [] end.
Definition taken_fs : disks := apply_effects (λ c, c) (λ _, true) vm_fs taken_effects.

Lemma first_take_runs : first_take = Some (S_OK, taken_tree, mkInstance taken_path false, taken_effects).
Proof. vm_compute. reflexivity. Qed.

Lemma first_take_legal : legal (λ c, c) (λ _, true) vm_fs taken_effects.
Proof. vm_compute. repeat split; intros; reflexivity. Qed.

Lemma vm_disk_exists : on_disk (λ c, c) (mkInstance vm_disk false) vm_fs.
Proof. exists []. vm_compute. reflexivity. Qed.

Lemma taken_step :
  step (λ c, c) (mkTree [] vm_dir [] [], mkInstance vm_disk false, vm_fs)
    (taken_tree, mkInstance taken_path false, taken_fs).
Proof.
  apply (step_take (λ c, c) _ _ _ (lit "first") (guid_of 1) (guid_of 2) S_OK S_OK 7 true S_OK);
    [exact first_take_runs|exact first_take_legal].
Qed.

Lemma taken_consistent : consistent (λ c, c) (taken_tree, mkInstance taken_path false, taken_fs).
Proof.
  eapply step_consistent; [exact taken_step|]. apply initial_consistent; [reflexivity|exact vm_disk_exists].
Qed.

Lemma snapshot_consistent_witness :
  consistent (λ c, c) (taken_tree, mkInstance taken_path false, taken_fs).
Proof.
  refine (snapshot_consistent (λ c, c) vm_dir (mkInstance vm_disk false) vm_fs _ _ vm_disk_exists _).
  - reflexivity.
  - apply rtc_once. exact taken_step.
Defined.
