(* ===== verification/SnapshotLoad.v ===== *)
(** * [tree.dat]: saving a snapshot tree and loading it again *)

From Stdlib Require Import String.
From S2P Require Import Prelude WStr Snapshot.

(** ** The text as lines *)

Definition branch_lines (header : wstr) (b : BranchEntry) : list wstr :=
  [header; lit "Guid=" ++ b_guid b; lit "Name=" ++ friendly_name b; lit "Vhdx=" ++ vhdx_path b; []].
Definition node_lines (n : SnapNode) : list wstr :=
  [lit "[Snapshot]"; lit "Guid=" ++ guid n; lit "Name=" ++ name n; lit "Vhdx=" ++ snap_vhdx n;
   lit "Created=" ++ dec (created n); []] ++
  concat (map (branch_lines (lit "[Branch]")) (branches n)).
Definition tree_lines (t : SnapshotTree) : list wstr :=
  [lit "[Base]"; base_vhdx t; []] ++
  concat (map (branch_lines (lit "[BaseBranch]")) (base_branches t)) ++
  concat (map node_lines (nodes t)).

(** ** Trees the format can carry *)

Definition short (n : Z) (s : wstr) : Prop := clean s ∧ Z.of_nat (length s) < n.

Definition branch_fits (b : BranchEntry) : Prop :=
  b_valid b = true ∧ short 64 (b_guid b) ∧ short 128 (friendly_name b) ∧ short MAX_PATH (vhdx_path b).
Definition node_fits (n : SnapNode) : Prop :=
  valid n = true ∧ short 64 (guid n) ∧ short 128 (name n) ∧ short MAX_PATH (snap_vhdx n) ∧
  is_u64 (created n) ∧ Z.of_nat (length (branches n)) <= MAX_BRANCHES ∧ Forall branch_fits (branches n).
(** The strings are within their buffers and free of line breaks, and the base
    path does not look like a section header. *)
Record tree_fits (t : SnapshotTree) : Prop := {
  tf_dir : Z.of_nat (length (base_dir t)) + 9 < MAX_PATH;
  tf_base : short MAX_PATH (base_vhdx t) ∧ head (base_vhdx t) ≠ Some 91 ∧ base_vhdx t ≠ [];
  tf_base_branches : Z.of_nat (length (base_branches t)) <= MAX_BRANCHES ∧ Forall branch_fits (base_branches t);
  tf_nodes : Z.of_nat (length (nodes t)) <= MAX_SNAPSHOTS ∧ Forall node_fits (nodes t);
  tf_any : nodes t ≠ [] ∨ base_branches t ≠ [];
}.

Abbreviation unlines ls := (concat (map (λ s, s ++ [10]) ls)).

Lemma unlines_app a b : unlines (a ++ b) = unlines a ++ unlines b.
Proof. by rewrite map_app, concat_app. Qed.

Lemma branch_text_lines h b : b_valid b = true → branch_text h b = unlines (branch_lines h b).
Proof.
  intros Hv. unfold branch_text, branch_lines. rewrite Hv. unfold ln.
  cbn [map concat]. by rewrite app_nil_r.
Qed.

Lemma branches_text_lines h l :
  Forall branch_fits l → concat (map (branch_text h) l) = unlines (concat (map (branch_lines h) l)).
Proof.
  induction 1 as [|b l [Hv _] _ IH]; [done|]. cbn [map concat].
  by rewrite unlines_app, branch_text_lines, IH.
Qed.

Lemma node_text_lines n : node_fits n → node_text n = unlines (node_lines n).
Proof.
  intros (Hv & _ & _ & _ & _ & _ & Hb). unfold node_text, node_lines. rewrite Hv, unlines_app.
  rewrite (branches_text_lines _ _ Hb). cbn [map concat]. unfold ln. by rewrite app_nil_r, <- !app_assoc.
Qed.

Lemma tree_text_lines t : tree_fits t → tree_text t = unlines (tree_lines t).
Proof.
  intros F. unfold tree_text, tree_lines. rewrite !unlines_app.
  rewrite (branches_text_lines _ _ (proj2 (tf_base_branches _ F))).
  assert (concat (map node_text (nodes t)) = unlines (concat (map node_lines (nodes t)))) as ->.
  { destruct (tf_nodes _ F) as [_ H]. clear F. induction H as [|n l Hn _ IH]; [done|].
    cbn [map concat]. by rewrite unlines_app, node_text_lines, IH. }
  cbn [map concat]. unfold ln. by rewrite app_nil_r, <- !app_assoc.
Qed.

(** Every line is short and clean, so that [fgetws] returns it whole. *)
Abbreviation good := (λ s : wstr, clean s ∧ (length s < 1023)%nat).

Lemma good_lit_app (l : string) s n :
  short n s → n <= 260 → clean (lit l) → (length (lit l) <= 20)%nat → good (lit l ++ s).
Proof. intros [Hc Hl] ? Hp Hpl. split; [by apply clean_app|]. rewrite length_app. lia. Qed.

Ltac lit_ok := vm_compute; repeat constructor; discriminate.

Lemma branch_lines_good h b :
  good (lit h) → branch_fits b → Forall good (branch_lines (lit h) b).
Proof.
  intros Hh (_ & Hg & Hn & Hv). unfold branch_lines.
  repeat (apply Forall_cons; split); try done;
    [eapply good_lit_app; [exact Hg|lia|lit_ok|vm_compute; lia]
    |eapply good_lit_app; [exact Hn|lia|lit_ok|vm_compute; lia]
    |eapply good_lit_app; [exact Hv|done|lit_ok|vm_compute; lia]
    |split; [constructor|simpl; lia]].
Qed.

Lemma branches_lines_good h l :
  good (lit h) → Forall branch_fits l → Forall good (concat (map (branch_lines (lit h)) l)).
Proof.
  intros Hh H. induction H as [|b l Hb _ IH]; [constructor|]. cbn [map concat].
  apply Forall_app. split; [by apply branch_lines_good|done].
Qed.

Lemma node_lines_good n : node_fits n → Forall good (node_lines n).
Proof.
  intros (_ & Hg & Hn & Hv & Hc & _ & Hb). unfold node_lines. apply Forall_app. split.
  - repeat (apply Forall_cons; split); try done;
      [split; [lit_ok|vm_compute; lia]
      |eapply good_lit_app; [exact Hg|lia|lit_ok|vm_compute; lia]
      |eapply good_lit_app; [exact Hn|lia|lit_ok|vm_compute; lia]
      |eapply good_lit_app; [exact Hv|done|lit_ok|vm_compute; lia]
      |eapply (good_lit_app _ _ 64); [split|lia|lit_ok|vm_compute; lia]
      |split; [constructor|simpl; lia]].
    + apply dec_clean. unfold is_u64 in Hc. lia.
    + pose proof (length_dec_fuel 20 (created n)). unfold dec. lia.
  - apply branches_lines_good; [split; [lit_ok|vm_compute; lia]|done].
Qed.

Lemma tree_lines_good t : tree_fits t → Forall good (tree_lines t).
Proof.
  intros F. unfold tree_lines. apply Forall_app. split; [|apply Forall_app; split].
  - destruct (tf_base _ F) as ([Hc Hl] & _ & _). unfold MAX_PATH in Hl.
    repeat (apply Forall_cons; split); try done;
      [split; [lit_ok|vm_compute; lia]|split; [done|lia]|split; [constructor|simpl; lia]].
  - apply branches_lines_good; [split; [lit_ok|vm_compute; lia]|apply F].
  - destruct (tf_nodes _ F) as [_ H]. clear F. induction H as [|n l Hn _ IH]; [constructor|].
    cbn [map concat]. apply Forall_app. split; [by apply node_lines_good|done].
Qed.

(** ** Loading *)

Lemma load_lines_app s a b :
  load_lines s (a ++ b) = (s' ← load_lines s a; load_lines s' b).
Proof.
  revert s. induction a as [|x a IH]; intros s; [done|]. cbn [app load_lines].
  destruct (load_line s x) as [s1|]; [|done]. cbn [mbind option_bind]. apply IH.
Qed.

Lemma wcscpy_fits n s : Z.of_nat (length s) < n → wcscpy_s n s = Some s.
Proof. intros. unfold wcscpy_s. bcase; [done|lia]. Qed.

Lemma upd_last_snoc {A} (f : A → option A) l x :
  upd_last f (l ++ [x]) = (x' ← f x; Some (l ++ [x'])).
Proof.
  unfold upd_last. rewrite last_snoc. rewrite length_app. simpl.
  rewrite take_app_le, take_ge by lia. done.
Qed.

(** Only a line that starts with a bracket can be a section header. *)
Lemma load_line_field s c line : c ≠ 91 → load_line s (c :: line) = load_field s (c :: line).
Proof.
  intros Hc. unfold load_line, is_line.
  rewrite !bool_decide_false; [done|..]; by intros [= ? _].
Qed.

Lemma load_line_lit s l v :
  match l with [] => False | c :: _ => c ≠ 91 end → load_line s (l ++ v) = load_field s (l ++ v).
Proof. destruct l as [|c l]; [done|]. apply load_line_field. Qed.

(** The section headers. *)
Lemma load_BaseBranch s :
  load_line s (lit "[BaseBranch]") =
  if Z.of_nat (length (base_branches (ls_tree s))) <? MAX_BRANCHES
  then Some (mkLoad (set_base_branches (ls_tree s) (base_branches (ls_tree s) ++ [zero_branch])) 2 (ls_node s) true)
  else Some (mkLoad (ls_tree s) 2 (ls_node s) false).
Proof. reflexivity. Qed.
Lemma load_Snapshot s :
  load_line s (lit "[Snapshot]") =
  if Z.of_nat (length (nodes (ls_tree s))) <? MAX_SNAPSHOTS
  then Some (mkLoad (set_nodes (ls_tree s) (nodes (ls_tree s) ++ [zero_node])) 3 true false)
  else Some (mkLoad (ls_tree s) 3 false false).
Proof. reflexivity. Qed.
Lemma load_Branch t l n sec cur :
  nodes t = l ++ [n] → Z.of_nat (length (branches n)) < MAX_BRANCHES →
  load_line (mkLoad t sec true cur) (lit "[Branch]") =
  Some (mkLoad (set_nodes t (l ++ [set_branches n (branches n ++ [zero_branch])])) 4 true true).
Proof.
  intros En Hl.
  change (load_line (mkLoad t sec true cur) (lit "[Branch]")) with
    (match last (nodes t) with
     | Some n =>
         if Z.of_nat (length (branches n)) <? MAX_BRANCHES
         then l ← upd_last (λ n, Some (set_branches n (branches n ++ [zero_branch]))) (nodes t);
              Some (mkLoad (set_nodes t l) 4 true true)
         else Some (mkLoad t 4 true false)
     | None => Some (mkLoad t 4 true false)
     end).
  rewrite En, last_snoc, upd_last_snoc. bcase; [done|lia].
Qed.

(** The three fields of a branch, over any update [g] of the last branch. *)
Lemma branch_line_fields b :
  branch_fits b →
  (b1 ← branch_line (lit "Guid=" ++ b_guid b) zero_branch;
   b2 ← branch_line (lit "Name=" ++ friendly_name b) b1;
   branch_line (lit "Vhdx=" ++ vhdx_path b) b2) = Some b.
Proof.
  intros (Hv & [_ Hg] & [_ Hn] & [_ Hp]). unfold branch_line.
  assert (∀ v, after_prefix (lit "Guid=") (lit "Guid=" ++ v) = Some v) as -> by (intros; apply after_prefix_app).
  rewrite wcscpy_fits by done. cbn [mbind option_bind].
  assert (after_prefix (lit "Guid=") (lit "Name=" ++ friendly_name b) = None) as -> by done.
  rewrite after_prefix_app, wcscpy_fits by done. cbn [mbind option_bind].
  assert (after_prefix (lit "Guid=") (lit "Vhdx=" ++ vhdx_path b) = None) as -> by done.
  assert (after_prefix (lit "Name=") (lit "Vhdx=" ++ vhdx_path b) = None) as -> by done.
  rewrite after_prefix_app, wcscpy_fits by done. cbn. destruct b. cbn in *. by subst.
Qed.

Lemma load_base_branch t b nd cur sec :
  branch_fits b → Z.of_nat (length (base_branches t)) < MAX_BRANCHES →
  load_lines (mkLoad t sec nd cur) (branch_lines (lit "[BaseBranch]") b) =
  Some (mkLoad (set_base_branches t (base_branches t ++ [b])) 2 nd true).
Proof.
  intros Hb Hl. unfold branch_lines. cbn [load_lines].
  rewrite load_BaseBranch. cbn [ls_tree ls_node]. destruct (Z.ltb_spec (Z.of_nat (length (base_branches t))) MAX_BRANCHES); [|lia].
  cbn [mbind option_bind].
  pose proof (branch_line_fields b Hb) as BF.
  destruct (branch_line (lit "Guid=" ++ b_guid b) zero_branch) as [b1|] eqn:E1; [|done].
  cbn [mbind option_bind] in BF.
  destruct (branch_line (lit "Name=" ++ friendly_name b) b1) as [b2|] eqn:E2; [|done].
  cbn [mbind option_bind] in BF.
  assert (F : ∀ x y line, branch_line line x = Some y →
    load_field (mkLoad (set_base_branches t (base_branches t ++ [x])) 2 nd true) line =
    Some (mkLoad (set_base_branches t (base_branches t ++ [y])) 2 nd true)).
  { intros x y line Hxy. unfold load_field. cbn [ls_tree ls_section ls_cur ls_node base_branches set_base_branches base_vhdx].
    change (2 =? 1) with false. change (2 =? 2) with true. cbn [andb].
    rewrite upd_last_snoc, Hxy. done. }
  rewrite (load_line_lit _ (lit "Guid=")), (F _ _ _ E1) by done. cbn [mbind option_bind].
  rewrite (load_line_lit _ (lit "Name=")), (F _ _ _ E2) by done. cbn [mbind option_bind].
  rewrite (load_line_lit _ (lit "Vhdx=")), (F _ _ _ BF) by done. done.
Qed.

Lemma set_base_branches_twice t a b : set_base_branches (set_base_branches t a) b = set_base_branches t b.
Proof. done. Qed.

Lemma load_base_branches l t sec nd cur :
  Forall branch_fits l → Z.of_nat (length (base_branches t) + length l) <= MAX_BRANCHES →
  ∃ sec' cur', load_lines (mkLoad t sec nd cur) (concat (map (branch_lines (lit "[BaseBranch]")) l)) =
    Some (mkLoad (set_base_branches t (base_branches t ++ l)) sec' nd cur').
Proof.
  intros H. revert t sec cur. induction H as [|b l Hb _ IH]; intros t sec cur Hlen.
  { exists sec, cur. rewrite app_nil_r. by destruct t. }
  cbn [map concat]. rewrite load_lines_app, load_base_branch by (done || (simpl in Hlen; lia)).
  cbn [mbind option_bind].
  destruct (IH (set_base_branches t (base_branches t ++ [b])) 2 true) as (sec' & cur' & E).
  { cbn [base_branches set_base_branches]. rewrite length_app. simpl in *. lia. }
  exists sec', cur'. rewrite E. cbn [base_branches set_base_branches]. by rewrite <- app_assoc.
Qed.

(** A field line updates the last node, or its last branch. *)
Lemma load_field_node t l x y line cur :
  nodes t = l ++ [x] → node_line line x = Some y →
  load_field (mkLoad t 3 true cur) line = Some (mkLoad (set_nodes t (l ++ [y])) 3 true cur).
Proof.
  intros En Hxy. unfold load_field. cbn [ls_tree ls_section ls_cur ls_node].
  change (3 =? 1) with false. change (3 =? 2) with false. change (3 =? 4) with false.
  change (3 =? 3) with true. cbn [andb orb negb]. by rewrite En, upd_last_snoc, Hxy.
Qed.

Lemma load_field_branch t l n bs x y line nd :
  nodes t = l ++ [set_branches n (bs ++ [x])] → branch_line line x = Some y →
  load_field (mkLoad t 4 nd true) line =
  Some (mkLoad (set_nodes t (l ++ [set_branches n (bs ++ [y])])) 4 nd true).
Proof.
  intros En Hxy. unfold load_field. cbn [ls_tree ls_section ls_cur ls_node].
  change (4 =? 1) with false. change (4 =? 2) with false. change (4 =? 4) with true.
  cbn [andb]. rewrite En, upd_last_snoc. cbn [branches set_branches]. by rewrite upd_last_snoc, Hxy.
Qed.

Lemma load_branch t l n b sec cur :
  branch_fits b → nodes t = l ++ [n] → Z.of_nat (length (branches n)) < MAX_BRANCHES →
  load_lines (mkLoad t sec true cur) (branch_lines (lit "[Branch]") b) =
  Some (mkLoad (set_nodes t (l ++ [set_branches n (branches n ++ [b])])) 4 true true).
Proof.
  intros Hb En Hl. unfold branch_lines. cbn [load_lines].
  rewrite (load_Branch _ _ _ _ _ En Hl). cbn [mbind option_bind].
  pose proof (branch_line_fields b Hb) as BF.
  destruct (branch_line (lit "Guid=" ++ b_guid b) zero_branch) as [b1|] eqn:E1; [|done].
  cbn [mbind option_bind] in BF.
  destruct (branch_line (lit "Name=" ++ friendly_name b) b1) as [b2|] eqn:E2; [|done].
  cbn [mbind option_bind] in BF.
  rewrite (load_line_lit _ (lit "Guid=")) by done. erewrite (load_field_branch _ l n (branches n)); [|reflexivity|exact E1].
  cbn [mbind option_bind].
  rewrite (load_line_lit _ (lit "Name=")) by done. erewrite (load_field_branch _ l n (branches n)); [|reflexivity|exact E2].
  cbn [mbind option_bind].
  rewrite (load_line_lit _ (lit "Vhdx=")) by done. erewrite (load_field_branch _ l n (branches n)); [|reflexivity|exact BF].
  done.
Qed.

Lemma load_branches bs t l n sec cur :
  Forall branch_fits bs → nodes t = l ++ [n] → Z.of_nat (length (branches n) + length bs) <= MAX_BRANCHES →
  ∃ sec' cur', load_lines (mkLoad t sec true cur) (concat (map (branch_lines (lit "[Branch]")) bs)) =
    Some (mkLoad (set_nodes t (l ++ [set_branches n (branches n ++ bs)])) sec' true cur').
Proof.
  intros H. revert t n sec cur. induction H as [|b bs Hb _ IH]; intros t n sec cur En Hlen.
  { exists sec, cur. rewrite app_nil_r. destruct t, n. cbn in *. by subst. }
  cbn [map concat]. rewrite load_lines_app, (load_branch t l n) by (done || (simpl in Hlen; lia)).
  cbn [mbind option_bind].
  destruct (IH (set_nodes t (l ++ [set_branches n (branches n ++ [b])])) (set_branches n (branches n ++ [b])) 4 true)
    as (sec' & cur' & E); [done| |].
  { cbn [branches set_branches]. rewrite length_app. simpl in *. lia. }
  exists sec', cur'. rewrite E. cbn [branches set_branches]. rewrite <- app_assoc. done.
Qed.

Lemma node_line_fields n :
  node_fits n →
  (n1 ← node_line (lit "Guid=" ++ guid n) zero_node;
   n2 ← node_line (lit "Name=" ++ name n) n1;
   n3 ← node_line (lit "Vhdx=" ++ snap_vhdx n) n2;
   node_line (lit "Created=" ++ dec (created n)) n3) = Some (set_branches n []).
Proof.
  intros (Hv & [_ Hg] & [_ Hn] & [_ Hp] & Hc & _). unfold node_line.
  rewrite (after_prefix_app (lit "Guid=")), wcscpy_fits by done. cbn [mbind option_bind].
  assert (after_prefix (lit "Guid=") (lit "Name=" ++ name n) = None) as -> by done.
  rewrite (after_prefix_app (lit "Name=")), wcscpy_fits by done. cbn [mbind option_bind].
  assert (after_prefix (lit "Guid=") (lit "Vhdx=" ++ snap_vhdx n) = None) as -> by done.
  assert (after_prefix (lit "Name=") (lit "Vhdx=" ++ snap_vhdx n) = None) as -> by done.
  rewrite (after_prefix_app (lit "Vhdx=")), wcscpy_fits by done. cbn [mbind option_bind].
  assert (after_prefix (lit "Guid=") (lit "Created=" ++ dec (created n)) = None) as -> by done.
  assert (after_prefix (lit "Name=") (lit "Created=" ++ dec (created n)) = None) as -> by done.
  assert (after_prefix (lit "Vhdx=") (lit "Created=" ++ dec (created n)) = None) as -> by done.
  rewrite (after_prefix_app (lit "Created=")), wcstoui64_dec by done. destruct n. cbn in *. by subst.
Qed.

Lemma load_node t n sec nd cur :
  node_fits n → Z.of_nat (length (nodes t)) < MAX_SNAPSHOTS →
  ∃ sec' cur', load_lines (mkLoad t sec nd cur) (node_lines n) =
    Some (mkLoad (set_nodes t (nodes t ++ [n])) sec' true cur').
Proof.
  intros Hn Hl. unfold node_lines. rewrite load_lines_app. cbn [load_lines].
  rewrite load_Snapshot. cbn [ls_tree]. destruct (Z.ltb_spec (Z.of_nat (length (nodes t))) MAX_SNAPSHOTS); [|lia].
  cbn [mbind option_bind]. pose proof (node_line_fields n Hn) as NF.
  destruct (node_line (lit "Guid=" ++ guid n) zero_node) as [n1|] eqn:E1; [|done]. cbn [mbind option_bind] in NF.
  destruct (node_line (lit "Name=" ++ name n) n1) as [n2|] eqn:E2; [|done]. cbn [mbind option_bind] in NF.
  destruct (node_line (lit "Vhdx=" ++ snap_vhdx n) n2) as [n3|] eqn:E3; [|done]. cbn [mbind option_bind] in NF.
  rewrite (load_line_lit _ (lit "Guid=")) by done. erewrite (load_field_node _ (nodes t)); [|reflexivity|exact E1]. cbn [mbind option_bind].
  rewrite (load_line_lit _ (lit "Name=")) by done. erewrite (load_field_node _ (nodes t)); [|reflexivity|exact E2]. cbn [mbind option_bind].
  rewrite (load_line_lit _ (lit "Vhdx=")) by done. erewrite (load_field_node _ (nodes t)); [|reflexivity|exact E3]. cbn [mbind option_bind].
  rewrite (load_line_lit _ (lit "Created=")) by done. erewrite (load_field_node _ (nodes t)); [|reflexivity|exact NF]. cbn [mbind option_bind].
  cbn [load_line mbind option_bind].
  destruct Hn as (_ & _ & _ & _ & _ & Hbl & Hbs).
  destruct (load_branches (branches n) (set_nodes t (nodes t ++ [set_branches n []])) (nodes t) (set_branches n []) 3 false)
    as (sec' & cur' & E); [done|done|done|].
  exists sec', cur'. refine (eq_trans E _). by destruct n.
Qed.

Lemma load_nodes l t sec nd cur :
  Forall node_fits l → Z.of_nat (length (nodes t) + length l) <= MAX_SNAPSHOTS →
  ∃ sec' nd' cur', load_lines (mkLoad t sec nd cur) (concat (map node_lines l)) =
    Some (mkLoad (set_nodes t (nodes t ++ l)) sec' nd' cur').
Proof.
  intros H. revert t sec nd cur. induction H as [|n l Hn _ IH]; intros t sec nd cur Hlen.
  { exists sec, nd, cur. rewrite app_nil_r. by destruct t. }
  cbn [map concat]. rewrite load_lines_app.
  destruct (load_node t n sec nd cur Hn) as (sec1 & cur1 & ->); [simpl in Hlen; lia|]. cbn [mbind option_bind].
  destruct (IH (set_nodes t (nodes t ++ [n])) sec1 true cur1) as (sec' & nd' & cur' & E).
  { cbn [nodes set_nodes]. rewrite length_app. simpl in *. lia. }
  exists sec', nd', cur'. rewrite E. cbn [nodes set_nodes]. by rewrite <- app_assoc.
Qed.

Lemma load_base_section t v :
  base_vhdx t = [] → short MAX_PATH v → head v ≠ Some 91 → v ≠ [] →
  load_lines (mkLoad t 0 false false) [lit "[Base]"; v; []] =
  Some (mkLoad (set_base_vhdx t v) 0 false false).
Proof.
  intros Eb [_ Hl] Hh Hne. cbn [load_lines].
  change (load_line (mkLoad t 0 false false) (lit "[Base]")) with (Some (mkLoad t 1 false false)).
  cbn [mbind option_bind]. destruct v as [|c v]; [done|].
  rewrite load_line_field by (intros ->; done). unfold load_field. cbn [ls_tree ls_section].
  rewrite Eb. change (1 =? 1) with true. cbn [andb]. by rewrite wcscpy_fits.
Qed.

(** The tree that saving [t] and initialising a new one from the file gives. *)
Lemma load_tree_lines t :
  tree_fits t →
  ∃ sec nd cur, load_lines (mkLoad (mkTree [] (base_dir t) [] []) 0 false false) (tree_lines t) =
    Some (mkLoad t sec nd cur).
Proof.
  intros F. unfold tree_lines. rewrite load_lines_app.
  destruct (tf_base _ F) as (Hb & Hh & Hne). rewrite load_base_section by done. cbn [mbind option_bind].
  rewrite load_lines_app. set (t1 := set_base_vhdx _ (base_vhdx t)).
  destruct (load_base_branches (base_branches t) t1 0 false false) as (sec1 & cur1 & ->); [apply F|apply F|].
  cbn [mbind option_bind].
  destruct (load_nodes (nodes t) (set_base_branches t1 (base_branches t1 ++ base_branches t)) sec1 false cur1)
    as (sec2 & nd2 & cur2 & ->); [apply F|apply F|].
  exists sec2, nd2, cur2. by destruct t.
Qed.

(** C16: a tree whose strings fit their buffers and hold no line break (and whose
    base path does not start with a bracket) is written to [tree.dat] unchanged,
    and initialising from that file gives back exactly the same tree: base disk,
    branches, snapshots, names, creation times and order. *)
Theorem snapshot_persistence t ok :
  tree_fits t →
  (∃ path, snapshot_save t true = Some (t, [WriteFile path (tree_text t)])) ∧
  snapshot_init (base_dir t) (Some (tree_text t)) ok = Some (t, []).
Proof.
  intros F. pose proof (tf_dir _ F) as Hd. unfold MAX_PATH in Hd.
  assert (Ht : tree_dat t = Some (base_dir t ++ lit "\tree.dat")).
  { apply wcscpy_fits. rewrite length_app. unfold MAX_PATH. simpl. lia. }
  assert (Hne : nodes t = [] → base_branches t = [] → False) by (destruct (tf_any _ F); auto).
  split.
  - eexists. unfold snapshot_save. rewrite Ht. cbn [mbind option_bind].
    destruct (nodes t), (base_branches t); [by destruct (Hne eq_refl eq_refl)|done..].
  - unfold snapshot_init. rewrite wcscpy_fits by (unfold MAX_PATH; lia). cbn [mbind option_bind].
    unfold snapshot_load. change (tree_dat (mkTree [] (base_dir t) [] [])) with (tree_dat t). rewrite Ht.
    cbn [mbind option_bind]. rewrite (tree_text_lines t F), (lines_unlines _ (tree_lines_good t F)).
    destruct (load_tree_lines t F) as (sec & nd & cur & ->). cbn [mbind option_bind ls_tree].
    destruct (nodes t), (base_branches t); [by destruct (Hne eq_refl eq_refl)|done..].
Qed.

Definition sample_tree : SnapshotTree :=
  mkTree
    [mkNode (lit "a1") (lit "Before update") (lit "C:\vm\snapshots\snapshot_a1.vhdx") 133500000000000000 true
       [mkBranch (lit "b1") (lit "Default Branch") (lit "C:\vm\snapshots\branch_b1.vhdx") true]]
    (lit "C:\vm\snapshots") (lit "C:\vm\disk.vhdx")
    [mkBranch (lit "b2") (lit "2026-03-21 14:30:00") (lit "C:\vm\snapshots\branch_b2.vhdx") true].

Lemma snapshot_persistence_witness :
  snapshot_init (lit "C:\vm\snapshots") (Some (tree_text sample_tree)) true = Some (sample_tree, []).
Proof.
  refine (proj2 (snapshot_persistence sample_tree true _)).
  assert (B : ∀ b, b ∈ base_branches sample_tree ∨ b ∈ concat (map branches (nodes sample_tree)) → branch_fits b).
  { intros b [Hb|Hb]; apply list_elem_of_singleton in Hb as ->; repeat split; try lit_ok; vm_compute; reflexivity. }
  split.
  - vm_compute. reflexivity.
  - split; [split; [lit_ok|vm_compute; reflexivity]|]. split; vm_compute; discriminate.
  - split; [vm_compute; discriminate|]. apply list.Forall_forall. intros b Hb. apply B. by left.
  - split; [vm_compute; discriminate|]. apply Forall_cons. split; [|constructor].
    split; [done|]. split; [split; [lit_ok|vm_compute; reflexivity]|].
    split; [split; [lit_ok|vm_compute; reflexivity]|]. split; [split; [lit_ok|vm_compute; reflexivity]|].
    split; [vm_compute; split; [discriminate|reflexivity]|]. split; [vm_compute; discriminate|].
    apply list.Forall_forall. intros b Hb. apply B. by right.
  - left. discriminate.
Defined.

(** A line break in a name is not escaped: the rest of the name is read back as
    lines of the file, here as a snapshot that was never taken. *)
Lemma newline_in_name_forges_snapshot :
  let t := mkTree [mkNode (lit "a1") (lit "x" ++ [10] ++ lit "[Snapshot]") (lit "s.vhdx") 0 true []]
             (lit "d") (lit "base.vhdx") [] in
  ∃ t', snapshot_init (lit "d") (Some (tree_text t)) true = Some (t', []) ∧ length (nodes t') = 2%nat.
Proof. eexists. split; vm_compute; reflexivity. Qed.
