(* ===== verification/SnapshotUse.v ===== *)
(** * What the snapshot operations promise their callers

    [snapshot_ensure_writable] before a boot, the lookup of the current branch,
    and what a snapshot is taken of. *)

From stdpp Require Import gmap.
From Stdlib Require Import String.
From S2P Require Import Prelude WStr Snapshot SnapshotInv.

Section use.
Context (lower : Z → Z).
Abbreviation key := (key lower).
Abbreviation intact := (intact lower).
Abbreviation on_disk := (on_disk lower).
Abbreviation legal := (legal lower).

(** ** Booting *)

(** The disks that must not be written: parents of other disks. *)
Lemma tree_disks_parent t c p :
  (c, p) ∈ tree_disks t →
  (p = base_vhdx t ∧ (nodes t ≠ [] ∨ base_branches t ≠ [])) ∨ ∃ n, n ∈ nodes t ∧ p = snap_vhdx n.
Proof.
  intros [H|H]%elem_of_app.
  - apply list_elem_of_fmap in H as (b & [= -> ->] & Hb). left. split; [done|]. right.
    intros E. rewrite E in Hb. by apply not_elem_of_nil in Hb.
  - apply list_elem_of_In, in_concat in H as (l & Hl & H). apply in_map_iff in Hl as (n & <- & Hn).
    apply list_elem_of_In in Hn, H. apply elem_of_cons in H as [[= -> ->]|H].
    + left. split; [done|]. left. intros E. rewrite E in Hn. by apply not_elem_of_nil in Hn.
    + apply list_elem_of_fmap in H as (b & [= -> ->] & Hb). right. by exists n.
Qed.

Lemma frozen_index_None p l k :
  frozen_index lower p l k = None → ∀ n, n ∈ l → valid n = true → key (snap_vhdx n) ≠ key p.
Proof.
  revert k. induction l as [|x l IH]; intros k H n Hn Hv E; [by apply not_elem_of_nil in Hn|].
  cbn [frozen_index] in H. destruct (valid x && same_path lower p (snap_vhdx x)) eqn:Ex; [done|].
  apply elem_of_cons in Hn as [->|Hn]; [|by eapply IH].
  rewrite Hv in Ex. cbn [andb] in Ex. symmetry in E. apply same_path_key in E. congruence.
Qed.

(** The snapshots' disks are not changed by adding a branch. *)
Lemma put_branch_list_snaps t index bs :
  map snap_vhdx (nodes (put_branch_list t index bs)) = map snap_vhdx (nodes t).
Proof. unfold put_branch_list. bcase; [done|]. cbn [nodes set_nodes]. by apply map_alter. Qed.

Lemma get_branch_list_put t index bs parent b :
  get_branch_list t index = Some (bs, parent) →
  nodes (put_branch_list t index (bs ++ [b])) ≠ [] ∨ base_branches (put_branch_list t index (bs ++ [b])) ≠ [].
Proof.
  unfold get_branch_list, put_branch_list. destruct (index =? -2).
  - intros [= <- <-]. right. cbn. by destruct (base_branches t).
  - unfold node_at. destruct (_ && _); [|done].
    destruct (nodes t !! Z.to_nat index) as [n|] eqn:En; [|done]. intros _. left. cbn.
    intros E. apply (f_equal length) in E. rewrite length_alter in E. apply lookup_lt_Some in En. simpl in E. lia.
Qed.

Lemma save_keeps_tree t ok t' e :
  snapshot_save t ok = Some (t', e) → nodes t ≠ [] ∨ base_branches t ≠ [] → t' = t.
Proof.
  unfold snapshot_save. destruct (tree_dat t); [|done]. cbn [mbind option_bind].
  destruct (nodes t), (base_branches t), ok; intros [= <- _]; try done; intros [?|?]; done.
Qed.

Lemma snap_disk_exists t fs n :
  intact t fs → n ∈ nodes t → is_Some (fs !! key (snap_vhdx n)).
Proof.
  intros I Hn. eapply (disk_exists lower t fs _ (base_vhdx t) I). apply elem_of_app. right.
  apply list_elem_of_In, in_concat. exists (node_disks (base_vhdx t) n).
  split; [by apply in_map, list_elem_of_In|by left].
Qed.

(** The disk a new branch puts the instance on is a leaf. *)
Lemma new_branch_leaf t i index g hr0 now ok hr t' i' e fs del :
  intact t fs → snapshot_new_branch t i index g hr0 now ok = Some (hr, t', i', e) →
  FAILED hr = false → legal del fs e →
  ∀ c p, (c, p) ∈ tree_disks t' → key p ≠ key (i_vhdx_path i').
Proof.
  intros I H Hhr. unfold snapshot_new_branch in H.
  destruct (base_vhdx t) as [|c0 base] eqn:Ebase; [injection H as <- <- <- <-; done|].
  assert (Hb : base_vhdx t ≠ []) by (by rewrite Ebase).
  destruct (get_branch_list t index) as [[bs parent]|] eqn:Eg; [|injection H as <- <- <- <-; done].
  destruct (_ <=? _); [injection H as <- <- <- <-; done|].
  obind H bp Ebp. destruct (FAILED hr0) eqn:Ehr0; [injection H as <- <- <- <-; congruence|].
  obind H gs Egs. obind H nm Enm. obind H te Es. destruct te as [t3 e3]. injection H as <- <- <- <-.
  cbn [SnapshotInv.legal]. intros [Hfresh _] c p Hd. specialize (Hfresh Ehr0). cbn [i_vhdx_path set_path].
  rewrite (save_keeps_tree _ _ _ _ Es (get_branch_list_put _ _ _ _ _ Eg)) in Hd.
  intros E. apply tree_disks_parent in Hd as [[-> _]|(n & Hn & ->)].
  - rewrite (proj1 (put_branch_list_base _ _ _)) in E. destruct (it_base_disk _ _ _ I Hb) as [x Hx].
    rewrite E in Hx. congruence.
  - apply (list_elem_of_fmap_2 snap_vhdx) in Hn. change (snap_vhdx <$> ?l) with (map snap_vhdx l) in Hn.
    rewrite put_branch_list_snaps in Hn. apply list_elem_of_fmap in Hn as (n0 & E0 & Hn0).
    destruct (snap_disk_exists _ _ _ I Hn0) as [x Hx]. rewrite <- E0, E in Hx. congruence.
Qed.

Lemma ensure_writable_leaf t i g hr0 now ok hr t' i' e fs del :
  intact t fs → snapshot_ensure_writable lower t i g hr0 now ok = Some (hr, t', i', e) →
  FAILED hr = false → legal del fs e →
  ∀ c p, (c, p) ∈ tree_disks t' → key p ≠ key (i_vhdx_path i').
Proof.
  intros I H Hhr L. unfold snapshot_ensure_writable in H.
  destruct (running i); [injection H as <- <- <- <-; done|].
  destruct (_ && _ && _) eqn:Ebase; [by eapply new_branch_leaf|].
  destruct (frozen_index lower (i_vhdx_path i) (nodes t) 0) as [k|] eqn:Ef; [by eapply new_branch_leaf|].
  injection H as <- <- <- <-. intros c p Hd E. pose proof Hd as Hd'.
  apply tree_disks_parent in Hd' as [[-> Hany]|(n & Hn & ->)].
  - assert (Hb : base_vhdx t ≠ []).
    { intros Eb. destruct (it_base _ _ _ I Eb) as [En Ebb]. by destruct Hany as [Hn|Hn]. }
    symmetry in E. apply same_path_key in E. rewrite E, andb_true_r in Ebase.
    rewrite (bool_decide_false (base_vhdx t = [])), andb_true_r in Ebase by done.
    apply orb_false_iff in Ebase as [E1 E2]. zbool.
    apply bool_decide_eq_true in E1, E2. destruct Hany; done.
  - eapply frozen_index_None; [exact Ef|exact Hn| |done].
    by destruct (proj1 (list.Forall_forall _ _) (it_nodes _ _ _ I) n Hn).
Qed.

(** ** The current branch *)

Abbreviation bkeys l := (map (λ b, key (vhdx_path b)) l).

Lemma find_branch_None p l j : key p ∉ bkeys l → find_branch lower p l j = None.
Proof.
  revert j. induction l as [|b l IH]; intros j Hn; [done|]. cbn [find_branch map] in *.
  apply not_elem_of_cons in Hn as [Hb Hn]. destruct (b_valid b && _) eqn:E; [|by apply IH].
  zbool. apply same_path_key in H0. done.
Qed.

Lemma find_branch_self l j k b :
  NoDup (bkeys l) → all_valid l → l !! k = Some b →
  find_branch lower (vhdx_path b) l j = Some (j + Z.of_nat k).
Proof.
  revert j k. induction l as [|x l IH]; intros j k Hnd Hv Hk; [done|].
  cbn [map] in Hnd. apply list.NoDup_cons in Hnd as [Hni Hnd]. apply Forall_cons in Hv as [Hx Hv].
  cbn [find_branch]. destruct k as [|k].
  - injection Hk as ->. rewrite Hx, (proj2 (same_path_key lower (vhdx_path b) (vhdx_path b)) eq_refl).
    cbn [andb]. f_equal. lia.
  - cbn in Hk. destruct (b_valid x && same_path lower (vhdx_path b) (vhdx_path x)) eqn:E.
    + zbool. apply same_path_key in H0. destruct Hni. rewrite <- H0.
      apply list_elem_of_lookup_2 in Hk. by apply (list_elem_of_fmap_2 (λ b, key (vhdx_path b))).
    + rewrite (IH _ _ Hnd Hv Hk). f_equal. lia.
Qed.

Lemma find_branch_Some p l j r :
  find_branch lower p l j = Some r →
  ∃ k b, r = j + Z.of_nat k ∧ l !! k = Some b ∧ b_valid b = true ∧ key (vhdx_path b) = key p.
Proof.
  revert j. induction l as [|x l IH]; intros j; [done|]. cbn [find_branch].
  destruct (b_valid x && same_path lower p (vhdx_path x)) eqn:E.
  - intros [= <-]. zbool. apply same_path_key in H0. exists 0%nat, x. split_and!; [lia|done|done|done].
  - intros (k & b & -> & ? & ? & ?)%IH. exists (S k), b. split_and!; [lia|done|done|done].
Qed.

(** The keys of a node: its frozen disk and its branches. *)
Definition nkeys (n : SnapNode) : list wstr := key (snap_vhdx n) :: bkeys (branches n).

Lemma tree_keys t :
  map key (map fst (tree_disks t)) = bkeys (base_branches t) ++ concat (map nkeys (nodes t)).
Proof.
  unfold tree_disks, branch_disks. rewrite !map_app, !map_map. f_equal.
  induction (nodes t) as [|n l IH]; [done|]. cbn [map concat]. rewrite !map_app, IH. f_equal.
  unfold node_disks, branch_disks. cbn [map fst]. by rewrite !map_map.
Qed.

Lemma find_in_nodes_self l j k m n b :
  NoDup (concat (map nkeys l)) → Forall (λ n, valid n = true ∧ all_valid (branches n)) l →
  l !! k = Some n → branches n !! m = Some b →
  find_in_nodes lower (vhdx_path b) l j = Some (j + Z.of_nat k, Z.of_nat m).
Proof.
  revert j k. induction l as [|x l IH]; intros j k Hnd Hv Hk Hm; [done|].
  cbn [map concat] in Hnd. apply list.NoDup_app in Hnd as (Hx & Hdisj & Hnd).
  apply Forall_cons in Hv as [[Hvx Hvb] Hv]. cbn [find_in_nodes]. rewrite Hvx. destruct k as [|k].
  - injection Hk as ->. apply list.NoDup_cons in Hx as [_ Hx].
    rewrite (find_branch_self _ 0 m b Hx Hvb Hm). do 2 f_equal; lia.
  - cbn in Hk. rewrite find_branch_None.
    + rewrite (IH _ _ Hnd Hv Hk Hm). do 2 f_equal; lia.
    + intros Hin. apply (Hdisj (key (vhdx_path b))); [by right|].
      apply list_elem_of_In, in_concat. exists (nkeys n). split.
      * apply in_map, list_elem_of_In. by eapply list_elem_of_lookup_2.
      * apply list_elem_of_In. right. apply list_elem_of_lookup_2 in Hm.
        by apply (list_elem_of_fmap_2 (λ b, key (vhdx_path b))).
Qed.

Lemma find_in_nodes_Some p l j r :
  find_in_nodes lower p l j = Some r →
  ∃ k m n b, r = (j + Z.of_nat k, Z.of_nat m) ∧ l !! k = Some n ∧ valid n = true ∧
    branches n !! m = Some b ∧ b_valid b = true ∧ key (vhdx_path b) = key p.
Proof.
  revert j. induction l as [|x l IH]; intros j; [done|]. cbn [find_in_nodes].
  assert (R : find_in_nodes lower p l (j + 1) = Some r → ∃ k m n b, r = (j + Z.of_nat k, Z.of_nat m) ∧
    (x :: l) !! k = Some n ∧ valid n = true ∧ branches n !! m = Some b ∧ b_valid b = true ∧ key (vhdx_path b) = key p).
  { intros (k & m & n & b & -> & ? & ?)%IH. exists (S k), m, n, b. split; [f_equal; lia|done]. }
  destruct (valid x) eqn:Ev; [|exact R].
  destruct (find_branch lower p (branches x) 0) as [m'|] eqn:E; [|exact R].
  intros [= <-]. apply find_branch_Some in E as (m & b & -> & ? & ? & ?).
  exists 0%nat, m, x, b. split; [f_equal; lia|done].
Qed.

Lemma intact_keys t fs :
  intact t fs →
  NoDup (bkeys (base_branches t)) ∧ NoDup (concat (map nkeys (nodes t))) ∧
  (∀ k, k ∈ bkeys (base_branches t) → k ∉ concat (map nkeys (nodes t))) ∧
  Forall (λ n, valid n = true ∧ all_valid (branches n)) (nodes t).
Proof.
  intros I. pose proof (it_nodup _ _ _ I) as ND. cbn [map] in ND. apply list.NoDup_cons in ND as [_ ND].
  rewrite tree_keys in ND. apply list.NoDup_app in ND as (N1 & Hd & N2). split_and!; [done|done|done|].
  eapply list.Forall_impl; [apply (it_nodes _ _ _ I)|]. simpl. intros n (? & _ & ?). done.
Qed.

Lemma find_current_self t fs index k bs parent b :
  intact t fs → get_branch_list t index = Some (bs, parent) → branch_at bs k = Some b →
  snapshot_find_current lower t (vhdx_path b) = (index, k).
Proof.
  intros I Hg Hb. destruct (intact_keys _ _ I) as (N1 & N2 & Hd & Hv).
  pose proof (branch_at_elem _ _ _ Hb) as [Hk Hk0].
  assert (Hne : vhdx_path b ≠ []).
  { intros E. destruct (disk_exists lower t fs (vhdx_path b) parent I) as [x Hx].
    - eapply branch_in_disks; [exact Hg|]. by eapply list_elem_of_lookup_2.
    - rewrite E in Hx. pose proof (it_named _ _ _ I). simpl in *. congruence. }
  unfold snapshot_find_current. destruct (vhdx_path b) as [|c p] eqn:Ep; [done|]. rewrite <- Ep.
  unfold get_branch_list, node_at in Hg. destruct (index =? -2) eqn:E2.
  - injection Hg as <- <-. zbool. subst index.
    rewrite (find_branch_self _ 0 _ _ N1 (proj2 (it_base_branches _ _ _ I)) Hk). f_equal. lia.
  - destruct (_ && _) eqn:Er; [|done]. destruct (nodes t !! Z.to_nat index) as [n|] eqn:En; [|done].
    destruct (valid n) eqn:Evn; [|done]. injection Hg as <- <-. zbool.
    rewrite find_branch_None.
    + rewrite (find_in_nodes_self _ 0 _ _ n b N2 Hv En Hk). f_equal; lia.
    + intros Hin. apply (Hd _ Hin). apply list_elem_of_In, in_concat. exists (nkeys n). split.
      * apply in_map, list_elem_of_In. by eapply list_elem_of_lookup_2.
      * apply list_elem_of_In. right. apply list_elem_of_lookup_2 in Hk.
        by apply (list_elem_of_fmap_2 (λ b, key (vhdx_path b))).
Qed.

(** What a located branch is. *)
Lemma find_current_sound t p index k :
  snapshot_find_current lower t p = (index, k) → index ≠ -1 →
  ∃ bs parent b, get_branch_list t index = Some (bs, parent) ∧ branch_at bs k = Some b ∧
    key (vhdx_path b) = key p.
Proof.
  unfold snapshot_find_current. destruct p as [|c p]; [by intros [= <- <-]|].
  destruct (find_branch lower (c :: p) (base_branches t) 0) as [r|] eqn:E1.
  - intros [= <- <-] _. apply find_branch_Some in E1 as (m & b & -> & Hm & Hv & Hkey).
    exists (base_branches t), (base_vhdx t), b. split_and!; [done| |done].
    unfold branch_at. apply lookup_lt_Some in Hm as Hl. bcase; [lia|].
    rewrite Z.add_0_l, Nat2Z.id, Hm, Hv. done.
  - destruct (find_in_nodes lower (c :: p) (nodes t) 0) as [r|] eqn:E2; [|by intros [= <- <-]].
    intros -> _. apply find_in_nodes_Some in E2 as (i & m & n & b & [= -> ->] & Hi & Hvn & Hm & Hv & Hkey).
    exists (branches n), (snap_vhdx n), b. split_and!; [| |done].
    + unfold get_branch_list, node_at. apply lookup_lt_Some in Hi as Hl.
      destruct (Z.eqb_spec (0 + Z.of_nat i) (-2)); [lia|].
      destruct (Z.leb_spec 0 (0 + Z.of_nat i)); [|lia].
      destruct (Z.ltb_spec (0 + Z.of_nat i) (Z.of_nat (length (nodes t)))); [|lia].
      cbn [andb]. rewrite Z.add_0_l, Nat2Z.id, Hi, Hvn. done.
    + unfold branch_at. apply lookup_lt_Some in Hm as Hl. bcase; [lia|]. rewrite Nat2Z.id, Hm, Hv. done.
Qed.
End use.

(** C15: when [snapshot_ensure_writable] succeeds before a boot, the disk the
    instance is on is no other disk's parent: neither the base once snapshots or
    branches exist, nor a snapshot's frozen disk, so that booting cannot corrupt
    the disks built on it; it leaves the tree consistent, and changes nothing
    when the disk was writable already. *)
Theorem ensure_writable_safe lower t i g hr0 now ok hr t' i' e fs del :
  intact lower t fs → on_disk lower i fs →
  snapshot_ensure_writable lower t i g hr0 now ok = Some (hr, t', i', e) →
  FAILED hr = false → legal lower del fs e →
  (∀ c p, (c, p) ∈ tree_disks t' → key lower p ≠ key lower (i_vhdx_path i')) ∧
  intact lower t' (apply_effects lower del fs e) ∧ on_disk lower i' (apply_effects lower del fs e) ∧
  (hr = S_FALSE → t' = t ∧ i' = i ∧ e = []).
Proof.
  intros I Hi H Hhr L. split; [by eapply ensure_writable_leaf|].
  destruct (ensure_writable_keeps lower _ _ _ _ _ _ _ _ del I Hi H L) as [? ?]. split_and!; [done|done|].
  intros ->. unfold snapshot_ensure_writable in H. destruct (running i); [done|].
  assert (N : ∀ k, snapshot_new_branch t i k g hr0 now ok = Some (S_FALSE, t', i', e) → False).
  { intros k Hk. unfold snapshot_new_branch in Hk. destruct (base_vhdx t); [done|].
    destruct (get_branch_list t k) as [[bs parent]|]; [|done]. destruct (_ <=? _); [done|].
    obind Hk bp Ebp. destruct (FAILED hr0) eqn:E0; [by injection Hk as -> _ _ _|].
    obind Hk gs Egs. obind Hk nm Enm. obind Hk te Es. by destruct te. }
  destruct (_ && _ && _); [by destruct (N (-2))|].
  destruct (frozen_index _ _ _ _) as [k|]; [by destruct (N k)|]. by injection H as <- <- <-.
Qed.

(** C17: in a consistent tree [snapshot_find_current] finds the branch an existing
    branch's disk belongs to, and only such a branch; so after
    [snapshot_select_branch] puts an instance on a branch, the lookup gives back
    exactly the indices it was selected by. *)
Theorem find_current_correct lower t fs :
  intact lower t fs →
  (∀ i index k t' i' e,
     snapshot_select_branch t i index k = Some (S_OK, t', i', e) →
     snapshot_find_current lower t (i_vhdx_path i') = (index, k)) ∧
  (∀ p index k, snapshot_find_current lower t p = (index, k) → index ≠ -1 →
     ∃ bs parent b, get_branch_list t index = Some (bs, parent) ∧ branch_at bs k = Some b ∧
       key lower (vhdx_path b) = key lower p) ∧
  (∀ p, (∀ index bs parent k b, get_branch_list t index = Some (bs, parent) → branch_at bs k = Some b →
           key lower (vhdx_path b) ≠ key lower p) →
     (snapshot_find_current lower t p).1 = -1).
Proof.
  intros I. split_and!.
  - intros i index k t' i' e H. unfold snapshot_select_branch in H.
    destruct (get_branch_list t index) as [[bs parent]|] eqn:Eg; [|done].
    destruct (branch_at bs k) as [b|] eqn:Eb; [|done].
    obind H p Ep. apply wcscpy_Some in Ep as ->. injection H as <- <- <-.
    by eapply find_current_self.
  - intros p index k. apply find_current_sound.
  - intros p Hnone. destruct (snapshot_find_current lower t p) as [index k] eqn:E.
    destruct (decide (index = -1)) as [->|Hne]; [done|]. exfalso.
    apply find_current_sound in E as (bs & parent & b & Hg & Hb & Hk); [|done]. by eapply Hnone.
Qed.

(** C18: on success [snapshot_take] appends one snapshot with one branch and puts
    the instance on it; the snapshot's disk is created on the base disk, which is
    the instance's disk only the first time: once the base is known, the disks
    created and the tree do not depend on the disk the instance is on, so a
    snapshot taken on a branch does not hold that branch's state. *)
Theorem snapshot_take_forks_base t i nm g1 g2 hr1 hr2 now ok hr t' i' e :
  snapshot_take t i nm g1 g2 hr1 hr2 now ok = Some (hr, t', i', e) → hr = S_OK → hr1 = S_OK → hr2 = S_OK →
  (∃ n b, nodes t' = nodes t ++ [n] ∧ name n = nm ∧ branches n = [b] ∧ i_vhdx_path i' = vhdx_path b ∧
     base_vhdx t' = (if bool_decide (base_vhdx t = []) then i_vhdx_path i else base_vhdx t) ∧
     take 2 e = [CreateDifferencing (snap_vhdx n) (base_vhdx t') S_OK;
                 CreateDifferencing (vhdx_path b) (snap_vhdx n) S_OK]) ∧
  (base_vhdx t ≠ [] → ∀ j, running j = running i →
     ∃ j', snapshot_take t j nm g1 g2 hr1 hr2 now ok = Some (hr, t', j', e)).
Proof.
  intros H -> -> ->. split.
  - unfold snapshot_take in H. destruct (_ <=? _); [done|]. destruct (running i); [done|].
    obind H t1 Et1.
    assert (E1 : nodes t1 = nodes t ∧ base_vhdx t1 = (if bool_decide (base_vhdx t = []) then i_vhdx_path i else base_vhdx t)).
    { destruct (base_vhdx t) as [|c b] eqn:Eb; [|by injection Et1 as <-].
      obind Et1 p Ep. apply wcscpy_Some in Ep as ->. by injection Et1 as <-. }
    clear Et1. destruct E1 as [En Ebv]. obind H vp Evp. cbn [FAILED S_OK Z.ltb Z.compare] in H.
    obind H bp Ebp. obind H sg Esg. obind H nm' Enm. obind H bg Ebg. obind H te Es. destruct te as [t3 e3].
    injection H as <- <- <-. apply wcscpy_Some in Enm as ->.
    apply save_keeps_tree in Es as ->; [|left; cbn; by destruct (nodes t1)].
    eexists _, _. cbn [nodes set_nodes base_vhdx branches name snap_vhdx vhdx_path i_vhdx_path set_path take].
    rewrite En. split_and!; [reflexivity|done|done|done|done|]. done.
  - intros Hb j Hj. unfold snapshot_take in *. destruct (base_vhdx t) as [|c b]; [done|].
    destruct (_ <=? _); [done|]. rewrite Hj. destruct (running i); [done|].
    cbn [mbind option_bind] in *. obind H vp Evp. cbn [FAILED S_OK Z.ltb Z.compare] in *.
    obind H bp Ebp. obind H sg Esg. obind H nm' Enm. obind H bg Ebg. obind H te Es. destruct te as [t3 e3].
    injection H as <- <- <-. cbn [mbind option_bind]. rewrite ?Es. eexists. reflexivity.
Qed.

(** ** Concrete uses *)

Definition noon : SYSTEMTIME := mkTime 2026 3 21 12 0 0.

(** An instance on the frozen base is moved to a new branch before it boots. *)
Lemma ensure_writable_safe_witness :
  ∃ t' i' e, snapshot_ensure_writable (λ c, c) taken_tree (mkInstance vm_disk false) (guid_of 3) S_OK noon true
      = Some (S_OK, t', i', e) ∧
    ∀ c p, (c, p) ∈ tree_disks t' → key (λ c, c) p ≠ key (λ c, c) (i_vhdx_path i').
Proof.
  eexists _, _, _. split; [vm_compute; reflexivity|].
  refine (proj1 (ensure_writable_safe (λ c, c) taken_tree (mkInstance vm_disk false) (guid_of 3) S_OK noon true
    S_OK _ _ _ taken_fs (λ _, true) (proj1 taken_consistent) _ _ eq_refl _)).
  - exists []. vm_compute. reflexivity.
  - vm_compute. reflexivity.
  - vm_compute. repeat split; intros; reflexivity.
Defined.

Lemma find_current_correct_witness :
  snapshot_find_current (λ c, c) taken_tree taken_path = (0, 0).
Proof.
  refine (proj1 (find_current_correct (λ c, c) taken_tree taken_fs (proj1 taken_consistent))
    (mkInstance vm_disk false) 0 0 taken_tree (mkInstance taken_path false) [] _).
  vm_compute. reflexivity.
Defined.

Lemma snapshot_take_forks_base_witness :
  ∃ j', snapshot_take taken_tree (mkInstance vm_disk false) (lit "second") (guid_of 4) (guid_of 5) S_OK S_OK 9 true
    = Some (S_OK, (match snapshot_take taken_tree (mkInstance taken_path false) (lit "second") (guid_of 4) (guid_of 5) S_OK S_OK 9 true
                   with Some (_, t', _, _) => t' | None => taken_tree end), j',
            (match snapshot_take taken_tree (mkInstance taken_path false) (lit "second") (guid_of 4) (guid_of 5) S_OK S_OK 9 true
             with Some (_, _, _, e) => e | None => [] end)).
Proof.
  refine (proj2 (snapshot_take_forks_base taken_tree (mkInstance taken_path false) (lit "second") (guid_of 4) (guid_of 5)
    S_OK S_OK 9 true S_OK _ (mkInstance (vm_dir ++ lit "\branch_" ++ generate_guid_string (guid_of 5) ++ lit ".vhdx") false)
    _ _ eq_refl eq_refl eq_refl) _ (mkInstance vm_disk false) eq_refl).
  - vm_compute. reflexivity.
  - vm_compute. discriminate.
Defined.
