(* ===== verification/BlockIO.v ===== *)
(** * Raw image block I/O ([src/tools/iso-patch-mac/engine/blockio.c])

    All authoring writes of the disk builder go through a coalescing buffer in
    front of the image file.  The file is a byte map with an end of file; each
    [pwrite], [pread] or [fsync] consumes one answer of the system: a byte
    count, an interruption, or a failure.  An operation returns [None] when the
    list of answers ends inside it, i.e. when the system has not yet answered
    its last call. *)

From S2P Require Import Prelude Bytes.

Definition COAL_CAP : Z := 16 * 1024 * 1024.

(** ** The file *)

Inductive answer :=
| Count (n : Z)     (* a call that transferred up to [n] bytes *)
| Eintr
| Failed.

Record file := mkFile { fdata : mem; fsize : Z }.

(** Bytes past the end of the file read as zero (a hole, once it is extended). *)
Definition file_ok (f : file) : Prop := 0 <= fsize f ∧ ∀ x, fsize f <= x → fdata f x = 0.

(** What [pwrite] stores when it accepts [bs] at [off]. *)
Definition file_put (f : file) (off : Z) (bs : list Z) : file :=
  mkFile (mwrite (fdata f) off bs) (fsize f `max` (off + Z.of_nat (length bs))).

Definition OFF_MAX : Z := 9223372036854775808.

(** [pwrite]: never more than asked, an invalid (negative) [off_t] fails. *)
Definition sys_pwrite (a : answer) (f : file) (off : Z) (bs : list Z) : answer * file :=
  if i64 off <? 0 then (Failed, f) else
  match a with
  | Count n =>
      let n' := n `min` Z.of_nat (length bs) in
      if n' <=? 0 then (Count 0, f) else (Count n', file_put f (i64 off) (take (Z.to_nat n') bs))
  | _ => (a, f)
  end.

(** [pread]: never more than asked nor than the file holds past [off]; 0 only
    at or after the end of the file. *)
Definition sys_pread (a : answer) (f : file) (off len : Z) : answer * list Z :=
  if i64 off <? 0 then (Failed, []) else
  match a with
  | Count n =>
      let n' := ((1 `max` n) `min` len) `min` (fsize f - i64 off) in
      if n' <=? 0 then (Count 0, []) else (Count n', mread (fdata f) (i64 off) (Z.to_nat n'))
  | _ => (a, [])
  end.

(** ** [pwrite_full], [pread_full] *)

Fixpoint pwrite_full (ans : list answer) (f : file) (buf : list Z) (off : Z) : option (Z * file * list answer) :=
  if Z.of_nat (length buf) =? 0 then Some (0, f, ans) else
  match ans with
  | [] => None
  | a :: ans' =>
      match sys_pwrite a f off buf with
      | (Count n, f') =>
          if 0 <? n then pwrite_full ans' f' (drop (Z.to_nat n) buf) (u64 (off + n))
          else Some (-1, f', ans')
      | (Eintr, f') => pwrite_full ans' f' buf off
      | (Failed, f') => Some (-1, f', ans')
      end
  end.

Fixpoint pread_full (ans : list answer) (f : file) (len off : Z) : option (Z * list Z * list answer) :=
  if len =? 0 then Some (0, [], ans) else
  match ans with
  | [] => None
  | a :: ans' =>
      match sys_pread a f off len with
      | (Count n, bs) =>
          if 0 <? n then
            '(rc, rest, an) ← pread_full ans' f (len - n) (u64 (off + n)); Some (rc, bs ++ rest, an)
          else Some (0, replicate (Z.to_nat len) 0, ans')
      | (Eintr, _) => pread_full ans' f len off
      | (Failed, _) => Some (-1, [], ans')
      end
  end.

(** ** [struct blockio] *)

Record blockio := mkBlockio {
  bfile : file;          (* what [fd] refers to *)
  bsize : Z;             (* [size] *)
  coal : list Z;         (* [coal[0 .. coal_len)] *)
  coal_off : Z;
  coal_active : bool;
  bytes_in : Z;
  bytes_flushed : Z;
  flush_calls : Z;
}.

Definition coal_len (io : blockio) : Z := Z.of_nat (length (coal io)).

Definition io_alloc (malloced : bool) (fd : file) (size : Z) : option blockio :=
  if malloced then Some (mkBlockio fd size [] 0 false 0 0 0) else None.

(** [O_TRUNC] then [ftruncate]: all holes. *)
Definition blockio_create (opened truncated malloced : bool) (size_bytes : Z) : option blockio :=
  if negb opened then None else
  if (i64 size_bytes <? 0) || negb truncated then None else
  io_alloc malloced (mkFile (λ _, 0) size_bytes) size_bytes.

Definition blockio_open (opened : option file) (stated malloced : bool) : option blockio :=
  f ← opened; if stated then io_alloc malloced f (fsize f) else None.

Definition idle (f : file) (io : blockio) (flushed calls : Z) : blockio :=
  mkBlockio f (bsize io) [] (coal_off io) false (bytes_in io) flushed calls.

Definition io_flush (ans : list answer) (io : blockio) : option (Z * blockio * list answer) :=
  if negb (coal_active io) || (coal_len io =? 0) then
    Some (0, idle (bfile io) io (bytes_flushed io) (flush_calls io), ans)
  else
    '(rc, f, ans') ← pwrite_full ans (bfile io) (coal io) (coal_off io);
    Some (rc, idle f io (u64 (bytes_flushed io + coal_len io)) (u64 (flush_calls io + 1)), ans').

Definition append (io : blockio) (bs : list Z) : blockio :=
  mkBlockio (bfile io) (bsize io) (coal io ++ bs) (coal_off io) (coal_active io)
    (bytes_in io) (bytes_flushed io) (flush_calls io).

Definition activate (io : blockio) (off : Z) : blockio :=
  mkBlockio (bfile io) (bsize io) (coal io) off true
    (bytes_in io) (bytes_flushed io) (flush_calls io).

(** The loop of [blockio_write]. *)
Fixpoint write_loop (fuel : nat) (ans : list answer) (io : blockio) (off : Z) (src : list Z) :
    option (Z * blockio * list answer) :=
  let len := Z.of_nat (length src) in
  if negb (0 <? len) then Some (0, io, ans) else
  match fuel with
  | O => None
  | S fuel' =>
      if coal_active io && (off =? u64 (coal_off io + coal_len io)) then
        let room := COAL_CAP - coal_len io in
        let chunk := if len <? room then len else room in
        let io1 := append io (take (Z.to_nat chunk) src) in
        let src1 := drop (Z.to_nat chunk) src in
        let off1 := u64 (off + chunk) in
        if coal_len io1 =? COAL_CAP then
          '(rc, io2, ans2) ← io_flush ans io1;
          if negb (rc =? 0) then Some (-1, io2, ans2) else write_loop fuel' ans2 io2 off1 src1
        else write_loop fuel' ans io1 off1 src1
      else
        '(rc, io2, ans2) ← io_flush ans io;
        if negb (rc =? 0) then Some (-1, io2, ans2) else write_loop fuel' ans2 (activate io2 off) off src
  end.

Definition count_in (io : blockio) (len : Z) : blockio :=
  mkBlockio (bfile io) (bsize io) (coal io) (coal_off io) (coal_active io)
    (u64 (bytes_in io + len)) (bytes_flushed io) (flush_calls io).

(** Each byte costs at most one round that activates and one that copies. *)
Definition write_fuel (src : list Z) : nat := 2 * length src + 1.

Definition blockio_write (ans : list answer) (io : blockio) (off : Z) (buf : list Z) :
    option (Z * blockio * list answer) :=
  write_loop (write_fuel buf) ans (count_in io (Z.of_nat (length buf))) off buf.

Definition blockio_pwrite (ans : list answer) (io : blockio) (off : Z) (buf : list Z) :
    option (Z * blockio * list answer) :=
  '(rc, f, ans') ← pwrite_full ans (bfile io) buf off;
  Some (rc, mkBlockio f (bsize io) (coal io) (coal_off io) (coal_active io)
    (bytes_in io) (bytes_flushed io) (flush_calls io), ans').

Definition ZEROS : Z := 65536.

Fixpoint zero_loop (fuel : nat) (ans : list answer) (io : blockio) (off n : Z) :
    option (Z * blockio * list answer) :=
  if negb (0 <? n) then Some (0, io, ans) else
  match fuel with
  | O => None
  | S fuel' =>
      let chunk := if ZEROS <? n then ZEROS else n in
      '(rc, io1, ans1) ← blockio_write ans io off (replicate (Z.to_nat chunk) 0);
      if negb (rc =? 0) then Some (-1, io1, ans1) else
      zero_loop fuel' ans1 io1 (u64 (off + chunk)) (n - chunk)
  end.

Definition zero_fuel (n : Z) : nat := Z.to_nat (n / ZEROS + 1).

Definition blockio_zero (ans : list answer) (io : blockio) (off n : Z) :
    option (Z * blockio * list answer) := zero_loop (zero_fuel n) ans io off n.

Definition blockio_read (ans : list answer) (io : blockio) (off len : Z) :
    option (Z * list Z * blockio * list answer) :=
  '(rc, io1, ans1) ← io_flush ans io;
  if negb (rc =? 0) then Some (-1, [], io1, ans1) else
  '(rc, bs, ans2) ← pread_full ans1 (bfile io1) len off; Some (rc, bs, io1, ans2).

Definition blockio_flush := io_flush.
Definition blockio_size (io : blockio) : Z := bsize io.

(** The result and the file left behind once [fd] is closed. *)
Definition blockio_close (ans : list answer) (io : blockio) : option (Z * file * list answer) :=
  '(rc, io1, ans1) ← io_flush ans io;
  match ans1 with
  | [] => None
  | a :: ans2 =>
      let rc' := match a with Count _ => rc | _ => -1 end in Some (rc', bfile io1, ans2)
  end.

(** ** What is on the disk *)

(** The logical content: the file under the pending bytes. *)
Definition view (io : blockio) : mem := mwrite (fdata (bfile io)) (coal_off io) (coal io).

Definition io_wf (io : blockio) : Prop :=
  file_ok (bfile io) ∧ 0 <= coal_off io ∧ coal_off io + coal_len io <= OFF_MAX ∧
  coal_len io < COAL_CAP ∧ (coal_active io = false → coal io = []).

(** [f'] is [f] after [bs] was stored at [off]; the file grows only if needed. *)
Definition put_rel (f : file) (off : Z) (bs : list Z) (f' : file) : Prop :=
  fdata f' ≡m mwrite (fdata f) off bs ∧
  fsize f <= fsize f' <= fsize f `max` (off + Z.of_nat (length bs)) ∧ file_ok f'.

Lemma put_rel_nil f off : file_ok f → put_rel f off [] f.
Proof. intros H. split; [symmetry; apply mwrite_nil|]. simpl. split; [lia|done]. Qed.

Lemma put_rel_app f off b1 f1 b2 f2 :
  put_rel f off b1 f1 → put_rel f1 (off + Z.of_nat (length b1)) b2 f2 →
  put_rel f off (b1 ++ b2) f2.
Proof.
  intros (E1 & S1 & _) (E2 & S2 & O2). split; [|rewrite length_app; split; [lia|done]].
  etransitivity; [exact E2|]. rewrite E1. apply mwrite_app.
Qed.

Lemma file_put_rel f off bs :
  file_ok f → 0 <= off → put_rel f off bs (file_put f off bs).
Proof.
  intros [H0 Hz] Hoff. split; [done|]. split; [simpl; lia|]. split; simpl; [lia|].
  intros x Hx. rewrite mwrite_out by lia. apply Hz. lia.
Qed.

Lemma i64_small z : 0 <= z < OFF_MAX → i64 z = z.
Proof. unfold OFF_MAX. intros. unfold i64. rewrite Z.mod_small; lia. Qed.

Lemma sys_pwrite_spec a f off bs r f' :
  file_ok f → 0 <= off < OFF_MAX → sys_pwrite a f off bs = (r, f') →
  match r with
  | Count n => 0 <= n <= Z.of_nat (length bs) ∧ put_rel f off (take (Z.to_nat n) bs) f'
  | _ => r = a ∧ f' = f
  end.
Proof.
  intros Hf Ho. unfold sys_pwrite. rewrite i64_small by done.
  destruct (Z.ltb_spec off 0); [lia|]. destruct a as [n| |]; [|by intros [= <- <-]..].
  destruct (Z.leb_spec (n `min` Z.of_nat (length bs)) 0); intros [= <- <-].
  - simpl. split; [lia|by apply put_rel_nil].
  - split; [lia|]. apply file_put_rel; [done|lia].
Qed.

(** [pwrite_full] stores the whole buffer, or a prefix of it and reports -1. *)
Lemma pwrite_full_spec ans f buf off rc f' ans' :
  file_ok f → 0 <= off → off + Z.of_nat (length buf) <= OFF_MAX →
  pwrite_full ans f buf off = Some (rc, f', ans') →
  ∃ k, (k <= length buf)%nat ∧ put_rel f off (take k buf) f' ∧
    (rc = 0 ∧ k = length buf ∨ rc = -1).
Proof.
  revert f buf off. induction ans as [|a ans IH]; intros f buf off Hf Ho Hl; simpl;
    (destruct (Z.eqb_spec (Z.of_nat (length buf)) 0) as [E|E];
     [intros [= <- <- <-]; exists 0%nat; rewrite take_0; split_and!; [lia|by apply put_rel_nil|left; lia]|]);
    [done|].
  destruct (sys_pwrite a f off buf) as [r f1] eqn:Es.
  apply sys_pwrite_spec in Es; [|done|lia]. destruct r as [n| |].
  - destruct Es as [Hn Hp]. destruct (Z.ltb_spec 0 n) as [Hpos|Hneg].
    + intros Hrec. rewrite u64_small in Hrec by (unfold OFF_MAX in *; lia).
      apply IH in Hrec; [|apply Hp|lia|rewrite length_drop; lia].
      destruct Hrec as (k & Hk & Hp' & Hrc). rewrite length_drop in Hk, Hrc.
      exists (Z.to_nat n + k)%nat. split; [lia|]. split; [|lia].
      rewrite <- (take_drop (Z.to_nat n) (take _ buf)), take_take.
      rewrite (Nat.min_l (Z.to_nat n)) by lia.
      rewrite <- take_drop_commute.
      eapply put_rel_app; [exact Hp|]. rewrite length_take.
      rewrite Nat.min_l by lia. rewrite Z2Nat.id by lia. exact Hp'.
    + intros [= <- <- <-]. exists 0%nat. replace (Z.to_nat n) with 0%nat in Hp by lia.
      split; [lia|]. split; [exact Hp|by right].
  - destruct Es as [_ ->]. intros Hrec. by apply IH in Hrec.
  - destruct Es as [_ ->]. intros [= <- <- <-]. exists 0%nat. rewrite take_0.
    split; [lia|]. split; [by apply put_rel_nil|by right].
Qed.

Lemma sys_pread_spec a f off len r bs :
  file_ok f → 0 <= off < OFF_MAX → 0 < len → sys_pread a f off len = (r, bs) →
  match r with
  | Count n => 0 <= n <= len ∧ bs = mread (fdata f) off (Z.to_nat n) ∧ (n = 0 → fsize f <= off)
  | _ => r = a
  end.
Proof.
  intros Hf Ho Hl. unfold sys_pread. rewrite i64_small by done.
  destruct (Z.ltb_spec off 0); [lia|]. destruct a as [n| |]; [|by intros [= <- <-]..].
  match goal with |- context [?z <=? 0] => destruct (Z.leb_spec z 0) end; intros [= <- <-].
  - split; [lia|]. split; [done|]. lia.
  - split; [lia|]. split; [done|]. lia.
Qed.

Lemma mread_zero m a n : (∀ x, a <= x → m x = 0) → mread m a n = replicate n 0.
Proof.
  intros H. apply mread_eq; [by rewrite length_replicate|]. intros i Hi.
  rewrite H by lia. by rewrite nth_lookup, lookup_replicate_2.
Qed.

(** A successful [pread_full] delivers the file's bytes, holes included. *)
Lemma pread_full_spec ans f len off rc bs ans' :
  file_ok f → 0 <= len → 0 <= off → off + len <= OFF_MAX →
  pread_full ans f len off = Some (rc, bs, ans') →
  rc = 0 ∧ bs = mread (fdata f) off (Z.to_nat len) ∨ rc = -1.
Proof.
  revert len off rc bs. induction ans as [|a ans IH]; intros len off rc bs Hf Hl Ho Hb; simpl;
    (destruct (Z.eqb_spec len 0) as [->|E]; [intros [= <- <- <-]; by left|]); [done|].
  destruct (sys_pread a f off len) as [r bs1] eqn:Es.
  apply sys_pread_spec in Es; [|done|lia|lia]. destruct r as [n| |].
  - destruct Es as (Hn & -> & Hz). destruct (Z.ltb_spec 0 n).
    + intros Hrec. obind Hrec x Er. destruct x as [[rc1 rest] an].
      injection Hrec as <- <- <-. rewrite u64_small in Er by (unfold OFF_MAX in *; lia).
      apply IH in Er; [|done|lia..]. destruct Er as [[-> ->]|]; [left|by right].
      split; [done|]. replace (Z.to_nat len) with (Z.to_nat n + Z.to_nat (len - n))%nat by lia.
      rewrite mread_app, Z2Nat.id by lia. done.
    + intros [= <- <- <-]. left. split; [done|]. symmetry. apply mread_zero.
      intros x Hx. apply Hf. lia.
  - intros Hrec. by apply IH in Hrec.
  - intros [= <- <- <-]. by right.
Qed.

(** ** The coalescing buffer *)

Lemma coal_len_nonneg io : 0 <= coal_len io.
Proof. unfold coal_len. lia. Qed.

Lemma view_idle f io a b : view (idle f io a b) ≡m fdata f.
Proof. apply mwrite_nil. Qed.

(** [f'] differs from [f] only inside the [n] bytes at [off]. *)
Definition same_but (f : file) (off n : Z) (f' : file) : Prop :=
  ∀ x, x < off ∨ off + n <= x → fdata f' x = fdata f x.

Lemma put_rel_same f off bs f' k n :
  put_rel f off (take k bs) f' → n = Z.of_nat (length bs) → same_but f off n f'.
Proof.
  intros [E _] -> x Hx. rewrite (E x). apply mwrite_out. rewrite length_take. lia.
Qed.

Lemma io_flush_spec ans io rc io' ans' :
  file_ok (bfile io) → 0 <= coal_off io → coal_off io + coal_len io <= OFF_MAX →
  (coal_active io = false → coal io = []) →
  io_flush ans io = Some (rc, io', ans') →
  (rc = 0 ∧ fdata (bfile io') ≡m view io ∨ rc = -1) ∧
  file_ok (bfile io') ∧ coal io' = [] ∧ coal_active io' = false ∧
  coal_off io' = coal_off io ∧ bsize io' = bsize io ∧
  same_but (bfile io) (coal_off io) (coal_len io) (bfile io').
Proof.
  intros Hf Ho Hl Ha. unfold io_flush.
  destruct (negb (coal_active io) || (coal_len io =? 0)) eqn:E.
  - intros [= <- <- <-]. simpl. assert (coal io = []) as Hc.
    { apply orb_true_iff in E as [E|E]; zbool; [by apply Ha|].
      apply nil_length_inv. unfold coal_len in E. lia. }
    split; [left; split; [done|unfold view; rewrite Hc; symmetry; apply mwrite_nil]|].
    done.
  - intros H. obind H x Ep. destruct x as [[rc1 f1] an1]. injection H as <- <- <-.
    apply pwrite_full_spec in Ep; [|done..]. destruct Ep as (k & Hk & Hp & Hrc). simpl.
    assert (same_but (bfile io) (coal_off io) (coal_len io) f1)
      by (by eapply put_rel_same).
    split; [|by split_and!; [apply Hp|..]]. destruct Hrc as [[-> ->]|]; [left|by right].
    split; [done|]. rewrite firstn_all in Hp. apply Hp.
Qed.

Lemma idle_wf io :
  file_ok (bfile io) → 0 <= coal_off io <= OFF_MAX → coal io = [] → io_wf io.
Proof.
  intros Hf Ho Hc. unfold io_wf, coal_len. rewrite Hc. unfold COAL_CAP. simpl.
  split_and!; [done|lia|lia|lia|done].
Qed.

(** The range a write may touch: the pending bytes and the requested ones. *)
Definition untouched (io : blockio) (off n x : Z) : Prop :=
  (x < coal_off io ∨ coal_off io + coal_len io <= x) ∧ (x < off ∨ off + n <= x).

Lemma view_append io bs :
  view (append io bs) ≡m mwrite (view io) (coal_off io + coal_len io) bs.
Proof. unfold view, coal_len. simpl. symmetry. apply mwrite_app. Qed.

Lemma mwrite_take_drop m off k (src : list Z) :
  (k <= length src)%nat →
  mwrite (mwrite m off (take k src)) (off + Z.of_nat k) (drop k src) ≡m mwrite m off src.
Proof.
  intros Hk. rewrite <- (take_drop k src) at 3. rewrite <- mwrite_app.
  rewrite length_take, Nat.min_l by lia. done.
Qed.

Definition write_post (io : blockio) (off : Z) (src : list Z) (rc : Z) (io' : blockio) : Prop :=
  (rc = 0 ∧ view io' ≡m mwrite (view io) off src ∨ rc = -1) ∧
  io_wf io' ∧ bsize io' = bsize io ∧
  ∀ x, untouched io off (Z.of_nat (length src)) x →
    fdata (bfile io') x = fdata (bfile io) x ∧
    (x < coal_off io' ∨ coal_off io' + coal_len io' <= x).

(** One round of the loop: the first bytes of the request are taken in. *)
Definition advance (io : blockio) (off : Z) (bs : list Z) (io2 : blockio) : Prop :=
  view io2 ≡m mwrite (view io) off bs ∧ bsize io2 = bsize io ∧
  ∀ x n, 0 <= n → untouched io off (Z.of_nat (length bs) + n) x →
    untouched io2 (off + Z.of_nat (length bs)) n x ∧ fdata (bfile io2) x = fdata (bfile io) x.

Lemma write_post_advance io off b1 b2 io2 rc io' :
  advance io off b1 io2 → write_post io2 (off + Z.of_nat (length b1)) b2 rc io' →
  write_post io off (b1 ++ b2) rc io'.
Proof.
  intros (Hv & Hs & Hu) (Hrc & Hwf & Hs' & Hu'). split.
  { destruct Hrc as [[-> Hv']|]; [left|by right]. split; [done|].
    rewrite Hv', Hv. apply mwrite_app. }
  split; [done|]. split; [congruence|]. intros x Hx. rewrite length_app, Nat2Z.inj_add in Hx.
  apply Hu in Hx as [Hx1 Hx2]; [|lia]. rewrite <- Hx2. by apply Hu'.
Qed.

Lemma advance_append io off bs :
  off = coal_off io + coal_len io → advance io off bs (append io bs).
Proof.
  intros ->. split; [apply view_append|]. split; [done|]. intros x n Hn [U1 U2].
  split; [|done]. unfold untouched, coal_len in *. simpl. rewrite length_app. lia.
Qed.

(** A flush keeps the logical content and what the write may touch. *)
Lemma advance_flush io off bs io1 io2 ans ans2 :
  advance io off bs io1 →
  file_ok (bfile io1) → 0 <= coal_off io1 → coal_off io1 + coal_len io1 <= OFF_MAX →
  (coal_active io1 = false → coal io1 = []) →
  (∀ x n, 0 <= n → untouched io off (Z.of_nat (length bs) + n) x →
     x < coal_off io1 ∨ coal_off io1 + coal_len io1 <= x) →
  io_flush ans io1 = Some (0, io2, ans2) → advance io off bs io2.
Proof.
  intros (Hv & Hs & Hu) Hf Ho Hl Ha Hout Efl. apply io_flush_spec in Efl; [|done..].
  destruct Efl as (Hrc & Hf2 & Hc2 & Ha2 & Ho2 & Hs2 & Hsb).
  destruct Hrc as [[_ Hv2]|]; [|done].
  split; [unfold view at 1; by rewrite Hc2, mwrite_nil, Hv2|]. split; [congruence|].
  intros x n Hn Hx. destruct (Hu x n Hn Hx) as [[U1 U2] U3]. split.
  - unfold untouched, coal_len. rewrite Hc2, Ho2. simpl. specialize (Hout x n Hn Hx). lia.
  - rewrite Hsb; [done|]. by eapply Hout.
Qed.

Lemma advance_nil io off : advance io off [] io.
Proof.
  split; [symmetry; apply mwrite_nil|]. split; [done|]. intros x n Hn [U1 U2]. simpl in *.
  split; [|done]. split; [done|lia].
Qed.

Lemma advance_activate io off bs io2 off2 :
  advance io off bs io2 → coal io2 = [] → advance io off bs (activate io2 off2).
Proof.
  intros (Hv & Hs & Hu) Hc. split.
  { rewrite <- Hv. unfold view. simpl. rewrite Hc. by rewrite !mwrite_nil. }
  split; [done|]. intros x n Hn Hx. destruct (Hu x n Hn Hx) as [[U1 U2] U3].
  split; [|done]. split; [|done]. unfold coal_len. simpl. rewrite Hc. simpl. lia.
Qed.

(** A flush that fails has touched nothing outside the pending bytes. *)
Lemma flush_failed io off n io1 ans io2 ans2 src :
  io_wf io → file_ok (bfile io1) → 0 <= coal_off io1 → coal_off io1 + coal_len io1 <= OFF_MAX →
  (coal_active io1 = false → coal io1 = []) → bsize io1 = bsize io → bfile io1 = bfile io →
  n = Z.of_nat (length src) →
  (∀ x, untouched io off n x → x < coal_off io1 ∨ coal_off io1 + coal_len io1 <= x) →
  io_flush ans io1 = Some (-1, io2, ans2) → write_post io off src (-1) io2.
Proof.
  intros Hwf Hf Ho Hl Ha Hs Hb -> Hout Efl. apply io_flush_spec in Efl; [|done..].
  destruct Efl as (Hrc & Hf2 & Hc2 & Ha2 & Ho2 & Hs2 & Hsb). split; [by right|].
  split; [apply idle_wf; [done|unfold coal_len in *; lia|done]|]. split; [congruence|].
  intros x Hx. rewrite Hsb by (by apply Hout). rewrite Hb. split; [done|].
  unfold coal_len. rewrite Hc2. simpl. lia.
Qed.

Lemma flush_rc ans io rc io' ans' :
  file_ok (bfile io) → 0 <= coal_off io → coal_off io + coal_len io <= OFF_MAX →
  (coal_active io = false → coal io = []) →
  io_flush ans io = Some (rc, io', ans') → (rc = 0 ∨ rc = -1) ∧ file_ok (bfile io') ∧
  coal io' = [] ∧ coal_off io' = coal_off io ∧ coal_active io' = false.
Proof. intros. edestruct io_flush_spec as (?&?&?&?&?&?); [done..|]. tauto. Qed.

(** What the contiguous branch copies, and the buffer after it. *)
Definition chunk_of (io : blockio) (src : list Z) : Z :=
  if Z.of_nat (length src) <? COAL_CAP - coal_len io then Z.of_nat (length src) else COAL_CAP - coal_len io.

Lemma chunk_bounds io src :
  coal_len io < COAL_CAP → 0 < Z.of_nat (length src) →
  0 < chunk_of io src <= Z.of_nat (length src) ∧
  coal_len (append io (take (Z.to_nat (chunk_of io src)) src)) = coal_len io + chunk_of io src ∧
  coal_len io + chunk_of io src <= COAL_CAP.
Proof.
  intros Hc Hs. assert (0 < chunk_of io src <= Z.of_nat (length src) ∧
    coal_len io + chunk_of io src <= COAL_CAP) as Hb.
  { unfold chunk_of. destruct (Z.ltb_spec (Z.of_nat (length src)) (COAL_CAP - coal_len io)); lia. }
  unfold coal_len in *. simpl. rewrite length_app, length_take. lia.
Qed.

Lemma write_loop_spec fuel ans io off src rc io' ans' :
  io_wf io → 0 <= off → off + Z.of_nat (length src) <= OFF_MAX →
  write_loop fuel ans io off src = Some (rc, io', ans') → write_post io off src rc io'.
Proof.
  revert ans io off src. induction fuel as [|fuel IH]; intros ans io off src Hwf Ho Hl;
    simpl; (destruct (Z.ltb_spec 0 (Z.of_nat (length src))) as [E|E]; simpl;
    [|intros [= <- <- <-]; destruct src; [|simpl in E; lia];
      split; [left; split; [done|symmetry; apply mwrite_nil]|];
      split_and!; [done..|by intros x [? _]]]); [done|].
  pose proof Hwf as (Hf & Hc0 & Hcl & Hcap & Hina). pose proof (coal_len_nonneg io) as Hnn. fold (chunk_of io src).
  destruct (coal_active io && (off =? u64 (coal_off io + coal_len io))) eqn:Ec.
  - apply andb_true_iff in Ec as [Eact Eoff]. zbool.
    rewrite u64_small in Eoff by (unfold OFF_MAX, coal_len in *; lia).
    destruct (chunk_bounds io src Hcap E) as (Hch & Hl1 & Hcap1).
    set (chunk := chunk_of io src) in *.
    rewrite (u64_small (off + chunk)) by (unfold OFF_MAX in *; lia).
    set (io1 := append io (take (Z.to_nat chunk) src)) in *.
    pose proof (advance_append io off (take (Z.to_nat chunk) src) Eoff) as Hadv. fold io1 in Hadv.
    assert (Z.of_nat (length (take (Z.to_nat chunk) src)) = chunk) as Hlt
      by (rewrite length_take; lia).
    assert (coal_off io1 = coal_off io ∧ (coal_active io1 = false → coal io1 = [])) as [Ho1 Hi1].
    { split; [done|]. intros Hx. change (coal_active io = false) in Hx. congruence. }
    destruct (Z.eqb_spec (coal_len io1) COAL_CAP) as [Efull|Efull].
    + intros H. obind H x Efl. destruct x as [[rc1 io2] ans2].
      destruct (flush_rc _ io1 _ _ _ Hf Hc0 ltac:(change (coal_off io1) with (coal_off io); lia) Hi1 Efl) as ([->| ->] & Hf2 & Hc2 & Ho2 & Ha2);
        simpl in H.
      * rewrite <- (take_drop (Z.to_nat chunk) src). eapply write_post_advance.
        { eapply advance_flush; [exact Hadv|done|lia|rewrite Ho1; lia|done| |exact Efl].
          intros x n Hn [U1 U2]. rewrite Ho1, Hl1. lia. }
        rewrite Hlt. eapply IH; [apply idle_wf; [done|lia|done]|lia|rewrite length_drop; lia|exact H].
      * injection H as <- <- <-. eapply (flush_failed io off _ io1); [done|done|lia|rewrite Ho1; lia|done..| |exact Efl].
        intros x [U1 U2]. rewrite Ho1, Hl1. lia.
    + intros H. rewrite <- (take_drop (Z.to_nat chunk) src). eapply write_post_advance; [exact Hadv|].
      rewrite Hlt. eapply IH; [|lia|rewrite length_drop; lia|exact H].
      unfold io_wf. rewrite Ho1. split_and!; [done|lia|lia|lia|done].
  - intros H. obind H x Efl. destruct x as [[rc1 io2] ans2].
    destruct (flush_rc _ _ _ _ _ Hf Hc0 Hcl Hina Efl) as ([->| ->] & Hf2 & Hc2 & Ho2 & Ha2); simpl in H.
    + apply IH in H; [|apply idle_wf; [done|simpl; lia|done]|done|done].
      rewrite <- (app_nil_l src). eapply write_post_advance; [|by rewrite Z.add_0_r].
      apply advance_activate; [|done].
      eapply advance_flush; [apply advance_nil|done..| |exact Efl]. by intros x n Hn [U1 _].
    + injection H as <- <- <-. eapply (flush_failed io off _ io); [done..| |exact Efl]. by intros x [U1 _].
Qed.

Lemma write_post_app io off b1 b2 io2 rc io' :
  write_post io off b1 0 io2 → write_post io2 (off + Z.of_nat (length b1)) b2 rc io' →
  write_post io off (b1 ++ b2) rc io'.
Proof.
  intros ([[_ Hv]|] & Hwf & Hs & Hu); [|done]. apply write_post_advance.
  split; [done|]. split; [done|]. intros x n Hn [U1 U2].
  destruct (Hu x) as [A B]; [split; [done|lia]|]. split; [|done]. split; [done|lia].
Qed.

Lemma write_post_fail io off b1 b2 rc io' :
  write_post io off b1 rc io' → rc ≠ 0 → write_post io off (b1 ++ b2) rc io'.
Proof.
  intros (Hrc & Hwf & Hs & Hu) Hne. split; [right; tauto|]. split; [done|]. split; [done|].
  intros x [U1 U2]. apply Hu. split; [done|]. rewrite length_app in U2. lia.
Qed.

Lemma blockio_write_spec ans io off buf rc io' ans' :
  io_wf io → 0 <= off → off + Z.of_nat (length buf) <= OFF_MAX →
  blockio_write ans io off buf = Some (rc, io', ans') → write_post io off buf rc io'.
Proof. intros Hwf Ho Hl H. by apply write_loop_spec in H. Qed.

Lemma zero_loop_spec fuel ans io off n rc io' ans' :
  io_wf io → 0 <= off → 0 <= n → off + n <= OFF_MAX →
  zero_loop fuel ans io off n = Some (rc, io', ans') →
  write_post io off (replicate (Z.to_nat n) 0) rc io'.
Proof.
  revert ans io off n. induction fuel as [|fuel IH]; intros ans io off n Hwf Ho Hn Hl;
    simpl; (destruct (Z.ltb_spec 0 n) as [E|E]; simpl;
    [|intros [= <- <- <-]; replace n with 0 by lia;
      split; [left; split; [done|symmetry; apply mwrite_nil]|];
      split_and!; [done..|by intros x [? _]]]); [done|].
  set (chunk := if ZEROS <? n then ZEROS else n).
  assert (0 < chunk <= n) as Hch by (unfold chunk, ZEROS; bcases; lia).
  intros H. obind H x Ew. destruct x as [[rc1 io1] ans1].
  apply blockio_write_spec in Ew; [|done|done|rewrite length_replicate; lia].
  replace (Z.to_nat n) with (Z.to_nat chunk + Z.to_nat (n - chunk))%nat by lia.
  rewrite replicate_add.
  destruct (Z.eqb_spec rc1 0) as [->|Hne]; simpl in H.
  - rewrite u64_small in H by (unfold OFF_MAX in *; lia). eapply write_post_app; [exact Ew|].
    rewrite length_replicate, Z2Nat.id by lia.
    apply IH in H; [done|apply Ew|lia..].
  - injection H as <- <- <-. apply write_post_fail; [|done].
    destruct Ew as [[[]|] ?]; [done|]. by split; [right|].
Qed.

(** C19.  The coalescing writer is a faithful image: on any well-formed state,
    whatever the system answers, a write (or a zero fill) that reports success
    has changed the logical content by exactly the requested bytes, one that
    fails has touched no byte outside the pending and the requested range; a
    read that succeeds returns the logical content, holes included, and leaves
    it as it was; and after a successful close the file holds all of it. *)
Theorem blockio_refines_image io off ans :
  io_wf io → 0 <= off →
  (∀ buf rc io' ans', off + Z.of_nat (length buf) <= OFF_MAX →
     blockio_write ans io off buf = Some (rc, io', ans') → write_post io off buf rc io') ∧
  (∀ n rc io' ans', 0 <= n → off + n <= OFF_MAX →
     blockio_zero ans io off n = Some (rc, io', ans') →
     write_post io off (replicate (Z.to_nat n) 0) rc io') ∧
  (∀ len rc bs io' ans', 0 <= len → off + len <= OFF_MAX →
     blockio_read ans io off len = Some (rc, bs, io', ans') →
     rc = 0 ∧ bs = mread (view io) off (Z.to_nat len) ∧ view io' ≡m view io ∧ io_wf io' ∨ rc = -1) ∧
  (∀ rc f ans', blockio_close ans io = Some (rc, f, ans') → rc = 0 → fdata f ≡m view io).
Proof.
  intros Hwf Ho. pose proof Hwf as (Hf & Hc0 & Hcl & Hcap & Hina). split_and!.
  - intros. by eapply blockio_write_spec.
  - intros. by eapply zero_loop_spec.
  - intros len rc bs io' ans' Hl Hb H. unfold blockio_read in H. obind H x Efl.
    destruct x as [[rc1 io1] ans1]. apply io_flush_spec in Efl; [|done..].
    destruct Efl as ([[-> Hv]| ->] & Hf1 & Hc1 & _ & Ho1 & _ & _); simpl in H;
      [|injection H as <- <- <- <-; by right].
    obind H x Er. destruct x as [[rc2 bs2] ans2]. injection H as <- <- <- <-.
    apply pread_full_spec in Er as [[-> ->]|]; [left|by right|done..].
    split_and!; [done|by rewrite Hv|unfold view at 1; by rewrite Hc1, mwrite_nil|].
    apply idle_wf; [done|unfold coal_len in *; lia|done].
  - intros rc f ans' H Hrc. unfold blockio_close in H. obind H x Efl.
    destruct x as [[rc1 io1] ans1]. apply io_flush_spec in Efl; [|done..].
    destruct ans1 as [|a ans1]; [done|]. injection H as E <- <-. subst rc.
    destruct Efl as ([[-> Hv]| ->] & _); [done|]. by destruct a.
Qed.

(** ** Progress *)

Definition healthy (a : answer) : Prop :=
  match a with Count n => 0 < n | Eintr => True | Failed => False end.

Fixpoint progress (ans : list answer) : Z :=
  match ans with
  | [] => 0
  | Count n :: ans' => 1 + progress ans'
  | _ :: ans' => progress ans'
  end.

(** A system that does not fail and completes at least [k] more calls. *)
Definition supply (k : Z) (ans : list answer) : Prop := Forall healthy ans ∧ k <= progress ans.

Lemma supply_le k k' ans : supply k ans → k' <= k → supply k' ans.
Proof. intros [H1 H2] Hk. split; [done|lia]. Qed.

Lemma pwrite_full_total ans f buf off k :
  file_ok f → 0 <= off → off + Z.of_nat (length buf) <= OFF_MAX → 0 <= k →
  supply (Z.of_nat (length buf) + k) ans →
  ∃ f' ans', pwrite_full ans f buf off = Some (0, f', ans') ∧ supply k ans'.
Proof.
  revert f buf off. induction ans as [|a ans IH]; intros f buf off Hf Ho Hl Hk [Hh Hs]; cbn [pwrite_full progress] in *;
    (destruct (Z.eqb_spec (Z.of_nat (length buf)) 0) as [E|E];
      [eexists _, _; split; [done|]; split; [done|]; simpl; lia|]); [lia|].
  inversion Hh as [|? ? Ha Hh']; subst.
  destruct (sys_pwrite a f off buf) as [r f1] eqn:Es.
  pose proof (sys_pwrite_spec a f off buf r f1 Hf ltac:(lia) Es) as Hsp. destruct a as [n| |]; [|..|done].
  - unfold sys_pwrite in Es. rewrite i64_small in Es by lia.
    destruct (Z.ltb_spec off 0); [lia|]. simpl in Ha.
    destruct (Z.leb_spec (n `min` Z.of_nat (length buf)) 0); [lia|]. injection Es as <- <-.
    destruct (Z.ltb_spec 0 (n `min` Z.of_nat (length buf))); [|lia]. destruct Hsp as [Hn Hp].
    rewrite u64_small by (unfold OFF_MAX in *; lia).
    apply IH; [apply Hp|lia|rewrite length_drop; lia|done|].
    split; [done|]. rewrite length_drop. lia.
  - unfold sys_pwrite in Es. rewrite i64_small in Es by lia.
    destruct (Z.ltb_spec off 0); [lia|]. injection Es as <- <-. by apply IH.
Qed.

Lemma io_flush_total ans io k :
  file_ok (bfile io) → 0 <= coal_off io → coal_off io + coal_len io <= OFF_MAX →
  0 <= k → supply (coal_len io + k) ans →
  ∃ io' ans', io_flush ans io = Some (0, io', ans') ∧ supply k ans' ∧
    flush_calls io' = (if coal_active io && negb (coal_len io =? 0)
                       then u64 (flush_calls io + 1) else flush_calls io).
Proof.
  intros Hf Ho Hl Hk Hs. pose proof (coal_len_nonneg io). unfold io_flush.
  destruct (coal_active io); simpl; [|eexists _, _; split; [done|]; split;
    [eapply supply_le; [done|lia]|done]].
  destruct (coal_len io =? 0) eqn:E; simpl;
    [eexists _, _; split; [done|]; split; [eapply supply_le; [done|lia]|done]|].
  destruct (pwrite_full_total ans (bfile io) (coal io) (coal_off io) k) as (f' & an & -> & Hs'); [done..|].
  simpl. eexists _, _. done.
Qed.

(** The write continues the pending batch, or there is none. *)
Definition contiguous (io : blockio) (off : Z) : Prop :=
  coal io = [] ∨ coal_active io = true ∧ off = coal_off io + coal_len io.

Lemma coalesce_arith c n : 0 <= c < COAL_CAP → 0 <= n → c + n = COAL_CAP →
  ∀ m, (0 + m) mod COAL_CAP = (c + (n + m)) mod COAL_CAP ∧
       1 + (0 + m) / COAL_CAP = (c + (n + m)) / COAL_CAP.
Proof.
  intros Hc Hn E m. rewrite Z.add_0_l. replace (c + (n + m)) with (m + 1 * COAL_CAP) by lia.
  rewrite Z_mod_plus_full, Z_div_plus by (unfold COAL_CAP; lia). split; [done|lia].
Qed.

(** The state after a healthy write: the rest of the batch is pending. *)
Definition batch_post (io : blockio) (off len : Z) (io' : blockio) : Prop :=
  coal_len io' = (coal_len io + len) mod COAL_CAP ∧ contiguous io' (off + len) ∧
  u64 (flush_calls io') = u64 (flush_calls io + (coal_len io + len) / COAL_CAP).

Lemma batch_done io off len :
  io_wf io → contiguous io off → len = 0 → batch_post io off len io.
Proof.
  intros (_ & _ & _ & Hcap & _) Hc ->. pose proof (coal_len_nonneg io). unfold batch_post.
  rewrite !Z.add_0_r, Z.mod_small, Z.div_small, Z.add_0_r by lia. done.
Qed.

Lemma batch_full io off (src : list Z) io1 io2 n io' :
  io_wf io → coal_len io1 = coal_len io + n → coal_len io1 = COAL_CAP → 0 <= n →
  flush_calls io2 = u64 (flush_calls io + 1) → coal io2 = [] →
  batch_post io2 (off + n) (Z.of_nat (length (drop (Z.to_nat n) src))) io' →
  n <= Z.of_nat (length src) → batch_post io off (Z.of_nat (length src)) io'.
Proof.
  intros (_ & _ & _ & Hcap & _) Hl Hfull Hn Hfc Hc (B1 & B2 & B3) Hle.
  pose proof (coal_len_nonneg io).
  assert (coal_len io2 = 0) as H0 by (unfold coal_len; by rewrite Hc).
  rewrite length_drop, H0 in B1. rewrite length_drop in B2. rewrite length_drop, H0, Hfc in B3.
  set (m := Z.of_nat (length src - Z.to_nat n)) in *.
  assert (Z.of_nat (length src) = n + m) as -> by lia.
  destruct (coalesce_arith (coal_len io) n ltac:(lia) Hn ltac:(lia) m) as [E1 E2].
  split; [congruence|]. split; [by rewrite Z.add_assoc|].
  rewrite B3. autorewrite with wrap. f_equal. lia.
Qed.

Lemma batch_append io off (src : list Z) io1 n io' :
  coal_len io1 = coal_len io + n → flush_calls io1 = flush_calls io → 0 <= n <= Z.of_nat (length src) →
  batch_post io1 (off + n) (Z.of_nat (length (drop (Z.to_nat n) src))) io' →
  batch_post io off (Z.of_nat (length src)) io'.
Proof.
  intros Hl Hfc Hn (B1 & B2 & B3). rewrite length_drop in B1, B2, B3. rewrite Hl in B1, B3.
  set (m := Z.of_nat (length src - Z.to_nat n)) in *.
  assert (Z.of_nat (length src) = n + m) as -> by lia. unfold batch_post.
  rewrite !Z.add_assoc, B1, B3, Hfc. done.
Qed.

Lemma write_loop_total fuel ans io off src k :
  io_wf io → 0 <= off → off + Z.of_nat (length src) <= OFF_MAX → 0 <= k →
  contiguous io off →
  (2 * Z.of_nat (length src) + (if coal_active io && (off =? coal_off io + coal_len io) then 0 else 1)
     <= Z.of_nat fuel) →
  supply (coal_len io + Z.of_nat (length src) + k) ans →
  ∃ io' ans', write_loop fuel ans io off src = Some (0, io', ans') ∧
    supply (coal_len io' + k) ans' ∧ batch_post io off (Z.of_nat (length src)) io'.
Proof.
  revert ans io off src. induction fuel as [|fuel IH]; intros ans io off src Hwf Ho Hl Hk Hcont Hfuel Hs;
    cbn [write_loop]; (destruct (Z.ltb_spec 0 (Z.of_nat (length src))) as [E|E]; cbn [negb];
    [|eexists _, _; split; [done|]; split; [eapply supply_le; [done|lia]|apply batch_done; [done|done|lia]]]);
    [destruct (coal_active io && _); lia|].
  pose proof Hwf as (Hf & Hc0 & Hcl & Hcap & Hina). pose proof (coal_len_nonneg io) as Hnn.
  fold (chunk_of io src). rewrite (u64_small (coal_off io + coal_len io)) by (unfold OFF_MAX in *; lia).
  destruct (coal_active io && (off =? coal_off io + coal_len io)) eqn:Ec.
  - apply andb_true_iff in Ec as [Eact Eoff]. zbool.
    destruct (chunk_bounds io src Hcap E) as (Hch & Hl1 & Hcap1).
    set (chunk := chunk_of io src) in *.
    rewrite (u64_small (off + chunk)) by (unfold OFF_MAX in *; lia).
    set (io1 := append io (take (Z.to_nat chunk) src)) in *.
    assert (coal_off io1 = coal_off io ∧ bfile io1 = bfile io ∧ coal_active io1 = true) as (Ho1 & Hf1 & Ha1) by done.
    assert (Z.of_nat (length (drop (Z.to_nat chunk) src)) = Z.of_nat (length src) - chunk) as Hd
      by (rewrite length_drop; lia).
    destruct (Z.eqb_spec (coal_len io1) COAL_CAP) as [Efull|Efull].
    + destruct (io_flush_total ans io1 (Z.of_nat (length src) - chunk + k)) as (io2 & an & Efl & Hs2 & Hfc);
        [done|done|lia|lia|eapply supply_le; [done|lia]|].
      rewrite Efl. cbn [mbind option_bind Z.eqb negb].
      destruct (flush_rc _ io1 _ _ _ Hf Hc0 ltac:(lia) ltac:(congruence) Efl) as (_ & Hf2 & Hc2 & Ho2 & Ha2).
      assert (coal_len io2 = 0) as H0 by (unfold coal_len; by rewrite Hc2).
      destruct (IH an io2 (off + chunk) (drop (Z.to_nat chunk) src)) as (io' & an' & Er & Hs' & Hb);
        [apply idle_wf; [done|lia|done]|lia|lia|done|by left|destruct (coal_active io2 && _); lia|
         rewrite Hd, H0; eapply supply_le; [done|lia]|].
      exists io', an'. split; [done|]. split; [done|].
      eapply (batch_full io off src io1 io2 chunk); [done|lia|lia|lia| |done|done|lia].
      rewrite Hfc, Ha1, Efull. done.
    + destruct (IH ans io1 (off + chunk) (drop (Z.to_nat chunk) src)) as (io' & an' & Er & Hs' & Hb).
      * unfold io_wf. rewrite Ho1, Hf1, Ha1. split_and!; [done|lia..|done].
      * lia.
      * lia.
      * done.
      * right. split; [done|lia].
      * rewrite Ha1, Ho1, Hl1, Eoff, Z.add_assoc, Z.eqb_refl. simpl. lia.
      * eapply supply_le; [done|lia].
      * exists io', an'. split; [done|]. split; [done|]. by eapply (batch_append io off src io1 chunk); [|done|lia|].
  - assert (coal io = []) as Hnil.
    { destruct Hcont as [|[Hact ->]]; [done|]. rewrite Hact, Z.eqb_refl in Ec. done. }
    assert (coal_len io = 0) as H0 by (unfold coal_len; by rewrite Hnil).
    unfold io_flush. rewrite H0, orb_true_r. cbn [mbind option_bind Z.eqb negb].
    destruct (IH ans (activate (idle (bfile io) io (bytes_flushed io) (flush_calls io)) off) off src)
      as (io' & an' & Er & Hs' & Hb1 & Hb2 & Hb3).
    + apply idle_wf; [done|simpl; lia|done].
    + done.
    + done.
    + done.
    + by left.
    + unfold coal_len. simpl. rewrite Z.add_0_r, Z.eqb_refl. lia.
    + eapply supply_le; [done|]. unfold coal_len. simpl. lia.
    + exists io', an'. split; [done|]. split; [done|]. unfold batch_post. rewrite H0. done.
Qed.

Lemma contiguous_dec io off : contiguous io off ∨
  coal_active io && (off =? coal_off io + coal_len io) = false.
Proof.
  unfold contiguous. destruct (coal_active io); simpl; [|by right].
  destruct (Z.eqb_spec off (coal_off io + coal_len io)); [left; by right|by right].
Qed.

Lemma count_in_wf io n : io_wf io → io_wf (count_in io n).
Proof. done. Qed.

(** A write anywhere succeeds on a system that completes enough calls. *)
Lemma blockio_write_total ans io off buf k :
  io_wf io → 0 <= off → off + Z.of_nat (length buf) <= OFF_MAX → 0 <= k →
  supply (coal_len io + Z.of_nat (length buf) + k) ans →
  ∃ io' ans', blockio_write ans io off buf = Some (0, io', ans') ∧ supply (coal_len io' + k) ans'.
Proof.
  intros Hwf Ho Hl Hk Hs. unfold blockio_write. apply (count_in_wf _ (Z.of_nat (length buf))) in Hwf.
  change (coal_len io) with (coal_len (count_in io (Z.of_nat (length buf)))) in Hs.
  set (io0 := count_in io (Z.of_nat (length buf))) in *. clearbody io0. clear io.
  pose proof Hwf as (Hf & Hc0 & Hcl & Hcap & Hina). pose proof (coal_len_nonneg io0) as Hnn.
  destruct (contiguous_dec io0 off) as [Hc|Hc].
  - destruct (write_loop_total (write_fuel buf) ans io0 off buf k) as (io' & an & E & Hs' & _);
      [done..| |done|by eauto].
    unfold write_fuel. destruct (_ && _); lia.
  - unfold write_fuel. rewrite Nat.add_1_r. cbn [write_loop].
    destruct (Z.ltb_spec 0 (Z.of_nat (length buf))); cbn [negb];
      [|eexists _, _; split; [done|]; eapply supply_le; [done|lia]].
    rewrite (u64_small (coal_off io0 + coal_len io0)), Hc by (unfold OFF_MAX in *; lia).
    destruct (io_flush_total ans io0 (Z.of_nat (length buf) + k)) as (io2 & an & Efl & Hs2 & _);
      [done..|lia|eapply supply_le; [done|lia]|].
    rewrite Efl. cbn [mbind option_bind Z.eqb negb].
    destruct (flush_rc _ io0 _ _ _ Hf Hc0 Hcl Hina Efl) as (_ & Hf2 & Hc2 & Ho2 & Ha2).
    assert (coal_len (activate io2 off) = 0) as H0 by (unfold coal_len; simpl; by rewrite Hc2).
    destruct (write_loop_total (2 * length buf) an (activate io2 off) off buf k) as (io' & an' & E & Hs' & _);
      [apply idle_wf; [done|simpl; lia|done]|done|done|done|by left| |by rewrite H0|by eauto].
    rewrite H0. simpl. rewrite Z.add_0_r, Z.eqb_refl. lia.
Qed.

(** C20.  Contiguous writes coalesce, and make progress: on a system that does
    not fail (but may interrupt calls and accept as little as one byte at a
    time), a write that continues the pending batch returns 0, and the file is
    written to exactly once per 16 MiB of batch, the remainder staying pending. *)
Theorem blockio_write_coalesces ans io off buf k :
  io_wf io → 0 <= off → off + Z.of_nat (length buf) <= OFF_MAX → 0 <= k →
  contiguous io off → supply (coal_len io + Z.of_nat (length buf) + k) ans →
  ∃ io' ans', blockio_write ans io off buf = Some (0, io', ans') ∧
    supply (coal_len io' + k) ans' ∧ view io' ≡m mwrite (view io) off buf ∧
    coal_len io' = (coal_len io + Z.of_nat (length buf)) mod COAL_CAP ∧
    contiguous io' (off + Z.of_nat (length buf)) ∧
    u64 (flush_calls io') = u64 (flush_calls io + (coal_len io + Z.of_nat (length buf)) / COAL_CAP).
Proof.
  intros Hwf Ho Hl Hk Hc Hs.
  destruct (write_loop_total (write_fuel buf) ans (count_in io (Z.of_nat (length buf))) off buf k)
    as (io' & an & E & Hs' & Hb); [done..| |done|].
  { unfold write_fuel. destruct (_ && _); lia. }
  exists io', an. split; [done|]. split; [done|]. split; [|done].
  apply write_loop_spec in E; [|done..]. by destruct E as [[[_ E]|] _].
Qed.

(** ** The image interface

    What the file-system writers need of the block layer: a device with a
    logical content, writes that report success or failure, and the promise
    that a write succeeds when the device can still complete its bytes. *)
Class Image (D : Type) := {
  img_view : D → mem;
  img_size : D → Z;
  img_ok : D → Prop;
  img_live : Z → D → Prop;
  img_live_le d k k' : img_live k d → k' <= k → img_live k' d;
  img_write : D → Z → list Z → option (Z * D);
  img_write_spec d off bs rc d' :
    img_ok d → 0 <= off → off + Z.of_nat (length bs) <= OFF_MAX →
    img_write d off bs = Some (rc, d') →
    img_ok d' ∧ img_size d' = img_size d ∧
    (rc = 0 ∧ img_view d' ≡m mwrite (img_view d) off bs ∨ rc = -1);
  img_write_total d off bs k :
    img_ok d → 0 <= off → off + Z.of_nat (length bs) <= OFF_MAX → 0 <= k →
    img_live (Z.of_nat (length bs) + k) d →
    ∃ d', img_write d off bs = Some (0, d') ∧ img_live k d';
  img_flush : D → option (Z * D);
  img_flush_spec d rc d' :
    img_ok d → img_flush d = Some (rc, d') →
    img_ok d' ∧ img_size d' = img_size d ∧ (rc = 0 ∧ img_view d' ≡m img_view d ∨ rc = -1);
  img_flush_total d k :
    img_ok d → 0 <= k → img_live k d → ∃ d', img_flush d = Some (0, d') ∧ img_live k d';
}.

Definition bio_write (d : blockio * list answer) (off : Z) (bs : list Z) :
    option (Z * (blockio * list answer)) :=
  '(rc, io, ans) ← blockio_write (snd d) (fst d) off bs; Some (rc, (io, ans)).

Definition bio_flush (d : blockio * list answer) : option (Z * (blockio * list answer)) :=
  '(rc, io, ans) ← blockio_flush (snd d) (fst d); Some (rc, (io, ans)).

Definition bio_live (k : Z) (d : blockio * list answer) : Prop :=
  supply (coal_len (fst d) + k) (snd d).

#[export, program] Instance blockio_image : Image (blockio * list answer) := {
  img_view d := view (fst d);
  img_size d := blockio_size (fst d);
  img_ok d := io_wf (fst d);
  img_live := bio_live;
  img_write := bio_write;
  img_flush := bio_flush;
}.
Next Obligation. intros [io ans] k k' H Hk. eapply supply_le; [exact H|lia]. Qed.
Next Obligation.
  intros [io ans] off bs rc [io' ans'] Hok Ho Hl H. unfold bio_write in H. simpl in *.
  obind H x E. destruct x as [[rc1 io1] ans1]. injection H as <- <- <-.
  apply blockio_write_spec in E; [|done..]. destruct E as (Hrc & Hwf & Hs & _). done.
Qed.
Next Obligation.
  intros [io ans] off bs k Hok Ho Hl Hk Hs. unfold bio_live in Hs. simpl in *.
  destruct (blockio_write_total ans io off bs k) as (io' & an & E & Hs'); [done..| |].
  { eapply supply_le; [done|lia]. }
  exists (io', an). unfold bio_write. simpl. rewrite E. done.
Qed.
Next Obligation.
  intros [io ans] rc [io' ans'] Hok H. unfold bio_flush, blockio_flush in H. simpl in *.
  obind H x E. destruct x as [[rc1 io1] ans1]. injection H as <- <- <-.
  destruct Hok as (Hf & H0 & Hl & Hc & Ha). apply io_flush_spec in E; [|done..].
  destruct E as (Hrc & Hf1 & Hc1 & Ha1 & Ho1 & Hs1 & _).
  split; [apply idle_wf; [done|unfold coal_len in *; lia|done]|]. split; [done|].
  destruct Hrc as [[-> Hv]|]; [left|by right]. split; [done|].
  unfold view at 1. by rewrite Hc1, mwrite_nil.
Qed.
Next Obligation.
  intros [io ans] k Hok Hk Hs. unfold bio_live in *. simpl in *.
  destruct Hok as (Hf & H0 & Hl & Hc & Ha).
  destruct (io_flush_total ans io k) as (io' & an & E & Hs' & _); [done..|].
  exists (io', an). unfold bio_flush, blockio_flush. simpl. rewrite E. split; [done|].
  simpl. apply io_flush_spec in E; [|done..]. destruct E as (_ & _ & Hc1 & _).
  unfold coal_len. rewrite Hc1. simpl. done.
Qed.

(** A run of writes, each followed by [if (... != 0) return -1]. *)
Fixpoint img_writes {D} `{Image D} (d : D) (ws : list (Z * list Z)) : option (Z * D) :=
  match ws with
  | [] => Some (0, d)
  | (off, bs) :: ws' =>
      '(rc, d1) ← img_write d off bs;
      if negb (rc =? 0) then Some (-1, d1) else img_writes d1 ws'
  end.

Definition apply_writes (m : mem) (ws : list (Z * list Z)) : mem :=
  fold_left (λ m w, mwrite m (fst w) (snd w)) ws m.

Definition writes_fit (ws : list (Z * list Z)) : Prop :=
  Forall (λ w, 0 <= fst w ∧ fst w + Z.of_nat (length (snd w)) <= OFF_MAX) ws.

Definition writes_len (ws : list (Z * list Z)) : Z :=
  foldr (λ w n, Z.of_nat (length (snd w)) + n) 0 ws.

#[export] Instance apply_writes_proper : Proper (mem_eq ==> eq ==> mem_eq) apply_writes.
Proof.
  intros m m' Hm ws ? <-. revert m m' Hm. induction ws as [|w ws IH]; intros m m' Hm; simpl; [done|].
  apply IH. by rewrite Hm.
Qed.

Lemma apply_writes_app m ws1 ws2 :
  apply_writes m (ws1 ++ ws2) = apply_writes (apply_writes m ws1) ws2.
Proof. unfold apply_writes. by rewrite fold_left_app. Qed.

Section images.
Context {D : Type} `{Image D}.

Lemma img_writes_spec ws (d : D) rc d' :
  img_ok d → writes_fit ws → img_writes d ws = Some (rc, d') →
  img_ok d' ∧ img_size d' = img_size d ∧
  (rc = 0 ∧ img_view d' ≡m apply_writes (img_view d) ws ∨ rc = -1).
Proof.
  revert d. induction ws as [|[off bs] ws IH]; intros d Hok Hfit Hw; simpl in Hw.
  { injection Hw as <- <-. split_and!; [done..|left; done]. }
  inversion Hfit as [|? ? [Ho Hl] Hfit']; subst. obind Hw x E. destruct x as [rc1 d1].
  apply img_write_spec in E as (Hok1 & Hs1 & Hrc1); [|done..].
  destruct (Z.eqb_spec rc1 0) as [->|Hne]; simpl in Hw.
  - destruct Hrc1 as [[_ Hv]|]; [|done]. apply IH in Hw as (Hok' & Hs' & Hrc'); [|done..].
    split; [done|]. split; [congruence|]. destruct Hrc' as [[-> Hv']|]; [left|by right].
    split; [done|]. simpl. by rewrite Hv', Hv.
  - injection Hw as <- <-. split_and!; [done..|by right].
Qed.

Lemma img_writes_total ws (d : D) k :
  img_ok d → writes_fit ws → 0 <= k → img_live (writes_len ws + k) d →
  ∃ d', img_writes d ws = Some (0, d') ∧ img_live k d'.
Proof.
  revert d. induction ws as [|[off bs] ws IH]; intros d Hok Hfit Hk Hlive; simpl in *; [by eauto|].
  inversion Hfit as [|? ? [Ho Hl] Hfit']; subst. simpl in *.
  assert (0 <= writes_len ws) by (clear; induction ws; simpl; lia).
  rewrite <- Z.add_assoc in Hlive.
  destruct (img_write_total d off bs (writes_len ws + k)) as (d1 & E & Hlive1); [done..|lia|done|].
  rewrite E. simpl. apply IH; [|done..]. by eapply img_write_spec in E as (?&?&?).
Qed.
End images.

(** ** Concrete runs *)

(** The simplest device: a byte map in memory, on which every write succeeds. *)
#[export, program] Instance ram_image : Image mem := {
  img_view d := d;
  img_size _ := OFF_MAX;
  img_ok _ := True;
  img_live _ _ := True;
  img_write d off bs := Some (0, mwrite d off bs);
  img_flush d := Some (0, d);
}.
Solve All Obligations with (simpl; intros; simplify_eq; eauto 10).
Next Obligation. simpl. intros. simplify_eq. split_and!; [done..|left; done]. Qed.
Next Obligation. simpl. intros. simplify_eq. split_and!; [done..|left; done]. Qed.

Definition fresh_image (size : Z) : blockio :=
  mkBlockio (mkFile (λ _, 0) size) size [] 0 false 0 0 0.

Lemma fresh_image_wf size : 0 <= size → io_wf (fresh_image size).
Proof. intros. apply idle_wf; simpl; [by split; [simpl|]|unfold OFF_MAX; lia|done]. Qed.

Lemma blockio_refines_image_witness : ∃ io io' f,
  blockio_create true true true 4096 = Some io ∧
  blockio_write [] io 5 [1; 2; 3] = Some (0, io', []) ∧ view io' 6 = 2 ∧
  blockio_close [Count 2; Eintr; Count 9; Count 0] io' = Some (0, f, []) ∧ fdata f 7 = 3.
Proof.
  exists (fresh_image 4096). eexists. eexists. split; [reflexivity|].
  destruct (blockio_refines_image (fresh_image 4096) 5 [] (fresh_image_wf 4096 ltac:(lia)) ltac:(lia))
    as [Hw _].
  assert (blockio_write [] (fresh_image 4096) 5 [1; 2; 3] = Some
    (0, mkBlockio (mkFile (λ _, 0) 4096) 4096 [1; 2; 3] 5 true 3 0 0, [])) as E by reflexivity.
  pose proof (Hw [1; 2; 3] _ _ _ ltac:(vm_compute; congruence) E) as (Hrc & Hwf & _).
  split; [exact E|]. split.
  { destruct Hrc as [[_ Hv]|]; [|lia]. rewrite (Hv 6). reflexivity. }
  destruct (blockio_refines_image _ 0 [Count 2; Eintr; Count 9; Count 0] Hwf ltac:(lia))
    as (_ & _ & _ & Hcl).
  split; [reflexivity|]. rewrite (Hcl _ _ _ eq_refl eq_refl 7). reflexivity.
Defined.

Lemma blockio_write_coalesces_witness : ∃ io' ans',
  blockio_write [Count 1; Count 1; Count 1] (fresh_image 4096) 5 [1; 2; 3] = Some (0, io', ans') ∧
  coal_len io' = 3 mod COAL_CAP.
Proof.
  destruct (blockio_write_coalesces [Count 1; Count 1; Count 1] (fresh_image 4096) 5 [1; 2; 3] 0)
    as (io' & ans' & E & _ & _ & Hc & _).
  - apply fresh_image_wf. lia.
  - lia.
  - vm_compute. congruence.
  - lia.
  - by left.
  - split; [repeat constructor|vm_compute; congruence].
  - exists io', ans'. split; [exact E|exact Hc].
Defined.
