(* ===== verification/ImageWrites.v ===== *)
(** * Batches of writes through the [Image] interface

    The file-system writers ([fat32.c], [ntfs.c]) send their blocks with
    [blockio_write] and look at no result: [puts].  When the device can still
    complete the bytes, a batch is the fold of its writes; this file also says
    what a batch leaves alone. *)

From S2P Require Import Prelude Bytes BlockIO.

Fixpoint puts {D} `{Image D} (d : D) (ws : list (Z * list Z)) : option D :=
  match ws with
  | [] => Some d
  | (off, bs) :: ws' => '(_, d1) ← img_write d off bs; puts d1 ws'
  end.

(** ** Writes and what they leave alone *)

Definition avoids (a n : Z) (ws : list (Z * list Z)) : Prop :=
  Forall (λ w, fst w + Z.of_nat (length (snd w)) <= a ∨ a + n <= fst w) ws.

Definition inside (lo hi : Z) (ws : list (Z * list Z)) : Prop :=
  Forall (λ w, lo <= fst w ∧ fst w + Z.of_nat (length (snd w)) <= hi) ws.

Lemma avoids_app a n ws1 ws2 : avoids a n ws1 → avoids a n ws2 → avoids a n (ws1 ++ ws2).
Proof. intros. by apply Forall_app. Qed.

Lemma inside_avoids lo hi a n ws : inside lo hi ws → hi <= a ∨ a + n <= lo → avoids a n ws.
Proof. intros Hw H. eapply Forall_impl; [exact Hw|]. simpl. lia. Qed.

Lemma inside_app lo hi ws1 ws2 : inside lo hi ws1 → inside lo hi ws2 → inside lo hi (ws1 ++ ws2).
Proof. intros. by apply Forall_app. Qed.

Lemma inside_weaken lo hi lo' hi' ws : lo' <= lo → hi <= hi' → inside lo hi ws → inside lo' hi' ws.
Proof. intros ? ? Hw. eapply Forall_impl; [exact Hw|]. simpl. lia. Qed.

Lemma inside_fit lo hi ws : 0 <= lo → hi <= OFF_MAX → inside lo hi ws → writes_fit ws.
Proof. intros ? ? Hw. eapply Forall_impl; [exact Hw|]. simpl. lia. Qed.

Lemma apply_writes_avoids m ws a n :
  avoids a (Z.of_nat n) ws → mread (apply_writes m ws) a n = mread m a n.
Proof.
  intros Hw. revert m. induction Hw as [|[off bs] ws Hd Hw IH]; intros m; [done|].
  unfold apply_writes in *. cbn [fold_left fst snd]. rewrite IH. simpl in Hd.
  apply mread_mwrite_disjoint. lia.
Qed.

Lemma apply_writes_out m ws lo hi x :
  inside lo hi ws → x < lo ∨ hi <= x → apply_writes m ws x = m x.
Proof.
  intros Hw Hx. revert m. induction Hw as [|[off bs] ws [H1 H2] Hw IH]; intros m; [done|].
  unfold apply_writes in *. cbn [fold_left fst snd]. rewrite IH. simpl in *. apply mwrite_out. lia.
Qed.

Lemma puts_total {D} `{Image D} ws (d : D) k :
  img_ok d → writes_fit ws → 0 <= k → img_live (writes_len ws + k) d →
  ∃ d', puts d ws = Some d' ∧ img_ok d' ∧ img_size d' = img_size d ∧
    img_view d' ≡m apply_writes (img_view d) ws ∧ img_live k d'.
Proof.
  revert d. induction ws as [|[off bs] ws IH]; intros d Hok Hfit Hk Hlive; simpl in *;
    [exists d; by split_and!|].
  inversion Hfit as [|? ? [Ho Hl] Hfit']; subst. simpl in *.
  assert (0 <= writes_len ws) by (clear; induction ws; simpl; lia).
  rewrite <- Z.add_assoc in Hlive.
  destruct (img_write_total d off bs (writes_len ws + k)) as (d1 & E & Hlive1); [done..|lia|done|].
  pose proof E as Esp. apply img_write_spec in Esp as (Hok1 & Hs1 & [[_ Hv1]|]); [|done..].
  rewrite E. simpl. destruct (IH d1 Hok1 Hfit' Hk Hlive1) as (d' & E' & Hok' & Hs' & Hv' & Hl').
  exists d'. split_and!; [done|done|congruence|by rewrite Hv', Hv1|done].
Qed.

Lemma writes_len_app ws1 ws2 : writes_len (ws1 ++ ws2) = writes_len ws1 + writes_len ws2.
Proof. unfold writes_len. induction ws1 as [|w ws1 IH]; simpl; lia. Qed.

Lemma writes_len_nonneg ws : 0 <= writes_len ws.
Proof. induction ws; simpl; lia. Qed.
