(* ===== verification/Rfc3174.v ===== *)
(** * The digest of RFC 3174

    The specification [Sha1] is compared with, written from the RFC and not from
    [sha1.c]: messages, blocks and digests are strings of bits, words are read
    from and written to them, and the functions f(t;B,C,D) are given by what they
    do to a bit.  The lemmas relate strings of bits to numbers. *)

From S2P Require Import Prelude Bytes.
Open Scope asb_scope.

(** ** Strings of bits (section 2) *)

(** Bits [n - 1] down to 0 of [v]: the first bit of a word is its highest. *)
Fixpoint bits_down (n : nat) (g : Z → bool) : list bool :=
  match n with O => [] | S n' => g (Z.of_nat n') :: bits_down n' g end.
Definition bits_of (n : nat) (v : Z) : list bool := bits_down n (Z.testbit v).

Definition word_of_bits (bs : list bool) : Z := fold_left (λ acc b, 2 * acc + Z.b2z b) bs 0.

(** A string in [n] pieces of [k] bits. *)
Fixpoint pieces_of {A} (n k : nat) (l : list A) : list (list A) :=
  match n with O => [] | S n' => take k l :: pieces_of n' k (drop k l) end.

Definition message_bits (m : list Z) : list bool := concat (map (bits_of 8) m).

(** ** Operations on words (section 3) *)

(** [S^n(X) = (X << n) OR (X >> 32-n)] *)
Definition circular_shift (n X : Z) : Z := (X * 2 ^ n) mod 2 ^ 32 + X / 2 ^ (32 - n).
Definition plus32 (l : list Z) : Z := foldr Z.add 0 l mod 2 ^ 32.

(** A word whose bits are [g] of the bits of three words. *)
Definition bitwise (g : bool → bool → bool → bool) (X Y W : Z) : Z :=
  word_of_bits (bits_down 32 (λ i, g (Z.testbit X i) (Z.testbit Y i) (Z.testbit W i))).

(** ** Padding (section 4) *)

(** A one, zeros up to 448 modulo 512 bits, and the length in 64 bits. *)
Definition pad_bits (M : list bool) : list bool :=
  let l := Z.of_nat (length M) in
  M ++ [true] ++ replicate (Z.to_nat ((447 - l) mod 512)) false ++ bits_of 64 l.

(** ** Functions and constants (section 5) *)

Definition f (t : nat) (B C D : Z) : Z :=
  if decide (t <= 19)%nat then bitwise (λ b c d, if b then c else d) B C D
  else if decide (t <= 39)%nat then bitwise (λ b c d, xorb b (xorb c d)) B C D
  else if decide (t <= 59)%nat then bitwise (λ b c d, if eqb b c then b else d) B C D
  else bitwise (λ b c d, xorb b (xorb c d)) B C D.

Definition K (t : nat) : Z :=
  if decide (t <= 19)%nat then 0x5A827999
  else if decide (t <= 39)%nat then 0x6ED9EBA1
  else if decide (t <= 59)%nat then 0x8F1BBCDC
  else 0xCA62C1D6.

(** The constants are the roots of 2, 3, 5 and 10. *)
Example K_roots : map (λ x, Z.sqrt (x * 2 ^ 60)) [2; 3; 5; 10] = map K [0; 20; 40; 60]%nat.
Proof. vm_compute. reflexivity. Qed.

(** ** The digest (section 6.1) *)

(** [W(t) = S^1(W(t-3) XOR W(t-8) XOR W(t-14) XOR W(t-16))], for [n] words more;
    the words so far, newest first. *)
Fixpoint schedule (n : nat) (W : list Z) : list Z :=
  match n with
  | O => W
  | S n' =>
      let at_ i := nth (i - 1) W 0 in
      schedule n' (circular_shift 1 (at_ 3%nat .^ at_ 8%nat .^ at_ 14%nat .^ at_ 16%nat) :: W)
  end.

Definition words5 : Type := Z * Z * Z * Z * Z.

Definition step (s : words5) (tW : nat * Z) : words5 :=
  let '(A, B, C, D, E) := s in
  let '(t, Wt) := tW in
  (plus32 [circular_shift 5 A; f t B C D; E; Wt; K t], A, circular_shift 30 B, C, D).

(** The processing of a block of 512 bits. *)
Definition process (H : words5) (M : list bool) : words5 :=
  let W := reverse (schedule 64 (reverse (map word_of_bits (pieces_of 16 32 M)))) in
  let '(H0, H1, H2, H3, H4) := H in
  let '(A, B, C, D, E) := fold_left step (zip (seq 0 80) W) H in
  (plus32 [H0; A], plus32 [H1; B], plus32 [H2; C], plus32 [H3; D], plus32 [H4; E]).

Definition initial : words5 := (0x67452301, 0xEFCDAB89, 0x98BADCFE, 0x10325476, 0xC3D2E1F0).

(** The 160 bits of the digest, as bytes. *)
Definition digest_bytes (H : words5) : list Z :=
  let '(H0, H1, H2, H3, H4) := H in
  map word_of_bits (pieces_of 20 8 (concat (map (bits_of 32) [H0; H1; H2; H3; H4]))).

Definition sha1_digest (m : list Z) : list Z :=
  let P := pad_bits (message_bits m) in
  digest_bytes (fold_left process (pieces_of (length P / 512) 512 P) initial).

(** The RFC's own tests (section 7.3): TEST1 is abc, TEST2 is abcdbcde...nopq. *)
Example rfc_test1 : sha1_digest [97; 98; 99] =
  [0xA9; 0x99; 0x3E; 0x36; 0x47; 0x06; 0x81; 0x6A; 0xBA; 0x3E; 0x25; 0x71; 0x78; 0x50; 0xC2; 0x6C; 0x9C; 0xD0; 0xD8; 0x9D].
Proof. vm_compute. reflexivity. Qed.

Example rfc_test2 :
  sha1_digest (concat (map (λ c, seqZ c 4) (seqZ 97 14))) =
  [0x84; 0x98; 0x3E; 0x44; 0x1C; 0x3B; 0xD2; 0x6E; 0xBA; 0xAE; 0x4A; 0xA1; 0xF9; 0x51; 0x29; 0xE5; 0xE5; 0x46; 0x70; 0xF1].
Proof. vm_compute. reflexivity. Qed.

(** ** Bits and numbers *)

Lemma length_bits_down n g : length (bits_down n g) = n.
Proof. induction n as [|n IH]; cbn [bits_down length]; [done|by rewrite IH]. Qed.

Lemma word_of_bits_acc bs acc : fold_left (λ acc b, 2 * acc + Z.b2z b) bs acc = acc * 2 ^ Z.of_nat (length bs) + word_of_bits bs.
Proof.
  unfold word_of_bits. revert acc. induction bs as [|b bs IH]; intros acc; cbn [fold_left length]; [lia|].
  rewrite IH, (IH (2 * 0 + Z.b2z b)). rewrite Nat2Z.inj_succ, Z.pow_succ_r by lia. lia.
Qed.

Lemma word_of_bits_app x y : word_of_bits (x ++ y) = word_of_bits x * 2 ^ Z.of_nat (length y) + word_of_bits y.
Proof. unfold word_of_bits at 1. rewrite fold_left_app, word_of_bits_acc. done. Qed.

Lemma word_of_bits_cons b bs : word_of_bits (b :: bs) = Z.b2z b * 2 ^ Z.of_nat (length bs) + word_of_bits bs.
Proof. change (b :: bs) with ([b] ++ bs). rewrite word_of_bits_app. destruct b; done. Qed.

Lemma word_of_bits_range bs : 0 <= word_of_bits bs < 2 ^ Z.of_nat (length bs).
Proof.
  induction bs as [|b bs IH]; [done|]. rewrite word_of_bits_cons. cbn [length].
  rewrite Nat2Z.inj_succ, Z.pow_succ_r by lia. destruct b; cbn [Z.b2z]; lia.
Qed.

Lemma word_testbit n g i : 0 <= i < Z.of_nat n → Z.testbit (word_of_bits (bits_down n g)) i = g i.
Proof.
  induction n as [|n IH]; intros Hi; [lia|]. cbn [bits_down]. rewrite word_of_bits_cons, length_bits_down.
  pose proof (word_of_bits_range (bits_down n g)) as Hr. rewrite length_bits_down in Hr. set (r := word_of_bits _) in *.
  destruct (decide (i = Z.of_nat n)) as [->|Hne].
  - apply Z.b2z_inj. rewrite Z.testbit_spec', Z.div_add_l, (Z.div_small r) by lia. by destruct (g (Z.of_nat n)).
  - rewrite <- IH by lia. rewrite <- (Z.mod_pow2_bits_low _ (Z.of_nat n) i) by lia.
    rewrite Z.add_comm, Z_mod_plus_full, Z.mod_small by lia. done.
Qed.

Lemma word_bits_of n v : word_of_bits (bits_of n v) = v mod 2 ^ Z.of_nat n.
Proof.
  apply Z.bits_inj'. intros i Hi. destruct (Z.lt_ge_cases i (Z.of_nat n)) as [Hn|Hn].
  - rewrite Z.mod_pow2_bits_low by lia. by apply word_testbit.
  - rewrite Z.mod_pow2_bits_high by lia. pose proof (word_of_bits_range (bits_of n v)) as Hr. unfold bits_of in *. rewrite length_bits_down in Hr.
    rewrite <- (Z.mod_small _ _ Hr). apply Z.mod_pow2_bits_high. lia.
Qed.

(** The bits of a number, its high part first. *)
Lemma bits_of_split n k v : bits_of (n + k) v = bits_of n (v / 2 ^ Z.of_nat k) ++ bits_of k v.
Proof.
  unfold bits_of. induction n as [|n IH]; [done|]. cbn [Nat.add bits_down app]. f_equal; [|exact IH].
  rewrite <- Z.shiftr_div_pow2, Z.shiftr_spec by lia. f_equal. lia.
Qed.

Lemma bits_of_ext n u v : u mod 2 ^ Z.of_nat n = v mod 2 ^ Z.of_nat n → bits_of n u = bits_of n v.
Proof.
  intros E. unfold bits_of. assert (∀ k, (k <= n)%nat → bits_down k (Z.testbit u) = bits_down k (Z.testbit v)) as H; [|by apply H].
  induction k as [|k IH]; intros Hk; [done|]. cbn [bits_down]. f_equal; [|apply IH; lia].
  rewrite <- (Z.mod_pow2_bits_low u (Z.of_nat n)), E, Z.mod_pow2_bits_low by lia. done.
Qed.

Lemma length_message m : length (message_bits m) = (8 * length m)%nat.
Proof. unfold message_bits. induction m as [|c m IH]; [done|]. cbn [map concat length]. rewrite length_app, IH. unfold bits_of. rewrite length_bits_down. lia. Qed.

Lemma message_app x y : message_bits (x ++ y) = message_bits x ++ message_bits y.
Proof. unfold message_bits. by rewrite map_app, concat_app. Qed.

Lemma message_zeros k : message_bits (replicate k 0) = replicate (8 * k) false.
Proof. unfold message_bits. induction k as [|k IH]; [done|]. cbn [replicate map concat]. rewrite IH. replace (8 * S k)%nat with (8 + 8 * k)%nat by lia. by rewrite replicate_add. Qed.

Lemma message_take k m : take (8 * k) (message_bits m) = message_bits (take k m).
Proof.
  revert k. induction m as [|c m IH]; intros k; [unfold message_bits; cbn [map concat]; by rewrite !take_nil|]. destruct k as [|k]; [done|].
  cbn [take]. change (message_bits (c :: m)) with (bits_of 8 c ++ message_bits m). change (message_bits (c :: take k m)) with (bits_of 8 c ++ message_bits (take k m)).
  replace (8 * S k)%nat with (8 + 8 * k)%nat by lia. rewrite take_app_add' by (unfold bits_of; by rewrite length_bits_down). by rewrite IH.
Qed.

Lemma message_drop k m : drop (8 * k) (message_bits m) = message_bits (drop k m).
Proof.
  revert k. induction m as [|c m IH]; intros k; [unfold message_bits; cbn [map concat]; by rewrite !drop_nil|]. destruct k as [|k]; [done|].
  cbn [drop]. change (message_bits (c :: m)) with (bits_of 8 c ++ message_bits m).
  replace (8 * S k)%nat with (8 + 8 * k)%nat by lia. rewrite drop_app_add' by (unfold bits_of; by rewrite length_bits_down). by rewrite IH.
Qed.

(** The pieces of a message of bytes are the messages of its pieces. *)
Lemma pieces_message n k m : pieces_of n (8 * k) (message_bits m) = map message_bits (pieces_of n k m).
Proof.
  revert m. induction n as [|n IH]; intros m; [done|]. cbn [pieces_of map]. by rewrite message_take, message_drop, IH.
Qed.

Lemma pieces_message_bits n q k m : q = (8 * k)%nat → pieces_of n q (message_bits m) = map message_bits (pieces_of n k m).
Proof. intros ->. apply pieces_message. Qed.

Lemma byte_word c : is_byte c → word_of_bits (bits_of 8 c) = c.
Proof. intros H. rewrite word_bits_of. apply Z.mod_small. unfold is_byte in H. lia. Qed.

Lemma length_pieces {A} n k (l : list A) : length (pieces_of n k l) = n.
Proof. revert l. induction n as [|n IH]; intros l; [done|]. cbn [pieces_of length]. by rewrite IH. Qed.

Lemma pieces_short {A} n k (l : list A) : Forall (λ x, (length x <= k)%nat) (pieces_of n k l).
Proof. revert l. induction n as [|n IH]; intros l; cbn [pieces_of]; constructor; [rewrite length_take; lia|apply IH]. Qed.
