(* ===== verification/Sha1.v ===== *)
(** * SHA-1 ([src/tools/iso-patch-mac/engine/sha1.c])

    The streaming context, and the theorem that feeding a message in any number
    of pieces gives the digest of RFC 3174 ([Rfc3174]): first that the pieces do
    not matter, then that the padded blocks, hashed one by one, are the RFC's. *)

From S2P Require Import Prelude Bytes Rfc3174.
Open Scope asb_scope.

(** ** The compression function *)

Definition rol (v b : Z) : Z := u32 (Z.lor (Z.shiftl v b) (Z.shiftr v (32 - b))).

(** [c->h[0..4]]. *)
Record hash5 := mkHash { h0 : Z; h1 : Z; h2 : Z; h3 : Z; h4 : Z }.

Definition be32_at (p : list Z) (i : Z) : Z :=
  (Z.shiftl (bget p i) 24 .| Z.shiftl (bget p (i + 1)) 16) .| Z.shiftl (bget p (i + 2)) 8 .| bget p (i + 3).

(** The first sixteen words of [w]. *)
Definition load_words (p : list Z) : list Z := map (λ i, be32_at p (i * 4)) (seqZ 0 16).

(** [w[i]] for [i] from 16 on, appended in turn. *)
Fixpoint expand (n : nat) (w : list Z) : list Z :=
  match n with
  | O => w
  | S n' =>
      let i := Z.of_nat (length w) in
      expand n' (w ++ [rol (bget w (i - 3) .^ bget w (i - 8) .^ bget w (i - 14) .^ bget w (i - 16)) 1])
  end.

Definition not32 (z : Z) : Z := 4294967295 - z.

Definition round (s : hash5) (i wi : Z) : hash5 :=
  let '(mkHash a b d e f) := s in
  let '(t, k) :=
    if i <? 20 then ((b .& d) .| (not32 b .& e), 0x5A827999)
    else if i <? 40 then (b .^ d .^ e, 0x6ED9EBA1)
    else if i <? 60 then ((b .& d) .| (b .& e) .| (d .& e), 0x8F1BBCDC)
    else (b .^ d .^ e, 0xCA62C1D6) in
  mkHash (u32 (rol a 5 + t + f + k + wi)) a (rol b 30) d e.

Fixpoint rounds (s : hash5) (i : Z) (w : list Z) : hash5 :=
  match w with [] => s | wi :: w' => rounds (round s i wi) (i + 1) w' end.

Definition sha1_block (h : hash5) (p : list Z) : hash5 :=
  let r := rounds h 0 (expand 64 (load_words p)) in
  mkHash (u32 (h0 h + h0 r)) (u32 (h1 h + h1 r)) (u32 (h2 h + h2 r)) (u32 (h3 h + h3 r)) (u32 (h4 h + h4 r)).

(** ** The streaming context *)

Record sha1_ctx := mkSha1 {
  ctx_h : hash5;
  ctx_total : Z;
  ctx_buf : list Z;       (* [buf[0 .. buflen)] *)
}.

Definition buflen (c : sha1_ctx) : Z := Z.of_nat (length (ctx_buf c)).

Definition H_INIT : hash5 := mkHash 0x67452301 0xEFCDAB89 0x98BADCFE 0x10325476 0xC3D2E1F0.

Definition sha1_init : sha1_ctx := mkSha1 H_INIT 0 [].

(** [while (len >= 64)], once per block of [p]. *)
Fixpoint full_blocks (n : nat) (h : hash5) (p : list Z) : hash5 * list Z :=
  match n with
  | O => (h, p)
  | S n' => if 64 <=? Z.of_nat (length p) then full_blocks n' (sha1_block h (take 64 p)) (drop 64 p) else (h, p)
  end.

(** The whole-block part of [sha1_update], and the tail kept in [buf]. *)
Definition update_rest (c : sha1_ctx) (p : list Z) : sha1_ctx :=
  let '(h, p') := full_blocks (length p / 64) (ctx_h c) p in
  mkSha1 h (ctx_total c) (if negb (Z.of_nat (length p') =? 0) then p' else ctx_buf c).

Definition sha1_update (c : sha1_ctx) (p : list Z) : sha1_ctx :=
  let len := Z.of_nat (length p) in
  let c := mkSha1 (ctx_h c) (u64 (ctx_total c + len)) (ctx_buf c) in
  if negb (buflen c =? 0) then
    let need := 64 - buflen c in
    let take_n := Z.to_nat (if len <? need then len else need) in
    let c1 := mkSha1 (ctx_h c) (ctx_total c) (ctx_buf c ++ take take_n p) in
    let c2 := if buflen c1 =? 64 then mkSha1 (sha1_block (ctx_h c1) (ctx_buf c1)) (ctx_total c1) [] else c1 in
    update_rest c2 (drop take_n p)
  else update_rest c p.

(** [while (c->buflen != 56) sha1_update(c, &z, 1)]: [buflen] cycles through all
    the values below 64, so 64 rounds are enough ([pad_zeros_done]). *)
Fixpoint pad_zeros (n : nat) (c : sha1_ctx) : option sha1_ctx :=
  if buflen c =? 56 then Some c else
  match n with O => None | S n' => pad_zeros n' (sha1_update c [0]) end.

Definition lenbe (bits : Z) : list Z := map (λ i, u8 (Z.shiftr bits (56 - 8 * i))) (seqZ 0 8).

Definition word_out (h : Z) : list Z :=
  [u8 (Z.shiftr h 24); u8 (Z.shiftr h 16); u8 (Z.shiftr h 8); u8 h].

Definition digest (h : hash5) : list Z :=
  word_out (h0 h) ++ word_out (h1 h) ++ word_out (h2 h) ++ word_out (h3 h) ++ word_out (h4 h).

Definition sha1_final (c : sha1_ctx) : option (list Z) :=
  let bits := u64 (ctx_total c * 8) in
  c2 ← pad_zeros 64 (sha1_update c [0x80]);
  Some (digest (ctx_h (sha1_update c2 (lenbe bits)))).

Definition sha1 (data : list Z) : option (list Z) := sha1_final (sha1_update sha1_init data).

(** ** Block by block *)

(** The message as consecutive 64-byte blocks. *)
Fixpoint blocks (n : nat) (m : list Z) : list (list Z) :=
  match n with O => [] | S n' => take 64 m :: blocks n' (drop 64 m) end.

(** The bytes [sha1_final] adds. *)
Definition padded (m : list Z) : list Z :=
  m ++ [0x80] ++ replicate (Z.to_nat ((55 - Z.of_nat (length m)) mod 64)) 0 ++
  lenbe (u64 (8 * Z.of_nat (length m))).

Definition hash_blocks (m : list Z) : hash5 := fold_left sha1_block (blocks (length m / 64) m) H_INIT.

Definition block_sha1 (m : list Z) : list Z := digest (hash_blocks (padded m)).

Example sha1_abc : sha1 [97; 98; 99] = Some
  [0xA9; 0x99; 0x3E; 0x36; 0x47; 0x06; 0x81; 0x6A; 0xBA; 0x3E; 0x25; 0x71; 0x78; 0x50; 0xC2; 0x6C;
   0x9C; 0xD0; 0xD8; 0x9D].
Proof. vm_compute. reflexivity. Qed.

(** ** Correctness of streaming *)

(** The context after the bytes [m]: whole blocks are hashed, the rest waits. *)
Definition fed (m : list Z) : sha1_ctx :=
  mkSha1 (hash_blocks (take (64 * (length m / 64)) m)) (u64 (Z.of_nat (length m)))
    (drop (64 * (length m / 64)) m).

Lemma blocks_app n k a b :
  length a = (64 * n)%nat → blocks (n + k) (a ++ b) = blocks n a ++ blocks k b.
Proof.
  revert a. induction n as [|n IH]; intros a Ha; simpl.
  { by rewrite (nil_length_inv a) by lia. }
  rewrite take_app_le, drop_app_le by lia. f_equal. apply IH. rewrite length_drop. lia.
Qed.

Lemma hash_blocks_app n k a b :
  length a = (64 * n)%nat → length b = (64 * k)%nat →
  hash_blocks (a ++ b) = fold_left sha1_block (blocks k b) (hash_blocks a).
Proof.
  intros Ha Hb. unfold hash_blocks. rewrite length_app, Ha, Hb, <- Nat.mul_add_distr_l.
  rewrite !(Nat.mul_comm 64), !Nat.div_mul by lia. by rewrite blocks_app, fold_left_app.
Qed.

Lemma blocks_take n m : blocks n (take (64 * n) m) = blocks n m.
Proof.
  revert m. induction n as [|n IH]; intros m; [done|]. cbn [blocks]. f_equal.
  - rewrite take_take. f_equal. lia.
  - replace (64 * S n)%nat with (64 + 64 * n)%nat by lia.
    by rewrite <- take_drop_commute, IH.
Qed.

Lemma full_blocks_spec n h p :
  (64 * n <= length p)%nat →
  full_blocks n h p = (fold_left sha1_block (blocks n p) h, drop (64 * n) p).
Proof.
  revert h p. induction n as [|n IH]; intros h p Hn; [done|]. cbn [full_blocks blocks fold_left].
  destruct (Z.leb_spec 64 (Z.of_nat (length p))); [|lia].
  rewrite IH by (rewrite length_drop; lia). rewrite drop_drop. do 2 f_equal. lia.
Qed.

Lemma length_split (m : list Z) : ∃ r, length m = (64 * (length m / 64) + r)%nat ∧ (r < 64)%nat.
Proof. exists (length m mod 64)%nat. split; [apply Nat.div_mod; lia|apply Nat.mod_upper_bound; lia]. Qed.

Lemma update_rest_fed m n p t :
  length m = (64 * n)%nat →
  update_rest (mkSha1 (hash_blocks m) t []) p = mkSha1 (ctx_h (fed (m ++ p))) t (ctx_buf (fed (m ++ p))).
Proof.
  intros Hm. unfold update_rest, fed. cbn [ctx_h ctx_total ctx_buf].
  destruct (length_split p) as (r & Hp & Hr). set (k := (length p / 64)%nat) in *.
  rewrite full_blocks_spec by lia.
  replace (length (m ++ p) / 64)%nat with (n + k)%nat by (rewrite length_app; apply Nat.div_unique with r; lia).
  rewrite take_app_ge, drop_app_ge by lia.
  replace (64 * (n + k) - length m)%nat with (64 * k)%nat by lia.
  rewrite (hash_blocks_app n k) by (rewrite ?length_take; lia). rewrite blocks_take. f_equal.
  bcase; [done|]. symmetry. apply nil_length_inv. apply Nat2Z.inj. exact E.
Qed.

(** The invariant of streaming: an update feeds exactly its bytes. *)
Lemma sha1_update_fed m p : sha1_update (fed m) p = fed (m ++ p).
Proof.
  destruct (length_split m) as (r & Hm & Hr). set (n := (length m / 64)%nat) in *.
  assert (length (take (64 * n) m) = (64 * n)%nat) as Hta by (rewrite length_take; lia).
  assert (length (drop (64 * n) m) = r) as Hdr by (rewrite length_drop; lia).
  assert (u64 (u64 (Z.of_nat (length m)) + Z.of_nat (length p)) = u64 (Z.of_nat (length (m ++ p)))) as Ht.
  { autorewrite with wrap. rewrite length_app. f_equal. lia. }
  assert (∀ q, fed q = mkSha1 (ctx_h (fed q)) (u64 (Z.of_nat (length q))) (ctx_buf (fed q))) as Hfed by done.
  unfold sha1_update, buflen. cbn [ctx_h ctx_total ctx_buf fed]. fold n. rewrite Ht, Hdr.
  destruct (Z.eqb_spec (Z.of_nat r) 0) as [E0|E0]; cbn [negb].
  - assert (drop (64 * n) m = []) as -> by (apply nil_length_inv; lia).
    rewrite (take_ge m) by lia. rewrite (update_rest_fed m n) by lia. done.
  - destruct (Z.ltb_spec (Z.of_nat (length p)) (64 - Z.of_nat r)) as [Hlt|Hge].
    + rewrite Nat2Z.id, firstn_all, drop_all. cbn [ctx_h ctx_total ctx_buf].
      rewrite length_app, Hdr. destruct (Z.eqb_spec (Z.of_nat (r + length p)) 64); [lia|].
      unfold update_rest. simpl. unfold fed.
      replace (length (m ++ p) / 64)%nat with n by (rewrite length_app; apply Nat.div_unique with (r + length p)%nat; lia).
      by rewrite take_app_le, drop_app_le by lia.
    + set (k := Z.to_nat (64 - Z.of_nat r)). cbn [ctx_h ctx_total ctx_buf].
      assert (length (take k p) = k) as Hk by (rewrite length_take; lia).
      rewrite length_app, Hdr, Hk. destruct (Z.eqb_spec (Z.of_nat (r + k)) 64); [|lia].
      cbn [ctx_h ctx_total ctx_buf].
      assert (sha1_block (hash_blocks (take (64 * n) m)) (drop (64 * n) m ++ take k p) = hash_blocks (m ++ take k p)) as ->.
      { rewrite <- (take_drop (64 * n) m) at 3. rewrite <- app_assoc.
        rewrite (hash_blocks_app n 1) by (rewrite ?length_app; lia).
        cbn [blocks fold_left].
        by rewrite (take_ge (drop (64 * n) m ++ take k p)) by (rewrite length_app; lia). }
      rewrite (update_rest_fed _ (n + 1)) by (rewrite length_app; lia).
      rewrite <- app_assoc, take_drop. done.
Qed.

Lemma fed_buflen m : buflen (fed m) = Z.of_nat (length m) mod 64.
Proof.
  unfold buflen, fed. cbn [ctx_buf]. rewrite length_drop.
  pose proof (Nat.div_mod_eq (length m) 64). pose proof (Nat.mod_upper_bound (length m) 64).
  change 64 with (Z.of_nat 64). rewrite <- Nat2Z.inj_mod. lia.
Qed.

Lemma pad_zeros_spec n m :
  (55 - (Z.of_nat (length m) - 1)) mod 64 <= Z.of_nat n →
  pad_zeros n (fed m) = Some (fed (m ++ replicate (Z.to_nat ((55 - (Z.of_nat (length m) - 1)) mod 64)) 0)).
Proof.
  revert m. induction n as [|n IH]; intros m Hn; cbn [pad_zeros]; rewrite fed_buflen;
    destruct (Z.eqb_spec (Z.of_nat (length m) mod 64) 56) as [E|E].
  1,3: assert ((55 - (Z.of_nat (length m) - 1)) mod 64 = 0) as -> by dlia; by rewrite app_nil_r.
  { exfalso. dlia. }
  assert ((55 - (Z.of_nat (length (m ++ [0])) - 1)) mod 64 + 1 = (55 - (Z.of_nat (length m) - 1)) mod 64) as Hs.
  { rewrite length_app. simpl. dlia. }
  rewrite sha1_update_fed, IH by lia. do 2 f_equal. rewrite <- app_assoc. f_equal.
  rewrite <- Hs. set (k := (55 - (Z.of_nat (length (m ++ [0])) - 1)) mod 64).
  assert (0 <= k) by (apply Z.mod_pos_bound; lia).
  by rewrite Z2Nat.inj_add, Nat.add_1_r by lia.
Qed.

Lemma sha1_final_fed m : sha1_final (fed m) = Some (block_sha1 m).
Proof.
  unfold sha1_final. rewrite sha1_update_fed, pad_zeros_spec by dlia.
  cbn [mbind option_bind]. rewrite sha1_update_fed. f_equal. unfold block_sha1.
  assert (u64 (ctx_total (fed m) * 8) = u64 (8 * Z.of_nat (length m))) as ->.
  { unfold fed, u64. cbn [ctx_total]. rewrite Zmult_mod_idemp_l. f_equal. lia. }
  rewrite length_app. change (length [0x80]) with 1%nat.
  replace (Z.of_nat (length m + 1) - 1) with (Z.of_nat (length m)) by lia.
  rewrite <- !app_assoc. fold (padded m). unfold fed. cbn [ctx_h]. do 2 f_equal.
  apply take_ge. unfold padded. rewrite !length_app, length_replicate.
  change (length (lenbe _)) with 8%nat. change (length [0x80]) with 1%nat.
  set (k := Z.to_nat ((55 - Z.of_nat (length m)) mod 64)).
  assert (∃ q, (length m + (1 + (k + 8)) = 64 * q)%nat) as [q ->].
  { exists (Z.to_nat ((Z.of_nat (length m) + 9 + (55 - Z.of_nat (length m)) mod 64) / 64)). dlia. }
  rewrite (Nat.mul_comm 64), Nat.div_mul by lia. lia.
Qed.

Lemma sha1_pieces pieces : sha1_final (fold_left sha1_update pieces sha1_init) = Some (block_sha1 (concat pieces)).
Proof.
  assert (∀ m, fold_left sha1_update pieces (fed m) = fed (m ++ concat pieces)) as H.
  { induction pieces as [|p ps IH]; intros m; simpl; [by rewrite app_nil_r|].
    by rewrite sha1_update_fed, IH, app_assoc. }
  change sha1_init with (fed []). rewrite H. apply sha1_final_fed.
Qed.

(** ** The blocks are the RFC's *)

Definition to5 (h : hash5) : words5 := (h0 h, h1 h, h2 h, h3 h, h4 h).
Definition words_ok (h : hash5) : Prop := is_u32 (h0 h) ∧ is_u32 (h1 h) ∧ is_u32 (h2 h) ∧ is_u32 (h3 h) ∧ is_u32 (h4 h).

Lemma rol_shift v n : is_u32 v → 0 < n < 32 → rol v n = circular_shift n v ∧ is_u32 (rol v n).
Proof.
  intros Hv Hn. split; [|apply u32_range]. unfold rol, circular_shift, is_u32 in *.
  rewrite Z.lor_comm, Z.shiftr_div_pow2 by lia.
  assert (2 ^ 32 = 2 ^ (32 - n) * 2 ^ n) as E by (rewrite <- Z.pow_add_r by lia; f_equal; lia). change 4294967296 with (2 ^ 32) in *.
  pose proof (Z.pow_pos_nonneg 2 n ltac:(lia) ltac:(lia)) as P1. pose proof (Z.pow_pos_nonneg 2 (32 - n) ltac:(lia) ltac:(lia)) as P2.
  set (a := 2 ^ n) in *. set (c := 2 ^ (32 - n)) in *. pose proof (Z.div_mod v c ltac:(lia)) as Ev. pose proof (Z.mod_pos_bound v c ltac:(lia)) as Hr.
  set (q := v / c) in *. set (r := v mod c) in *.
  assert (0 <= q < a) as Hq by (split; [apply Z.div_pos; lia|apply Z.div_lt_upper_bound; nia]).
  rewrite lor_shiftl_add by (fold a; lia). fold a. unfold u32. change 4294967296 with (2 ^ 32). rewrite E.
  assert (v * a = r * a + q * (c * a)) as -> by nia. rewrite Z.add_assoc, !Z_mod_plus_full. rewrite !Z.mod_small by nia. lia.
Qed.

Lemma shiftl_lor b n a : 0 <= n → 0 <= a < 2 ^ n → Z.lor (Z.shiftl b n) a = b * 2 ^ n + a.
Proof. intros Hn Ha. rewrite Z.lor_comm, lor_shiftl_add by done. lia. Qed.

Lemma be32_word x y z t l : is_byte x → is_byte y → is_byte z → is_byte t → be32_at (x :: y :: z :: t :: l) 0 = word_of_bits (message_bits [x; y; z; t]).
Proof.
  unfold is_byte. intros Hx Hy Hz Ht. unfold be32_at. change (bget _ 0) with x. change (bget _ (0 + 1)) with y. change (bget _ (0 + 2)) with z. change (bget _ (0 + 3)) with t.
  unfold message_bits. cbn [map concat]. rewrite !word_of_bits_app, !byte_word by done. rewrite !length_app.
  change (length (bits_of 8 ?c)) with 8%nat. cbn [length Nat.add word_of_bits fold_left].
  rewrite <- !Z.lor_assoc, (shiftl_lor z), (shiftl_lor y), (shiftl_lor x) by lia. lia.
Qed.

Lemma be32_at_skip x y z t l i : 0 <= i → be32_at (x :: y :: z :: t :: l) (i + 4) = be32_at l i.
Proof.
  intros Hi. unfold be32_at, bget.
  replace (Z.to_nat (i + 4)) with (4 + Z.to_nat i)%nat by lia. replace (Z.to_nat (i + 4 + 1)) with (4 + Z.to_nat (i + 1))%nat by lia.
  replace (Z.to_nat (i + 4 + 2)) with (4 + Z.to_nat (i + 2))%nat by lia. by replace (Z.to_nat (i + 4 + 3)) with (4 + Z.to_nat (i + 3))%nat by lia.
Qed.

(** The words of a block, and of every string of words. *)
Lemma load_words_ok n p : bytes p → length p = (4 * n)%nat →
  map (λ i, be32_at p (i * 4)) (seqZ 0 (Z.of_nat n)) = map word_of_bits (pieces_of n 32 (message_bits p)).
Proof.
  change 32%nat with (8 * 4)%nat. rewrite pieces_message, map_map. revert p. induction n as [|n IH]; intros p Hb Hl; [done|].
  destruct p as [|x [|y [|z [|t p]]]]; cbn [length] in Hl; try lia. rewrite !Forall_cons in Hb. destruct Hb as (Hx & Hy & Hz & Ht & Hb).
  cbn [pieces_of map firstn skipn]. change (take 0 p) with (@nil Z). change (drop 0 p) with p. rewrite <- (IH p Hb) by lia. rewrite seqZ_cons by lia. cbn [map]. f_equal; [by apply be32_word|].
  rewrite Nat2Z.inj_succ, Z.pred_succ. change (Z.succ 0) with (1 + 0). rewrite <- (fmap_add_seqZ 1 0). change (Z.add 1 <$> ?l) with (map (Z.add 1) l). rewrite map_map.
  apply map_ext_in. intros i Hi. apply list_elem_of_In, elem_of_seqZ in Hi. replace ((1 + i) * 4) with (i * 4 + 4) by lia. apply be32_at_skip. lia.
Qed.

(** [w[len - k]] is the [k]-th newest word. *)
Lemma newest w k : (1 <= k <= length w)%nat → bget w (Z.of_nat (length w) - Z.of_nat k) = nth (k - 1) (reverse w) 0.
Proof.
  intros Hk. unfold bget. replace (Z.to_nat _) with (length w - k)%nat by lia. rewrite !nth_lookup, reverse_lookup by lia. do 2 f_equal. lia.
Qed.

Lemma nth_u32 l i : Forall is_u32 l → is_u32 (nth i l 0).
Proof. intros H. destruct (nth_in_or_default i l 0) as [Hin| ->]; [|by vm_compute]. rewrite list.Forall_forall in H. by apply H, list_elem_of_In. Qed.

Lemma expand_ok n w : Forall is_u32 w → (16 <= length w)%nat →
  expand n w = reverse (schedule n (reverse w)) ∧ Forall is_u32 (expand n w) ∧ length (expand n w) = (length w + n)%nat.
Proof.
  revert w. induction n as [|n IH]; intros w Hw Hl; cbn [expand schedule]; [rewrite reverse_involutive, Nat.add_0_r; by split_and!|].
  pose proof (newest w 3 ltac:(lia)) as N3. pose proof (newest w 8 ltac:(lia)) as N8. pose proof (newest w 14 ltac:(lia)) as N14. pose proof (newest w 16 ltac:(lia)) as N16.
  change (Z.of_nat 3) with 3 in N3. change (Z.of_nat 8) with 8 in N8. change (Z.of_nat 14) with 14 in N14. change (Z.of_nat 16) with 16 in N16. rewrite N3, N8, N14, N16.
  set (x := _ .^ _ .^ _ .^ _). assert (is_u32 x) as Hx by (unfold x; do 3 (apply lxor_u32; [|by apply nth_u32, Forall_reverse]); by apply nth_u32, Forall_reverse).
  destruct (rol_shift x 1 Hx ltac:(lia)) as [<- Hr]. destruct (IH (w ++ [rol x 1])) as (E1 & E2 & E3).
  { apply Forall_app. by split; [|constructor]. } { rewrite length_app. lia. }
  rewrite E3, length_app. rewrite reverse_app in E1. split; [exact E1|]. split; [exact E2|cbn [length]; lia].
Qed.

(** The four functions, bit by bit. *)
Lemma bitwise_eq g X Y W v : (∀ i, 0 <= i < 32 → Z.testbit v i = g (Z.testbit X i) (Z.testbit Y i) (Z.testbit W i)) → bitwise g X Y W = u32 v.
Proof.
  intros H. unfold bitwise, u32. change 4294967296 with (2 ^ Z.of_nat 32). rewrite <- (word_bits_of 32 v). unfold bits_of.
  assert (∀ k, (k <= 32)%nat → bits_down k (λ i, g (Z.testbit X i) (Z.testbit Y i) (Z.testbit W i)) = bits_down k (Z.testbit v)) as Hk.
  { induction k as [|k IH]; intros Hk; [done|]. cbn [bits_down]. rewrite H, IH by lia. done. }
  by rewrite Hk.
Qed.

Lemma not32_bit z i : 0 <= i < 32 → Z.testbit (not32 z) i = negb (Z.testbit z i).
Proof.
  intros Hi. unfold not32. rewrite <- (Z.mod_pow2_bits_low _ 32) by lia.
  replace (4294967295 - z) with (Z.lnot z + 1 * 2 ^ 32) by (unfold Z.lnot; lia). rewrite Z_mod_plus_full, Z.mod_pow2_bits_low, Z.lnot_spec by lia. done.
Qed.

Lemma round_f (i : nat) b c d : f i b c d =
  u32 (if Z.of_nat i <? 20 then (b .& c) .| (not32 b .& d) else if Z.of_nat i <? 40 then b .^ c .^ d
       else if Z.of_nat i <? 60 then (b .& c) .| (b .& d) .| (c .& d) else b .^ c .^ d).
Proof.
  unfold f. repeat case_decide; destruct (Z.ltb_spec (Z.of_nat i) 20), (Z.ltb_spec (Z.of_nat i) 40), (Z.ltb_spec (Z.of_nat i) 60); try lia; apply bitwise_eq; intros j Hj;
    rewrite ?Z.lor_spec, ?Z.lxor_spec, ?Z.land_spec, ?Z.lor_spec, ?Z.land_spec, ?not32_bit by done;
    destruct (Z.testbit b j), (Z.testbit c j), (Z.testbit d j); reflexivity.
Qed.

Lemma round_step s i wi : words_ok s → to5 (round s (Z.of_nat i) wi) = step (to5 s) (i, wi) ∧ words_ok (round s (Z.of_nat i) wi).
Proof.
  destruct s as [a b c d e]. intros (Ha & Hb & Hc & Hd & He). cbn [h0 h1 h2 h3 h4] in *. unfold step, to5. cbn [h0 h1 h2 h3 h4].
  destruct (rol_shift a 5 Ha ltac:(lia)) as [Ra Ra']. destruct (rol_shift b 30 Hb ltac:(lia)) as [Rb Rb']. rewrite <- Ra, <- Rb, round_f.
  assert (K i = if Z.of_nat i <? 20 then 0x5A827999 else if Z.of_nat i <? 40 then 0x6ED9EBA1 else if Z.of_nat i <? 60 then 0x8F1BBCDC else 0xCA62C1D6) as EK.
  { unfold K. repeat case_decide; destruct (Z.ltb_spec (Z.of_nat i) 20), (Z.ltb_spec (Z.of_nat i) 40), (Z.ltb_spec (Z.of_nat i) 60); try lia. }
  rewrite EK. unfold round. destruct (Z.ltb_spec (Z.of_nat i) 20); [|destruct (Z.ltb_spec (Z.of_nat i) 40); [|destruct (Z.ltb_spec (Z.of_nat i) 60)]].
  all: cbn [h0 h1 h2 h3 h4]; split; [|split_and!; cbn [h0 h1 h2 h3 h4]; first [apply u32_range|done]].
  all: do 4 (apply (f_equal2 pair); [|reflexivity]); unfold plus32, u32; cbn [foldr]; change (2 ^ 32) with 4294967296.
  all: match goal with |- (?r + ?t + _ + _ + _) mod _ = (?r + (?t mod ?m + ?q)) mod _ =>
         rewrite (Z.add_comm (t mod m) q), Z.add_assoc, Zplus_mod_idemp_r; f_equal; lia end.
Qed.

Lemma rounds_steps w : ∀ s i, words_ok s → to5 (rounds s (Z.of_nat i) w) = fold_left step (zip (seq i (length w)) w) (to5 s) ∧ words_ok (rounds s (Z.of_nat i) w).
Proof.
  induction w as [|wi w IH]; intros s i Hs; [done|]. cbn [rounds length seq zip zip_with fold_left].
  destruct (round_step s i wi Hs) as [<- Hr]. replace (Z.of_nat i + 1) with (Z.of_nat (S i)) by lia. by apply IH.
Qed.

Lemma plus32_two a b : plus32 [a; b] = u32 (a + b).
Proof. unfold plus32, u32. cbn [foldr]. by rewrite Z.add_0_r. Qed.

Lemma block_process s p : words_ok s → bytes p → length p = 64%nat → to5 (sha1_block s p) = process (to5 s) (message_bits p) ∧ words_ok (sha1_block s p).
Proof.
  intros Hs Hb Hl. pose proof (load_words_ok 16 p Hb Hl) as El. change (map _ (seqZ 0 (Z.of_nat 16))) with (load_words p) in El.
  assert (length (load_words p) = 16%nat) as Ll by reflexivity.
  assert (Forall is_u32 (load_words p)) as Hw.
  { rewrite El. apply Forall_map. apply list.Forall_forall. intros bs Hbs. pose proof (word_of_bits_range bs) as Hr.
    pose proof (pieces_short 16 32 (message_bits p)) as Hle. rewrite list.Forall_forall in Hle. specialize (Hle bs Hbs). cbn beta in Hle.
    unfold is_u32. change 4294967296 with (2 ^ 32). pose proof (Z.pow_le_mono_r 2 (Z.of_nat (length bs)) 32 ltac:(lia) ltac:(lia)). lia. }
  destruct (expand_ok 64 (load_words p) Hw ltac:(lia)) as (E1 & _ & E3). unfold sha1_block, process. rewrite <- El, <- E1.
  destruct (rounds_steps (expand 64 (load_words p)) s 0 Hs) as [R1 R2]. change (Z.of_nat 0) with 0 in R1, R2. rewrite E3, Ll in R1. change (16 + 64)%nat with 80%nat in R1.
  unfold to5 at 2. change (h0 s, h1 s, h2 s, h3 s, h4 s) with (to5 s). rewrite <- R1. set (r := rounds s 0 _) in *. clearbody r. unfold to5. cbn [h0 h1 h2 h3 h4].
  rewrite !plus32_two. split; [done|]. split_and!; cbn [h0 h1 h2 h3 h4]; apply u32_range.
Qed.

Lemma blocks_pieces n m : pieces_of n 64 m = blocks n m.
Proof. revert m. induction n as [|n IH]; intros m; [done|]. cbn [pieces_of blocks]. by rewrite IH. Qed.

(** Two folds agree when their steps do. *)
Lemma fold_simulates {A B C D} (F : A → B → A) (G : C → D → C) (h : A → C) (k : B → D) (P : A → Prop) (Q : B → Prop) :
  (∀ s p, P s → Q p → h (F s p) = G (h s) (k p) ∧ P (F s p)) →
  ∀ l s, Forall Q l → P s → h (fold_left F l s) = fold_left G (map k l) (h s).
Proof.
  intros H l. induction l as [|p l IH]; intros s Hl Hs; [done|]. inversion Hl; subst.
  destruct (H s p) as [E HP]; [done..|]. simpl. rewrite <- E. by apply IH.
Qed.

Lemma blocks_full n : ∀ m, bytes m → length m = (64 * n)%nat → Forall (λ p, bytes p ∧ length p = 64%nat) (blocks n m).
Proof.
  induction n as [|n IH]; intros m Hb Hl; [constructor|]. cbn [blocks]. constructor.
  - split; [by apply Forall_take|rewrite length_take; lia].
  - apply IH; [by apply Forall_drop|rewrite length_drop; lia].
Qed.

Lemma hash_process n m s : bytes m → length m = (64 * n)%nat → words_ok s →
  to5 (fold_left sha1_block (blocks n m) s) = fold_left process (map message_bits (blocks n m)) (to5 s).
Proof.
  intros Hb Hl. apply (fold_simulates sha1_block process to5 message_bits words_ok (λ p, bytes p ∧ length p = 64%nat)).
  - intros s' p Hs [Hp Hn]. exact (block_process s' p Hs Hp Hn).
  - exact (blocks_full n m Hb Hl).
Qed.

(** The padding, as bytes and as bits. *)
Lemma lenbe_bits v : message_bits (lenbe v) = bits_of 64 v.
Proof.
  assert (∀ k, (k <= 8)%nat → message_bits (map (λ i, u8 (Z.shiftr v (8 * Z.of_nat k - 8 - 8 * i))) (seqZ 0 (Z.of_nat k))) = bits_of (8 * k) v) as H.
  { induction k as [|k IH]; intros Hk; [done|]. rewrite seqZ_cons, Nat2Z.inj_succ, Z.pred_succ by lia. cbn [map].
    match goal with |- message_bits (?c :: ?l) = _ => change (message_bits (c :: l)) with (bits_of 8 c ++ message_bits l) end.
    replace (8 * S k)%nat with (8 + 8 * k)%nat by lia. rewrite bits_of_split. f_equal.
    - apply bits_of_ext. unfold u8. change 256 with (2 ^ Z.of_nat 8). rewrite Z.mod_mod by done. rewrite Z.shiftr_div_pow2 by lia. do 3 f_equal. lia.
    - rewrite <- IH by lia. f_equal. change (Z.succ 0) with (1 + 0). rewrite <- (fmap_add_seqZ 1 0). change (Z.add 1 <$> ?l) with (map (Z.add 1) l). rewrite map_map.
      apply map_ext. intros i. do 2 f_equal. lia. }
  apply (H 8%nat). lia.
Qed.

Lemma message_padded m : message_bits (padded m) = pad_bits (message_bits m).
Proof.
  unfold padded, pad_bits. rewrite !message_app, message_zeros, lenbe_bits, length_message. f_equal.
  change (message_bits [0x80]) with ([true] ++ replicate 7 false). rewrite <- app_assoc. f_equal. rewrite app_assoc, <- replicate_add. f_equal.
  - f_equal. dlia.
  - apply bits_of_ext. change (2 ^ Z.of_nat 64) with 18446744073709551616. unfold u64. rewrite Z.mod_mod by done. f_equal. lia.
Qed.

Lemma padded_blocks m : bytes m → bytes (padded m) ∧ ∃ n, length (padded m) = (64 * n)%nat.
Proof.
  intros Hm. split.
  - unfold padded. rewrite !Forall_app. split_and!; [done|by repeat constructor|apply Forall_replicate; by vm_compute|].
    apply Forall_map, list.Forall_forall. intros i _. apply u8_byte.
  - unfold padded. rewrite !length_app, length_replicate. change (length (lenbe _)) with 8%nat. change (length [0x80]) with 1%nat.
    exists (Z.to_nat ((Z.of_nat (length m) + 9 + (55 - Z.of_nat (length m)) mod 64) / 64)). dlia.
Qed.

(** The digest's bytes. *)
Lemma word_out_bits h : message_bits (word_out h) = bits_of 32 h.
Proof.
  change 32%nat with (8 + (8 + (8 + 8)))%nat. rewrite !bits_of_split. unfold word_out, message_bits. cbn [map concat]. rewrite app_nil_r.
  unfold u8. change 256 with (2 ^ Z.of_nat 8). rewrite !Z.shiftr_div_pow2 by lia.
  repeat (f_equal; [apply bits_of_ext; by rewrite Z.mod_mod|]). apply bits_of_ext. by rewrite Z.mod_mod.
Qed.

Lemma digest_rfc h : digest h = digest_bytes (to5 h).
Proof.
  unfold digest_bytes, to5. cbn [map concat]. rewrite <- !word_out_bits, app_nil_r, <- !message_app. fold (digest h).
  rewrite (pieces_message_bits 20 8 1), map_map by done.
  assert (Forall is_byte (digest h)) as Hb by (unfold digest, word_out; repeat (constructor; [apply u8_byte|]); constructor).
  assert (length (digest h) = 20%nat) as Hl by done. revert Hb Hl. generalize (digest h) as l. generalize 20%nat as n.
  induction n as [|n IH]; intros l Hb Hl; [by destruct l|]. destruct l as [|c l]; [done|]. inversion Hb; subst. cbn [pieces_of map firstn skipn].
  change (take 0 l) with (@nil Z). change (drop 0 l) with l. rewrite <- (IH l) by (done || (cbn in Hl; lia)). f_equal. unfold message_bits. cbn [map concat]. by rewrite app_nil_r, byte_word.
Qed.

Lemma block_sha1_rfc m : bytes m → block_sha1 m = sha1_digest m.
Proof.
  intros Hm. unfold block_sha1, sha1_digest. rewrite <- message_padded, digest_rfc. destruct (padded_blocks m Hm) as (Hb & n & Hl). f_equal.
  rewrite length_message, Hl. replace (8 * (64 * n))%nat with (n * 512)%nat by lia. rewrite Nat.div_mul by lia.
  unfold hash_blocks. rewrite Hl. replace (64 * n)%nat with (n * 64)%nat by lia. rewrite Nat.div_mul by lia.
  rewrite (pieces_message_bits n 512 64), blocks_pieces by lia.
  apply (hash_process n (padded m) H_INIT Hb Hl). split_and!; by vm_compute.
Qed.

(** C21.  Streaming SHA-1 is SHA-1: initialising, updating with any sequence of
    pieces of bytes (empty ones and ones that straddle blocks included) and
    finalising always terminates and gives the digest RFC 3174 defines, on
    strings of bits, for their concatenation. *)
Theorem sha1_streaming pieces : Forall bytes pieces →
  sha1_final (fold_left sha1_update pieces sha1_init) = Some (sha1_digest (concat pieces)).
Proof. intros Hb. rewrite sha1_pieces, block_sha1_rfc; [done|]. by apply Forall_concat. Qed.

Lemma sha1_streaming_witness :
  sha1_final (fold_left sha1_update [[97]; []; [98; 99]] sha1_init) = Some (sha1_digest [97; 98; 99]).
Proof. apply (sha1_streaming [[97]; []; [98; 99]]). apply (bool_decide_unpack (Forall (Forall is_byte) _)). vm_compute. exact I. Defined.
