(* ===== verification/Gpt.v ===== *)
(** * The GUID partition table of the Windows disk
      ([src/tools/iso-patch-mac/engine/gpt.c])

    [gpt_write_windows] against any image device: the partition ranges it
    computes, the bytes it writes, and that these are a valid GPT in the sense
    of the UEFI specification. *)

From Stdlib Require Import String.
From S2P Require Import Prelude Bytes WStr BlockIO.

Definition TYPE_ESP : list Z :=
  [0x28;0x73;0x2A;0xC1; 0x1F;0xF8; 0xD2;0x11; 0xBA;0x4B; 0x00;0xA0;0xC9;0x3E;0xC9;0x3B].
Definition TYPE_MSR : list Z :=
  [0x16;0xE3;0xC9;0xE3; 0x5C;0x0B; 0xB8;0x4D; 0x81;0x7D; 0xF9;0x2D;0xF0;0x02;0x15;0xAE].
Definition TYPE_WIN : list Z :=
  [0xA2;0xA0;0xD0;0xEB; 0xE5;0xB9; 0x33;0x44; 0x87;0xC0; 0x68;0xB6;0xB7;0x26;0x99;0xC7].

(** ** CRC-32 *)

(** [crc = (crc >> 1) ^ (0xEDB88320u & (uint32_t)(-(int32_t)(crc & 1)))]. *)
Definition crc_bit (crc : Z) : Z :=
  Z.lxor (Z.shiftr crc 1) (Z.land 0xEDB88320 (u32 (- Z.land crc 1))).
Definition crc_byte (crc b : Z) : Z := Nat.iter 8 crc_bit (Z.lxor crc b).
Definition crc32 (data : list Z) : Z := u32 (Z.lnot (fold_left crc_byte data 4294967295)).

(** The check value of CRC-32/ISO-HDLC. *)
Example crc32_check : crc32 (lit "123456789") = 0xCBF43926.
Proof. vm_compute. reflexivity. Qed.

(** ** Entries *)

(** [g] is what the system's random generator delivered. *)
Definition rand_guid (g : list Z) : list Z :=
  <[8%nat := Z.lor (Z.land (bget g 8) 0x3F) 0x80]>
    (<[7%nat := Z.lor (Z.land (bget g 7) 0x0F) 0x40]> g).

Definition put_le16 (p : list Z) (off : nat) (v : Z) : list Z := splice p off (le_bytes 2 v).
Definition put_le32 (p : list Z) (off : nat) (v : Z) : list Z := splice p off (le_bytes 4 v).
Definition put_le64 (p : list Z) (off : nat) (v : Z) : list Z := splice p off (le_bytes 8 v).

(** [for (i = 0; name[i] && i < 35; i++) put_le16(e + 56 + i*2, name[i])]. *)
Fixpoint put_name (arr : list Z) (e i : nat) (name : list Z) : list Z :=
  match name with
  | [] => arr
  | c :: name' =>
      if (i <? 35)%nat then put_name (put_le16 arr (e + 56 + i * 2) c) e (S i) name' else arr
  end.

(** Fill the entry at byte [e] of the array. *)
Definition fill_entry (arr : list Z) (e : nat) (type guid : list Z) (first last : Z) (name : list Z) : list Z :=
  let arr := splice arr e type in
  let arr := splice arr (e + 16) (rand_guid guid) in
  let arr := put_le64 arr (e + 32) first in
  let arr := put_le64 arr (e + 40) last in
  let arr := put_le64 arr (e + 48) 0 in
  put_name arr e 0 name.

Record gpt_layout_t := mkGpt {
  sector_size : Z;
  esp_start_lba : Z; esp_count_lba : Z;
  msr_start_lba : Z; msr_count_lba : Z;
  win_start_lba : Z; win_count_lba : Z;
  disk_guid : list Z;
  esp_part_guid : list Z;
  win_part_guid : list Z;
}.

Definition NENT : Z := 128.
Definition ESZ : Z := 128.

(** One header: [my_lba], [alt_lba], [arr_lba] depend on the pass. *)
Definition build_header (my_lba alt_lba first_usable last_usable arr_lba arr_crc : Z) (guid : list Z) : list Z :=
  let hdr := replicate 512 0 in
  let hdr := splice hdr 0 (lit "EFI PART") in
  let hdr := put_le32 hdr 8 0x00010000 in
  let hdr := put_le32 hdr 12 92 in
  let hdr := put_le64 hdr 24 my_lba in
  let hdr := put_le64 hdr 32 alt_lba in
  let hdr := put_le64 hdr 40 first_usable in
  let hdr := put_le64 hdr 48 last_usable in
  let hdr := splice hdr 56 guid in
  let hdr := put_le64 hdr 72 arr_lba in
  let hdr := put_le32 hdr 80 NENT in
  let hdr := put_le32 hdr 84 ESZ in
  let hdr := put_le32 hdr 88 arr_crc in
  put_le32 hdr 16 (crc32 (take 92 hdr)).

(** The protective MBR. *)
Definition build_mbr (total : Z) : list Z :=
  let mbr := replicate 512 0 in
  let mbr := splice mbr 446 [0x00; 0x00; 0x02; 0x00; 0xEE; 0xFF; 0xFF; 0xFF] in
  let mbr := put_le32 mbr 454 1 in
  let prot := u64 (total - 1) in
  let mbr := put_le32 mbr 458 (if 0xFFFFFFFF <? prot then 0xFFFFFFFF else u32 prot) in
  splice mbr 510 [0x55; 0xAA].

(** The array of 128 entries, the first three used. *)
Definition build_array (esp_g msr_g win_g : list Z) (esp_start esp_count msr_start msr_count win_start win_count : Z) : list Z :=
  let arr := replicate (Z.to_nat (NENT * ESZ)) 0 in
  let arr := fill_entry arr 0 TYPE_ESP esp_g esp_start (u64 (esp_start + esp_count - 1)) (lit "EFI system partition") in
  let arr := fill_entry arr 128 TYPE_MSR msr_g msr_start (u64 (msr_start + msr_count - 1)) (lit "Microsoft reserved partition") in
  fill_entry arr 256 TYPE_WIN win_g win_start (u64 (win_start + win_count - 1)) (lit "Basic data partition").

(** The random bytes the four GUIDs are drawn from, in program order. *)
Record gpt_random := mkRandom { esp_r : list Z; msr_r : list Z; win_r : list Z; disk_r : list Z }.

Section write.
Context {D : Type} `{Image D}.

Definition gpt_write_windows (malloced : bool) (rnd : gpt_random) (io : D) (ss esp_mb msr_mb : Z) :
    option (Z * D * option gpt_layout_t) :=
  if negb (ss =? 512) then Some (-1, io, None) else
  let total := img_size io / ss in
  if total <? 2048 + 64 then Some (-1, io, None) else
  let arr_sectors := (NENT * ESZ + ss - 1) / ss in
  let align := (1024 * 1024) / ss in
  let primary_hdr := 1 in
  let primary_arr := 2 in
  let backup_hdr := total - 1 in
  let backup_arr := total - 1 - arr_sectors in
  let first_usable := primary_arr + arr_sectors in
  let last_usable := backup_arr - 1 in
  let esp_start := (first_usable + align - 1) / align * align in
  let esp_count := u64 (esp_mb * 1024 * 1024) / ss in
  let msr_start := u64 (esp_start + esp_count) in
  let msr_count := u64 (msr_mb * 1024 * 1024) / ss in
  let win_start := u64 (msr_start + msr_count) in
  if last_usable <? win_start then Some (-1, io, None) else
  let win_count := (last_usable + 1) - win_start in
  if negb malloced then Some (-1, io, None) else
  let arr := build_array (esp_r rnd) (msr_r rnd) (win_r rnd)
    esp_start esp_count msr_start msr_count win_start win_count in
  let arr_crc := crc32 arr in
  let guid := rand_guid (disk_r rnd) in
  let header my_lba alt_lba arr_lba :=
    build_header my_lba alt_lba first_usable last_usable arr_lba arr_crc guid in
  '(rc, io) ← img_writes io
    [(primary_hdr * ss, header primary_hdr backup_hdr primary_arr); (primary_arr * ss, arr);
     (backup_hdr * ss, header backup_hdr primary_hdr backup_arr); (backup_arr * ss, arr);
     (0, build_mbr total)];
  if negb (rc =? 0) then Some (-1, io, None) else
  Some (0, io, Some (mkGpt ss esp_start esp_count msr_start msr_count win_start win_count
    guid (sub arr 16 16) (sub arr (256 + 16) 16))).
End write.

(** ** Reading the table back (UEFI specification 2.10, section 5.3) *)

Definition sector (m : mem) (lba : Z) : list Z := mread m (lba * 512) 512.
Definition field (l : list Z) (off n : nat) : Z := le_val (sub l off n).

(** The checks a consumer makes of the header at [lba]. *)
Definition header_valid (m : mem) (lba : Z) : Prop :=
  let h := sector m lba in
  sub h 0 8 = lit "EFI PART" ∧ field h 8 4 = 0x00010000 ∧ field h 12 4 = 92 ∧
  field h 16 4 = crc32 (splice (take 92 h) 16 [0; 0; 0; 0]) ∧ field h 24 8 = lba ∧
  field h 80 4 = 128 ∧ field h 84 4 = 128 ∧
  field h 88 4 = crc32 (mread m (field h 72 8 * 512) (128 * 128)).

(** The [i]-th entry of the array the header at [lba] points to: type, unique
    GUID, first and last block. *)
Definition entry (m : mem) (lba : Z) (i : nat) : list Z * list Z * Z * Z :=
  let a := mread m (field (sector m lba) 72 8 * 512) (128 * 128) in
  (sub a (128 * i) 16, sub a (128 * i + 16) 16, field a (128 * i + 32) 8, field a (128 * i + 40) 8).

(** ** Entries and headers as built *)

Ltac lens := rewrite ?length_splice, ?length_le_bytes in *.
Ltac subs :=
  unfold put_le16, put_le32, put_le64;
  repeat first
    [ rewrite sub_splice_same by (lens; simpl; lia)
    | rewrite sub_splice_other by (lens; simpl; lia) ].

Lemma length_rand_guid g : length (rand_guid g) = length g.
Proof. unfold rand_guid. by rewrite !length_insert. Qed.

Lemma put_name_frame name arr e i :
  length (put_name arr e i name) = length arr ∧
  ∀ o n, (e + 128 <= length arr)%nat → (o + n <= e + 56 ∨ e + 128 <= o)%nat →
    sub (put_name arr e i name) o n = sub arr o n.
Proof.
  revert arr i. induction name as [|c name IH]; intros arr i; [done|]. cbn [put_name].
  destruct (Nat.ltb_spec i 35); [|done].
  destruct (IH (put_le16 arr (e + 56 + i * 2) c) (S i)) as [HL HS].
  unfold put_le16 in *. rewrite length_splice in *. split; [done|].
  intros o n He Ho. rewrite HS by lia. apply sub_splice_other; rewrite ?length_le_bytes; lia.
Qed.

Lemma fill_entry_spec arr e type guid first last name :
  (e + 128 <= length arr)%nat → length type = 16%nat → length guid = 16%nat →
  let arr' := fill_entry arr e type guid first last name in
  length arr' = length arr ∧ sub arr' e 16 = type ∧ sub arr' (e + 16) 16 = rand_guid guid ∧
  sub arr' (e + 32) 8 = le_bytes 8 first ∧ sub arr' (e + 40) 8 = le_bytes 8 last ∧
  ∀ o n, (o + n <= e ∨ e + 128 <= o)%nat → sub arr' o n = sub arr o n.
Proof.
  intros He Ht Hg arr'. subst arr'. unfold fill_entry.
  set (base := put_le64 _ (e + 48) 0).
  destruct (put_name_frame name base e 0) as [HL HS].
  assert (length base = length arr) as Hb by (unfold base, put_le64; by lens).
  rewrite Hb in *. assert (length (rand_guid guid) = 16%nat) by (by rewrite length_rand_guid).
  split; [done|]. rewrite !HS by lia. unfold base.
  split_and!; [subs; done..|]. intros o n Ho. rewrite HS by lia. unfold base. by subs.
Qed.

Lemma sub_replicate n off k v : (off + k <= n)%nat → sub (replicate n v) off k = replicate k v.
Proof. intros. unfold sub. rewrite drop_replicate, take_replicate. f_equal. lia. Qed.

(** Sizes the caller passes, small enough not to overflow. *)
Definition mb_ok (mb : Z) : Prop := 0 < mb < 1099511627776.

Definition guids_ok (rnd : gpt_random) : Prop :=
  length (esp_r rnd) = 16%nat ∧ length (msr_r rnd) = 16%nat ∧
  length (win_r rnd) = 16%nat ∧ length (disk_r rnd) = 16%nat.

Lemma build_array_spec rnd es ec ms mc ws wc :
  guids_ok rnd → is_u64 es → is_u64 ms → is_u64 ws →
  let arr := build_array (esp_r rnd) (msr_r rnd) (win_r rnd) es ec ms mc ws wc in
  length arr = (128 * 128)%nat ∧
  (sub arr 0 16 = TYPE_ESP ∧ sub arr 16 16 = rand_guid (esp_r rnd) ∧
   field arr 32 8 = es ∧ field arr 40 8 = u64 (es + ec - 1)) ∧
  (sub arr 128 16 = TYPE_MSR ∧ sub arr 144 16 = rand_guid (msr_r rnd) ∧
   field arr 160 8 = ms ∧ field arr 168 8 = u64 (ms + mc - 1)) ∧
  (sub arr 256 16 = TYPE_WIN ∧ sub arr 272 16 = rand_guid (win_r rnd) ∧
   field arr 288 8 = ws ∧ field arr 296 8 = u64 (ws + wc - 1)) ∧
  ∀ o n, (384 <= o)%nat → (o + n <= 128 * 128)%nat → sub arr o n = replicate n 0.
Proof.
  intros (G1 & G2 & G3 & _) He Hm Hw arr. subst arr. unfold build_array.
  set (a0 := replicate (Z.to_nat (NENT * ESZ)) 0).
  assert (length a0 = (128 * 128)%nat) as L0 by (unfold a0; by rewrite length_replicate).
  destruct (fill_entry_spec a0 0 TYPE_ESP (esp_r rnd) es (u64 (es + ec - 1)) (lit "EFI system partition"))
    as (L1 & A1 & A2 & A3 & A4 & A5); [lia|done|done|].
  set (a1 := fill_entry a0 _ _ _ _ _ _) in *.
  destruct (fill_entry_spec a1 128 TYPE_MSR (msr_r rnd) ms (u64 (ms + mc - 1)) (lit "Microsoft reserved partition"))
    as (L2 & B1 & B2 & B3 & B4 & B5); [lia|done|done|].
  set (a2 := fill_entry a1 _ _ _ _ _ _) in *.
  destruct (fill_entry_spec a2 256 TYPE_WIN (win_r rnd) ws (u64 (ws + wc - 1)) (lit "Basic data partition"))
    as (L3 & C1 & C2 & C3 & C4 & C5); [lia|done|done|].
  set (a3 := fill_entry a2 _ _ _ _ _ _) in *. clearbody a3 a2 a1. cbn [Nat.add] in *.
  assert (∀ z, is_u64 z → le_val (le_bytes 8 z) = z) as Hle.
  { intros z Hz. apply le_val_le_bytes_small. exact Hz. }
  split; [lia|]. unfold field.
  split; [rewrite 4!C5, 4!B5 by lia; rewrite A1, A2, A3, A4, (Hle es He), (Hle _ (u64_range (es + ec - 1))); auto|].
  split; [rewrite 4!C5 by lia; rewrite B1, B2, B3, B4, (Hle ms Hm), (Hle _ (u64_range (ms + mc - 1))); auto|].
  split; [rewrite C1, C2, C3, C4, (Hle ws Hw), (Hle _ (u64_range (ws + wc - 1))); auto|].
  intros o n Ho Hn. rewrite C5, B5, A5 by lia. apply sub_replicate. rewrite <- (length_replicate (Z.to_nat _) 0). fold a0. lia.
Qed.

Definition header_fields (h : list Z) (my alt fu lu arr crc : Z) (guid : list Z) : Prop :=
  length h = 512%nat ∧
  sub h 0 8 = lit "EFI PART" ∧ field h 8 4 = 0x00010000 ∧ field h 12 4 = 92 ∧
  field h 16 4 = crc32 (splice (take 92 h) 16 [0; 0; 0; 0]) ∧ field h 24 8 = my ∧
  field h 32 8 = alt ∧ field h 40 8 = fu ∧ field h 48 8 = lu ∧ sub h 56 16 = guid ∧
  field h 72 8 = arr ∧ field h 80 4 = 128 ∧ field h 84 4 = 128 ∧ field h 88 4 = crc.

Lemma crc32_range l : is_u32 (crc32 l).
Proof. apply u32_range. Qed.
#[local] Hint Resolve crc32_range : asb.

(** Zeroing the CRC field gives back the bytes the CRC was computed over. *)
Lemma header_crc_zeroed h c :
  length h = 512%nat → sub h 16 4 = [0; 0; 0; 0] →
  splice (take 92 (put_le32 h 16 c)) 16 [0; 0; 0; 0] = take 92 h.
Proof.
  intros Hl Hz. unfold put_le32. rewrite take_splice by (rewrite ?length_le_bytes; lia).
  apply splice_restore; rewrite ?length_le_bytes, ?length_take; [lia|reflexivity|].
  unfold sub in *. rewrite skipn_firstn_comm, take_take. exact Hz.
Qed.

Lemma build_header_spec my alt fu lu arr crc guid :
  length guid = 16%nat → is_u64 my → is_u64 alt → is_u64 fu → is_u64 lu → is_u64 arr → is_u32 crc →
  header_fields (build_header my alt fu lu arr crc guid) my alt fu lu arr crc guid.
Proof.
  intros Hg H1 H2 H3 H4 H5 H6. unfold build_header.
  remember (put_le32 _ 88 crc) as h eqn:Eh.
  assert (length h = 512%nat) as Hlen by (rewrite Eh; unfold put_le32, put_le64; lens; apply length_replicate).
  assert (∀ z, is_u64 z → le_val (le_bytes 8 z) = z) as Hle8
    by (intros z Hz; apply le_val_le_bytes_small; exact Hz).
  assert (∀ z, is_u32 z → le_val (le_bytes 4 z) = z) as Hle4
    by (intros z Hz; apply le_val_le_bytes_small; exact Hz).
  assert (sub h 16 4 = [0; 0; 0; 0]) as Hz16.
  { rewrite Eh. unfold put_le32, put_le64. clear Eh Hlen.
    repeat (rewrite sub_splice_other by (lens; rewrite ?length_replicate, ?Hg; simpl; lia)).
    apply sub_replicate. lia. }
  split; [unfold put_le32; by lens|]. unfold field.
  assert (∀ o n, (o + n <= 16 ∨ 20 <= o)%nat →
    sub (put_le32 h 16 (crc32 (take 92 h))) o n = sub h o n) as Hoth
    by (intros o n Ho; unfold put_le32; apply sub_splice_other; lens; lia).
  assert (sub (put_le32 h 16 (crc32 (take 92 h))) 16 4 = le_bytes 4 (crc32 (take 92 h))) as Hcrc
    by (unfold put_le32; apply sub_splice_same; lens; lia).
  rewrite Hcrc, (Hle4 _ (crc32_range _)), header_crc_zeroed by assumption.
  rewrite !Hoth by lia. clear Hcrc Hoth Hz16 Hlen. rewrite Eh. clear Eh h. unfold put_le32, put_le64.
  repeat first
    [ rewrite sub_splice_same by (lens; rewrite ?length_replicate, ?Hg; simpl; lia)
    | rewrite sub_splice_other by (lens; rewrite ?length_replicate, ?Hg; simpl; lia) ].
  rewrite !Hle8 by assumption. rewrite (Hle4 crc H6). auto 20.
Qed.

Lemma build_mbr_spec total :
  let mbr := build_mbr total in
  length mbr = 512%nat ∧ sub mbr 510 2 = [0x55; 0xAA] ∧ sub mbr 450 1 = [0xEE] ∧
  field mbr 454 4 = 1 ∧ field mbr 458 4 = Z.min (u64 (total - 1)) 0xFFFFFFFF.
Proof.
  unfold build_mbr, put_le32. set (p := if _ <? _ then _ else _).
  split; [lens; apply length_replicate|]. unfold field.
  split; [by apply sub_splice_same; lens; rewrite ?length_replicate; simpl; lia|].
  split.
  { do 3 (rewrite sub_splice_other by (lens; rewrite ?length_replicate; simpl; lia)). reflexivity. }
  split.
  { do 2 (rewrite sub_splice_other by (lens; rewrite ?length_replicate; simpl; lia)).
    rewrite sub_splice_same by (lens; rewrite ?length_replicate; simpl; lia). reflexivity. }
  rewrite sub_splice_other, sub_splice_same by (lens; rewrite ?length_replicate; simpl; lia).
  rewrite le_val_le_bytes. change (256 ^ Z.of_nat 4) with 4294967296.
  subst p. pose proof (u64_range (total - 1)) as Hr. unfold is_u64 in Hr.
  destruct (Z.ltb_spec 0xFFFFFFFF (u64 (total - 1))); rewrite ?(u32_small (u64 _)), Z.mod_small by lia; lia.
Qed.

(** ** The layout *)

(** What the ranges amount to when the sizes do not overflow. *)
Definition planned (total esp_mb msr_mb : Z) (l : gpt_layout_t) : Prop :=
  sector_size l = 512 ∧ esp_start_lba l = 2048 ∧ esp_count_lba l = esp_mb * 2048 ∧
  msr_start_lba l = 2048 + esp_mb * 2048 ∧ msr_count_lba l = msr_mb * 2048 ∧
  win_start_lba l = 2048 + esp_mb * 2048 + msr_mb * 2048 ∧
  win_count_lba l = total - 33 - win_start_lba l ∧ 0 < win_count_lba l.

(** The two headers, the two arrays and the MBR of an image of [total] blocks. *)
Definition table_writes (total : Z) (l : gpt_layout_t) (rnd : gpt_random) : list (Z * list Z) :=
  let arr := build_array (esp_r rnd) (msr_r rnd) (win_r rnd) (esp_start_lba l) (esp_count_lba l)
    (msr_start_lba l) (msr_count_lba l) (win_start_lba l) (win_count_lba l) in
  let header my alt a := build_header my alt 34 (total - 34) a (crc32 arr) (rand_guid (disk_r rnd)) in
  [(512, header 1 (total - 1) 2); (1024, arr);
   ((total - 1) * 512, header (total - 1) 1 (total - 33)); ((total - 33) * 512, arr);
   (0, build_mbr total)].

(** What the five writes leave on the disk. *)
Lemma table_reads total l rnd m0 hdr1 hdr2 arr mbr :
  2112 <= total → length hdr1 = 512%nat → length hdr2 = 512%nat →
  length arr = (128 * 128)%nat → length mbr = 512%nat →
  table_writes total l rnd = [(512, hdr1); (1024, arr); ((total - 1) * 512, hdr2);
                              ((total - 33) * 512, arr); (0, mbr)] →
  let m := apply_writes m0 (table_writes total l rnd) in
  sector m 1 = hdr1 ∧ sector m (total - 1) = hdr2 ∧ sector m 0 = mbr ∧
  mread m (2 * 512) (128 * 128) = arr ∧ mread m ((total - 33) * 512) (128 * 128) = arr ∧
  ∀ x, 34 * 512 <= x < (total - 33) * 512 → m x = m0 x.
Proof.
  intros Ht L1 L2 L3 L4 ->. cbn [apply_writes fold_left fst snd]. unfold sector, apply_writes.
  cbn [fold_left fst snd]. change (1 * 512) with 512. change (2 * 512) with 1024. change (0 * 512) with 0.
  assert (Z.of_nat (length arr) = 16384) as L3' by lia.
  split_and!.
  - do 4 (rewrite mread_mwrite_disjoint by lia). apply mread_mwrite_at. lia.
  - do 2 (rewrite mread_mwrite_disjoint by lia). apply mread_mwrite_at. lia.
  - apply mread_mwrite_at. lia.
  - do 3 (rewrite mread_mwrite_disjoint by lia). apply mread_mwrite_at. lia.
  - rewrite mread_mwrite_disjoint by lia. apply mread_mwrite_at. lia.
  - intros x Hx. by rewrite !mwrite_out by lia.
Qed.

Lemma table_writes_fit total l rnd :
  2112 <= total → total * 512 <= OFF_MAX → guids_ok rnd →
  is_u64 (esp_start_lba l) → is_u64 (msr_start_lba l) → is_u64 (win_start_lba l) →
  writes_fit (table_writes total l rnd) ∧ writes_len (table_writes total l rnd) = 34304.
Proof.
  intros Ht Hs Hg H1 H2 H3. unfold table_writes.
  edestruct (build_array_spec rnd (esp_start_lba l) (esp_count_lba l) (msr_start_lba l)
    (msr_count_lba l) (win_start_lba l) (win_count_lba l)) as [La _]; [assumption..|].
  set (arr := build_array _ _ _ _ _ _ _ _ _) in *. clearbody arr.
  assert (∀ my alt a c, length (build_header my alt 34 (total - 34) a c (rand_guid (disk_r rnd))) = 512%nat) as Lh
    by (intros; unfold build_header, put_le32, put_le64; lens; apply length_replicate).
  assert (length (build_mbr total) = 512%nat) as Lm by apply build_mbr_spec.
  unfold writes_fit, writes_len. cbn [foldr snd].
  rewrite !Lh, Lm, La. split; [|lia].
  repeat constructor; cbn [fst snd]; rewrite ?Lh, ?Lm, ?La; lia.
Qed.

Section gpt.
Context {D : Type} `{Image D}.

(** [mb * 1024 * 1024 / ss], wrap included. *)
Lemma count_small mb : mb_ok mb → u64 (mb * 1024 * 1024) / 512 = mb * 2048.
Proof. unfold mb_ok. intros Hb. rewrite u64_small by lia. dlia. Qed.

(** One run of [gpt_write_windows]. *)
Lemma gpt_write_cases malloced rnd (d : D) esp_mb msr_mb :
  0 <= img_size d <= OFF_MAX →
  let total := img_size d / 512 in
  let ec := u64 (esp_mb * 1024 * 1024) / 512 in
  let mc := u64 (msr_mb * 1024 * 1024) / 512 in
  gpt_write_windows malloced rnd d 512 esp_mb msr_mb =
  (if (total <? 2112) || (total - 34 <? 2048 + ec + mc) || negb malloced
   then Some (-1, d, None)
   else
     let ms := 2048 + ec in
     let ws := ms + mc in
     let l := mkGpt 512 2048 ec ms mc ws (total - 33 - ws) (rand_guid (disk_r rnd)) [] [] in
     let arr := build_array (esp_r rnd) (msr_r rnd) (win_r rnd) 2048 ec ms mc ws (total - 33 - ws) in
     '(rc, d') ← img_writes d (table_writes total l rnd);
     if negb (rc =? 0) then Some (-1, d', None) else
     Some (0, d', Some (mkGpt 512 2048 ec ms mc ws (total - 33 - ws)
       (rand_guid (disk_r rnd)) (sub arr 16 16) (sub arr 272 16)))).
Proof.
  intros Hs total ec mc. unfold gpt_write_windows, OFF_MAX in *. cbn [Z.eqb Pos.eqb negb].
  fold total. assert (0 <= total) by (apply Z.div_pos; lia).
  change (2048 + 64) with 2112.
  destruct (Z.ltb_spec total 2112); [reflexivity|]. cbn [orb].
  change ((NENT * ESZ + 512 - 1) / 512) with 32. change (1024 * 1024 / 512) with 2048.
  change ((2 + 32 + 2048 - 1) / 2048 * 2048) with 2048. fold ec mc.
  assert (∀ z, 0 <= u64 z / 512 < 36028797018963969) as Hc.
  { intros z. pose proof (u64_range z) as Hz. unfold is_u64 in Hz. dlia. }
  pose proof (Hc (esp_mb * 1024 * 1024)) as He. pose proof (Hc (msr_mb * 1024 * 1024)) as Hm.
  fold ec in He. fold mc in Hm.
  rewrite (u64_small (2048 + ec)) by lia. rewrite (u64_small (2048 + ec + mc)) by lia.
  replace (total - 1 - 32 - 1) with (total - 34) by lia.
  destruct (Z.ltb_spec (total - 34) (2048 + ec + mc)); [reflexivity|].
  destruct malloced; [|reflexivity]. cbn [orb negb].
  replace (total - 34 + 1) with (total - 33) by lia.
  replace (total - 1 - 32) with (total - 33) by lia. reflexivity.
Qed.

(** A successful run: the planned layout, and exactly the table's writes. *)
Lemma gpt_write_done rnd (d d' : D) esp_mb msr_mb l :
  mb_ok esp_mb → mb_ok msr_mb → 0 <= img_size d <= OFF_MAX → guids_ok rnd → img_ok d →
  gpt_write_windows true rnd d 512 esp_mb msr_mb = Some (0, d', Some l) →
  let total := img_size d / 512 in
  2112 <= total ∧ planned total esp_mb msr_mb l ∧
  img_view d' ≡m apply_writes (img_view d) (table_writes total l rnd) ∧
  esp_part_guid l = rand_guid (esp_r rnd) ∧ win_part_guid l = rand_guid (win_r rnd) ∧
  disk_guid l = rand_guid (disk_r rnd).
Proof.
  intros He Hm Hs Hg Hok Hr total. rewrite gpt_write_cases in Hr by assumption.
  cbn zeta in Hr. rewrite !count_small in Hr by assumption. fold total in Hr.
  unfold mb_ok, OFF_MAX in *.
  destruct (Z.ltb_spec total 2112); [discriminate|]. cbn [orb] in Hr.
  destruct (Z.ltb_spec (total - 34) (2048 + esp_mb * 2048 + msr_mb * 2048)); [discriminate|]. cbn [orb negb] in Hr.
  set (l0 := mkGpt _ _ _ _ _ _ _ _ _ _) in Hr at 1.
  obind Hr x E. destruct x as [rc d1].
  assert (total * 512 <= 9223372036854775808) by (unfold total in *; dlia).
  destruct (table_writes_fit total l0 rnd) as [Hfit _];
    [lia|unfold OFF_MAX; lia|assumption|unfold is_u64, l0; cbn; lia..|].
  apply img_writes_spec in E as (_ & _ & Hrc); [|assumption..].
  destruct Hrc as [[-> Hv]| ->]; cbn [Z.eqb negb] in Hr; [|discriminate].
  injection Hr as <- <-.
  destruct (build_array_spec rnd 2048 (esp_mb * 2048) (2048 + esp_mb * 2048) (msr_mb * 2048)
    (2048 + esp_mb * 2048 + msr_mb * 2048) (total - 33 - (2048 + esp_mb * 2048 + msr_mb * 2048)))
    as (_ & (_ & G1 & _) & _ & (_ & G2 & _) & _); [assumption|unfold is_u64; lia..|].
  split; [lia|]. split; [unfold planned; cbn; lia|]. split; [exact Hv|].
  cbn [esp_part_guid win_part_guid disk_guid]. auto.
Qed.
End gpt.

(** A header with the right fields over the right array is a valid one. *)
Lemma header_ok m lba h my alt fu lu ab arr guid :
  header_fields h my alt fu lu ab (crc32 arr) guid → sector m lba = h → my = lba →
  mread m (ab * 512) (128 * 128) = arr →
  header_valid m lba ∧ field (sector m lba) 32 8 = alt ∧ field (sector m lba) 40 8 = fu ∧
  field (sector m lba) 48 8 = lu ∧ sub (sector m lba) 56 16 = guid ∧
  mread m (field (sector m lba) 72 8 * 512) (128 * 128) = arr.
Proof.
  intros (_ & F0 & F1 & F2 & F3 & F4 & F5 & F6 & F7 & F8 & F9 & F10 & F11 & F12) Hs -> Ha.
  unfold header_valid. rewrite Hs, F5, F6, F7, F8, F9. split; [|auto 10].
  split; [exact F0|]. split; [exact F1|]. split; [exact F2|]. split; [exact F3|].
  split; [exact F4|]. split; [exact F10|]. split; [exact F11|]. by rewrite Ha.
Qed.

(** The three partitions and the empty rest, as read through the header at [lba]. *)
Definition entries_ok (m : mem) (lba : Z) (rnd : gpt_random) (l : gpt_layout_t) : Prop :=
  entry m lba 0 = (TYPE_ESP, rand_guid (esp_r rnd), esp_start_lba l, esp_start_lba l + esp_count_lba l - 1) ∧
  entry m lba 1 = (TYPE_MSR, rand_guid (msr_r rnd), msr_start_lba l, msr_start_lba l + msr_count_lba l - 1) ∧
  entry m lba 2 = (TYPE_WIN, rand_guid (win_r rnd), win_start_lba l, win_start_lba l + win_count_lba l - 1) ∧
  ∀ i, (3 <= i < 128)%nat → entry m lba i = (replicate 16 0, replicate 16 0, 0, 0).

Lemma entries_read m lba rnd l es ec ms mc ws wc :
  guids_ok rnd → is_u64 es → is_u64 ms → is_u64 ws →
  is_u64 (es + ec - 1) → is_u64 (ms + mc - 1) → is_u64 (ws + wc - 1) →
  esp_start_lba l = es ∧ esp_count_lba l = ec ∧ msr_start_lba l = ms ∧ msr_count_lba l = mc ∧
  win_start_lba l = ws ∧ win_count_lba l = wc →
  mread m (field (sector m lba) 72 8 * 512) (128 * 128) =
    build_array (esp_r rnd) (msr_r rnd) (win_r rnd) es ec ms mc ws wc →
  entries_ok m lba rnd l.
Proof.
  intros Hg H1 H2 H3 H4 H5 H6 (E1 & E2 & E3 & E4 & E5 & E6) Ha.
  unfold entries_ok, entry. rewrite Ha, E1, E2, E3, E4, E5, E6. clear Ha E1 E2 E3 E4 E5 E6.
  destruct (build_array_spec rnd es ec ms mc ws wc)
    as (_ & (A1 & A2 & A3 & A4) & (B1 & B2 & B3 & B4) & (C1 & C2 & C3 & C4) & Hz); [assumption..|].
  set (arr := build_array _ _ _ _ _ _ _ _ _) in *. clearbody arr.
  rewrite (u64_small (es + ec - 1) H4) in A4. rewrite (u64_small (ms + mc - 1) H5) in B4.
  rewrite (u64_small (ws + wc - 1) H6) in C4.
  split; [by repeat f_equal|]. split; [by repeat f_equal|].
  split; [by repeat f_equal|].
  intros i Hi. unfold field. by rewrite !Hz by lia.
Qed.

Section table.
Context {D : Type} `{Image D}.

(** C22.  After a successful [gpt_write_windows] the image carries a valid GPT:
    both headers pass the checks of the UEFI specification (signature, revision,
    size, own position, header CRC, array CRC), name each other as alternate,
    agree on the usable range and the disk GUID, and both arrays decode to the
    three partitions of the returned layout and nothing else; the protective
    MBR covers the disk, and no byte of the usable range has changed. *)
Theorem gpt_table_valid rnd (d d' : D) esp_mb msr_mb l :
  mb_ok esp_mb → mb_ok msr_mb → 0 <= img_size d <= OFF_MAX → guids_ok rnd → img_ok d →
  gpt_write_windows true rnd d 512 esp_mb msr_mb = Some (0, d', Some l) →
  let total := img_size d / 512 in let m := img_view d' in
  field (sector m 1) 32 8 = total - 1 ∧ field (sector m (total - 1)) 32 8 = 1 ∧
  (∀ lba, lba = 1 ∨ lba = total - 1 →
     header_valid m lba ∧ field (sector m lba) 40 8 = 34 ∧ field (sector m lba) 48 8 = total - 34 ∧
     sub (sector m lba) 56 16 = disk_guid l ∧ entries_ok m lba rnd l) ∧
  sub (sector m 0) 510 2 = [0x55; 0xAA] ∧ sub (sector m 0) 450 1 = [0xEE] ∧
  field (sector m 0) 454 4 = 1 ∧ field (sector m 0) 458 4 = Z.min (u64 (total - 1)) 0xFFFFFFFF ∧
  ∀ x, 34 * 512 <= x < (total - 33) * 512 → m x = img_view d x.
Proof.
  intros He Hm Hs Hg Hok Hr total m.
  destruct (gpt_write_done rnd d d' esp_mb msr_mb l He Hm Hs Hg Hok Hr)
    as (Ht & (P1 & P2 & P3 & P4 & P5 & P6 & P7 & P8) & Hv & _ & _ & Hgd).
  fold total in Ht, P7, Hv. unfold mb_ok, OFF_MAX in *.
  assert (total * 512 <= 9223372036854775808) by (unfold total; dlia).
  edestruct (build_array_spec rnd (esp_start_lba l) (esp_count_lba l) (msr_start_lba l)
    (msr_count_lba l) (win_start_lba l) (win_count_lba l)) as [La _]; [exact Hg|unfold is_u64; lia..|].
  edestruct (table_reads total l rnd (img_view d)) as (R1 & R2 & R3 & R4 & R5 & R6);
    [exact Ht| | |exact La|apply build_mbr_spec|reflexivity|];
    [unfold build_header, put_le32, put_le64; lens; apply length_replicate..|].
  assert (length (rand_guid (disk_r rnd)) = 16%nat) as Hgl by (rewrite length_rand_guid; apply Hg).
  set (arr := build_array _ _ _ _ _ _ _ _ _) in *.
  assert (∀ a n, mread m a n = mread (apply_writes (img_view d) (table_writes total l rnd)) a n) as Hmr
    by (intros a n; unfold m; by rewrite Hv).
  assert (∀ lba, sector m lba = sector (apply_writes (img_view d) (table_writes total l rnd)) lba) as Hsec
    by (intros; apply Hmr).
  assert (∀ z, 0 <= z <= 9223372036854775808 → is_u64 z) as U by (unfold is_u64; lia).
  destruct (header_ok m 1 _ 1 (total - 1) 34 (total - 34) 2 arr _
    (build_header_spec 1 (total - 1) 34 (total - 34) 2 (crc32 arr) _ Hgl (U 1 ltac:(lia)) (U (total - 1) ltac:(lia))
      (U 34 ltac:(lia)) (U (total - 34) ltac:(lia)) (U 2 ltac:(lia)) (crc32_range arr))) as (V1 & V2 & V3 & V4 & V5 & V6);
    [by rewrite Hsec, R1|reflexivity|by rewrite Hmr, R4|].
  destruct (header_ok m (total - 1) _ (total - 1) 1 34 (total - 34) (total - 33) arr _
    (build_header_spec (total - 1) 1 34 (total - 34) (total - 33) (crc32 arr) _ Hgl (U (total - 1) ltac:(lia)) (U 1 ltac:(lia))
      (U 34 ltac:(lia)) (U (total - 34) ltac:(lia)) (U (total - 33) ltac:(lia)) (crc32_range arr))) as (W1 & W2 & W3 & W4 & W5 & W6);
    [by rewrite Hsec, R2|reflexivity|by rewrite Hmr, R5|].
  destruct (build_mbr_spec total) as (_ & M1 & M2 & M3 & M4).
  assert (∀ lba, mread m (field (sector m lba) 72 8 * 512) (128 * 128) = arr → entries_ok m lba rnd l) as Hent.
  { intros lba Ha. eapply entries_read; [exact Hg| | | | | | |repeat split|exact Ha]; unfold is_u64; lia. }
  split; [exact V2|]. split; [exact W2|]. split.
  { intros lba [-> | ->]; rewrite Hgd; auto 10. }
  rewrite (Hsec 0), R3. do 4 (split; [assumption|]).
  intros x Hx. unfold m. rewrite (Hv x). by apply R6.
Qed.

(** Nothing stands in the way of a layout that fits. *)
Lemma gpt_write_total rnd (d : D) esp_mb msr_mb k :
  mb_ok esp_mb → mb_ok msr_mb → 0 <= img_size d <= OFF_MAX → guids_ok rnd → img_ok d →
  0 <= k → img_live (34304 + k) d →
  let total := img_size d / 512 in
  2112 <= total → 2048 + (esp_mb + msr_mb) * 2048 <= total - 34 →
  ∃ d' l, gpt_write_windows true rnd d 512 esp_mb msr_mb = Some (0, d', Some l) ∧
    img_live k d' ∧ planned total esp_mb msr_mb l.
Proof.
  intros He Hm Hs Hg Hok Hk Hlive total Ht Hfit2.
  rewrite gpt_write_cases by assumption. cbn zeta. rewrite !count_small by assumption. fold total.
  rewrite (proj2 (Z.ltb_ge total 2112)) by lia. rewrite (proj2 (Z.ltb_ge (total - 34) _)) by lia.
  unfold mb_ok, OFF_MAX in *. cbn [orb negb].
  match goal with |- context [table_writes total ?x rnd] => set (l0 := x) end.
  assert (total * 512 <= 9223372036854775808) by (unfold total; dlia).
  destruct (table_writes_fit total l0 rnd) as [Hfit Hlen];
    [lia|unfold OFF_MAX; lia|assumption|unfold is_u64, l0; cbn; lia..|].
  rewrite <- Hlen in Hlive.
  destruct (img_writes_total (table_writes total l0 rnd) d k Hok Hfit Hk Hlive) as (d' & Ew & Hl').
  rewrite Ew. cbn [mbind option_bind Z.eqb negb].
  eexists _, _. split; [reflexivity|]. split; [exact Hl'|]. unfold planned. cbn. lia.
Qed.

(** C23.  Which layout, and when: with sizes that do not overflow, the run
    returns -1 and writes nothing exactly when the image is too small (or the
    sector size is not 512, or memory is short), and otherwise succeeds on a
    device that can complete 34,304 more bytes; the three partitions then start
    on 1 MiB boundaries, follow each other without overlap, and the Windows
    partition is not empty and ends at the last usable block. *)
Theorem gpt_layout_sound malloced rnd (d : D) ss esp_mb msr_mb k :
  mb_ok esp_mb → mb_ok msr_mb → 0 <= img_size d <= OFF_MAX → guids_ok rnd → img_ok d →
  0 <= k → img_live (34304 + k) d →
  let total := img_size d / 512 in
  if negb (ss =? 512) || (total <? 2112) || (total - 34 <? 2048 + (esp_mb + msr_mb) * 2048) || negb malloced
  then gpt_write_windows malloced rnd d ss esp_mb msr_mb = Some (-1, d, None)
  else ∃ d' l, gpt_write_windows malloced rnd d ss esp_mb msr_mb = Some (0, d', Some l) ∧ img_live k d' ∧
    esp_start_lba l mod 2048 = 0 ∧ msr_start_lba l mod 2048 = 0 ∧ win_start_lba l mod 2048 = 0 ∧
    34 <= esp_start_lba l ∧ esp_count_lba l = esp_mb * 2048 ∧ msr_count_lba l = msr_mb * 2048 ∧
    esp_start_lba l + esp_count_lba l = msr_start_lba l ∧
    msr_start_lba l + msr_count_lba l = win_start_lba l ∧ 0 < win_count_lba l ∧
    win_start_lba l + win_count_lba l - 1 = total - 34.
Proof.
  intros He Hm Hs Hg Hok Hk Hlive total.
  destruct (Z.eqb_spec ss 512) as [->|Hss]; cbn [negb orb];
    [|unfold gpt_write_windows; by rewrite (proj2 (Z.eqb_neq ss 512) Hss)].
  destruct ((total <? 2112) || (total - 34 <? _) || negb malloced) eqn:E.
  { rewrite gpt_write_cases by assumption. cbn zeta. rewrite !count_small by assumption. fold total.
    replace (2048 + esp_mb * 2048 + msr_mb * 2048) with (2048 + (esp_mb + msr_mb) * 2048) by lia. by rewrite E. }
  apply orb_false_iff in E as [E Em]. apply orb_false_iff in E as [E1 E2]. zbool. subst malloced.
  destruct (gpt_write_total rnd d esp_mb msr_mb k) as (d' & l & Er & Hl' & P1 & P2 & P3 & P4 & P5 & P6 & P7 & P8);
    [assumption..|].
  exists d', l. split; [exact Er|]. split; [exact Hl'|].
  rewrite P2, P3, P4, P5, P6, P7. repeat split; try lia; dlia.
Qed.
End table.

(** ** Concrete runs *)

Definition demo_random : gpt_random :=
  mkRandom (seqZ 1 16) (seqZ 17 16) (seqZ 33 16) (seqZ 49 16).
Definition demo_disk : blockio * list answer :=
  (fresh_image 3174400, replicate (Z.to_nat 34304) (Count 16384)).

Lemma demo_disk_ok :
  mb_ok 1 ∧ 0 <= img_size demo_disk <= OFF_MAX ∧ guids_ok demo_random ∧ img_ok demo_disk ∧
  img_live (34304 + 0) demo_disk.
Proof.
  split; [unfold mb_ok; lia|]. split; [vm_compute; split; congruence|].
  split; [unfold guids_ok; vm_compute; auto|]. split; [apply fresh_image_wf; lia|].
  split; [apply Forall_replicate; simpl; lia|vm_compute; congruence].
Qed.

Lemma gpt_table_valid_witness : ∃ d' l,
  gpt_write_windows true demo_random demo_disk 512 1 1 = Some (0, d', Some l) ∧
  header_valid (img_view d') 1 ∧ header_valid (img_view d') 6199.
Proof.
  destruct demo_disk_ok as (H1 & H2 & H3 & H4 & H5).
  destruct (gpt_write_total demo_random demo_disk 1 1 0) as (d' & l & E & _);
    [assumption..|lia|assumption|vm_compute; congruence|vm_compute; congruence|].
  exists d', l. split; [exact E|].
  destruct (gpt_table_valid demo_random demo_disk d' 1 1 l H1 H1 H2 H3 H4 E) as (_ & _ & Hh & _).
  split; [apply (Hh 1); left; reflexivity|apply (Hh 6199); right; reflexivity].
Defined.

Lemma gpt_layout_sound_witness : ∃ d' l,
  gpt_write_windows true demo_random demo_disk 512 1 1 = Some (0, d', Some l) ∧
  win_start_lba l + win_count_lba l - 1 = 6166.
Proof.
  destruct demo_disk_ok as (H1 & H2 & H3 & H4 & H5).
  destruct (gpt_layout_sound true demo_random demo_disk 512 1 1 0 H1 H1 H2 H3 H4 ltac:(lia) H5)
    as (d' & l & E & _ & _ & _ & _ & _ & _ & _ & _ & _ & _ & Hw).
  exists d', l. split; [exact E|exact Hw].
Defined.

(** The sizes are not checked: an ESP of 2^44 MiB wraps to an empty one, which
    is accepted, and its entry ends before it begins. *)
Lemma gpt_size_wraps : ∃ d' l,
  gpt_write_windows true demo_random demo_disk 512 17592186044416 1 = Some (0, d', Some l) ∧
  esp_count_lba l = 0.
Proof.
  destruct (img_writes_total (D := blockio * list answer)
    (table_writes 6200 (mkGpt 512 2048 0 2048 2048 4096 2071 (rand_guid (disk_r demo_random)) [] []) demo_random) demo_disk 0)
    as (d' & E & _).
  - apply demo_disk_ok.
  - apply table_writes_fit; unfold is_u64; simpl; try lia; [vm_compute; congruence|apply demo_disk_ok].
  - lia.
  - replace (writes_len _) with 34304; [apply demo_disk_ok|].
    symmetry. apply table_writes_fit; unfold is_u64; simpl; try lia; [vm_compute; congruence|apply demo_disk_ok].
  - eexists d', _. split; [|].
    + rewrite gpt_write_cases by apply demo_disk_ok. cbn zeta.
      change (img_size demo_disk / 512) with 6200.
      change (u64 (17592186044416 * 1024 * 1024) / 512) with 0.
      change (u64 (1 * 1024 * 1024) / 512) with 2048.
      change ((6200 <? 2112) || (6200 - 34 <? 2048 + 0 + 2048) || negb true) with false.
      cbn iota. change (2048 + 0 + 2048) with 4096. change (6200 - 33 - 4096) with 2071.
      change (2048 + 0) with 2048.
      rewrite E. reflexivity.
    + reflexivity.
Qed.
