(* ===== verification/Fat32.v ===== *)
(** * The FAT32 writer of the EFI system partition
      ([src/tools/iso-patch-mac/engine/fat32.c])

    The directory tree in memory, the bump allocator with its FAT, and the bytes
    the writer sends to the image.  A pointer to a node is the list of child
    indices that leads to it from the root.  The writer ignores the result of
    every [blockio_write]; so does [puts] of [ImageWrites]. *)

From Stdlib Require Import String.
From S2P Require Import Prelude Bytes WStr BlockIO ImageWrites.

(** ** Geometry constants ([fat32_open]) *)

Definition SECTSZ : Z := 512.
Definition SPC : Z := 4.
Definition NUM_FATS : Z := 2.
Definition RESERVED : Z := 32.
Definition CLUSTER_SIZE : Z := SECTSZ * SPC.
Definition FAT_EOC : Z := 0x0FFFFFFF.

(** ** The tree *)

Record finfo := mkInfo {
  longname : list Z;
  name83 : list Z;
  lcase : Z;
  needs_lfn : bool;
  is_dir : bool;
  first_cluster : Z;
  fsz : Z;              (* [size] *)
  nclusters : Z;
}.

Inductive fnode := Node (info : finfo) (child : list fnode).

Definition info (n : fnode) : finfo := let '(Node i _) := n in i.
Definition child (n : fnode) : list fnode := let '(Node _ c) := n in c.

Record fat32_writer := mkFat {
  part_off : Z;
  part_sectors : Z;
  fat_size : Z;
  total_clusters : Z;
  fat : list Z;
  fat_cap : Z;
  next_free : Z;
  serial : Z;
  label : list Z;
  root : fnode;
}.

Definition data_start_sector (w : fat32_writer) : Z := u32 (RESERVED + u32 (NUM_FATS * fat_size w)).

Definition cluster_byte (w : fat32_writer) (clu : Z) : Z :=
  u64 (part_off w + u64 (u32 (data_start_sector w + u32 (u32 (clu - 2) * SPC)) * SECTSZ)).

(** ** The allocator

    [fat] and [next_free]; a result of 0 means the volume is full. *)
Definition alloc_state : Type := list Z * Z.

Definition alloc_cluster (cap : Z) (s : alloc_state) : Z * alloc_state :=
  let c := snd s in
  let s1 := (fst s, u32 (c + 1)) in
  if cap <=? c then (0, s1) else (c, (<[Z.to_nat c := FAT_EOC]> (fst s), snd s1)).

(** [if (!first) first = c; else fat[prev] = c; prev = c;], [n] times; [None]
    when an allocation fails. *)
Fixpoint alloc_chain (cap : Z) (n : nat) (first prev : Z) (s : alloc_state) : option Z * alloc_state :=
  match n with
  | O => (Some first, s)
  | S n' =>
      let '(c, s1) := alloc_cluster cap s in
      if c =? 0 then (None, s1) else
      if first =? 0 then alloc_chain cap n' c c s1
      else alloc_chain cap n' first c (<[Z.to_nat prev := c]> (fst s1), snd s1)
  end.

(** ** Short names *)

Definition is_lower (c : Z) : bool := (97 <=? c) && (c <=? 122).
Definition is_upper (c : Z) : bool := (65 <=? c) && (c <=? 90).
Definition is_digit (c : Z) : bool := (48 <=? c) && (c <=? 57).
Definition one_of (s : string) (c : Z) : bool := existsb (Z.eqb c) (lit s).
Definition to_upper (c : Z) : Z := if is_lower c then c - 32 else c.

(** The position of the only dot; [None] when there are two. *)
Fixpoint only_dot (i : nat) (comp : list Z) (dot : option nat) : option (option nat) :=
  match comp with
  | [] => Some dot
  | c :: comp' =>
      if c =? 46 then match dot with Some _ => None | None => only_dot (S i) comp' (Some i) end
      else only_dot (S i) comp' dot
  end.

(** One part of a clean name: its characters in upper case, and whether lower-
    and upper-case letters were seen. *)
Fixpoint clean_part (extra : string) (part : list Z) (lo up : bool) : option (list Z * bool * bool) :=
  match part with
  | [] => Some ([], lo, up)
  | c :: part' =>
      if is_lower c then
        '(out, lo', up') ← clean_part extra part' true up; Some (c - 32 :: out, lo', up')
      else if is_upper c then
        '(out, lo', up') ← clean_part extra part' lo true; Some (c :: out, lo', up')
      else if is_digit c || one_of extra c then
        '(out, lo', up') ← clean_part extra part' lo up; Some (c :: out, lo', up')
      else None
  end.

(** [memset(out, ' ', n)] overwritten from the start. *)
Definition pad_spaces (n : nat) (l : list Z) : list Z := l ++ replicate (n - length l) 32.

Definition clean_83 (comp : list Z) : option (list Z * Z) :=
  let len := Z.of_nat (length comp) in
  if (len <? 1) || (12 <? len) then None else
  dot ← only_dot 0 comp None;
  let bl := match dot with None => len | Some d => Z.of_nat d end in
  let el := match dot with None => 0 | Some d => len - Z.of_nat d - 1 end in
  if (bl <? 1) || (8 <? bl) || (3 <? el) then None else
  '(base, blo, bup) ← clean_part "_-~!#$" (take (Z.to_nat bl) comp) false false;
  '(ext, elo, eup) ← clean_part "_-" (drop (Z.to_nat (bl + 1)) comp) false false;
  if blo && bup then None else
  if elo && eup then None else
  Some (pad_spaces 8 base ++ pad_spaces 3 ext,
        Z.lor (if blo then 0x08 else 0) (if elo then 0x10 else 0)).

Definition find_child83 (d : fnode) (n83 : list Z) : option fnode :=
  List.find (λ c, bool_decide (name83 (info c) = n83)) (child d).

Definition ieq (a b : list Z) : bool := bool_decide (map to_upper a = map to_upper b).

(** The index of the first child with that name. *)
Fixpoint find_index (comp : list Z) (l : list fnode) (i : nat) : option nat :=
  match l with
  | [] => None
  | c :: l' => if ieq (longname (info c)) comp then Some i else find_index comp l' (S i)
  end.
Definition find_child (d : fnode) (comp : list Z) : option nat := find_index comp (child d) 0.

(** The position of the last dot. *)
Fixpoint last_dot (i : nat) (comp : list Z) (dot : option nat) : option nat :=
  match comp with
  | [] => dot
  | c :: comp' => last_dot (S i) comp' (if c =? 46 then Some i else dot)
  end.

Definition alias_char (extra : string) (c : Z) : Z :=
  let c := to_upper c in if is_upper c || is_digit c || one_of extra c then c else 95.

Fixpoint alias_base (room : nat) (part : list Z) : list Z :=
  match room, part with
  | S room', c :: part' =>
      if (c =? 32) || (c =? 46) then alias_base room part' else alias_char "_-" c :: alias_base room' part'
  | _, _ => []
  end.

(** [NAME~seq.EXT]. *)
Definition alias_name (base ext : list Z) (seq : Z) : list Z :=
  let suff := 126 :: dec seq in
  let bl := length base in
  let keep := if (8 <? bl + length suff)%nat then (8 - length suff)%nat else bl in
  pad_spaces 8 (take keep base ++ suff) ++ pad_spaces 3 ext.

Fixpoint try_alias (n : nat) (seq : Z) (parent : fnode) (base ext : list Z) : option (list Z) :=
  match n with
  | O => None
  | S n' =>
      let tmp := alias_name base ext seq in
      match find_child83 parent tmp with
      | None => Some tmp
      | Some _ => try_alias n' (seq + 1) parent base ext
      end
  end.

(** [stray] is the byte after the ten of the literal ["ALIAS  ~1"], which
    [memcpy(out, "ALIAS  ~1", 11)] reads as well. *)
Definition gen_alias (stray : Z) (parent : fnode) (comp : list Z) : list Z :=
  let dot := last_dot 0 comp None in
  let base := alias_base 6 (take (default (length comp) dot) comp) in
  let base := if decide (base = []) then [95] else base in
  let ext := match dot with
             | None => []
             | Some d => map (alias_char "") (take 3 (drop (S d) comp))
             end in
  default (lit "ALIAS  ~1" ++ [0; stray]) (try_alias 999 1 parent base ext).

Definition make_node (stray : Z) (parent : fnode) (comp : list Z) (dir : bool) : fnode :=
  let nm := take 255 comp in
  match clean_83 nm with
  | Some (n83, lc) => Node (mkInfo nm n83 lc false dir 0 0 0) []
  | None => Node (mkInfo nm (gen_alias stray parent nm) 0 true dir 0 0 0) []
  end.

Definition node_add (d c : fnode) : fnode := Node (info d) (child d ++ [c]).

(** ** Paths *)

Definition is_sep (c : Z) : bool := (c =? 47) || (c =? 92).

(** The components of a path, separators dropped. *)
Fixpoint components (cur path : list Z) : list (list Z) :=
  match path with
  | [] => if decide (cur = []) then [] else [cur]
  | c :: path' =>
      if is_sep c then (if decide (cur = []) then [] else [cur]) ++ components [] path'
      else components (cur ++ [c]) path'
  end.

Fixpoint node_at (n : fnode) (pos : list nat) : option fnode :=
  match pos with
  | [] => Some n
  | i :: pos' => c ← child n !! i; node_at c pos'
  end.

Fixpoint update_at (pos : list nat) (f : fnode → fnode) (n : fnode) : fnode :=
  match pos with
  | [] => f n
  | i :: pos' => Node (info n) (alter (update_at pos' f) i (child n))
  end.

(** From the node at [pos] down all components but the last, creating missing
    directories; the tree after it, and the parent's position and the last
    component unless the walk fails. *)
Fixpoint navigate (stray : Z) (comps : list (list Z)) (pos : list nat) (tree : fnode) :
    fnode * option (list nat * list Z) :=
  match comps with
  | [] => (tree, None)
  | [last] => (tree, Some (pos, last))
  | comp :: rest =>
      match node_at tree pos with
      | None => (tree, None)
      | Some cur =>
          match find_child cur comp with
          | Some i =>
              match child cur !! i with
              | Some nx => if is_dir (info nx) then navigate stray rest (pos ++ [i]) tree else (tree, None)
              | None => (tree, None)
              end
          | None =>
              navigate stray rest (pos ++ [length (child cur)])
                (update_at pos (λ d, node_add d (make_node stray d comp true)) tree)
          end
      end
  end.

(** ** [fat32_open] *)

(** One round of the fixed point: the FAT for [clusters], and the clusters that
    are left beside it. *)
Definition plan_round (sectors clusters : Z) : Z * Z :=
  let fat_sectors := u32 ((u64 (u32 (clusters + 2) * 4) + SECTSZ - 1) / SECTSZ) in
  let avail := u64 (sectors - RESERVED - NUM_FATS * fat_sectors) in
  (fat_sectors, u32 (avail / SPC)).

Fixpoint plan (it : nat) (sectors fat_sectors clusters : Z) : Z * Z :=
  match it with
  | O => (fat_sectors, clusters)
  | S it' => let '(f, c) := plan_round sectors clusters in plan it' sectors f c
  end.

Definition geometry (sectors : Z) : Z * Z :=
  plan 8 sectors 0 (u32 (u64 (sectors - RESERVED) / SPC)).

Definition fat_label (label : list Z) : list Z := pad_spaces 11 (map to_upper (take 11 label)).

Definition fat32_open (part_lba sectors : Z) (label : list Z) : option fat32_writer :=
  let '(fsize, clusters) := geometry sectors in
  if clusters <? 65525 then None else
  let cap := u32 (clusters + 2) in
  let fat0 := <[1%nat := 0x0FFFFFFF]> (<[0%nat := 0x0FFFFFF8]> (replicate (Z.to_nat cap) 0)) in
  let '(c, s) := alloc_cluster cap (fat0, 2) in
  Some (mkFat (u64 (part_lba * 512)) sectors fsize clusters (fst s) cap (snd s)
    (Z.lxor 0x46415433 (u32 (u64 (sectors * 2654435761)))) (fat_label label)
    (Node (mkInfo [] [] 0 false true c 0 0) [])).

Definition set_root (w : fat32_writer) (r : fnode) : fat32_writer :=
  mkFat (part_off w) (part_sectors w) (fat_size w) (total_clusters w) (fat w) (fat_cap w)
    (next_free w) (serial w) (label w) r.

Definition set_alloc (w : fat32_writer) (s : alloc_state) : fat32_writer :=
  mkFat (part_off w) (part_sectors w) (fat_size w) (total_clusters w) (fst s) (fat_cap w)
    (snd s) (serial w) (label w) (root w).

Definition alloc_of (w : fat32_writer) : alloc_state := (fat w, next_free w).

(** ** [fat32_mkdir] *)

Definition fat32_mkdir (stray : Z) (w : fat32_writer) (path : list Z) : Z * fat32_writer :=
  match navigate stray (components [] path) [] (root w) with
  | (tree, None) => (-1, set_root w tree)
  | (tree, Some (pos, last)) =>
      match node_at tree pos with
      | None => (-1, set_root w tree)
      | Some parent =>
          match find_child parent last with
          | Some _ => (0, set_root w tree)
          | None => (0, set_root w (update_at pos (λ d, node_add d (make_node stray d last true)) tree))
          end
      end
  end.

(** ** [fat32_addfile] *)

(** The zero fill of the last cluster, 512 bytes at a time. *)
Fixpoint pad_writes (fuel : nat) (base pad : Z) : list (Z * list Z) :=
  match fuel with
  | O => []
  | S fuel' =>
      if 0 <? pad then
        let k := if pad <? 512 then pad else 512 in
        (base, replicate (Z.to_nat k) 0) :: pad_writes fuel' (u64 (base + k)) (pad - k)
      else []
  end.

Definition file_clusters (size : Z) : Z := u32 (u64 (size + CLUSTER_SIZE - 1) / CLUSTER_SIZE).

Definition file_writes (w : fat32_writer) (first : Z) (data : list Z) : list (Z * list Z) :=
  let size := Z.of_nat (length data) in
  let off := cluster_byte w first in
  let alloc := u64 (file_clusters size * CLUSTER_SIZE) in
  (off, data) :: if size <? alloc then pad_writes 4 (u64 (off + size)) (alloc - size) else [].

(** Result, writer, and the writes sent to the image. *)
Definition fat32_addfile (stray : Z) (w : fat32_writer) (path data : list Z) :
    Z * fat32_writer * list (Z * list Z) :=
  match navigate stray (components [] path) [] (root w) with
  | (tree, None) => (-1, set_root w tree, [])
  | (tree, Some (pos, last)) =>
      match node_at tree pos with
      | None => (-1, set_root w tree, [])
      | Some parent =>
          let w := set_root w tree in
          let size := Z.of_nat (length data) in
          let f := make_node stray parent last false in
          let add w first := set_root w (update_at pos (λ d, node_add d
            (Node (mkInfo (longname (info f)) (name83 (info f)) (lcase (info f)) (needs_lfn (info f))
                     false first (u32 size) 0) [])) (root w)) in
          if size =? 0 then (0, add w 0, []) else
          match alloc_chain (fat_cap w) (Z.to_nat (file_clusters size)) 0 0 (alloc_of w) with
          | (None, s) => (-1, set_alloc w s, [])
          | (Some first, s) =>
              let w := set_alloc w s in (0, add w first, file_writes w first data)
          end
      end
  end.

(** ** Directory entries *)

Definition lfn_count (n : fnode) : Z :=
  if needs_lfn (info n) then (Z.of_nat (length (longname (info n))) + 12) / 13 else 0.

Definition lfn_checksum (n83 : list Z) : Z :=
  fold_left (λ s c, u8 (Z.lor (Z.shiftr s 1) (Z.shiftl s 7) + u8 c)) n83 0.

Definition put_dirent (n83 : list Z) (lc attr clu size : Z) : list Z :=
  let e := replicate 32 0 in
  let e := splice e 0 n83 in
  let e := splice e 0x0B [attr] in
  let e := splice e 0x0C [lc] in
  let e := splice e 0x14 (le_bytes 2 (u16 (Z.shiftr clu 16))) in
  let e := splice e 0x1A (le_bytes 2 (u16 (Z.land clu 0xffff))) in
  splice e 0x1C (le_bytes 4 size).

Definition lfn_pos : list nat := [1; 3; 5; 7; 9; 14; 16; 18; 20; 22; 24; 28; 30]%nat.

(** The character a long-name entry stores for index [ci]. *)
Definition lfn_char (name : list Z) (ci : Z) : Z :=
  let len := Z.of_nat (length name) in
  if ci <? len then u8 (bget name ci) else if ci =? len then 0x0000 else 0xFFFF.

Definition lfn_entry (n : fnode) (cnt sum e : Z) : list Z :=
  let d := replicate 32 0 in
  let d := splice d 0 [u8 (Z.lor e (if e =? cnt then 0x40 else 0))] in
  let d := splice d 0x0B [0x0F] in
  let d := splice d 0x0D [sum] in
  fold_left (λ d '(i, p), splice d p (le_bytes 2 (lfn_char (longname (info n)) ((e - 1) * 13 + i))))
    (zip (seqZ 0 13) lfn_pos) d.

(** [for (e = cnt; e >= 1; e--)]. *)
Definition emit_lfn (n : fnode) : list (list Z) :=
  let cnt := lfn_count n in
  map (λ e, lfn_entry n cnt (lfn_checksum (name83 (info n))) e) (rev (seqZ 1 cnt)).

(** ** [fat32_close] *)

Definition dir_entry_count (is_root : bool) (d : fnode) : Z :=
  fold_left (λ n c, u32 (n + (1 + lfn_count c))) (child d) (if is_root then 1 else 2).

Definition dir_clusters (is_root : bool) (d : fnode) : Z :=
  let n := u32 (u32 (dir_entry_count is_root d * 32) + CLUSTER_SIZE - 1) / CLUSTER_SIZE in
  if n =? 0 then 1 else n.

Definition set_dir (i : finfo) (first nclu : Z) : finfo :=
  mkInfo (longname i) (name83 i) (lcase i) (needs_lfn i) (is_dir i) first (fsz i) nclu.

(** The children in turn, stopping at the first failure. *)
Section each_child.
Variable step : fnode → alloc_state → bool * fnode * alloc_state.
Fixpoint assign_children (l : list fnode) (s : alloc_state) : bool * list fnode * alloc_state :=
  match l with
  | [] => (true, [], s)
  | c :: l' =>
      if is_dir (info c) then
        match step c s with
        | (false, c', s1) => (false, c' :: l', s1)
        | (true, c', s1) => let '(ok, l2, s2) := assign_children l' s1 in (ok, c' :: l2, s2)
        end
      else let '(ok, l2, s2) := assign_children l' s in (ok, c :: l2, s2)
  end.
End each_child.

Fixpoint assign_dir_clusters (cap : Z) (is_root : bool) (d : fnode) (s : alloc_state) {struct d} :
    bool * fnode * alloc_state :=
  match d with
  | Node i kids =>
      let nclu := dir_clusters is_root d in
      let fc := first_cluster i in
      let '(r, s1) :=
        if is_root then alloc_chain cap (Z.to_nat (nclu - 1)) fc fc s
        else alloc_chain cap (Z.to_nat nclu) 0 0 s in
      match r with
      | None => (false, Node (set_dir i fc nclu) kids, s1)
      | Some first =>
          let '(ok, kids', s2) := assign_children (assign_dir_clusters cap false) kids s1 in
          (ok, Node (set_dir i first nclu) kids', s2)
      end
  end.

Definition child_entries (c : fnode) : list (list Z) :=
  (if needs_lfn (info c) then emit_lfn c else []) ++
  [put_dirent (name83 (info c)) (lcase (info c)) (if is_dir (info c) then 0x10 else 0x20)
     (first_cluster (info c)) (if is_dir (info c) then 0 else fsz (info c))].

(** The label, or "." and "..": [parent] is the first cluster ".." names. *)
Definition dot_entries (w : fat32_writer) (is_root : bool) (parent : Z) (d : fnode) : list (list Z) :=
  if is_root then [put_dirent (label w) 0 0x08 0 0]
  else [put_dirent (pad_spaces 11 [46]) 0 0x10 (first_cluster (info d)) 0;
        put_dirent (pad_spaces 11 [46; 46]) 0 0x10 parent 0].

(** A zeroed buffer of [n] bytes filled from its start, as it is written out. *)
Definition filled (n : nat) (used : list Z) : list Z :=
  take n (used ++ replicate (n - length used) 0).

Definition dir_bytes (w : fat32_writer) (is_root : bool) (parent : Z) (d : fnode) : list Z :=
  filled (Z.to_nat (u32 (nclusters (info d) * CLUSTER_SIZE)))
    (concat (dot_entries w is_root parent d ++ concat (map child_entries (child d)))).

Fixpoint write_dir (w : fat32_writer) (is_root : bool) (parent : Z) (d : fnode) {struct d} : list (Z * list Z) :=
  match d with
  | Node i kids =>
      (cluster_byte w (first_cluster i), dir_bytes w is_root parent d) ::
      concat (map (λ c, if is_dir (info c)
                        then write_dir w false (if is_root then 0 else first_cluster i) c else []) kids)
  end.

Definition fat_bytes (w : fat32_writer) : list Z :=
  filled (Z.to_nat (u32 (fat_size w * SECTSZ)))
    (concat (map (le_bytes 4) (take (Z.to_nat (Z.min (next_free w) (fat_cap w))) (fat w)))).

Definition fat_writes (w : fat32_writer) : list (Z * list Z) :=
  map (λ f, (u64 (part_off w + u64 (u32 (RESERVED + u32 (f * fat_size w)) * SECTSZ)), fat_bytes w))
    (seqZ 0 NUM_FATS).

Definition boot_sector (w : fat32_writer) : list Z :=
  let bs := replicate 512 0 in
  let bs := splice bs 0 [0xEB; 0x58; 0x90] in
  let bs := splice bs 3 (lit "MSDOS5.0") in
  let bs := splice bs 0x0B (le_bytes 2 SECTSZ) in
  let bs := splice bs 0x0D [u8 SPC] in
  let bs := splice bs 0x0E (le_bytes 2 RESERVED) in
  let bs := splice bs 0x10 [u8 NUM_FATS] in
  let bs := splice bs 0x15 [0xF8] in
  let bs := splice bs 0x18 (le_bytes 2 0x3F) in
  let bs := splice bs 0x1A (le_bytes 2 0xFF) in
  let bs := splice bs 0x1C (le_bytes 4 (u32 (part_off w / SECTSZ))) in
  let bs := splice bs 0x20 (le_bytes 4 (u32 (part_sectors w))) in
  let bs := splice bs 0x24 (le_bytes 4 (fat_size w)) in
  let bs := splice bs 0x2C (le_bytes 4 2) in
  let bs := splice bs 0x30 (le_bytes 2 1) in
  let bs := splice bs 0x32 (le_bytes 2 6) in
  let bs := splice bs 0x40 [0x80] in
  let bs := splice bs 0x42 [0x29] in
  let bs := splice bs 0x43 (le_bytes 4 (serial w)) in
  let bs := splice bs 0x47 (label w) in
  let bs := splice bs 0x52 (lit "FAT32   ") in
  splice bs 0x1FE (le_bytes 2 0xAA55).

Definition fsinfo_sector (w : fat32_writer) : list Z :=
  let fsi := replicate 512 0 in
  let fsi := splice fsi 0x000 (le_bytes 4 0x41615252) in
  let fsi := splice fsi 0x1E4 (le_bytes 4 0x61417272) in
  let fsi := splice fsi 0x1E8 (le_bytes 4 (u32 (total_clusters w - (next_free w - 2)))) in
  let fsi := splice fsi 0x1EC (le_bytes 4 (next_free w)) in
  splice fsi 0x1FE (le_bytes 2 0xAA55).

Definition boot_writes (w : fat32_writer) : list (Z * list Z) :=
  [(part_off w, boot_sector w); (u64 (part_off w + 6 * 512), boot_sector w);
   (u64 (part_off w + 512), fsinfo_sector w); (u64 (part_off w + 7 * 512), fsinfo_sector w)].

(** Result, final writer, writes; -1 writes nothing. *)
Definition fat32_close (w : fat32_writer) : Z * fat32_writer * list (Z * list Z) :=
  let '(ok, r, s) := assign_dir_clusters (fat_cap w) true (root w) (alloc_of w) in
  let w := set_root (set_alloc w s) r in
  if negb ok then (-1, w, []) else
  (0, w, write_dir w true 0 r ++ fat_writes w ++ boot_writes w).

(** ** The operations on an image *)

Section io.
Context {D : Type} `{Image D}.

Definition addfile_io (stray : Z) (w : fat32_writer) (d : D) (path data : list Z) : option (Z * fat32_writer * D) :=
  let '(rc, w', ws) := fat32_addfile stray w path data in d' ← puts d ws; Some (rc, w', d').

Definition close_io (w : fat32_writer) (d : D) : option (Z * D) :=
  let '(rc, _, ws) := fat32_close w in
  d1 ← puts d ws;
  if negb (rc =? 0) then Some (rc, d1) else '(_, d2) ← img_flush d1; Some (rc, d2).
End io.

(** ** Geometry *)

(** The FAT sectors for [c] clusters, and the clusters beside [f] FAT sectors. *)
Definition fat_for (c : Z) : Z := (c + 129) / 128.
Definition left_for (P f : Z) : Z := (P - 32 - 2 * f) / 4.

Lemma plan_round_eq P c :
  4096 <= P < 4294967296 → 0 <= c <= left_for P 0 →
  plan_round P c = (fat_for c, left_for P (fat_for c)).
Proof.
  unfold left_for. intros HP Hc. unfold plan_round, SECTSZ, SPC, RESERVED, NUM_FATS.
  assert (0 <= c < 1073741824) by dlia.
  rewrite (u32_small (c + 2)), (u64_small ((c + 2) * 4)) by lia.
  assert (((c + 2) * 4 + 512 - 1) / 512 = fat_for c) as -> by (unfold fat_for; dlia).
  assert (0 <= fat_for c <= c / 128 + 2) as Hf by (unfold fat_for; dlia).
  assert (32 + 2 * fat_for c <= P) by dlia.
  rewrite (u32_small (fat_for c)), u64_small by dlia. f_equal. apply u32_small. dlia.
Qed.

(** One round as a map on the number of FAT sectors: it reverses order. *)
Definition refit (P f : Z) : Z := fat_for (left_for P f).

Lemma refit_anti P f f' : f <= f' → refit P f' <= refit P f.
Proof. intros. unfold refit, fat_for, left_for. dlia. Qed.

Lemma refit_contract P f f' d :
  0 <= f' - f <= d → 0 <= refit P f - refit P f' <= (d / 2 + 1) / 128 + 1.
Proof. intros. unfold refit, fat_for, left_for. dlia. Qed.

Lemma refit_range P f : 4096 <= P → 0 <= f <= P / 512 + 2 → 0 <= refit P f <= P / 512 + 2.
Proof. intros. unfold refit, fat_for, left_for. dlia. Qed.

Lemma plan_iter it P f :
  4096 <= P < 4294967296 → 0 <= f <= P / 512 + 2 →
  plan it P f (left_for P f) = (Nat.iter it (refit P) f, left_for P (Nat.iter it (refit P) f)).
Proof.
  intros HP. revert f. induction it as [|it IH]; intros f Hf; [done|]. cbn [plan].
  rewrite plan_round_eq by (done || (unfold left_for; dlia)).
  fold (refit P f). rewrite IH by (by apply refit_range; [lia|]).
  by rewrite <- Nat.iter_succ_r.
Qed.

(** Two rounds, from below: the bracket [lo, refit lo] shrinks. *)
Lemma refit_two P lo d :
  0 <= refit P lo - lo <= d →
  let lo' := refit P (refit P lo) in
  let g x := (x / 2 + 1) / 128 + 1 in
  0 <= refit P lo' - lo' <= g (g d) ∧ 0 <= refit P lo - lo' <= g d.
Proof.
  intros Hd lo' g. pose proof (refit_contract P lo (refit P lo) d Hd) as H1.
  fold lo' in H1. fold (g d) in H1.
  pose proof (refit_contract P lo' (refit P lo) (g d) H1) as H2. fold (g (g d)) in H2.
  change (refit P (refit P lo)) with lo' in H2. lia.
Qed.

(** Where eight rounds end: at a fixed point, or in the lower half of a 2-cycle. *)
Lemma refit_converges P :
  4096 <= P < 4294967296 →
  let f8 := Nat.iter 8 (refit P) 0 in
  0 <= f8 <= P / 512 + 2 ∧ f8 <= refit P f8 ∧
  (refit P f8 = f8 ∨ refit P f8 = f8 + 1 ∧ refit P (f8 + 1) = f8).
Proof.
  intros HP. pose proof (refit_two P 0 8388609) as (A2 & A3); [unfold refit, fat_for, left_for; dlia|].
  set (f2 := refit P (refit P 0)) in *.
  destruct (refit_two P f2 129) as (B2 & B3); [exact A2|]. set (f4 := refit P (refit P f2)) in *.
  destruct (refit_two P f4 1) as (C2 & C3); [exact B2|]. set (f6 := refit P (refit P f4)) in *.
  destruct (refit_two P f6 1) as (D2 & D3); [exact C2|].
  change (Nat.iter 8 (refit P) 0) with (refit P (refit P f6)) in *. cbn zeta.
  set (f8 := refit P (refit P f6)) in *.
  change ((1 / 2 + 1) / 128 + 1) with 1 in D2, D3. change ((1 / 2 + 1) / 128 + 1) with 1 in D2.
  assert (0 <= f6 <= P / 512 + 2) as R6.
  { do 4 (apply refit_range; [lia|]). apply refit_range; [lia|]. apply refit_range; [lia|]. dlia. }
  split; [do 2 (apply refit_range; [lia|]); exact R6|]. split; [lia|].
  destruct (Z.eq_dec (refit P f8) f8) as [|Hne]; [by left|right].
  assert (refit P f6 = f8 + 1) as E7.
  { assert (refit P f6 = f8 ∨ refit P f6 = f8 + 1) as [E|E] by lia; [|done].
    exfalso. apply Hne. unfold f8 at 2. by rewrite E. }
  split; [lia|]. by rewrite <- E7.
Qed.

Lemma refit_low it P F : refit P F = F + 1 → refit P (F + 1) = F → Nat.iter (2 * it) (refit P) 0 <= F ∨ F < 0.
Proof.
  intros H1 H2. induction it as [|it IH]; [simpl; lia|].
  replace (2 * S it)%nat with (S (S (2 * it))) by lia. cbn [Nat.iter nat_rect].
  destruct IH as [IH|]; [left|by right].
  change (nat_rect (λ _, Z) 0 (λ _, refit P) (2 * it)) with (Nat.iter (2 * it) (refit P) 0).
  transitivity (refit P (F + 1)); [|lia]. apply refit_anti. rewrite <- H1. by apply refit_anti.
Qed.

Lemma geometry_sound P f c :
  4096 <= P < 4294967296 → geometry P = (f, c) →
  c = (P - 32 - 2 * f) / 4 ∧ 32 + 2 * f + 4 * c <= P < 32 + 2 * f + 4 * c + 4 ∧
  128 * (f - 1) < c + 2 ∧
  if bool_decide ((P - 28) mod 514 <= 1)
  then f = (P - 28) / 514 ∧ c + 2 = 128 * f + 1
  else c + 2 <= 128 * f.
Proof.
  intros HP Hg. unfold geometry in Hg. rewrite u64_small in Hg by (unfold RESERVED; lia).
  rewrite u32_small in Hg by (unfold RESERVED, SPC; dlia).
  replace ((P - RESERVED) / SPC) with (left_for P 0) in Hg
    by (unfold left_for, RESERVED, SPC; f_equal; lia).
  rewrite plan_iter in Hg by (done || dlia).
  destruct (refit_converges P HP) as (R & L & Hc).
  pose proof (refit_low 4 P) as Hlow. change (2 * 4)%nat with 8%nat in Hlow.
  remember (Nat.iter 8 (refit P) 0) as f8 eqn:E8. clear E8.
  injection Hg as <- <-. rename f8 into f.
  split; [done|]. split; [unfold left_for; dlia|].
  assert (f <= fat_for (left_for P f)) as Hge by exact L.
  split; [unfold fat_for in Hge; dlia|].
  destruct Hc as [Hfix|[H1 H2]].
  - case_bool_decide as Hb; [|unfold refit, fat_for in Hfix; dlia].
    exfalso. set (F := (P - 28) / 514).
    assert (refit P F = F + 1 ∧ refit P (F + 1) = F) as [H1 H2]
      by (unfold refit, fat_for, left_for, F; dlia).
    destruct (Hlow F H1 H2) as [Hl|Hl]; [|unfold F in Hl; dlia].
    pose proof (refit_anti P _ _ Hl). lia.
  - unfold refit, fat_for, left_for in *. case_bool_decide as Hb; dlia.
Qed.

(** C24.  The geometry [fat32_open] plans, for every partition of 4096 to 2^32
    sectors: the clusters use all the room beside the two FATs, the FAT is no
    larger than they need, and it is large enough, with one exception: on a
    partition of 514*f+28 or 514*f+29 sectors the rounds do not settle and the
    FAT is one entry too short for the clusters, so that [fat_cap] entries do
    not fit the sectors of the FAT. *)
Theorem fat32_geometry P f c :
  4096 <= P < 4294967296 → geometry P = (f, c) →
  c = (P - 32 - 2 * f) / 4 ∧ 32 + 2 * f + 4 * c <= P < 32 + 2 * f + 4 * c + 4 ∧
  128 * (f - 1) < c + 2 ∧
  if bool_decide ((P - 28) mod 514 <= 1)
  then f = (P - 28) / 514 ∧ c + 2 = 128 * f + 1
  else c + 2 <= 128 * f.
Proof. apply geometry_sound. Qed.

Lemma fat32_geometry_witness : ∃ f c, geometry 267308 = (f, c) ∧ c + 2 = 128 * f + 1.
Proof.
  exists 520, 66559. split; [reflexivity|].
  apply (fat32_geometry 267308 520 66559); [lia|reflexivity].
Defined.
