(* ===== verification/Fat32Files.v ===== *)
(** * Files written through the FAT32 writer are on the disk

    The allocator's chains, the invariant that relates the writer and the image
    to the files added so far, and the theorem that after [fat32_close] each
    file is read back by following the FAT on the disk. *)

From Stdlib Require Import String.
From S2P Require Import Prelude Bytes WStr BlockIO ImageWrites Fat32.

(** ** Where things are *)

Definition geom (w : fat32_writer) : Prop :=
  0 <= part_off w ∧ part_off w + part_sectors w * 512 <= OFF_MAX ∧ part_sectors w < 4294967296 ∧
  1 <= fat_size w < 8388608 ∧ fat_cap w = total_clusters w + 2 ∧ 65525 <= total_clusters w < 268435440 ∧
  32 + 2 * fat_size w + 4 * total_clusters w <= part_sectors w ∧
  fat_cap w <= 128 * fat_size w ∧ Z.of_nat (length (fat w)) = fat_cap w.

(** Byte offset of cluster [c]. *)
Definition cluster_at (w : fat32_writer) (c : Z) : Z :=
  part_off w + (32 + 2 * fat_size w + 4 * (c - 2)) * 512.

Lemma cluster_byte_eq w c : geom w → 2 <= c < fat_cap w → cluster_byte w c = cluster_at w c.
Proof.
  intros (G1 & G2 & G3 & G4 & G5 & G6 & G7 & G8 & G9) Hc.
  unfold cluster_byte, cluster_at, data_start_sector, SPC, SECTSZ, RESERVED, NUM_FATS, OFF_MAX in *.
  rewrite (u32_small (2 * fat_size w)), (u32_small (32 + _)), (u32_small (c - 2)),
    (u32_small ((c - 2) * 4)), u32_small, (u64_small (_ * 512)), u64_small by lia. lia.
Qed.

(** ** Chains *)

Definition linked (f : list Z) (c n : Z) : Prop :=
  ∀ i, 0 <= i < n → f !! Z.to_nat (c + i) = Some (if i =? n - 1 then FAT_EOC else c + i + 1).

Lemma linked_cons f c n :
  0 < n → f !! Z.to_nat c = Some (c + 1) → linked f (c + 1) n → linked f c (n + 1).
Proof.
  intros Hn Hc Hl i Hi. destruct (Z.eq_dec i 0) as [->|Hi0].
  - rewrite Z.add_0_r, (proj2 (Z.eqb_neq 0 _)) by lia. done.
  - specialize (Hl (i - 1) ltac:(lia)). replace (c + 1 + (i - 1)) with (c + i) in Hl by lia.
    rewrite Hl. replace (i - 1 =? n - 1) with (i =? n + 1 - 1); [done|].
    destruct (Z.eqb_spec i (n + 1 - 1)), (Z.eqb_spec (i - 1) (n - 1)); lia || done.
Qed.

(** [f'] is [f] except at [prev] and from [nf] on. *)
Definition fat_grown (f f' : list Z) (nf prev : Z) : Prop :=
  length f' = length f ∧ ∀ i, (i < Z.to_nat nf)%nat → i ≠ Z.to_nat prev → f' !! i = f !! i.

Lemma fat_grown_refl f nf prev : fat_grown f f nf prev.
Proof. done. Qed.

Lemma alloc_cluster_ok cap f nf :
  0 < nf < cap → cap < 4294967296 →
  alloc_cluster cap (f, nf) = (nf, (<[Z.to_nat nf := FAT_EOC]> f, nf + 1)).
Proof.
  intros. unfold alloc_cluster. simpl. rewrite (proj2 (Z.leb_gt cap nf)) by lia.
  by rewrite u32_small by lia.
Qed.

Lemma alloc_cluster_full cap f nf :
  0 <= nf → cap <= nf < 4294967295 → alloc_cluster cap (f, nf) = (0, (f, nf + 1)).
Proof.
  intros. unfold alloc_cluster. simpl. rewrite (proj2 (Z.leb_le cap nf)) by lia.
  by rewrite u32_small by lia.
Qed.

(** Extending a chain whose last cluster is [prev]. *)
Lemma alloc_chain_extend cap n first prev f nf :
  Z.of_nat (length f) = cap → cap < 4294967295 → 0 < first → 0 < prev < nf → nf < 4294967295 →
  (n > 0)%nat →
  ∃ r f' nf', alloc_chain cap n first prev (f, nf) = (r, (f', nf')) ∧ fat_grown f f' nf prev ∧
    nf <= nf' <= Z.max cap nf + 1 ∧
    (if nf + Z.of_nat n <=? cap
     then r = Some first ∧ nf' = nf + Z.of_nat n ∧ f' !! Z.to_nat prev = Some nf ∧ linked f' nf (Z.of_nat n)
     else r = None).
Proof.
  intros Hlen Hcap. revert first prev f nf Hlen. induction n as [|n IH]; intros first prev f nf Hlen Hf Hp Hnf Hn; [lia|].
  cbn [alloc_chain]. destruct (Z.le_gt_cases cap nf) as [Hfull|Hroom].
  { rewrite alloc_cluster_full by lia. simpl. eexists _, _, _. split; [done|]. split; [done|]. split; [lia|].
    rewrite (proj2 (Z.leb_gt (nf + Z.of_nat (S n)) cap)) by lia. done. }
  rewrite alloc_cluster_ok by lia. rewrite (proj2 (Z.eqb_neq nf 0)) by lia.
  rewrite (proj2 (Z.eqb_neq first 0)) by lia. cbn [fst snd].
  set (f1 := <[Z.to_nat prev := nf]> (<[Z.to_nat nf := FAT_EOC]> f)).
  assert (length f1 = length f) as Hl1 by (unfold f1; by rewrite !length_insert).
  assert (f1 !! Z.to_nat prev = Some nf) as Hprev
    by (unfold f1; apply list_lookup_insert_eq; rewrite length_insert; lia).
  assert (f1 !! Z.to_nat nf = Some FAT_EOC) as Hnew.
  { unfold f1. rewrite list_lookup_insert_ne by lia. apply list_lookup_insert_eq. lia. }
  assert (fat_grown f f1 nf prev) as Hg1.
  { split; [done|]. intros i Hi Hne. unfold f1. by rewrite !list_lookup_insert_ne by lia. }
  destruct n as [|n].
  - cbn [alloc_chain]. eexists _, _, _. split; [done|]. split; [done|]. split; [lia|].
    rewrite (proj2 (Z.leb_le (nf + Z.of_nat 1) cap)) by lia. split_and!; [done|lia|done|].
    intros i Hi. replace i with 0 by lia. rewrite Z.add_0_r. exact Hnew.
  - destruct (IH first nf f1 (nf + 1)) as (r & f' & nf' & E & [Hl2 Hg2] & Hb & Hc); [lia|lia|lia|lia|lia|].
    exists r, f', nf'. split; [exact E|]. split.
    { split; [congruence|]. intros i Hi Hne. rewrite Hg2 by lia. by apply Hg1. }
    split; [lia|]. replace (nf + 1 + Z.of_nat (S n)) with (nf + Z.of_nat (S (S n))) in Hc by lia.
    destruct (nf + Z.of_nat (S (S n)) <=? cap); [|done]. destruct Hc as (-> & -> & Hpv & Hlk).
    split_and!; [done|lia| |].
    + rewrite Hg2 by lia. exact Hprev.
    + replace (Z.of_nat (S (S n))) with (Z.of_nat (S n) + 1) by lia. apply linked_cons; [lia|done|exact Hlk].
Qed.

(** A new chain of [n] clusters: consecutive ones, linked, ended. *)
Lemma alloc_chain_new cap n f nf :
  Z.of_nat (length f) = cap → cap < 4294967295 → 0 < nf < 4294967294 → (n > 0)%nat →
  ∃ r f' nf', alloc_chain cap n 0 0 (f, nf) = (r, (f', nf')) ∧
    length f' = length f ∧ (∀ i, (i < Z.to_nat nf)%nat → f' !! i = f !! i) ∧
    nf <= nf' <= Z.max cap nf + 1 ∧
    (if nf + Z.of_nat n <=? cap
     then r = Some nf ∧ nf' = nf + Z.of_nat n ∧ linked f' nf (Z.of_nat n) else r = None).
Proof.
  intros Hlen Hcap Hnf Hn. destruct n as [|n]; [lia|]. cbn [alloc_chain].
  destruct (Z.le_gt_cases cap nf) as [Hfull|Hroom].
  { rewrite alloc_cluster_full by lia. simpl. eexists _, _, _. split; [done|]. split_and!; [done|done|lia|lia|].
    rewrite (proj2 (Z.leb_gt (nf + Z.of_nat (S n)) cap)) by lia. done. }
  rewrite alloc_cluster_ok by lia. rewrite (proj2 (Z.eqb_neq nf 0)) by lia. cbn [Z.eqb].
  set (f1 := <[Z.to_nat nf := FAT_EOC]> f).
  assert (length f1 = length f) as Hl1 by (unfold f1; by rewrite length_insert).
  assert (f1 !! Z.to_nat nf = Some FAT_EOC) as Hnew by (apply list_lookup_insert_eq; lia).
  assert (∀ i, (i < Z.to_nat nf)%nat → f1 !! i = f !! i) as Hg1
    by (intros i Hi; unfold f1; by rewrite list_lookup_insert_ne by lia).
  destruct n as [|n].
  - cbn [alloc_chain]. eexists _, _, _. split; [done|]. split_and!; [done|done|lia|lia|].
    rewrite (proj2 (Z.leb_le (nf + Z.of_nat 1) cap)) by lia. split_and!; [done|lia|].
    intros i Hi. replace i with 0 by lia. rewrite Z.add_0_r. exact Hnew.
  - destruct (alloc_chain_extend cap (S n) nf nf f1 (nf + 1)) as (r & f' & nf' & E & [Hl2 Hg2] & Hb & Hc); [lia..|].
    exists r, f', nf'. split; [exact E|]. split; [congruence|].
    split; [intros i Hi; rewrite Hg2 by lia; by apply Hg1|]. split; [lia|].
    replace (nf + 1 + Z.of_nat (S n)) with (nf + Z.of_nat (S (S n))) in Hc by lia.
    destruct (nf + Z.of_nat (S (S n)) <=? cap); [|done]. destruct Hc as (-> & -> & Hpv & Hlk).
    split_and!; [done|lia|].
    replace (Z.of_nat (S (S n))) with (Z.of_nat (S n) + 1) by lia. apply linked_cons; [lia|done|exact Hlk].
Qed.

Lemma linked_kept f f' c n nf :
  linked f c n → 0 <= c → c + n <= nf → (∀ i, (i < Z.to_nat nf)%nat → f' !! i = f !! i) → linked f' c n.
Proof. intros Hl Hc Hn Hf i Hi. rewrite Hf by lia. by apply Hl. Qed.

(** ** The directory tree at close *)

Section fnode_ind.
Context (P : fnode → Prop) (HP : ∀ i kids, Forall P kids → P (Node i kids)).
Fixpoint fnode_ind' (n : fnode) : P n :=
  match n with
  | Node i kids =>
      HP i kids ((fix go (l : list fnode) : Forall P l :=
        match l with [] => @List.Forall_nil fnode P | c :: l' => @List.Forall_cons fnode P c l' (fnode_ind' c) (go l') end) kids)
  end.
End fnode_ind.

(** Everything about a writer the directory writes depend on. *)
Definition same_volume (w w' : fat32_writer) : Prop :=
  part_off w' = part_off w ∧ part_sectors w' = part_sectors w ∧ fat_size w' = fat_size w ∧
  total_clusters w' = total_clusters w ∧ fat_cap w' = fat_cap w ∧ label w' = label w ∧ serial w' = serial w.

Lemma same_volume_refl w : same_volume w w.
Proof. by split_and!. Qed.

Lemma geom_same w w' : same_volume w w' → length (fat w') = length (fat w) → geom w → geom w'.
Proof. unfold geom. intros (-> & -> & -> & -> & -> & _) ->. done. Qed.

Lemma length_filled n used : length (filled n used) = n.
Proof. unfold filled. rewrite length_take, length_app, length_replicate. lia. Qed.

Lemma dir_clusters_bounds b d : 1 <= dir_clusters b d < 2097152.
Proof.
  unfold dir_clusters, CLUSTER_SIZE, SECTSZ, SPC. cbn zeta.
  pose proof (u32_range (u32 (dir_entry_count b d * 32) + 512 * 4 - 1)) as Hr. unfold is_u32 in Hr.
  set (x := u32 _) in *. assert (0 <= x / (512 * 4) <= 2097151) as Hb by dlia.
  destruct (Z.eqb_spec (x / (512 * 4)) 0); lia.
Qed.

Definition kid_writes (w : fat32_writer) (p : Z) (l : list fnode) : list (Z * list Z) :=
  concat (map (λ c, if is_dir (info c) then write_dir w false p c else []) l).

(** The clusters [nf .. nf') are exactly what the directory writes fill. *)
Definition fills (w : fat32_writer) (nf nf' : Z) (ws : list (Z * list Z)) : Prop :=
  inside (cluster_at w nf) (cluster_at w nf') ws ∧ writes_len ws = (nf' - nf) * 2048 ∧
  Forall (λ x, snd x ≠ []) ws.

Lemma cluster_at_add w c n : cluster_at w (c + n) = cluster_at w c + n * 2048.
Proof. unfold cluster_at. lia. Qed.

Lemma fills_app w a b c ws1 ws2 :
  a <= b <= c → fills w a b ws1 → fills w b c ws2 → fills w a c (ws1 ++ ws2).
Proof.
  intros Hab (I1 & L1 & N1) (I2 & L2 & N2).
  split; [|split; [rewrite writes_len_app; lia|by apply Forall_app]].
  apply inside_app; (eapply inside_weaken; [..|eassumption]); unfold cluster_at; lia.
Qed.

Lemma fills_nil w a : fills w a a [].
Proof. split; [constructor|split; [simpl; lia|constructor]]. Qed.

Lemma fills_empty w a ws : fills w a a ws → ws = [].
Proof.
  intros (_ & L & N). destruct ws as [|[off bs] ws]; [done|]. inversion N as [|? ? Hne _]; subst.
  pose proof (writes_len_nonneg ws). unfold writes_len in *. simpl in *. destruct bs; [done|]. simpl in L. lia.
Qed.

(** A full volume takes no directory clusters at all. *)
Lemma fills_full w a b ws cap :
  a <= b <= Z.max cap a → fills w a b ws → inside (cluster_at w a) (cluster_at w (Z.max cap 2)) ws.
Proof.
  intros Hb Hf. destruct (Z.le_gt_cases b cap).
  - refine (inside_weaken _ _ _ _ _ _ _ (proj1 Hf)); unfold cluster_at; lia.
  - replace b with a in Hf by lia. apply fills_empty in Hf as ->. constructor.
Qed.

Section assign.
Context (w : fat32_writer) (Hg : geom w).
Let cap := fat_cap w.

Lemma cap_small : 0 < cap < 1073741826.
Proof. destruct Hg as (G1 & G2 & G3 & G4 & G5 & G6 & G7 & G8 & G9). unfold cap. lia. Qed.

(** Allocation below a directory that is not the root. *)
Definition assign_ok (d : fnode) : Prop := ∀ f nf ok d' f' nf',
  Z.of_nat (length f) = cap → 2 < nf < 4294967294 →
  assign_dir_clusters cap false d (f, nf) = (ok, d', (f', nf')) →
  is_dir (info d') = is_dir (info d) ∧ length f' = length f ∧
  (∀ i, (i < Z.to_nat nf)%nat → f' !! i = f !! i) ∧
  (ok = true → nf <= nf' <= cap ∧ ∀ p, fills w nf nf' (write_dir w false p d')).

Lemma assign_children_ok l : Forall assign_ok l → ∀ f nf ok l' f' nf',
  Z.of_nat (length f) = cap → 2 < nf < 4294967294 →
  assign_children (assign_dir_clusters cap false) l (f, nf) = (ok, l', (f', nf')) →
  length f' = length f ∧ (∀ i, (i < Z.to_nat nf)%nat → f' !! i = f !! i) ∧
  (ok = true → nf <= nf' <= Z.max cap nf ∧ ∀ p, fills w nf nf' (kid_writes w p l')).
Proof.
  pose proof cap_small.
  induction 1 as [|c l Hc Hl IH]; intros f nf ok l' f' nf' Hlen Hnf; simpl.
  { intros [= <- <- <- <-]. split_and!; [done..|]. intros _. split; [lia|]. intros. apply fills_nil. }
  destruct (is_dir (info c)) eqn:Hd.
  - destruct (assign_dir_clusters cap false c (f, nf)) as [[ok1 c'] [f1 nf1]] eqn:E1.
    destruct (Hc _ _ _ _ _ _ Hlen Hnf E1) as (D1 & L1 & F1 & O1). destruct ok1.
    + destruct (O1 eq_refl) as [B1 W1].
      destruct (assign_children _ l (f1, nf1)) as [[ok2 l2] [f2 nf2]] eqn:E2. intros [= <- <- <- <-].
      destruct (IH f1 nf1 ok2 l2 f2 nf2) as (L2 & F2 & O2); [lia|lia|done|].
      split; [congruence|]. split; [intros i Hi; rewrite F2 by lia; by apply F1|].
      intros Hok. destruct (O2 Hok) as [B2 W2]. split; [lia|]. intros p. unfold kid_writes. simpl.
      rewrite D1, Hd. eapply fills_app; [|apply W1|apply W2]. lia.
    + intros [= <- <- <- <-]. by split_and!.
  - destruct (assign_children _ l (f, nf)) as [[ok2 l2] [f2 nf2]] eqn:E2. intros [= <- <- <- <-].
    destruct (IH f nf ok2 l2 f2 nf2) as (L2 & F2 & O2); [done..|].
    split; [done|]. split; [done|]. intros Hok. destruct (O2 Hok) as [B2 W2]. split; [done|].
    intros p. unfold kid_writes. simpl. rewrite Hd. apply W2.
Qed.

(** One directory's own clusters. *)
Lemma dir_write_fills p i kids nf n :
  2 <= nf → nf + n <= cap → 1 <= n < 2097152 →
  fills w nf (nf + n)
    [(cluster_byte w nf, dir_bytes w false p (Node (set_dir i nf n) kids))].
Proof.
  intros Hnf Hcap Hn. pose proof cap_small. rewrite cluster_byte_eq by (assumption || (unfold cap in *; lia)).
  assert (Z.of_nat (length (dir_bytes w false p (Node (set_dir i nf n) kids))) = n * 2048) as Hl.
  { unfold dir_bytes. rewrite length_filled. simpl.
    unfold CLUSTER_SIZE, SECTSZ, SPC. rewrite u32_small; lia. }
  split.
  - constructor; [|constructor]. cbn [fst snd]. rewrite Hl, cluster_at_add. lia.
  - split; [unfold writes_len; cbn [foldr snd]; rewrite Hl; lia|].
    constructor; [|constructor]. cbn [snd]. intros E. rewrite E in Hl. simpl in Hl. lia.
Qed.

Lemma assign_dir_ok d : assign_ok d.
Proof.
  induction d as [i kids IH] using fnode_ind'. intros f nf ok d' f' nf' Hlen Hnf.
  pose proof cap_small. cbn [assign_dir_clusters].
  pose proof (dir_clusters_bounds false (Node i kids)) as Hn.
  set (nclu := dir_clusters false (Node i kids)) in *.
  destruct (alloc_chain_new cap (Z.to_nat nclu) f nf) as (r & f1 & nf1 & -> & L1 & F1 & B1 & C1); [lia..|].
  destruct (Z.leb_spec (nf + Z.of_nat (Z.to_nat nclu)) cap).
  - destruct C1 as (-> & -> & _). rewrite Z2Nat.id in * by lia.
    destruct (assign_children _ kids (f1, nf + nclu)) as [[ok2 l2] [f2 nf2]] eqn:E2. intros [= <- <- <- <-].
    destruct (assign_children_ok kids IH f1 (nf + nclu) ok2 l2 f2 nf2) as (L2 & F2 & O2); [lia|lia|done|].
    split; [done|]. split; [congruence|]. split; [intros j Hj; rewrite F2 by lia; by apply F1|].
    intros Hok. destruct (O2 Hok) as [B2 W2]. split; [lia|]. intros p. cbn [write_dir].
    eapply (fills_app _ _ (nf + nclu) _ [_]); [lia|apply dir_write_fills; lia|apply W2].
  - subst r. intros [= <- <- <- <-]. by split_and!.
Qed.
End assign.

(** ** What [fat32_close] writes *)

Lemma length_le_words l : length (concat (map (le_bytes 4) l)) = (4 * length l)%nat.
Proof. induction l as [|x l IH]; [done|]. cbn [map concat]. rewrite length_app, length_le_bytes, IH. simpl. lia. Qed.

Lemma sub_le_words l i x :
  l !! i = Some x → sub (concat (map (le_bytes 4) l)) (4 * i) 4 = le_bytes 4 x.
Proof.
  revert i. induction l as [|y l IH]; intros i Hi; [done|]. cbn [map concat].
  destruct i as [|i]; simpl in Hi.
  - injection Hi as ->. unfold sub. rewrite drop_0. apply take_app_length'. by rewrite length_le_bytes.
  - rewrite <- (IH i Hi). unfold sub. rewrite drop_app_ge by (rewrite length_le_bytes; lia).
    rewrite length_le_bytes. do 2 f_equal. lia.
Qed.

Lemma sub_filled n used o k :
  (o + k <= length used)%nat → (length used <= n)%nat → sub (filled n used) o k = sub used o k.
Proof.
  intros H1 H2. unfold sub, filled. rewrite skipn_firstn_comm, take_take.
  rewrite drop_app_le, take_app_le by (rewrite ?length_drop; lia). f_equal. lia.
Qed.

(** Entry [i] of the first FAT on the disk. *)
Definition fat_entry (m : mem) (w : fat32_writer) (i : Z) : Z :=
  le_val (mread m (part_off w + RESERVED * SECTSZ + 4 * i) 4).

Lemma fat_bytes_length w : geom w → Z.of_nat (length (fat_bytes w)) = fat_size w * 512.
Proof.
  intros (G1 & G2 & G3 & G4 & _). unfold fat_bytes. rewrite length_filled. unfold SECTSZ.
  rewrite u32_small; lia.
Qed.

Lemma fat_bytes_entry w i x :
  geom w → 0 <= i < next_free w → fat w !! Z.to_nat i = Some x →
  sub (fat_bytes w) (4 * Z.to_nat i) 4 = le_bytes 4 x.
Proof.
  intros (G1 & G2 & G3 & G4 & G5 & G6 & G7 & G8 & G9) Hi Hx. unfold fat_bytes.
  pose proof (lookup_lt_Some _ _ _ Hx) as Hlt.
  set (k := Z.to_nat (Z.min (next_free w) (fat_cap w))).
  assert (length (concat (map (le_bytes 4) (take k (fat w)))) = (4 * k)%nat) as Hl
    by (rewrite length_le_words, length_take; lia).
  rewrite sub_filled.
  - apply sub_le_words. rewrite lookup_take_lt by lia. done.
  - rewrite Hl. lia.
  - rewrite Hl. unfold SECTSZ. rewrite u32_small; lia.
Qed.

Lemma fat_writes_eq w :
  geom w → fat_writes w =
    [(part_off w + 32 * 512, fat_bytes w); (part_off w + (32 + fat_size w) * 512, fat_bytes w)].
Proof.
  intros (G1 & G2 & G3 & G4 & G5 & G6 & G7 & _). unfold fat_writes, NUM_FATS, RESERVED, SECTSZ, OFF_MAX in *.
  cbn [seqZ map]. change (seqZ 0 2) with [0; 1]. cbn [map].
  rewrite !(u32_small (_ * fat_size w)), !(u32_small (32 + _)), !(u64_small (_ * 512)), !u64_small by lia.
  repeat f_equal; lia.
Qed.

Lemma length_boot_sector w : length (boot_sector w) = 512%nat.
Proof. unfold boot_sector. rewrite !length_splice. apply length_replicate. Qed.
Lemma length_fsinfo_sector w : length (fsinfo_sector w) = 512%nat.
Proof. unfold fsinfo_sector. rewrite !length_splice. apply length_replicate. Qed.

Lemma boot_writes_inside w :
  geom w → inside (part_off w) (part_off w + 8 * 512) (boot_writes w) ∧ writes_len (boot_writes w) = 2048.
Proof.
  intros (G1 & G2 & G3 & G4 & G5 & G6 & G7 & _). unfold boot_writes, writes_len, OFF_MAX in *.
  rewrite !u64_small by lia. cbn [foldr snd]. rewrite !length_boot_sector, !length_fsinfo_sector.
  split; [|lia]. repeat constructor; cbn [fst snd];
    rewrite ?length_boot_sector, ?length_fsinfo_sector; lia.
Qed.

Definition volume (w : fat32_writer) (ws : list (Z * list Z)) : Prop :=
  inside (part_off w) (part_off w + part_sectors w * 512) ws.

(** A successful close: the root's cluster, the other directories in the
    clusters allocated now, the FATs, the boot sectors. *)
Lemma fat32_close_spec w w' ws :
  geom w → 2 < next_free w < 4294967294 → first_cluster (info (root w)) = 2 →
  dir_clusters true (root w) = 1 → fat32_close w = (0, w', ws) →
  same_volume w w' ∧ geom w' ∧ next_free w <= next_free w' <= Z.max (fat_cap w) (next_free w) ∧
  (∀ i, (i < Z.to_nat (next_free w))%nat → fat w' !! i = fat w !! i) ∧
  ∃ bs kids, ws = ((cluster_at w' 2, bs) :: kids) ++ fat_writes w' ++ boot_writes w' ∧
    Z.of_nat (length bs) = 2048 ∧ fills w' (next_free w) (next_free w') kids.
Proof.
  intros Hg Hnf Hr Hone Hc. unfold fat32_close in Hc. destruct (root w) as [i kids] eqn:Er.
  cbn [assign_dir_clusters info] in *. rewrite Hone in Hc. unfold alloc_of in Hc.
  change (Z.to_nat (1 - 1)) with 0%nat in Hc. cbn [alloc_chain] in Hc. destruct (assign_children _ kids (fat w, next_free w)) as [[ok kids'] [f' nf']] eqn:Ea.
  destruct ok; cbn [negb] in Hc; [|discriminate].
  set (wF := set_root (set_alloc w (f', nf')) (Node (set_dir i (first_cluster i) 1) kids')) in *.
  injection Hc as <- <-.
  pose proof Hg as (G1 & G2 & G3 & G4 & G5 & G6 & G7 & G8 & G9).
  destruct (assign_children_ok w Hg kids (proj2 (List.Forall_forall _ _) (λ c _, assign_dir_ok w Hg c)) _ _ _ _ _ _ G9 Hnf Ea)
    as (L & F & _).
  assert (geom wF) as HgF by (by apply (geom_same w)).
  destruct (assign_children_ok wF HgF kids (proj2 (List.Forall_forall _ _) (λ c _, assign_dir_ok wF HgF c)) _ _ _ _ _ _ G9 Hnf Ea)
    as (_ & _ & O). destruct (O eq_refl) as [B W].
  split; [done|]. split; [exact HgF|]. split; [exact B|]. split; [exact F|].
  eexists _, _. split; [|split; [|apply W]].
  - cbn [write_dir]. f_equal. f_equal. f_equal. rewrite <- (cluster_byte_eq wF 2 HgF) by (cbn; lia).
    cbn. by rewrite Hr.
  - unfold dir_bytes. rewrite length_filled. done.
Qed.

(** ** Adding files *)

Definition nclu (data : list Z) : Z := file_clusters (Z.of_nat (length data)).

Lemma nclu_bounds data :
  Z.of_nat (length data) < 4294967296 → data ≠ [] →
  0 < nclu data < 2097153 ∧ (nclu data - 1) * 2048 < Z.of_nat (length data) <= nclu data * 2048.
Proof.
  intros Hl Hne. unfold nclu, file_clusters, CLUSTER_SIZE, SECTSZ, SPC.
  assert (0 < Z.of_nat (length data)) by (destruct data; [done|simpl; lia]).
  rewrite u64_small, u32_small by dlia. dlia.
Qed.

Lemma pad_writes_spec fuel base pad :
  0 <= base → 0 <= pad → base + pad <= OFF_MAX →
  inside base (base + pad) (pad_writes fuel base pad) ∧ writes_len (pad_writes fuel base pad) <= pad.
Proof.
  revert base pad. induction fuel as [|fuel IH]; intros base pad Hb Hp Hm; simpl;
    [split; [constructor|lia]|].
  destruct (Z.ltb_spec 0 pad); [|split; [constructor|simpl; lia]].
  set (k := if pad <? 512 then pad else 512).
  assert (0 < k <= pad) as Hk by (unfold k; destruct (Z.ltb_spec pad 512); lia).
  rewrite u64_small by (unfold OFF_MAX in *; lia).
  destruct (IH (base + k) (pad - k)) as [H1 H2]; [lia..|].
  split.
  - constructor; [cbn [fst snd]; rewrite length_replicate; lia|].
    eapply inside_weaken; [..|exact H1]; lia.
  - unfold writes_len in *. cbn [foldr snd]. rewrite length_replicate. lia.
Qed.

(** The writes of one file: the data, then zeros, inside its clusters. *)
Lemma file_writes_spec w c data :
  geom w → 2 <= c → c + nclu data <= fat_cap w → Z.of_nat (length data) < 4294967296 → data ≠ [] →
  ∃ pads, file_writes w c data = (cluster_at w c, data) :: pads ∧
    inside (cluster_at w c + Z.of_nat (length data)) (cluster_at w (c + nclu data)) pads ∧
    writes_len (file_writes w c data) <= nclu data * 2048.
Proof.
  intros Hg Hc Hcap Hl Hne. destruct (nclu_bounds data Hl Hne) as [Hn Hb].
  pose proof Hg as (G1 & G2 & G3 & G4 & G5 & G6 & G7 & G8 & G9).
  unfold file_writes. fold (nclu data). rewrite (cluster_byte_eq w c Hg) by lia.
  rewrite cluster_at_add. change CLUSTER_SIZE with 2048. rewrite (u64_small (nclu data * 2048)) by lia.
  assert (0 <= cluster_at w c ∧ cluster_at w c + nclu data * 2048 <= OFF_MAX) as Ha
    by (unfold cluster_at; lia).
  eexists. split; [reflexivity|]. unfold writes_len. cbn [foldr snd]. fold (writes_len).
  destruct (Z.ltb_spec (Z.of_nat (length data)) (nclu data * 2048)).
  - rewrite u64_small by (unfold OFF_MAX in *; lia).
    destruct (pad_writes_spec 4 (cluster_at w c + Z.of_nat (length data)) (nclu data * 2048 - Z.of_nat (length data)))
      as [P1 P2]; [lia..|].
    split; [eapply inside_weaken; [..|exact P1]; lia|]. unfold writes_len in P2. lia.
  - split; [constructor|]. simpl. lia.
Qed.

Lemma node_add_info d c : info (node_add d c) = info d.
Proof. done. Qed.

Lemma update_at_info pos f n : (∀ d, info (f d) = info d) → info (update_at pos f n) = info n.
Proof. intros Hf. destruct pos; [apply Hf|done]. Qed.

Lemma navigate_info stray comps pos tree : info (fst (navigate stray comps pos tree)) = info tree.
Proof.
  revert pos tree. induction comps as [|c [|c2 rest] IH]; intros pos tree; [done..|].
  change (navigate stray (c :: c2 :: rest) pos tree) with
    (match node_at tree pos with
     | None => (tree, None)
     | Some cur =>
         match find_child cur c with
         | Some i =>
             match child cur !! i with
             | Some nx => if is_dir (info nx) then navigate stray (c2 :: rest) (pos ++ [i]) tree else (tree, None)
             | None => (tree, None)
             end
         | None => navigate stray (c2 :: rest) (pos ++ [length (child cur)])
             (update_at pos (λ d, node_add d (make_node stray d c true)) tree)
         end
     end).
  destruct (node_at tree pos) as [cur|]; [|done].
  destruct (find_child cur c) as [i|].
  - destruct (child cur !! i) as [nx|]; [|done]. destruct (is_dir (info nx)); [apply IH|done].
  - rewrite IH. by apply update_at_info.
Qed.

(** What a step may change: the tree below the root, the FAT from [next_free] on. *)
Definition grows (w w' : fat32_writer) : Prop :=
  same_volume w w' ∧ info (root w') = info (root w) ∧ length (fat w') = length (fat w) ∧
  (∀ i, (i < Z.to_nat (next_free w))%nat → fat w' !! i = fat w !! i) ∧
  next_free w <= next_free w' <= Z.max (fat_cap w) (next_free w) + 1.

Lemma mkdir_grows stray w path : grows w (snd (fat32_mkdir stray w path)).
Proof.
  unfold fat32_mkdir. pose proof (navigate_info stray (components [] path) [] (root w)) as Hi.
  destruct (navigate stray (components [] path) [] (root w)) as [tree [[pos last]|]]; simpl in Hi;
    [|split_and!; try done; simpl; lia].
  destruct (node_at tree pos); [|split_and!; try done; simpl; lia].
  destruct (find_child f last); split_and!; try done; simpl; try lia.
  rewrite update_at_info; done.
Qed.

Lemma addfile_spec stray w path data rc w' ws :
  geom w → 2 < next_free w < 4294967294 → Z.of_nat (length data) < 4294967296 →
  fat32_addfile stray w path data = (rc, w', ws) →
  grows w w' ∧ (ws = [] ∨ rc = 0 ∧ data ≠ [] ∧ ws = file_writes w' (next_free w) data ∧
    next_free w' = next_free w + nclu data ∧ next_free w' <= fat_cap w ∧
    linked (fat w') (next_free w) (nclu data)) ∧ (rc = 0 → data ≠ [] → ws ≠ []).
Proof.
  intros Hg Hnf Hl. unfold fat32_addfile.
  pose proof (navigate_info stray (components [] path) [] (root w)) as Hi.
  destruct (navigate stray (components [] path) [] (root w)) as [tree [[pos last]|]]; simpl in Hi;
    [|intros [= <- <- <-]; split; [split_and!; try done; simpl; lia|by split; [left|]]].
  destruct (node_at tree pos) as [parent|];
    [|intros [= <- <- <-]; split; [split_and!; try done; simpl; lia|by split; [left|]]].
  cbn zeta. destruct (Z.eqb_spec (Z.of_nat (length data)) 0) as [E0|E0].
  { intros [= <- <- <-]. assert (data = []) as Hd by (apply nil_length_inv; lia).
    split; [|split; [by left|by intros _ []]].
    split_and!; try done; simpl; try lia; by rewrite update_at_info. }
  assert (data ≠ []) as Hne by (intros ->; done). destruct (nclu_bounds data Hl Hne) as [Hn _].
  pose proof Hg as (G1 & G2 & G3 & G4 & G5 & G6 & G7 & G8 & G9). fold (nclu data).
  destruct (alloc_chain_new (fat_cap w) (Z.to_nat (nclu data)) (fat w) (next_free w))
    as (r & f1 & nf1 & E & L1 & F1 & B1 & C1); [done|lia|lia|lia|].
  unfold alloc_of, set_root. cbn [fat_cap fat next_free]. rewrite E.
  rewrite Z2Nat.id in C1 by lia.
  destruct (Z.leb_spec (next_free w + nclu data) (fat_cap w)).
  - destruct C1 as (-> & -> & Hlk). intros [= <- <- <-]. split.
    { split_and!; try done; simpl; try lia; by rewrite update_at_info. }
    split; [right; split_and!; done|]. intros _ _. unfold file_writes. done.
  - subst r. intros [= <- <- <-]. split; [split_and!; try done; simpl; lia|]. by split; [left|].
Qed.

(** ** A whole session *)

Inductive fop := OpMkdir (path : list Z) | OpAdd (path data : list Z).

Definition op_ok (o : fop) : Prop :=
  match o with OpMkdir _ => True | OpAdd _ data => Z.of_nat (length data) < 4294967296 end.

(** Following the FAT on the disk from cluster [c], at most [fuel] clusters. *)
Fixpoint read_file (fuel : nat) (m : mem) (w : fat32_writer) (c : Z) : list Z :=
  match fuel with
  | O => []
  | S fuel' =>
      mread m (cluster_at w c) 2048 ++
      (let nx := fat_entry m w c in if 0x0FFFFFF8 <=? nx then [] else read_file fuel' m w nx)
  end.

Lemma read_file_linked n m w c :
  2 <= c → c + Z.of_nat n < 0x0FFFFFF8 →
  (∀ i, 0 <= i < Z.of_nat n → fat_entry m w (c + i) = if i =? Z.of_nat n - 1 then FAT_EOC else c + i + 1) →
  read_file n m w c = mread m (cluster_at w c) (n * 2048).
Proof.
  revert c. induction n as [|n IH]; intros c Hc Hb Hl; [done|]. cbn [read_file].
  pose proof (Hl 0 ltac:(lia)) as H0. rewrite Z.add_0_r in H0. rewrite H0.
  replace (S n * 2048)%nat with (2048 + n * 2048)%nat by lia. rewrite mread_app. f_equal.
  destruct (Z.eqb_spec 0 (Z.of_nat (S n) - 1)) as [E|E].
  - replace n with 0%nat by lia. done.
  - rewrite (proj2 (Z.leb_gt _ _)) by lia. rewrite IH; [|lia|lia|].
    + f_equal. unfold cluster_at. lia.
    + intros i Hi. specialize (Hl (i + 1) ltac:(lia)).
      replace (c + 1 + i) with (c + (i + 1)) by lia. rewrite Hl.
      replace (i + 1 =? Z.of_nat (S n) - 1) with (i =? Z.of_nat n - 1).
      * destruct (i =? Z.of_nat n - 1); lia.
      * destruct (Z.eqb_spec i (Z.of_nat n - 1)), (Z.eqb_spec (i + 1) (Z.of_nat (S n) - 1)); lia.
Qed.

(** A file that was added: its chain, and its bytes on the image. *)
Definition stored (w : fat32_writer) (m : mem) (e : Z * list Z) : Prop :=
  let '(c, data) := e in
  3 <= c ∧ c + nclu data <= next_free w ∧ c + nclu data <= fat_cap w ∧ data ≠ [] ∧
  Z.of_nat (length data) < 4294967296 ∧ linked (fat w) c (nclu data) ∧
  mread m (cluster_at w c) (length data) = data.

Lemma cluster_at_same w w' c : same_volume w w' → cluster_at w' c = cluster_at w c.
Proof. intros (E1 & _ & E3 & _). unfold cluster_at. by rewrite E1, E3. Qed.

(** It stays stored while the writer grows and writes go elsewhere. *)
Lemma stored_kept w w' m ws e :
  grows w w' → inside (cluster_at w (next_free w)) OFF_MAX ws →
  stored w m e → stored w' (apply_writes m ws) e.
Proof.
  destruct e as [c data]. intros (Hs & _ & _ & Hf & Hn) Hw (S1 & S2 & S3 & S4 & S5 & S6 & S7).
  destruct (nclu_bounds data S5 S4) as [Hn1 Hn2]. pose proof Hs as (_ & _ & _ & _ & Hcap & _).
  split_and!; [done|lia|lia|done|done|eapply linked_kept; [exact S6|lia|exact S2|exact Hf]|].
  rewrite (cluster_at_same w w' c Hs), apply_writes_avoids; [exact S7|].
  eapply inside_avoids; [exact Hw|]. right. unfold cluster_at. lia.
Qed.

Section session.
Context {D : Type} `{Image D}.

Fixpoint run_ops (stray : Z) (w : fat32_writer) (d : D) (ops : list fop) :
    option (fat32_writer * D * list (Z * list Z)) :=
  match ops with
  | [] => Some (w, d, [])
  | OpMkdir p :: ops' => run_ops stray (snd (fat32_mkdir stray w p)) d ops'
  | OpAdd p data :: ops' =>
      '(rc, w1, d1) ← addfile_io stray w d p data;
      '(w2, d2, log) ← run_ops stray w1 d1 ops';
      Some (w2, d2, if (rc =? 0) && negb (Z.of_nat (length data) =? 0) then (next_free w, data) :: log else log)
  end.

(** The part of the image the session may use: from cluster 2 on. *)
Definition room (w : fat32_writer) : Z := 2048 * Z.max 0 (fat_cap w - next_free w).

Lemma addfile_io_spec stray w (d : D) path data k :
  geom w → 2 < next_free w < 4294967294 → Z.of_nat (length data) < 4294967296 →
  img_ok d → 0 <= k → img_live (room w + k) d →
  ∃ rc w' d' ws, addfile_io stray w d path data = Some (rc, w', d') ∧ grows w w' ∧
    img_ok d' ∧ img_live (room w' + k) d' ∧ img_view d' ≡m apply_writes (img_view d) ws ∧
    inside (cluster_at w (next_free w)) (part_off w + part_sectors w * 512) ws ∧
    (rc = 0 → data ≠ [] → stored w' (apply_writes (img_view d) ws) (next_free w, data)).
Proof.
  intros Hg Hnf Hl Hok Hk Hlive. unfold addfile_io.
  destruct (fat32_addfile stray w path data) as [[rc w'] ws] eqn:E.
  destruct (addfile_spec stray w path data rc w' ws Hg Hnf Hl E) as (Hgr & Hws & Hrc).
  pose proof Hgr as (Hs & _ & HL & Hf & Hn). pose proof Hs as (E1 & E2 & E3 & E4 & E5 & _).
  pose proof Hg as (G1 & G2 & G3 & G4 & G5 & G6 & G7 & G8 & G9).
  destruct Hws as [->|(-> & Hne & -> & Hnf' & Hcap & Hlk)].
  - simpl. eexists _, _, _, []. split; [done|]. split; [done|]. split; [done|].
    split; [eapply img_live_le; [exact Hlive|unfold room; lia]|]. split; [done|]. split; [constructor|].
    intros Hr Hd. by destruct (Hrc Hr Hd).
  - destruct (nclu_bounds data Hl Hne) as [Hb1 Hb2].
    pose proof (geom_same _ _ Hs HL Hg) as Hg'.
    destruct (file_writes_spec w' (next_free w) data Hg') as (pads & Ef & Hin & Hlen); [lia|lia|done|done|].
    assert (inside (cluster_at w (next_free w)) (part_off w + part_sectors w * 512) (file_writes w' (next_free w) data)) as Hins.
    { rewrite Ef. constructor.
      - cbn [fst snd]. rewrite (cluster_at_same w w' _ Hs). unfold cluster_at. lia.
      - eapply inside_weaken; [..|exact Hin]; rewrite !(cluster_at_same w w' _ Hs); unfold cluster_at; lia. }
    destruct (puts_total (file_writes w' (next_free w) data) d (room w' + k)) as (d' & Ep & Hok' & _ & Hv & Hlive').
    + done.
    + eapply inside_fit; [| |exact Hins]; unfold cluster_at; lia.
    + unfold room. lia.
    + eapply img_live_le; [exact Hlive|]. unfold room. rewrite E5. lia.
    + rewrite Ep. simpl. eexists _, _, _, _. split; [done|]. split; [done|]. split; [done|].
      split; [exact Hlive'|]. split; [exact Hv|]. split; [exact Hins|]. intros _ _.
      split_and!; [lia|lia|lia|done|done|done|]. rewrite Ef.
      change ((cluster_at w' (next_free w), data) :: pads) with ([(cluster_at w' (next_free w), data)] ++ pads).
      rewrite apply_writes_app, apply_writes_avoids; [apply mread_mwrite_at; done|].
      eapply inside_avoids; [exact Hin|]. right. lia.
Qed.

Lemma run_ops_spec stray ops w (d : D) k :
  geom w → 2 < next_free w → next_free w + Z.of_nat (length ops) < 4294967294 →
  fat_cap w + Z.of_nat (length ops) < 4294967294 →
  first_cluster (info (root w)) = 2 → Forall op_ok ops → img_ok d → 0 <= k → img_live (room w + k) d →
  ∃ w' d' log, run_ops stray w d ops = Some (w', d', log) ∧ same_volume w w' ∧ geom w' ∧
    next_free w <= next_free w' < 4294967294 ∧ first_cluster (info (root w')) = 2 ∧
    img_ok d' ∧ img_live (room w' + k) d' ∧
    (∀ x, x < part_off w ∨ part_off w + part_sectors w * 512 <= x → img_view d' x = img_view d x) ∧
    (∀ e, stored w (img_view d) e → stored w' (img_view d') e) ∧
    Forall (stored w' (img_view d')) log.
Proof.
  revert w d. induction ops as [|o ops IH]; intros w d Hg Hnf Hb Hcb Hr Hop Hok Hk Hlive.
  { exists w, d, []. simpl in *. split_and!; done || lia || apply same_volume_refl. }
  inversion Hop as [|? ? Ho Hop']; subst. cbn [length] in Hb, Hcb.
  destruct o as [p|p data]; cbn [run_ops].
  - pose proof (mkdir_grows stray w p) as (Hs & Hi & HL & Hf & Hn).
    set (w1 := snd (fat32_mkdir stray w p)) in *. pose proof Hs as (E1 & E2 & E3 & E4 & E5 & _).
    destruct (IH w1 d) as (w' & d' & log & Er & Hs' & Hg' & Hnf' & Hr' & Hok' & Hlive' & Hout & Hst & Hlog);
      [by apply (geom_same w)|lia|lia|lia|congruence|done|done|done|eapply img_live_le; [exact Hlive|unfold room; lia]|].
    exists w', d', log. rewrite E1, E2 in Hout.
    split_and!; try done; try lia.
    + destruct Hs' as (?&?&?&?&?&?&?), Hs as (?&?&?&?&?&?&?). split_and!; congruence.
    + intros e He. apply Hst. eapply (stored_kept w w1 _ []) in He; [exact He|done|constructor].
  - destruct (addfile_io_spec stray w d p data k) as (rc & w1 & d1 & ws & Ea & (Hs & Hi & HL & Hf & Hn) & Hok1 & Hlive1 & Hv & Hin & Hnew);
      [done|lia|done|done|done|done|].
    pose proof Hs as (E1 & E2 & E3 & E4 & E5 & _). rewrite Ea. cbn [mbind option_bind].
    destruct (IH w1 d1) as (w' & d' & log & Er & Hs' & Hg' & Hnf' & Hr' & Hok' & Hlive' & Hout & Hst & Hlog);
      [by apply (geom_same w)|lia|lia|lia|congruence|done|done|done|done|].
    rewrite Er. cbn [mbind option_bind]. eexists w', d', _. split; [done|].
    pose proof Hg as (G1 & G2 & G3 & G4 & G5 & G6 & G7 & G8 & G9).
    assert (∀ e, stored w1 (apply_writes (img_view d) ws) e → stored w' (img_view d') e) as Hst'.
    { intros [c dat] He. apply Hst. unfold stored in *. by rewrite Hv. }
    split_and!; try done; try lia.
    + destruct Hs' as (?&?&?&?&?&?&?), Hs as (?&?&?&?&?&?&?). split_and!; congruence.
    + intros x Hx. rewrite Hout by (rewrite E1, E2; lia). rewrite (Hv x).
      eapply apply_writes_out; [exact Hin|]. unfold cluster_at. lia.
    + intros e He. apply Hst'. eapply (stored_kept w w1); [|refine (inside_weaken _ _ _ _ _ _ _ Hin); lia|exact He]. done.
    + destruct ((rc =? 0) && negb (Z.of_nat (length data) =? 0)) eqn:E; [|done]. constructor; [|done].
      apply andb_true_iff in E as [Erc Ed]. zbool. apply Hst', Hnew; [done|].
      intros ->. done.
Qed.
End session.

(** ** Closing *)

Lemma fat_entry_written w w' m pre i x :
  same_volume w w' → geom w' → 0 <= i < next_free w' → fat w' !! Z.to_nat i = Some x → 0 <= x < 4294967296 →
  fat_entry (apply_writes m (pre ++ fat_writes w' ++ boot_writes w')) w i = x.
Proof.
  intros Hs Hg Hi Hx Hr. pose proof Hs as (E1 & _ & E3 & _).
  pose proof Hg as (G1 & G2 & G3 & G4 & G5 & G6 & G7 & G8 & G9).
  pose proof (lookup_lt_Some _ _ _ Hx) as Hlt. pose proof (fat_bytes_length w' Hg) as Hfl.
  destruct (boot_writes_inside w' Hg) as [Hbi _].
  unfold fat_entry, RESERVED, SECTSZ. rewrite <- E1.
  rewrite app_assoc, apply_writes_app, apply_writes_avoids; [|eapply inside_avoids; [exact Hbi|lia]].
  rewrite apply_writes_app. rewrite fat_writes_eq by done.
  change (apply_writes ?m0 [?a; ?b]) with (mwrite (mwrite m0 (fst a) (snd a)) (fst b) (snd b)).
  cbn [fst snd]. rewrite mread_mwrite_disjoint by lia.
  replace (4 * i) with (Z.of_nat (4 * Z.to_nat i)) by lia.
  rewrite <- (sub_mread _ _ (length (fat_bytes w'))) by lia. rewrite mread_mwrite_same.
  rewrite (fat_bytes_entry w' i x) by done. by apply le_val_le_bytes_small.
Qed.

(** A stored file is read back from the FAT and the clusters. *)
Lemma stored_read w m m' c data :
  geom w → stored w m (c, data) →
  (∀ i x, 0 <= i < next_free w → fat w !! Z.to_nat i = Some x → 0 <= x < 4294967296 → fat_entry m' w i = x) →
  mread m' (cluster_at w c) (length data) = mread m (cluster_at w c) (length data) →
  take (length data) (read_file (Z.to_nat (nclu data)) m' w c) = data.
Proof.
  intros Hg (S1 & S2 & S3 & S4 & S5 & S6 & S7) Hf Hm.
  destruct (nclu_bounds data S5 S4) as [Hn Hb].
  pose proof Hg as (G1 & G2 & G3 & G4 & G5 & G6 & G7 & G8 & G9).
  rewrite read_file_linked; [|lia|lia|].
  - change (take (length data)) with (λ l : list Z, take (length data) (drop 0 l)). cbn beta.
    fold (sub (mread m' (cluster_at w c) (Z.to_nat (nclu data) * 2048)) 0 (length data)).
    rewrite sub_mread, Z.add_0_r by lia. by rewrite Hm.
  - rewrite Z2Nat.id by lia. intros i Hi. apply Hf; [lia|by apply S6|].
    destruct (i =? nclu data - 1); unfold FAT_EOC; lia.
Qed.

Section closing.
Context {D : Type} `{Image D}.

Lemma close_io_spec w (d : D) :
  geom w → 2 < next_free w < 4294967294 → first_cluster (info (root w)) = 2 →
  dir_clusters true (root w) = 1 → img_ok d → img_live (room w + (4096 + 1024 * fat_size w)) d →
  ∃ rc d', close_io w d = Some (rc, d') ∧
    (∀ x, x < part_off w ∨ part_off w + part_sectors w * 512 <= x → img_view d' x = img_view d x) ∧
    (rc = 0 → ∀ c data, stored w (img_view d) (c, data) →
       take (length data) (read_file (Z.to_nat (nclu data)) (img_view d') w c) = data).
Proof.
  intros Hg Hnf Hr Hone Hok Hlive. unfold close_io.
  destruct (fat32_close w) as [[rc w'] ws] eqn:E. destruct (Z.eq_dec rc 0) as [->|Hrc].
  2:{ unfold fat32_close in E. destruct (assign_dir_clusters _ _ _ _) as [[[] ?] ?]; simpl in E;
        injection E as <- <- <-; [done|]. simpl. eexists _, _. split; [done|]. split; [done|].
      intros [=]. }
  destruct (fat32_close_spec w w' ws Hg Hnf Hr Hone E) as (Hs & Hg' & Hb & Hf & bs & kids & -> & Hbs & Hki & Hkl & Hkn).
  pose proof (fills_full w' (next_free w) (next_free w') kids (fat_cap w) ltac:(lia) (conj Hki (conj Hkl Hkn))) as Hki'.
  pose proof Hs as (E1 & E2 & E3 & E4 & E5 & _).
  pose proof Hg as (G1 & G2 & G3 & G4 & G5 & G6 & G7 & G8 & G9).
  destruct (boot_writes_inside w' Hg') as [Hbi Hbl]. pose proof (fat_bytes_length w' Hg') as Hfl.
  set (ws := ((cluster_at w' 2, bs) :: kids) ++ fat_writes w' ++ boot_writes w') in *.
  assert (inside (part_off w) (part_off w + part_sectors w * 512) ws) as Hin.
  { unfold ws. rewrite fat_writes_eq by done. apply inside_app; [constructor|].
    - cbn [fst snd]. unfold cluster_at. lia.
    - refine (inside_weaken _ _ _ _ _ _ _ Hki'); unfold cluster_at; lia.
    - apply inside_app; [|refine (inside_weaken _ _ _ _ _ _ _ Hbi); lia].
      repeat constructor; cbn [fst snd]; lia. }
  assert (writes_len ws <= room w + (4096 + 1024 * fat_size w)) as Hlen.
  { unfold ws. rewrite !writes_len_app, fat_writes_eq, Hbl by done.
    unfold writes_len in *. cbn [foldr snd]. rewrite Hkl, Hbs, Hfl. unfold room. lia. }
  destruct (puts_total ws d 0) as (d1 & Ep & Hok1 & _ & Hv1 & Hl1);
    [done|eapply inside_fit; [| |exact Hin]; lia|lia|eapply img_live_le; [exact Hlive|lia]|].
  destruct (img_flush_total d1 0 Hok1 ltac:(lia) Hl1) as (d2 & Ef & _).
  rewrite Ep. cbn [mbind option_bind Z.eqb negb]. rewrite Ef. cbn [mbind option_bind].
  eexists _, _. split; [done|].
  assert (img_view d2 ≡m apply_writes (img_view d) ws) as Hv2.
  { apply img_flush_spec in Ef as (_ & _ & [[_ Hv]|]); [|done..]. by rewrite Hv, Hv1. }
  split; [intros x Hx; rewrite (Hv2 x); by eapply apply_writes_out|].
  intros _ c data Hst. eapply stored_read; [done|exact Hst| |].
  - intros i x Hi Hx Hr'. unfold fat_entry. rewrite Hv2. apply (fat_entry_written w w'); [done|done|lia| |done].
    rewrite Hf by lia. done.
  - rewrite Hv2. apply apply_writes_avoids. destruct Hst as (S1 & S2 & S3 & S4 & S5 & _).
    destruct (nclu_bounds data S5 S4) as [Hn Hnb]. unfold ws. rewrite fat_writes_eq by done.
    apply avoids_app; [constructor|apply avoids_app].
    + cbn [fst snd]. rewrite Hbs. unfold cluster_at. lia.
    + eapply inside_avoids; [exact Hki|]. right. unfold cluster_at. lia.
    + constructor; [|constructor; [|constructor]]; cbn [fst snd]; left; unfold cluster_at; lia.
    + eapply inside_avoids; [exact Hbi|]. left. unfold cluster_at. lia.
Qed.

(** Opening: the geometry, an empty root at cluster 2. *)
Lemma fat32_open_spec part_lba sectors lbl w f c :
  4096 <= sectors <= 1073741824 → 0 <= part_lba → (part_lba + sectors) * 512 <= OFF_MAX →
  geometry sectors = (f, c) → c + 2 <= 128 * f →
  32 + 2 * f + 4 * c <= sectors → 128 * (f - 1) < c + 2 →
  fat32_open part_lba sectors lbl = Some w →
  geom w ∧ next_free w = 3 ∧ first_cluster (info (root w)) = 2 ∧ part_off w = part_lba * 512 ∧
  part_sectors w = sectors ∧ fat_size w = f ∧ fat_cap w = c + 2.
Proof.
  intros Hs Hp Hm Hg Hc Hfit Hf Ho. unfold fat32_open in Ho. rewrite Hg in Ho. unfold OFF_MAX in *.
  destruct (Z.ltb_spec c 65525) as [|Hc2]; [discriminate|].
  rewrite (u32_small (c + 2)) in Ho by lia. rewrite alloc_cluster_ok in Ho by lia.
  rewrite (u64_small (part_lba * 512)) in Ho by lia. injection Ho as <-.
  unfold geom. cbn [part_off part_sectors fat_size fat_cap total_clusters fat next_free root info first_cluster fst snd].
  rewrite !length_insert, length_replicate. unfold OFF_MAX. split_and!; lia || done.
Qed.

End closing.

(** ** Concrete runs *)

Definition path (s : string) : list Z := lit s.
Arguments path s%_string.

Definition demo_fat : fat32_writer :=
  default (mkFat 0 0 0 0 [] 0 0 0 [] (Node (mkInfo [] [] 0 false true 0 0 0) []))
    (fat32_open 2048 270000 (path "ESP")).

Lemma default_open {A} (x : A) (o : option A) : bool_decide (is_Some o) = true → o = Some (default x o).
Proof. by destruct o. Qed.

Lemma demo_fat_open : fat32_open 2048 270000 (path "ESP") = Some demo_fat.
Proof. apply default_open. vm_compute. reflexivity. Qed.

Definition demo_ops : list fop :=
  [OpMkdir (path "/EFI/Microsoft/Boot/Fonts"); OpAdd (path "/EFI/Boot/bootaa64.efi") [1; 2; 3];
   OpAdd (path "\EFI\Microsoft\Boot\BCD") (replicate 3000 9)].

Lemma demo_run :
  match run_ops 0 demo_fat (λ _, 0) demo_ops with
  | Some (w, d, log) => dir_clusters true (root w) = 1 ∧ log = [(3, [1; 2; 3]); (4, replicate 3000 9)] ∧
                                option_map fst (close_io w d) = Some 0
  | None => False end.
Proof. vm_compute. auto. Qed.


(** A root directory of more than one cluster is written over the clusters that
    follow cluster 2, which belong to the files added first: here the one byte
    of the first file is lost, while every operation reports success. *)
Definition crowded_ops : list fop :=
  OpAdd (path "/A") [7] ::
  map (λ i, OpAdd (path "/F" ++ dec i) []) (seqZ 10 64).

Lemma fat32_root_overflow :
  match run_ops 0 demo_fat (λ _, 0) crowded_ops with
  | Some (w, d, log) =>
      log = [(3, [7])] ∧ img_view d (cluster_at w 3) = 7 ∧
      match close_io w d with
      | Some (rc, d2) => rc = 0 ∧ img_view d2 (cluster_at w 3) ≠ 7
      | None => False
      end
  | None => False
  end.
Proof. vm_compute. split; [reflexivity|]. split; [reflexivity|]. split; [reflexivity|discriminate]. Qed.

(** The results of the writes are not looked at: on a device that refuses every
    write, adding a file and closing the volume still report success. *)
Lemma fat32_errors_ignored :
  match addfile_io 0 demo_fat (fresh_image 200000000, repeat Failed 100) (path "/A") [7] with
  | Some (rc, w, d) => rc = 0 ∧ option_map fst (close_io w d) = Some 0
  | None => False
  end.
Proof. vm_compute. split; reflexivity. Qed.
