(* ===== verification/Outcome.v ===== *)
(** * Results of code that parses untrusted bytes

    A C function on a buffer returns a value, or reports an error code; a run of
    the model can also end in [Fault], an access outside the buffer (undefined
    behaviour in C), or in [Spin], when a loop's fuel is used up.  [safe] is the
    judgement that neither happens. *)

From S2P Require Import Prelude Bytes.

Inductive outcome (A : Type) :=
| Ok (a : A)
| Err (rc : Z)
| Fault
| Spin.
Arguments Ok {A} a.
Arguments Err {A} rc.
Arguments Fault {A}.
Arguments Spin {A}.

#[export] Instance outcome_ret : MRet outcome := λ A a, Ok a.
#[export] Instance outcome_bind : MBind outcome := λ A B f o,
  match o with Ok a => f a | Err rc => Err rc | Fault => Fault | Spin => Spin end.

(** [if (b) return rc;] *)
Definition fail_if {A} (b : bool) (rc : Z) (k : outcome A) : outcome A := if b then Err rc else k.

(** A byte of a buffer, and [n] of them. *)
Definition at_ (l : list Z) (i : Z) : outcome Z :=
  if (0 <=? i) && (i <? Z.of_nat (length l)) then Ok (bget l i) else Fault.
Definition slice (l : list Z) (off n : Z) : outcome (list Z) :=
  if (0 <=? off) && (0 <=? n) && (off + n <=? Z.of_nat (length l))
  then Ok (sub l (Z.to_nat off) (Z.to_nat n)) else Fault.

(** ** The safety judgement *)

Definition safe {A} (P : A → Prop) (o : outcome A) : Prop :=
  match o with Ok a => P a | Err _ => True | Fault | Spin => False end.

Lemma safe_bind {A B} (P : A → Prop) (Q : B → Prop) o (f : A → outcome B) :
  safe P o → (∀ a, P a → safe Q (f a)) → safe Q (o ≫= f).
Proof. destruct o; simpl; auto. Qed.

Lemma safe_mono {A} (P Q : A → Prop) o : safe P o → (∀ a, P a → Q a) → safe Q o.
Proof. destruct o; simpl; auto. Qed.

Lemma safe_fail_if {A} (P : A → Prop) b rc k : (b = false → safe P k) → safe P (fail_if b rc k).
Proof. unfold fail_if. destruct b; [done|]. intros H. by apply H. Qed.

Lemma safe_ok {A} (P : A → Prop) a : P a → safe P (Ok a).
Proof. done. Qed.

Lemma safe_at l i : bytes l → 0 <= i < Z.of_nat (length l) → safe is_byte (at_ l i).
Proof.
  intros Hl Hi. unfold at_. rewrite (proj2 (Z.leb_le 0 i)), (proj2 (Z.ltb_lt i _)) by lia.
  simpl. by apply bget_byte.
Qed.

Lemma safe_slice l off n :
  bytes l → 0 <= off → 0 <= n → off + n <= Z.of_nat (length l) →
  safe (λ r, Z.of_nat (length r) = n ∧ bytes r) (slice l off n).
Proof.
  intros Hl Ho Hn Hb. unfold slice.
  rewrite (proj2 (Z.leb_le 0 off)), (proj2 (Z.leb_le 0 n)), (proj2 (Z.leb_le (off + n) _)) by lia. simpl.
  split; [rewrite length_sub; lia|]. unfold sub. by apply Forall_take, Forall_drop.
Qed.

(** The bind of two results, run. *)
Lemma bind_ok {A B} (o : outcome A) (f : A → outcome B) b :
  o ≫= f = Ok b → ∃ a, o = Ok a ∧ f a = Ok b.
Proof. destruct o; simpl; try done. eauto. Qed.

Lemma bind_ok_eq {A B} (a : A) (f : A → outcome B) : Ok a ≫= f = f a.
Proof. done. Qed.

(** A slice that is inside. *)
Lemma slice_ok l off n :
  0 <= off → 0 <= n → off + n <= Z.of_nat (length l) → slice l off n = Ok (sub l (Z.to_nat off) (Z.to_nat n)).
Proof.
  intros. unfold slice. by rewrite (proj2 (Z.leb_le 0 off)), (proj2 (Z.leb_le 0 n)), (proj2 (Z.leb_le (off + n) _)) by lia.
Qed.

Lemma fail_if_ok {A} b rc (k : outcome A) a : fail_if b rc k = Ok a → b = false ∧ k = Ok a.
Proof. unfold fail_if. by destruct b. Qed.

(** Step through the binds of a run that succeeded. *)
Ltac orun H :=
  repeat match type of H with
  | fail_if _ _ _ = Ok _ => let E := fresh "E" in apply fail_if_ok in H as [E H]
  | (_ ≫= _) = Ok _ =>
      let x := fresh "x" in let E := fresh "E" in apply bind_ok in H as (x & E & H)
  | Ok _ = Ok _ => injection H as H
  end.
