(* ===== verification/Huffman.v ===== *)
(** * Bit stream and canonical Huffman decoding
      ([src/tools/iso-patch-mac/engine/decompress_common.h])

    The input bit stream with its 32-bit look-ahead buffer, shown to deliver the
    bits of the input in order and zeros after its end; and the single-level
    decode table, shown to decode the canonical code of the given lengths. *)

From stdpp Require Import gmap.
From S2P Require Import Prelude Bytes Outcome.

(** ** The bit stream *)

Record bitstream := mkBs {
  bitbuf : Z;
  bitsleft : Z;
  next : list Z;     (* the bytes from [next] to [end] *)
}.

Definition bs_init (p : list Z) : bitstream := mkBs 0 0 p.

(** [next[0] | next[1] << 8]. *)
Definition unit_at (l : list Z) : option Z :=
  match l with b0 :: b1 :: _ => Some (Z.lor b0 (Z.shiftl b1 8)) | _ => None end.

(** One refill of sixteen bits; [None] when the input is exhausted. *)
Definition refill (bs : bitstream) : option bitstream :=
  u ← unit_at (next bs);
  Some (mkBs (u32 (Z.lor (bitbuf bs) (u32 (Z.shiftl u (16 - bitsleft bs))))) (bitsleft bs + 16) (drop 2 (next bs))).

Definition exhausted (bs : bitstream) : bitstream := mkBs (bitbuf bs) 32 (next bs).

Definition bs_ensure (bs : bitstream) (n : Z) : bitstream :=
  if n <=? bitsleft bs then bs else
  match refill bs with
  | Some bs1 =>
      if (n =? 17) && (bitsleft bs1 <? 17) then
        match refill bs1 with Some bs2 => bs2 | None => exhausted bs1 end
      else bs1
  | None => exhausted bs
  end.

Definition bs_peek (bs : bitstream) (n : Z) : Z :=
  if n =? 0 then 0 else Z.shiftr (bitbuf bs) (32 - n).

Definition bs_remove (bs : bitstream) (n : Z) : bitstream :=
  mkBs (u32 (Z.shiftl (bitbuf bs) n)) (bitsleft bs - n) (next bs).

Definition bs_read (bs : bitstream) (n : Z) : Z * bitstream :=
  let bs := bs_ensure bs n in (bs_peek bs n, bs_remove bs n).

Definition bs_align (bs : bitstream) : bitstream := mkBs 0 0 (next bs).

Definition bs_read_u32 (bs : bitstream) : Z * bitstream :=
  if Z.of_nat (length (next bs)) <? 4 then (0, bs)
  else (le_val (take 4 (next bs)), mkBs (bitbuf bs) (bitsleft bs) (drop 4 (next bs))).

Definition bs_bytes_left (bs : bitstream) : Z := u32 (Z.of_nat (length (next bs))).

(** ** The decode table *)

Record huff_t := mkHuff {
  table : gmap Z Z;      (* entries not written are 0 *)
  max_len : Z;
}.

Definition table_put (size : Z) (t : gmap Z Z) (i v : Z) : outcome (gmap Z Z) :=
  if (0 <=? i) && (i <? size) then Ok (<[i := v]> t) else Fault.
Definition table_get (h : huff_t) (i : Z) : outcome Z :=
  if (0 <=? i) && (i <? Z.shiftl 1 (max_len h)) then Ok (default 0 (table h !! i)) else Fault.

(** The 33-entry arrays [counts] and [next_code]. *)
Definition arr_get (a : list Z) (i : Z) : outcome Z := at_ a i.
Definition arr_put (a : list Z) (i v : Z) : outcome (list Z) :=
  if (0 <=? i) && (i <? Z.of_nat (length a)) then Ok (<[Z.to_nat i := v]> a) else Fault.

Fixpoint count_lens (max : Z) (lens : list Z) (counts : list Z) : outcome (list Z) :=
  match lens with
  | [] => Ok counts
  | l :: lens' =>
      fail_if (max <? l) (-1) (
      c ← arr_get counts l;
      counts ← arr_put counts l (c + 1);
      count_lens max lens' counts)
  end.

(** [for (l = 1; l <= max_len; l++)]: the Kraft sum. *)
Fixpoint kraft (n : nat) (l left : Z) (counts : list Z) : outcome unit :=
  match n with
  | O => Ok ()
  | S n' =>
      c ← arr_get counts l;
      let left := left * 2 - c in
      fail_if (left <? 0) (-1) (kraft n' (l + 1) left counts)
  end.

Fixpoint first_codes (n : nat) (l code total : Z) (counts next_code : list Z) : outcome (list Z * Z) :=
  match n with
  | O => Ok (next_code, total)
  | S n' =>
      next_code ← arr_put next_code l code;
      c ← arr_get counts l;
      first_codes n' (l + 1) (u32 ((code + c) * 2)) (u32 (total + c)) counts next_code
  end.

Fixpoint fill (n : nat) (size : Z) (t : gmap Z Z) (i entry : Z) : outcome (gmap Z Z) :=
  match n with
  | O => Ok t
  | S n' => t ← table_put size t i entry; fill n' size t (i + 1) entry
  end.

Fixpoint assign_codes (max s : Z) (lens : list Z) (next_code : list Z) (t : gmap Z Z) : outcome (gmap Z Z) :=
  match lens with
  | [] => Ok t
  | l :: lens' =>
      if l =? 0 then assign_codes max (s + 1) lens' next_code t else
      c ← arr_get next_code l;
      next_code ← arr_put next_code l (u32 (c + 1));
      t ← fill (Z.to_nat (Z.shiftl 1 (max - l))) (Z.shiftl 1 max) t (u32 (Z.shiftl c (max - l))) (Z.lor (Z.shiftl s 16) l);
      assign_codes max (s + 1) lens' next_code t
  end.

Definition huff_build (lens : list Z) (max : Z) : outcome huff_t :=
  counts ← count_lens max lens (replicate 33 0);
  counts ← arr_put counts 0 0;
  _ ← kraft (Z.to_nat max) 1 1 counts;
  '(next_code, total) ← first_codes (Z.to_nat max) 1 0 0 counts (replicate 33 0);
  if total =? 0 then Ok (mkHuff ∅ max) else
  t ← assign_codes max 0 lens next_code ∅;
  Ok (mkHuff t max).

Definition huff_decode (bs : bitstream) (h : huff_t) : outcome (Z * bitstream) :=
  let bs := bs_ensure bs (max_len h) in
  e ← table_get h (bs_peek bs (max_len h));
  Ok (Z.shiftr e 16, bs_remove bs (Z.land e 0xffff)).

(** [out[pos++] = b] into an output of [size] bytes. *)
Definition push (size : Z) (out : list Z) (b : Z) : outcome (list Z) :=
  if Z.of_nat (length out) <? size then Ok (out ++ [b]) else Fault.

(** [lz_copy(out + pos, off, len)]: byte by byte, so that an offset below the
    length repeats what was just written. *)
Fixpoint lz_copy (len : nat) (size : Z) (out : list Z) (off : Z) : outcome (list Z) :=
  match len with
  | O => Ok out
  | S len' =>
      b ← at_ out (Z.of_nat (length out) - off);
      out ← push size out b;
      lz_copy len' size out off
  end.

(** ** The bits the stream delivers *)

(** Bit [j] of the sixteen-bit units of [l], most significant first; past the
    last whole unit, zero. *)
Definition unit_bit (l : list Z) (j : Z) : bool :=
  match unit_at (drop (2 * Z.to_nat (j / 16)) l) with
  | Some u => Z.testbit u (15 - j mod 16)
  | None => false
  end.

(** Bit [i] of what is still to come. *)
Definition sbit (bs : bitstream) (i : Z) : bool :=
  if i <? bitsleft bs then Z.testbit (bitbuf bs) (31 - i) else unit_bit (next bs) (i - bitsleft bs).

(** The buffer is left-justified and its unused bits are zero; once the input
    has run out the count of bits overstates, but those bits are zero too. *)
Definition bs_wf (bs : bitstream) : Prop :=
  0 <= bitsleft bs <= 32 ∧ is_u32 (bitbuf bs) ∧ bytes (next bs) ∧
  ∀ j, 0 <= j < 32 - bitsleft bs → Z.testbit (bitbuf bs) j = false.

Definition same_bits (bs bs' : bitstream) (k : Z) : Prop := ∀ i, 0 <= i → sbit bs' i = sbit bs (i + k).

Lemma unit_at_range l u : bytes l → unit_at l = Some u → 0 <= u < 2 ^ 16.
Proof.
  destruct l as [|b0 [|b1 l]]; simpl; [done..|]. intros Hl [= <-].
  inversion Hl as [|? ? H0 Hl']; subst. inversion Hl' as [|? ? H1 _]; subst.
  unfold is_byte in *. rewrite lor_shiftl_add by lia. lia.
Qed.

Lemma u32_testbit z i : 0 <= i < 32 → Z.testbit (u32 z) i = Z.testbit z i.
Proof. intros. unfold u32. change 4294967296 with (2 ^ 32). by rewrite Z.mod_pow2_bits_low by lia. Qed.

Lemma unit_bit_drop l j : 0 <= j → unit_bit (drop 2 l) j = unit_bit l (j + 16).
Proof.
  intros Hj. unfold unit_bit. rewrite drop_drop.
  replace ((j + 16) / 16) with (j / 16 + 1) by (rewrite <- Z_div_plus by lia; f_equal; lia).
  replace ((j + 16) mod 16) with (j mod 16) by (rewrite <- (Z_mod_plus_full j 1 16); f_equal; lia).
  assert (0 <= j / 16) by (apply Z.div_pos; lia).
  replace (2 + 2 * Z.to_nat (j / 16))%nat with (2 * Z.to_nat (j / 16 + 1))%nat by lia. done.
Qed.

Lemma unit_bit_short l j : 0 <= j → (length l < 2)%nat → unit_bit l j = false.
Proof.
  intros Hj Hl. unfold unit_bit. assert (length (drop (2 * Z.to_nat (j / 16)) l) < 2)%nat as H
    by (rewrite length_drop; lia).
  destruct (drop _ l) as [|? [|? ?]]; simpl in *; [done..|lia].
Qed.

(** A refill is invisible: it only moves bits into the buffer. *)
Lemma refill_bits bs bs1 :
  bs_wf bs → bitsleft bs <= 16 → refill bs = Some bs1 →
  bs_wf bs1 ∧ bitsleft bs1 = bitsleft bs + 16 ∧ next bs1 = drop 2 (next bs) ∧ same_bits bs bs1 0.
Proof.
  intros (Hb & Hbuf & Hn & Hz) H16 Hr. unfold refill in Hr.
  destruct (unit_at (next bs)) as [u|] eqn:Eu; [|discriminate]. injection Hr as <-.
  pose proof (unit_at_range _ _ Hn Eu) as Hu.
  assert (∀ i, 0 <= i < 32 → Z.testbit (u32 (Z.lor (bitbuf bs) (u32 (Z.shiftl u (16 - bitsleft bs))))) i =
    Z.testbit (bitbuf bs) i || Z.testbit u (i - (16 - bitsleft bs))) as Ht.
  { intros i Hi. rewrite u32_testbit, Z.lor_spec, u32_testbit by lia. by rewrite Z.shiftl_spec by lia. }
  split; [|split; [done|split; [done|]]].
  - split; [simpl; lia|]. split; [apply u32_range|]. split; [by apply Forall_drop|].
    simpl. intros j Hj. rewrite Ht by lia. rewrite Hz by lia. by rewrite Z.testbit_neg_r by lia.
  - intros i Hi. rewrite Z.add_0_r. unfold sbit. simpl.
    destruct (Z.ltb_spec i (bitsleft bs + 16)) as [H1|H1].
    + rewrite Ht by lia. destruct (Z.ltb_spec i (bitsleft bs)) as [H2|H2].
      * rewrite (testbit_small u 16) by lia. by rewrite orb_false_r.
      * rewrite Hz by lia. unfold unit_bit.
        rewrite Z.div_small, Z.mod_small by lia. simpl. rewrite drop_0, Eu. f_equal. lia.
    + destruct (Z.ltb_spec i (bitsleft bs)); [lia|]. rewrite unit_bit_drop by lia. f_equal. lia.
Qed.

Lemma refill_none bs : refill bs = None → (length (next bs) < 2)%nat.
Proof. unfold refill. destruct (next bs) as [|? [|? ?]]; simpl; [lia..|done]. Qed.

Lemma exhausted_bits bs :
  bs_wf bs → (length (next bs) < 2)%nat →
  bs_wf (exhausted bs) ∧ same_bits bs (exhausted bs) 0.
Proof.
  intros (Hb & Hbuf & Hn & Hz) Hl. split.
  - split; [simpl; lia|]. split; [done|]. split; [done|]. simpl. lia.
  - intros i Hi. rewrite Z.add_0_r. unfold sbit. simpl.
    destruct (Z.ltb_spec i 32), (Z.ltb_spec i (bitsleft bs)); try done; try lia.
    + rewrite Hz by lia. by rewrite unit_bit_short by lia.
    + by rewrite !unit_bit_short by lia.
Qed.

Lemma same_bits_trans a b c k k' : 0 <= k' → same_bits a b k → same_bits b c k' → same_bits a c (k' + k).
Proof. intros Hk H1 H2 i Hi. rewrite H2, H1 by lia. f_equal. lia. Qed.

(** What remains of the input after some of it was consumed. *)
Definition suffix_of (l l' : list Z) : Prop := ∃ k, l' = drop k l.

Lemma suffix_refl l : suffix_of l l.
Proof. by exists 0%nat. Qed.
Lemma suffix_drop l l' k : suffix_of l l' → suffix_of l (drop k l').
Proof. intros [j ->]. exists (j + k)%nat. by rewrite drop_drop. Qed.
Lemma suffix_trans l1 l2 l3 : suffix_of l1 l2 → suffix_of l2 l3 → suffix_of l1 l3.
Proof. intros H [j ->]. by apply suffix_drop. Qed.

(** [bs_ensure] makes [n] bits available and delivers the same bits. *)
Lemma bs_ensure_spec bs n :
  bs_wf bs → 0 <= n <= 17 →
  bs_wf (bs_ensure bs n) ∧ n <= bitsleft (bs_ensure bs n) ∧ same_bits bs (bs_ensure bs n) 0 ∧
  suffix_of (next bs) (next (bs_ensure bs n)).
Proof.
  intros Hwf Hn. unfold bs_ensure. destruct (Z.leb_spec n (bitsleft bs)).
  { split_and!; [done|done| |apply suffix_refl]. intros i Hi. by rewrite Z.add_0_r. }
  destruct (refill bs) as [bs1|] eqn:E1.
  2:{ apply refill_none in E1. destruct (exhausted_bits bs Hwf E1).
      split_and!; [done|simpl; lia|done|apply suffix_refl]. }
  destruct (refill_bits bs bs1 Hwf ltac:(lia) E1) as (Hwf1 & Hl1 & Hn1 & Hs1).
  assert (suffix_of (next bs) (next bs1)) as Hsuf by (rewrite Hn1; apply suffix_drop, suffix_refl).
  pose proof Hwf as (Hb & _).
  destruct ((n =? 17) && (bitsleft bs1 <? 17)) eqn:E.
  2:{ split_and!; [done| |done|done]. apply andb_false_iff in E as [E|E]; zbool; lia. }
  zbool. destruct (refill bs1) as [bs2|] eqn:E2.
  - destruct (refill_bits bs1 bs2 Hwf1 ltac:(lia) E2) as (Hwf2 & Hl2 & Hn2 & Hs2).
    split_and!; [done|lia|by apply (same_bits_trans bs bs1 bs2 0 0)|].
    rewrite Hn2. by apply suffix_drop.
  - apply refill_none in E2. destruct (exhausted_bits bs1 Hwf1 E2).
    split_and!; [done|simpl; lia|by apply (same_bits_trans bs bs1 _ 0 0)|done].
Qed.

Lemma bs_remove_spec bs n :
  bs_wf bs → 0 <= n <= bitsleft bs →
  bs_wf (bs_remove bs n) ∧ same_bits bs (bs_remove bs n) n.
Proof.
  intros (Hb & Hbuf & Hn & Hz) Hr.
  assert (∀ i, 0 <= i < 32 → Z.testbit (u32 (Z.shiftl (bitbuf bs) n)) i = Z.testbit (bitbuf bs) (i - n)) as Ht
    by (intros i Hi; rewrite u32_testbit, Z.shiftl_spec by lia; done).
  split.
  - split; [simpl; lia|]. split; [apply u32_range|]. split; [done|]. simpl. intros j Hj.
    rewrite Ht by lia. destruct (Z.lt_ge_cases (j - n) 0); [by apply Z.testbit_neg_r|]. apply Hz. lia.
  - intros i Hi. unfold sbit. simpl.
    destruct (Z.ltb_spec i (bitsleft bs - n)), (Z.ltb_spec (i + n) (bitsleft bs)); try lia.
    + rewrite Ht by lia. f_equal. lia.
    + f_equal. lia.
Qed.

(** The value of the next [n] bits. *)
Fixpoint bits_val (n : nat) (f : Z → bool) : Z :=
  match n with O => 0 | S n' => 2 * bits_val n' f + Z.b2z (f (Z.of_nat n')) end.

Lemma bits_val_range n f : 0 <= bits_val n f < 2 ^ Z.of_nat n.
Proof.
  induction n as [|n IH]; [simpl; lia|]. cbn [bits_val]. rewrite Nat2Z.inj_succ, Z.pow_succ_r by lia.
  destruct (f (Z.of_nat n)); simpl Z.b2z; lia.
Qed.

Lemma bits_val_add a b f :
  bits_val (a + b) f = bits_val a f * 2 ^ Z.of_nat b + bits_val b (λ i, f (i + Z.of_nat a)).
Proof.
  induction b as [|b IH]; [rewrite Nat.add_0_r; simpl; lia|].
  rewrite Nat.add_succ_r. cbn [bits_val]. rewrite IH, Nat2Z.inj_succ, Z.pow_succ_r by lia.
  replace (Z.of_nat (a + b)) with (Z.of_nat b + Z.of_nat a) by lia. ring.
Qed.

Lemma bits_val_ext n f g : (∀ i, 0 <= i < Z.of_nat n → f i = g i) → bits_val n f = bits_val n g.
Proof.
  induction n as [|n IH]; intros H; [done|]. cbn [bits_val].
  rewrite IH, H by (intros; try apply H; lia). done.
Qed.

Lemma shiftr_bits_val z n :
  is_u32 z → 0 <= n <= 32 → Z.shiftr z (32 - n) = bits_val (Z.to_nat n) (λ i, Z.testbit z (31 - i)).
Proof.
  intros Hz Hn. rewrite <- (Z2Nat.id n) at 1 by lia. assert (Z.to_nat n <= 32)%nat by lia.
  generalize dependent (Z.to_nat n). clear n Hn. intros n. induction n as [|n IH]; intros Hn.
  - simpl. rewrite Z.shiftr_div_pow2 by lia. apply Z.div_small. exact Hz.
  - cbn [bits_val]. rewrite <- IH by lia.
    replace (32 - Z.of_nat n) with (31 - Z.of_nat n + 1) by lia.
    replace (32 - Z.of_nat (S n)) with (31 - Z.of_nat n) by lia.
    rewrite <- Z.shiftr_shiftr by lia.
    set (y := Z.shiftr z (31 - Z.of_nat n)).
    assert (Z.testbit z (31 - Z.of_nat n) = Z.odd y) as ->.
    { unfold y. rewrite <- Z.bit0_odd, Z.shiftr_spec by lia. f_equal. }
    rewrite <- Z.div2_spec. rewrite Z.div2_odd at 1. done.
Qed.

Lemma bs_peek_spec bs n :
  bs_wf bs → 0 <= n <= bitsleft bs → bs_peek bs n = bits_val (Z.to_nat n) (sbit bs).
Proof.
  intros (Hb & Hbuf & _) Hn. unfold bs_peek. destruct (Z.eqb_spec n 0) as [->|]; [done|].
  rewrite shiftr_bits_val by (done || lia). apply bits_val_ext. intros i Hi. unfold sbit.
  destruct (Z.ltb_spec i (bitsleft bs)); [done|lia].
Qed.

Lemma bs_peek_range bs n : bs_wf bs → 0 <= n <= bitsleft bs → 0 <= bs_peek bs n < 2 ^ n.
Proof.
  intros Hwf Hn. rewrite bs_peek_spec by done. pose proof (bits_val_range (Z.to_nat n) (sbit bs)) as H.
  rewrite Z2Nat.id in H by lia. exact H.
Qed.

(** [bs_read] delivers the next [n] bits and advances by [n]. *)
Lemma bs_read_spec bs n v bs' :
  bs_wf bs → 0 <= n <= 17 → bs_read bs n = (v, bs') →
  v = bits_val (Z.to_nat n) (sbit bs) ∧ 0 <= v < 2 ^ n ∧ bs_wf bs' ∧ same_bits bs bs' n ∧
  suffix_of (next bs) (next bs').
Proof.
  intros Hwf Hn. unfold bs_read. intros [= <- <-].
  destruct (bs_ensure_spec bs n Hwf Hn) as (Hwf1 & Hl1 & Hs1 & Hsuf).
  destruct (bs_remove_spec (bs_ensure bs n) n Hwf1 ltac:(lia)) as [Hwf2 Hs2].
  split; [|split; [apply bs_peek_range; [done|lia]|split; [done|split; [|done]]]].
  - rewrite bs_peek_spec by (done || lia). apply bits_val_ext. intros i Hi.
    rewrite Hs1 by lia. f_equal. lia.
  - pose proof (same_bits_trans _ _ _ 0 n ltac:(lia) Hs1 Hs2) as H. by rewrite Z.add_0_r in H.
Qed.

(** ** The canonical code *)

(** How many symbols of [lens] have length [l]. *)
Fixpoint cnt (l : Z) (lens : list Z) : Z :=
  match lens with [] => 0 | x :: lens' => (if x =? l then 1 else 0) + cnt l lens' end.

Definition ncodes (lens : list Z) (l : Z) : Z := if l =? 0 then 0 else cnt l lens.

(** The first codeword of length [l]: codewords are assigned in order of
    (length, symbol). *)
Fixpoint first_code (lens : list Z) (l : nat) : Z :=
  match l with
  | O => 0
  | S l' => (first_code lens l' + ncodes lens (Z.of_nat l')) * 2
  end.

Definition len_of (lens : list Z) (s : nat) : Z := nth s lens 0.

(** The codeword of symbol [s], of [len_of lens s] bits. *)
Definition codeword (lens : list Z) (s : nat) : Z :=
  first_code lens (Z.to_nat (len_of lens s)) + cnt (len_of lens s) (take s lens).

Lemma cnt_nonneg l lens : 0 <= cnt l lens.
Proof. induction lens as [|x lens IH]; simpl; [lia|]. destruct (x =? l); lia. Qed.

Lemma cnt_app l a b : cnt l (a ++ b) = cnt l a + cnt l b.
Proof. induction a as [|x a IH]; simpl; lia. Qed.

Lemma cnt_le_length l lens : cnt l lens <= Z.of_nat (length lens).
Proof. induction lens as [|x lens IH]; simpl; [lia|]. destruct (x =? l); lia. Qed.

Lemma ncodes_nonneg lens l : 0 <= ncodes lens l.
Proof. unfold ncodes. destruct (l =? 0); [lia|apply cnt_nonneg]. Qed.

Lemma first_code_nonneg lens l : 0 <= first_code lens l.
Proof. induction l as [|l IH]; simpl; [lia|]. pose proof (ncodes_nonneg lens (Z.of_nat l)). lia. Qed.

(** The rank of a symbol among those of its length. *)
Lemma rank_bound lens s :
  (s < length lens)%nat →
  0 <= cnt (len_of lens s) (take s lens) < cnt (len_of lens s) lens.
Proof.
  intros Hs. split; [apply cnt_nonneg|].
  assert (∀ l, cnt l lens = cnt l (take s lens) + cnt l (drop s lens)) as -> by (intros l; by rewrite <- cnt_app, take_drop).
  destruct (drop s lens) as [|x d] eqn:E; [apply (f_equal length) in E; rewrite length_drop in E; simpl in E; lia|].
  assert (len_of lens s = x) as ->.
  { unfold len_of. rewrite <- (take_drop s lens), E. rewrite app_nth2 by (rewrite length_take; lia).
    by rewrite length_take, Nat.min_l, Nat.sub_diag by lia. }
  simpl. rewrite Z.eqb_refl.
  pose proof (cnt_nonneg x d). lia.
Qed.

Lemma rank_mono lens s s' :
  (s < s')%nat → (s' < length lens)%nat → len_of lens s = len_of lens s' →
  cnt (len_of lens s) (take s lens) < cnt (len_of lens s) (take s' lens).
Proof.
  intros Hs Hs' Hl. pose proof (rank_bound (take s' lens) s) as H.
  rewrite length_take in H. specialize (H ltac:(lia)).
  assert (len_of (take s' lens) s = len_of lens s) as E.
  { unfold len_of. rewrite <- (take_drop s' lens) at 2. rewrite app_nth1; [done|rewrite length_take; lia]. }
  rewrite E, take_take, Nat.min_l in H by lia. lia.
Qed.

(** The Kraft condition: the codewords of every length fit. *)
Definition kraft_ok (lens : list Z) (max : Z) : Prop :=
  ∀ l, (Z.of_nat l <= max) → first_code lens l + ncodes lens (Z.of_nat l) <= 2 ^ Z.of_nat l.

(** The table entries a codeword of length [l] covers start here. *)
Definition slot_lo (lens : list Z) (max : Z) (l : nat) : Z := first_code lens l * 2 ^ (max - Z.of_nat l).

Lemma slot_lo_succ lens max l :
  Z.of_nat l < max →
  slot_lo lens max (S l) = slot_lo lens max l + ncodes lens (Z.of_nat l) * 2 ^ (max - Z.of_nat l).
Proof.
  intros Hl. unfold slot_lo. cbn [first_code].
  replace (max - Z.of_nat l) with (Z.succ (max - Z.of_nat (S l))) by lia.
  rewrite Z.pow_succ_r by lia. ring.
Qed.

Lemma slot_lo_mono lens max l l' :
  (l < l')%nat → Z.of_nat l' <= max →
  slot_lo lens max l + ncodes lens (Z.of_nat l) * 2 ^ (max - Z.of_nat l) <= slot_lo lens max l'.
Proof.
  intros Hl. induction Hl as [|l' Hl IH]; intros Hm; [rewrite slot_lo_succ by lia; lia|].
  rewrite (slot_lo_succ _ _ l') by lia. specialize (IH ltac:(lia)).
  pose proof (ncodes_nonneg lens (Z.of_nat l')).
  assert (0 < 2 ^ (max - Z.of_nat l')) by (apply Z.pow_pos_nonneg; lia). nia.
Qed.

(** The range of table entries of symbol [s]. *)
Definition sym_lo (lens : list Z) (max : Z) (s : nat) : Z := codeword lens s * 2 ^ (max - len_of lens s).
Definition sym_width (lens : list Z) (max : Z) (s : nat) : Z := 2 ^ (max - len_of lens s).

Definition coded (lens : list Z) (max : Z) (s : nat) : Prop :=
  (s < length lens)%nat ∧ 0 < len_of lens s <= max.

Lemma sym_range lens max s :
  coded lens max s →
  let l := Z.to_nat (len_of lens s) in
  slot_lo lens max l <= sym_lo lens max s ∧
  sym_lo lens max s + sym_width lens max s <=
    slot_lo lens max l + ncodes lens (len_of lens s) * 2 ^ (max - len_of lens s).
Proof.
  intros [Hs Hl] l. unfold sym_lo, sym_width, slot_lo, codeword. fold l.
  destruct (rank_bound lens s Hs) as [R1 R2].
  unfold ncodes. rewrite (proj2 (Z.eqb_neq _ 0)) by lia.
  replace (Z.of_nat l) with (len_of lens s) by lia.
  assert (0 < 2 ^ (max - len_of lens s)) by (apply Z.pow_pos_nonneg; lia). nia.
Qed.

Lemma sym_in_table lens max s :
  kraft_ok lens max → coded lens max s →
  0 <= sym_lo lens max s ∧ sym_lo lens max s + sym_width lens max s <= 2 ^ max.
Proof.
  intros Hk Hc. destruct (sym_range lens max s Hc) as [H1 H2]. destruct Hc as [Hs Hl].
  set (l := Z.to_nat (len_of lens s)) in *. specialize (Hk l ltac:(lia)).
  assert (0 < 2 ^ (max - len_of lens s)) by (apply Z.pow_pos_nonneg; lia).
  pose proof (first_code_nonneg lens l). unfold slot_lo in *.
  replace (Z.of_nat l) with (len_of lens s) in * by lia.
  split; [nia|]. replace (2 ^ max) with (2 ^ len_of lens s * 2 ^ (max - len_of lens s)).
  - nia.
  - rewrite <- Z.pow_add_r by lia. f_equal. lia.
Qed.

(** Distinct symbols have disjoint ranges: the code is prefix-free. *)
Lemma sym_disjoint lens max s s' :
  coded lens max s → coded lens max s' → s ≠ s' →
  sym_lo lens max s + sym_width lens max s <= sym_lo lens max s' ∨
  sym_lo lens max s' + sym_width lens max s' <= sym_lo lens max s.
Proof.
  assert (∀ a b, coded lens max a → coded lens max b → len_of lens a < len_of lens b →
    sym_lo lens max a + sym_width lens max a <= sym_lo lens max b) as Hlt.
  { intros a b Ha Hb Hl. destruct (sym_range lens max a Ha) as [_ A2]. destruct (sym_range lens max b Hb) as [B1 _].
    destruct Ha as [_ Ha], Hb as [_ Hb].
    pose proof (slot_lo_mono lens max (Z.to_nat (len_of lens a)) (Z.to_nat (len_of lens b)) ltac:(lia) ltac:(lia)) as Hm.
    rewrite Z2Nat.id in Hm by lia. lia. }
  assert (∀ a b, coded lens max a → coded lens max b → len_of lens a = len_of lens b → (a < b)%nat →
    sym_lo lens max a + sym_width lens max a <= sym_lo lens max b) as Heq.
  { intros a b [Ha Hla] [Hb Hlb] Hl Hab. pose proof (rank_mono lens a b Hab Hb Hl) as Hr.
    unfold sym_lo, sym_width, codeword. rewrite <- Hl in *.
    assert (0 < 2 ^ (max - len_of lens a)) by (apply Z.pow_pos_nonneg; lia). nia. }
  intros Hs Hs' Hne. destruct (Z.lt_trichotomy (len_of lens s) (len_of lens s')) as [H|[H|H]].
  - left. by apply Hlt.
  - destruct (Nat.lt_trichotomy s s') as [H'|[H'|H']]; [left; by apply Heq|done|right; by apply Heq].
  - right. by apply Hlt.
Qed.

(** ** Building the table *)

Definition entry_of (lens : list Z) (s : nat) : Z := Z.of_nat s * 65536 + len_of lens s.

Lemma arr_put_get a i v j :
  0 <= i < Z.of_nat (length a) → 0 <= j →
  bget (<[Z.to_nat i := v]> a) j = if j =? i then v else bget a j.
Proof.
  intros Hi Hj. unfold bget. rewrite !nth_lookup.
  destruct (Z.eqb_spec j i) as [->|Hne].
  - rewrite list_lookup_insert_eq by lia. done.
  - rewrite list_lookup_insert_ne by lia. done.
Qed.

Lemma safe_arr_get a i (P : Z → Prop) : 0 <= i < Z.of_nat (length a) → P (bget a i) → safe P (arr_get a i).
Proof.
  intros Hi HP. unfold arr_get, at_. rewrite (proj2 (Z.leb_le 0 i)), (proj2 (Z.ltb_lt i _)) by lia. done.
Qed.

Lemma safe_arr_put a i v (P : list Z → Prop) :
  0 <= i < Z.of_nat (length a) → P (<[Z.to_nat i := v]> a) → safe P (arr_put a i v).
Proof.
  intros Hi HP. unfold arr_put. rewrite (proj2 (Z.leb_le 0 i)), (proj2 (Z.ltb_lt i _)) by lia. done.
Qed.

Lemma count_lens_spec max lens counts :
  0 <= max <= 32 → Forall (λ l, 0 <= l) lens → length counts = 33%nat →
  safe (λ c', length c' = 33%nat ∧ Forall (λ l, l <= max) lens ∧
    ∀ l, 0 <= l <= 32 → bget c' l = bget counts l + cnt l lens) (count_lens max lens counts).
Proof.
  intros Hm. revert counts. induction lens as [|x lens IH]; intros counts Hl Hc; cbn [count_lens].
  { simpl. split_and!; [done|constructor|]. intros. lia. }
  inversion Hl as [|? ? Hx Hl']; subst. apply safe_fail_if. intros E. zbool.
  eapply safe_bind; [apply (safe_arr_get _ _ (λ c, c = bget counts x)); [lia|done]|].
  intros c ->. eapply safe_bind; [apply (safe_arr_put _ _ _ (λ a, a = <[Z.to_nat x := bget counts x + 1]> counts)); [lia|done]|].
  intros c' ->. eapply safe_mono; [apply IH; [done|by rewrite length_insert]|].
  intros c (H1 & H2 & H3). split_and!; [done|by constructor|]. intros l Hl2.
  rewrite H3, arr_put_get by lia. simpl. rewrite (Z.eqb_sym x l). destruct (Z.eqb_spec l x); subst; lia.
Qed.

Lemma kraft_spec lens max counts n l left :
  length counts = 33%nat → 1 <= l → l + Z.of_nat n = max + 1 → max <= 32 →
  (∀ j, 1 <= j <= 32 → bget counts j = ncodes lens j) →
  left = 2 ^ (l - 1) - (first_code lens (Z.to_nat (l - 1)) + ncodes lens (l - 1)) →
  safe (λ _, ∀ j, l <= j <= max → first_code lens (Z.to_nat j) + ncodes lens j <= 2 ^ j) (kraft n l left counts).
Proof.
  intros Hc. revert l left. induction n as [|n IH]; intros l left Hl Hn Hm Hcn Hleft; cbn [kraft].
  { simpl. intros. lia. }
  eapply safe_bind; [apply (safe_arr_get _ _ (λ c, c = bget counts l)); [lia|done]|]. intros c ->.
  rewrite Hcn by lia. apply safe_fail_if. intros E. zbool.
  assert (left * 2 - ncodes lens l = 2 ^ l - (first_code lens (Z.to_nat l) + ncodes lens l)) as Hle.
  { replace (Z.to_nat l) with (S (Z.to_nat (l - 1))) by lia. cbn [first_code]. rewrite Z2Nat.id by lia.
    replace l with (Z.succ (l - 1)) at 2 by lia. rewrite Z.pow_succ_r by lia. lia. }
  eapply safe_mono; [apply IH; [lia..|done|]|].
  - replace (l + 1 - 1) with l by lia. exact Hle.
  - intros [] H j Hj. destruct (Z.eq_dec j l) as [E0|]; [rewrite E0; lia|]. apply H. lia.
Qed.

Lemma kraft_ok_intro lens max :
  (∀ j, 1 <= j <= max → first_code lens (Z.to_nat j) + ncodes lens j <= 2 ^ j) → kraft_ok lens max.
Proof.
  intros H l Hl. destruct l as [|l]; [unfold ncodes; simpl; lia|].
  specialize (H (Z.of_nat (S l)) ltac:(lia)). by rewrite Nat2Z.id in H.
Qed.

Lemma first_codes_spec lens max counts n l code total next_code :
  length counts = 33%nat → length next_code = 33%nat → 1 <= l → l + Z.of_nat n = max + 1 → max <= 16 →
  (∀ j, 1 <= j <= 32 → bget counts j = ncodes lens j) → kraft_ok lens max →
  code = first_code lens (Z.to_nat l) → 0 <= total < 2 ^ 16 * l →
  (∀ j, 1 <= j < l → bget next_code j = first_code lens (Z.to_nat j)) →
  safe (λ '(nc, t), length nc = 33%nat ∧
    (∀ j, 1 <= j <= max → bget nc j = first_code lens (Z.to_nat j)) ∧
    (t = 0 → total = 0 ∧ ∀ j, l <= j <= max → ncodes lens j = 0))
    (first_codes n l code total counts next_code).
Proof.
  intros Hc. revert l code total next_code.
  induction n as [|n IH]; intros l code total nc Hnc Hl Hn Hm Hcn Hk Hcode Ht Hdone; cbn [first_codes].
  { simpl. split_and!; [done|intros; apply Hdone; lia|]. intros ->. split; [done|lia]. }
  eapply safe_bind; [apply (safe_arr_put _ _ _ (λ a, a = <[Z.to_nat l := code]> nc)); [lia|done]|]. intros ? ->.
  eapply safe_bind; [apply (safe_arr_get _ _ (λ c, c = bget counts l)); [lia|done]|]. intros c ->.
  rewrite Hcn by lia. pose proof (Hk (Z.to_nat l) ltac:(lia)) as Hkl. rewrite Z2Nat.id in Hkl by lia.
  pose proof (ncodes_nonneg lens l). pose proof (first_code_nonneg lens (Z.to_nat l)).
  assert (2 ^ l <= 2 ^ 16) as Hp by (apply Z.pow_le_mono_r; lia). change (2 ^ 16) with 65536 in *.
  rewrite (u32_small ((code + _) * 2)), (u32_small (total + _)) by lia.
  eapply safe_mono; [apply IH; [by rewrite length_insert|lia|lia|lia|done|done| |lia|]|].
  - replace (Z.to_nat (l + 1)) with (S (Z.to_nat l)) by lia. cbn [first_code]. rewrite Z2Nat.id by lia. by rewrite Hcode.
  - intros j Hj. rewrite arr_put_get by lia. destruct (Z.eqb_spec j l); [by subst|]. apply Hdone. lia.
  - intros [nc' t] (H1 & H2 & H3). split_and!; [done|done|]. intros E. destruct (H3 E) as [H4 H5].
    split; [lia|]. intros j Hj. destruct (Z.eq_dec j l) as [E0|]; [rewrite E0; lia|]. apply H5. lia.
Qed.

Lemma fill_spec n size t i entry :
  0 <= i → i + Z.of_nat n <= size →
  safe (λ t', ∀ x, t' !! x = if (i <=? x) && (x <? i + Z.of_nat n) then Some entry else t !! x) (fill n size t i entry).
Proof.
  revert t i. induction n as [|n IH]; intros t i Hi Hs; cbn [fill].
  { simpl. intros x. rewrite Z.add_0_r. destruct (Z.leb_spec i x), (Z.ltb_spec x i); simpl; done || lia. }
  unfold table_put. rewrite (proj2 (Z.leb_le 0 i)), (proj2 (Z.ltb_lt i size)) by lia. cbn [andb mbind outcome_bind].
  eapply safe_mono; [apply IH; lia|]. intros t' Ht' x. rewrite Ht'.
  destruct (Z.leb_spec (i + 1) x), (Z.ltb_spec x (i + 1 + Z.of_nat n)), (Z.leb_spec i x),
    (Z.ltb_spec x (i + Z.of_nat (S n))); simpl; try lia; try done;
    destruct (Z.eq_dec i x) as [->|]; rewrite ?lookup_insert_eq, ?lookup_insert_ne by done; done || lia.
Qed.

(** The entries of the first [k] symbols are in the table, and nothing else. *)
Definition table_upto (lens : list Z) (max : Z) (k : nat) (t : gmap Z Z) : Prop :=
  (∀ s x, (s < k)%nat → coded lens max s → sym_lo lens max s <= x < sym_lo lens max s + sym_width lens max s →
     t !! x = Some (entry_of lens s)) ∧
  (∀ x e, t !! x = Some e → ∃ s, (s < k)%nat ∧ coded lens max s ∧ e = entry_of lens s ∧
     sym_lo lens max s <= x < sym_lo lens max s + sym_width lens max s).

Lemma entry_lor s l : 0 <= s → 0 <= l < 65536 → Z.lor (Z.shiftl s 16) l = s * 65536 + l.
Proof. intros Hs Hl. rewrite Z.lor_comm, lor_shiftl_add by lia. change (2 ^ 16) with 65536. lia. Qed.

Lemma table_upto_fill lens max k t t' :
  coded lens max k → table_upto lens max k t →
  (∀ x, t' !! x = if (sym_lo lens max k <=? x) && (x <? sym_lo lens max k + sym_width lens max k)
                  then Some (entry_of lens k) else t !! x) →
  table_upto lens max (S k) t'.
Proof.
  intros Hc [T1 T2] Ht'. split.
  - intros s x Hs Hcs Hx. rewrite Ht'. destruct (decide (s = k)) as [Ek|Ek].
    + subst s. rewrite (proj2 (Z.leb_le _ x)), (proj2 (Z.ltb_lt x _)) by lia. done.
    + destruct (Z.leb_spec (sym_lo lens max k) x), (Z.ltb_spec x (sym_lo lens max k + sym_width lens max k));
        simpl; try (apply T1; [lia|done|done]).
      destruct (sym_disjoint lens max s k Hcs Hc Ek); lia.
  - intros x e. rewrite Ht'. destruct (_ && _) eqn:E.
    + intros [= <-]. zbool. exists k. split_and!; [lia|done|done|lia|lia].
    + intros Hx. destruct (T2 x e Hx) as (s & Hs & ?). exists s. split; [lia|done].
Qed.

Lemma assign_codes_spec lens max k rest nc t :
  0 <= max <= 16 → kraft_ok lens max → lens = take k lens ++ rest → (k <= length lens)%nat →
  Forall (λ l, 0 <= l <= max) lens → Z.of_nat (length lens) < 2 ^ 16 → length nc = 33%nat →
  (∀ j, 1 <= j <= max → bget nc j = first_code lens (Z.to_nat j) + cnt j (take k lens)) →
  table_upto lens max k t →
  safe (table_upto lens max (length lens)) (assign_codes max (Z.of_nat k) rest nc t).
Proof.
  intros Hm Hk. revert k nc t. induction rest as [|l rest IH]; intros k nc t Hsplit Hkl Hlens Hlen Hnc Hcodes Ht;
    cbn [assign_codes].
  { simpl. rewrite app_nil_r in Hsplit. apply (f_equal length) in Hsplit. rewrite length_take in Hsplit.
    by replace (length lens) with k by lia. }
  assert (length (take k lens) = k) as Hlk by (rewrite length_take; lia).
  assert (lens = take (S k) lens ++ rest ∧ take (S k) lens = take k lens ++ [l]) as [Hsplit' Htk].
  { assert (take (S k) lens = take k lens ++ [l]) as E.
    { rewrite Hsplit at 1. rewrite take_app_ge by lia. rewrite Hlk.
      replace (S k - k)%nat with 1%nat by lia. done. }
    split; [|done]. rewrite E, <- app_assoc. exact Hsplit. }
  assert (k < length lens)%nat as Hkl' by (rewrite Hsplit, length_app, Hlk; simpl; lia).
  assert (len_of lens k = l) as Hl.
  { unfold len_of. rewrite Hsplit. rewrite app_nth2 by lia. by rewrite Hlk, Nat.sub_diag. }
  assert (0 <= l <= max) as Hlr.
  { rewrite Hsplit in Hlens. apply Forall_app in Hlens as [_ Hlens]. by inversion Hlens. }
  replace (Z.of_nat k + 1) with (Z.of_nat (S k)) by lia.
  destruct (Z.eqb_spec l 0) as [El|El].
  { apply IH; [done|lia|done|done|done| |].
    - intros j Hj. rewrite Htk, cnt_app. simpl. rewrite (proj2 (Z.eqb_neq l j)) by lia. rewrite Hcodes by lia. lia.
    - destruct Ht as [T1 T2]. split.
      + intros s x Hs [Hc1 Hc2] Hx. destruct (decide (s = k)) as [->|]; [lia|]. apply T1; [lia|done|done].
      + intros x e Hx. destruct (T2 x e Hx) as (s & Hs & ?). exists s. split; [lia|done]. }
  assert (coded lens max k) as Hck by (split; [done|lia]).
  destruct (sym_in_table lens max k Hk Hck) as [S1 S2]. unfold sym_width in S2. rewrite Hl in S2.
  assert (bget nc l = codeword lens k) as Hcw by (rewrite Hcodes by lia; unfold codeword; by rewrite Hl).
  eapply safe_bind; [apply (safe_arr_get _ _ (λ c, c = codeword lens k)); [lia|done]|]. intros c ->.
  eapply safe_bind; [apply (safe_arr_put _ _ _ (λ a, a = <[Z.to_nat l := u32 (codeword lens k + 1)]> nc)); [lia|done]|].
  intros ? ->.
  assert (2 ^ max <= 2 ^ 16) as Hp by (apply Z.pow_le_mono_r; lia). change (2 ^ 16) with 65536 in *.
  assert (0 < 2 ^ (max - l)) as Hpl by (apply Z.pow_pos_nonneg; lia).
  assert (0 <= codeword lens k < 65536) as Hcr by (unfold sym_lo in S1, S2; rewrite Hl in S1, S2; nia).
  rewrite entry_lor, !Z.shiftl_mul_pow2 by lia.
  replace (codeword lens k * 2 ^ (max - l)) with (sym_lo lens max k) by (unfold sym_lo; by rewrite Hl).
  rewrite (u32_small (sym_lo lens max k)), (u32_small (codeword lens k + 1)), Z.mul_1_l by lia.
  eapply safe_bind; [apply fill_spec; [lia|]|].
  { rewrite Z2Nat.id by lia. lia. }
  intros t' Ht'. rewrite Z2Nat.id in Ht' by lia.
  apply IH; [done|lia|done|done|by rewrite length_insert| |].
  - intros j Hj. rewrite arr_put_get by lia. rewrite Htk, cnt_app. simpl.
    destruct (Z.eqb_spec j l) as [Ej|Ej].
    + subst j. rewrite Z.eqb_refl. unfold codeword. rewrite Hl. lia.
    + rewrite (proj2 (Z.eqb_neq l j)) by lia. rewrite Hcodes by lia. lia.
  - apply (table_upto_fill lens max k t t'); [done..|].
    intros x. rewrite Ht'. unfold sym_width. rewrite Hl.
    unfold entry_of. by rewrite Hl.
Qed.

(** ** [huff_build] and [huff_decode] *)

(** [h] decodes the canonical code of [lens]. *)
Definition decodes (lens : list Z) (max : Z) (h : huff_t) : Prop :=
  max_len h = max ∧ Forall (λ l, 0 <= l <= max) lens ∧ kraft_ok lens max ∧
  table_upto lens max (length lens) (table h).

Lemma not_coded lens max s :
  Forall (λ l, 0 <= l <= max) lens → (∀ j, 1 <= j <= max → ncodes lens j = 0) → ¬ coded lens max s.
Proof.
  intros Hl Hz [Hs Hr]. destruct (rank_bound lens s Hs) as [H1 H2].
  specialize (Hz (len_of lens s) ltac:(lia)). unfold ncodes in Hz.
  rewrite (proj2 (Z.eqb_neq _ 0)) in Hz by lia. lia.
Qed.

Lemma huff_build_spec lens max :
  0 <= max <= 16 → Forall (λ l, 0 <= l) lens → Z.of_nat (length lens) < 2 ^ 16 →
  safe (decodes lens max) (huff_build lens max).
Proof.
  intros Hm Hpos Hlen. unfold huff_build.
  eapply safe_bind; [apply count_lens_spec; [lia|done|apply length_replicate]|]. intros c0 (L0 & Hle & Hc0).
  assert (Forall (λ l, 0 <= l <= max) lens) as Hr.
  { clear -Hpos Hle. induction lens; [constructor|]. inversion Hpos; inversion Hle; subst. constructor; [lia|auto]. }
  eapply safe_bind; [apply (safe_arr_put _ 0 _ (λ a, a = <[Z.to_nat 0 := 0]> c0)); [lia|done]|]. intros ? ->.
  assert (length (<[Z.to_nat 0 := 0]> c0) = 33%nat) as L1 by (by rewrite length_insert).
  assert (∀ j, 1 <= j <= 32 → bget (<[Z.to_nat 0 := 0]> c0) j = ncodes lens j) as Hc1.
  { intros j Hj. rewrite arr_put_get, Hc0 by lia. unfold ncodes. rewrite (proj2 (Z.eqb_neq j 0)) by lia.
    unfold bget. rewrite nth_lookup, lookup_replicate_2 by lia. simpl. lia. }
  eapply safe_bind; [apply (kraft_spec lens max); [done|lia|lia|lia|done|unfold ncodes; simpl; lia]|].
  intros [] Hk0. apply kraft_ok_intro in Hk0.
  eapply safe_bind; [apply (first_codes_spec lens max);
    [done|apply length_replicate|lia|lia|lia|done|done|reflexivity|lia|lia]|].
  intros [nc t] (L2 & Hnc & Ht). destruct (Z.eqb_spec t 0) as [E|_].
  - destruct (Ht E) as [_ Hz]. split_and!; [done..|]. split.
    + intros s x _ Hc. destruct (not_coded lens max s Hr Hz Hc).
    + intros x e Hx. simpl in Hx. by rewrite lookup_empty in Hx.
  - eapply safe_bind; [apply (assign_codes_spec lens max 0); [lia|done|done|lia|done|done|done| |]|].
    + intros j Hj. rewrite Hnc by lia. simpl. lia.
    + split; [lia|]. intros x e Hx. by rewrite lookup_empty in Hx.
    + intros t' Ht'. simpl. done.
Qed.

Lemma entry_sym lens s : 0 <= len_of lens s < 65536 → Z.shiftr (entry_of lens s) 16 = Z.of_nat s.
Proof.
  intros H. unfold entry_of. rewrite Z.shiftr_div_pow2 by lia. change (2 ^ 16) with 65536.
  rewrite Z.div_add_l, Z.div_small by lia. lia.
Qed.
Lemma entry_len lens s : 0 <= len_of lens s < 65536 → Z.land (entry_of lens s) 0xffff = len_of lens s.
Proof.
  intros H. unfold entry_of. change 0xffff with (Z.ones 16). rewrite Z.land_ones by lia. change (2 ^ 16) with 65536.
  rewrite Z.add_comm, Z_mod_plus_full. by apply Z.mod_small.
Qed.

(** The next [len] bits and the look-ahead window agree. *)
Lemma window_split bs l max :
  0 <= l <= max → bits_val (Z.to_nat max) (sbit bs) =
    bits_val (Z.to_nat l) (sbit bs) * 2 ^ (max - l) + bits_val (Z.to_nat (max - l)) (λ i, sbit bs (i + l)).
Proof.
  intros Hl. replace (Z.to_nat max) with (Z.to_nat l + Z.to_nat (max - l))%nat by lia.
  rewrite bits_val_add, !Z2Nat.id by lia. done.
Qed.

Lemma huff_decode_cases lens max h bs :
  0 <= max <= 16 → decodes lens max h → bs_wf bs → Z.of_nat (length lens) < 2 ^ 16 →
  ∃ s bs', huff_decode bs h = Ok (Z.of_nat s, bs') ∧ bs_wf bs' ∧ suffix_of (next bs) (next bs') ∧
    ((coded lens max s ∧ bits_val (Z.to_nat (len_of lens s)) (sbit bs) = codeword lens s ∧
      same_bits bs bs' (len_of lens s)) ∨
     (s = 0%nat ∧ same_bits bs bs' 0 ∧
      ∀ s', coded lens max s' → bits_val (Z.to_nat (len_of lens s')) (sbit bs) ≠ codeword lens s')).
Proof.
  intros Hm (Hml & Hlens & Hk & [T1 T2]) Hwf Hn.
  destruct (bs_ensure_spec bs max Hwf ltac:(lia)) as (Hwf1 & Hl1 & Hs1 & Hsuf).
  unfold huff_decode. rewrite Hml. set (bs1 := bs_ensure bs max) in *.
  pose proof (bs_peek_range bs1 max Hwf1 ltac:(lia)) as Hpk.
  unfold table_get. rewrite Hml, Z.shiftl_mul_pow2, Z.mul_1_l by lia.
  rewrite (proj2 (Z.leb_le 0 _)), (proj2 (Z.ltb_lt (bs_peek bs1 max) _)) by lia. cbn [andb mbind outcome_bind].
  assert (bs_peek bs1 max = bits_val (Z.to_nat max) (sbit bs)) as Hp.
  { rewrite bs_peek_spec by (done || lia). apply bits_val_ext. intros i Hi. rewrite Hs1 by lia. f_equal. lia. }
  assert (∀ l, 0 <= l <= max → bs_wf (bs_remove bs1 l) ∧ same_bits bs (bs_remove bs1 l) l) as Hrem.
  { intros l Hl. destruct (bs_remove_spec bs1 l Hwf1) as [R1 R2]; [pose proof Hwf1 as (? & _); lia|].
    split; [done|]. pose proof (same_bits_trans _ _ _ 0 l ltac:(lia) Hs1 R2) as H. by rewrite Z.add_0_r in H. }
  assert (∀ s, coded lens max s →
    bits_val (Z.to_nat (len_of lens s)) (sbit bs) = codeword lens s ↔
    sym_lo lens max s <= bs_peek bs1 max < sym_lo lens max s + sym_width lens max s) as Hrange.
  { intros s [Hs Hls]. rewrite Hp, (window_split bs (len_of lens s) max) by lia.
    pose proof (bits_val_range (Z.to_nat (max - len_of lens s)) (λ i, sbit bs (i + len_of lens s))) as Hb.
    rewrite Z2Nat.id in Hb by lia. unfold sym_lo, sym_width. split; [intros ->; lia|nia]. }
  destruct (table h !! bs_peek bs1 max) as [e|] eqn:E.
  - destruct (T2 _ _ E) as (s & Hs & Hc & -> & Hx). pose proof Hc as [_ Hls]. simpl default.
    rewrite entry_sym, entry_len by lia. destruct (Hrem (len_of lens s) ltac:(lia)) as [R1 R2].
    exists s, (bs_remove bs1 (len_of lens s)). split_and!; [done|done|done|]. left.
    split_and!; [done|by apply Hrange|done].
  - simpl default. change (Z.shiftr 0 16) with (Z.of_nat 0). change (Z.land 0 0xffff) with 0.
    destruct (Hrem 0 ltac:(lia)) as [R1 R2]. exists 0%nat, (bs_remove bs1 0).
    split_and!; [done|done|done|]. right. split_and!; [done|done|]. intros s' Hc Hb.
    apply Hrange in Hb; [|done]. rewrite (T1 s' _ (proj1 Hc) Hc Hb) in E. done.
Qed.

(** Reading the codeword bits decodes the symbol. *)
Lemma huff_decode_symbol lens max h bs s :
  0 <= max <= 16 → decodes lens max h → bs_wf bs → Z.of_nat (length lens) < 2 ^ 16 → coded lens max s →
  bits_val (Z.to_nat (len_of lens s)) (sbit bs) = codeword lens s →
  ∃ bs', huff_decode bs h = Ok (Z.of_nat s, bs') ∧ bs_wf bs' ∧ same_bits bs bs' (len_of lens s).
Proof.
  intros Hm Hd Hwf Hn Hc Hb.
  destruct (huff_decode_cases lens max h bs Hm Hd Hwf Hn) as (s' & bs' & E & Hwf' & _ & [(Hc' & Hb' & Hs')|(_ & _ & H)]).
  2:{ by apply H in Hb. }
  destruct (decide (s = s')) as [<-|Hne]; [by exists bs'|].
  exfalso. destruct Hc as [Hs Hl], Hc' as [Hs2 Hl2].
  assert (∀ a, coded lens max a → bits_val (Z.to_nat (len_of lens a)) (sbit bs) = codeword lens a →
    sym_lo lens max a <= bits_val (Z.to_nat max) (sbit bs) < sym_lo lens max a + sym_width lens max a) as Hr.
  { intros a [_ Ha] Hba. rewrite (window_split bs (len_of lens a) max) by lia. rewrite Hba.
    pose proof (bits_val_range (Z.to_nat (max - len_of lens a)) (λ i, sbit bs (i + len_of lens a))) as Hbr.
    rewrite Z2Nat.id in Hbr by lia. unfold sym_lo, sym_width. lia. }
  pose proof (Hr s ltac:(done) Hb). pose proof (Hr s' ltac:(done) Hb').
  destruct (sym_disjoint lens max s s' ltac:(done) ltac:(done) Hne); lia.
Qed.

(** ** Streams of symbols *)

(** The bits of a codeword, most significant first. *)
Definition codeword_bits (lens : list Z) (s : nat) : list bool :=
  map (λ i, Z.testbit (codeword lens s) (len_of lens s - 1 - Z.of_nat i)) (seq 0 (Z.to_nat (len_of lens s))).

Definition encode (lens : list Z) (syms : list nat) : list bool := concat (map (codeword_bits lens) syms).

(** The stream goes on with [bits]. *)
Definition spells (bs : bitstream) (bits : list bool) : Prop :=
  ∀ i b, bits !! i = Some b → sbit bs (Z.of_nat i) = b.

Fixpoint decode_n (n : nat) (bs : bitstream) (h : huff_t) : outcome (list Z * bitstream) :=
  match n with
  | O => Ok ([], bs)
  | S n' =>
      '(s, bs) ← huff_decode bs h;
      '(l, bs) ← decode_n n' bs h;
      Ok (s :: l, bs)
  end.

Lemma bs_init_wf p : bytes p → bs_wf (bs_init p).
Proof. intros Hp. split_and!; simpl; [lia|lia|unfold is_u32; lia|done|]. intros j _. apply Z.bits_0. Qed.

Lemma bits_val_testbits c n :
  (n <= 32)%nat → 0 <= c < 2 ^ Z.of_nat n → bits_val n (λ i, Z.testbit c (Z.of_nat n - 1 - i)) = c.
Proof.
  intros Hn Hc.
  assert (is_u32 (c * 2 ^ (32 - Z.of_nat n))) as Hu.
  { unfold is_u32. change 4294967296 with (2 ^ 32).
    replace (2 ^ 32) with (2 ^ Z.of_nat n * 2 ^ (32 - Z.of_nat n)) by (rewrite <- Z.pow_add_r by lia; f_equal; lia).
    assert (0 < 2 ^ (32 - Z.of_nat n)) by (apply Z.pow_pos_nonneg; lia). nia. }
  pose proof (shiftr_bits_val _ (Z.of_nat n) Hu ltac:(lia)) as H.
  rewrite Nat2Z.id, Z.shiftr_div_pow2, Z.div_mul in H by lia. etransitivity; [|symmetry; exact H].
  apply bits_val_ext. intros i Hi. rewrite <- Z.shiftl_mul_pow2, Z.shiftl_spec by lia. f_equal. lia.
Qed.

Lemma codeword_range lens max s :
  kraft_ok lens max → coded lens max s → 0 <= codeword lens s < 2 ^ len_of lens s.
Proof.
  intros Hk [Hs Hl]. destruct (rank_bound lens s Hs) as [R1 R2].
  specialize (Hk (Z.to_nat (len_of lens s)) ltac:(lia)).
  pose proof (first_code_nonneg lens (Z.to_nat (len_of lens s))).
  unfold codeword. unfold ncodes in Hk. rewrite Z2Nat.id, (proj2 (Z.eqb_neq _ 0)) in Hk by lia. lia.
Qed.

Lemma length_codeword_bits lens s : length (codeword_bits lens s) = Z.to_nat (len_of lens s).
Proof. unfold codeword_bits. by rewrite length_map, length_seq. Qed.

Lemma spells_codeword lens max bs s rest :
  max <= 16 → kraft_ok lens max → coded lens max s → spells bs (codeword_bits lens s ++ rest) →
  bits_val (Z.to_nat (len_of lens s)) (sbit bs) = codeword lens s.
Proof.
  intros Hm Hk Hc Hsp. pose proof (codeword_range lens max s Hk Hc) as Hr. pose proof Hc as [_ Hl].
  rewrite <- (bits_val_testbits (codeword lens s) (Z.to_nat (len_of lens s))) at 1; [|lia|by rewrite Z2Nat.id by lia].
  apply bits_val_ext. intros i Hi. rewrite <- (Z2Nat.id i) at 1 by lia. apply Hsp.
  rewrite lookup_app_l by (rewrite length_codeword_bits; lia). unfold codeword_bits.
  rewrite list_lookup_fmap, lookup_seq_lt by lia. simpl. do 2 f_equal. lia.
Qed.

Lemma spells_skip bs bs' l bits rest :
  Z.of_nat (length bits) = l → same_bits bs bs' l → spells bs (bits ++ rest) → spells bs' rest.
Proof.
  intros Hl Hs Hsp i b Hi. rewrite Hs by lia. replace (Z.of_nat i + l) with (Z.of_nat (length bits + i)) by lia.
  apply Hsp. rewrite lookup_app_r by lia. rewrite <- Hi. f_equal. lia.
Qed.

Lemma decode_n_spells lens max h syms bs :
  0 <= max <= 16 → decodes lens max h → Z.of_nat (length lens) < 2 ^ 16 →
  bs_wf bs → Forall (coded lens max) syms → spells bs (encode lens syms) →
  ∃ bs', decode_n (length syms) bs h = Ok (map Z.of_nat syms, bs') ∧
    same_bits bs bs' (Z.of_nat (length (encode lens syms))).
Proof.
  intros Hm Hd Hn. revert bs. induction syms as [|s syms IH]; intros bs Hwf Hc Hsp; cbn [decode_n length map].
  { exists bs. split; [done|]. intros i Hi. simpl. f_equal. lia. }
  inversion Hc as [|? ? Hs Hc']; subst. unfold encode in Hsp. cbn [map concat] in Hsp.
  pose proof Hd as (_ & _ & Hk & _).
  pose proof (spells_codeword lens max bs s _ ltac:(lia) Hk Hs Hsp) as Hb.
  destruct (huff_decode_symbol lens max h bs s Hm Hd Hwf Hn Hs Hb) as (bs1 & E1 & Hwf1 & Hs1).
  pose proof Hs as [_ Hl]. pose proof (length_codeword_bits lens s) as Hlen.
  apply (spells_skip bs bs1 (len_of lens s)) in Hsp; [|lia|done].
  destruct (IH bs1 Hwf1 Hc' Hsp) as (bs2 & E2 & Hs2).
  exists bs2. rewrite E1. cbn [mbind outcome_bind]. rewrite E2. split; [done|].
  unfold encode in *. cbn [map concat]. rewrite length_app, Hlen.
  replace (Z.of_nat (Z.to_nat (len_of lens s) + length (concat (map (codeword_bits lens) syms))))
    with (Z.of_nat (length (concat (map (codeword_bits lens) syms))) + len_of lens s) by lia.
  apply (same_bits_trans bs bs1 bs2); [lia|done|done].
Qed.

(** C26. Canonical Huffman decoding inverts the encoding.  When [huff_build]
    accepts a set of code lengths, decoding a stream that spells the canonical
    codewords of any sequence of symbols ((length, symbol) order, most
    significant bit first) delivers exactly those symbols and consumes exactly
    those bits, whatever follows. *)
Theorem huff_roundtrip lens max h p syms :
  0 <= max <= 16 → bytes lens → Z.of_nat (length lens) < 2 ^ 16 → huff_build lens max = Ok h →
  bytes p → Forall (coded lens max) syms → spells (bs_init p) (encode lens syms) →
  ∃ bs', decode_n (length syms) (bs_init p) h = Ok (map Z.of_nat syms, bs') ∧
    same_bits (bs_init p) bs' (Z.of_nat (length (encode lens syms))).
Proof.
  intros Hm Hl Hn Hh Hp Hc Hsp.
  assert (Forall (λ l, 0 <= l) lens) as Hpos by (eapply Forall_impl; [exact Hl|intros x []; lia]).
  pose proof (huff_build_spec lens max Hm Hpos Hn) as Hs. rewrite Hh in Hs. simpl in Hs.
  apply (decode_n_spells lens max); [done|done|done|by apply bs_init_wf|done|done].
Qed.

(** Lengths 1, 2, 2: codewords 0, 10, 11; the stream 0 10 11 0 is the unit 0x5800. *)
Lemma huff_roundtrip_witness :
  ∃ h bs', huff_build [1; 2; 2] 3 = Ok h ∧
    decode_n 4 (bs_init [0; 0x58]) h = Ok ([0; 1; 2; 0], bs').
Proof.
  destruct (huff_build [1; 2; 2] 3) as [h| | |] eqn:E; [|vm_compute in E; discriminate E..].
  destruct (huff_roundtrip [1; 2; 2] 3 h [0; 0x58] [0; 1; 2; 0]%nat) as (bs' & H & _).
  - lia.
  - repeat constructor; unfold is_byte; lia.
  - simpl. lia.
  - exact E.
  - repeat constructor; unfold is_byte; lia.
  - repeat constructor; unfold coded, len_of; simpl; lia.
  - intros i b. vm_compute encode. do 6 (destruct i as [|i]; [simpl; intros [= <-]; reflexivity|]). done.
  - exists h, bs'. split; [reflexivity|exact H].
Defined.
