(* ===== verification/Lzx.v ===== *)
(** * The LZX chunk decompressor ([src/tools/iso-patch-mac/engine/lzx.c])

    Shown to be memory safe and to terminate on every input: whatever the bytes
    of a chunk, [lzx_decompress] reports an error or produces exactly the bytes
    asked for, without reading or writing outside its buffers. *)

From stdpp Require Import gmap.
From S2P Require Import Prelude Bytes Outcome Huffman.

Definition LZX_NUM_MAIN_SYMS : Z := 496.
Definition LZX_NUM_LEN_SYMS : Z := 249.
Definition LZX_NUM_ALIGNED : Z := 8.
Definition LZX_MIN_ALIGNED_SLOT : Z := 8.
Definition LZX_WIM_E8_FILESIZE : Z := 12000000.

Definition lzx_offset_slot_base : list Z := [
  -2;-1;0;1;2; 4;6;10;14;22; 30;46;62;94;126; 190;254;382;510;766;
  1022;1534;2046;3070;4094; 6142;8190;12286;16382;24574; 32766;49150;65534;98302;131070;
  196606;262142;393214;524286;655358; 786430;917502;1048574;1179646;1310718;
  1441790;1572862;1703934;1835006;1966078; 2097150].

Definition lzx_extra_offset_bits : list Z := [
  0;0;0;0;1; 1;2;2;3;3; 4;4;5;5;6; 6;7;7;8;8;
  9;9;10;10;11; 11;12;12;13;13; 14;14;15;15;16; 16;17;17;17;17;
  17;17;17;17;17; 17;17;17;17;17].

(** ** Code lengths *)

(** [for (i = 0; i < n; i++) out[i] = bs_read(bs, w)]. *)
Fixpoint read_fields (n : nat) (w : Z) (bs : bitstream) : list Z * bitstream :=
  match n with
  | O => ([], bs)
  | S n' =>
      let '(v, bs) := bs_read bs w in
      let '(l, bs) := read_fields n' w bs in
      (u8 v :: l, bs)
  end.

(** [while (run-- && i < num_lens) lens[i++] = v]. *)
Fixpoint set_run (run : nat) (lens : list Z) (i v : Z) : outcome (list Z * Z) :=
  match run with
  | O => Ok (lens, i)
  | S run' =>
      if i <? Z.of_nat (length lens) then
        lens ← arr_put lens i v;
        set_run run' lens (i + 1) v
      else Ok (lens, i)
  end.

(** The previous length less the delta, modulo 17. *)
Definition delta_len (len ps : Z) : Z :=
  let v := len - ps in if v <? 0 then v + 17 else v.

(** [while (i < num_lens)]; [num_lens] is the length of [lens]. *)
Fixpoint lens_loop (fuel : nat) (pc : huff_t) (bs : bitstream) (lens : list Z) (i : Z) : outcome (list Z * bitstream) :=
  if Z.of_nat (length lens) <=? i then Ok (lens, bs) else
  match fuel with
  | O => Spin
  | S fuel' =>
      '(ps, bs) ← huff_decode bs pc;
      if ps <? 17 then
        l ← arr_get lens i;
        lens ← arr_put lens i (u8 (delta_len l ps));
        lens_loop fuel' pc bs lens (i + 1)
      else if ps =? 17 then
        let '(r, bs) := bs_read bs 4 in
        '(lens, i) ← set_run (Z.to_nat (4 + r)) lens i 0;
        lens_loop fuel' pc bs lens i
      else if ps =? 18 then
        let '(r, bs) := bs_read bs 5 in
        '(lens, i) ← set_run (Z.to_nat (20 + r)) lens i 0;
        lens_loop fuel' pc bs lens i
      else
        let '(r, bs) := bs_read bs 1 in
        '(ps2, bs) ← huff_decode bs pc;
        fail_if (17 <? ps2) (-1) (
        l ← arr_get lens i;
        '(lens, i) ← set_run (Z.to_nat (4 + r)) lens i (u8 (delta_len l ps2));
        lens_loop fuel' pc bs lens i)
  end.

Definition lzx_read_lens (bs : bitstream) (lens : list Z) : outcome (list Z * bitstream) :=
  let '(pre, bs) := read_fields 20 4 bs in
  pc ← huff_build pre 15;
  lens_loop (length lens) pc bs lens 0.

(** ** E8 translation *)

Definition put32 (data : list Z) (i v : Z) : outcome (list Z) :=
  data ← arr_put data (i + 1) (u8 v);
  data ← arr_put data (i + 2) (u8 (Z.shiftr v 8));
  data ← arr_put data (i + 3) (u8 (Z.shiftr v 16));
  arr_put data (i + 4) (u8 (Z.shiftr v 24)).

(** The absolute target of a call, made relative again; [None]: left alone. *)
Definition e8_rel (abs_val pos : Z) : option Z :=
  if (0 <=? abs_val) && (abs_val <? LZX_WIM_E8_FILESIZE) then Some (abs_val - pos)
  else if (abs_val <? 0) && (- pos <=? abs_val) then Some (abs_val + LZX_WIM_E8_FILESIZE)
  else None.

(** [do { ... } while (i < end)]. *)
Fixpoint e8_loop (fuel : nat) (data : list Z) (i end_ : Z) : outcome (list Z) :=
  match fuel with
  | O => Spin
  | S fuel' =>
      b ← at_ data i;
      '(data, i) ← (if b =? 0xE8 then
          b1 ← at_ data (i + 1); b2 ← at_ data (i + 2); b3 ← at_ data (i + 3); b4 ← at_ data (i + 4);
          let abs_val := i32 (Z.lor (Z.lor (Z.lor b1 (Z.shiftl b2 8)) (Z.shiftl b3 16)) (Z.shiftl b4 24)) in
          match e8_rel abs_val (i32 i) with
          | Some rel => data ← put32 data i rel; Ok (data, i + 5)
          | None => Ok (data, i + 5)
          end
        else Ok (data, i + 1));
      if i <? end_ then e8_loop fuel' data i end_ else Ok data
  end.

Definition lzx_e8_postprocess (data : list Z) : outcome (list Z) :=
  let size := Z.of_nat (length data) in
  if size <=? 10 then Ok data else e8_loop (length data) data 0 (size - 10).

(** ** Decompression *)

Record lzx_state := mkLzx {
  l_bs : bitstream;
  l_out : list Z;                  (* the first [pos] bytes of the output *)
  l_recent : Z * Z * Z;
  l_main : list Z;                 (* maincode_lens *)
  l_len : list Z;                  (* lencode_lens *)
  l_e8 : bool;                     (* may_have_e8 *)
}.

Definition recent_at (r : Z * Z * Z) (slot : Z) : Z :=
  let '(r0, r1, r2) := r in if slot =? 0 then r0 else if slot =? 1 then r1 else r2.

(** [recent[slot] = recent[0]; recent[0] = offset]. *)
Definition recent_use (r : Z * Z * Z) (slot offset : Z) : Z * Z * Z :=
  let '(r0, r1, r2) := r in
  if slot =? 0 then (offset, r1, r2) else if slot =? 1 then (offset, r0, r2) else (offset, r1, r0).

Definition recent_push (r : Z * Z * Z) (offset : Z) : Z * Z * Z :=
  let '(r0, r1, r2) := r in (offset, r0, r1).

(** The match offset that slot [slot] encodes and the queue after it. *)
Definition read_offset (alignedc : option huff_t) (bs : bitstream) (recent : Z * Z * Z) (slot : Z)
  : outcome (Z * (Z * Z * Z) * bitstream) :=
  if slot <? 3 then
    let offset := recent_at recent slot in
    Ok (offset, recent_use recent slot offset, bs)
  else
    extra ← (if slot <? 50 then Ok (bget lzx_extra_offset_bits slot) else Fault);
    '(offset, bs) ← (match alignedc with
      | Some ac =>
          if LZX_MIN_ALIGNED_SLOT <=? slot then
            let '(v, bs) := bs_read bs (extra - 3) in
            '(a, bs) ← huff_decode bs ac;
            Ok (Z.lor (u32 (Z.shiftl v 3)) a, bs)
          else Ok (bs_read bs extra)
      | None => Ok (bs_read bs extra)
      end);
    let offset := u32 (i32 offset + nth (Z.to_nat slot) lzx_offset_slot_base 0) in
    Ok (offset, recent_push recent offset, bs).

(** [while (pos < block_end)]: literals and matches. *)
Fixpoint block_loop (fuel : nat) (mainc lenc : huff_t) (alignedc : option huff_t) (block_end out_size : Z)
    (bs : bitstream) (out : list Z) (recent : Z * Z * Z) : outcome (bitstream * list Z * (Z * Z * Z)) :=
  if block_end <=? Z.of_nat (length out) then Ok (bs, out, recent) else
  match fuel with
  | O => Spin
  | S fuel' =>
      '(sym, bs) ← huff_decode bs mainc;
      if sym <? 256 then
        out ← push out_size out (u8 sym);
        block_loop fuel' mainc lenc alignedc block_end out_size bs out recent
      else
        let length0 := Z.land (sym - 256) 7 in
        let slot := Z.shiftr (sym - 256) 3 in
        '(length1, bs) ← (if length0 =? 7 then '(l, bs) ← huff_decode bs lenc; Ok (length0 + l, bs)
                          else Ok (length0, bs));
        let len := length1 + 2 in
        '(offset, recent, bs) ← read_offset alignedc bs recent slot;
        fail_if ((offset =? 0) || (Z.of_nat (length out) <? offset) ||
                 (out_size <? u64 (Z.of_nat (length out) + len))) (-1) (
        out ← lz_copy (Z.to_nat len) out_size out offset;
        block_loop fuel' mainc lenc alignedc block_end out_size bs out recent)
  end.

(** [memcpy(out + pos, bs.next, bsize); bs.next += bsize]. *)
Definition copy_stored (bs : bitstream) (out : list Z) (bsize out_size : Z) : outcome (list Z * bitstream) :=
  bytes ← slice (next bs) 0 bsize;
  if Z.of_nat (length out) + bsize <=? out_size
  then Ok (out ++ bytes, mkBs (bitbuf bs) (bitsleft bs) (drop (Z.to_nat bsize) (next bs))) else Fault.

Definition uncompressed_block (st : lzx_state) (bs : bitstream) (bsize out_size : Z) : outcome lzx_state :=
  let bs := bs_align (bs_ensure bs 1) in
  let '(r0, bs) := bs_read_u32 bs in
  let '(r1, bs) := bs_read_u32 bs in
  let '(r2, bs) := bs_read_u32 bs in
  fail_if ((r0 =? 0) || (r1 =? 0) || (r2 =? 0)) (-1) (
  fail_if (bs_bytes_left bs <? bsize) (-1) (
  '(out, bs) ← copy_stored bs (l_out st) bsize out_size;
  let bs := if (Z.land bsize 1 =? 1) && (0 <? Z.of_nat (length (next bs)))
            then mkBs (bitbuf bs) (bitsleft bs) (drop 1 (next bs)) else bs in
  Ok (mkLzx bs out (r0, r1, r2) (l_main st) (l_len st) true))).

Definition compressed_block (st : lzx_state) (bs : bitstream) (btype block_end out_size : Z) : outcome lzx_state :=
  let '(aligned_lens, bs) := if btype =? 2 then read_fields 8 3 bs else ([], bs) in
  '(main1, bs) ← lzx_read_lens bs (take 256 (l_main st));
  '(main2, bs) ← lzx_read_lens bs (drop 256 (l_main st));
  '(lens, bs) ← lzx_read_lens bs (l_len st);
  let main := main1 ++ main2 in
  e ← at_ main 0xE8;
  let e8 := if negb (e =? 0) then true else l_e8 st in
  mainc ← huff_build main 16;
  lenc ← huff_build lens 16;
  alignedc ← (if btype =? 2 then ac ← huff_build aligned_lens 7; Ok (Some ac) else Ok None);
  '(bs, out, recent) ←
    block_loop (Z.to_nat out_size) mainc lenc alignedc block_end out_size bs (l_out st) (l_recent st);
  Ok (mkLzx bs out recent main lens e8).

(** One iteration of [while (pos < out_size)]. *)
Definition lzx_block (st : lzx_state) (out_size : Z) : outcome lzx_state :=
  let bs := bs_ensure (l_bs st) 4 in
  let '(btype, bs) := bs_read bs 3 in
  let '(dflt, bs) := bs_read bs 1 in
  let '(bsize, bs) := if negb (dflt =? 0) then (32768, bs) else bs_read bs 16 in
  let pos := Z.of_nat (length (l_out st)) in
  fail_if ((bsize =? 0) || (out_size <? u64 (pos + bsize))) (-1) (
  if btype =? 3 then uncompressed_block st bs bsize out_size
  else fail_if (negb (btype =? 1) && negb (btype =? 2)) (-1)
    (compressed_block st bs btype (u64 (pos + bsize)) out_size)).

Fixpoint blocks (fuel : nat) (st : lzx_state) (out_size : Z) : outcome lzx_state :=
  if out_size <=? Z.of_nat (length (l_out st)) then Ok st else
  match fuel with
  | O => Spin
  | S fuel' => st ← lzx_block st out_size; blocks fuel' st out_size
  end.

Definition lzx_decompress (cin : list Z) (out_size : Z) : outcome (list Z) :=
  st ← blocks (Z.to_nat out_size)
    (mkLzx (bs_init cin) [] (1, 1, 1) (replicate (Z.to_nat LZX_NUM_MAIN_SYMS) 0)
       (replicate (Z.to_nat LZX_NUM_LEN_SYMS) 0) false) out_size;
  if l_e8 st then lzx_e8_postprocess (l_out st) else Ok (l_out st).

(** ** Reading never leaves the stream *)

Lemma bs_read_wf bs n :
  bs_wf bs → 0 <= n <= 17 → 0 <= (bs_read bs n).1 < 2 ^ n ∧ bs_wf (bs_read bs n).2.
Proof.
  intros Hwf Hn. destruct (bs_read bs n) as [v bs'] eqn:E.
  destruct (bs_read_spec bs n v bs' Hwf Hn E) as (_ & ? & ? & _). done.
Qed.

(** Name the result of a read. *)
Ltac read_bits bs n v bs' :=
  let Hw := fresh "Hwf" in let Hv := fresh "Hv" in let E := fresh "E" in
  destruct (bs_read bs n) as [v bs'] eqn:E;
  destruct (bs_read_spec bs n v bs' ltac:(assumption) ltac:(lia) E) as (_ & Hv & Hw & _ & _); clear E.

Lemma read_fields_wf n w bs :
  bs_wf bs → 0 <= w <= 17 →
  length (read_fields n w bs).1 = n ∧ bytes (read_fields n w bs).1 ∧ bs_wf (read_fields n w bs).2.
Proof.
  intros Hwf Hw. revert bs Hwf. induction n as [|n IH]; intros bs Hwf; cbn [read_fields]; [done|].
  read_bits bs w v bs1. specialize (IH bs1 Hwf0). destruct (read_fields n w bs1) as [l bs2].
  destruct IH as (H1 & H2 & H3). cbn [fst snd] in *. split_and!; [simpl; lia|constructor; auto with asb|done].
Qed.

Lemma bytes_nonneg l : bytes l → Forall (λ x, 0 <= x) l.
Proof. intros H. eapply Forall_impl; [exact H|]. intros x Hx. apply Hx. Qed.

Lemma safe_huff_decode lens max h bs :
  0 <= max <= 16 → decodes lens max h → bs_wf bs → Z.of_nat (length lens) < 2 ^ 16 →
  safe (λ '(s, bs'), (s = 0 ∨ 0 <= s < Z.of_nat (length lens)) ∧ bs_wf bs') (huff_decode bs h).
Proof.
  intros Hm Hd Hwf Hn.
  destruct (huff_decode_cases lens max h bs Hm Hd Hwf Hn) as (s & bs' & -> & Hwf' & _ & [([Hs _] & _)|(-> & _)]);
    simpl; (split; [lia|done]).
Qed.

(** ** The code lengths stay at most 16 *)

Definition lens_ok (lens : list Z) : Prop := Forall (λ l, 0 <= l <= 16) lens.

Lemma lens_ok_nonneg lens : lens_ok lens → Forall (λ x, 0 <= x) lens.
Proof. intros H. eapply Forall_impl; [exact H|]. simpl. lia. Qed.

Lemma lens_ok_get lens i : lens_ok lens → 0 <= bget lens i <= 16.
Proof.
  intros H. unfold bget. destruct (nth_in_or_default (Z.to_nat i) lens 0) as [Hin| ->]; [|lia].
  exact (proj1 (List.Forall_forall _ _) H _ Hin).
Qed.

Lemma lens_ok_insert lens i v : lens_ok lens → 0 <= v <= 16 → lens_ok (<[i := v]> lens).
Proof. intros H Hv. by apply Forall_insert. Qed.

Lemma set_run_spec run lens i v :
  lens_ok lens → 0 <= v <= 16 → 0 <= i →
  safe (λ '(lens', i'), lens_ok lens' ∧ length lens' = length lens ∧ i <= i' ∧
    ((0 < run)%nat → i < Z.of_nat (length lens) → i < i')) (set_run run lens i v).
Proof.
  intros Hl Hv. revert lens i Hl. induction run as [|run IH]; intros lens i Hl Hi; cbn [set_run].
  { simpl. split_and!; [done..|lia|lia]. }
  destruct (Z.ltb_spec i (Z.of_nat (length lens))); [|simpl; split_and!; [done|done|lia|lia]].
  eapply safe_bind; [apply (safe_arr_put _ _ _ (λ a, a = <[Z.to_nat i := v]> lens)); [lia|done]|]. intros ? ->.
  eapply safe_mono; [apply IH; [by apply lens_ok_insert|lia]|].
  intros [lens' i'] (H1 & H2 & H3 & _). rewrite length_insert in H2. split_and!; [done|done|lia|lia].
Qed.

Lemma delta_len_range l ps : 0 <= l <= 16 → 0 <= ps <= 17 → 0 <= u8 (delta_len l ps) <= 16.
Proof.
  intros Hl Hp. unfold delta_len. destruct (Z.ltb_spec (l - ps) 0).
  - rewrite u8_small; lia.
  - rewrite u8_small; lia.
Qed.

Lemma lens_loop_spec pre pc fuel bs lens i :
  decodes pre 15 pc → length pre = 20%nat → bs_wf bs → lens_ok lens → 0 <= i →
  Z.of_nat (length lens) - i <= Z.of_nat fuel →
  safe (λ '(lens', bs'), lens_ok lens' ∧ length lens' = length lens ∧ bs_wf bs') (lens_loop fuel pc bs lens i).
Proof.
  intros Hpc Hpre. revert bs lens i.
  induction fuel as [|fuel IH]; intros bs lens i Hwf Hl Hi Hf; cbn [lens_loop];
    (destruct (Z.leb_spec (Z.of_nat (length lens)) i) as [|Hlt]; [simpl; done|]); [lia|].
  eapply safe_bind; [apply (safe_huff_decode pre 15); [lia|done|done|lia]|]. intros [ps bs1] [Hps Hwf1].
  (* a run that makes progress *)
  assert (∀ run v bs2, bs_wf bs2 → (0 < run)%nat → 0 <= v <= 16 →
    safe (λ '(lens', bs'), lens_ok lens' ∧ length lens' = length lens ∧ bs_wf bs')
      ('(lens, i) ← set_run run lens i v; lens_loop fuel pc bs2 lens i)) as Hrun.
  { intros run v bs2 Hwf2 Hr Hv. eapply safe_bind; [apply set_run_spec; [done|done|lia]|].
    intros [lens' i'] (H1 & H2 & H3 & H4). eapply safe_mono; [apply IH; [done|done|lia|lia]|].
    intros [l3 bs3]. rewrite H2. done. }
  destruct (Z.ltb_spec ps 17).
  { eapply safe_bind; [apply (safe_arr_get _ _ (λ c, c = bget lens i)); [lia|done]|]. intros l ->.
    pose proof (lens_ok_get lens i Hl).
    eapply safe_bind; [apply (safe_arr_put _ _ _ (λ a, a = <[Z.to_nat i := u8 (delta_len (bget lens i) ps)]> lens)); [lia|done]|].
    intros ? ->. eapply safe_mono; [apply IH; [done|apply lens_ok_insert; [done|apply delta_len_range; lia]|lia|rewrite length_insert; lia]|].
    intros [l3 bs3]. by rewrite length_insert. }
  destruct (Z.eqb_spec ps 17); [read_bits bs1 4 r bs2; apply Hrun; [done|lia|lia]|].
  destruct (Z.eqb_spec ps 18); [read_bits bs1 5 r bs2; apply Hrun; [done|lia|lia]|].
  read_bits bs1 1 r bs2.
  eapply safe_bind; [apply (safe_huff_decode pre 15); [lia|done|done|lia]|]. intros [ps2 bs3] [Hps2 Hwf3].
  apply safe_fail_if. intros E. zbool.
  eapply safe_bind; [apply (safe_arr_get _ _ (λ c, c = bget lens i)); [lia|done]|]. intros l ->.
  apply Hrun; [done|lia|]. apply delta_len_range; [by apply lens_ok_get|lia].
Qed.

Lemma lzx_read_lens_spec bs lens :
  bs_wf bs → lens_ok lens →
  safe (λ '(lens', bs'), lens_ok lens' ∧ length lens' = length lens ∧ bs_wf bs') (lzx_read_lens bs lens).
Proof.
  intros Hwf Hl. unfold lzx_read_lens. destruct (read_fields 20 4 bs) as [pre bs1] eqn:E.
  destruct (read_fields_wf 20 4 bs Hwf ltac:(lia)) as (H1 & H2 & H3). rewrite E in H1, H2, H3. cbn [fst snd] in *.
  eapply safe_bind; [apply huff_build_spec; [lia|by apply bytes_nonneg|lia]|]. intros pc Hpc.
  apply (lens_loop_spec pre); [done|done|done|done|lia|lia].
Qed.

(** ** E8 translation *)

Lemma arr_put_ok a i v :
  0 <= i < Z.of_nat (length a) → arr_put a i v = Ok (<[Z.to_nat i := v]> a).
Proof. intros. unfold arr_put. by rewrite (proj2 (Z.leb_le 0 i)), (proj2 (Z.ltb_lt i _)) by lia. Qed.

Lemma at_ok a i : 0 <= i < Z.of_nat (length a) → at_ a i = Ok (bget a i).
Proof. intros. unfold at_. by rewrite (proj2 (Z.leb_le 0 i)), (proj2 (Z.ltb_lt i _)) by lia. Qed.

Lemma bytes_insert l i v : bytes l → is_byte v → bytes (<[i := v]> l).
Proof. intros. by apply Forall_insert. Qed.
#[export] Hint Resolve bytes_insert : asb.

Lemma put32_spec data i v :
  bytes data → 0 <= i → i + 4 < Z.of_nat (length data) →
  safe (λ data', bytes data' ∧ length data' = length data) (put32 data i v).
Proof.
  intros Hb Hi Hn. unfold put32.
  do 3 (rewrite arr_put_ok by (rewrite ?length_insert; lia); cbn [mbind outcome_bind]).
  rewrite arr_put_ok by (rewrite ?length_insert; lia). simpl.
  split; [auto 10 with asb|by rewrite !length_insert].
Qed.

Lemma e8_loop_spec fuel data i end_ :
  bytes data → 0 <= i <= end_ → end_ + 5 <= Z.of_nat (length data) → (1 <= fuel)%nat → end_ - i < Z.of_nat fuel →
  safe (λ data', bytes data' ∧ length data' = length data) (e8_loop fuel data i end_).
Proof.
  revert data i. induction fuel as [|fuel IH]; intros data i Hb Hi He Hf1 Hf; [lia|]. cbn [e8_loop].
  rewrite (at_ok data i) by lia. cbn [mbind outcome_bind].
  eapply (safe_bind (λ '(d, i'), bytes d ∧ length d = length data ∧ i < i')).
  - destruct (_ =? 0xE8); [|simpl; split_and!; [done|done|lia]].
    rewrite !at_ok by lia. cbn [mbind outcome_bind].
    destruct (e8_rel _ _) as [rel|]; [|simpl; split_and!; [done|done|lia]].
    eapply safe_bind; [apply put32_spec; [done|lia|lia]|]. intros d [H1 H2]. simpl. split_and!; [done|done|lia].
  - intros [d i'] (H1 & H2 & H3). destruct (Z.ltb_spec i' end_); [|simpl; done].
    eapply safe_mono; [apply IH; [done|lia|lia|lia|lia]|]. intros d' [? ->]. done.
Qed.

Lemma lzx_e8_spec data :
  bytes data → safe (λ data', bytes data' ∧ length data' = length data) (lzx_e8_postprocess data).
Proof.
  intros Hb. unfold lzx_e8_postprocess. destruct (Z.leb_spec (Z.of_nat (length data)) 10); [simpl; done|].
  apply e8_loop_spec; [done|lia..].
Qed.

(** ** Blocks *)

Lemma safe_push size out b :
  bytes out → is_byte b → Z.of_nat (length out) < size →
  safe (λ out', bytes out' ∧ length out' = S (length out)) (push size out b).
Proof.
  intros Ho Hb Hl. unfold push. rewrite (proj2 (Z.ltb_lt _ size)) by lia. simpl.
  split; [apply Forall_app; split; [done|by constructor]|rewrite length_app; simpl; lia].
Qed.

Lemma lz_copy_spec len size out off :
  bytes out → 0 < off <= Z.of_nat (length out) → Z.of_nat (length out) + Z.of_nat len <= size →
  safe (λ out', bytes out' ∧ length out' = (length out + len)%nat) (lz_copy len size out off).
Proof.
  revert out. induction len as [|len IH]; intros out Hb Ho Hs; cbn [lz_copy]; [simpl; split; [done|lia]|].
  eapply safe_bind; [apply safe_at; [done|lia]|]. intros b Hbb.
  eapply safe_bind; [apply safe_push; [done|done|lia]|]. intros out1 [H1 H2].
  eapply safe_mono; [apply IH; [done|lia|lia]|]. intros out2 [H3 H4]. split; [done|lia].
Qed.

Definition recent_ok (r : Z * Z * Z) : Prop := let '(r0, r1, r2) := r in 0 <= r0 ∧ 0 <= r1 ∧ 0 <= r2.

Lemma recent_at_ok r slot : recent_ok r → 0 <= recent_at r slot.
Proof. destruct r as [[r0 r1] r2]. simpl. intros (? & ? & ?). by bcases. Qed.
Lemma recent_use_ok r slot o : recent_ok r → 0 <= o → recent_ok (recent_use r slot o).
Proof. destruct r as [[r0 r1] r2]. unfold recent_ok, recent_use. intros (? & ? & ?) ?. by bcases. Qed.
Lemma recent_push_ok r o : recent_ok r → 0 <= o → recent_ok (recent_push r o).
Proof. destruct r as [[r0 r1] r2]. simpl. intros (? & ? & ?) ?. done. Qed.

Lemma extra_bits_range slot :
  0 <= slot < 50 → 0 <= bget lzx_extra_offset_bits slot <= 17 ∧ (8 <= slot → 3 <= bget lzx_extra_offset_bits slot).
Proof.
  intros Hs. assert (forallb (λ i, (0 <=? bget lzx_extra_offset_bits i) && (bget lzx_extra_offset_bits i <=? 17) &&
    ((i <? 8) || (3 <=? bget lzx_extra_offset_bits i))) (seqZ 0 50) = true) as H by (vm_compute; reflexivity).
  rewrite forallb_forall in H. specialize (H slot). rewrite <- list_elem_of_In, elem_of_seqZ in H. specialize (H ltac:(lia)).
  apply andb_true_iff in H as [H H3]. zbool. split; [lia|]. intros. destruct H3; lia.
Qed.

(** The aligned-offset code of a block, when it has one. *)
Definition aligned_ok (ac : option huff_t) : Prop :=
  match ac with Some h => ∃ lens, length lens = 8%nat ∧ decodes lens 7 h | None => True end.

Lemma read_offset_spec ac bs recent slot :
  aligned_ok ac → bs_wf bs → recent_ok recent → 0 <= slot < 50 →
  safe (λ '(o, r, bs'), 0 <= o ∧ recent_ok r ∧ bs_wf bs') (read_offset ac bs recent slot).
Proof.
  intros Hac Hwf Hr Hs. unfold read_offset. destruct (Z.ltb_spec slot 3).
  { simpl. split_and!; [by apply recent_at_ok|apply recent_use_ok; [done|by apply recent_at_ok]|done]. }
  rewrite (proj2 (Z.ltb_lt slot 50)) by lia. cbn [mbind outcome_bind].
  destruct (extra_bits_range slot Hs) as [He1 He2].
  eapply (safe_bind (λ '(o, bs'), bs_wf bs')).
  - assert (bs_wf (bs_read bs (bget lzx_extra_offset_bits slot)).2) as Hplain
      by (apply (bs_read_wf bs (bget lzx_extra_offset_bits slot) Hwf); lia).
    assert (safe (λ '(o, bs'), bs_wf bs') (Ok (bs_read bs (bget lzx_extra_offset_bits slot)))) as Hp
      by (destruct (bs_read bs _); exact Hplain).
    destruct ac as [h|]; [|exact Hp]. destruct Hac as (lens & Hlen & Hd).
    unfold LZX_MIN_ALIGNED_SLOT. destruct (Z.leb_spec 8 slot); [|exact Hp].
    read_bits bs (bget lzx_extra_offset_bits slot - 3) v bs1.
    eapply safe_bind; [apply (safe_huff_decode lens 7); [lia|done|done|lia]|]. intros [a bs2] [_ Hwf2]. done.
  - intros [o bs'] Hwf'. simpl. pose proof (u32_range (i32 o + nth (Z.to_nat slot) lzx_offset_slot_base 0)) as [? _].
    split_and!; [done|by apply recent_push_ok|done].
Qed.

Lemma block_loop_spec main lens mainc lenc ac block_end out_size fuel bs out recent :
  decodes main 16 mainc → length main = 496%nat → decodes lens 16 lenc → length lens = 249%nat → aligned_ok ac →
  block_end <= out_size <= 2 ^ 31 →
  bs_wf bs → bytes out → recent_ok recent → Z.of_nat (length out) <= out_size →
  block_end - Z.of_nat (length out) <= Z.of_nat fuel →
  safe (λ '(bs', out', r'), bs_wf bs' ∧ bytes out' ∧ recent_ok r' ∧
      Z.of_nat (length out') <= out_size ∧ block_end <= Z.of_nat (length out'))
    (block_loop fuel mainc lenc ac block_end out_size bs out recent).
Proof.
  intros Hm Hml Hl Hll Hac Hbe. revert bs out recent.
  induction fuel as [|fuel IH]; intros bs out recent Hwf Ho Hr Hs Hf; cbn [block_loop];
    (destruct (Z.leb_spec block_end (Z.of_nat (length out))) as [|Hlt]; [simpl; done|]); [lia|].
  eapply safe_bind; [apply (safe_huff_decode main 16); [lia|done|done|lia]|]. intros [sym bs1] [Hsym Hwf1].
  destruct (Z.ltb_spec sym 256).
  { eapply safe_bind; [apply safe_push; [done|apply u8_byte|lia]|]. intros out1 [H1 H2].
    apply IH; [done|done|done|lia|lia]. }
  assert (0 <= Z.land (sym - 256) 7 < 8) as Hlen0.
  { rewrite (land_mask _ 7 3) by lia. change (2 ^ 3) with 8. apply Z.mod_pos_bound. lia. }
  assert (0 <= Z.shiftr (sym - 256) 3 < 50) as Hslot.
  { rewrite Z.shiftr_div_pow2 by lia. change (2 ^ 3) with 8. split; [apply Z.div_pos; lia|apply Z.div_lt_upper_bound; lia]. }
  eapply (safe_bind (λ '(l, bs'), 0 <= l < 300 ∧ bs_wf bs')).
  { destruct (Z.eqb_spec (Z.land (sym - 256) 7) 7); [|simpl; split; [lia|done]].
    eapply safe_bind; [apply (safe_huff_decode lens 16); [lia|done|done|lia]|]. intros [l bs2] [Hl2 Hwf2].
    simpl. split; [lia|done]. }
  intros [l bs2] [Hl2 Hwf2].
  eapply safe_bind; [by apply read_offset_spec|]. intros [[o r] bs3] (Ho3 & Hr3 & Hwf3).
  apply safe_fail_if. intros E. apply orb_false_iff in E as [E E3]. zbool.
  change (2 ^ 31) with 2147483648 in *. rewrite u64_small in E3 by lia.
  eapply safe_bind; [apply lz_copy_spec; [done|lia|rewrite Z2Nat.id by lia; lia]|]. intros out1 [HA HB].
  apply IH; [done|done|done|lia|lia].
Qed.

(** ** The decoder's state *)

Record lzx_ok (out_size : Z) (st : lzx_state) : Prop := {
  ok_bs : bs_wf (l_bs st);
  ok_out : bytes (l_out st);
  ok_pos : Z.of_nat (length (l_out st)) <= out_size;
  ok_recent : recent_ok (l_recent st);
  ok_main : lens_ok (l_main st) ∧ length (l_main st) = 496%nat;
  ok_len : lens_ok (l_len st) ∧ length (l_len st) = 249%nat;
}.

Lemma bs_align_wf bs : bs_wf bs → bs_wf (bs_align bs).
Proof. intros (_ & _ & Hn & _). split_and!; simpl; [lia|lia|unfold is_u32; lia|done|]. intros. apply Z.bits_0. Qed.

Lemma bs_advance_wf bs k : bs_wf bs → bs_wf (mkBs (bitbuf bs) (bitsleft bs) (drop k (next bs))).
Proof. intros (H1 & H2 & H3 & H4). split_and!; simpl; [lia|lia|done|by apply Forall_drop|done]. Qed.

Lemma bs_read_u32_wf bs : bs_wf bs → 0 <= (bs_read_u32 bs).1 ∧ bs_wf (bs_read_u32 bs).2.
Proof.
  intros Hwf. unfold bs_read_u32. destruct (Z.ltb_spec (Z.of_nat (length (next bs))) 4); [simpl; split; [lia|done]|].
  cbn [fst snd]. split; [|by apply bs_advance_wf]. pose proof Hwf as (_ & _ & Hn & _).
  apply (le_val_bound (take 4 (next bs))). by apply Forall_take.
Qed.

Lemma uncompressed_block_spec st bs bsize out_size :
  lzx_ok out_size st → bs_wf bs → 0 < bsize → Z.of_nat (length (l_out st)) + bsize <= out_size <= 2 ^ 31 →
  safe (λ st', lzx_ok out_size st' ∧ (length (l_out st) < length (l_out st'))%nat) (uncompressed_block st bs bsize out_size).
Proof.
  intros [? Ho Hp Hr Hm Hl] Hwf Hb Hs. unfold uncompressed_block.
  destruct (bs_ensure_spec bs 1 Hwf ltac:(lia)) as (Hwf1 & _). apply bs_align_wf in Hwf1.
  destruct (bs_read_u32_wf _ Hwf1) as [R0 Hwf2]. destruct (bs_read_u32 (bs_align _)) as [r0 bs2].
  destruct (bs_read_u32_wf _ Hwf2) as [R1 Hwf3]. cbn [fst snd] in *. destruct (bs_read_u32 bs2) as [r1 bs3].
  destruct (bs_read_u32_wf _ Hwf3) as [R2 Hwf4]. cbn [fst snd] in *. destruct (bs_read_u32 bs3) as [r2 bs4].
  cbn [fst snd] in *. apply safe_fail_if. intros _. apply safe_fail_if. intros E. zbool.
  assert (bsize <= Z.of_nat (length (next bs4))) as Hbl.
  { unfold bs_bytes_left, u32 in E. pose proof (Z.mod_le (Z.of_nat (length (next bs4))) 4294967296). lia. }
  pose proof Hwf4 as (_ & _ & Hn4 & _).
  eapply (safe_bind (λ '(out, bs'), bytes out ∧ bs_wf bs' ∧ Z.of_nat (length out) = Z.of_nat (length (l_out st)) + bsize)).
  - unfold copy_stored. eapply safe_bind; [apply safe_slice; [done|lia|lia|lia]|]. intros d [Hd1 Hd2].
    rewrite (proj2 (Z.leb_le _ out_size)) by lia. simpl. split_and!.
    + apply Forall_app. done.
    + by apply bs_advance_wf.
    + rewrite length_app. lia.
  - intros [out bs5] (H1 & H2 & H3). simpl. split; [|lia]. constructor; cbn; [|done|lia|done|done|done].
    destruct (_ && _); [by apply bs_advance_wf|done].
Qed.

Lemma compressed_block_spec st bs btype block_end out_size :
  lzx_ok out_size st → bs_wf bs → Z.of_nat (length (l_out st)) < block_end <= out_size → out_size <= 2 ^ 31 →
  safe (λ st', lzx_ok out_size st' ∧ (length (l_out st) < length (l_out st'))%nat)
    (compressed_block st bs btype block_end out_size).
Proof.
  intros [? Ho Hp Hr [Hm Hml] [Hl Hll]] Hwf Hb Hs. unfold compressed_block.
  destruct (if btype =? 2 then read_fields 8 3 bs else ([], bs)) as [al bs1] eqn:Eal.
  assert (bs_wf bs1 ∧ (btype = 2 → length al = 8%nat ∧ bytes al)) as [Hwf1 Hal].
  { destruct (Z.eqb_spec btype 2); [|by injection Eal as <- <-].
    destruct (read_fields_wf 8 3 bs Hwf ltac:(lia)) as (H1 & H2 & H3). rewrite Eal in H1, H2, H3. done. }
  eapply safe_bind; [apply lzx_read_lens_spec; [done|by apply Forall_take]|]. intros [main1 bs2] (M1 & ML1 & Hwf2).
  eapply safe_bind; [apply lzx_read_lens_spec; [done|by apply Forall_drop]|]. intros [main2 bs3] (M2 & ML2 & Hwf3).
  eapply safe_bind; [apply lzx_read_lens_spec; [done|done]|]. intros [lens bs4] (L1 & LL1 & Hwf4).
  assert (lens_ok (main1 ++ main2)) as HM by (by apply Forall_app).
  assert (length (main1 ++ main2) = 496%nat) as HML by (rewrite length_app, ML1, ML2, length_take, length_drop; lia).
  rewrite at_ok by lia. cbn [mbind outcome_bind].
  eapply safe_bind; [apply huff_build_spec; [lia|by apply lens_ok_nonneg|lia]|]. intros mainc Hmc.
  eapply safe_bind; [apply huff_build_spec; [lia|by apply lens_ok_nonneg|lia]|]. intros lenc Hlc.
  eapply (safe_bind aligned_ok).
  { destruct (Z.eqb_spec btype 2) as [Eb|]; [|done]. destruct (Hal Eb) as [A1 A2].
    eapply safe_bind; [apply huff_build_spec; [lia|by apply bytes_nonneg|lia]|]. intros ac Hac. simpl. by exists al. }
  intros ac Hac.
  eapply safe_bind; [apply (block_loop_spec (main1 ++ main2) lens); [done|done|done|lia|done|lia|done|done|done|lia|lia]|].
  intros [[bs5 out] r] (H1 & H2 & H3 & H4 & H5). simpl. split; [|lia].
  constructor; cbn; [done|done|lia|done|done|split; [done|lia]].
Qed.

Lemma lzx_block_spec st out_size :
  lzx_ok out_size st → out_size <= 2 ^ 31 →
  safe (λ st', lzx_ok out_size st' ∧ (length (l_out st) < length (l_out st'))%nat) (lzx_block st out_size).
Proof.
  intros Hok Hs. unfold lzx_block. pose proof (ok_bs _ _ Hok) as Hwf. pose proof (ok_pos _ _ Hok) as Hp.
  destruct (bs_ensure_spec (l_bs st) 4 Hwf ltac:(lia)) as (Hwf0 & _).
  read_bits (bs_ensure (l_bs st) 4) 3 btype bs1. read_bits bs1 1 dflt bs2.
  destruct (if negb (dflt =? 0) then (32768, bs2) else bs_read bs2 16) as [bsize bs3] eqn:Eb.
  assert (0 <= bsize < 65536 ∧ bs_wf bs3) as [Hbs Hwf3].
  { destruct (negb (dflt =? 0)); [injection Eb as <- <-; split; [lia|done]|].
    destruct (bs_read_wf bs2 16) as [H1 H2]; [done|lia|]. rewrite Eb in H1, H2. done. }
  apply safe_fail_if. intros E. zbool. change (2 ^ 31) with 2147483648 in *.
  rewrite u64_small in H0 by lia. rewrite u64_small by lia.
  destruct (Z.eqb_spec btype 3); [apply uncompressed_block_spec; [done|done|lia|lia]|].
  apply safe_fail_if. intros _. apply compressed_block_spec; [done|done|lia|lia].
Qed.

Lemma blocks_spec fuel st out_size :
  lzx_ok out_size st → out_size <= 2 ^ 31 → out_size - Z.of_nat (length (l_out st)) <= Z.of_nat fuel →
  safe (λ st', lzx_ok out_size st' ∧ out_size <= Z.of_nat (length (l_out st'))) (blocks fuel st out_size).
Proof.
  intros Hok Hs. revert st Hok. induction fuel as [|fuel IH]; intros st Hok Hf; cbn [blocks];
    (destruct (Z.leb_spec out_size (Z.of_nat (length (l_out st)))); [simpl; done|]); [lia|].
  eapply safe_bind; [by apply lzx_block_spec|]. intros st' [H1 H2]. apply IH; [done|lia].
Qed.

(** The whole run, from the invariant of its blocks. *)
Lemma lzx_decompress_spec cin out_size :
  bytes cin → 0 <= out_size <= 2 ^ 31 →
  safe (λ out, bytes out ∧ Z.of_nat (length out) = out_size) (lzx_decompress cin out_size).
Proof.
  intros Hc Hs. unfold lzx_decompress.
  eapply safe_bind; [apply blocks_spec|].
  - constructor; cbn -[replicate Z.to_nat].
    + by apply bs_init_wf.
    + constructor.
    + lia.
    + lia.
    + split; [apply Forall_replicate; lia|by rewrite length_replicate].
    + split; [apply Forall_replicate; lia|by rewrite length_replicate].
  - lia.
  - simpl. lia.
  - intros st [[? Ho Hp] He]. destruct (l_e8 st); [|simpl; split; [done|lia]].
    eapply safe_mono; [by apply lzx_e8_spec|]. intros out [H1 H2]. split; [done|lia].
Qed.

(** C27. LZX decompression is memory safe and terminates.  Whatever the bytes of
    a chunk, [lzx_decompress] into a buffer of [out_size] bytes either reports
    an error or fills exactly those [out_size] bytes; no access leaves the
    input, the output, the Huffman tables or the code-length arrays, and every
    loop ends. *)
Theorem lzx_decompress_safe cin out_size :
  bytes cin → 0 <= out_size <= 2 ^ 31 →
  safe (λ out, bytes out ∧ Z.of_nat (length out) = out_size) (lzx_decompress cin out_size).
Proof. apply lzx_decompress_spec. Qed.

(** A verbatim block: one literal and one overlapping match of offset 1. *)
Definition lzx_sample : list Z := [
  0; 32; 0; 98; 0; 0; 0; 0; 0; 0; 34; 2; 254; 15; 255; 159; 194; 255; 0; 64; 0; 0; 0; 0; 0; 0; 64; 68; 255; 3;
  255; 255; 8; 251; 0; 0; 0; 0; 0; 0; 8; 0; 63; 136; 255; 255; 202; 255].

Lemma lzx_decompress_safe_witness :
  safe (λ out, bytes out ∧ Z.of_nat (length out) = 6) (lzx_decompress lzx_sample 6).
Proof.
  apply (lzx_decompress_safe lzx_sample 6).
  - unfold lzx_sample. repeat constructor; unfold is_byte; lia.
  - lia.
Defined.

Example lzx_sample_out : lzx_decompress lzx_sample 6 = Ok (replicate 6 97).
Proof. vm_compute. reflexivity. Qed.
