(* ===== verification/Wim.v ===== *)
(** * WIM container and chunked resources
      ([src/tools/iso-patch-mac/engine/wim.c], [resource.c])

    Opening a .wim (header, lookup table), finding resources, and reading one
    back chunk by chunk through the codecs.  The file is the list of its bytes;
    memory allocation succeeds (a table too large to allocate is also longer
    than the file, so that [wim_open] fails either way). *)

From Stdlib Require Import String Ascii.
From stdpp Require Import gmap.
From S2P Require Import Prelude Bytes Outcome Huffman Lzx.

(** ** Data *)

Inductive wim_comp_t := WIM_COMP_NONE | WIM_COMP_XPRESS | WIM_COMP_LZX | WIM_COMP_LZMS.
#[export] Instance wim_comp_eq_dec : EqDecision wim_comp_t.
Proof. solve_decision. Defined.

Definition WIM_RESHDR_METADATA : Z := 0x02.
Definition WIM_RESHDR_COMPRESSED : Z := 0x04.
Definition WIM_RESHDR_SOLID : Z := 0x10.

Record wim_resource_t := mkRes {
  size_in_wim : Z;
  offset : Z;
  orig_size : Z;
  flags : Z;
  part_number : Z;
  refcount : Z;
  hash : list Z;
}.

Definition WIM_FLAG_COMPRESSION : Z := 0x2.
Definition WIM_FLAG_COMP_XPRESS : Z := 0x20000.
Definition WIM_FLAG_COMP_LZX : Z := 0x40000.
Definition WIM_FLAG_COMP_LZMS : Z := 0x80000.
Definition LOOKUP_ENTRY_SIZE : Z := 50.

Record wim := mkWim {
  fd : list Z;                      (* the bytes of the file *)
  comp : wim_comp_t;
  chunk_size : Z;
  image_count : Z;
  boot_index : Z;
  offset_table_res : wim_resource_t;
  res : list wim_resource_t;
  xml_res : wim_resource_t;
  xml_ascii : option (list Z);      (* without its terminating NUL *)
}.

(** Whether the bits of [m] are set in [x]. *)
Definition has (x m : Z) : bool := negb (Z.land x m =? 0).

Definition le16 (p : list Z) (off : Z) : Z := le_val (sub p (Z.to_nat off) 2).
Definition le32 (p : list Z) (off : Z) : Z := le_val (sub p (Z.to_nat off) 4).
Definition le64 (p : list Z) (off : Z) : Z := le_val (sub p (Z.to_nat off) 8).

(** ** Reading the file *)

(** What one [pread] does: it is interrupted, fails, or returns between one and
    the requested number of the bytes the file has there (none at the end). *)
Inductive answer := Eintr | Efail | Gives (n : Z).

Definition OFF_MAX : Z := 9223372036854775808.

Definition sys_pread (a : answer) (f : list Z) (len off : Z) : answer * list Z :=
  let off := i64 off in
  match a with
  | Eintr => (Eintr, [])
  | Efail => (Efail, [])
  | Gives n =>
      if off <? 0 then (Efail, []) else
      let avail := Z.max 0 (Z.of_nat (length f) - off) in
      let n := Z.min (Z.max 1 n) (Z.min len avail) in
      (Gives n, sub f (Z.to_nat off) (Z.to_nat n))
  end.

(** The loop of [wim_pread]; [Spin] when the answers are used up. *)
Fixpoint pread_loop (ans : list answer) (f : list Z) (len off done : Z) : outcome (list Z) :=
  if len <=? done then Ok [] else
  match ans with
  | [] => Spin
  | a :: ans =>
      match sys_pread a f (len - done) (u64 (off + done)) with
      | (Gives n, bs) =>
          if 0 <? n then rest ← pread_loop ans f len off (done + n); Ok (bs ++ rest) else Err (-1)
      | (Eintr, _) => pread_loop ans f len off done
      | (Efail, _) => Err (-1)
      end
  end.

(** What the loop comes to ([pread_loop_spec]): all of the range, or an error. *)
Definition wim_pread (f : list Z) (len off : Z) : outcome (list Z) :=
  if len =? 0 then Ok [] else
  if off + len <=? Z.of_nat (length f) then Ok (sub f (Z.to_nat off) (Z.to_nat len)) else Err (-1).

(** ** Opening *)

(** [parse_reshdr(p + off, r)], the rest of [r] zero. *)
Definition parse_reshdr (p : list Z) (off : Z) : wim_resource_t :=
  mkRes (le_val (sub p (Z.to_nat off) 7)) (le64 p (off + 8)) (le64 p (off + 16)) (bget p (off + 7)) 0 0 (replicate 20 0).

(** One 50-byte entry of the lookup table. *)
Definition parse_entry (tbl : list Z) (i : Z) : wim_resource_t :=
  let e := i * LOOKUP_ENTRY_SIZE in
  let r := parse_reshdr tbl e in
  mkRes (size_in_wim r) (offset r) (orig_size r) (flags r) (le16 tbl (e + 24)) (le32 tbl (e + 26))
    (sub tbl (Z.to_nat (e + 30)) 20).

Fixpoint xml_chars (raw : list Z) : list Z :=
  match raw with
  | b0 :: b1 :: raw' =>
      let u := Z.lor b0 (Z.shiftl b1 8) in
      if (u =? 0xFEFF) || (u =? 0) then xml_chars raw'
      else (if u <? 0x80 then u else 63) :: xml_chars raw'
  | _ => []
  end.

Definition load_xml (f : list Z) (x : wim_resource_t) : option (list Z) :=
  if (size_in_wim x =? 0) || has (flags x) WIM_RESHDR_COMPRESSED then None else
  if Z.shiftl 16 20 <? size_in_wim x then None else
  match wim_pread f (size_in_wim x) (offset x) with
  | Ok raw => Some (xml_chars raw)
  | _ => None
  end.

Definition comp_of (fl : Z) : wim_comp_t :=
  if negb (has fl WIM_FLAG_COMPRESSION) then WIM_COMP_NONE
  else if has fl WIM_FLAG_COMP_LZMS then WIM_COMP_LZMS
  else if has fl WIM_FLAG_COMP_LZX then WIM_COMP_LZX
  else if has fl WIM_FLAG_COMP_XPRESS then WIM_COMP_XPRESS
  else WIM_COMP_NONE.

(** "MSWIM\0\0\0" *)
Definition image_tag : list Z := [77; 83; 87; 73; 77; 0; 0; 0].

(** [None]: the C function returns NULL. *)
Definition wim_open (f : list Z) : outcome wim :=
  hdr ← wim_pread f 208 0;
  fail_if (negb (bool_decide (sub hdr 0 8 = image_tag))) (-1) (
  fail_if (le32 hdr 8 <? 208) (-1) (
  let fl := le32 hdr 0x10 in
  let cs := if le32 hdr 0x14 =? 0 then 32768 else le32 hdr 0x14 in
  let otr := parse_reshdr hdr 0x30 in
  let xr := parse_reshdr hdr 0x48 in
  fail_if (has (flags otr) WIM_RESHDR_COMPRESSED) (-1) (
  let tbl_size := size_in_wim otr in
  fail_if ((tbl_size =? 0) || negb (tbl_size mod LOOKUP_ENTRY_SIZE =? 0)) (-1) (
  tbl ← wim_pread f tbl_size (offset otr);
  let entries := map (parse_entry tbl) (seqZ 0 (tbl_size / LOOKUP_ENTRY_SIZE)) in
  Ok (mkWim f (comp_of fl) cs (le32 hdr 0x2C) (le32 hdr 0x78) otr entries xr (load_xml f xr)))))).

(** ** The table of resources *)

Definition wim_compression (w : wim) : wim_comp_t := comp w.
Definition wim_chunk_size (w : wim) : Z := chunk_size w.
Definition wim_image_count (w : wim) : Z := image_count w.
Definition wim_boot_index (w : wim) : Z := boot_index w.
Definition wim_num_resources (w : wim) : Z := Z.of_nat (length (res w)).
Definition wim_resource (w : wim) (i : Z) : option wim_resource_t :=
  if i <? wim_num_resources w then res w !! Z.to_nat i else None.

Fixpoint nth_metadata (rs : list wim_resource_t) (seen image_index : Z) : option wim_resource_t :=
  match rs with
  | [] => None
  | r :: rs =>
      if has (flags r) WIM_RESHDR_METADATA then
        if u32 (seen + 1) =? image_index then Some r else nth_metadata rs (u32 (seen + 1)) image_index
      else nth_metadata rs seen image_index
  end.

Definition wim_metadata_resource (w : wim) (image_index : Z) : option wim_resource_t :=
  nth_metadata (res w) 0 image_index.

Definition wim_read_uncompressed (w : wim) (r : wim_resource_t) : outcome (list Z) :=
  fail_if (has (flags r) WIM_RESHDR_COMPRESSED) (-1) (
  fail_if (negb (size_in_wim r =? orig_size r)) (-1) (
  wim_pread (fd w) (orig_size r) (offset r))).

Fixpoint find_hash (rs : list wim_resource_t) (h : list Z) : option wim_resource_t :=
  match rs with
  | [] => None
  | r :: rs => if bool_decide (hash r = h) then Some r else find_hash rs h
  end.

Definition wim_lookup_by_hash (w : wim) (h : list Z) : option wim_resource_t :=
  if bool_decide (h = replicate 20 0) then None else find_hash (res w) h.

(** ** Reading a resource *)

(** [entry_at(tbl, esz, idx)]. *)
Definition entry_at (tbl : list Z) (esz idx : Z) : outcome Z :=
  b ← slice tbl (idx * esz) esz;
  Ok (le_val b).

(** Both codecs are stubs in the source. *)
Definition xpress_decompress (cin : list Z) (out_size : Z) : outcome (list Z) := Err (-1).
Definition lzms_decompress (cin : list Z) (out_size : Z) : outcome (list Z) := Err (-1).

Definition decompress (c : wim_comp_t) (cin : list Z) (out_size : Z) : outcome (list Z) :=
  match c with
  | WIM_COMP_LZX => lzx_decompress cin out_size
  | WIM_COMP_XPRESS => xpress_decompress cin out_size
  | WIM_COMP_LZMS => lzms_decompress cin out_size
  | WIM_COMP_NONE => Err (-1)
  end.

Record layout := mkLayout {
  num_chunks : Z;
  esz : Z;
  table : list Z;
  data_start : Z;
  data_size : Z;
}.

(** [wim_pread] into a buffer of [cap] bytes; more than it holds is undefined. *)
Definition pread_into (cap : Z) (f : list Z) (len off : Z) : outcome (list Z) :=
  if cap <? len then Fault else wim_pread f len off.

(** The bytes of chunk [i]: the body of the loop.  [cbuf] was allocated with
    [chunk_size] bytes. *)
Definition read_chunk (w : wim) (orig : Z) (l : layout) (i : Z) : outcome (list Z) :=
  let cs := chunk_size w in
  cstart ← (if i =? 0 then Ok 0 else entry_at (table l) (esz l) (i - 1));
  cend ← (if i =? num_chunks l - 1 then Ok (data_size l) else entry_at (table l) (esz l) i);
  fail_if ((cend <? cstart) || (data_size l <? cend)) (-1) (
  let csize := cend - cstart in
  let usize := if i =? num_chunks l - 1 then u64 (orig - (num_chunks l - 1) * cs) else cs in
  fail_if ((csize =? 0) || (cs <? csize)) (-1) (
  cbuf ← pread_into cs (fd w) csize (u64 (data_start l + cstart));
  if csize =? usize then Ok cbuf else decompress (comp w) cbuf usize)).

(** [dst = out + i * chunk_size]: the output fills up from its start, within
    its [orig] bytes. *)
Definition put_chunk (orig cs i : Z) (out c : list Z) : outcome (list Z) :=
  if (Z.of_nat (length out) =? i * cs) && (Z.of_nat (length out) + Z.of_nat (length c) <=? orig)
  then Ok (out ++ c) else Fault.

(** [for (i = 0; i < num_chunks; i++)], [n] chunks left. *)
Fixpoint read_chunks (n : nat) (w : wim) (orig : Z) (l : layout) (i : Z) (out : list Z) : outcome (list Z) :=
  match n with
  | O => Ok out
  | S n' =>
      c ← read_chunk w orig l i;
      out ← put_chunk orig (chunk_size w) i out c;
      read_chunks n' w orig l (i + 1) out
  end.

Definition chunk_count (orig cs : Z) : Z := u64 (orig + cs - 1) / cs.
Definition entry_size (orig : Z) : Z := if orig <=? 0xFFFFFFFF then 4 else 8.

Definition wim_read_resource (w : wim) (r : wim_resource_t) : outcome (list Z) :=
  fail_if (has (flags r) WIM_RESHDR_SOLID) (-2) (
  if negb (has (flags r) WIM_RESHDR_COMPRESSED) then wim_pread (fd w) (orig_size r) (offset r) else
  let orig := orig_size r in
  if orig =? 0 then Ok [] else
  let n := chunk_count orig (chunk_size w) in
  let e := entry_size orig in
  let table_size := u64 (u64 (n - 1) * e) in
  table ← wim_pread (fd w) table_size (offset r);
  read_chunks (Z.to_nat n) w orig
    (mkLayout n e table (u64 (offset r + table_size)) (u64 (size_in_wim r - table_size))) 0 []).

(** ** The read loop *)

Lemma sub_split l off a b : sub l off (a + b) = sub l off a ++ sub l (off + a) b.
Proof.
  unfold sub. rewrite <- (take_drop a (drop off l)) at 1. rewrite drop_drop.
  destruct (Nat.le_gt_cases a (length (drop off l))) as [H|H].
  - rewrite take_app_ge by (rewrite length_take; lia). rewrite length_take. do 2 f_equal. lia.
  - rewrite (drop_ge l (off + a)) by (rewrite length_drop in H; lia).
    rewrite !app_nil_r, take_nil, app_nil_r, take_take. f_equal. lia.
Qed.

Lemma pread_loop_from ans f len off done :
  Forall (λ a, a ≠ Efail) ans → Z.of_nat (length f) < OFF_MAX → 0 <= off < 2 * OFF_MAX → 0 <= done <= len →
  done = 0 ∨ off + done <= Z.of_nat (length f) → len < OFF_MAX →
  pread_loop ans f len off done = Spin ∨
  pread_loop ans f len off done =
    (if len =? done then Ok [] else
     if off + len <=? Z.of_nat (length f) then Ok (sub f (Z.to_nat (off + done)) (Z.to_nat (len - done))) else Err (-1)).
Proof.
  unfold OFF_MAX. intros Ha Hf Ho. revert done.
  induction Ha as [|a ans Ha Hans IH]; intros done Hd Hin Hl; cbn [pread_loop];
    (destruct (Z.leb_spec len done); [rewrite (proj2 (Z.eqb_eq len done)) by lia; by right|]); [by left|].
  rewrite (proj2 (Z.eqb_neq len done)) by lia. destruct a as [| |n]; [|done|].
  { simpl. destruct (IH done Hd Hin Hl) as [E|E]; [by left|right]. by rewrite E, (proj2 (Z.eqb_neq len done)) by lia. }
  unfold sys_pread. rewrite u64_small by lia.
  destruct (Z.ltb_spec (i64 (off + done)) 0) as [Hneg|Hpos].
  { right. destruct (Z.leb_spec (off + len) (Z.of_nat (length f))); [|done].
    unfold i64 in Hneg. rewrite Z.mod_small in Hneg; lia. }
  assert (off + done < 9223372036854775808) as Hs by (unfold i64 in Hpos; dlia).
  assert (i64 (off + done) = off + done) as -> by (unfold i64; rewrite Z.mod_small; lia).
  set (k := Z.min (Z.max 1 n) (Z.min (len - done) (Z.max 0 (Z.of_nat (length f) - (off + done))))).
  destruct (Z.ltb_spec 0 k) as [Hk|Hk]; [|right; destruct (Z.leb_spec (off + len) (Z.of_nat (length f))); [lia|done]].
  destruct (IH (done + k) ltac:(lia) ltac:(lia) Hl) as [->| ->]; [by left|right].
  destruct (Z.eqb_spec len (done + k)) as [El|El].
  - rewrite (proj2 (Z.leb_le _ _)) by lia. cbn [mbind outcome_bind]. rewrite app_nil_r. do 2 f_equal. lia.
  - destruct (Z.leb_spec (off + len) (Z.of_nat (length f))); [|done]. cbn [mbind outcome_bind].
    replace (Z.to_nat (len - done)) with (Z.to_nat k + Z.to_nat (len - (done + k)))%nat by lia.
    rewrite sub_split. do 3 f_equal. lia.
Qed.

(** Whatever the partial reads and interruptions, the loop delivers the whole
    range or reports that the file is too short. *)
Lemma pread_loop_spec ans f len off :
  Forall (λ a, a ≠ Efail) ans → Z.of_nat (length f) < OFF_MAX → 0 <= off < 2 * OFF_MAX → 0 <= len < OFF_MAX →
  pread_loop ans f len off 0 = Spin ∨ pread_loop ans f len off 0 = wim_pread f len off.
Proof.
  intros Ha Hf Ho Hl. destruct (pread_loop_from ans f len off 0) as [E|E]; [done|done|done|lia|by left|lia|by left|].
  right. rewrite E. unfold wim_pread. by rewrite Z.add_0_r, Z.sub_0_r.
Qed.

Lemma safe_pread f len off :
  bytes f → 0 <= len → 0 <= off → safe (λ b, bytes b ∧ Z.of_nat (length b) = len) (wim_pread f len off).
Proof.
  intros Hf Hl Ho. unfold wim_pread. destruct (Z.eqb_spec len 0) as [->|]; [simpl; split; [constructor|done]|].
  destruct (Z.leb_spec (off + len) (Z.of_nat (length f))); [|done]. simpl.
  split; [unfold sub; by apply Forall_take, Forall_drop|rewrite length_sub; lia].
Qed.

(** ** Reading a resource is safe *)

Lemma safe_entry_at tbl e i :
  bytes tbl → e = 4 ∨ e = 8 → 0 <= i → (i + 1) * e <= Z.of_nat (length tbl) → safe (λ v, is_u64 v) (entry_at tbl e i).
Proof.
  intros Hb He Hi Hl. unfold entry_at. eapply safe_bind; [apply safe_slice; [done|nia|lia|lia]|]. intros b [H1 H2].
  simpl. pose proof (le_val_bound b H2) as H. rewrite H1 in H. unfold is_u64. destruct He; subst e; lia.
Qed.

Lemma safe_decompress c cin n :
  bytes cin → 0 <= n <= 2 ^ 31 → safe (λ out, bytes out ∧ Z.of_nat (length out) = n) (decompress c cin n).
Proof. intros Hc Hn. destruct c; try done. by apply lzx_decompress_spec. Qed.

(** The sizes of a resource that a caller can hold in memory. *)
Record sizes_ok (w : wim) (orig : Z) : Prop := {
  sz_chunk : 0 < chunk_size w <= 2 ^ 31;
  sz_orig : 0 < orig < 2 ^ 60;
}.

Lemma chunk_count_spec orig cs :
  0 < cs <= 2 ^ 31 → 0 < orig < 2 ^ 60 →
  0 < chunk_count orig cs <= orig ∧ (chunk_count orig cs - 1) * cs < orig <= chunk_count orig cs * cs.
Proof.
  intros Hc Ho. unfold chunk_count. change (2 ^ 31) with 2147483648 in *. change (2 ^ 60) with 1152921504606846976 in *.
  rewrite u64_small by lia. pose proof (Z.div_mod (orig + cs - 1) cs ltac:(lia)).
  pose proof (Z.mod_pos_bound (orig + cs - 1) cs ltac:(lia)).
  assert (0 < (orig + cs - 1) / cs) by (apply Z.div_str_pos; lia). split; [split; [lia|nia]|nia].
Qed.

(** The size of chunk [i]. *)
Definition chunk_len (orig cs i : Z) : Z := if i =? chunk_count orig cs - 1 then orig - i * cs else cs.

Lemma chunk_len_range orig cs i :
  0 < cs <= 2 ^ 31 → 0 < orig < 2 ^ 60 → 0 <= i < chunk_count orig cs →
  0 < chunk_len orig cs i <= cs ∧ i * cs + chunk_len orig cs i <= orig.
Proof.
  intros Hc Ho Hi. destruct (chunk_count_spec orig cs Hc Ho) as [_ H]. unfold chunk_len.
  destruct (Z.eqb_spec i (chunk_count orig cs - 1)) as [->|]; [nia|]. split; [lia|]. nia.
Qed.

(** The layout [wim_read_resource] computes. *)
Definition layout_ok (orig cs : Z) (l : layout) : Prop :=
  num_chunks l = chunk_count orig cs ∧ (esz l = 4 ∨ esz l = 8) ∧ bytes (table l) ∧
  Z.of_nat (length (table l)) = (num_chunks l - 1) * esz l ∧ 0 <= data_start l ∧ is_u64 (data_size l).

(** The size the loop gives the codec. *)
Lemma usize_eq orig cs n i :
  0 < cs <= 2 ^ 31 → 0 < orig < 2 ^ 60 → n = chunk_count orig cs → 0 <= i < n →
  (if i =? n - 1 then u64 (orig - (n - 1) * cs) else cs) = chunk_len orig cs i.
Proof.
  intros Hc Ho -> Hi. destruct (chunk_len_range orig cs i Hc Ho Hi) as [H1 H2]. unfold chunk_len in *.
  destruct (Z.eqb_spec i (chunk_count orig cs - 1)) as [Ei|]; [|done]. rewrite <- Ei.
  change (2 ^ 60) with 1152921504606846976 in *. change (2 ^ 31) with 2147483648 in *. rewrite u64_small; lia.
Qed.

Lemma pread_into_fits cap f len off : len <= cap → pread_into cap f len off = wim_pread f len off.
Proof. intros H. unfold pread_into. by rewrite (proj2 (Z.ltb_ge _ _)) by lia. Qed.

Lemma safe_read_chunk w orig l i :
  sizes_ok w orig → bytes (fd w) → layout_ok orig (chunk_size w) l → 0 <= i < num_chunks l →
  safe (λ c, bytes c ∧ Z.of_nat (length c) = chunk_len orig (chunk_size w) i) (read_chunk w orig l i).
Proof.
  intros [Hc Ho] Hf (Hn & He & Ht & Htl & Hds & Hdz) Hi. unfold read_chunk.
  assert (∀ j, 0 <= j < num_chunks l - 1 → safe (λ v, is_u64 v) (entry_at (table l) (esz l) j)) as Hent
    by (intros j Hj; apply safe_entry_at; [done|done|lia|nia]).
  eapply (safe_bind is_u64).
  { destruct (Z.eqb_spec i 0); [simpl; unfold is_u64; lia|apply Hent; lia]. }
  intros cstart Hcs. eapply (safe_bind is_u64).
  { destruct (Z.eqb_spec i (num_chunks l - 1)); [done|apply Hent; lia]. }
  intros cend Hce. apply safe_fail_if. intros E1. zbool. apply safe_fail_if. intros E2. zbool.
  destruct (chunk_len_range orig (chunk_size w) i Hc Ho ltac:(lia)) as [Hlen _].
  rewrite (usize_eq orig) by (done || lia).
  rewrite pread_into_fits by lia.
  eapply safe_bind; [apply safe_pread; [done|lia|apply u64_range]|]. intros cbuf [H1' H2'].
  destruct (Z.eqb_spec (cend - cstart) (chunk_len orig (chunk_size w) i)) as [Ec|]; [simpl; split; [done|lia]|].
  apply safe_decompress; [done|lia].
Qed.

Lemma put_chunk_ok orig cs i out c :
  0 < cs <= 2 ^ 31 → 0 < orig < 2 ^ 60 → 0 <= i < chunk_count orig cs → Z.of_nat (length out) = i * cs →
  Z.of_nat (length c) = chunk_len orig cs i → put_chunk orig cs i out c = Ok (out ++ c).
Proof.
  intros Hc Ho Hi Hout Hl. destruct (chunk_len_range orig cs i Hc Ho Hi) as [_ H]. unfold put_chunk.
  by rewrite (proj2 (Z.eqb_eq _ _) Hout), (proj2 (Z.leb_le _ orig)) by lia.
Qed.

Lemma safe_read_chunks n w orig l i out :
  sizes_ok w orig → bytes (fd w) → layout_ok orig (chunk_size w) l → 0 <= i → i + Z.of_nat n = num_chunks l →
  bytes out → Z.of_nat (length out) = Z.min (i * chunk_size w) orig →
  safe (λ out', bytes out' ∧ Z.of_nat (length out') = orig) (read_chunks n w orig l i out).
Proof.
  intros Hs Hf Hl. pose proof Hs as [Hc Ho]. pose proof Hl as (Hnc & _).
  destruct (chunk_count_spec orig (chunk_size w) Hc Ho) as [_ Hcnt].
  revert i out. induction n as [|n IH]; intros i out Hi Hn Hb Hlen; cbn [read_chunks].
  { simpl. split; [done|]. rewrite Hlen. rewrite <- Hnc in Hcnt. nia. }
  assert (Z.of_nat (length out) = i * chunk_size w) as Hlen' by nia.
  eapply safe_bind; [apply safe_read_chunk; [done|done|done|lia]|]. intros c [H1 H2].
  rewrite put_chunk_ok by (done || lia). cbn [mbind outcome_bind].
  apply IH; [lia|lia|by apply Forall_app|]. rewrite length_app, Nat2Z.inj_add, H2, Hlen'. unfold chunk_len.
  destruct (Z.eqb_spec i (chunk_count orig (chunk_size w) - 1)) as [Ei|]; [rewrite Ei; nia|nia].
Qed.

Lemma table_size_small orig cs :
  0 < cs <= 2 ^ 31 → 0 < orig < 2 ^ 60 →
  u64 (u64 (chunk_count orig cs - 1) * entry_size orig) = (chunk_count orig cs - 1) * entry_size orig.
Proof.
  intros Hc Ho. destruct (chunk_count_spec orig cs Hc Ho) as [Hn _].
  change (2 ^ 60) with 1152921504606846976 in *. rewrite (u64_small (_ - 1)) by lia.
  apply u64_small. unfold entry_size. destruct (_ <=? _); lia.
Qed.

Lemma entry_size_cases orig : entry_size orig = 4 ∨ entry_size orig = 8.
Proof. unfold entry_size. destruct (_ <=? _); auto. Qed.

Lemma wim_read_resource_total w r :
  sizes_ok w (orig_size r) → bytes (fd w) → 0 <= offset r →
  safe (λ out, bytes out ∧ Z.of_nat (length out) = orig_size r) (wim_read_resource w r).
Proof.
  intros Hs Hf Ho. pose proof Hs as [Hc Hor]. unfold wim_read_resource. apply safe_fail_if. intros _.
  destruct (negb _); [apply safe_pread; [done|lia|done]|].
  rewrite (proj2 (Z.eqb_neq _ 0)) by lia. cbn [mbind outcome_bind].
  destruct (chunk_count_spec _ _ Hc Hor) as [Hn _]. pose proof (entry_size_cases (orig_size r)) as He.
  rewrite table_size_small by done.
  eapply safe_bind; [apply safe_pread; [done|nia|done]|]. intros table [H1 H2].
  apply safe_read_chunks; [done|done| |lia|cbn; lia|constructor|simpl; lia].
  split_and!; cbn; [done|done|done|done|apply u64_range|apply u64_range].
Qed.

(** ** The stored form of a resource *)

(** [c] stores the chunk [u]: verbatim, or shorter or longer but no longer than
    a chunk, and the codec restores it. *)
Definition stored (w : wim) (u c : list Z) : Prop :=
  u = c ∨ (length u ≠ length c ∧ 0 < Z.of_nat (length c) <= chunk_size w ∧
           decompress (comp w) c (Z.of_nat (length u)) = Ok u).

(** Where chunk [k] starts in the data, and the table of the starts of all
    chunks but the first. *)
Definition start_of (cs : list (list Z)) (k : nat) : Z := Z.of_nat (length (concat (take k cs))).
Definition offset_table (e : nat) (cs : list (list Z)) : list (list Z) :=
  map (λ k, le_bytes e (start_of cs k)) (seq 1 (length cs - 1)).
Definition encode_resource (e : nat) (cs : list (list Z)) : list Z := concat (offset_table e cs) ++ concat cs.

Lemma sub_concat_at (ls : list (list Z)) k c :
  ls !! k = Some c → sub (concat ls) (length (concat (take k ls))) (length c) = c.
Proof.
  intros Hk. rewrite <- (take_drop_middle ls k c Hk) at 1. rewrite concat_app. simpl. unfold sub.
  rewrite drop_app_length, take_app_length. done.
Qed.

Lemma length_concat_eq (ls : list (list Z)) e :
  Forall (λ l, length l = e) ls → length (concat ls) = (length ls * e)%nat.
Proof. induction 1 as [|l ls Hl Hls IH]; simpl; [done|]. rewrite length_app, Hl, IH. done. Qed.

Lemma start_of_S cs k c : cs !! k = Some c → start_of cs (S k) = start_of cs k + Z.of_nat (length c).
Proof.
  intros Hk. unfold start_of. rewrite (take_S_r _ _ _ Hk), concat_app, length_app. simpl. rewrite app_nil_r. lia.
Qed.

Lemma start_of_mono cs k : start_of cs k <= Z.of_nat (length (concat cs)).
Proof. unfold start_of. rewrite <- (take_drop k cs) at 2. rewrite concat_app, length_app. lia. Qed.

Lemma offset_table_len e cs : Forall (λ l, length l = e) (offset_table e cs).
Proof. unfold offset_table. apply Forall_map, Forall_true. intros k. apply length_le_bytes. Qed.

Lemma offset_table_entry e cs k :
  (k + 1 < length cs)%nat → offset_table e cs !! k = Some (le_bytes e (start_of cs (S k))).
Proof. intros Hk. unfold offset_table. rewrite list_lookup_fmap, lookup_seq_lt by lia. done. Qed.

Lemma entry_at_table e cs k :
  e = 4 ∨ e = 8 → 0 <= k → k + 1 < Z.of_nat (length cs) →
  Z.of_nat (length (concat cs)) < 256 ^ e →
  entry_at (concat (offset_table (Z.to_nat e) cs)) e k = Ok (start_of cs (Z.to_nat (k + 1))).
Proof.
  intros He Hk0 Hk Hsz. pose proof (offset_table_len (Z.to_nat e) cs) as HF.
  assert (length (offset_table (Z.to_nat e) cs) = (length cs - 1)%nat) as Hlen
    by (unfold offset_table; by rewrite length_map, length_seq).
  unfold entry_at. rewrite slice_ok; [|nia|lia|rewrite (length_concat_eq _ _ HF), Hlen; nia].
  cbn [mbind outcome_bind]. f_equal.
  pose proof (sub_concat_at _ (Z.to_nat k) _ (offset_table_entry (Z.to_nat e) cs (Z.to_nat k) ltac:(lia))) as H.
  rewrite length_le_bytes in H.
  rewrite (length_concat_eq (take (Z.to_nat k) _) (Z.to_nat e)) in H by (by apply Forall_take).
  rewrite length_take, Hlen in H.
  replace (Z.to_nat (k * e)) with (Nat.min (Z.to_nat k) (length cs - 1) * Z.to_nat e)%nat by nia.
  rewrite H, le_val_le_bytes_small.
  - f_equal. lia.
  - pose proof (start_of_mono cs (S (Z.to_nat k))). rewrite Z2Nat.id by lia. unfold start_of in *. lia.
Qed.

(** The resource [r] of [w] holds the chunks [us] in stored form [cs]. *)
Record holds_resource (w : wim) (r : wim_resource_t) (us cs : list (list Z)) : Prop := {
  hr_sizes : sizes_ok w (orig_size r);
  hr_comp : has (flags r) WIM_RESHDR_COMPRESSED = true;
  hr_solid : has (flags r) WIM_RESHDR_SOLID = false;
  hr_orig : orig_size r = Z.of_nat (length (concat us));
  hr_count : Z.of_nat (length us) = chunk_count (orig_size r) (chunk_size w);
  hr_lens : ∀ i u, us !! i = Some u → Z.of_nat (length u) = chunk_len (orig_size r) (chunk_size w) (Z.of_nat i);
  hr_stored : Forall2 (stored w) us cs;
  hr_entries : Z.of_nat (length (concat cs)) < 256 ^ entry_size (orig_size r);
  hr_size : size_in_wim r = Z.of_nat (length (encode_resource (Z.to_nat (entry_size (orig_size r))) cs));
  hr_off : 0 <= offset r ∧ offset r + size_in_wim r <= Z.of_nat (length (fd w)) < 2 ^ 62;
  hr_data : sub (fd w) (Z.to_nat (offset r)) (Z.to_nat (size_in_wim r)) =
    encode_resource (Z.to_nat (entry_size (orig_size r))) cs;
}.

Lemma wim_pread_ok f len off :
  0 <= len → 0 <= off → off + len <= Z.of_nat (length f) → wim_pread f len off = Ok (sub f (Z.to_nat off) (Z.to_nat len)).
Proof.
  intros Hl Ho H. unfold wim_pread. destruct (Z.eqb_spec len 0) as [->|]; [by unfold sub|].
  by rewrite (proj2 (Z.leb_le _ _)) by lia.
Qed.

Section Roundtrip.
Context (w : wim) (r : wim_resource_t) (us cs : list (list Z)) (H : holds_resource w r us cs).
Let e := entry_size (orig_size r).
Let tbl := concat (offset_table (Z.to_nat e) cs).
Let l := mkLayout (chunk_count (orig_size r) (chunk_size w)) e tbl
  (offset r + Z.of_nat (length tbl)) (Z.of_nat (length (concat cs))).

Lemma length_cs : length cs = length us.
Proof. symmetry. apply (Forall2_length (stored w)), H. Qed.

Lemma length_tbl : Z.of_nat (length tbl) = (Z.of_nat (length cs) - 1) * e.
Proof.
  destruct H as [[Hc Ho]]. destruct (chunk_count_spec _ _ Hc Ho) as [Hn _]. pose proof length_cs.
  unfold tbl. rewrite (length_concat_eq _ _ (offset_table_len _ _)). unfold offset_table.
  rewrite length_map, length_seq. destruct (entry_size_cases (orig_size r)) as [E|E]; unfold e; rewrite E; nia.
Qed.

Lemma read_stored_chunk i u c :
  us !! i = Some u → cs !! i = Some c → read_chunk w (orig_size r) l (Z.of_nat i) = Ok u.
Proof.
  intros Hu Hc. pose proof length_cs as Hlen. pose proof length_tbl as Htl. pose proof H as HH.
  destruct HH as [[Hcs Hor] _ _ _ Hcnt Hlens Hst Hent Hsz [Hoff1 Hoff2] Hdata].
  destruct (chunk_count_spec _ _ Hcs Hor) as [Hn _].
  pose proof (lookup_lt_Some _ _ _ Hu) as Hi.
  assert (0 <= Z.of_nat i < chunk_count (orig_size r) (chunk_size w)) as Hi' by lia.
  destruct (chunk_len_range _ _ _ Hcs Hor Hi') as [Hul _].
  pose proof (Hlens _ _ Hu) as HuL.
  pose proof (proj1 (Forall2_lookup _ _ _) Hst i) as Hsi. rewrite Hu, Hc in Hsi. inversion Hsi as [? ? Hs|]; subst.
  assert (0 < Z.of_nat (length c) <= chunk_size w) as HcL by (destruct Hs as [<-|(_ & ? & _)]; lia).
  pose proof (entry_size_cases (orig_size r)) as He. fold e in He, Hent, Hsz, Hdata.
  pose proof (start_of_mono cs (S i)) as Hm. pose proof (start_of_S cs i c Hc) as HS.
  unfold read_chunk, l. cbn [num_chunks table esz data_size data_start].
  assert ((if Z.of_nat i =? 0 then Ok 0 else entry_at tbl e (Z.of_nat i - 1)) = Ok (start_of cs i)) as ->.
  { destruct (Z.eqb_spec (Z.of_nat i) 0) as [E0|]; [by replace i with 0%nat by lia|].
    unfold tbl. rewrite entry_at_table by (done || lia). do 2 f_equal. lia. }
  cbn [mbind outcome_bind].
  assert ((if Z.of_nat i =? chunk_count (orig_size r) (chunk_size w) - 1 then Ok (Z.of_nat (length (concat cs)))
    else entry_at tbl e (Z.of_nat i)) = Ok (start_of cs i + Z.of_nat (length c))) as ->.
  { rewrite <- HS. destruct (Z.eqb_spec (Z.of_nat i) (chunk_count (orig_size r) (chunk_size w) - 1)).
    - unfold start_of. rewrite (take_ge cs) by lia. done.
    - unfold tbl. rewrite entry_at_table by (done || lia). do 2 f_equal. lia. }
  cbn [mbind outcome_bind]. unfold fail_if at 1.
  rewrite (proj2 (Z.ltb_ge _ (start_of cs i))), (proj2 (Z.ltb_ge (Z.of_nat (length (concat cs))) _)) by lia.
  cbn [orb]. replace (start_of cs i + Z.of_nat (length c) - start_of cs i) with (Z.of_nat (length c)) by lia.
  unfold fail_if. rewrite (proj2 (Z.eqb_neq (Z.of_nat (length c)) 0)), (proj2 (Z.ltb_ge (chunk_size w) _)) by lia.
  cbn [orb]. rewrite (usize_eq _ _ _ _ Hcs Hor eq_refl Hi'), <- HuL.
  assert (size_in_wim r = Z.of_nat (length tbl) + Z.of_nat (length (concat cs))) as Hsz'
    by (rewrite Hsz; unfold encode_resource; rewrite length_app; unfold tbl; lia).
  change (2 ^ 62) with 4611686018427387904 in *. assert (0 <= start_of cs i) by (unfold start_of; lia).
  rewrite u64_small, pread_into_fits by lia. rewrite wim_pread_ok by lia. cbn [mbind outcome_bind].
  assert (sub (fd w) (Z.to_nat (offset r + Z.of_nat (length tbl) + start_of cs i)) (Z.to_nat (Z.of_nat (length c))) = c) as ->.
  { replace (Z.to_nat (offset r + Z.of_nat (length tbl) + start_of cs i))
      with (Z.to_nat (offset r) + (length tbl + Z.to_nat (start_of cs i)))%nat by lia.
    rewrite <- (sub_sub _ _ (Z.to_nat (size_in_wim r))) by lia. rewrite Hdata. unfold encode_resource. fold tbl.
    unfold sub. rewrite drop_app_ge by lia.
    replace (length tbl + Z.to_nat (start_of cs i) - length tbl)%nat with (length (concat (take i cs)))
      by (unfold start_of; lia).
    rewrite Nat2Z.id. apply (sub_concat_at cs i c Hc). }
  destruct Hs as [->|(Hne & _ & Hd)]; [by rewrite Z.eqb_refl|].
  rewrite (proj2 (Z.eqb_neq _ _)) by lia. exact Hd.
Qed.

Lemma read_stored_chunks n i :
  (i + n = length us)%nat →
  read_chunks n w (orig_size r) l (Z.of_nat i) (concat (take i us)) = Ok (concat us).
Proof.
  pose proof H as HH. destruct HH as [[Hcs Hor] _ _ Horig Hcnt Hlens _ _ _ _ _].
  destruct (chunk_count_spec _ _ Hcs Hor) as [Hn1 Hn2].
  revert i. induction n as [|n IH]; intros i Hi; cbn [read_chunks]; [by rewrite take_ge by lia|].
  destruct (lookup_lt_is_Some_2 us i ltac:(lia)) as [u Hu].
  destruct (lookup_lt_is_Some_2 cs i ltac:(pose proof length_cs; lia)) as [c Hc].
  rewrite (read_stored_chunk i u c Hu Hc). cbn [mbind outcome_bind].
  assert (Z.of_nat (length (concat (take i us))) = Z.of_nat i * chunk_size w) as Hpre.
  { rewrite (length_concat_eq _ (Z.to_nat (chunk_size w))); [rewrite length_take; nia|].
    apply Forall_lookup. intros j v Hj. apply lookup_take_Some in Hj as [Hj Hji].
    apply Hlens in Hj. unfold chunk_len in Hj. rewrite (proj2 (Z.eqb_neq _ _)) in Hj by lia. lia. }
  rewrite put_chunk_ok; [|done|done|lia|done|by apply Hlens]. cbn [mbind outcome_bind].
  replace (Z.of_nat i + 1) with (Z.of_nat (S i)) by lia.
  replace (concat (take i us) ++ u) with (concat (take (S i) us)); [apply IH; lia|].
  rewrite (take_S_r _ _ _ Hu), concat_app. simpl. by rewrite app_nil_r.
Qed.

Lemma read_resource_eq : wim_read_resource w r = Ok (concat us).
Proof.
  pose proof H as HH. destruct HH as [[Hcs Hor] Hcomp Hsol Horig Hcnt Hlens _ _ Hsz [Hoff1 Hoff2] Hdata].
  destruct (chunk_count_spec _ _ Hcs Hor) as [Hn1 Hn2]. pose proof length_tbl as Htl. pose proof length_cs as Hlc.
  unfold wim_read_resource. rewrite Hsol, Hcomp. cbn [fail_if negb].
  rewrite (proj2 (Z.eqb_neq _ 0)), table_size_small by (done || lia). fold e.
  assert ((chunk_count (orig_size r) (chunk_size w) - 1) * e = Z.of_nat (length tbl)) as -> by (rewrite Htl; f_equal; lia).
  fold e in Hsz, Hdata.
  assert (size_in_wim r = Z.of_nat (length tbl) + Z.of_nat (length (concat cs))) as Hsz'
    by (rewrite Hsz; unfold encode_resource; rewrite length_app; unfold tbl; lia).
  rewrite wim_pread_ok by lia. cbn [mbind outcome_bind].
  assert (sub (fd w) (Z.to_nat (offset r)) (Z.to_nat (Z.of_nat (length tbl))) = tbl) as ->.
  { replace (Z.to_nat (offset r)) with (Z.to_nat (offset r) + 0)%nat by lia.
    rewrite <- (sub_sub _ _ (Z.to_nat (size_in_wim r))) by lia. rewrite Hdata. unfold encode_resource, sub. fold tbl.
    rewrite drop_0, Nat2Z.id. apply take_app_length. }
  change (2 ^ 62) with 4611686018427387904 in *. rewrite !u64_small by lia.
  replace (size_in_wim r - Z.of_nat (length tbl)) with (Z.of_nat (length (concat cs))) by lia.
  rewrite <- Hcnt, Nat2Z.id.
  pose proof (read_stored_chunks (length us) 0 ltac:(lia)) as E. unfold l in E. rewrite <- Hcnt in E. exact E.
Qed.
End Roundtrip.

(** C28. Reading a compressed resource restores it.  When the file holds, at the
    resource's offset, the chunk table followed by the chunks (each stored
    verbatim or in a form its codec restores; entries of 4 or 8 bytes by the
    uncompressed size), [wim_read_resource] returns the concatenation of the
    uncompressed chunks. *)
Theorem wim_resource_roundtrip w r us cs :
  holds_resource w r us cs → wim_read_resource w r = Ok (concat us).
Proof. apply read_resource_eq. Qed.

(** C29. Reading a resource is safe whatever the file holds.  For every file,
    header and resource entry whose uncompressed size is under 2^60 and chunk
    size at most 2^31, [wim_read_resource] reports an error or fills exactly
    [orig_size] bytes: entries of the table are taken inside it, a chunk is read
    inside the [chunk_size] bytes of [cbuf] and put inside the output. *)
Theorem wim_read_resource_safe w r :
  bytes (fd w) → 0 < chunk_size w <= 2 ^ 31 → 0 < orig_size r < 2 ^ 60 → 0 <= offset r →
  safe (λ out, bytes out ∧ Z.of_nat (length out) = orig_size r) (wim_read_resource w r).
Proof. intros Hf Hc Ho Hoff. by apply wim_read_resource_total. Qed.

(** Two chunks of at most 48 bytes: the first verbatim, the last one LZX. *)
Definition sample_us : list (list Z) := [seqZ 0 48; replicate 6 97].
Definition sample_cs : list (list Z) := [seqZ 0 48; lzx_sample].
Definition sample_res : wim_resource_t := mkRes 100 0 54 4 1 1 (replicate 20 7).
Definition sample_wim : wim :=
  mkWim (encode_resource 4 sample_cs) WIM_COMP_LZX 48 1 0 sample_res [sample_res] sample_res None.

Lemma sample_holds : holds_resource sample_wim sample_res sample_us sample_cs.
Proof.
  constructor.
  - split; split; vm_compute; congruence || reflexivity.
  - reflexivity.
  - reflexivity.
  - vm_compute. reflexivity.
  - vm_compute. reflexivity.
  - intros i u Hu. destruct i as [|[|i]]; simpl in Hu; [injection Hu as <-; vm_compute; reflexivity..|done].
  - constructor; [by left|constructor; [right|constructor]].
    split; [vm_compute; congruence|split; [split; vm_compute; congruence || reflexivity|vm_compute; reflexivity]].
  - vm_compute. reflexivity.
  - vm_compute. reflexivity.
  - split; [vm_compute; congruence|split; vm_compute; congruence || reflexivity].
  - vm_compute. reflexivity.
Qed.

Lemma wim_resource_roundtrip_witness :
  wim_read_resource sample_wim sample_res = Ok (seqZ 0 48 ++ replicate 6 97).
Proof. exact (wim_resource_roundtrip sample_wim sample_res sample_us sample_cs sample_holds). Defined.

Lemma wim_read_resource_safe_witness :
  safe (λ out, bytes out ∧ Z.of_nat (length out) = 54) (wim_read_resource sample_wim sample_res).
Proof.
  apply (wim_read_resource_safe sample_wim sample_res).
  - apply (bool_decide_unpack (Forall is_byte (fd sample_wim))). vm_compute. exact I.
  - split; vm_compute; congruence || reflexivity.
  - split; vm_compute; congruence || reflexivity.
  - vm_compute. congruence.
Defined.

(** ** The lookup table *)

(** The SHA-1 lookup finds the first entry with that hash; the zero hash names
    no resource. *)
Lemma find_hash_spec rs h :
  match find_hash rs h with
  | Some r => ∃ i, rs !! i = Some r ∧ hash r = h ∧ ∀ j r', rs !! j = Some r' → hash r' = h → (i <= j)%nat
  | None => ∀ r, r ∈ rs → hash r ≠ h
  end.
Proof.
  induction rs as [|r rs IH]; simpl; [intros r Hr; by apply not_elem_of_nil in Hr|].
  case_bool_decide as E; [exists 0%nat; split_and!; [done|done|lia]|].
  destruct (find_hash rs h) as [r0|].
  - destruct IH as (i & H1 & H2 & H3). exists (S i). split_and!; [done|done|].
    intros [|j] r' Hj Hr'; [simpl in Hj; injection Hj as <-; done|]. specialize (H3 j r' Hj Hr'). lia.
  - intros r' Hr'. apply elem_of_cons in Hr' as [->|Hr']; [done|by apply IH].
Qed.

(** The entries flagged METADATA, in order. *)
Definition metadata_entries (rs : list wim_resource_t) : list wim_resource_t :=
  filter (λ r, has (flags r) WIM_RESHDR_METADATA = true) rs.

Lemma nth_metadata_spec rs seen k :
  0 <= seen → seen + Z.of_nat (length rs) < 4294967296 → seen < k →
  nth_metadata rs seen k = metadata_entries rs !! Z.to_nat (k - seen - 1).
Proof.
  intros Hs. revert seen Hs. induction rs as [|r rs IH]; intros seen Hs Hlen Hk; [done|].
  cbn [nth_metadata length] in *. unfold metadata_entries in *. rewrite filter_cons.
  destruct (has (flags r) WIM_RESHDR_METADATA) eqn:E.
  - rewrite decide_True by done. rewrite u32_small by lia. destruct (Z.eqb_spec (seen + 1) k) as [<-|Hne].
    + by replace (Z.to_nat (seen + 1 - seen - 1)) with 0%nat by lia.
    + rewrite IH by lia. replace (Z.to_nat (k - seen - 1)) with (S (Z.to_nat (k - (seen + 1) - 1))) by lia. done.
  - rewrite decide_False by congruence. apply IH; lia.
Qed.

(** *** The bytes of the table *)

Definition reshdr_bytes (r : wim_resource_t) : list Z :=
  le_bytes 7 (size_in_wim r) ++ [flags r] ++ le_bytes 8 (offset r) ++ le_bytes 8 (orig_size r).
Definition entry_bytes (r : wim_resource_t) : list Z :=
  reshdr_bytes r ++ le_bytes 2 (part_number r) ++ le_bytes 4 (refcount r) ++ hash r.

Record res_ok (r : wim_resource_t) : Prop := {
  res_size : 0 <= size_in_wim r < 2 ^ 56;
  res_flags : is_byte (flags r);
  res_off : is_u64 (offset r);
  res_orig : is_u64 (orig_size r);
  res_part : 0 <= part_number r < 65536;
  res_ref : is_u32 (refcount r);
  res_hash : length (hash r) = 20%nat;
}.

Lemma length_entry_bytes r : res_ok r → length (entry_bytes r) = 50%nat.
Proof. intros Hr. unfold entry_bytes, reshdr_bytes. rewrite !length_app, !length_le_bytes, (res_hash r Hr). done. Qed.

(** A range of a concatenation, step by step. *)
Lemma sub_app_r (a b : list Z) off n : (length a <= off)%nat → sub (a ++ b) off n = sub b (off - length a) n.
Proof. intros H. unfold sub. by rewrite drop_app_ge. Qed.
Lemma sub_app_l (a b : list Z) n : n = length a → sub (a ++ b) 0 n = a.
Proof. intros ->. unfold sub. rewrite drop_0. apply take_app_length. Qed.

Lemma sub_shift (a b : list Z) n m k : k = length a → sub (a ++ b) (k + n) m = sub b n m.
Proof. intros ->. rewrite sub_app_r by lia. f_equal. lia. Qed.

Lemma bget_app_r (a b : list Z) i : Z.of_nat (length a) <= i → bget (a ++ b) i = bget b (i - Z.of_nat (length a)).
Proof. intros H. unfold bget. rewrite app_nth2 by lia. f_equal. lia. Qed.

Lemma bget_sub (p : list Z) off n i : (i < n)%nat → bget (sub p off n) (Z.of_nat i) = bget p (Z.of_nat (off + i)).
Proof.
  intros Hi. unfold bget, sub. rewrite !Nat2Z.id, !nth_lookup, lookup_take_lt, lookup_drop by lia. done.
Qed.

(** The resource header at [off] of [p], when its 24 bytes are there. *)
Lemma parse_reshdr_bytes p off r :
  res_ok r → sub p off 24 = reshdr_bytes r →
  parse_reshdr p (Z.of_nat off) = mkRes (size_in_wim r) (offset r) (orig_size r) (flags r) 0 0 (replicate 20 0).
Proof.
  intros Hr Hs. assert (∀ a n, (a + n <= 24)%nat → sub p (off + a) n = sub (reshdr_bytes r) a n) as Hf
    by (intros a n Hn; by rewrite <- Hs, sub_sub).
  unfold parse_reshdr, le64. f_equal.
  - rewrite Nat2Z.id. replace off with (off + 0)%nat by lia. rewrite Hf by lia. unfold reshdr_bytes.
    rewrite sub_app_l by (by rewrite length_le_bytes). apply le_val_le_bytes_small, (res_size r Hr).
  - replace (Z.to_nat (Z.of_nat off + 8)) with (off + 8)%nat by lia. rewrite Hf by lia. unfold reshdr_bytes.
    rewrite (sub_shift _ _ 1 8 7) by (by rewrite length_le_bytes). rewrite (sub_shift [_] _ 0 8 1) by done.
    rewrite sub_app_l by (by rewrite length_le_bytes). apply le_val_le_bytes_small, (res_off r Hr).
  - replace (Z.to_nat (Z.of_nat off + 16)) with (off + 16)%nat by lia. rewrite Hf by lia. unfold reshdr_bytes.
    rewrite (sub_shift _ _ 9 8 7) by (by rewrite length_le_bytes). rewrite (sub_shift [_] _ 8 8 1) by done.
    rewrite (sub_shift _ _ 0 8 8) by (by rewrite length_le_bytes). rewrite <- (app_nil_r (le_bytes 8 _)).
    rewrite sub_app_l by (by rewrite length_le_bytes). apply le_val_le_bytes_small, (res_orig r Hr).
  - replace (Z.of_nat off + 7) with (Z.of_nat (off + 7)) by lia. rewrite <- (bget_sub p off 24) by lia. rewrite Hs.
    unfold reshdr_bytes. rewrite bget_app_r by (rewrite length_le_bytes; lia). rewrite length_le_bytes. reflexivity.
Qed.

Lemma parse_entry_bytes tbl k r :
  res_ok r → sub tbl (k * 50) 50 = entry_bytes r → parse_entry tbl (Z.of_nat k) = r.
Proof.
  intros Hr Hs. assert (∀ a n, (a + n <= 50)%nat → sub tbl (k * 50 + a) n = sub (entry_bytes r) a n) as Hf
    by (intros a n Hn; by rewrite <- Hs, sub_sub).
  assert (length (reshdr_bytes r) = 24%nat) as Hl by (unfold reshdr_bytes; rewrite !length_app, !length_le_bytes; done).
  unfold parse_entry, LOOKUP_ENTRY_SIZE. replace (Z.of_nat k * 50) with (Z.of_nat (k * 50)) by lia.
  rewrite (parse_reshdr_bytes tbl (k * 50) r Hr).
  2:{ rewrite <- (Nat.add_0_r (k * 50)), Hf by lia. unfold entry_bytes. by apply sub_app_l. }
  unfold le16, le32. cbn [size_in_wim offset orig_size flags]. destruct r as [s o g f pn rc h]. f_equal.
  - replace (Z.to_nat (Z.of_nat (k * 50) + 24)) with (k * 50 + 24)%nat by lia. rewrite Hf by lia. unfold entry_bytes.
    rewrite (sub_shift _ _ 0 2 24) by done. rewrite sub_app_l by (by rewrite length_le_bytes).
    apply le_val_le_bytes_small, (res_part _ Hr).
  - replace (Z.to_nat (Z.of_nat (k * 50) + 26)) with (k * 50 + 26)%nat by lia. rewrite Hf by lia. unfold entry_bytes.
    rewrite (sub_shift _ _ 2 4 24) by done. rewrite (sub_shift _ _ 0 4 2) by (by rewrite length_le_bytes).
    rewrite sub_app_l by (by rewrite length_le_bytes). apply le_val_le_bytes_small, (res_ref _ Hr).
  - replace (Z.to_nat (Z.of_nat (k * 50) + 30)) with (k * 50 + 30)%nat by lia. rewrite Hf by lia. unfold entry_bytes.
    rewrite (sub_shift _ _ 6 20 24) by done. rewrite (sub_shift _ _ 4 20 2) by (by rewrite length_le_bytes).
    rewrite (sub_shift _ _ 0 20 4) by (by rewrite length_le_bytes). pose proof (res_hash _ Hr) as Hh. cbn [hash] in *.
    rewrite <- (app_nil_r h) at 1. by apply sub_app_l.
Qed.

(** A file whose header names a lookup table of the entries [rs]. *)
Record wim_file (f : list Z) (cs fl : Z) (otr : wim_resource_t) (rs : list wim_resource_t) : Prop := {
  wf_bytes : bytes f;
  wf_len : 208 <= Z.of_nat (length f);
  wf_tag : sub f 0 8 = image_tag;
  wf_cb : 208 <= le_val (sub f 8 4);
  wf_flags : le_val (sub f 0x10 4) = fl;
  wf_chunk : le_val (sub f 0x14 4) = cs;
  wf_otr : sub f 0x30 24 = reshdr_bytes otr;
  wf_otr_ok : res_ok otr;
  wf_raw : has (flags otr) WIM_RESHDR_COMPRESSED = false;
  wf_size : size_in_wim otr = 50 * Z.of_nat (length rs) ∧ rs ≠ [];
  wf_tbl : sub f (Z.to_nat (offset otr)) (Z.to_nat (size_in_wim otr)) = concat (map entry_bytes rs);
  wf_rs : Forall res_ok rs;
}.

Lemma parse_table rs tbl :
  Forall res_ok rs → tbl = concat (map entry_bytes rs) →
  map (parse_entry tbl) (seqZ 0 (Z.of_nat (length rs))) = rs.
Proof.
  intros Hok ->. apply list_eq. intros i. rewrite list_lookup_fmap.
  destruct (rs !! i) as [r|] eqn:Hr.
  - pose proof (lookup_lt_Some _ _ _ Hr) as Hi. rewrite lookup_seqZ_lt by lia. simpl. f_equal.
    pose proof (Forall_lookup_1 _ _ _ _ Hok Hr) as Hro.
    apply parse_entry_bytes; [done|].
    pose proof (sub_concat_at (map entry_bytes rs) i (entry_bytes r)) as H.
    rewrite list_lookup_fmap, Hr in H. specialize (H eq_refl). rewrite (length_entry_bytes r Hro) in H.
    rewrite (length_concat_eq (take i (map entry_bytes rs)) 50) in H.
    2:{ apply Forall_take, Forall_map. eapply Forall_impl; [exact Hok|]. intros x Hx. by apply length_entry_bytes. }
    rewrite length_take, length_map, Nat.min_l in H by lia. exact H.
  - apply lookup_ge_None in Hr. rewrite lookup_seqZ_ge by lia. done.
Qed.

(** Opening a WIM delivers its lookup table.  On a file with a valid header
    and an uncompressed table of the entries [rs], [wim_open] succeeds with
    exactly those entries, the header's chunk size (32768 for 0) and codec;
    then [wim_lookup_by_hash] finds the first entry of a non-zero SHA-1 or
    none, and [wim_metadata_resource k] is the [k]-th entry flagged METADATA. *)
Theorem wim_open_table f cs fl otr rs :
  wim_file f cs fl otr rs → Z.of_nat (length rs) < 2 ^ 32 - 1 →
  ∃ w, wim_open f = Ok w ∧ fd w = f ∧ res w = rs ∧ chunk_size w = (if cs =? 0 then 32768 else cs) ∧
    comp w = comp_of fl ∧
    (∀ k, 0 < k < 2 ^ 32 → wim_metadata_resource w k = metadata_entries rs !! Z.to_nat (k - 1)) ∧
    (∀ h, match wim_lookup_by_hash w h with
          | Some r => h ≠ replicate 20 0 ∧
              ∃ i, rs !! i = Some r ∧ hash r = h ∧ ∀ j r', rs !! j = Some r' → hash r' = h → (i <= j)%nat
          | None => h = replicate 20 0 ∨ ∀ r, r ∈ rs → hash r ≠ h
          end).
Proof.
  intros [Hb Hlen Htag Hcb Hfl Hcs Hotr Hok Hraw [Hsz Hne] Htbl Hrs] Hn.
  assert (∀ a n, (a + n <= 208)%nat → sub (sub f 0 208) a n = sub f a n) as Hh by (intros a n Ha; by rewrite sub_sub).
  assert (∀ off, (off + 24 <= 208)%nat → sub (sub f 0 208) off 24 = sub f off 24) as Hp by (intros; apply Hh; lia).
  unfold wim_open. rewrite wim_pread_ok by lia. cbn [mbind outcome_bind].
  change (Z.to_nat 0) with 0%nat. change (Z.to_nat 208) with 208%nat.
  rewrite Hh, Htag, bool_decide_eq_true_2 by (done || lia). cbn [negb fail_if].
  unfold le32. change (Z.to_nat 8) with 8%nat. change (Z.to_nat 0x10) with 16%nat. change (Z.to_nat 0x14) with 20%nat.
  rewrite (Hh 8%nat), (Hh 16%nat), (Hh 20%nat), (proj2 (Z.ltb_ge _ 208)), Hfl, Hcs by (done || lia). cbn [fail_if].
  change 0x30 with (Z.of_nat 48). rewrite (parse_reshdr_bytes _ 48 otr Hok) by (by rewrite Hp by lia).
  cbn [flags size_in_wim offset]. rewrite Hraw. cbn [fail_if].
  assert (0 < Z.of_nat (length rs)) by (destruct rs; [done|simpl; lia]).
  unfold LOOKUP_ENTRY_SIZE.
  rewrite (proj2 (Z.eqb_neq (size_in_wim otr) 0)), Hsz by lia.
  rewrite (Z.mul_comm 50), Z.mod_mul, Z.div_mul by lia. cbn [orb negb Z.eqb fail_if].
  assert (offset otr + Z.of_nat (length rs) * 50 <= Z.of_nat (length f)) as Hin.
  { apply (f_equal length) in Htbl. rewrite (length_concat_eq (map entry_bytes rs) 50) in Htbl.
    2:{ apply Forall_map. eapply Forall_impl; [exact Hrs|]. intros x Hx. by apply length_entry_bytes. }
    unfold sub in Htbl. rewrite length_take, length_drop, length_map in Htbl. pose proof (res_off _ Hok) as [? _]. lia. }
  rewrite wim_pread_ok by (pose proof (res_off _ Hok) as [? _]; lia). cbn [mbind outcome_bind].
  rewrite (parse_table rs) by (done || (rewrite <- Htbl; do 2 f_equal; lia)).
  eexists. split; [reflexivity|]. cbn [fd res chunk_size comp]. split_and!; [done|done|done|done| |].
  - intros k Hk. unfold wim_metadata_resource. cbn [res]. change (2 ^ 32) with 4294967296 in *.
    rewrite nth_metadata_spec by lia. f_equal. lia.
  - intros h. unfold wim_lookup_by_hash. cbn [res]. case_bool_decide as E; [by left|].
    pose proof (find_hash_spec rs h) as H1. destruct (find_hash rs h); [done|by right].
Qed.

(** A header followed by a table of two entries, the second one METADATA. *)
Definition sample_rs : list wim_resource_t :=
  [mkRes 11 308 11 0 1 1 (replicate 20 7); mkRes 9 319 20 6 1 1 (replicate 20 8)].
Definition sample_otr : wim_resource_t := mkRes 100 208 100 0 0 0 (replicate 20 0).
Definition sample_file : list Z :=
  image_tag ++ le_bytes 4 208 ++ le_bytes 4 0 ++ le_bytes 4 (WIM_FLAG_COMPRESSION + WIM_FLAG_COMP_LZX) ++
  le_bytes 4 0 ++ replicate 24 0 ++ reshdr_bytes sample_otr ++ replicate 136 0 ++ concat (map entry_bytes sample_rs).

Lemma res_ok_sample s o n f h : 0 <= s < 2 ^ 56 → is_u64 o → is_u64 n → is_byte f →
  res_ok (mkRes s o n f 1 1 (replicate 20 h)) ∧ res_ok (mkRes s o n f 0 0 (replicate 20 h)).
Proof.
  intros. split; constructor; cbn [size_in_wim offset orig_size flags part_number refcount hash];
    try assumption; try reflexivity; unfold is_u32; lia.
Qed.

Lemma sample_file_ok : wim_file sample_file 0 (WIM_FLAG_COMPRESSION + WIM_FLAG_COMP_LZX) sample_otr sample_rs.
Proof.
  constructor; try (vm_compute; reflexivity).
  - apply (bool_decide_unpack (Forall is_byte sample_file)). vm_compute. exact I.
  - vm_compute. congruence.
  - vm_compute. congruence.
  - apply res_ok_sample; unfold is_u64, is_byte; lia.
  - done.
  - repeat constructor; cbn [size_in_wim offset orig_size flags part_number refcount hash];
      try reflexivity; unfold is_byte, is_u32, is_u64; lia.
Qed.

Lemma wim_open_table_witness :
  ∃ w, wim_open sample_file = Ok w ∧ res w = sample_rs ∧ chunk_size w = 32768 ∧
    wim_metadata_resource w 1 = Some (mkRes 9 319 20 6 1 1 (replicate 20 8)).
Proof.
  destruct (wim_open_table sample_file 0 _ sample_otr sample_rs sample_file_ok) as (w & H1 & _ & H2 & H3 & _ & H4 & _).
  - vm_compute. reflexivity.
  - exists w. split_and!; [exact H1|exact H2|exact H3|]. rewrite (H4 1); [reflexivity|lia].
Defined.
