(* ===== verification/WimXml.v ===== *)
(** * The XML description of a WIM ([src/tools/iso-patch-mac/engine/wim.c])

    The targeted scan for an image's language and size: pointers into the text
    are offsets, the text is the decoded ASCII without its NUL. *)

From Stdlib Require Import String Ascii.
From stdpp Require Import gmap.
From S2P Require Import Prelude Bytes Outcome Huffman Lzx Wim.

Definition chars (s : string) : list Z := map (λ c, Z.of_nat (nat_of_ascii c)) (list_ascii_of_string s).
Arguments chars s%_string.

(** ** [strstr] *)

Fixpoint starts (needle hay : list Z) : bool :=
  match needle, hay with
  | [], _ => true
  | c :: needle', d :: hay' => (c =? d) && starts needle' hay'
  | _ :: _, [] => false
  end.

Fixpoint strstr (hay needle : list Z) : option nat :=
  if starts needle hay then Some 0%nat else
  match hay with
  | [] => None
  | _ :: hay' => i ← strstr hay' needle; Some (S i)
  end.

(** From offset [from], as an offset of the whole text. *)
Definition strstr_from (xml : list Z) (from : nat) (needle : list Z) : option nat :=
  i ← strstr (drop from xml) needle; Some (from + i)%nat.

(** ** The accessors *)

(** [%u] *)
Fixpoint print_u (fuel : nat) (v : Z) : list Z :=
  match fuel with
  | O => []
  | S fuel' => (if v <? 10 then [] else print_u fuel' (v / 10)) ++ [48 + v mod 10]
  end.

Definition index_needle (idx : Z) : list Z := chars "INDEX=" ++ [34] ++ print_u 10 idx ++ [34].

Definition xml_image_block (xml : list Z) (idx : Z) : option (nat * nat) :=
  p ← strstr_from xml 0 (index_needle idx);
  Some (p, default (length xml) (strstr_from xml p (chars "</IMAGE>"))).

(** The text copied to [out], of capacity [cap], without its NUL. *)
Definition xml_tag_value (xml : list Z) (blk end_ : nat) (open close : list Z) (cap : nat) : option (list Z) :=
  if Nat.eqb cap 0 then None else
  a ← strstr_from xml blk open;
  if (end_ <=? a)%nat then None else
  let a := (a + length open)%nat in
  b ← strstr_from xml a close;
  if (end_ <? b)%nat then None else
  let n := (b - a)%nat in
  let n := if (cap <=? n)%nat then (cap - 1)%nat else n in
  Some (sub xml a n).

(** A non-empty value. *)
Definition nonempty (v : option (list Z)) : option (list Z) :=
  match v with Some (c :: l) => Some (c :: l) | _ => None end.

Definition wim_image_default_language (w : wim) (image_index : Z) (cap : nat) : option (list Z) :=
  if Nat.eqb cap 0 then None else
  xml ← xml_ascii w;
  '(blk, end_) ← xml_image_block xml image_index;
  match nonempty (xml_tag_value xml blk end_ (chars "<DEFAULT>") (chars "</DEFAULT>") cap) with
  | Some v => Some v
  | None => nonempty (xml_tag_value xml blk end_ (chars "<LANGUAGE>") (chars "</LANGUAGE>") cap)
  end.

(** [for (s = buf; digit; s++) v = v * 10 + (s[0] - '0')] *)
Fixpoint parse_dec (buf : list Z) (v : Z) : Z :=
  match buf with
  | c :: buf' => if (48 <=? c) && (c <=? 57) then parse_dec buf' (u64 (v * 10 + (c - 48))) else v
  | [] => v
  end.

Definition wim_image_total_bytes (w : wim) (image_index : Z) : Z :=
  match xml_ascii w with
  | None => 0
  | Some xml =>
      match xml_image_block xml image_index with
      | None => 0
      | Some (blk, end_) =>
          match xml_tag_value xml blk end_ (chars "<TOTALBYTES>") (chars "</TOTALBYTES>") 32 with
          | None => 0
          | Some buf => parse_dec buf 0
          end
      end
  end.

(** ** [strstr] finds the first occurrence *)

(** [needle] occurs at [i], and nowhere from [from] up to [i]. *)
Definition first_at (xml : list Z) (from : nat) (needle : list Z) (i : nat) : Prop :=
  (from <= i)%nat ∧ starts needle (drop i xml) = true ∧
  ∀ j, (from <= j < i)%nat → starts needle (drop j xml) = false.

Lemma strstr_first hay needle i :
  strstr hay needle = Some i ↔ starts needle (drop i hay) = true ∧ ∀ j, (j < i)%nat → starts needle (drop j hay) = false.
Proof.
  revert i. induction hay as [|c hay IH]; intros i.
  - simpl. destruct (starts needle []) eqn:E.
    + split.
      * intros [= <-]. split; [done|lia].
      * intros [_ H]. f_equal. destruct i; [done|]. specialize (H 0%nat ltac:(lia)). simpl in H. congruence.
    + split; [done|]. intros [H _]. rewrite drop_nil in H. congruence.
  - cbn [strstr]. destruct (starts needle (c :: hay)) eqn:E.
    + split.
      * intros [= <-]. split; [done|lia].
      * intros [_ H]. f_equal. destruct i; [done|]. specialize (H 0%nat ltac:(lia)). simpl in H. congruence.
    + split.
      * intros H. destruct (strstr hay needle) as [k|]; [|discriminate]. simpl in H. injection H as <-.
        destruct (proj1 (IH k) eq_refl) as [H1 H2]. split; [done|]. intros [|j] Hj; [done|]. apply H2. lia.
      * intros [H1 H2]. destruct i as [|i]; [simpl in H1; congruence|].
        rewrite (proj2 (IH i)); [done|]. split; [done|]. intros j Hj. apply (H2 (S j)). lia.
Qed.

Lemma strstr_from_first xml from needle i : strstr_from xml from needle = Some i ↔ first_at xml from needle i.
Proof.
  unfold strstr_from, first_at. split.
  - intros H. destruct (strstr (drop from xml) needle) as [k|] eqn:E; [|discriminate]. simpl in H. injection H as <-.
    apply strstr_first in E as [H1 H2]. rewrite drop_drop in H1. split_and!; [lia|done|].
    intros j Hj. specialize (H2 (j - from)%nat ltac:(lia)). rewrite drop_drop in H2.
    by replace (from + (j - from))%nat with j in H2 by lia.
  - intros (H0 & H1 & H2). rewrite (proj2 (strstr_first (drop from xml) needle (i - from))).
    + simpl. f_equal. lia.
    + rewrite drop_drop. replace (from + (i - from))%nat with i by lia. split; [done|].
      intros j Hj. rewrite drop_drop. apply H2. lia.
Qed.

Lemma strstr_from_none xml from needle :
  strstr_from xml from needle = None ↔ ∀ i, ¬ first_at xml from needle i.
Proof.
  split.
  - intros H i Hi. apply strstr_from_first in Hi. congruence.
  - intros H. destruct (strstr_from xml from needle) as [i|] eqn:E; [|done]. apply strstr_from_first in E. by apply H in E.
Qed.

(** ** What the accessors return *)

(** The image's element: from its INDEX attribute to its end tag, or to the end
    of the text. *)
Definition image_span (xml : list Z) (idx : Z) (p e : nat) : Prop :=
  first_at xml 0 (index_needle idx) p ∧
  (first_at xml p (chars "</IMAGE>") e ∨ (e = length xml ∧ ∀ i, ¬ first_at xml p (chars "</IMAGE>") i)).

Lemma xml_image_block_spec xml idx p e : image_span xml idx p e → xml_image_block xml idx = Some (p, e).
Proof.
  intros [Hp He]. unfold xml_image_block. apply strstr_from_first in Hp. rewrite Hp. cbn [mbind option_bind].
  destruct He as [He|[-> He]].
  - apply strstr_from_first in He. by rewrite He.
  - apply strstr_from_none in He. by rewrite He.
Qed.

(** An element of the span: [v] is the text between its tags. *)
Definition tag_text (xml : list Z) (p e : nat) (open close v : list Z) : Prop :=
  ∃ a b, first_at xml p open a ∧ (a < e)%nat ∧ first_at xml (a + length open) close b ∧ (b <= e)%nat ∧
    v = sub xml (a + length open) (b - (a + length open)).

Lemma xml_tag_value_spec xml p e open close v cap :
  tag_text xml p e open close v → (0 < cap)%nat →
  xml_tag_value xml p e open close cap = Some (take (cap - 1) v).
Proof.
  intros (a & b & Ha & Hae & Hb & Hbe & ->) Hc. unfold xml_tag_value.
  rewrite (proj2 (Nat.eqb_neq cap 0)) by lia. apply strstr_from_first in Ha, Hb. rewrite Ha. cbn [mbind option_bind].
  rewrite (proj2 (Nat.leb_gt e a)) by lia. rewrite Hb. cbn [mbind option_bind].
  rewrite (proj2 (Nat.ltb_ge e b)) by lia. f_equal. unfold sub. rewrite take_take. f_equal.
  destruct (Nat.leb_spec cap (b - (a + length open))); lia.
Qed.

(** The number a digit string denotes. *)
Definition dec_val (ds : list Z) : Z := fold_left (λ v d, v * 10 + (d - 48)) ds 0.

Lemma parse_dec_spec ds v0 :
  Forall (λ d, 48 <= d <= 57) ds → parse_dec ds (u64 v0) = u64 (fold_left (λ v d, v * 10 + (d - 48)) ds v0).
Proof.
  intros H. revert v0. induction H as [|d ds Hd _ IH]; intros v0; [done|]. cbn [parse_dec fold_left].
  rewrite (proj2 (Z.leb_le 48 d)), (proj2 (Z.leb_le d 57)) by lia. cbn [andb]. rewrite <- IH. f_equal.
  unfold u64. rewrite <- Z.add_mod_idemp_l, Z.mul_mod_idemp_l, Z.add_mod_idemp_l by lia. done.
Qed.

(** The image's size is read from its own element.  When the text has the
    image of that INDEX and, inside its span, a TOTALBYTES element of at most
    31 digits, [wim_image_total_bytes] is the number those digits denote
    (modulo 2^64); the index needle ends with the closing quote, so that image
    1 is not taken for image 11. *)
Theorem wim_total_bytes_spec w xml idx p e ds :
  xml_ascii w = Some xml → image_span xml idx p e →
  tag_text xml p e (chars "<TOTALBYTES>") (chars "</TOTALBYTES>") ds →
  Forall (λ d, 48 <= d <= 57) ds → (length ds <= 31)%nat →
  wim_image_total_bytes w idx = u64 (dec_val ds).
Proof.
  intros Hx Hs Ht Hd Hl. unfold wim_image_total_bytes. rewrite Hx, (xml_image_block_spec _ _ _ _ Hs).
  rewrite (xml_tag_value_spec _ _ _ _ _ _ 32 Ht) by lia. rewrite take_ge by (simpl; lia).
  by apply (parse_dec_spec ds 0).
Qed.

Definition sample_xml : list Z :=
  chars "<WIM><IMAGE INDEX=" ++ [34] ++ chars "11" ++ [34] ++ chars "><TOTALBYTES>7</TOTALBYTES></IMAGE><IMAGE INDEX=" ++
  [34] ++ chars "1" ++ [34] ++ chars "><TOTALBYTES>1234</TOTALBYTES></IMAGE></WIM>".

Lemma wim_total_bytes_spec_witness :
  wim_image_total_bytes (mkWim [] WIM_COMP_NONE 0 0 0 sample_res [] sample_res (Some sample_xml)) 1 = 1234.
Proof.
  rewrite (wim_total_bytes_spec _ sample_xml 1 64 103 (chars "1234")).
  - reflexivity.
  - reflexivity.
  - split; [apply strstr_from_first; vm_compute; reflexivity|left; apply strstr_from_first; vm_compute; reflexivity].
  - exists 74%nat, 90%nat. split_and!; [apply strstr_from_first; vm_compute; reflexivity|lia|
      apply strstr_from_first; vm_compute; reflexivity|lia|vm_compute; reflexivity].
  - apply (bool_decide_unpack (Forall (λ d, 48 <= d <= 57) (chars "1234"))). vm_compute. exact I.
  - vm_compute. lia.
Defined.

(** A tag never overruns its buffer. *)
Lemma xml_tag_value_fits xml p e open close cap v :
  xml_tag_value xml p e open close cap = Some v → (length v < cap)%nat.
Proof.
  unfold xml_tag_value. destruct (Nat.eqb_spec cap 0); [done|].
  destruct (strstr_from xml p open) as [a|]; [|done]. cbn [mbind option_bind]. destruct (e <=? a)%nat; [done|].
  destruct (strstr_from xml (a + length open) close) as [b|]; [|done]. cbn [mbind option_bind].
  destruct (e <? b)%nat; [done|]. intros [= <-]. unfold sub. rewrite length_take.
  destruct (Nat.leb_spec cap (b - (a + length open))); lia.
Qed.

Lemma default_language_fits w idx cap v : wim_image_default_language w idx cap = Some v → (0 < length v < cap)%nat.
Proof.
  unfold wim_image_default_language. destruct (Nat.eqb_spec cap 0); [done|].
  destruct (xml_ascii w) as [xml|]; [|done]. cbn [mbind option_bind].
  destruct (xml_image_block xml idx) as [[p e]|]; [|done]. cbn [mbind option_bind].
  assert (∀ o c, nonempty (xml_tag_value xml p e o c cap) = Some v → (0 < length v < cap)%nat) as H.
  { intros o c Hv. destruct (xml_tag_value xml p e o c cap) as [[|x l]|] eqn:E; [done| |done].
    simpl in Hv. injection Hv as <-. apply xml_tag_value_fits in E. simpl in *. lia. }
  destruct (nonempty (xml_tag_value xml p e (chars "<DEFAULT>") _ cap)) as [v'|] eqn:E; [|apply H].
  intros [= ->]. by eapply H.
Qed.
