(* ===== verification/WimImage.v ===== *)
(** * The metadata of a WIM image ([src/tools/iso-patch-mac/engine/wimimg.c])

    The security table and the directory entries inside the metadata resource.
    Pointers into the metadata buffer are offsets; a read outside the buffer is
    [Fault]. *)

From stdpp Require Import gmap.
From S2P Require Import Prelude Bytes Outcome Huffman Lzx Wim.

Record wim_image := mkImage {
  meta : list Z;
  root_offset : Z;
  sd_off : list Z;
  sd_len : list Z;
}.

Definition meta_size (img : wim_image) : Z := Z.of_nat (length (meta img)).
Definition sd_count (img : wim_image) : Z := Z.of_nat (length (sd_off img)).

Definition rd16 (m : list Z) (off : Z) : outcome Z := b ← slice m off 2; Ok (le_val b).
Definition rd32 (m : list Z) (off : Z) : outcome Z := b ← slice m off 4; Ok (le_val b).
Definition rd64 (m : list Z) (off : Z) : outcome Z := b ← slice m off 8; Ok (le_val b).

(** [(x + 7) & ~(uint64_t)7] *)
Definition align8 (x : Z) : Z := Z.land (u64 (x + 7)) (u64 (Z.lnot 7)).

(** ** Opening an image *)

(** [for (i = 0; i < ne; i++)]: offset and length of each descriptor. *)
Fixpoint sd_loop (n : nat) (m : list Z) (i cur : Z) : outcome (list Z * list Z) :=
  match n with
  | O => Ok ([], [])
  | S n' =>
      len ← rd64 m (8 + i * 8);
      let cur' := u64 (cur + len) in
      fail_if (Z.of_nat (length m) <? cur') (-1) (
      '(offs, lens) ← sd_loop n' m (i + 1) cur';
      Ok (cur :: offs, len :: lens))
  end.

(** Every non-zero result of the resource reader is an error. *)
Definition or_null {A} (o : outcome A) : outcome A := match o with Err _ => Err (-1) | _ => o end.

Definition parse_security (m : list Z) : outcome wim_image :=
  let n := Z.of_nat (length m) in
  total ← rd32 m 0;
  ne ← rd32 m 4;
  fail_if (n <? 8 + ne * 8) (-1) (
  '(offs, lens) ← sd_loop (Z.to_nat ne) m 0 (8 + ne * 8);
  let root := align8 total in
  fail_if (n <? root + 8) (-1) (
  Ok (mkImage m root offs lens))).

Definition wim_image_open (w : wim) (image_index : Z) : outcome wim_image :=
  match wim_metadata_resource w image_index with
  | None => Err (-1)
  | Some md =>
      fail_if (orig_size md <? 8) (-1) (
      m ← or_null (wim_read_resource w md);
      parse_security m)
  end.

Definition wim_image_meta (img : wim_image) : list Z * Z := (meta img, meta_size img).
Definition wim_image_root_offset (img : wim_image) : Z := root_offset img.
Definition wim_image_sd_count (img : wim_image) : Z := sd_count img.

(** Offset and length of a descriptor in the metadata. *)
Definition wim_image_sd (img : wim_image) (security_id : Z) : option (Z * Z) :=
  if (security_id <? 0) || (sd_count img <=? security_id) then None
  else Some (bget (sd_off img) security_id, bget (sd_len img) security_id).

(** ** Directory entries *)

Definition WIM_FILE_ATTRIBUTE_REPARSE_POINT : Z := 0x400.

Record wim_dentry_t := mkDentry {
  self_offset : Z;
  d_length : Z;
  attributes : Z;
  security_id : Z;
  subdir_offset : Z;
  creation_time : Z;
  last_access_time : Z;
  last_write_time : Z;
  d_hash : list Z;
  reparse_tag : Z;
  hard_link_group_id : Z;
  num_ads : Z;
  file_name : option Z;         (* offset in the metadata *)
  file_name_nbytes : Z;
  short_name : option Z;
  short_name_nbytes : Z;
  ads_offset : Z;
  tagged_offset : Z;
}.

Definition OFF_HASH : Z := 64.

(** [for (k = 0; k < num_ads; k++)]: past the alternate streams. *)
Fixpoint ads_walk (n : nat) (m : list Z) (a rec_end : Z) : outcome Z :=
  match n with
  | O => Ok a
  | S n' =>
      if rec_end <? u64 (a + 38) then Ok rec_end else
      alen ← rd64 m a;
      let a := align8 (u64 (a + (if alen =? 0 then 38 else alen))) in
      if rec_end <? a then Ok rec_end else ads_walk n' m a rec_end
  end.

(** A name of [nbytes] bytes and its terminator at [p]. *)
Definition name_at (p nbytes rec_end : Z) : outcome (option Z * Z) :=
  if nbytes =? 0 then Ok (None, p) else
  fail_if (rec_end <? u64 (u64 (p + nbytes) + 2)) (-1) (Ok (Some p, u64 (p + (nbytes + 2)))).

(** [Ok None]: the end of the sibling list. *)
Definition wim_dentry_at (img : wim_image) (off : Z) : outcome (option wim_dentry_t) :=
  let m := meta img in
  let n := meta_size img in
  fail_if (n <? u64 (off + 8)) (-1) (
  len ← rd64 m off;
  if len =? 0 then Ok None else
  fail_if ((len <? 102) || (n <? u64 (off + len))) (-1) (
  attr ← rd32 m (off + 8);
  sid ← rd32 m (off + 12);
  sub_ ← rd64 m (off + 16);
  ct ← rd64 m (off + 40);
  at_ ← rd64 m (off + 48);
  wt ← rd64 m (off + 56);
  h ← slice m (off + OFF_HASH) 20;
  '(rt, hl) ← (if has attr WIM_FILE_ATTRIBUTE_REPARSE_POINT
               then v ← rd32 m (off + 88); Ok (v, 0) else v ← rd64 m (off + 88); Ok (0, v));
  na ← rd16 m (off + 96);
  sn ← rd16 m (off + 98);
  fn ← rd16 m (off + 100);
  let rec_end := u64 (off + len) in
  '(fname, p) ← name_at (u64 (off + 102)) fn rec_end;
  '(sname, p) ← name_at p sn rec_end;
  let ads := align8 p in
  a ← ads_walk (Z.to_nat na) m ads rec_end;
  Ok (Some (mkDentry off len attr (i32 sid) sub_ ct at_ wt h rt hl na fname fn sname sn ads a)))).

Record wim_tagged_t := mkTagged {
  t_tag : Z;
  t_length : Z;
  t_data : Z;                   (* offset in the metadata *)
}.

(** [None]: no room for another item; else the item and the next iterator. *)
Definition wim_dentry_tagged_next (img : wim_image) (d : wim_dentry_t) (iter : Z) : outcome (option (wim_tagged_t * Z)) :=
  let end_ := u64 (self_offset d + d_length d) in
  if end_ <? u64 (iter + 8) then Ok None else
  tag ← rd32 (meta img) iter;
  len ← rd32 (meta img) (iter + 4);
  fail_if (end_ <? u64 (iter + 8 + len)) (-1) (
  Ok (Some (mkTagged tag len (iter + 8), align8 (u64 (iter + 8 + len))))).

Record wim_ads_t := mkAds {
  a_length : Z;
  a_hash : list Z;
  a_name : option Z;
  a_name_nbytes : Z;
}.

(** [for (k = 0; k <= i; k++)], [n = i - k]. *)
Fixpoint ads_loop (n : nat) (m : list Z) (off : Z) : outcome wim_ads_t :=
  fail_if (Z.of_nat (length m) <? u64 (off + 38)) (-1) (
  len ← rd64 m off;
  match n with
  | O =>
      h ← slice m (off + 16) 20;
      nb ← rd16 m (off + 36);
      if nb =? 0 then Ok (mkAds len h None nb) else
      fail_if (Z.of_nat (length m) <? u64 (off + 38 + nb)) (-1) (Ok (mkAds len h (Some (off + 38)) nb))
  | S n' => ads_loop n' m (align8 (u64 (off + (if len =? 0 then 38 else len))))
  end).

Definition wim_dentry_ads (img : wim_image) (d : wim_dentry_t) (i : Z) : outcome wim_ads_t :=
  fail_if (num_ads d <=? i) (-1) (ads_loop (Z.to_nat i) (meta img) (ads_offset d)).

(** ** Arithmetic of the offsets *)

Lemma align8_div x : 0 <= x → align8 x = u64 (x + 7) / 8 * 8.
Proof. intros Hx. unfold align8. apply (land_round8 _ 64); [lia|apply u64_range]. Qed.

Lemma align8_spec x :
  0 <= x < 2 ^ 64 - 7 → x <= align8 x < x + 8 ∧ align8 x mod 8 = 0.
Proof.
  intros Hx. rewrite align8_div by lia. change (2 ^ 64) with 18446744073709551616 in Hx. rewrite u64_small by lia.
  split; [|apply Z.mod_mul; lia]. pose proof (Z.div_mod (x + 7) 8 ltac:(lia)). pose proof (Z.mod_pos_bound (x + 7) 8 ltac:(lia)). lia.
Qed.

Lemma align8_range x : 0 <= x → 0 <= align8 x < 2 ^ 64.
Proof.
  intros Hx. rewrite align8_div by lia. pose proof (u64_range (x + 7)) as [H1 H2].
  pose proof (Z.div_mod (u64 (x + 7)) 8 ltac:(lia)). pose proof (Z.mod_pos_bound (u64 (x + 7)) 8 ltac:(lia)). lia.
Qed.

Lemma align8_id x : 0 <= x < 2 ^ 64 - 7 → x mod 8 = 0 → align8 x = x.
Proof.
  intros Hx Hm. rewrite align8_div by lia. change (2 ^ 64) with 18446744073709551616 in Hx. rewrite u64_small by lia. dlia.
Qed.

(** ** Reads inside the buffer *)

Lemma safe_rd (m : list Z) off n :
  bytes m → 0 <= off → 0 <= n → off + n <= Z.of_nat (length m) →
  safe (λ v, 0 <= v < 256 ^ n) (b ← slice m off n; Ok (le_val b)).
Proof.
  intros Hb Ho Hn Hl. eapply safe_bind; [by apply safe_slice|]. intros b [H1 H2]. simpl.
  pose proof (le_val_bound b H2) as H. by rewrite H1 in H.
Qed.

Lemma safe_rd16 m off : bytes m → 0 <= off → off + 2 <= Z.of_nat (length m) → safe (λ v, 0 <= v < 65536) (rd16 m off).
Proof. intros. by apply (safe_rd m off 2). Qed.
Lemma safe_rd32 m off : bytes m → 0 <= off → off + 4 <= Z.of_nat (length m) → safe is_u32 (rd32 m off).
Proof. intros. by apply (safe_rd m off 4). Qed.
Lemma safe_rd64 m off : bytes m → 0 <= off → off + 8 <= Z.of_nat (length m) → safe is_u64 (rd64 m off).
Proof. intros. by apply (safe_rd m off 8). Qed.

(** The sizes of a buffer that fits in memory. *)
Definition in_memory (m : list Z) : Prop := bytes m ∧ Z.of_nat (length m) < 2 ^ 62.

Lemma safe_ads_walk n m a rec_end :
  in_memory m → 0 <= rec_end <= Z.of_nat (length m) → 0 <= a <= rec_end + 8 →
  safe (λ a', 0 <= a' <= rec_end + 8) (ads_walk n m a rec_end).
Proof.
  intros [Hb Hn] Hr. change (2 ^ 62) with 4611686018427387904 in Hn.
  revert a. induction n as [|n IH]; intros a Ha; cbn [ads_walk]; [done|].
  rewrite u64_small by lia. destruct (Z.ltb_spec rec_end (a + 38)); [simpl; lia|].
  eapply safe_bind; [apply safe_rd64; [done|lia|lia]|]. intros alen Hal.
  set (x := u64 (a + (if alen =? 0 then 38 else alen))).
  pose proof (u64_range (a + (if alen =? 0 then 38 else alen))) as Hx. fold x in Hx. destruct Hx as [Hx _].
  pose proof (align8_range x Hx). destruct (Z.ltb_spec rec_end (align8 x)); [simpl; lia|]. apply IH. lia.
Qed.

(** A name that was accepted lies inside the record. *)
Definition name_in (name : option Z) (nbytes lo hi : Z) : Prop :=
  match name with Some p => lo <= p ∧ p + nbytes + 2 <= hi | None => nbytes = 0 end.

Lemma safe_name_at p nb rec_end :
  0 <= p < 2 ^ 63 → 0 <= nb < 65536 → 
  safe (λ '(o, p'), name_in o nb p rec_end ∧ p <= p' ∧ (o ≠ None → p' <= rec_end) ∧ (o = None → p' = p)) (name_at p nb rec_end).
Proof.
  intros Hp Hn. change (2 ^ 63) with 9223372036854775808 in Hp. unfold name_at.
  destruct (Z.eqb_spec nb 0); [simpl; split_and!; [done|lia|done|done]|].
  apply safe_fail_if. intros E. zbool. rewrite (u64_small (p + nb)), u64_small in E by lia.
  rewrite (u64_small (p + (nb + 2))) by lia. simpl. split_and!; [lia|lia|lia|lia|done].
Qed.

(** The fields of a directory entry that was accepted. *)
Record dentry_in (m : list Z) (off : Z) (d : wim_dentry_t) : Prop := {
  di_self : self_offset d = off;
  di_len : 102 <= d_length d ∧ off + d_length d <= Z.of_nat (length m);
  di_hash : bytes (d_hash d) ∧ length (d_hash d) = 20%nat;
  di_ads : 0 <= num_ads d < 65536;
  di_file : name_in (file_name d) (file_name_nbytes d) (off + 102) (off + d_length d);
  di_short : name_in (short_name d) (short_name_nbytes d) (off + 102) (off + d_length d);
  di_adso : 0 <= ads_offset d <= off + d_length d + 8;
  di_tagged : 0 <= tagged_offset d <= off + d_length d + 8;
}.

Lemma safe_dentry_at img off :
  in_memory (meta img) → 0 <= off < 2 ^ 64 - 8 → (∀ len, rd64 (meta img) off = Ok len → off + len < 2 ^ 64) →
  safe (λ o, ∀ d, o = Some d → dentry_in (meta img) off d) (wim_dentry_at img off).
Proof.
  intros Hm Ho Hlen. pose proof Hm as [Hb Hn]. unfold wim_dentry_at, meta_size.
  change (2 ^ 64) with 18446744073709551616 in *. change (2 ^ 62) with 4611686018427387904 in *.
  apply safe_fail_if. intros E. zbool. rewrite u64_small in E by lia.
  pose proof (safe_rd64 (meta img) off Hb ltac:(lia) ltac:(lia)) as Hr.
  destruct (rd64 (meta img) off) as [len| | |]; [|done..]. cbn [mbind outcome_bind]. simpl in Hr. unfold is_u64 in Hr.
  specialize (Hlen len eq_refl). destruct (Z.eqb_spec len 0); [done|].
  apply safe_fail_if. intros E2. zbool. rewrite u64_small in * by lia.
  do 2 (eapply safe_bind; [apply safe_rd32; [done|lia|lia]|]; intros ? ?).
  do 4 (eapply safe_bind; [apply safe_rd64; [done|lia|lia]|]; intros ? ?).
  eapply safe_bind; [apply safe_slice; [done|unfold OFF_HASH; lia..]|]. intros h [Hh1 Hh2].
  eapply (safe_bind (λ _, True)).
  { destruct (has _ _); [eapply safe_bind; [apply safe_rd32; [done|lia|lia]|done]|
      eapply safe_bind; [apply safe_rd64; [done|lia|lia]|done]]. }
  intros [rt hl] _.
  do 3 (eapply safe_bind; [apply safe_rd16; [done|lia|lia]|]; intros ? ?).
  rewrite u64_small by lia.
  eapply safe_bind; [apply safe_name_at; [lia|done]|]. intros [fname p1] (F1 & F2 & F3 & F4).
  assert (p1 <= off + len) by (destruct fname; [apply F3; done|rewrite F4 by done; lia]).
  eapply safe_bind; [apply safe_name_at; [lia|done]|]. intros [sname p2] (S1 & S2 & S3 & S4).
  assert (p2 <= off + len) by (destruct sname; [apply S3; done|rewrite S4 by done; lia]).
  pose proof (align8_spec p2 ltac:(lia)) as [Ha _].
  eapply safe_bind; [apply safe_ads_walk; [done|lia|lia]|]. intros tg Htg.
  simpl. intros d [= <-]. constructor; cbn; try done; try lia.
  - split; [done|lia].
  - destruct sname; simpl in *; lia.
Qed.

(** C32. A directory entry is parsed inside the metadata.  Unless [off + 8] or
    [off] plus the entry's own length exceeds 64 bits, [wim_dentry_at] reads only
    inside the metadata, whatever its bytes; the entry it accepts lies inside
    it, and so do both names, their terminators included.  (With a wrap, the
    guards pass and the reads leave the buffer: [dentry_offset_wraps],
    [dentry_length_wraps].) *)
Theorem wim_dentry_at_safe img off :
  in_memory (meta img) → 0 <= off < 2 ^ 64 - 8 → (∀ len, rd64 (meta img) off = Ok len → off + len < 2 ^ 64) →
  safe (λ o, ∀ d, o = Some d → dentry_in (meta img) off d) (wim_dentry_at img off).
Proof. apply safe_dentry_at. Qed.

Example dentry_offset_wraps : wim_dentry_at (mkImage (replicate 16 0) 0 [] []) (2 ^ 64 - 4) = Fault.
Proof. vm_compute. reflexivity. Qed.

Example dentry_length_wraps :
  wim_dentry_at (mkImage (replicate 8 0 ++ le_bytes 8 (2 ^ 64 - 8)) 0 [] []) 8 = Fault.
Proof. vm_compute. reflexivity. Qed.

(** Items after the names of an entry that was accepted. *)
Lemma tagged_next_safe img off d iter :
  in_memory (meta img) → dentry_in (meta img) off d → 0 <= off → 0 <= iter <= off + d_length d + 8 →
  safe (λ o, ∀ t it', o = Some (t, it') →
    t_data t + t_length t <= off + d_length d ∧ iter + 8 <= it' <= off + d_length d + 8)
    (wim_dentry_tagged_next img d iter).
Proof.
  intros [Hb Hn] Hd Ho Hi. destruct Hd as [Hself [Hl1 Hl2] _ _ _ _ _ _].
  change (2 ^ 62) with 4611686018427387904 in Hn. unfold wim_dentry_tagged_next. rewrite Hself.
  rewrite (u64_small (off + d_length d)), (u64_small (iter + 8)) by lia.
  destruct (Z.ltb_spec (off + d_length d) (iter + 8)); [simpl; by intros|].
  eapply safe_bind; [apply safe_rd32; [done|lia|lia]|]. intros tag Ht.
  eapply safe_bind; [apply safe_rd32; [done|lia|lia]|]. intros len Hlen. unfold is_u32 in Hlen.
  rewrite u64_small by lia. apply safe_fail_if. intros E. zbool. simpl. intros t it' [= <- <-]. cbn.
  pose proof (align8_spec (iter + 8 + len) ltac:(lia)). lia.
Qed.

(** Walking all the tagged items from the entry's [tagged_offset]: each call
    advances by at least eight bytes, so the walk ends. *)
Fixpoint tagged_all (fuel : nat) (img : wim_image) (d : wim_dentry_t) (iter : Z) : outcome (list wim_tagged_t) :=
  match fuel with
  | O => Spin
  | S fuel' =>
      o ← wim_dentry_tagged_next img d iter;
      match o with
      | None => Ok []
      | Some (t, it') => l ← tagged_all fuel' img d it'; Ok (t :: l)
      end
  end.

Lemma tagged_all_safe fuel img off d iter :
  in_memory (meta img) → dentry_in (meta img) off d → 0 <= off → 0 <= iter <= off + d_length d + 8 →
  off + d_length d + 8 - iter < 8 * Z.of_nat fuel →
  safe (λ l, Forall (λ t, t_data t + t_length t <= off + d_length d) l) (tagged_all fuel img d iter).
Proof.
  intros Hm Hd Ho. revert iter. induction fuel as [|fuel IH]; intros iter Hi Hf; [lia|]. cbn [tagged_all].
  eapply safe_bind; [by apply (tagged_next_safe img off)|]. intros [[t it']|] H; [|simpl; constructor].
  destruct (H t it' eq_refl) as [H1 H2]. eapply safe_bind; [apply IH; lia|]. intros l Hl. simpl. by constructor.
Qed.

(** ** The security table *)

Lemma sd_loop_spec n m i cur :
  in_memory m → 0 <= i → 8 + (i + Z.of_nat n) * 8 <= Z.of_nat (length m) → 0 <= cur <= Z.of_nat (length m) →
  safe (λ '(offs, lens), length offs = n ∧ length lens = n ∧ Forall is_u64 lens ∧
    (cur + foldr Z.add 0 lens < 2 ^ 64 →
     ∀ k o l, offs !! k = Some o → lens !! k = Some l → cur <= o ∧ o + l <= Z.of_nat (length m)))
    (sd_loop n m i cur).
Proof.
  intros [Hb Hn]. change (2 ^ 62) with 4611686018427387904 in Hn. change (2 ^ 64) with 18446744073709551616.
  revert i cur. induction n as [|n IH]; intros i cur Hi Hl Hc; cbn [sd_loop].
  { simpl. split_and!; [done|done|constructor|done]. }
  eapply safe_bind; [apply safe_rd64; [done|lia|lia]|]. intros len Hlen. apply safe_fail_if. intros E. zbool.
  pose proof (u64_range (cur + len)) as [Hu _].
  eapply safe_bind; [apply IH; lia|]. intros [offs lens] (H1 & H2 & H3 & H4). simpl.
  split_and!; [lia|lia|by constructor|]. intros Hs k o l.
  assert (0 <= foldr Z.add 0 lens) as Hnn.
  { clear -H3. induction H3 as [|x l Hx Hl IH]; simpl; [lia|]. unfold is_u64 in Hx. lia. }
  unfold is_u64 in Hlen. rewrite u64_small in * by lia.
  destruct k as [|k]; simpl; [intros [= <-] [= <-]; lia|]. intros Ho Hll.
  specialize (H4 ltac:(lia) k o l Ho Hll). lia.
Qed.

Lemma safe_parse_security m :
  in_memory m → 8 <= Z.of_nat (length m) →
  safe (λ img, meta img = m ∧ root_offset img mod 8 = 0 ∧ 0 <= root_offset img ∧ root_offset img + 8 <= Z.of_nat (length m) ∧
    (8 + 8 * sd_count img + foldr Z.add 0 (sd_len img) < 2 ^ 64 →
     ∀ k o l, wim_image_sd img k = Some (o, l) → 0 <= o ∧ 0 <= l ∧ o + l <= Z.of_nat (length m))) (parse_security m).
Proof.
  intros Hm Hl. pose proof Hm as [Hb Hn]. unfold parse_security.
  eapply safe_bind; [apply safe_rd32; [done|lia|lia]|]. intros total Ht. unfold is_u32 in Ht.
  eapply safe_bind; [apply safe_rd32; [done|lia|lia]|]. intros ne Hne. unfold is_u32 in Hne.
  apply safe_fail_if. intros E. zbool.
  eapply safe_bind; [apply sd_loop_spec; [done|lia|lia|lia]|]. intros [offs lens] (H1 & H2 & H3 & H4).
  apply safe_fail_if. intros E2. zbool. pose proof (align8_spec total ltac:(lia)) as [Ha Hmod]. simpl.
  split_and!; [done|done|lia|lia|]. unfold wim_image_sd, sd_count. cbn [sd_off sd_len]. rewrite H1, Z2Nat.id by lia.
  intros Hs k o l. destruct (_ || _) eqn:Ek; [done|]. zbool. intros [= <- <-].
  destruct (lookup_lt_is_Some_2 offs (Z.to_nat k) ltac:(lia)) as [o Ho].
  destruct (lookup_lt_is_Some_2 lens (Z.to_nat k) ltac:(lia)) as [l Hll].
  specialize (H4 ltac:(lia) _ _ _ Ho Hll). pose proof (Forall_lookup_1 _ _ _ _ H3 Hll) as Hlu. unfold is_u64 in Hlu.
  unfold bget. rewrite !nth_lookup, Ho, Hll. simpl. lia.
Qed.

(** C33. Opening an image is safe, and its security descriptors lie inside the
    metadata.  For every file and lookup table, [wim_image_open] reports an
    error or returns metadata whose root entry is 8-aligned and inside it; and
    unless the declared descriptor lengths add up to more than 64 bits, every
    descriptor [wim_image_sd] returns lies inside the metadata.  (Beyond 64 bits
    the running offset wraps and a descriptor of any length is accepted:
    [sd_length_wraps].) *)
Theorem wim_image_open_safe w idx :
  bytes (fd w) → 0 < chunk_size w <= 2 ^ 31 → Forall (λ r, orig_size r < 2 ^ 60 ∧ 0 <= offset r) (res w) →
  safe (λ img, root_offset img mod 8 = 0 ∧ 0 <= root_offset img ∧ root_offset img + 8 <= meta_size img ∧
    (8 + 8 * sd_count img + foldr Z.add 0 (sd_len img) < 2 ^ 64 →
     ∀ k o l, wim_image_sd img k = Some (o, l) → 0 <= o ∧ 0 <= l ∧ o + l <= meta_size img)) (wim_image_open w idx).
Proof.
  intros Hf Hc Hr. unfold wim_image_open. destruct (wim_metadata_resource w idx) as [md|] eqn:Emd; [|done].
  assert (orig_size md < 2 ^ 60 ∧ 0 <= offset md) as [Hmd1 Hmd2].
  { unfold wim_metadata_resource in Emd. revert Emd. generalize 0 at 1. induction Hr as [|r rs Hr1 Hr2 IH]; [done|].
    intros seen. cbn [nth_metadata]. destruct (has _ _); [|apply IH].
    destruct (_ =? _); [intros [= <-]; exact Hr1|apply IH]. }
  apply safe_fail_if. intros E. zbool.
  eapply (safe_bind (λ out, bytes out ∧ Z.of_nat (length out) = orig_size md)).
  { assert (sizes_ok w (orig_size md)) as Hs by (split; [done|lia]).
    pose proof (wim_read_resource_total w md Hs Hf Hmd2) as H. by destruct (wim_read_resource w md). }
  intros m [Hb Hl]. assert (in_memory m) as Hm by (split; [done|lia]).
  eapply safe_mono; [apply safe_parse_security; [done|lia]|]. intros img (H1 & H2 & H3 & H4 & H5).
  unfold meta_size. rewrite H1. done.
Qed.

(** Two descriptors whose lengths wrap around to where they began. *)
Definition wrapping_table : list Z :=
  le_bytes 4 24 ++ le_bytes 4 2 ++ le_bytes 8 (2 ^ 64 - 16) ++ le_bytes 8 16 ++ replicate 16 0.

Example sd_length_wraps :
  ∃ img, parse_security wrapping_table = Ok img ∧ wim_image_sd img 0 = Some (24, 2 ^ 64 - 16).
Proof. eexists. split; vm_compute; reflexivity. Qed.

Definition plain_table : list Z := le_bytes 4 16 ++ le_bytes 4 0 ++ replicate 110 1.

Lemma wim_image_open_safe_witness :
  safe (λ img, root_offset img mod 8 = 0 ∧ 0 <= root_offset img ∧ root_offset img + 8 <= meta_size img ∧
    (8 + 8 * sd_count img + foldr Z.add 0 (sd_len img) < 2 ^ 64 →
     ∀ k o l, wim_image_sd img k = Some (o, l) → 0 <= o ∧ 0 <= l ∧ o + l <= meta_size img))
    (wim_image_open (mkWim plain_table WIM_COMP_NONE 32768 1 0 sample_res
       [mkRes 118 0 118 WIM_RESHDR_METADATA 0 0 []] sample_res None) 1).
Proof.
  apply wim_image_open_safe.
  - apply (bool_decide_unpack (Forall is_byte plain_table)). vm_compute. exact I.
  - split; vm_compute; congruence || reflexivity.
  - repeat constructor; vm_compute; congruence || reflexivity.
Defined.

Lemma wim_dentry_at_safe_witness :
  safe (λ o, ∀ d, o = Some d → dentry_in (le_bytes 8 102 ++ replicate 94 0) 0 d)
    (wim_dentry_at (mkImage (le_bytes 8 102 ++ replicate 94 0) 0 [] []) 0).
Proof.
  apply (wim_dentry_at_safe (mkImage (le_bytes 8 102 ++ replicate 94 0) 0 [] [])).
  - split; [apply (bool_decide_unpack (Forall is_byte (le_bytes 8 102 ++ replicate 94 0))); vm_compute; exact I|
      vm_compute; reflexivity].
  - lia.
  - intros len. change (rd64 _ 0) with (Ok 102). intros [= <-]. lia.
Defined.
