(* ===== verification/WimEntry.v ===== *)
(** * Directory entries: a round trip
      ([src/tools/iso-patch-mac/engine/wimimg.c])

    The on-disk layout of a directory entry, as the header of [wimimg.h]
    documents it, and the proof that [wim_dentry_at] and [wim_dentry_ads] read
    back every field of it. *)

From stdpp Require Import gmap.
From S2P Require Import Prelude Bytes Outcome Huffman Lzx Wim WimImage.

(** ** The documented layout *)

Record entry := mkEntry {
  e_attr : Z;
  e_sid : Z;
  e_subdir : Z;
  e_ct : Z;
  e_at : Z;
  e_wt : Z;
  e_hash : list Z;
  e_union : Z;                       (* 8 bytes: reparse tag or hard link group *)
  e_file : list Z;
  e_short : list Z;
  e_ads : list (list Z * list Z);    (* hash and name of each alternate stream *)
  e_tail : list Z;                   (* tagged items and padding *)
}.

Definition pad8 (n : nat) : nat := (8 - n mod 8) mod 8.

(** A name and its 16-bit terminator; nothing for no name. *)
Definition name_bytes (name : list Z) : list Z := match name with [] => [] | _ => name ++ [0; 0] end.

Definition ads_len (a : list Z * list Z) : nat :=
  let n := (38 + length (name_bytes (snd a)))%nat in (n + pad8 n)%nat.
Definition ads_bytes (a : list Z * list Z) : list Z :=
  concat [le_bytes 8 (Z.of_nat (ads_len a)); replicate 8 0; fst a; le_bytes 2 (Z.of_nat (length (snd a)));
    name_bytes (snd a); replicate (pad8 (38 + length (name_bytes (snd a)))) 0].

Definition names_len (d : entry) : nat := (102 + length (name_bytes (e_file d)) + length (name_bytes (e_short d)))%nat.
Definition entry_len (d : entry) : nat :=
  (names_len d + pad8 (names_len d) + length (concat (map ads_bytes (e_ads d))) + length (e_tail d))%nat.

Definition entry_fields (d : entry) : list (list Z) :=
  [le_bytes 8 (Z.of_nat (entry_len d)); le_bytes 4 (e_attr d); le_bytes 4 (e_sid d); le_bytes 8 (e_subdir d);
   replicate 16 0; le_bytes 8 (e_ct d); le_bytes 8 (e_at d); le_bytes 8 (e_wt d); e_hash d; replicate 4 0;
   le_bytes 8 (e_union d); le_bytes 2 (Z.of_nat (length (e_ads d))); le_bytes 2 (Z.of_nat (length (e_short d)));
   le_bytes 2 (Z.of_nat (length (e_file d))); name_bytes (e_file d); name_bytes (e_short d);
   replicate (pad8 (names_len d)) 0; concat (map ads_bytes (e_ads d)); e_tail d].

Record entry_ok (d : entry) : Prop := {
  eo_attr : is_u32 (e_attr d);
  eo_sid : is_u32 (e_sid d);
  eo_u64 : is_u64 (e_subdir d) ∧ is_u64 (e_ct d) ∧ is_u64 (e_at d) ∧ is_u64 (e_wt d) ∧ is_u64 (e_union d);
  eo_hash : length (e_hash d) = 20%nat;
  eo_file : Z.of_nat (length (e_file d)) < 65536;
  eo_short : Z.of_nat (length (e_short d)) < 65536;
  eo_nads : Z.of_nat (length (e_ads d)) < 65536;
  eo_ads : Forall (λ a, length (fst a) = 20%nat ∧ Z.of_nat (length (snd a)) < 65536) (e_ads d);
}.

Lemma pad8_aligned n : ((n + pad8 n) mod 8 = 0)%nat ∧ (pad8 n < 8)%nat.
Proof.
  unfold pad8. pose proof (Nat.mod_upper_bound n 8 ltac:(lia)). split; [|apply Nat.mod_upper_bound; lia].
  destruct (Nat.eq_dec (n mod 8)%nat 0%nat) as [E|E].
  - rewrite E. simpl. by rewrite Nat.add_0_r.
  - rewrite (Nat.mod_small (8 - n mod 8)%nat) by lia. rewrite (Nat.div_mod_eq n 8) at 1.
    replace (8 * (n / 8) + n mod 8 + (8 - n mod 8))%nat with ((n / 8 + 1) * 8)%nat by lia. apply Nat.Div0.mod_mul.
Qed.

(** [align8] moves a position inside an 8-aligned record to the padded one. *)
Lemma align8_pad off n :
  0 <= off → off mod 8 = 0 → off + Z.of_nat n < 2 ^ 62 → align8 (off + Z.of_nat n) = off + Z.of_nat (n + pad8 n).
Proof.
  intros Ho Hm Hb. destruct (align8_spec (off + Z.of_nat n) ltac:(lia)) as [H1 H2].
  destruct (pad8_aligned n) as [P1 P2]. apply (f_equal Z.of_nat) in P1. rewrite Nat2Z.inj_mod in P1.
  change (Z.of_nat 8) with 8 in P1. change (Z.of_nat 0) with 0 in P1.
  assert ((off + Z.of_nat (n + pad8 n)) mod 8 = 0) as H3 by (rewrite Z.add_mod, Hm, P1 by lia; done).
  apply Z.div_exact in H2, H3; lia.
Qed.

Lemma length_entry_fields d : entry_ok d → length (concat (entry_fields d)) = entry_len d.
Proof.
  intros Hd. unfold entry_fields. cbn [concat]. rewrite !length_app, !length_le_bytes, !length_replicate, (eo_hash d Hd).
  unfold entry_len, names_len. cbn [length]. lia.
Qed.

(** ** Reading fields *)

(** The bytes [b] are at [off] of the metadata. *)
Definition at_offset (m : list Z) (off : nat) (b : list Z) : Prop :=
  (off + length b <= length m)%nat ∧ sub m off (length b) = b.

Lemma at_offset_field m off fs k c :
  at_offset m off (concat fs) → fs !! k = Some c → at_offset m (off + length (concat (take k fs))) c.
Proof.
  intros [H1 H2] Hk. pose proof (sub_concat_at fs k c Hk) as Hc.
  assert (length (concat (take k fs)) + length c <= length (concat fs))%nat as Hlen.
  { rewrite <- (take_drop_middle fs k c Hk) at 2. rewrite concat_app. simpl. rewrite !length_app. lia. }
  split; [lia|]. rewrite <- (sub_sub m off (length (concat fs))) by lia. by rewrite H2.
Qed.

Lemma slice_at m off b n z :
  at_offset m off b → z = Z.of_nat off → n = Z.of_nat (length b) → slice m z n = Ok b.
Proof.
  intros [H1 H2] -> ->. rewrite slice_ok by lia. by rewrite !Nat2Z.id, H2.
Qed.

Lemma rd_at m off n v z :
  at_offset m off (le_bytes n v) → z = Z.of_nat off → 0 <= v < 256 ^ Z.of_nat n →
  (b ← slice m z (Z.of_nat n); Ok (le_val b)) = Ok v.
Proof.
  intros H -> Hv. rewrite (slice_at m off (le_bytes n v)) by (done || by rewrite length_le_bytes).
  cbn [mbind outcome_bind]. by rewrite le_val_le_bytes_small.
Qed.

Lemma rd16_at m off v z : at_offset m off (le_bytes 2 v) → z = Z.of_nat off → 0 <= v < 65536 → rd16 m z = Ok v.
Proof. intros H Hz Hv. by apply (rd_at m off 2). Qed.
Lemma rd32_at m off v z : at_offset m off (le_bytes 4 v) → z = Z.of_nat off → is_u32 v → rd32 m z = Ok v.
Proof. intros H Hz Hv. by apply (rd_at m off 4). Qed.
Lemma rd64_at m off v z : at_offset m off (le_bytes 8 v) → z = Z.of_nat off → is_u64 v → rd64 m z = Ok v.
Proof. intros H Hz Hv. by apply (rd_at m off 8). Qed.

(** The first four bytes of an 8-byte field. *)
Lemma rd32_low m off v z : at_offset m off (le_bytes 8 v) → z = Z.of_nat off → rd32 m z = Ok (u32 v).
Proof.
  intros [H1 H2] ->. rewrite length_le_bytes in *. unfold rd32.
  rewrite slice_ok by lia. cbn [mbind outcome_bind]. rewrite !Nat2Z.id. change (Z.to_nat 4) with 4%nat. f_equal.
  replace off with (off + 0)%nat by lia. rewrite <- (sub_sub m off 8 0 4), H2 by lia.
  change (sub (le_bytes 8 v) 0 4) with (le_bytes 4 v). apply (le_val_le_bytes 4).
Qed.

(** The lengths of the fields before one. *)
Ltac lens_in Hh F :=
  repeat first [rewrite length_app in F | rewrite length_le_bytes in F | rewrite length_replicate in F | rewrite Hh in F];
  cbn [length] in F.

(** ** The alternate streams *)

Lemma length_ads_bytes a : length (fst a) = 20%nat → length (ads_bytes a) = ads_len a.
Proof.
  intros Ha. unfold ads_bytes, ads_len. cbn [concat]. rewrite !length_app, !length_le_bytes, !length_replicate, Ha.
  cbn [length]. lia.
Qed.

Lemma ads_len_bounds a : Z.of_nat (length (snd a)) < 65536 → 38 <= Z.of_nat (ads_len a) < 70000 ∧ (ads_len a mod 8 = 0)%nat.
Proof.
  intros Ha. unfold ads_len. destruct (pad8_aligned (38 + length (name_bytes (snd a)))) as [P1 P2].
  split; [|done]. assert (Z.of_nat (length (name_bytes (snd a))) <= Z.of_nat (length (snd a)) + 2); [|lia].
  unfold name_bytes. destruct (snd a) as [|x l]; [simpl; lia|]. rewrite length_app. simpl. lia.
Qed.

(** What [wim_dentry_ads] must report of the stream [a] at [off]. *)
Definition ads_reads (m : list Z) (a : list Z * list Z) (r : wim_ads_t) : Prop :=
  a_hash r = fst a ∧ a_name_nbytes r = Z.of_nat (length (snd a)) ∧
  match a_name r with Some p => sub m (Z.to_nat p) (length (snd a)) = snd a | None => snd a = [] end.

Lemma ads_loop_read m off a :
  at_offset m off (ads_bytes a) → length (fst a) = 20%nat → Z.of_nat (length (snd a)) < 65536 →
  Z.of_nat (length m) < 2 ^ 62 →
  ∃ r, ads_loop 0 m (Z.of_nat off) = Ok r ∧ ads_reads m a r.
Proof.
  intros Hat Hh Hn Hm. change (2 ^ 62) with 4611686018427387904 in Hm.
  pose proof Hat as [Hin _]. rewrite length_ads_bytes in Hin by done.
  destruct (ads_len_bounds a Hn) as [Hal _]. cbn [ads_loop].
  rewrite u64_small by lia. rewrite (proj2 (Z.ltb_ge _ _)) by lia. cbn [fail_if].
  pose proof (at_offset_field m off _ 0 _ Hat eq_refl) as F0.
  pose proof (at_offset_field m off _ 2 _ Hat eq_refl) as F2.
  pose proof (at_offset_field m off _ 3 _ Hat eq_refl) as F3.
  pose proof (at_offset_field m off _ 4 _ Hat eq_refl) as F4.
  cbn [take concat length] in F0, F2, F3, F4.
  lens_in Hh F2. lens_in Hh F3. lens_in Hh F4.
  replace (off + (8 + (8 + (20 + (2 + 0)))))%nat with (off + 38)%nat in F4 by lia.
  rewrite (rd64_at m _ _ _ F0) by (unfold is_u64; lia). cbn [mbind outcome_bind].
  rewrite (slice_at m _ _ _ _ F2) by lia. cbn [mbind outcome_bind].
  rewrite (rd16_at m _ _ _ F3) by lia. cbn [mbind outcome_bind].
  destruct (Z.eqb_spec (Z.of_nat (length (snd a))) 0) as [E|E].
  { eexists. split; [reflexivity|]. split_and!; [done|done|]. cbn. destruct (snd a); [done|simpl in E; lia]. }
  assert (name_bytes (snd a) = snd a ++ [0; 0]) as Hnb by (destruct (snd a); [simpl in E; lia|done]).
  destruct F4 as [F4a F4b]. rewrite Hnb, length_app in F4a, F4b. cbn [length] in F4a, F4b.
  rewrite u64_small, (proj2 (Z.ltb_ge _ _)) by lia. cbn [fail_if].
  eexists. split; [reflexivity|]. split_and!; [done|done|]. cbn.
  replace (Z.to_nat (Z.of_nat off + 38)) with (off + 38 + 0)%nat by lia.
  rewrite <- (sub_sub m (off + 38) (length (snd a) + 2)) by lia. rewrite F4b. by apply sub_app_l.
Qed.

(** Skipping the streams before the [i]-th. *)
Lemma ads_loop_skip n m off l k a :
  at_offset m off (concat (map ads_bytes l)) → l !! k = Some a → n = k → Z.of_nat (length m) < 2 ^ 62 → (off mod 8 = 0)%nat →
  Forall (λ a, length (fst a) = 20%nat ∧ Z.of_nat (length (snd a)) < 65536) l →
  ∃ r, ads_loop n m (Z.of_nat off) = Ok r ∧ ads_reads m a r.
Proof.
  intros Hat Hk -> Hm Ho Hl. revert off l Hat Hk Ho Hl. induction k as [|k IH]; intros off [|b l] Hat Hk Ho Hl; try done;
    inversion Hl as [|? ? [Hb1 Hb2] Hl']; subst; cbn [map concat] in Hat.
  - simpl in Hk. injection Hk as ->. apply ads_loop_read; [|done..].
    pose proof (at_offset_field m off (map ads_bytes (a :: l)) 0 _ Hat eq_refl) as H. simpl in H. by rewrite Nat.add_0_r in H.
  - simpl in Hk. pose proof (at_offset_field m off (map ads_bytes (b :: l)) 0 _ Hat eq_refl) as H0.
    simpl in H0. rewrite Nat.add_0_r in H0.
    destruct (at_offset_field m off _ 0 _ H0 eq_refl) as [F1 F2]. cbn [take concat length] in F1, F2.
    rewrite Nat.add_0_r in F1, F2. destruct (ads_len_bounds b Hb2) as [Hal Hmod].
    pose proof H0 as [Hin _]. rewrite length_ads_bytes in Hin by done.
    change (2 ^ 62) with 4611686018427387904 in Hm. cbn [ads_loop].
    rewrite u64_small, (proj2 (Z.ltb_ge _ _)) by lia. cbn [fail_if].
    rewrite (rd64_at m off (Z.of_nat (ads_len b))) by (split; done || (unfold is_u64; lia)). cbn [mbind outcome_bind].
    rewrite (proj2 (Z.eqb_neq _ 0)) by lia. rewrite u64_small by lia. rewrite <- Nat2Z.inj_add.
    assert (((off + ads_len b) mod 8 = 0)%nat) as Hmod' by (rewrite Nat.Div0.add_mod, Ho, Hmod; done).
    rewrite align8_id; [|lia|change 8 with (Z.of_nat 8); rewrite <- Nat2Z.inj_mod, Hmod'; done].
    apply (IH _ l); [|done|done|done].
    split; destruct Hat as [A1 A2]; rewrite length_app, length_ads_bytes in A1, A2 by done; [lia|].
    rewrite <- (sub_sub m off (ads_len b + length (concat (map ads_bytes l)))) by lia. rewrite A2.
    rewrite sub_app_r by (rewrite length_ads_bytes by done; lia). rewrite length_ads_bytes, Nat.sub_diag by done.
    unfold sub. rewrite drop_0. by apply take_ge.
Qed.

Lemma ads_walk_end m off l rec_end :
  at_offset m off (concat (map ads_bytes l)) → Z.of_nat (length m) < 2 ^ 62 → (off mod 8 = 0)%nat →
  Forall (λ a, length (fst a) = 20%nat ∧ Z.of_nat (length (snd a)) < 65536) l →
  Z.of_nat (off + length (concat (map ads_bytes l))) <= rec_end < 2 ^ 62 →
  ads_walk (length l) m (Z.of_nat off) rec_end = Ok (Z.of_nat (off + length (concat (map ads_bytes l)))).
Proof.
  intros Hat Hm Ho Hl. revert off Hat Ho. induction Hl as [|b l [Hb1 Hb2] Hl IH]; intros off Hat Ho Hr; cbn [length ads_walk].
  { simpl. do 2 f_equal. lia. }
  cbn [map concat] in *. rewrite length_app, length_ads_bytes in Hr by done.
  pose proof (at_offset_field m off (map ads_bytes (b :: l)) 0 _ Hat eq_refl) as H0. simpl in H0. rewrite Nat.add_0_r in H0.
  destruct (at_offset_field m off _ 0 _ H0 eq_refl) as [F1 F2]. cbn [take concat length] in F1, F2.
  rewrite Nat.add_0_r in F1, F2. destruct (ads_len_bounds b Hb2) as [Hal Hmod].
  change (2 ^ 62) with 4611686018427387904 in *.
  rewrite u64_small, (proj2 (Z.ltb_ge _ _)) by lia.
  rewrite (rd64_at m off (Z.of_nat (ads_len b))) by (split; done || (unfold is_u64; lia)). cbn [mbind outcome_bind].
  rewrite (proj2 (Z.eqb_neq _ 0)) by lia. rewrite u64_small by lia. rewrite <- Nat2Z.inj_add.
  assert (((off + ads_len b) mod 8 = 0)%nat) as Hmod' by (rewrite Nat.Div0.add_mod, Ho, Hmod; done).
  rewrite align8_id; [|lia|change 8 with (Z.of_nat 8); rewrite <- Nat2Z.inj_mod, Hmod'; done].
  rewrite (proj2 (Z.ltb_ge _ _)) by lia. rewrite IH.
  - rewrite length_app, length_ads_bytes by done. do 2 f_equal. lia.
  - split; destruct Hat as [A1 A2]; rewrite length_app, length_ads_bytes in A1, A2 by done; [lia|].
    rewrite <- (sub_sub m off (ads_len b + length (concat (map ads_bytes l)))) by lia. rewrite A2.
    rewrite sub_app_r by (rewrite length_ads_bytes by done; lia). rewrite length_ads_bytes, Nat.sub_diag by done.
    unfold sub. rewrite drop_0. by apply take_ge.
  - done.
  - lia.
Qed.

(** ** The round trip *)

(** What [wim_dentry_at] must report of the entry [d] at [off]. *)
Record reads_entry (img : wim_image) (off : nat) (d : entry) (r : wim_dentry_t) : Prop := {
  re_self : self_offset r = Z.of_nat off;
  re_len : d_length r = Z.of_nat (entry_len d);
  re_attr : attributes r = e_attr d;
  re_sid : security_id r = i32 (e_sid d);
  re_subdir : subdir_offset r = e_subdir d;
  re_times : creation_time r = e_ct d ∧ last_access_time r = e_at d ∧ last_write_time r = e_wt d;
  re_hash : d_hash r = e_hash d;
  re_union : if has (e_attr d) WIM_FILE_ATTRIBUTE_REPARSE_POINT
             then reparse_tag r = u32 (e_union d) ∧ hard_link_group_id r = 0
             else reparse_tag r = 0 ∧ hard_link_group_id r = e_union d;
  re_file : file_name_nbytes r = Z.of_nat (length (e_file d)) ∧
    match file_name r with Some p => 0 <= p ∧ sub (meta img) (Z.to_nat p) (length (e_file d)) = e_file d | None => e_file d = [] end;
  re_short : short_name_nbytes r = Z.of_nat (length (e_short d)) ∧
    match short_name r with Some p => 0 <= p ∧ sub (meta img) (Z.to_nat p) (length (e_short d)) = e_short d | None => e_short d = [] end;
  re_nads : num_ads r = Z.of_nat (length (e_ads d));
  re_ads : ∀ i a, e_ads d !! i = Some a →
    ∃ s, wim_dentry_ads img r (Z.of_nat i) = Ok s ∧ ads_reads (meta img) a s;
  re_tail : at_offset (meta img) (Z.to_nat (tagged_offset r)) (e_tail d);
}.

(** A name of the entry, at its position. *)
Lemma name_at_read m p name rec_end :
  at_offset m p (name_bytes name) → Z.of_nat (length name) < 65536 → Z.of_nat (length m) < 2 ^ 62 →
  Z.of_nat (p + length (name_bytes name)) <= rec_end →
  ∃ o, name_at (Z.of_nat p) (Z.of_nat (length name)) rec_end = Ok (o, Z.of_nat (p + length (name_bytes name))) ∧
    match o with Some q => 0 <= q ∧ sub m (Z.to_nat q) (length name) = name | None => name = [] end.
Proof.
  intros Hat Hn Hm Hr. change (2 ^ 62) with 4611686018427387904 in Hm. unfold name_at.
  destruct name as [|c name0]; [exists None; split; [simpl; do 3 f_equal; lia|done]|].
  set (name := c :: name0) in *. rewrite (proj2 (Z.eqb_neq _ 0)) by (subst name; simpl; lia).
  assert (name_bytes name = name ++ [0; 0]) as Hnb by done.
  destruct Hat as [H1 H2]. rewrite Hnb, length_app in H1, H2. rewrite Hnb, length_app in Hr |- *. cbn [length] in H1, H2, Hr |- *.
  rewrite (u64_small (_ + Z.of_nat (length name))), u64_small, (proj2 (Z.ltb_ge _ _)) by lia. cbn [fail_if].
  exists (Some (Z.of_nat p)). split; [rewrite u64_small by lia; do 3 f_equal; lia|].
  split; [lia|]. rewrite Nat2Z.id. replace p with (p + 0)%nat by lia.
  rewrite <- (sub_sub m p (length name + 2)) by lia. rewrite H2. by apply sub_app_l.
Qed.

Lemma field_off m off fs k c o :
  at_offset m off (concat fs) → fs !! k = Some c → length (concat (take k fs)) = o → at_offset m (off + o) c.
Proof. intros H Hk <-. by apply at_offset_field. Qed.

(** Where the fields of an entry are. *)
Record entry_layout (m : list Z) (off : nat) (d : entry) : Prop := {
  la_len : at_offset m (off + 0) (le_bytes 8 (Z.of_nat (entry_len d)));
  la_attr : at_offset m (off + 8) (le_bytes 4 (e_attr d));
  la_sid : at_offset m (off + 12) (le_bytes 4 (e_sid d));
  la_subdir : at_offset m (off + 16) (le_bytes 8 (e_subdir d));
  la_ct : at_offset m (off + 40) (le_bytes 8 (e_ct d));
  la_at : at_offset m (off + 48) (le_bytes 8 (e_at d));
  la_wt : at_offset m (off + 56) (le_bytes 8 (e_wt d));
  la_hash : at_offset m (off + 64) (e_hash d);
  la_union : at_offset m (off + 88) (le_bytes 8 (e_union d));
  la_nads : at_offset m (off + 96) (le_bytes 2 (Z.of_nat (length (e_ads d))));
  la_nshort : at_offset m (off + 98) (le_bytes 2 (Z.of_nat (length (e_short d))));
  la_nfile : at_offset m (off + 100) (le_bytes 2 (Z.of_nat (length (e_file d))));
  la_file : at_offset m (off + 102) (name_bytes (e_file d));
  la_short : at_offset m (off + (102 + length (name_bytes (e_file d)))) (name_bytes (e_short d));
  la_ads : at_offset m (off + (names_len d + pad8 (names_len d))) (concat (map ads_bytes (e_ads d)));
  la_tail : at_offset m (off + (names_len d + pad8 (names_len d) + length (concat (map ads_bytes (e_ads d))))) (e_tail d);
}.

Lemma entry_layout_holds m off d : entry_ok d → at_offset m off (concat (entry_fields d)) → entry_layout m off d.
Proof.
  intros Hd Hat. pose proof (eo_hash d Hd) as Hh.
  assert (∀ k c o, entry_fields d !! k = Some c → length (concat (take k (entry_fields d))) = o → at_offset m (off + o) c)
    as F by (intros; by eapply field_off).
  constructor;
    [apply (F 0%nat)|apply (F 1%nat)|apply (F 2%nat)|apply (F 3%nat)|apply (F 5%nat)|apply (F 6%nat)|apply (F 7%nat)
    |apply (F 8%nat)|apply (F 10%nat)|apply (F 11%nat)|apply (F 12%nat)|apply (F 13%nat)|apply (F 14%nat)
    |apply (F 15%nat)|apply (F 17%nat)|apply (F 18%nat)]; try reflexivity;
    cbn [entry_fields take concat];
    repeat first [rewrite length_app | rewrite length_le_bytes | rewrite length_replicate | rewrite Hh];
    unfold names_len; cbn [length]; lia.
Qed.

(** One read of the run. *)
Ltac read E := rewrite E by (done || (unfold is_u64, OFF_HASH; lia)); cbn [mbind outcome_bind].

Lemma dentry_read img off d :
  entry_ok d → at_offset (meta img) off (concat (entry_fields d)) → (off mod 8 = 0)%nat →
  Z.of_nat (length (meta img)) < 2 ^ 62 →
  ∃ r, wim_dentry_at img (Z.of_nat off) = Ok (Some r) ∧ reads_entry img off d r.
Proof.
  intros Hd Hat Hal Hm. pose proof Hat as [Hin _]. rewrite length_entry_fields in Hin by done.
  pose proof (entry_layout_holds _ _ _ Hd Hat) as L. pose proof Hd as [Ha Hs [U1 [U2 [U3 [U4 U5]]]] Hh Hf Hsn Hna Hads].
  change (2 ^ 62) with 4611686018427387904 in Hm.
  assert (102 <= Z.of_nat (entry_len d)) as H102 by (unfold entry_len, names_len; lia).
  assert (off + names_len d + pad8 (names_len d) + length (concat (map ads_bytes (e_ads d))) + length (e_tail d) =
    off + entry_len d)%nat as Hlen by (unfold entry_len; lia).
  unfold wim_dentry_at, meta_size. rewrite u64_small, (proj2 (Z.ltb_ge _ _)) by lia. cbn [fail_if].
  read (rd64_at _ _ _ (Z.of_nat off) (la_len _ _ _ L)).
  rewrite (proj2 (Z.eqb_neq (Z.of_nat (entry_len d)) 0)), (proj2 (Z.ltb_ge (Z.of_nat (entry_len d)) 102)), !u64_small,
    (proj2 (Z.ltb_ge _ _)) by lia. cbn [orb fail_if].
  read (rd32_at _ _ _ (Z.of_nat off + 8) (la_attr _ _ _ L)). read (rd32_at _ _ _ (Z.of_nat off + 12) (la_sid _ _ _ L)).
  read (rd64_at _ _ _ (Z.of_nat off + 16) (la_subdir _ _ _ L)). read (rd64_at _ _ _ (Z.of_nat off + 40) (la_ct _ _ _ L)).
  read (rd64_at _ _ _ (Z.of_nat off + 48) (la_at _ _ _ L)). read (rd64_at _ _ _ (Z.of_nat off + 56) (la_wt _ _ _ L)).
  read (slice_at _ _ _ 20 (Z.of_nat off + OFF_HASH) (la_hash _ _ _ L)).
  read (rd32_low _ _ _ (Z.of_nat off + 88) (la_union _ _ _ L)). read (rd64_at _ _ _ (Z.of_nat off + 88) (la_union _ _ _ L)).
  set (fl := has (e_attr d) WIM_FILE_ATTRIBUTE_REPARSE_POINT).
  assert (∃ rt hl, (if fl then Ok (u32 (e_union d), 0) else Ok (0, e_union d)) = Ok (rt, hl) ∧
    (if fl then rt = u32 (e_union d) ∧ hl = 0 else rt = 0 ∧ hl = e_union d)) as (rt & hl & -> & Hun)
    by (destruct fl; eauto). cbn [mbind outcome_bind].
  read (rd16_at _ _ _ (Z.of_nat off + 96) (la_nads _ _ _ L)). read (rd16_at _ _ _ (Z.of_nat off + 98) (la_nshort _ _ _ L)).
  read (rd16_at _ _ _ (Z.of_nat off + 100) (la_nfile _ _ _ L)).
  destruct (name_at_read (meta img) (off + 102) (e_file d) (Z.of_nat off + Z.of_nat (entry_len d)) (la_file _ _ _ L))
    as (fname & E1 & Hfn); [done|lia|unfold names_len in Hlen; lia|].
  replace (Z.of_nat off + 102) with (Z.of_nat (off + 102)) by lia. rewrite E1. cbn [mbind outcome_bind].
  destruct (name_at_read (meta img) _ (e_short d) (Z.of_nat off + Z.of_nat (entry_len d)) (la_short _ _ _ L))
    as (sname & E2 & Hsname); [done|lia|unfold names_len in Hlen; lia|].
  rewrite <- Nat.add_assoc, E2. cbn [mbind outcome_bind].
  replace (Z.of_nat (off + (102 + length (name_bytes (e_file d))) + length (name_bytes (e_short d))))
    with (Z.of_nat off + Z.of_nat (names_len d)) by (unfold names_len; lia).
  rewrite align8_pad by (lia || (change 8 with (Z.of_nat 8); rewrite <- Nat2Z.inj_mod, Hal; done)).
  rewrite <- Nat2Z.inj_add, Nat2Z.id.
  assert (((off + (names_len d + pad8 (names_len d))) mod 8 = 0)%nat) as Hmod
    by (rewrite Nat.Div0.add_mod, Hal, (proj1 (pad8_aligned _)); done).
  rewrite ads_walk_end by (exact (la_ads _ _ _ L) || done || lia). cbn [mbind outcome_bind].
  eexists. split; [reflexivity|]. constructor; cbn [self_offset d_length attributes security_id subdir_offset creation_time
    last_access_time last_write_time d_hash reparse_tag hard_link_group_id num_ads file_name file_name_nbytes short_name
    short_name_nbytes ads_offset tagged_offset]; try done.
  - intros i a Hi. unfold wim_dentry_ads. cbn [num_ads ads_offset]. pose proof (lookup_lt_Some _ _ _ Hi).
    rewrite (proj2 (Z.leb_gt _ _)) by lia. cbn [fail_if]. rewrite Nat2Z.id.
    apply (ads_loop_skip i (meta img) _ (e_ads d) i a (la_ads _ _ _ L) Hi); done || lia.
  - rewrite Nat2Z.id. rewrite <- Nat.add_assoc. apply (la_tail _ _ _ L).
Qed.

(** C34. Parsing a directory entry reads back what was written.  An entry laid
    out as [wimimg.h] documents (fixed header, names with their terminators,
    padding, alternate streams, tagged items) at an 8-aligned offset is parsed
    by [wim_dentry_at] to exactly its fields and names, [wim_dentry_ads i]
    returns the hash and name of its [i]-th alternate stream, and
    [tagged_offset] is where its tagged items begin. *)
Theorem wim_dentry_roundtrip img off d :
  entry_ok d → at_offset (meta img) off (concat (entry_fields d)) → (off mod 8 = 0)%nat →
  Z.of_nat (length (meta img)) < 2 ^ 62 →
  ∃ r, wim_dentry_at img (Z.of_nat off) = Ok (Some r) ∧ reads_entry img off d r.
Proof. apply dentry_read. Qed.

(** "a.b", its short name "A", one alternate stream "x" and an empty tail, at offset 8. *)
Definition sample_entry : entry :=
  mkEntry 0x20 0 0 1 2 3 (replicate 20 9) 5 [97; 0; 46; 0; 98; 0] [65; 0] [(replicate 20 4, [120; 0])] [].

Lemma sample_entry_ok : entry_ok sample_entry.
Proof.
  constructor; try reflexivity; unfold is_u32, is_u64; cbn -[Z.lt]; try lia.
  repeat constructor.
Qed.

Lemma wim_dentry_roundtrip_witness :
  ∃ r, wim_dentry_at (mkImage (replicate 8 0 ++ concat (entry_fields sample_entry)) 0 [] []) 8 = Ok (Some r) ∧
    file_name_nbytes r = 6 ∧ num_ads r = 1.
Proof.
  destruct (wim_dentry_roundtrip (mkImage (replicate 8 0 ++ concat (entry_fields sample_entry)) 0 [] []) 8 sample_entry)
    as (r & H1 & H2).
  - exact sample_entry_ok.
  - split; vm_compute; [lia|reflexivity].
  - reflexivity.
  - vm_compute. reflexivity.
  - exists r. split; [exact H1|]. split; [apply H2|apply H2].
Defined.
