(* ===== verification/Bcd.v ===== *)
(** * The boot configuration store
      ([src/tools/iso-patch-mac/engine/bcd_patch.c])

    [bcd_build] edits a registry hive in place: it follows cell offsets with no
    check of its own, so every access here is one to the hive's bytes and a
    stray offset is [Fault]; a cyclic index is [Spin].  The hive is the [len]
    bytes in use: what [realloc] leaves past them is never part of it. *)

From Stdlib Require Import String.
From S2P Require Import Prelude Bytes WStr Outcome.

Record hive_t := mkHive { b : list Z; abump : Z; aend : Z }.

Definition len (h : hive_t) : Z := Z.of_nat (length (b h)).
Definition NIL : Z := 0xFFFFFFFF.

(** Address of the body of the cell at stored offset [off]. *)
Definition BODY (off : Z) : Z := 0x1000 + off + 4.

(** ** Accesses *)

Definition rd16 (h : hive_t) (a : Z) : outcome Z := x ← slice (b h) a 2; Ok (le_val x).
Definition rd32 (h : hive_t) (a : Z) : outcome Z := x ← slice (b h) a 4; Ok (le_val x).

(** [memcpy(h->b + a, bs, length bs)]. *)
Definition put (h : hive_t) (a : Z) (bs : list Z) : outcome hive_t :=
  if (0 <=? a) && (a + Z.of_nat (length bs) <=? len h)
  then Ok (mkHive (splice (b h) (Z.to_nat a) bs) (abump h) (aend h)) else Fault.

Definition wr16 (h : hive_t) (a v : Z) : outcome hive_t := put h a (le_bytes 2 v).
Definition wr32 (h : hive_t) (a v : Z) : outcome hive_t := put h a (le_bytes 4 v).

(** [(x + 7) & ~7u] *)
Definition ru8 (x : Z) : Z := Z.land (u32 (x + 7)) (u32 (Z.lnot 7)).

(** Run the writes of a block, in order. *)
Fixpoint puts (h : hive_t) (ws : list (Z * list Z)) : outcome hive_t :=
  match ws with [] => Ok h | (a, bs) :: ws => h ← put h a bs; puts h ws end.

(** ** Navigation *)

(** Every second byte, [n] of them. *)
Fixpoint evens (n : nat) (l : list Z) : list Z :=
  match n, l with
  | S n', c :: l' => c :: evens n' (drop 1 l')
  | _, _ => []
  end.

(** A name of [nl] bytes at [a], read into a buffer of [cap]: one byte per
    character, or the low byte of each 16-bit unit. *)
Definition name_chars (h : hive_t) (ascii : bool) (a nl cap : Z) : outcome (list Z) :=
  if ascii then slice (b h) a (Z.min nl (cap - 1))
  else
    let n := Z.min (nl / 2) (cap - 1) in
    if n =? 0 then Ok [] else
    l ← slice (b h) a (2 * n - 1); Ok (evens (Z.to_nat n) l).

Definition nk_name (h : hive_t) (nk cap : Z) : outcome (list Z) :=
  fl ← rd16 h (BODY nk + 0x02);
  nl ← rd16 h (BODY nk + 0x48);
  name_chars h (negb (Z.land fl 0x20 =? 0)) (BODY nk + 0x4C) nl cap.

(** [strcasecmp] of two buffers: up to their first NUL, lower-cased. *)
Fixpoint cstring (l : list Z) : list Z :=
  match l with [] => [] | c :: l' => if c =? 0 then [] else c :: cstring l' end.
Definition to_lower (c : Z) : Z := if (65 <=? c) && (c <=? 90) then c + 32 else c.
Fixpoint scmp (x y : list Z) : Z :=
  match x, y with
  | [], [] => 0
  | [], d :: _ => - to_lower d
  | c :: _, [] => to_lower c
  | c :: x', d :: y' => if to_lower c =? to_lower d then scmp x' y' else to_lower c - to_lower d
  end.
Definition strcasecmp (x y : list Z) : Z := scmp (cstring x) (cstring y).

(** [n] 32-bit words from [a], [step] bytes apart. *)
Fixpoint rd_words (h : hive_t) (n : nat) (a step : Z) : outcome (list Z) :=
  match n with
  | O => Ok []
  | S n' => v ← rd32 h a; l ← rd_words h n' (a + step) step; Ok (v :: l)
  end.

(** The loop over the [n] lists named from [p] on; [acc] is the output so far. *)
Fixpoint collect_subs (rec : Z → Z → outcome (list Z)) (h : hive_t) (n : nat) (p cap : Z) (acc : list Z) : outcome (list Z) :=
  match n with
  | O => Ok acc
  | S n' =>
      sub_ ← rd32 h p;
      l ← rec sub_ (cap - Z.of_nat (length acc));
      collect_subs rec h n' (p + 4) cap (acc ++ l)
  end.

(** The cells a subkey index names, at most [cap]; [fuel] bounds the nesting of
    "ri" lists. *)
Fixpoint collect (fuel : nat) (h : hive_t) (list_ cap : Z) : outcome (list Z) :=
  match fuel with
  | O => Spin
  | S fuel' =>
      if list_ =? NIL then Ok [] else
      let a := BODY list_ in
      sig ← slice (b h) a 2;
      cnt ← rd16 h (a + 0x02);
      if bool_decide (sig = lit "ri") then collect_subs (collect fuel' h) h (Z.to_nat cnt) (a + 4) cap []
      else
        rd_words h (Z.to_nat (Z.min cnt cap)) (a + 4) (if bool_decide (sig = lit "li") then 4 else 8)
  end.

(** One level for each byte of the hive: lists nested deeper contain themselves,
    and their recursion has no end ([BcdProofs.collect_complete]). *)
Definition nest (h : hive_t) : nat := S (length (b h)).

Definition children (h : hive_t) (nk cap : Z) : outcome (list Z) :=
  l ← rd32 h (BODY nk + 0x1C); collect (nest h) h l cap.

Fixpoint first_named (h : hive_t) (kids : list Z) (name : list Z) : outcome Z :=
  match kids with
  | [] => Ok NIL
  | k :: kids' =>
      nm ← nk_name h k 128;
      if strcasecmp nm name =? 0 then Ok k else first_named h kids' name
  end.

Definition find_subkey (h : hive_t) (nk : Z) (name : list Z) : outcome Z :=
  kids ← children h nk 4096; first_named h kids name.

Definition vk_name (h : hive_t) (vk : Z) : outcome (list Z) :=
  nl ← rd16 h (BODY vk + 0x02);
  vf ← rd16 h (BODY vk + 0x10);
  name_chars h (negb (Z.land vf 1 =? 0)) (BODY vk + 0x14) nl 64.

Fixpoint value_named (h : hive_t) (n : nat) (a : Z) (name : list Z) : outcome Z :=
  match n with
  | O => Ok NIL
  | S n' =>
      vk ← rd32 h a;
      nm ← vk_name h vk;
      if strcasecmp nm name =? 0 then Ok vk else value_named h n' (a + 4) name
  end.

Definition find_value (h : hive_t) (nk : Z) (name : list Z) : outcome Z :=
  nval ← rd32 h (BODY nk + 0x24);
  if nval =? 0 then Ok NIL else
  vlist ← rd32 h (BODY nk + 0x28);
  value_named h (Z.to_nat nval) (BODY vlist) name.

(** Address and length of a value's data. *)
Definition vk_data (h : hive_t) (vk : Z) : outcome (Z * Z) :=
  ds ← rd32 h (BODY vk + 0x04);
  let l := Z.land ds 0x7FFFFFFF in
  if negb (Z.land ds 0x80000000 =? 0) then Ok (BODY vk + 0x08, l) else
  d ← rd32 h (BODY vk + 0x08); Ok (BODY d, l).

(** ** Allocation *)

Definition hbin_append (h : hive_t) : outcome hive_t :=
  hbins ← rd32 h 0x28;
  let hb := lit "hbin" ++ le_bytes 4 hbins ++ le_bytes 4 0x1000 ++ replicate (Z.to_nat 4084) 0 in
  let h1 := mkHive (b h ++ hb) (u32 (len h + 0x20)) (u32 (len h + 0x1000)) in
  wr32 h1 0x28 (u32 (hbins + 0x1000)).

(** [if (h->aend && h->abump < h->aend) wr32(...)]: the rest of the bin is a
    free cell. *)
Definition free_tail (h : hive_t) : outcome hive_t :=
  if negb (aend h =? 0) && (abump h <? aend h) then wr32 h (abump h) (aend h - abump h) else Ok h.

Definition cell_alloc (h : hive_t) (payload : Z) : outcome (Z * hive_t) :=
  let need := ru8 (u32 (4 + payload)) in
  h ← (if (aend h =? 0) || (aend h <? u32 (abump h + need)) then h ← free_tail h; hbin_append h else Ok h);
  let fo := abump h in
  h ← wr32 h fo (u32 (- need));
  h ← put h (fo + 4) (replicate (Z.to_nat (u32 (need - 4))) 0);
  Ok (u32 (fo - 0x1000), mkHive (b h) (u32 (abump h + need)) (aend h)).

(** ** Subkey lists *)

(** One step of the insertion sort: [k] moves before every name greater than
    its own; [rev] is the sorted prefix, last first. *)
Fixpoint ins_rev (h : hive_t) (ki : list Z) (k : Z) (rev : list Z) : outcome (list Z) :=
  match rev with
  | [] => Ok [k]
  | j :: rev' =>
      kj ← nk_name h j 128;
      if 0 <? strcasecmp kj ki then l ← ins_rev h ki k rev'; Ok (j :: l) else Ok (k :: rev)
  end.

Fixpoint sort_from (h : hive_t) (rev kids : list Z) : outcome (list Z) :=
  match kids with
  | [] => Ok (reverse rev)
  | k :: kids' =>
      ki ← nk_name h k 128;
      rev ← ins_rev h ki k rev;
      sort_from h rev kids'
  end.

Definition sort_kids (h : hive_t) (kids : list Z) : outcome (list Z) :=
  match kids with [] => Ok [] | k :: kids' => sort_from h [k] kids' end.

(** [char nm[8] = {0}; nk_name(h, k, nm, 5); memcpy(..., nm, 4)]. *)
Definition hint4 (nm : list Z) : list Z := take 4 (nm ++ replicate 4 0).

Fixpoint put_kids (h : hive_t) (a : Z) (kids : list Z) : outcome hive_t :=
  match kids with
  | [] => Ok h
  | k :: kids' =>
      h ← wr32 h a k;
      nm ← nk_name h k 5;
      h ← put h (a + 4) (hint4 nm);
      put_kids h (a + 8) kids'
  end.

(** Write the list [kids] into a new "lf" cell and make it the index of
    [parent]. *)
Definition set_kids (h : hive_t) (parent : Z) (kids : list Z) : outcome hive_t :=
  let n := Z.of_nat (length kids) in
  '(lf, h) ← cell_alloc h (4 + 8 * n);
  h ← put h (BODY lf) (lit "lf");
  h ← wr16 h (BODY lf + 2) (u16 n);
  h ← put_kids h (BODY lf + 4) kids;
  h ← wr32 h (BODY parent + 0x1C) lf;
  wr32 h (BODY parent + 0x14) n.

Definition sublist_add (h : hive_t) (parent child : Z) : outcome hive_t :=
  l ← rd32 h (BODY parent + 0x1C);
  kids ← collect (nest h) h l 4095;
  kids ← sort_kids h (kids ++ [child]);
  set_kids h parent kids.

Fixpoint not_template (h : hive_t) (kids : list Z) : outcome (list Z) :=
  match kids with
  | [] => Ok []
  | k :: kids' =>
      nm ← nk_name h k 16;
      l ← not_template h kids';
      Ok (if bget nm 0 =? 52 then l else k :: l)
  end.

Definition strip_template_elems (h : hive_t) (elements : Z) : outcome hive_t :=
  kids ← children h elements 4096;
  keep ← not_template h kids;
  if Nat.eqb (length keep) (length kids) then Ok h else set_kids h elements keep.

Definition remove_object (h : hive_t) (objects target : Z) : outcome hive_t :=
  kids ← children h objects 4096;
  let keep := filter (λ k, k ≠ target) kids in
  if Nat.eqb (length keep) (length kids) then Ok h else set_kids h objects keep.

(** ** Keys and values *)

(** A value record of type [type], its data at cell (or inline value) [d]. *)
Definition vk_writes (vk : Z) (name : list Z) (dlen d type : Z) : list (Z * list Z) :=
  let vb := BODY vk in
  [(vb, lit "vk"); (vb + 0x02, le_bytes 2 (Z.of_nat (length name))); (vb + 0x04, le_bytes 4 dlen);
   (vb + 0x08, le_bytes 4 d); (vb + 0x0C, le_bytes 4 type); (vb + 0x10, le_bytes 2 1); (vb + 0x14, name)].

(** A key record under [parent]. *)
Definition nk_writes (nk parent nsub sublist nval vlist sk : Z) (name : list Z) : list (Z * list Z) :=
  let nb := BODY nk in
  [(nb, replicate (Z.to_nat 0x4C) 0); (nb, lit "nk"); (nb + 0x02, le_bytes 2 0x20); (nb + 0x10, le_bytes 4 parent);
   (nb + 0x14, le_bytes 4 nsub); (nb + 0x1C, le_bytes 4 sublist); (nb + 0x24, le_bytes 4 nval);
   (nb + 0x28, le_bytes 4 vlist); (nb + 0x2C, le_bytes 4 sk); (nb + 0x30, le_bytes 4 NIL);
   (nb + 0x48, le_bytes 2 (Z.of_nat (length name))); (nb + 0x4C, name)].

Definition set_element (h : hive_t) (elements : Z) (name : list Z) (type : Z) (data : list Z) : outcome hive_t :=
  let dlen := Z.of_nat (length data) in
  esub ← find_subkey h elements name;
  '(dcell, h) ← cell_alloc h dlen;
  h ← put h (BODY dcell) data;
  if negb (esub =? NIL) then
    vk ← find_value h esub (lit "Element");
    puts h [(BODY vk + 0x04, le_bytes 4 dlen); (BODY vk + 0x08, le_bytes 4 dcell); (BODY vk + 0x0C, le_bytes 4 type)]
  else
    '(vk, h) ← cell_alloc h (0x14 + 7);
    h ← puts h (vk_writes vk (lit "Element") dlen dcell type);
    '(vlist, h) ← cell_alloc h 4;
    h ← wr32 h (BODY vlist) vk;
    sk ← rd32 h (BODY elements + 0x2C);
    '(nk, h) ← cell_alloc h (0x4C + Z.of_nat (length name));
    h ← puts h (nk_writes nk elements 0 NIL 1 vlist sk name);
    sublist_add h elements nk.

Definition create_object (h : hive_t) (objects : Z) (guid : list Z) (type : Z) : outcome (Z * hive_t) :=
  sk ← rd32 h (BODY objects + 0x2C);
  '(obj, h) ← cell_alloc h (0x4C + Z.of_nat (length guid));
  '(dcell, h) ← cell_alloc h 4;
  h ← wr32 h (BODY dcell) type;
  '(tvk, h) ← cell_alloc h (0x14 + 4);
  h ← puts h (vk_writes tvk (lit "Type") 4 dcell 4);
  '(tvlist, h) ← cell_alloc h 4;
  h ← wr32 h (BODY tvlist) tvk;
  '(desc, h) ← cell_alloc h (0x4C + 11);
  h ← puts h (nk_writes desc obj 0 NIL 1 tvlist sk (lit "Description"));
  '(elem, h) ← cell_alloc h (0x4C + 8);
  h ← puts h (nk_writes elem obj 0 NIL 0 NIL sk (lit "Elements"));
  '(lf, h) ← cell_alloc h (4 + 8 * 2);
  let lb := BODY lf in
  h ← puts h [(lb, lit "lf"); (lb + 2, le_bytes 2 2); (lb + 4, le_bytes 4 desc); (lb + 8, lit "Desc");
    (lb + 12, le_bytes 4 elem); (lb + 16, lit "Elem")];
  h ← puts h (nk_writes obj objects 2 lf 0 NIL sk guid);
  h ← sublist_add h objects obj;
  Ok (elem, h).

Fixpoint copy_words (h : hive_t) (n : nat) (src dst : Z) : outcome hive_t :=
  match n with
  | O => Ok h
  | S n' => v ← rd32 h src; h ← wr32 h dst v; copy_words h n' (src + 4) (dst + 4)
  end.

Definition set_dword_value (h : hive_t) (nk : Z) (name : list Z) (val : Z) : outcome hive_t :=
  vk ← find_value h nk name;
  if negb (vk =? NIL) then
    puts h [(BODY vk + 0x04, le_bytes 4 (Z.lor 4 0x80000000)); (BODY vk + 0x08, le_bytes 4 val); (BODY vk + 0x0C, le_bytes 4 4)]
  else
    '(nvk, h) ← cell_alloc h (0x14 + Z.of_nat (length name));
    nval ← rd32 h (BODY nk + 0x24);
    oldlist ← rd32 h (BODY nk + 0x28);
    '(newlist, h) ← cell_alloc h (u32 (4 * u32 (nval + 1)));
    h ← puts h (vk_writes nvk name (Z.lor 4 0x80000000) val 4);
    h ← (if negb (oldlist =? NIL) then copy_words h (Z.to_nat nval) (BODY oldlist) (BODY newlist) else Ok h);
    h ← wr32 h (BODY newlist + 4 * nval) nvk;
    h ← wr32 h (BODY nk + 0x24) (u32 (nval + 1));
    wr32 h (BODY nk + 0x28) newlist.

(** ** Boot objects and elements *)

Definition device_blob (part disk : list Z) : list Z :=
  let out := replicate 88 0 in
  let out := splice out 0x10 [0x06] in
  let out := splice out 0x18 [0x48] in
  let out := splice out 0x20 part in
  splice out 0x38 disk.

(** UTF-16 with its terminator; [multisz] adds the list's own. *)
Definition str_utf16 (s : list Z) (multisz : bool) : list Z :=
  concat (map (λ c, [c; 0]) (cstring s)) ++ [0; 0] ++ (if multisz then [0; 0] else []).

(** Whether object [k] has the type, [need] and not [excl]. *)
Definition object_matches (h : hive_t) (k type : Z) (need excl : option (list Z)) : outcome bool :=
  desc ← find_subkey h k (lit "Description");
  if desc =? NIL then Ok false else
  tvk ← find_value h desc (lit "Type");
  if tvk =? NIL then Ok false else
  '(d, l) ← vk_data h tvk;
  ty ← (if l <? 4 then Ok None else v ← rd32 h d; Ok (Some v));
  if negb (bool_decide (ty = Some type)) then Ok false else
  el ← find_subkey h k (lit "Elements");
  has_need ← (match need with
              | None => Ok true
              | Some e => if el =? NIL then Ok false else s ← find_subkey h el e; Ok (negb (s =? NIL))
              end);
  if negb has_need then Ok false else
  match excl with
  | None => Ok true
  | Some e => if el =? NIL then Ok true else s ← find_subkey h el e; Ok (s =? NIL)
  end.

Fixpoint first_matching (h : hive_t) (kids : list Z) (type : Z) (need excl : option (list Z)) : outcome Z :=
  match kids with
  | [] => Ok NIL
  | k :: kids' =>
      m ← object_matches h k type need excl;
      if (m : bool) then Ok k else first_matching h kids' type need excl
  end.

Definition find_object_by_type (h : hive_t) (objects type : Z) (need excl : option (list Z)) : outcome Z :=
  kids ← children h objects 256; first_matching h kids type need excl.

Record bcd_guids_t := mkGuids { disk_guid : list Z; esp_part_guid : list Z; win_part_guid : list Z }.

(** An 8-byte integer element. *)
Definition qw (v : Z) : list Z := le_bytes 8 v.

(** [set_element] of several elements, in order. *)
Fixpoint set_elements (h : hive_t) (elements : Z) (es : list (list Z * Z * list Z)) : outcome hive_t :=
  match es with
  | [] => Ok h
  | (name, type, data) :: es => h ← set_element h elements name type data; set_elements h elements es
  end.

Definition bootmgr_elements (g : bcd_guids_t) (loader_guid : list Z) : list (list Z * Z * list Z) :=
  [(lit "11000001", 3, device_blob (esp_part_guid g) (disk_guid g));
   (lit "23000003", 1, str_utf16 loader_guid false);
   (lit "24000001", 7, str_utf16 loader_guid true);
   (lit "12000002", 1, str_utf16 (lit "\EFI\Microsoft\Boot\bootmgfw.efi") false);
   (lit "25000004", 3, qw 30)].

Definition loader_elements (g : bcd_guids_t) : list (list Z * Z * list Z) :=
  let blob := device_blob (win_part_guid g) (disk_guid g) in
  [(lit "11000001", 3, blob);
   (lit "21000001", 3, blob);
   (lit "12000002", 1, str_utf16 (lit "\Windows\System32\winload.efi") false);
   (lit "12000004", 1, str_utf16 (lit "Windows 11") false);
   (lit "14000006", 7, str_utf16 (lit "{6efb52bf-1766-41db-a6b3-0ee5eff72bd7}") true);
   (lit "25000020", 3, qw 0);
   (lit "250000c2", 3, qw 1)].

(** With the environment variable [WIN_DISK_DEBUG_SERIAL]. *)
Definition debug_elements : list (list Z * Z * list Z) :=
  [(lit "16000010", 3, [1]); (lit "15000011", 3, qw 0); (lit "15000012", 3, qw 1); (lit "15000013", 3, qw 0x01C200)].

Definition resume_elements (g : bcd_guids_t) : list (list Z * Z * list Z) :=
  let blob := device_blob (win_part_guid g) (disk_guid g) in
  [(lit "11000001", 3, blob); (lit "21000001", 3, blob);
   (lit "12000002", 1, str_utf16 (lit "\Windows\system32\winresume.efi") false)].

(** The resume object, when the template has one. *)
Definition patch_resume (h : hive_t) (objects bm_elems : Z) (g : bcd_guids_t) : outcome hive_t :=
  resume ← find_object_by_type h objects 0x10200004 None None;
  if resume =? NIL then Ok h else
  resume_guid ← nk_name h resume 64;
  rs_elems ← find_subkey h resume (lit "Elements");
  h ← (if rs_elems =? NIL then Ok h else
       h ← strip_template_elems h rs_elems; set_elements h rs_elems (resume_elements g));
  set_element h bm_elems (lit "23000006") 1 (str_utf16 resume_guid false).

Definition drop_winpe (h : hive_t) (objects loader : Z) : outcome hive_t :=
  winpe ← find_object_by_type h objects 0x10200003 (Some (lit "42000003")) None;
  if negb (winpe =? NIL) && negb (winpe =? loader) then remove_object h objects winpe else Ok h.

Definition add_fwbootmgr (h : hive_t) (objects bootmgr : Z) : outcome hive_t :=
  fw ← find_object_by_type h objects 0x10100001 None None;
  if negb (fw =? NIL) then Ok h else
  bm_guid ← nk_name h bootmgr 64;
  '(fw_elems, h) ← create_object h objects (lit "{a5a30fa2-3d06-4e9f-b5f4-a01df9d1fcba}") 0x10100001;
  set_elements h fw_elems [(lit "24000001", 7, str_utf16 bm_guid true); (lit "25000004", 3, qw 30)].

Definition mark_system (h : hive_t) (root : Z) : outcome hive_t :=
  rootdesc ← find_subkey h root (lit "Description");
  if rootdesc =? NIL then Ok h else
  h ← set_dword_value h rootdesc (lit "System") 1;
  set_dword_value h rootdesc (lit "FirmwareModified") 1.

(** [for (i = 0; i < 127; i++) s ^= rd32(h->b + 4*i)] *)
Fixpoint xor_words (h : hive_t) (n : nat) (i s : Z) : outcome Z :=
  match n with
  | O => Ok s
  | S n' => v ← rd32 h (4 * i); xor_words h n' (i + 1) (Z.lxor s v)
  end.

Definition finalize (h : hive_t) : outcome hive_t :=
  h ← free_tail h;
  seq ← rd32 h 0x04;
  h ← wr32 h 0x08 seq;
  s ← xor_words h 127 0 0;
  let s := if s =? 0xFFFFFFFF then 0xFFFFFFFE else s in
  let s := if s =? 0 then 1 else s in
  wr32 h 0x1FC s.

(** The loader, by the three searches in turn. *)
Definition find_loader (h : hive_t) (objects : Z) : outcome Z :=
  l ← find_object_by_type h objects 0x10200003 (Some (lit "22000002")) (Some (lit "42000003"));
  if negb (l =? NIL) then Ok l else
  l ← find_object_by_type h objects 0x10200003 (Some (lit "22000002")) None;
  if negb (l =? NIL) then Ok l else find_object_by_type h objects 0x10200003 None None.

(** [bcd_build]; [debug] is whether the environment variable is set. *)
Definition bcd_build (tpl : list Z) (g : bcd_guids_t) (debug : bool) : outcome (list Z) :=
  fail_if ((Z.of_nat (length tpl) <? 0x1000) || negb (bool_decide (take 4 tpl = lit "regf"))) (-1) (
  let h := mkHive tpl 0 0 in
  root ← rd32 h 0x24;
  objects ← find_subkey h root (lit "Objects");
  fail_if (objects =? NIL) (-2) (
  bootmgr ← find_object_by_type h objects 0x10100002 None None;
  loader ← find_loader h objects;
  fail_if ((bootmgr =? NIL) || (loader =? NIL)) (-3) (
  loader_guid ← nk_name h loader 64;
  bm_elems ← find_subkey h bootmgr (lit "Elements");
  ld_elems ← find_subkey h loader (lit "Elements");
  fail_if ((bm_elems =? NIL) || (ld_elems =? NIL)) (-4) (
  h ← strip_template_elems h bm_elems;
  h ← strip_template_elems h ld_elems;
  h ← set_elements h bm_elems (bootmgr_elements g loader_guid);
  h ← set_elements h ld_elems (loader_elements g);
  h ← (if debug then set_elements h ld_elems debug_elements else Ok h);
  h ← patch_resume h objects bm_elems g;
  h ← drop_winpe h objects loader;
  h ← add_fwbootmgr h objects bootmgr;
  h ← mark_system h root;
  h ← finalize h;
  Ok (b h))))).
