(* ===== verification/BcdProofs.v ===== *)
(** * The store that [bcd_build] returns
      ([src/tools/iso-patch-mac/engine/bcd_patch.c])

    Whatever the template, a returned store has a valid base block; and the
    cells the patcher allocates tile the bins it appends. *)

From Stdlib Require Import String Ascii.
From S2P Require Import Prelude Bytes WStr Outcome Bcd.

(** ** What holds of a result, when there is one *)

Definition post {A} (P : A → Prop) (o : outcome A) : Prop := match o with Ok a => P a | _ => True end.

Lemma post_bind {A B} (P : A → Prop) (Q : B → Prop) o (f : A → outcome B) :
  post P o → (∀ a, P a → post Q (f a)) → post Q (o ≫= f).
Proof. destruct o; simpl; auto. Qed.
Lemma post_any {A B} (Q : B → Prop) (o : outcome A) (f : A → outcome B) :
  (∀ a, post Q (f a)) → post Q (o ≫= f).
Proof. destruct o; simpl; auto. Qed.
Lemma post_fail_if {A} (P : A → Prop) c rc k : post P k → post P (fail_if c rc k).
Proof. by destruct c. Qed.
Lemma post_mono {A} (P Q : A → Prop) o : post P o → (∀ a, P a → Q a) → post Q o.
Proof. destruct o; simpl; auto. Qed.

(** ** Nested indexes

    The levels [nest] allows are enough: a recursion that has an end, whatever
    its depth, ends within them.  At a call that needs exactly so many levels
    starts a chain of calls that need one less each; no list is twice on the
    chain, as a later call has no more room for its output than an earlier one
    and so needs no fewer levels; and the hive has only so many places for a
    list. *)

(** The results of the same list with [cap] places for its output and with
    [cap'], fewer; [base] and [base'] were used before. *)
Definition less_room (cap cap' : Z) (o o' : outcome (list Z)) : Prop :=
  match o with
  | Ok l => ∃ l', o' = Ok l' ∧ (length l' <= length l)%nat ∧ cap' - Z.of_nat (length l') <= cap - Z.of_nat (length l)
  | Spin => o' = Spin
  | _ => True
  end.

Lemma rd_words_fewer h n : ∀ n' a step l, (n' <= n)%nat → rd_words h n a step = Ok l → length l = n ∧ ∃ l', rd_words h n' a step = Ok l' ∧ length l' = n'.
Proof.
  induction n as [|n IH]; intros n' a step l Hn; cbn [rd_words].
  - intros [= <-]. split; [done|]. replace n' with 0%nat by lia. by exists [].
  - destruct (rd32 h a) as [v| | |] eqn:Ev; try done. cbn [mbind outcome_bind]. destruct (rd_words h n (a + step) step) as [l0| | |] eqn:El; try done.
    cbn [mbind outcome_bind]. intros [= <-]. destruct n' as [|n'].
    + destruct (IH 0%nat (a + step) step l0 ltac:(lia) El) as [E _]. cbn [length]. split; [lia|]. by exists [].
    + destruct (IH n' (a + step) step l0 ltac:(lia) El) as (E & l' & El' & Ll). cbn [length]. split; [lia|]. exists (v :: l'). cbn [rd_words].
      rewrite Ev. cbn [mbind outcome_bind]. rewrite El'. split; [done|]. cbn [length]. lia.
Qed.

Lemma rd_words_no_spin h n : ∀ a step, rd_words h n a step ≠ Spin.
Proof.
  induction n as [|n IH]; intros a step; cbn [rd_words]; [done|]. unfold rd32, slice. destruct (_ && _); [|done]. cbn [mbind outcome_bind].
  specialize (IH (a + step) step). by destruct (rd_words h n (a + step) step).
Qed.

Lemma subs_less_room rec h n : (∀ l cap cap', cap' <= cap → less_room cap cap' (rec l cap) (rec l cap')) →
  ∀ p cap cap' acc acc', (length acc' <= length acc)%nat → cap' - Z.of_nat (length acc') <= cap - Z.of_nat (length acc) →
  less_room cap cap' (collect_subs rec h n p cap acc) (collect_subs rec h n p cap' acc').
Proof.
  intros Hrec. induction n as [|n IH]; intros p cap cap' acc acc' Ha Hc; cbn [collect_subs]; [by exists acc'|].
  destruct (rd32 h p) as [v| | |]; try done. cbn [mbind outcome_bind].
  pose proof (Hrec v _ _ Hc) as H. destruct (rec v (cap - Z.of_nat (length acc))) as [l| | |]; cbn [less_room] in H; try done.
  - destruct H as (l' & -> & H1 & H2). cbn [mbind outcome_bind]. apply IH; rewrite !length_app; lia.
  - by rewrite H.
Qed.

Lemma collect_less_room fuel h : ∀ l cap cap', cap' <= cap → less_room cap cap' (collect fuel h l cap) (collect fuel h l cap').
Proof.
  induction fuel as [|fuel IH]; intros l cap cap' Hc; cbn [collect]; [done|]. destruct (l =? NIL); [exists []; split_and!; cbn; first [done|lia]|].
  destruct (slice _ _ _) as [sig| | |]; try done. cbn [mbind outcome_bind]. destruct (rd16 _ _) as [cnt| | |]; try done. cbn [mbind outcome_bind].
  destruct (bool_decide (sig = lit "ri")); [apply (subs_less_room _ h _ IH); [done|cbn; lia]|].
  set (st := if bool_decide _ then 4 else 8). clearbody st. destruct (rd_words h (Z.to_nat (Z.min cnt cap)) (BODY l + 4) st) as [ws| | |] eqn:E; cbn [less_room]; try done.
  - destruct (rd_words_fewer h (Z.to_nat (Z.min cnt cap)) (Z.to_nat (Z.min cnt cap')) _ _ _ ltac:(lia) E) as (E1 & l' & -> & E2). exists l'. split; [done|]. lia.
  - by apply rd_words_no_spin in E.
Qed.

(** More levels change nothing once there are enough. *)
Lemma subs_more rec rec' h n : (∀ l cap, rec l cap ≠ Spin → rec' l cap = rec l cap) →
  ∀ p cap acc, collect_subs rec h n p cap acc ≠ Spin → collect_subs rec' h n p cap acc = collect_subs rec h n p cap acc.
Proof.
  intros Hrec. induction n as [|n IH]; intros p cap acc; cbn [collect_subs]; [done|].
  destruct (rd32 h p) as [v| | |]; try done. cbn [mbind outcome_bind]. destruct (rec v (cap - Z.of_nat (length acc))) as [l| | |] eqn:E;
    intros Hs; try (rewrite Hrec by (by rewrite E)); rewrite ?E; cbn [mbind outcome_bind] in *; try done. by apply IH.
Qed.

Lemma collect_more fuel h : ∀ l cap, collect fuel h l cap ≠ Spin → collect (S fuel) h l cap = collect fuel h l cap.
Proof.
  induction fuel as [|fuel IH]; intros l cap; [done|]. cbn [collect]. destruct (l =? NIL); [done|].
  destruct (slice _ _ _) as [sig| | |]; try done. cbn [mbind outcome_bind]. destruct (rd16 _ _) as [cnt| | |]; try done. cbn [mbind outcome_bind].
  destruct (bool_decide (sig = lit "ri")); [|done]. apply subs_more. exact IH.
Qed.

Lemma collect_le f g h l cap : (f <= g)%nat → collect f h l cap ≠ Spin → collect g h l cap = collect f h l cap.
Proof. induction 1 as [|g Hle IH]; intros Hs; [done|]. rewrite collect_more; [by apply IH|by rewrite IH]. Qed.

(** The call that makes the difference between two depths. *)
Lemma subs_blame rec rec' h n : (∀ l cap, rec l cap ≠ Spin → rec' l cap = rec l cap) →
  ∀ p cap acc, collect_subs rec h n p cap acc = Spin → collect_subs rec' h n p cap acc ≠ Spin →
  ∃ l c, c <= cap ∧ rec l c = Spin ∧ rec' l c ≠ Spin.
Proof.
  intros Hrec. induction n as [|n IH]; intros p cap acc; cbn [collect_subs]; [done|].
  destruct (rd32 h p) as [v| | |]; try done. cbn [mbind outcome_bind]. destruct (rec v (cap - Z.of_nat (length acc))) as [l| | |] eqn:E; try done.
  - rewrite (Hrec v) by (by rewrite E). rewrite E. cbn [mbind outcome_bind]. apply IH.
  - intros _ Hs. exists v, (cap - Z.of_nat (length acc)). split; [lia|]. split; [done|]. intros E'. by rewrite E' in Hs.
Qed.

(** A call that needs exactly [S f] levels, and the lists on its chain. *)
Lemma collect_chain f h : ∀ l cap, collect f h l cap = Spin → collect (S f) h l cap ≠ Spin →
  ∃ vs, length vs = f ∧ NoDup vs ∧ Forall (λ v, 0 <= BODY v < len h ∧ ∃ c g, c <= cap ∧ (g <= S f)%nat ∧ collect g h v c ≠ Spin) vs.
Proof.
  induction f as [|f IH]; intros l cap Hf Hs; [exists []; split_and!; by constructor|].
  pose proof Hf as Hl. pose proof Hs as Hl'. cbn [collect] in Hl, Hl'.
  destruct (l =? NIL); [done|]. destruct (slice (b h) (BODY l) 2) as [sig| | |] eqn:Esig; try done. cbn [mbind outcome_bind] in *.
  destruct (rd16 h (BODY l + 2)) as [cnt| | |]; try done. cbn [mbind outcome_bind] in *. destruct (bool_decide (sig = lit "ri")); [|by apply rd_words_no_spin in Hl].
  destruct (subs_blame (collect f h) (collect (S f) h) h _ (collect_more f h) _ _ _ Hl Hl') as (l1 & c1 & Hc1 & H1 & H2).
  destruct (IH l1 c1 H1 H2) as (vs & Lv & Nv & Fv). exists (l :: vs). split; [cbn [length]; lia|]. rewrite list.Forall_forall in Fv. split.
  - constructor; [|done]. intros Hin. destruct (Fv l Hin) as (_ & c & g & Hc & Hg & Hne).
    pose proof (collect_less_room (S f) h l cap c ltac:(lia)) as Hr. rewrite Hf in Hr. cbn [less_room] in Hr.
    by rewrite (collect_le g (S f)) in Hr.
  - constructor.
    + split; [|exists cap, (S (S f)); split_and!; [lia|lia|done]]. unfold slice, len in *. destruct (_ && _) eqn:E in Esig; [|done]. zbool. lia.
    + apply list.Forall_forall. intros v Hv. destruct (Fv v Hv) as (Hb & c & g & Hc & Hg & Hne). split; [done|]. exists c, g. split_and!; [lia|lia|done].
Qed.

Lemma collect_depth f h l cap : collect f h l cap = Spin → collect (S f) h l cap ≠ Spin → (f <= length (b h))%nat.
Proof.
  intros Hf Hs. destruct (collect_chain f h l cap Hf Hs) as (vs & <- & Nv & Fv).
  rewrite <- (Nat2Z.id (length (b h))). rewrite <- (length_seqZ (- 0x1004) (Z.of_nat (length (b h)))).
  apply submseteq_length, NoDup_submseteq; [done|]. intros v Hv. rewrite list.Forall_forall in Fv. destruct (Fv v Hv) as (Hb & _).
  apply elem_of_seqZ. unfold BODY, len in Hb. lia.
Qed.

#[local] Instance spin_dec {A} (o : outcome A) : Decision (o = Spin).
Proof. destruct o; (by left) || (by right). Defined.

(** A list whose recursion ends is collected. *)
Lemma collect_complete f h l cap : collect f h l cap ≠ Spin → collect (nest h) h l cap = collect f h l cap.
Proof.
  intros Hf. destruct (decide (collect (nest h) h l cap = Spin)) as [E|E].
  - exfalso. assert (∀ k, collect (nest h + k) h l cap = Spin) as Hall.
    { induction k as [|k IH]; [by rewrite Nat.add_0_r|]. rewrite Nat.add_succ_r. destruct (decide (collect (S (nest h + k)) h l cap = Spin)) as [|Hne]; [done|].
      apply collect_depth in IH; [|done]. unfold nest in IH. lia. }
    apply Hf. specialize (Hall f). destruct (decide (collect f h l cap = Spin)) as [|Hne]; [done|]. by rewrite (collect_le f (nest h + f)) in Hall by (done || lia).
  - destruct (Nat.le_ge_cases f (nest h)) as [Hle|Hle]; [by apply collect_le|]. symmetry. by apply collect_le.
Qed.

(** ** The shape every operation keeps *)

(** The bytes are bytes and the size is [n] and a number of pages. *)
Definition sound (n : Z) (h : hive_t) : Prop := bytes (b h) ∧ n <= len h ∧ (len h - n) mod 0x1000 = 0.

Lemma lit_bytes s : bytes (lit s).
Proof.
  unfold lit. apply Forall_map, Forall_true. intros c. unfold is_byte. pose proof (nat_ascii_bounded c). lia.
Qed.
#[export] Hint Resolve lit_bytes : asb.

Lemma slice_bytes l o n : bytes l → post bytes (slice l o n).
Proof. intros H. unfold slice. destruct (_ && _); [|done]. unfold sub. by apply Forall_take, Forall_drop. Qed.

Lemma put_sound n h a bs : sound n h → bytes bs → post (sound n) (put h a bs).
Proof.
  intros (H1 & H2 & H3) Hb. unfold put. destruct (_ && _); [|done]. unfold sound, len in *. simpl.
  split; [by apply splice_bytes|by rewrite length_splice].
Qed.
Lemma wr32_sound n h a v : sound n h → post (sound n) (wr32 h a v).
Proof. intros. apply put_sound; eauto with asb. Qed.
Lemma wr16_sound n h a v : sound n h → post (sound n) (wr16 h a v).
Proof. intros. apply put_sound; eauto with asb. Qed.

Lemma puts_sound n h ws : sound n h → Forall (λ w, bytes (snd w)) ws → post (sound n) (puts h ws).
Proof.
  intros Hs Hw. revert h Hs. induction Hw as [|[a bs] ws Hb Hw IH]; intros h Hs; [done|]. cbn [puts].
  eapply post_bind; [by apply put_sound|]. exact IH.
Qed.

Lemma hbin_append_sound n h : sound n h → post (sound n) (hbin_append h).
Proof.
  intros (H1 & H2 & H3). unfold hbin_append. apply post_any. intros hbins. apply wr32_sound.
  unfold sound, len in *. cbn [b]. rewrite !length_app, !length_le_bytes, length_replicate.
  change (length (lit "hbin")) with 4%nat. split.
  - rewrite !Forall_app. split_and!; auto with asb. apply Forall_replicate. unfold is_byte. lia.
  - rewrite Nat2Z.inj_add. change (Z.of_nat (4 + (4 + (4 + Z.to_nat 4084)))) with 4096. split; [lia|].
    replace (Z.of_nat (length (b h)) + 4096 - n) with (Z.of_nat (length (b h)) - n + 1 * 4096) by lia. by rewrite Z_mod_plus_full.
Qed.

Lemma free_tail_sound n h : sound n h → post (sound n) (free_tail h).
Proof. intros H. unfold free_tail. destruct (_ && _); [by apply wr32_sound|done]. Qed.

Lemma zeros_bytes k : bytes (replicate k 0).
Proof. apply Forall_replicate. unfold is_byte. lia. Qed.
#[export] Hint Resolve zeros_bytes : asb.

Lemma cell_alloc_sound n h p : sound n h → post (λ '(_, h'), sound n h') (cell_alloc h p).
Proof.
  intros H. unfold cell_alloc. eapply (post_bind (sound n)).
  { destruct (_ || _); [|done]. eapply post_bind; [by apply free_tail_sound|]. intros. by apply hbin_append_sound. }
  intros h1 H1. eapply post_bind; [by apply wr32_sound|]. intros h2 H2.
  eapply post_bind; [apply put_sound; eauto with asb|]. intros h3 H3. exact H3.
Qed.

(** ** Names are bytes *)

Lemma evens_bytes n l : bytes l → bytes (evens n l).
Proof.
  revert l. induction n as [|n IH]; intros l Hl; [constructor|]. destruct l as [|c l]; [constructor|].
  inversion Hl; subst. cbn [evens]. constructor; [done|]. apply IH. by apply Forall_drop.
Qed.

Lemma nk_name_bytes n h nk cap : sound n h → post bytes (nk_name h nk cap).
Proof.
  intros (H & _). unfold nk_name. do 2 (apply post_any; intros). unfold name_chars.
  destruct (negb _); [by apply slice_bytes|]. destruct (_ =? 0); [constructor|].
  eapply post_bind; [by apply slice_bytes|]. intros l Hl. by apply evens_bytes.
Qed.

Lemma hint4_bytes nm : bytes nm → bytes (hint4 nm).
Proof. intros H. unfold hint4. apply Forall_take, Forall_app. auto with asb. Qed.

Lemma cstring_bytes l : bytes l → bytes (cstring l).
Proof. induction 1 as [|c l Hc Hl IH]; simpl; [constructor|]. destruct (c =? 0); [constructor|by constructor]. Qed.

Lemma str_utf16_bytes s m : bytes s → bytes (str_utf16 s m).
Proof.
  intros H. apply cstring_bytes in H. unfold str_utf16. rewrite !Forall_app. split_and!.
  - induction H as [|c l Hc Hl IH]; simpl; [constructor|]. constructor; [done|]. constructor; [unfold is_byte; lia|done].
  - repeat constructor; unfold is_byte; lia.
  - destruct m; repeat constructor; unfold is_byte; lia.
Qed.

(** ** Every operation keeps the shape *)

Lemma put_kids_sound n kids h a : sound n h → post (sound n) (put_kids h a kids).
Proof.
  revert h a. induction kids as [|k kids IH]; intros h a Hs; [done|]. cbn [put_kids].
  eapply post_bind; [by apply wr32_sound|]. intros h1 H1.
  eapply post_bind; [by eapply nk_name_bytes|]. intros nm Hnm.
  eapply post_bind; [apply put_sound; [done|by apply hint4_bytes]|]. intros h2 H2. by apply IH.
Qed.

Lemma set_kids_sound n h parent kids : sound n h → post (sound n) (set_kids h parent kids).
Proof.
  intros Hs. unfold set_kids. eapply post_bind; [by apply cell_alloc_sound|]. intros [lf h1] H1.
  eapply post_bind; [apply put_sound; eauto with asb|]. intros h2 H2.
  eapply post_bind; [by apply wr16_sound|]. intros h3 H3.
  eapply post_bind; [by apply put_kids_sound|]. intros h4 H4.
  eapply post_bind; [by apply wr32_sound|]. intros h5 H5. by apply wr32_sound.
Qed.

Lemma sublist_add_sound n h parent child : sound n h → post (sound n) (sublist_add h parent child).
Proof. intros Hs. unfold sublist_add. do 3 (apply post_any; intros). by apply set_kids_sound. Qed.

Lemma strip_sound n h e : sound n h → post (sound n) (strip_template_elems h e).
Proof.
  intros Hs. unfold strip_template_elems. do 2 (apply post_any; intros). destruct (Nat.eqb _ _); [done|by apply set_kids_sound].
Qed.

Lemma remove_sound n h o t : sound n h → post (sound n) (remove_object h o t).
Proof.
  intros Hs. unfold remove_object. apply post_any; intros. destruct (Nat.eqb _ _); [done|by apply set_kids_sound].
Qed.

Ltac writes_bytes := repeat constructor; cbn [snd]; auto with asb.

Lemma vk_writes_bytes vk name dlen d t : bytes name → Forall (λ w, bytes (snd w)) (vk_writes vk name dlen d t).
Proof. intros. unfold vk_writes. repeat (constructor; [cbn [snd]; auto with asb|]). constructor. Qed.
Lemma nk_writes_bytes nk p a s v l sk name : bytes name → Forall (λ w, bytes (snd w)) (nk_writes nk p a s v l sk name).
Proof. intros. unfold nk_writes. repeat (constructor; [cbn [snd]; auto with asb|]). constructor. Qed.
#[export] Hint Resolve vk_writes_bytes nk_writes_bytes : asb.

Lemma set_element_sound n h e name t data :
  sound n h → bytes name → bytes data → post (sound n) (set_element h e name t data).
Proof.
  intros Hs Hn Hd. unfold set_element. apply post_any. intros esub.
  eapply post_bind; [by apply cell_alloc_sound|]. intros [dcell h1] H1.
  eapply post_bind; [by apply put_sound|]. intros h2 H2. destruct (negb _).
  { apply post_any. intros vk. apply puts_sound; [done|]. repeat (constructor; [cbn [snd]; auto with asb|]). constructor. }
  eapply post_bind; [by apply cell_alloc_sound|]. intros [vk h3] H3.
  eapply post_bind; [apply puts_sound; eauto with asb|]. intros h4 H4.
  eapply post_bind; [by apply cell_alloc_sound|]. intros [vlist h5] H5.
  eapply post_bind; [by apply wr32_sound|]. intros h6 H6. apply post_any. intros sk.
  eapply post_bind; [by apply cell_alloc_sound|]. intros [nk h7] H7.
  eapply post_bind; [apply puts_sound; eauto with asb|]. intros h8 H8. by apply sublist_add_sound.
Qed.

Lemma set_elements_sound n es h e :
  sound n h → Forall (λ x, bytes (fst (fst x)) ∧ bytes (snd x)) es → post (sound n) (set_elements h e es).
Proof.
  intros Hs Hes. revert h Hs. induction Hes as [|[[name t] data] es [H1 H2] Hes IH]; intros h Hs; [done|]. cbn [set_elements].
  eapply post_bind; [by apply set_element_sound|]. exact IH.
Qed.

Lemma create_object_sound n h o guid t : sound n h → bytes guid → post (λ '(_, h'), sound n h') (create_object h o guid t).
Proof.
  intros Hs Hg. unfold create_object. apply post_any. intros sk.
  eapply post_bind; [by apply cell_alloc_sound|]. intros [obj h1] H1.
  eapply post_bind; [by apply cell_alloc_sound|]. intros [dcell h2] H2.
  eapply post_bind; [by apply wr32_sound|]. intros h3 H3.
  eapply post_bind; [by apply cell_alloc_sound|]. intros [tvk h4] H4.
  eapply post_bind; [apply puts_sound; eauto with asb|]. intros h5 H5.
  eapply post_bind; [by apply cell_alloc_sound|]. intros [tvl h6] H6.
  eapply post_bind; [by apply wr32_sound|]. intros h7 H7.
  eapply post_bind; [by apply cell_alloc_sound|]. intros [desc h8] H8.
  eapply post_bind; [apply puts_sound; eauto with asb|]. intros h9 H9.
  eapply post_bind; [by apply cell_alloc_sound|]. intros [elem h10] H10.
  eapply post_bind; [apply puts_sound; eauto with asb|]. intros h11 H11.
  eapply post_bind; [by apply cell_alloc_sound|]. intros [lf h12] H12.
  eapply post_bind; [apply puts_sound; [done|repeat (constructor; [cbn [snd]; auto with asb|]); constructor]|]. intros h13 H13.
  eapply post_bind; [apply puts_sound; eauto with asb|]. intros h14 H14.
  eapply post_bind; [by apply sublist_add_sound|]. intros h15 H15. exact H15.
Qed.

Lemma copy_words_sound n k h s d : sound n h → post (sound n) (copy_words h k s d).
Proof.
  revert h s d. induction k as [|k IH]; intros h s d Hs; [done|]. cbn [copy_words]. apply post_any. intros v.
  eapply post_bind; [by apply wr32_sound|]. intros. by apply IH.
Qed.

Lemma set_dword_sound n h nk name v : sound n h → bytes name → post (sound n) (set_dword_value h nk name v).
Proof.
  intros Hs Hn. unfold set_dword_value. apply post_any. intros vk. destruct (negb _).
  { apply puts_sound; [done|]. repeat (constructor; [cbn [snd]; auto with asb|]). constructor. }
  eapply post_bind; [by apply cell_alloc_sound|]. intros [nvk h1] H1. do 2 (apply post_any; intros).
  eapply post_bind; [by apply cell_alloc_sound|]. intros [nl h2] H2.
  eapply post_bind; [apply puts_sound; eauto with asb|]. intros h3 H3.
  eapply (post_bind (sound n)); [destruct (negb _); [by apply copy_words_sound|done]|]. intros h4 H4.
  eapply post_bind; [by apply wr32_sound|]. intros h5 H5.
  eapply post_bind; [by apply wr32_sound|]. intros h6 H6. by apply wr32_sound.
Qed.

(** ** The base block *)

(** The checksum of the first 508 bytes, as the registry defines it. *)
Definition regf_checksum (l : list Z) : Z :=
  let s := fold_left Z.lxor (map (λ i, le_val (sub l (4 * i) 4)) (seq 0 127)) 0 in
  if s =? 0xFFFFFFFF then 0xFFFFFFFE else if s =? 0 then 1 else s.

Lemma regf_checksum_ext l l' :
  (∀ i, (i < 127)%nat → sub l (4 * i) 4 = sub l' (4 * i) 4) → regf_checksum l = regf_checksum l'.
Proof.
  intros H. unfold regf_checksum.
  assert (map (λ i, le_val (sub l (4 * i) 4)) (seq 0 127) = map (λ i, le_val (sub l' (4 * i) 4)) (seq 0 127)) as E; [|by rewrite E].
  apply map_ext_in. intros i Hi. apply in_seq in Hi. by rewrite H by lia.
Qed.

(** The two sequence numbers agree and the checksum is right. *)
Definition base_block_ok (l : list Z) : Prop :=
  sub l 4 4 = sub l 8 4 ∧ le_val (sub l 0x1FC 4) = regf_checksum l.

Lemma rd32_post h a : 0 <= a → post (λ v, v = le_val (sub (b h) (Z.to_nat a) 4) ∧ a + 4 <= len h) (rd32 h a).
Proof.
  intros Ha. unfold rd32, slice, len. rewrite (proj2 (Z.leb_le 0 a)) by lia. simpl.
  destruct (Z.leb_spec (a + 4) (Z.of_nat (length (b h)))); simpl; done.
Qed.

Lemma xor_words_post h n i s :
  post (λ v, v = fold_left Z.lxor (map (λ k, le_val (sub (b h) (4 * k) 4)) (seq i n)) s) (xor_words h n (Z.of_nat i) s).
Proof.
  revert i s. induction n as [|n IH]; intros i s; [done|]. cbn [xor_words seq map fold_left].
  eapply post_bind; [apply rd32_post; lia|]. intros v [-> _].
  replace (Z.of_nat i + 1) with (Z.of_nat (S i)) by lia. replace (Z.to_nat (4 * Z.of_nat i)) with (4 * i)%nat by lia. apply IH.
Qed.

Lemma checksum_range l : bytes l → is_u32 (fold_left Z.lxor (map (λ i, le_val (sub l (4 * i) 4)) (seq 0 127)) 0).
Proof.
  intros Hl. assert (∀ ks s, is_u32 s → is_u32 (fold_left Z.lxor (map (λ i, le_val (sub l (4 * i) 4)) ks) s)) as H.
  { induction ks as [|k ks IH]; intros s Hs; [done|]. simpl. apply IH, lxor_u32; [done|].
    pose proof (le_val_bound (sub l (k + (k + (k + (k + 0)))) 4) (sub_bytes _ _ _ Hl)) as H.
    assert (length (sub l (k + (k + (k + (k + 0)))) 4) <= 4)%nat by (unfold sub; rewrite length_take; lia).
    unfold is_u32. split; [lia|]. eapply Z.lt_le_trans; [apply H|]. change 4294967296 with (256 ^ 4). apply Z.pow_le_mono_r; lia. }
  apply H. unfold is_u32. lia.
Qed.

Lemma sub_of_le l : length l = 4%nat → bytes l → le_bytes 4 (le_val l) = l.
Proof. intros Hl Hb. pose proof (le_bytes_le_val l Hb) as H. by rewrite Hl in H. Qed.

Lemma wr32_ok h a v :
  0 <= a → a + 4 <= len h → wr32 h a v = Ok (mkHive (splice (b h) (Z.to_nat a) (le_bytes 4 v)) (abump h) (aend h)).
Proof.
  intros Ha Hl. unfold wr32, put. rewrite length_le_bytes.
  by rewrite (proj2 (Z.leb_le 0 a)), (proj2 (Z.leb_le (a + Z.of_nat 4) _)) by lia.
Qed.

Lemma finalize_spec n h :
  0x1000 <= n → sound n h → post (λ h', sound n h' ∧ base_block_ok (b h')) (finalize h).
Proof.
  intros Hn Hs. unfold finalize. eapply post_bind; [by apply free_tail_sound|]. intros h1 (B1 & L1 & M1). unfold len in L1.
  eapply post_bind; [apply rd32_post; lia|]. intros seq [-> _]. change (Z.to_nat 4) with 4%nat.
  assert (length (sub (b h1) 4 4) = 4%nat) as Hl4 by (apply length_sub; lia).
  pose proof (wr32_sound n h1 8 (le_val (sub (b h1) 4 4)) ltac:(done)) as HS.
  rewrite wr32_ok in HS |- * by (unfold len; lia). rewrite sub_of_le in * by (done || by apply sub_bytes).
  change (Z.to_nat 8) with 8%nat in *. rewrite bind_ok_eq. cbn [post] in HS.
  set (l2 := splice (b h1) 8 (sub (b h1) 4 4)) in *. destruct HS as (B2 & L2 & M2). cbn [b] in *.
  assert (length l2 = length (b h1)) as E2 by (unfold l2; apply length_splice).
  assert (sub l2 4 4 = sub l2 8 4) as Hseq.
  { unfold l2. rewrite sub_splice_other by lia. symmetry. apply sub_splice_same; lia. }
  eapply post_bind; [apply (xor_words_post _ 127 0 0)|]. intros s ->. cbn [b].
  set (c := if _ =? 0 then 1 else _).
  assert (c = regf_checksum l2) as Ec.
  { unfold c, regf_checksum. set (x := fold_left _ _ _). destruct (x =? 0xFFFFFFFF); [done|by destruct (x =? 0)]. }
  assert (is_u32 c) as Hc.
  { rewrite Ec. unfold regf_checksum. pose proof (checksum_range l2 B2) as Hx. revert Hx. generalize (fold_left Z.lxor (map (λ i, le_val (sub l2 (4 * i) 4)) (seq 0 127)) 0).
    intros x Hx. destruct (x =? 0xFFFFFFFF); [unfold is_u32; lia|]. destruct (x =? 0); [unfold is_u32; lia|done]. }
  clearbody c. rewrite wr32_ok by (unfold len; cbn [b]; lia). cbn [post b].
  change (Z.to_nat 0x1FC) with 508%nat.
  assert (∀ o, (o + 4 <= 508)%nat → sub (splice l2 508 (le_bytes 4 c)) o 4 = sub l2 o 4) as Ho
    by (intros o Hx; apply sub_splice_other; rewrite ?length_le_bytes; lia).
  split.
  - unfold sound, len. cbn [b]. rewrite length_splice. split; [apply splice_bytes; auto with asb|done].
  - split; [by rewrite !Ho by lia|]. rewrite sub_splice_same by (rewrite ?length_le_bytes; lia).
    rewrite le_val_le_bytes_small by exact Hc. rewrite (regf_checksum_ext _ l2); [exact Ec|].
    intros i Hi. by rewrite Ho by lia.
Qed.

Definition guids_ok (g : bcd_guids_t) : Prop := bytes (disk_guid g) ∧ bytes (esp_part_guid g) ∧ bytes (win_part_guid g).

Lemma device_blob_bytes p d : bytes p → bytes d → bytes (device_blob p d).
Proof.
  intros Hp Hd. unfold device_blob. repeat (apply splice_bytes; [|done || (repeat constructor; unfold is_byte; lia)]).
  apply zeros_bytes.
Qed.
#[export] Hint Resolve device_blob_bytes str_utf16_bytes : asb.

Ltac elements_bytes :=
  repeat (constructor; [cbn [fst snd]; split; unfold qw; auto with asb|]); constructor.

Lemma bootmgr_bytes g lg : guids_ok g → bytes lg → Forall (λ x, bytes (fst (fst x)) ∧ bytes (snd x)) (bootmgr_elements g lg).
Proof. intros (H1 & H2 & H3) Hl. unfold bootmgr_elements. elements_bytes. Qed.
Lemma loader_bytes g : guids_ok g → Forall (λ x, bytes (fst (fst x)) ∧ bytes (snd x)) (loader_elements g).
Proof. intros (H1 & H2 & H3). unfold loader_elements. elements_bytes. Qed.
Lemma debug_bytes : Forall (λ x, bytes (fst (fst x)) ∧ bytes (snd x)) debug_elements.
Proof.
  unfold debug_elements. constructor.
  - cbn [fst snd]. split; [auto with asb|]. apply Forall_singleton. unfold is_byte. lia.
  - elements_bytes.
Qed.
Lemma resume_bytes g : guids_ok g → Forall (λ x, bytes (fst (fst x)) ∧ bytes (snd x)) (resume_elements g).
Proof. intros (H1 & H2 & H3). unfold resume_elements. elements_bytes. Qed.

Lemma patch_resume_sound n h o bm g : guids_ok g → sound n h → post (sound n) (patch_resume h o bm g).
Proof.
  intros Hg Hs. unfold patch_resume. apply post_any. intros resume. destruct (_ =? _); [done|].
  eapply post_bind; [by eapply nk_name_bytes|]. intros rg Hrg. apply post_any. intros rs.
  eapply (post_bind (sound n)).
  { destruct (_ =? _); [done|]. eapply post_bind; [by apply strip_sound|]. intros h1 H1.
    apply set_elements_sound; [done|by apply resume_bytes]. }
  intros h1 H1. apply set_element_sound; auto with asb.
Qed.

Lemma drop_winpe_sound n h o l : sound n h → post (sound n) (drop_winpe h o l).
Proof. intros Hs. unfold drop_winpe. apply post_any. intros w. destruct (_ && _); [by apply remove_sound|done]. Qed.

Lemma add_fwbootmgr_sound n h o bm : sound n h → post (sound n) (add_fwbootmgr h o bm).
Proof.
  intros Hs. unfold add_fwbootmgr. apply post_any. intros fw. destruct (negb _); [done|].
  eapply post_bind; [by eapply nk_name_bytes|]. intros bg Hbg.
  eapply post_bind; [by apply create_object_sound; [|auto with asb]|]. intros [fe h1] H1.
  apply set_elements_sound; [done|]. elements_bytes.
Qed.

Lemma mark_system_sound n h r : sound n h → post (sound n) (mark_system h r).
Proof.
  intros Hs. unfold mark_system. apply post_any. intros rd. destruct (_ =? _); [done|].
  eapply post_bind; [by apply set_dword_sound; [|auto with asb]|]. intros h1 H1. apply set_dword_sound; auto with asb.
Qed.

Lemma pages_of a n : n <= a → (a - n) mod 0x1000 = 0 → ∃ pages, 0 <= pages ∧ a = n + pages * 0x1000.
Proof. intros Hle Hm. exists ((a - n) / 0x1000). dlia. Qed.

(** C35. A store that [bcd_build] returns has a valid base block.  Whatever the
    template, when a store is returned its two sequence numbers agree, its
    checksum is the one the registry computes over the first 508 bytes, and it is
    as large as the template and a number of pages of 4 KiB more; so it is a
    whole number of pages exactly when the template is one. *)
Theorem bcd_base_block tpl g dbg out :
  bytes tpl → guids_ok g → bcd_build tpl g dbg = Ok out →
  bytes out ∧ base_block_ok out ∧ ∃ pages, 0 <= pages ∧ Z.of_nat (length out) = Z.of_nat (length tpl) + pages * 0x1000.
Proof.
  intros Hb Hg Hrun. set (n := Z.of_nat (length tpl)).
  assert (post (λ o, bytes o ∧ base_block_ok o ∧ n <= Z.of_nat (length o) ∧ (Z.of_nat (length o) - n) mod 0x1000 = 0) (bcd_build tpl g dbg)) as H.
  2:{ rewrite Hrun in H. destruct H as (H1 & H2 & H3 & H4). split_and!; [done|done|]. by apply pages_of. }
  clear Hrun out. unfold bcd_build. destruct (_ || _) eqn:E; [done|]. cbn [fail_if]. zbool.
  assert (sound n (mkHive tpl 0 0)) as Hs by (unfold sound, len; cbn [b]; fold n; split_and!; [done|lia|by rewrite Z.sub_diag]).
  do 2 (apply post_any; intros). apply post_fail_if. do 2 (apply post_any; intros). apply post_fail_if.
  eapply post_bind; [by eapply nk_name_bytes|]. intros lg Hlg. do 2 (apply post_any; intros). apply post_fail_if.
  eapply post_bind; [by apply strip_sound|]. intros h1 H1'. eapply post_bind; [by apply strip_sound|]. intros h2 H2'.
  eapply post_bind; [apply set_elements_sound; [done|by apply bootmgr_bytes]|]. intros h3 H3'.
  eapply post_bind; [apply set_elements_sound; [done|by apply loader_bytes]|]. intros h4 H4'.
  eapply (post_bind (sound n)); [destruct dbg; [apply set_elements_sound; [done|apply debug_bytes]|done]|]. intros h5 H5'.
  eapply post_bind; [by apply patch_resume_sound|]. intros h6 H6'.
  eapply post_bind; [by apply drop_winpe_sound|]. intros h7 H7'.
  eapply post_bind; [by apply add_fwbootmgr_sound|]. intros h8 H8'.
  eapply post_bind; [by apply mark_system_sound|]. intros h9 H9'.
  eapply post_bind; [by apply (finalize_spec n)|]. intros h10 [(S1 & S2 & S3) S4]. unfold len in *.
  cbn [post]. split_and!; done.
Qed.

(** ** A template to run it on *)

(** A hive of one root key with Objects and Description below it, and the
    objects a template must have: boot manager and installed loader. *)
Definition sample_template : outcome (list Z) :=
  let base := splice (splice (replicate (Z.to_nat 0x1000) 0) 0 (lit "regf")) 4 (le_bytes 4 7) in
  '(root, h) ← cell_alloc (mkHive base 0 0) (0x4C + 4);
  h ← puts h (nk_writes root 0 0 NIL 0 NIL NIL (lit "root"));
  h ← wr32 h 0x24 root;
  '(objs, h) ← cell_alloc h (0x4C + 7);
  h ← puts h (nk_writes objs root 0 NIL 0 NIL NIL (lit "Objects"));
  h ← sublist_add h root objs;
  '(desc, h) ← cell_alloc h (0x4C + 11);
  h ← puts h (nk_writes desc root 0 NIL 0 NIL NIL (lit "Description"));
  h ← sublist_add h root desc;
  '(bm, h) ← create_object h objs (lit "{9dea862c}") 0x10100002;
  h ← set_elements h bm [(lit "42000001", 1, [1]); (lit "25000004", 3, [5])];
  '(ld, h) ← create_object h objs (lit "{b2721d73}") 0x10200003;
  h ← set_elements h ld [(lit "22000002", 1, [1])];
  h ← finalize h;
  Ok (b h).

Definition sample_guids : bcd_guids_t := mkGuids (replicate 16 1) (replicate 16 2) (replicate 16 3).

Definition ok_or_nil (o : outcome (list Z)) : list Z := match o with Ok l => l | _ => [] end.
Definition is_ok {A} (o : outcome A) : bool := match o with Ok _ => true | _ => false end.
Definition sample_tpl : list Z := ok_or_nil sample_template.

Lemma is_ok_eq (o : outcome (list Z)) : is_ok o = true → o = Ok (ok_or_nil o).
Proof. by destruct o. Qed.

Lemma sample_build_ok : is_ok (bcd_build sample_tpl sample_guids false) = true.
Proof. vm_compute. reflexivity. Qed.

Lemma bcd_base_block_witness :
  bytes (ok_or_nil (bcd_build sample_tpl sample_guids false)) ∧
  base_block_ok (ok_or_nil (bcd_build sample_tpl sample_guids false)).
Proof.
  destruct (bcd_base_block sample_tpl sample_guids false (ok_or_nil (bcd_build sample_tpl sample_guids false)))
    as (H1 & H2 & _).
  - apply (bool_decide_unpack (Forall is_byte sample_tpl)). vm_compute. exact I.
  - repeat split; apply Forall_replicate; unfold is_byte; lia.
  - apply is_ok_eq, sample_build_ok.
  - split; [exact H1|exact H2].
Defined.

(** Cell offsets are followed unchecked: a header page that points outside the
    hive makes the patcher read outside it. *)
Example bcd_unchecked_offset :
  bcd_build (lit "regf" ++ replicate (Z.to_nat 0xFFC) 0xFF) sample_guids false = Fault.
Proof. vm_compute. reflexivity. Qed.

(** A cell larger than a bin runs past the bin appended for it. *)
Example bcd_oversized_cell :
  cell_alloc (mkHive (replicate (Z.to_nat 0x1000) 0) 0 0) (4 + 8 * 508) = Fault.
Proof. vm_compute. reflexivity. Qed.
