(* ===== verification/BcdAlloc.v ===== *)
(** * The cell allocator of the store patcher
      ([src/tools/iso-patch-mac/engine/bcd_patch.c]: [hbin_append],
      [cell_alloc])

    New cells come from bins appended to the hive.  They behave as independent
    buffers, the template below them is untouched, and once the last bin's tail
    is freed the appended bins are exactly tiled by cells. *)

From Stdlib Require Import String.
From S2P Require Import Prelude Bytes WStr Outcome Bcd.

(** ** The appended region as blocks *)

Inductive block := HBin | Cell (sz : Z).

Definition bsize (k : block) : Z := match k with HBin => 0x20 | Cell sz => sz end.

Definition word (l : list Z) (a : Z) : Z := le_val (sub l (Z.to_nat a) 4).

(** The header of a block at [a]: a bin's signature and size, or a cell's size,
    negative when allocated. *)
Definition block_ok (l : list Z) (a : Z) (k : block) : Prop :=
  match k with
  | HBin => sub l (Z.to_nat a) 4 = lit "hbin" ∧ word l (a + 8) = 0x1000
  | Cell sz => 8 <= sz ∧ sz mod 8 = 0 ∧ (word l a = sz ∨ word l a = 2 ^ 32 - sz)
  end.

(** How many bytes of a block the allocator owns. *)
Definition hdr_size (k : block) : Z := match k with HBin => 0x20 | Cell _ => 4 end.

(** The blocks laid out from [a], with their addresses. *)
Fixpoint addrs (a : Z) (ks : list block) : list (Z * block) :=
  match ks with [] => [] | k :: ks => (a, k) :: addrs (a + bsize k) ks end.

Fixpoint total (ks : list block) : Z := match ks with [] => 0 | k :: ks => bsize k + total ks end.

Definition laid (l : list Z) (a : Z) (ks : list block) : Prop := Forall (λ x, block_ok l (fst x) (snd x)) (addrs a ks).

(** Bins of 0x1000 bytes: a header, then cells; [r] is the room left in the last. *)
Inductive shape : list block → Z → Prop :=
| shape_nil : shape [] 0
| shape_bin ks : shape ks 0 → shape (ks ++ [HBin]) 0xFE0
| shape_cell ks r sz : shape ks r → 8 <= sz <= r → sz mod 8 = 0 → shape (ks ++ [Cell sz]) (r - sz).

(** The bytes of [l] from [a] are whole bins, each tiled by its cells. *)
Definition tiled (l : list Z) (a : Z) : Prop :=
  ∃ ks, shape ks 0 ∧ laid l a ks ∧ a + total ks = Z.of_nat (length l).

Lemma total_app ks1 ks2 : total (ks1 ++ ks2) = total ks1 + total ks2.
Proof. induction ks1 as [|k ks1 IH]; simpl; lia. Qed.
Lemma addrs_app a ks1 ks2 : addrs a (ks1 ++ ks2) = addrs a ks1 ++ addrs (a + total ks1) ks2.
Proof.
  revert a. induction ks1 as [|k ks1 IH]; intros a; simpl; [by rewrite Z.add_0_r|]. rewrite IH. do 3 f_equal. lia.
Qed.

Lemma laid_snoc l a ks k : laid l a (ks ++ [k]) ↔ laid l a ks ∧ block_ok l (a + total ks) k.
Proof.
  unfold laid. rewrite addrs_app, Forall_app. simpl. split; intros [H1 H2]; split; [done| |done|by constructor].
  by inversion H2.
Qed.

Lemma shape_sizes ks r : shape ks r → Forall (λ k, 8 <= bsize k) ks ∧ 0 <= r /\ r mod 8 = 0.
Proof.
  induction 1 as [|ks H IH|ks r sz H IH Hsz Hm].
  - split; [constructor|done].
  - destruct IH as (H1 & _). split; [|split; [lia|reflexivity]]. apply Forall_app. split; [done|]. constructor; [simpl; lia|done].
  - destruct IH as (H1 & H2 & H3). split.
    + apply Forall_app. split; [done|]. constructor; [simpl; lia|done].
    + split; [lia|]. rewrite Zminus_mod, H3, Hm. done.
Qed.

Lemma total_nonneg ks : Forall (λ k, 8 <= bsize k) ks → 0 <= total ks.
Proof. induction 1; simpl; lia. Qed.

Lemma addrs_range a ks x k : Forall (λ k, 8 <= bsize k) ks → (x, k) ∈ addrs a ks → a <= x ∧ x + bsize k <= a + total ks ∧ 8 <= bsize k.
Proof.
  intros H. revert a. induction H as [|k0 ks Hk Hks IH]; intros a Hin; [by apply not_elem_of_nil in Hin|].
  pose proof (total_nonneg ks Hks). simpl in *. apply elem_of_cons in Hin as [[= -> ->]|Hin]; [lia|].
  specialize (IH _ Hin). lia.
Qed.

(** Two blocks are the same or disjoint. *)
Lemma addrs_disjoint a ks x k y k' :
  Forall (λ k, 8 <= bsize k) ks → (x, k) ∈ addrs a ks → (y, k') ∈ addrs a ks →
  (x = y ∧ k = k') ∨ x + bsize k <= y ∨ y + bsize k' <= x.
Proof.
  intros H. revert a. induction H as [|k0 ks Hk Hks IH]; intros a Hx Hy; [by apply not_elem_of_nil in Hx|].
  simpl in *. apply elem_of_cons in Hx, Hy. destruct Hx as [[= -> ->]|Hx], Hy as [[= -> ->]|Hy].
  - by left.
  - right. left. apply (addrs_range _ _ _ _ Hks) in Hy. lia.
  - right. right. apply (addrs_range _ _ _ _ Hks) in Hx. lia.
  - by apply (IH (a + bsize k0)).
Qed.

(** ** Reads and writes at [Z] addresses *)

Lemma sub_put_other l p d o n :
  0 <= p → p + Z.of_nat (length d) <= Z.of_nat (length l) → 0 <= o →
  o + Z.of_nat n <= p ∨ p + Z.of_nat (length d) <= o →
  sub (splice l (Z.to_nat p) d) (Z.to_nat o) n = sub l (Z.to_nat o) n.
Proof. intros. apply sub_splice_other; lia. Qed.

Lemma put_ok h a d :
  0 <= a → a + Z.of_nat (length d) <= len h → put h a d = Ok (mkHive (splice (b h) (Z.to_nat a) d) (abump h) (aend h)).
Proof. intros Ha Hl. unfold put. by rewrite (proj2 (Z.leb_le 0 a)), (proj2 (Z.leb_le _ (len h))) by lia. Qed.

(** A block keeps its header when a write stays off it. *)
Lemma block_ok_frame l p d a k :
  0 <= p → p + Z.of_nat (length d) <= Z.of_nat (length l) → 0 <= a →
  a + hdr_size k <= p ∨ p + Z.of_nat (length d) <= a → block_ok l a k → block_ok (splice l (Z.to_nat p) d) a k.
Proof.
  intros Hp Hl Ha Hd. unfold block_ok, word. destruct k as [|sz]; cbn [hdr_size] in Hd.
  - intros [H1 H2]. rewrite !sub_put_other by lia. done.
  - intros (H1 & H2 & H3). rewrite !sub_put_other by lia. done.
Qed.

Lemma laid_frame l p d a ks :
  Forall (λ k, 8 <= bsize k) ks → 0 <= a → 0 <= p → p + Z.of_nat (length d) <= Z.of_nat (length l) →
  (∀ x k, (x, k) ∈ addrs a ks → x + hdr_size k <= p ∨ p + Z.of_nat (length d) <= x) →
  laid l a ks → laid (splice l (Z.to_nat p) d) a ks.
Proof.
  intros Hks Ha Hp Hl Hav H. unfold laid in *. rewrite list.Forall_forall in *. intros [x k] Hin.
  apply block_ok_frame; [done|done| |by apply Hav|by apply (H (x, k))].
  destruct (addrs_range _ _ _ _ Hks Hin). cbn [fst]. lia.
Qed.

(** ** The heap invariant *)

Lemma u32_neg x : 0 < x < 2 ^ 32 → u32 (- x) = 2 ^ 32 - x.
Proof. intros Hx. unfold u32. symmetry. apply (Z.mod_unique_pos _ _ (-1)); lia. Qed.

(** A cell is known by its stored offset and its payload. *)
Definition cell_size (c : list Z) : Z := ru8 (4 + Z.of_nat (length c)).

Definition cell_at (l : list Z) (L0 : Z) (ks : list block) (x : Z * list Z) : Prop :=
  0 <= fst x ∧ (fst x + 0x1000, Cell (cell_size (snd x))) ∈ addrs L0 ks ∧ 4 + Z.of_nat (length (snd x)) <= cell_size (snd x) ∧
  sub l (Z.to_nat (BODY (fst x))) (length (snd x)) = snd x.

Record heap (tpl l : list Z) (ks : list block) (r : Z) (cells : list (Z * list Z)) : Prop := {
  hp_shape : shape ks r;
  hp_laid : laid l (Z.of_nat (length tpl)) ks;
  hp_len : Z.of_nat (length l) = Z.of_nat (length tpl) + total ks + r;
  hp_cells : Forall (cell_at l (Z.of_nat (length tpl)) ks) cells;
  hp_nodup : NoDup (map fst cells);
  hp_tpl : 0x1000 <= Z.of_nat (length tpl) ∧
    ∀ o n, (o + n <= 0x28 ∨ 0x2C <= o)%nat → (o + n <= length tpl)%nat → sub l o n = sub tpl o n;
}.

(** The allocator's two words. *)
Definition bump_ok (tpl : list Z) (h : hive_t) (ks : list block) : Prop :=
  match ks with
  | [] => aend h = 0
  | _ => aend h = len h ∧ abump h = Z.of_nat (length tpl) + total ks
  end.

Lemma ru8_spec x : 0 <= x < 2 ^ 31 → x <= ru8 x < x + 8 ∧ ru8 x mod 8 = 0.
Proof.
  intros Hx. unfold ru8. change (u32 (Z.lnot 7)) with (Z.shiftl (Z.ones (32 - 3)) 3).
  rewrite u32_small by lia. rewrite land_round8 by lia. split; [|apply Z.mod_mul; lia].
  pose proof (Z.div_mod (x + 7) 8 ltac:(lia)). pose proof (Z.mod_pos_bound (x + 7) 8 ltac:(lia)). lia.
Qed.

Section heap.
Context (tpl : list Z).
Abbreviation L0 := (Z.of_nat (length tpl)).

(** A write to the template's size word or to the room left. *)
Lemma heap_write_free l ks r cells p d :
  heap tpl l ks r cells → 0 <= p → p + Z.of_nat (length d) <= Z.of_nat (length l) →
  (0x28 <= p ∧ p + Z.of_nat (length d) <= 0x2C) ∨ L0 + total ks <= p →
  heap tpl (splice l (Z.to_nat p) d) ks r cells.
Proof.
  intros [Hs Hl Hn Hc Hd [Hm Ht]] Hp Hpl Hw. pose proof (shape_sizes _ _ Hs) as [Hks Hr].
  constructor; [done| | | |done|split; [done|]].
  - apply laid_frame; [done|lia|done|done| |done]. intros x k Hin. apply (addrs_range _ _ _ _ Hks) in Hin.
    destruct k as [|sz]; cbn [hdr_size bsize] in *; lia.
  - by rewrite length_splice.
  - eapply Forall_impl; [exact Hc|]. intros [off c] (H1 & H2 & H3 & H4). split_and!; [done|done|done|]. cbn [fst snd] in *.
    apply (addrs_range _ _ _ _ Hks) in H2. cbn [bsize] in H2. unfold BODY in *. rewrite sub_put_other by lia. exact H4.
  - intros o n Ho Hol. pose proof (total_nonneg _ Hks). rewrite <- (Nat2Z.id o), sub_put_other, Nat2Z.id by lia. by apply Ht.
Qed.

(** The room's first bytes become a cell. *)
Lemma heap_add_cell l ks r cells sz :
  heap tpl l ks r cells → 8 <= sz <= r → sz mod 8 = 0 →
  word l (L0 + total ks) = sz ∨ word l (L0 + total ks) = 2 ^ 32 - sz →
  heap tpl l (ks ++ [Cell sz]) (r - sz) cells.
Proof.
  intros [Hs Hl Hn Hc Hd Ht] Hsz Hm Hw. constructor; [by apply shape_cell| | | |done|done].
  - apply laid_snoc. split; [done|]. simpl. split_and!; [lia|done|done].
  - rewrite total_app. simpl. lia.
  - eapply Forall_impl; [exact Hc|]. intros [off c] (H1 & H2 & H3). split; [done|]. split; [|done].
    rewrite addrs_app. apply elem_of_app. by left.
Qed.

(** A new bin. *)
Lemma heap_append_bin l ks cells w :
  heap tpl l ks 0 cells →
  heap tpl (l ++ lit "hbin" ++ le_bytes 4 w ++ le_bytes 4 0x1000 ++ replicate (Z.to_nat 4084) 0) (ks ++ [HBin]) 0xFE0 cells.
Proof.
  intros [Hs Hl Hn Hc Hd [Hm Ht]]. pose proof (shape_sizes _ _ Hs) as [Hks _].
  set (hb := lit "hbin" ++ le_bytes 4 w ++ le_bytes 4 0x1000 ++ replicate (Z.to_nat 4084) 0).
  assert (length hb = 4096%nat) as Hhb by (unfold hb; rewrite !length_app, !length_le_bytes, length_replicate; reflexivity).
  assert (∀ o n, (o + n <= length l)%nat → sub (l ++ hb) o n = sub l o n) as Hpre
    by (intros o n Ho; unfold sub; rewrite drop_app_le, take_app_le by (rewrite ?length_drop; lia); done).
  assert (∀ o n, (o + n <= 4096)%nat → sub (l ++ hb) (length l + o) n = sub hb o n) as Hpost
    by (intros o n Ho; unfold sub; rewrite drop_app_ge by lia; do 2 f_equal; lia).
  constructor; [by apply shape_bin| | | |done|split; [done|]].
  - apply laid_snoc. split.
    + unfold laid in *. rewrite list.Forall_forall in *. intros [x k] Hin. specialize (Hl _ Hin).
      apply (addrs_range _ _ _ _ Hks) in Hin. unfold block_ok, word in *. cbn [fst snd] in *.
      destruct k as [|sz]; cbn [bsize] in Hin; [destruct Hl|destruct Hl as (? & ? & ?)]; rewrite !Hpre by lia; done.
    + replace (L0 + total ks) with (Z.of_nat (length l)) by lia. unfold block_ok, word. rewrite Nat2Z.id.
      replace (Z.to_nat (Z.of_nat (length l) + 8)) with (length l + 8)%nat by lia.
      split; [rewrite <- (Nat.add_0_r (length l))|]; rewrite Hpost by lia; reflexivity.
  - rewrite length_app, Hhb, total_app. simpl. lia.
  - eapply Forall_impl; [exact Hc|]. intros [off c] (H1 & H2 & H3 & H4). cbn [fst snd] in *. split_and!; [done| |done|].
    + cbn [fst snd]. rewrite addrs_app. apply elem_of_app. by left.
    + cbn [fst snd]. apply (addrs_range _ _ _ _ Hks) in H2. cbn [bsize] in H2. unfold BODY in *. rewrite Hpre by lia. done.
  - intros o n Ho Hol. pose proof (total_nonneg _ Hks). rewrite Hpre by lia. by apply Ht.
Qed.

(** The cell just added is handed out with its payload. *)
Lemma heap_hand_out l ks r cells c off :
  heap tpl l (ks ++ [Cell (cell_size c)]) r cells → off + 0x1000 = L0 + total ks → 0 <= off →
  4 + Z.of_nat (length c) <= cell_size c → Forall (cell_at l L0 ks) cells → 
  sub l (Z.to_nat (BODY off)) (length c) = c →
  heap tpl l (ks ++ [Cell (cell_size c)]) r (cells ++ [(off, c)]).
Proof.
  intros [Hs Hl Hn Hc Hd Ht] Ho Ho0 Hsz Hold Hsub. pose proof (shape_sizes _ _ Hs) as [Hks _].
  constructor; [done|done|done| | |done].
  - apply Forall_app. split; [done|]. constructor; [|constructor]. split_and!; [done| |done|done]. cbn [fst snd].
    rewrite addrs_app, Ho. apply elem_of_app. right. simpl. apply list_elem_of_here.
  - rewrite map_app. apply NoDup_app. split_and!; [done| |apply NoDup_singleton]. intros x Hx Hy.
    apply list_elem_of_singleton in Hy. subst x. apply list_elem_of_fmap in Hx as ([off' c'] & E & Hin). simpl in E. subst off'.
    pose proof (proj1 (list.Forall_forall _ _) Hold _ Hin) as (_ & H2 & _). cbn [fst snd] in H2.
    apply Forall_app in Hks as [Hks _]. apply (addrs_range _ _ _ _ Hks) in H2. cbn [bsize] in H2. lia.
Qed.

(** A write inside the payload of a cell. *)
Lemma heap_write_cell l ks r cells i off c o d :
  heap tpl l ks r cells → cells !! i = Some (off, c) → (o + length d <= length c)%nat →
  heap tpl (splice l (Z.to_nat (BODY off + Z.of_nat o)) d) ks r (<[i := (off, splice c o d)]> cells).
Proof.
  intros [Hs Hl Hn Hc Hd [Hm Ht]] Hi Ho. pose proof (shape_sizes _ _ Hs) as [Hks Hr].
  pose proof (Forall_lookup_1 _ _ _ _ Hc Hi) as (C1 & C2 & C3 & C4). cbn [fst snd] in *.
  pose proof (addrs_range _ _ _ _ Hks C2) as CR. cbn [bsize] in CR. unfold BODY in *.
  constructor; [done| | | | |split; [done|]].
  - apply laid_frame; [done|lia|lia|lia| |done]. intros x k Hin.
    destruct (addrs_disjoint _ _ _ _ _ _ Hks Hin C2) as [[-> ->]|[H|H]]; cbn [hdr_size bsize] in *; [lia| |lia].
    destruct k; cbn [hdr_size bsize] in *; [lia|]. pose proof (proj1 (list.Forall_forall _ _) Hl _ Hin) as (H8 & _). simpl in H8. lia.
  - by rewrite length_splice.
  - apply Forall_lookup. intros j [off' c'] Hj. destruct (decide (i = j)) as [<-|Hne].
    + rewrite list_lookup_insert_eq in Hj by (by apply lookup_lt_Some in Hi). injection Hj as <- <-.
      unfold cell_at, cell_size, BODY in *. cbn [fst snd]. rewrite length_splice. split_and!; [done|done|done|].
      replace (Z.to_nat (0x1000 + off + 4 + Z.of_nat o)) with (Z.to_nat (0x1000 + off + 4) + o)%nat by lia.
      rewrite sub_splice_in by lia. by rewrite C4.
    + rewrite list_lookup_insert_ne in Hj by done.
      pose proof (Forall_lookup_1 _ _ _ _ Hc Hj) as (D1 & D2 & D3 & D4). cbn [fst snd] in *.
      unfold cell_at, BODY in *. cbn [fst snd]. split_and!; [done|done|done|].
      pose proof (addrs_range _ _ _ _ Hks D2) as DR. cbn [bsize] in DR.
      destruct (addrs_disjoint _ _ _ _ _ _ Hks C2 D2) as [[E _]|[H|H]]; cbn [bsize] in *;
        [|rewrite sub_put_other by lia; done..].
      exfalso. apply Hne. apply (NoDup_lookup (map fst cells) i j off); [done|by rewrite list_lookup_fmap, Hi|].
      rewrite list_lookup_fmap, Hj. simpl. f_equal. lia.
  - rewrite list_fmap_insert. simpl. rewrite list_insert_id; [done|]. by rewrite list_lookup_fmap, Hi.
  - intros o' n Ho' Hol. pose proof (total_nonneg _ Hks). rewrite <- (Nat2Z.id o'), sub_put_other, Nat2Z.id by lia. by apply Ht.
Qed.
(** Carving a cell of [p] zero bytes out of the room. *)
Lemma heap_carve l ks r cells (p : nat) :
  heap tpl l ks r cells → cell_size (replicate p 0) <= r → Z.of_nat p < 2 ^ 30 →
  let need := cell_size (replicate p 0) in let fo := L0 + total ks in
  heap tpl (splice (splice l (Z.to_nat fo) (le_bytes 4 (u32 (- need)))) (Z.to_nat (fo + 4)) (replicate (Z.to_nat (need - 4)) 0))
    (ks ++ [Cell need]) (r - need) (cells ++ [(fo - 0x1000, replicate p 0)]).
Proof.
  intros H Hr Hp need fo. pose proof (hp_len _ _ _ _ _ H) as Hlen. pose proof (hp_tpl _ _ _ _ _ H) as [Hm _].
  pose proof (shape_sizes _ _ (hp_shape _ _ _ _ _ H)) as [Hks _]. pose proof (total_nonneg _ Hks) as Htot.
  assert (4 + Z.of_nat p <= need < 4 + Z.of_nat p + 8 ∧ need mod 8 = 0) as [Hn Hn8].
  { unfold need, cell_size. rewrite length_replicate. apply ru8_spec. lia. }
  fold need in Hr. set (l1 := splice l (Z.to_nat fo) (le_bytes 4 (u32 (- need)))).
  assert (heap tpl l1 ks r cells) as H1 by (apply heap_write_free; rewrite ?length_le_bytes; (done || lia)).
  assert (length l1 = length l) as El1 by (apply length_splice).
  assert (heap tpl (splice l1 (Z.to_nat (fo + 4)) (replicate (Z.to_nat (need - 4)) 0)) ks r cells) as H2
    by (apply heap_write_free; rewrite ?length_replicate; (done || lia)).
  set (l2 := splice l1 (Z.to_nat (fo + 4)) (replicate (Z.to_nat (need - 4)) 0)) in *.
  assert (word l2 fo = 2 ^ 32 - need) as Hword.
  { unfold word, l2. rewrite sub_put_other by (rewrite ?length_replicate; lia). unfold l1.
    rewrite sub_splice_same by (rewrite ?length_le_bytes; lia). rewrite le_val_le_bytes_small by (apply (u32_range (- need))). by rewrite u32_neg by lia. }
  assert (8 <= need) as H8.
  { destruct (Z.lt_ge_cases need 8); [|done]. pose proof (Z.mod_small need 8 ltac:(lia)). lia. }
  apply heap_hand_out; [|unfold fo; lia|unfold fo; lia|fold need; rewrite length_replicate; lia| |].
  - apply heap_add_cell; [done|lia|done|by right].
  - apply (hp_cells _ _ _ _ _ H2).
  - rewrite length_replicate. replace (Z.to_nat (BODY (fo - 0x1000))) with (Z.to_nat (fo + 4) + 0)%nat by (unfold BODY; lia).
    rewrite <- (sub_sub l2 (Z.to_nat (fo + 4)) (Z.to_nat (need - 4))) by lia. unfold l2.
    rewrite sub_splice_same by (rewrite ?length_replicate; lia). unfold sub. rewrite drop_0, take_replicate. f_equal. lia.
Qed.

Lemma free_tail_heap h ks r cells :
  heap tpl (b h) ks r cells → bump_ok tpl h ks → len h < 2 ^ 31 →
  ∃ h' ks', free_tail h = Ok h' ∧ heap tpl (b h') ks' 0 cells ∧ len h' = len h ∧ (ks = [] → ks' = []).
Proof.
  intros H Hb Hlim. pose proof (shape_sizes _ _ (hp_shape _ _ _ _ _ H)) as [Hks [Hr Hr8]].
  pose proof (hp_len _ _ _ _ _ H) as Hlen. pose proof (hp_tpl _ _ _ _ _ H) as [Hm _]. pose proof (total_nonneg _ Hks).
  unfold free_tail. destruct ks as [|k ks].
  { simpl in Hb. rewrite Hb. cbn [Z.eqb negb andb]. exists h, []. split_and!; [done| |done|done].
    pose proof (hp_shape _ _ _ _ _ H) as Hs. inversion Hs as [E|? ? E|? ? ? ? ? ? E]; [|by destruct ks|by destruct ks]. subst. done. }
  destruct Hb as [Ha Hbm]. set (ks0 := k :: ks) in *. unfold len in *. rewrite Ha, Hbm.
  rewrite (proj2 (Z.eqb_neq (Z.of_nat (length (b h))) 0)) by lia. cbn [negb andb].
  destruct (Z.ltb_spec (L0 + total ks0) (Z.of_nat (length (b h)))) as [Hlt|Hge].
  2:{ exists h, ks0. replace r with 0 in H by lia. split_and!; [done|done|done|done]. }
  assert (8 <= r) as H8 by (destruct (Z.lt_ge_cases r 8); [pose proof (Z.mod_small r 8 ltac:(lia)); lia|done]).
  unfold wr32. rewrite put_ok by (rewrite ?length_le_bytes; unfold len; lia). eexists _, (ks0 ++ [Cell r]).
  split; [reflexivity|]. cbn [b]. unfold len. rewrite length_splice. split_and!; [|done|done].
  replace 0 with (r - r) by lia.
  apply heap_add_cell; [apply heap_write_free; rewrite ?length_le_bytes; done || lia|lia|done|]. left.
  unfold word. rewrite sub_splice_same by (rewrite ?length_le_bytes; lia).
  rewrite le_val_le_bytes_small by (change (256 ^ Z.of_nat 4) with 4294967296; lia). lia.
Qed.

Lemma hbin_append_heap h ks cells :
  heap tpl (b h) ks 0 cells → len h + 0x1000 < 2 ^ 31 →
  ∃ h', hbin_append h = Ok h' ∧ heap tpl (b h') (ks ++ [HBin]) 0xFE0 cells ∧ bump_ok tpl h' (ks ++ [HBin]) ∧ len h' = len h + 0x1000.
Proof.
  intros H Hlim. pose proof (hp_len _ _ _ _ _ H) as Hlen. pose proof (hp_tpl _ _ _ _ _ H) as [Hm _].
  pose proof (shape_sizes _ _ (hp_shape _ _ _ _ _ H)) as [Hks _]. pose proof (total_nonneg _ Hks) as Htot.
  unfold hbin_append. unfold rd32. rewrite slice_ok by lia. cbn [mbind outcome_bind].
  set (w := le_val (sub (b h) (Z.to_nat 0x28) (Z.to_nat 4))). clearbody w.
  pose proof (heap_append_bin _ _ _ w H) as H1.
  set (l1 := b h ++ lit "hbin" ++ le_bytes 4 w ++ le_bytes 4 0x1000 ++ replicate (Z.to_nat 4084) 0) in *.
  assert (Z.of_nat (length l1) = len h + 0x1000) as El1.
  { pose proof (hp_len _ _ _ _ _ H1) as E. rewrite total_app in E. simpl in E. unfold len. lia. }
  clearbody l1. unfold wr32. rewrite put_ok by (rewrite ?length_le_bytes; unfold len in *; cbn [b]; lia).
  eexists. split; [reflexivity|]. unfold len in *. cbn [b]. split_and!.
  - apply heap_write_free; [done|lia|rewrite length_le_bytes; lia|rewrite length_le_bytes; left; lia].
  - unfold bump_ok. unfold len in *. destruct (ks ++ [HBin]) as [|k0 ks0] eqn:E; [by destruct ks|]. rewrite <- E.
    cbn [aend abump b]. rewrite length_splice. rewrite !u32_small by lia. rewrite total_app. simpl. lia.
  - unfold len in *. cbn [b]. by rewrite length_splice.
Qed.

Lemma bump_snoc h l ks k r cells :
  bump_ok tpl h ks → ks ≠ [] → heap tpl l ks r cells → Z.of_nat (length l) = len h → 0 <= L0 + total ks + bsize k < 2 ^ 32 →
  bump_ok tpl (mkHive l (u32 (abump h + bsize k)) (aend h)) (ks ++ [k]).
Proof.
  intros Hb Hne H Hl Hr. destruct ks as [|k0 ks]; [done|]. destruct Hb as [Ha Hb].
  unfold bump_ok. cbn [app]. cbn [aend abump]. unfold len in *. cbn [b]. split; [lia|].
  rewrite Hb, u32_small by lia. pose proof (total_app (k0 :: ks) [k]) as E. cbn [app] in E. rewrite E. simpl. lia.
Qed.

Lemma cell_alloc_heap h ks r cells (p : nat) :
  heap tpl (b h) ks r cells → bump_ok tpl h ks → (p <= 4060)%nat → len h + 0x1000 < 2 ^ 31 →
  ∃ off h' ks' r', cell_alloc h (Z.of_nat p) = Ok (off, h') ∧ heap tpl (b h') ks' r' (cells ++ [(off, replicate p 0)]) ∧
    bump_ok tpl h' ks' ∧ len h' <= len h + 0x1000.
Proof.
  intros H Hb Hp Hlim. unfold cell_alloc. rewrite u32_small by lia.
  assert (ru8 (4 + Z.of_nat p) = cell_size (replicate p 0)) as -> by (unfold cell_size; by rewrite length_replicate).
  assert (4 + Z.of_nat p <= cell_size (replicate p 0) < 4 + Z.of_nat p + 8 ∧ cell_size (replicate p 0) mod 8 = 0) as [Hn Hn8].
  { unfold cell_size. rewrite length_replicate. apply ru8_spec. lia. }
  assert (cell_size (replicate p 0) <= 0xFE0) as HFE by dlia.
  set (need := cell_size (replicate p 0)) in *.
  assert (∃ h1 ks1 r1, (if (aend h =? 0) || (aend h <? u32 (abump h + need)) then h ← free_tail h; hbin_append h else Ok h) = Ok h1 ∧
    heap tpl (b h1) ks1 r1 cells ∧ bump_ok tpl h1 ks1 ∧ ks1 ≠ [] ∧ need <= r1 ∧ len h1 <= len h + 0x1000)
    as (h1 & ks1 & r1 & -> & H1 & Hb1 & Hne & Hr1 & Hl1).
  { destruct (_ || _) eqn:E.
    - destruct (free_tail_heap h ks r cells H Hb ltac:(lia)) as (h0 & ks0 & -> & H0 & El0 & _). cbn [mbind outcome_bind].
      destruct (hbin_append_heap h0 ks0 cells H0 ltac:(lia)) as (h1 & -> & H1 & Hb1 & El1).
      exists h1, (ks0 ++ [HBin]), 0xFE0. split_and!; [done|done|done|by destruct ks0|lia|lia].
    - apply orb_false_iff in E as [E1 E2]. zbool. exists h, ks, r. destruct ks as [|k0 ks0]; [simpl in Hb; lia|].
      destruct Hb as [Ha Hbm]. pose proof (hp_len _ _ _ _ _ H) as Hlen. unfold len in *.
      pose proof (shape_sizes _ _ (hp_shape _ _ _ _ _ H)) as [Hks [Hr0 _]]. pose proof (total_nonneg _ Hks).
      rewrite u32_small in E2 by lia. split_and!; [done|done|by split|done|lia|lia]. }
  rewrite bind_ok_eq. pose proof (hp_len _ _ _ _ _ H1) as Hlen1. pose proof (hp_tpl _ _ _ _ _ H1) as [Hm _].
  pose proof (shape_sizes _ _ (hp_shape _ _ _ _ _ H1)) as [Hks1 _]. pose proof (total_nonneg _ Hks1).
  assert (abump h1 = L0 + total ks1) as Ebump by (destruct ks1; [done|apply Hb1]). unfold len in Hl1, Hlim.
  unfold wr32 at 1. rewrite put_ok by (rewrite ?length_le_bytes; unfold len; lia). rewrite bind_ok_eq.
  rewrite (u32_small (need - 4)) by lia.
  rewrite put_ok by (unfold len; cbn [b]; rewrite ?length_replicate, ?length_splice; lia). rewrite bind_ok_eq. cbn [b abump aend].
  rewrite (u32_small (abump h1 - 0x1000)), Ebump by lia.
  eexists (L0 + total ks1 - 0x1000), _, (ks1 ++ [Cell need]), (r1 - need). split; [reflexivity|]. cbn [b].
  pose proof (heap_carve (b h1) ks1 r1 cells p H1 Hr1 ltac:(lia)) as HC. cbv zeta in HC. fold need in HC. split; [exact HC|].
  split; [|unfold len; cbn [b]; rewrite !length_splice; lia].
  rewrite <- Ebump. apply (bump_snoc h1 _ ks1 (Cell need) r1 cells Hb1 Hne); [|unfold len; by rewrite !length_splice|simpl; lia].
  apply heap_write_free; [apply heap_write_free; [done|lia|rewrite length_le_bytes; lia|right; lia]|lia| |right; lia].
  rewrite length_splice, length_replicate. lia.
Qed.
End heap.

(** ** Sequences of allocations and of writes inside cells *)

Inductive aop := Alloc (p : nat) | Write (i o : nat) (d : list Z).

(** On the hive, with the offsets handed out so far. *)
Definition hive_step (h : hive_t) (offs : list Z) (a : aop) : outcome (hive_t * list Z) :=
  match a with
  | Alloc p => '(off, h) ← cell_alloc h (Z.of_nat p); Ok (h, offs ++ [off])
  | Write i o d =>
      match offs !! i with
      | Some off => h ← put h (BODY off + Z.of_nat o) d; Ok (h, offs)
      | None => Fault
      end
  end.

Fixpoint hive_run (h : hive_t) (offs : list Z) (ops : list aop) : outcome (hive_t * list Z) :=
  match ops with [] => Ok (h, offs) | a :: ops => '(h, offs) ← hive_step h offs a; hive_run h offs ops end.

(** The specification: a list of buffers that share nothing. *)
Definition spec_step (cs : list (list Z)) (a : aop) : list (list Z) :=
  match a with
  | Alloc p => cs ++ [replicate p 0]
  | Write i o d => match cs !! i with Some c => <[i := splice c o d]> cs | None => cs end
  end.

Fixpoint spec_run (cs : list (list Z)) (ops : list aop) : list (list Z) :=
  match ops with [] => cs | a :: ops => spec_run (spec_step cs a) ops end.

(** A payload fits a bin, a write stays in its buffer. *)
Definition op_fits (cs : list (list Z)) (a : aop) : bool :=
  match a with
  | Alloc p => Nat.leb p 4060
  | Write i o d => match cs !! i with Some c => Nat.leb (o + length d) (length c) | None => false end
  end.

Fixpoint ops_fit (cs : list (list Z)) (ops : list aop) : bool :=
  match ops with [] => true | a :: ops => op_fits cs a && ops_fit (spec_step cs a) ops end.

(** Every buffer reads back from its cell. *)
Definition reads_back (l : list Z) (offs : list Z) (cs : list (list Z)) : Prop :=
  Forall2 (λ off c, 0 <= off ∧ sub l (Z.to_nat (BODY off)) (length c) = c) offs cs.

(** The bytes of [tpl], its bin-size word apart, are still the first of [l]. *)
Definition keeps (tpl l : list Z) : Prop :=
  ∀ o n, (o + n <= 0x28 ∨ 0x2C <= o)%nat → (o + n <= length tpl)%nat → sub l o n = sub tpl o n.

Section run.
Context (tpl : list Z) (Htpl : 0x1000 <= Z.of_nat (length tpl)).

Definition run_inv (h : hive_t) (offs : list Z) (cs : list (list Z)) : Prop :=
  ∃ ks r, heap tpl (b h) ks r (zip offs cs) ∧ bump_ok tpl h ks ∧ length offs = length cs.

Lemma run_inv_init : run_inv (mkHive tpl 0 0) [] [].
Proof.
  exists [], 0. split_and!; [|done|done]. cbn [b zip_with].
  constructor; [constructor|constructor|simpl; lia|constructor|constructor|by split].
Qed.

Lemma hive_step_inv h offs cs a :
  run_inv h offs cs → op_fits cs a = true → len h + 0x1000 < 2 ^ 31 →
  ∃ h' offs', hive_step h offs a = Ok (h', offs') ∧ run_inv h' offs' (spec_step cs a) ∧ len h' <= len h + 0x1000.
Proof.
  intros (ks & r & H & Hb & Hlo) Hop Hlim. destruct a as [p|i o d]; cbn [op_fits hive_step spec_step] in *.
  - destruct (cell_alloc_heap tpl h ks r (zip offs cs) p) as (off & h' & ks' & r' & -> & H' & Hb' & Hl');
      [done|done|by apply Nat.leb_le|done|].
    rewrite bind_ok_eq. exists h', (offs ++ [off]). split_and!; [done| |done]. exists ks', r'.
    rewrite !length_app. cbn [length]. rewrite zip_with_app by done. split_and!; [done|done|lia].
  - destruct (cs !! i) as [c|] eqn:Ec; [|done]. apply Nat.leb_le in Hop.
    destruct (lookup_lt_is_Some_2 offs i) as [off Eo]; [rewrite Hlo; by eapply lookup_lt_Some|]. rewrite Eo.
    assert (zip offs cs !! i = Some (off, c)) as Ez by (rewrite lookup_zip_with, Eo; simpl; by rewrite Ec).
    pose proof (heap_write_cell tpl (b h) ks r _ i off c o d H Ez Hop) as H'.
    pose proof (shape_sizes _ _ (hp_shape _ _ _ _ _ H)) as [Hks [Hr _]]. pose proof (hp_len _ _ _ _ _ H) as Hlen.
    pose proof (Forall_lookup_1 _ _ _ _ (hp_cells _ _ _ _ _ H) Ez) as (C1 & C2 & C3 & _). cbn [fst snd] in *.
    apply (addrs_range _ _ _ _ Hks) in C2. cbn [bsize] in C2.
    rewrite put_ok by (unfold BODY, len; lia). rewrite bind_ok_eq.
    eexists _, offs. split; [reflexivity|]. unfold len. cbn [b]. rewrite length_splice. split; [|lia].
    exists ks, r. cbn [b]. rewrite length_insert. split_and!; [| |done].
    + rewrite insert_zip_with in H'. by rewrite (list_insert_id offs i off Eo) in H'.
    + destruct ks as [|k0 ks0]; [done|]. destruct Hb as [Ha Hb]. split; [|done]. unfold len in *. cbn [aend abump b].
      by rewrite length_splice.
Qed.

Lemma hive_run_inv ops : ∀ h offs cs,
  run_inv h offs cs → ops_fit cs ops = true → len h + 0x1000 * Z.of_nat (length ops) < 2 ^ 31 →
  ∃ h' offs', hive_run h offs ops = Ok (h', offs') ∧ run_inv h' offs' (spec_run cs ops) ∧ len h' <= len h + 0x1000 * Z.of_nat (length ops).
Proof.
  induction ops as [|a ops IH]; intros h offs cs Hi Hf Hl; cbn [hive_run spec_run ops_fit length] in *.
  - exists h, offs. split_and!; [done|done|lia].
  - apply andb_prop in Hf as [Hf1 Hf2].
    destruct (hive_step_inv h offs cs a Hi Hf1 ltac:(lia)) as (h1 & offs1 & -> & Hi1 & Hl1). rewrite bind_ok_eq.
    destruct (IH h1 offs1 _ Hi1 Hf2 ltac:(lia)) as (h' & offs' & -> & Hi' & Hl'). exists h', offs'. split_and!; [done|done|lia].
Qed.
End run.

Lemma heap_reads_back tpl l ks r offs cs :
  heap tpl l ks r (zip offs cs) → length offs = length cs → reads_back l offs cs.
Proof.
  intros H Hlo. apply Forall2_same_length_lookup_2; [done|]. intros i off c Eo Ec.
  pose proof (Forall_lookup_1 _ _ i (off, c) (hp_cells _ _ _ _ _ H)) as Hc.
  rewrite lookup_zip_with, Eo in Hc. simpl in Hc. rewrite Ec in Hc. destruct (Hc eq_refl) as (C1 & _ & _ & C4). by split.
Qed.

(** C36. The cells of the store's allocator refine independent zeroed buffers:
    over any sequence of allocations of at most 4060 bytes and of writes inside
    the cells handed out, no step faults, every buffer reads back from its cell
    as the last writes left it, and the template's bytes are unchanged, the
    header's bin-size word apart; once the tail of the last bin is freed, as
    [bcd_build] does before it returns, the appended bytes are whole bins of
    4096 bytes, each exactly tiled by cells with correct headers. *)
Theorem bcd_cells_refine tpl ops :
  0x1000 <= Z.of_nat (length tpl) → ops_fit [] ops = true →
  Z.of_nat (length tpl) + 0x1000 * Z.of_nat (length ops) < 2 ^ 31 →
  ∃ h offs, hive_run (mkHive tpl 0 0) [] ops = Ok (h, offs) ∧
    reads_back (b h) offs (spec_run [] ops) ∧ keeps tpl (b h) ∧
    ∃ h', free_tail h = Ok h' ∧ reads_back (b h') offs (spec_run [] ops) ∧ keeps tpl (b h') ∧
      tiled (b h') (Z.of_nat (length tpl)).
Proof.
  intros Htpl Hf Hl.
  destruct (hive_run_inv tpl ops (mkHive tpl 0 0) [] [] (run_inv_init tpl Htpl) Hf Hl) as (h & offs & Hr & (ks & r & H & Hb & Hlo) & Hl').
  assert (len h < 2 ^ 31) as Hlen by (unfold len in *; cbn [b] in *; lia).
  destruct (free_tail_heap tpl h ks r _ H Hb Hlen) as (h' & ks' & Hft & H' & _).
  exists h, offs. split; [done|]. split; [by eapply heap_reads_back|]. split; [exact (proj2 (hp_tpl _ _ _ _ _ H))|].
  exists h'. split; [done|]. split; [by eapply heap_reads_back|]. split; [exact (proj2 (hp_tpl _ _ _ _ _ H'))|].
  exists ks'. split; [apply (hp_shape _ _ _ _ _ H')|]. split; [apply (hp_laid _ _ _ _ _ H')|].
  rewrite (hp_len _ _ _ _ _ H'). lia.
Qed.

(** Two cells, a write in each, a third that opens a second bin. *)
Definition sample_ops : list aop :=
  [Alloc 5; Alloc 4000; Write 0 1 [7; 8]; Write 1 3999 [9]; Alloc 100; Write 2 0 [1; 2; 3]].

Lemma bcd_cells_refine_witness :
  ops_fit [] sample_ops = true ∧
  ∃ h offs, hive_run (mkHive (replicate 4096 0) 0 0) [] sample_ops = Ok (h, offs) ∧
    reads_back (b h) offs (spec_run [] sample_ops) ∧ keeps (replicate 4096 0) (b h) ∧
    ∃ h', free_tail h = Ok h' ∧ reads_back (b h') offs (spec_run [] sample_ops) ∧ keeps (replicate 4096 0) (b h') ∧
      tiled (b h') (Z.of_nat (length (replicate 4096 0))).
Proof.
  split; [vm_compute; reflexivity|]. apply (bcd_cells_refine (replicate 4096 0) sample_ops).
  - rewrite length_replicate. lia.
  - vm_compute. reflexivity.
  - rewrite length_replicate. cbn [length sample_ops]. lia.
Defined.

(** What the cells hold at the end. *)
Example sample_cells :
  match hive_run (mkHive (replicate 4096 0) 0 0) [] sample_ops with
  | Ok (h, offs) => offs = [0x20; 0x30; 0x1020] ∧ len h = 4096 * 3
  | _ => False
  end.
Proof. vm_compute. split; reflexivity. Qed.
