(* ===== verification/WimExtract.v ===== *)
(** * Extracting a file from an image by its path
      ([src/tools/iso-patch-mac/engine/wim_extract.c])

    The tool that resolves a path inside an image and lists a directory or
    extracts a file: it composes [Wim], [WimImage] and the codecs below them.
    Its output on the terminal and in the output file is the value [result]; a C
    string is the list of its bytes, none of them zero. *)

From stdpp Require Import gmap.
From S2P Require Import Prelude Bytes Outcome Huffman Lzx Wim WimImage WimEntry.

Definition WIM_FILE_ATTRIBUTE_DIRECTORY : Z := 0x10.

(** ** Names *)

(** [if (c >= 'a' && c <= 'z') c -= 32;] *)
Definition upcase (c : Z) : Z := if (97 <=? c) && (c <=? 122) then c - 32 else c.

(** A byte as a [char], which is signed. *)
Definition schar (c : Z) : Z := if 128 <=? c then c - 256 else c.

Fixpoint name_loop (m : list Z) (p : Z) (ascii : list Z) : outcome bool :=
  match ascii with
  | [] => Ok true
  | a :: ascii' =>
      ch ← rd16 m p;
      if upcase ch =? u32 (upcase (schar a)) then name_loop m (p + 2) ascii' else Ok false
  end.

Definition name_eq (m : list Z) (nm16 : option Z) (nb : Z) (ascii : list Z) : outcome bool :=
  if negb (Z.of_nat (length ascii) =? nb / 2) then Ok false else name_loop m (default 0 nm16) ascii.

(** ** Paths *)

(** [r <= 0] of the entry parser, whether an end or an error, is [None]. *)
Definition dentry_or_end (img : wim_image) (off : Z) : outcome (option wim_dentry_t) :=
  match wim_dentry_at img off with Err _ => Ok None | o => o end.

Fixpoint find_child_loop (fuel : nat) (img : wim_image) (off : Z) (c : list Z) : outcome (option wim_dentry_t) :=
  match fuel with
  | O => Spin
  | S fuel' =>
      r ← dentry_or_end img off;
      match r with
      | None => Ok None
      | Some d =>
          eq ← name_eq (meta img) (file_name d) (file_name_nbytes d) c;
          if (eq : bool) then Ok (Some d) else find_child_loop fuel' img (u64 (self_offset d + d_length d)) c
      end
  end.

Definition find_child (img : wim_image) (off : Z) (comp : list Z) : outcome (option wim_dentry_t) :=
  find_child_loop (S (length (meta img))) img off (take 255 comp).

(** Whether the parser accepts the length of the entry at [off], after which it
    has set [subdir_offset] even when it reports an error. *)
Definition root_filled (img : wim_image) (off : Z) : bool :=
  match rd64 (meta img) off with
  | Ok len => (102 <=? len) && (u64 (off + len) <=? meta_size img)
  | _ => false
  end.

(** [root.subdir_offset]; [Fault] when [root] was never set. *)
Definition root_children (img : wim_image) : outcome Z :=
  match wim_dentry_at img (wim_image_root_offset img) with
  | Ok (Some d) => Ok (subdir_offset d)
  | Ok None => Fault
  | Err _ => if root_filled img (wim_image_root_offset img) then rd64 (meta img) (wim_image_root_offset img + 16) else Fault
  | Fault => Fault
  | Spin => Spin
  end.

(** A backslash or a slash. *)
Definition path_sep (c : Z) : bool := (c =? 92) || (c =? 47).

Fixpoint skip_seps (p : list Z) : list Z :=
  match p with c :: p' => if path_sep c then skip_seps p' else p | [] => [] end.

(** The component at the head of a path, and what follows it. *)
Fixpoint take_comp (p : list Z) : list Z * list Z :=
  match p with
  | [] => ([], [])
  | c :: p' => if path_sep c then ([], p) else let '(w, q) := take_comp p' in (c :: w, q)
  end.

(** The loop over the path_words; [cur] is the entry found so far. *)
Fixpoint resolve_loop (fuel : nat) (img : wim_image) (children : Z) (p : list Z) (cur : option wim_dentry_t) :
    outcome (option wim_dentry_t) :=
  match fuel with
  | O => Spin
  | S fuel' =>
      match skip_seps p with
      | [] => Ok cur
      | p =>
          let '(comp, p) := take_comp p in
          r ← find_child img children comp;
          match r with
          | None => Ok None
          | Some d => resolve_loop fuel' img (subdir_offset d) p (Some d)
          end
      end
  end.

Definition resolve (img : wim_image) (path : list Z) : outcome (option wim_dentry_t) :=
  children ← root_children img;
  resolve_loop (S (length path)) img children path None.

(** ** The program *)

(** The low byte of the first [n] units of a name. *)
Fixpoint low_bytes (m : list Z) (p : Z) (n : nat) : outcome (list Z) :=
  match n with
  | O => Ok []
  | S n' => ch ← rd16 m p; l ← low_bytes m (p + 2) n'; Ok (u8 ch :: l)
  end.

(** What [%s] prints of a buffer. *)
Fixpoint until_nul (l : list Z) : list Z :=
  match l with [] => [] | c :: l' => if c =? 0 then [] else c :: until_nul l' end.

Inductive written := NoOutput | DecodeFail | OpenOutFail | Written (l : list Z).

Inductive result :=
| OpenFail
| NotFound
| Listing (es : list (list Z * bool * Z))    (* name, directory, size *)
| Unresolved
| File (size tag : Z) (out : written).

(** The size printed for an entry. *)
Definition listed_size (w : wim) (h : list Z) : Z :=
  if bool_decide (h = replicate 20 0) then 0
  else match wim_lookup_by_hash w h with Some r => orig_size r | None => 0 end.

Fixpoint list_dir (fuel : nat) (w : wim) (img : wim_image) (off : Z) : outcome (list (list Z * bool * Z)) :=
  match fuel with
  | O => Spin
  | S fuel' =>
      r ← dentry_or_end img off;
      match r with
      | None => Ok []
      | Some c =>
          nm ← low_bytes (meta img) (default 0 (file_name c)) (Z.to_nat (Z.min (file_name_nbytes c / 2) 259));
          es ← list_dir fuel' w img (u64 (self_offset c + d_length c));
          Ok ((until_nul nm, has (attributes c) WIM_FILE_ATTRIBUTE_DIRECTORY, listed_size w (d_hash c)) :: es)
      end
  end.

(** [out]: no output argument, or whether the output file can be opened. *)
Definition extract_file (w : wim) (r : wim_resource_t) (out : option bool) : outcome written :=
  match out with
  | None => Ok NoOutput
  | Some can_open =>
      match wim_read_resource w r with
      | Ok buf => Ok (if (can_open : bool) then Written buf else OpenOutFail)
      | Err _ => Ok DecodeFail
      | Fault => Fault
      | Spin => Spin
      end
  end.

Definition run_image (w : wim) (img : wim_image) (path : list Z) (out : option bool) : outcome result :=
  r ← resolve img path;
  match r with
  | None => Ok NotFound
  | Some d =>
      if has (attributes d) WIM_FILE_ATTRIBUTE_DIRECTORY then
        es ← list_dir (S (length (meta img))) w img (subdir_offset d); Ok (Listing es)
      else
        match wim_lookup_by_hash w (d_hash d) with
        | None => Ok Unresolved
        | Some r => o ← extract_file w r out; Ok (File (orig_size r) (reparse_tag d) o)
        end
  end.

(** [main], from the bytes of the image file, the image index and the path. *)
Definition wim_extract (f : list Z) (idx : Z) (path : list Z) (out : option bool) : outcome result :=
  match wim_open f with
  | Err _ => Ok OpenFail
  | Fault => Fault
  | Spin => Spin
  | Ok w =>
      match wim_image_open w idx with
      | Err _ => Ok OpenFail
      | Fault => Fault
      | Spin => Spin
      | Ok img => run_image w img path out
      end
  end.

(** A directory whose second entry has length 2^64 - 104 leads back to the first:
    the search of a name it does not hold never ends. *)
Definition looping_image : wim_image :=
  mkImage (replicate 8 0 ++ le_bytes 8 104 ++ replicate 96 0 ++ le_bytes 8 (2 ^ 64 - 104) ++ replicate 96 0) 8 [] [].

Example find_child_loops fuel :
  find_child_loop fuel looping_image 8 [120] = Spin ∧ find_child_loop fuel looping_image 112 [120] = Spin.
Proof.
  induction fuel as [|fuel [IH1 IH2]]; [done|]. split.
  - rewrite <- IH2. reflexivity.
  - rewrite <- IH1. reflexivity.
Qed.

(** ** The tree an image describes *)

Inductive tree := Node (e : entry) (kids : list tree).
Definition t_entry (t : tree) : entry := match t with Node e _ => e end.

(** The 16-bit units of a name; an odd last byte is no unit. *)
Fixpoint units (l : list Z) : list Z :=
  match l with x :: y :: l' => (x + 256 * y) :: units l' | _ => [] end.

(** Names are compared without ASCII case. *)
Definition same_name (name comp : list Z) : bool :=
  bool_decide (map upcase (units name) = map (λ a, u32 (upcase (schar a))) comp).

(** The words of a path between its separators. *)
Fixpoint path_words (p : list Z) : list (list Z) :=
  match p with
  | [] => []
  | c :: p' =>
      if path_sep c then path_words p' else
      match p' with
      | [] => [[c]]
      | d :: _ => if path_sep d then [c] :: path_words p' else
          match path_words p' with w :: ws => (c :: w) :: ws | [] => [[c]] end
      end
  end.

(** The first entry of each name down the tree. *)
Fixpoint lookup_path (ts : list tree) (path : list (list Z)) : option tree :=
  match path with
  | [] => None
  | c :: path' =>
      match list_find (λ t, same_name (e_file (t_entry t)) c = true) ts with
      | None => None
      | Some (_, Node e kids) => match path' with [] => Some (Node e kids) | _ => lookup_path kids path' end
      end
  end.

(** The metadata holds the entries [ts] at [off], one after another up to an
    offset where none begins (a zero length, or what the parser refuses: the
    children's offset of a file), and so for the children of each. *)
Inductive children_at (img : wim_image) : nat → list tree → Prop :=
| children_nil off : dentry_or_end img (Z.of_nat off) = Ok None → children_at img off []
| children_cons off e kids ts :
    entry_ok e → bytes (e_file e) → (off mod 8 = 0)%nat → (entry_len e mod 8 = 0)%nat →
    at_offset (meta img) off (concat (entry_fields e)) →
    children_at img (off + entry_len e) ts → children_at img (Z.to_nat (e_subdir e)) kids →
    children_at img off (Node e kids :: ts).

(** An image whose root's children are [ts]. *)
Definition image_holds (img : wim_image) (ts : list tree) : Prop :=
  Z.of_nat (length (meta img)) < 2 ^ 62 ∧
  ∃ off root, root_offset img = Z.of_nat off ∧ entry_ok root ∧ (off mod 8 = 0)%nat ∧
    at_offset (meta img) off (concat (entry_fields root)) ∧ children_at img (Z.to_nat (e_subdir root)) ts.

(** ** Names and paths *)

Lemma length_units l : length (units l) = (length l / 2)%nat.
Proof.
  revert l. fix IH 1. intros [|x [|y l]]; [done|done|]. cbn [units length]. rewrite IH.
  replace (S (S (length l))) with (length l + 1 * 2)%nat by lia. rewrite Nat.div_add; lia.
Qed.

Lemma rd16_pair m p x y l :
  0 <= p → sub m (Z.to_nat p) (length (x :: y :: l)) = x :: y :: l →
  rd16 m p = Ok (x + 256 * y) ∧ sub m (Z.to_nat (p + 2)) (length l) = l.
Proof.
  intros Hp H. set (n := length (x :: y :: l)) in *. assert (n = 2 + length l)%nat as En by done. clearbody n.
  assert (Z.to_nat p + n <= length m)%nat as Hl.
  { apply (f_equal length) in H. unfold sub in H. rewrite length_take, length_drop in H. cbn [length] in H. lia. }
  unfold rd16. rewrite slice_ok by lia. split.
  - rewrite bind_ok_eq. change (Z.to_nat 2) with 2%nat.
    replace (Z.to_nat p) with (Z.to_nat p + 0)%nat by lia. rewrite <- (sub_sub m (Z.to_nat p) n 0 2), H by lia.
    simpl. f_equal. lia.
  - replace (Z.to_nat (p + 2)) with (Z.to_nat p + 2)%nat by lia. rewrite <- (sub_sub m (Z.to_nat p) n 2), H by lia.
    unfold sub. simpl. rewrite drop_0. by apply take_ge.
Qed.

Lemma name_loop_spec m ascii : ∀ p l,
  0 <= p → sub m (Z.to_nat p) (length l) = l → length ascii = length (units l) →
  name_loop m p ascii = Ok (same_name l ascii).
Proof.
  unfold same_name. induction ascii as [|a ascii IH]; intros p l Hp Hl Hlen.
  - destruct (units l) eqn:E; [done|done].
  - destruct l as [|x [|y l]]; [done|done|]. destruct (rd16_pair m p x y l Hp Hl) as [E1 E2].
    cbn [name_loop]. rewrite E1, bind_ok_eq. cbn [units map]. simpl in Hlen.
    destruct (Z.eqb_spec (upcase (x + 256 * y)) (u32 (upcase (schar a)))) as [E|E].
    + rewrite (IH (p + 2) l) by (done || lia). f_equal. apply bool_decide_ext. rewrite E. split; [by intros ->|by intros [= ->]].
    + f_equal. symmetry. apply bool_decide_eq_false. by intros [= ? _].
Qed.

(** A name the entry parser reported. *)
Definition name_of (m : list Z) (o : option Z) (nb : Z) (name : list Z) : Prop :=
  nb = Z.of_nat (length name) ∧
  match o with Some p => 0 <= p ∧ sub m (Z.to_nat p) (length name) = name | None => name = [] end.

Lemma name_eq_spec m o nb name c : name_of m o nb name → name_eq m o nb c = Ok (same_name name c).
Proof.
  intros [-> Ho]. unfold name_eq. destruct (Z.eqb_spec (Z.of_nat (length c)) (Z.of_nat (length name) / 2)) as [E|E]; simpl.
  - apply name_loop_spec.
    + destruct o; simpl; [by destruct Ho|done].
    + destruct o; simpl; [by destruct Ho|by rewrite Ho].
    + rewrite length_units. apply Nat2Z.inj. rewrite E. by rewrite Nat2Z.inj_div.
  - f_equal. symmetry. unfold same_name. apply bool_decide_eq_false. intros H. apply (f_equal length) in H.
    rewrite !length_map, length_units in H. apply E. rewrite <- H. by rewrite Nat2Z.inj_div.
Qed.

Lemma take_comp_spec p w q : take_comp p = (w, q) → p = w ++ q ∧ Forall (λ c, path_sep c = false) w ∧ (∀ c q', q = c :: q' → path_sep c = true).
Proof.
  revert w q. induction p as [|c p IH]; intros w q H; simpl in H; [by injection H as <- <-|].
  destruct (path_sep c) eqn:E.
  - injection H as <- <-. split_and!; [done|done|]. by intros ? ? [= -> ->].
  - destruct (take_comp p) as [w' q'] eqn:Et. injection H as <- <-. destruct (IH _ _ eq_refl) as (-> & H2 & H3). split_and!; [done|by constructor|done].
Qed.

Lemma path_words_skip p : path_words (skip_seps p) = path_words p.
Proof. induction p as [|c p IH]; [done|]. cbn [skip_seps path_words]. destruct (path_sep c) eqn:E; [done|]. cbn [path_words]. by rewrite E. Qed.

Lemma path_words_app w q :
  w ≠ [] → Forall (λ c, path_sep c = false) w → (∀ c q', q = c :: q' → path_sep c = true) → path_words (w ++ q) = w :: path_words q.
Proof.
  intros Hne Hw Hq. induction Hw as [|c w Hc Hw IH]; [done|]. cbn [app path_words]. rewrite Hc.
  destruct w as [|d w].
  - simpl. destruct q as [|c' q]; [done|]. by rewrite (Hq _ _ eq_refl).
  - inversion Hw as [|? ? Hd _]; subst. rewrite IH by done. cbn [app]. by rewrite Hd.
Qed.

(** ** Walking a directory *)

Section image.
Context (img : wim_image) (Hm : Z.of_nat (length (meta img)) < 2 ^ 62).

Lemma children_len off ts : children_at img off ts → ts = [] ∨ (off + 102 * length ts <= length (meta img))%nat.
Proof using.
  induction 1 as [off _|off e kids ts He _ _ _ [Hat _] _ IH _ _]; [by left|]. right.
  rewrite length_entry_fields in Hat by done. assert (102 <= entry_len e)%nat by (unfold entry_len, names_len; lia).
  cbn [length]. destruct IH as [->|IH]; cbn [length]; lia.
Qed.

(** The entry at the head of a directory, and where the next one is. *)
Lemma dentry_head off e :
  entry_ok e → (off mod 8 = 0)%nat → at_offset (meta img) off (concat (entry_fields e)) →
  ∃ d, dentry_or_end img (Z.of_nat off) = Ok (Some d) ∧ reads_entry img off e d ∧
    name_of (meta img) (file_name d) (file_name_nbytes d) (e_file e) ∧
    u64 (self_offset d + d_length d) = Z.of_nat (off + entry_len e).
Proof using Hm.
  intros He Ho Hat. destruct (dentry_read img off e He Hat Ho Hm) as (d & Hd & Hr). exists d.
  unfold dentry_or_end. rewrite Hd. split; [done|]. split; [done|]. split; [apply Hr|].
  rewrite (re_self _ _ _ _ Hr), (re_len _ _ _ _ Hr). destruct Hat as [Hl _]. rewrite length_entry_fields in Hl by done.
  change (2 ^ 62) with 4611686018427387904 in Hm. rewrite u64_small by lia. lia.
Qed.

Definition found (t : tree) (o : outcome (option wim_dentry_t)) : Prop :=
  match t with Node e kids => ∃ off d, o = Ok (Some d) ∧ entry_ok e ∧ reads_entry img off e d ∧ children_at img (Z.to_nat (e_subdir e)) kids end.

Lemma find_child_loop_spec off ts c : children_at img off ts → ∀ fuel, (length ts < fuel)%nat →
  match list_find (λ t, same_name (e_file (t_entry t)) c = true) ts with
  | Some (_, t) => found t (find_child_loop fuel img (Z.of_nat off) c)
  | None => find_child_loop fuel img (Z.of_nat off) c = Ok None
  end.
Proof using Hm.
  induction 1 as [off Hend|off e kids ts He Hb Ho Hl Hat Hts IH Hk _]; intros [|fuel] Hf; cbn [length] in Hf; try lia;
    cbn [find_child_loop].
  - by rewrite Hend, bind_ok_eq.
  - destruct (dentry_head off e He Ho Hat) as (d & -> & Hr & Hn & Hnext). rewrite bind_ok_eq.
    rewrite (name_eq_spec _ _ _ _ c Hn), bind_ok_eq. cbn [list_find t_entry].
    destruct (same_name (e_file e) c) eqn:E.
    + rewrite decide_True by done. exists off, d. done.
    + rewrite decide_False by congruence. rewrite Hnext. specialize (IH fuel ltac:(lia)).
      destruct (list_find _ ts) as [[i t]|]; simpl; done.
Qed.

Lemma find_child_spec off ts c : children_at img off ts → (length c <= 255)%nat →
  match list_find (λ t, same_name (e_file (t_entry t)) c = true) ts with
  | Some (_, t) => found t (find_child img (Z.of_nat off) c)
  | None => find_child img (Z.of_nat off) c = Ok None
  end.
Proof using Hm.
  intros Hts Hc. unfold find_child. rewrite take_ge by done. apply find_child_loop_spec; [done|].
  destruct (children_len _ _ Hts) as [->|H]; [simpl; lia|lia].
Qed.

Lemma resolve_loop_spec fuel : ∀ off ts p cur,
  children_at img off ts → (length p < fuel)%nat → Forall (λ c, (length c <= 255)%nat) (path_words p) →
  match path_words p with
  | [] => resolve_loop fuel img (Z.of_nat off) p cur = Ok cur
  | cs => match lookup_path ts cs with
          | Some t => found t (resolve_loop fuel img (Z.of_nat off) p cur)
          | None => resolve_loop fuel img (Z.of_nat off) p cur = Ok None
          end
  end.
Proof using Hm.
  induction fuel as [|fuel IH]; intros off ts p cur Hts Hf Hc; [lia|]. cbn [resolve_loop].
  rewrite <- path_words_skip in *. assert (length (skip_seps p) <= length p)%nat as Hs
    by (clear; induction p as [|x p IH]; simpl; [lia|destruct (path_sep x); simpl; lia]).
  assert (∀ c q, skip_seps p = c :: q → path_sep c = false) as Hhead
    by (clear; induction p as [|x p IH]; simpl; [done|]; intros c q; destruct (path_sep x) eqn:E; [apply IH|by intros [= -> ->]]).
  destruct (skip_seps p) as [|c q] eqn:Ep; [done|]. specialize (Hhead _ _ eq_refl).
  destruct (take_comp (c :: q)) as [w r] eqn:Et. destruct (take_comp_spec _ _ _ Et) as (Ew & Hw & Hr).
  assert (w ≠ []) as Hne by (cbn [take_comp] in Et; rewrite Hhead in Et; destruct (take_comp q); by injection Et as <- <-).
  rewrite Ew in *. rewrite path_words_app in Hc |- * by done. inversion Hc as [|? ? Hw255 Hc']; subst.
  pose proof (find_child_spec off ts w Hts Hw255) as Hfind. cbn [lookup_path].
  destruct (list_find _ ts) as [[i [e kids]]|]; [|by rewrite Hfind, bind_ok_eq].
  destruct Hfind as (o & d & -> & He & Hd & Hk). rewrite bind_ok_eq, (re_subdir _ _ _ _ Hd).
  pose proof (proj1 (eo_u64 _ He)) as [H0 _]. rewrite <- (Z2Nat.id (e_subdir e)) by done.
  specialize (IH (Z.to_nat (e_subdir e)) kids r (Some d) Hk). destruct (path_words r) as [|w' ws] eqn:Er.
  - rewrite IH; [by exists o, d| |done]. rewrite length_app in Hs. destruct w; [done|]. simpl in Hs. lia.
  - apply IH; [|done]. rewrite length_app in Hs. destruct w; [done|]. simpl in Hs. lia.
Qed.
End image.

(** ** Listing a directory *)

(** The low byte of each unit. *)
Fixpoint lows (l : list Z) : list Z :=
  match l with x :: y :: l' => x :: lows l' | _ => [] end.

Lemma length_lows l : length (lows l) = (length l / 2)%nat.
Proof.
  revert l. fix IH 1. intros [|x [|y l]]; [done|done|]. cbn [lows length]. rewrite IH.
  replace (S (S (length l))) with (length l + 1 * 2)%nat by lia. rewrite Nat.div_add; lia.
Qed.

Lemma low_bytes_spec m n : ∀ p l,
  0 <= p → sub m (Z.to_nat p) (length l) = l → bytes l → (n <= length (lows l))%nat → low_bytes m p n = Ok (take n (lows l)).
Proof.
  induction n as [|n IH]; intros p l Hp Hl Hb Hn; [done|].
  destruct l as [|x [|y l]]; [simpl in Hn; lia..|]. destruct (rd16_pair m p x y l Hp Hl) as [E1 E2].
  inversion Hb as [|? ? Hx Hb']; subst. inversion Hb' as [|? ? Hy Hb'']; subst.
  cbn [low_bytes]. rewrite E1, bind_ok_eq, (IH (p + 2) l), bind_ok_eq by (done || (simpl in Hn; lia)).
  cbn [lows firstn]. do 2 f_equal. unfold u8. unfold is_byte in Hx.
  rewrite Z.mul_comm, Z_mod_plus_full. by apply Z.mod_small.
Qed.

(** The line printed for an entry. *)
Definition listed (w : wim) (t : tree) : list Z * bool * Z :=
  (until_nul (take 259 (lows (e_file (t_entry t)))), has (e_attr (t_entry t)) WIM_FILE_ATTRIBUTE_DIRECTORY,
   listed_size w (e_hash (t_entry t))).

Lemma low_bytes_name m o nb name :
  name_of m o nb name → bytes name →
  low_bytes m (default 0 o) (Z.to_nat (Z.min (nb / 2) 259)) = Ok (take 259 (lows name)).
Proof.
  intros [-> Ho] Hb.
  assert (Z.to_nat (Z.min (Z.of_nat (length name) / 2) 259) = Nat.min 259 (length (lows name))) as ->
    by (rewrite length_lows; pose proof (Nat2Z.inj_div (length name) 2); lia).
  rewrite (low_bytes_spec m _ (default 0 o) name); [|destruct o; simpl; [by destruct Ho|done]|destruct o; simpl; [by destruct Ho|by rewrite Ho]|done|lia].
  f_equal. destruct (Nat.le_ge_cases 259 (length (lows name))); [by rewrite Nat.min_l by lia|].
  rewrite Nat.min_r by lia. by rewrite !take_ge by lia.
Qed.

Lemma list_dir_spec w img off ts :
  Z.of_nat (length (meta img)) < 2 ^ 62 → children_at img off ts → ∀ fuel, (length ts < fuel)%nat →
  list_dir fuel w img (Z.of_nat off) = Ok (map (listed w) ts).
Proof.
  intros Hm. induction 1 as [off Hend|off e kids ts He Hb Ho Hl Hat Hts IH Hk _]; intros [|fuel] Hf; cbn [length] in Hf; try lia;
    cbn [list_dir].
  - by rewrite Hend, bind_ok_eq.
  - destruct (dentry_head img Hm off e He Ho Hat) as (d & -> & Hr & Hn & Hnext). rewrite bind_ok_eq.
    rewrite (low_bytes_name _ _ _ _ Hn Hb), bind_ok_eq, Hnext, IH by lia. rewrite bind_ok_eq. cbn [map].
    unfold listed at 2. cbn [t_entry]. by rewrite (re_attr _ _ _ _ Hr), (re_hash _ _ _ _ Hr).
Qed.

(** ** The whole run *)

Lemma resolve_spec img ts path :
  image_holds img ts → Forall (λ c, (length c <= 255)%nat) (path_words path) →
  match lookup_path ts (path_words path) with
  | Some t => found img t (resolve img path)
  | None => resolve img path = Ok None
  end.
Proof.
  intros (Hm & off & root & Hoff & He & Ho & Hat & Hts) Hc. unfold resolve, root_children, wim_image_root_offset.
  destruct (dentry_read img off root He Hat Ho Hm) as (d & Hd & Hr). rewrite Hoff, Hd, bind_ok_eq, (re_subdir _ _ _ _ Hr).
  pose proof (proj1 (eo_u64 _ He)) as [H0 _]. rewrite <- (Z2Nat.id (e_subdir root)) by done.
  pose proof (resolve_loop_spec img Hm (S (length path)) (Z.to_nat (e_subdir root)) ts path None Hts ltac:(lia) Hc) as H.
  destruct (path_words path); [exact H|]. exact H.
Qed.

(** What a run reports of the tree [t] found, or of none. *)
Definition reports (w : wim) (t : option tree) (run : outcome result) : Prop :=
  match t with
  | None => run = Ok NotFound
  | Some (Node e kids) =>
      if has (e_attr e) WIM_FILE_ATTRIBUTE_DIRECTORY then run = Ok (Listing (map (listed w) kids)) else
      match wim_lookup_by_hash w (e_hash e) with
      | None => run = Ok Unresolved
      | Some r => ∀ us cs, holds_resource w r us cs →
          let tag := if has (e_attr e) WIM_FILE_ATTRIBUTE_REPARSE_POINT then u32 (e_union e) else 0 in
          run = Ok (File (orig_size r) tag (Written (concat us)))
      end
  end.

(** C37. The extraction tool finds what the tree holds and writes its content.
    When the opened image describes the tree [ts], running the tool on a path
    whose words have at most 255 bytes reports the first entry of each name down
    the tree, names compared without ASCII case: a path with no such entry is
    not found, a directory is listed completely and in order with the sizes of
    its files, and a file whose hash names a resource is extracted as exactly
    the uncompressed chunks the image stores for it. *)
Theorem wim_extract_correct f idx path w img ts :
  wim_open f = Ok w → wim_image_open w idx = Ok img → image_holds img ts →
  Forall (λ c, (length c <= 255)%nat) (path_words path) →
  reports w (lookup_path ts (path_words path)) (wim_extract f idx path (Some true)).
Proof.
  intros Hw Hi Hts Hc. unfold wim_extract. rewrite Hw, Hi. unfold run_image.
  pose proof (resolve_spec img ts path Hts Hc) as H. unfold reports.
  destruct (lookup_path ts (path_words path)) as [[e kids]|]; [|by rewrite H].
  destruct H as (off & d & -> & He & Hr & Hk). rewrite bind_ok_eq, (re_attr _ _ _ _ Hr).
  destruct (has (e_attr e) WIM_FILE_ATTRIBUTE_DIRECTORY).
  - rewrite (re_subdir _ _ _ _ Hr). pose proof (proj1 (eo_u64 _ He)) as [H0 _]. rewrite <- (Z2Nat.id (e_subdir e)) by done.
    rewrite (list_dir_spec w img _ kids (proj1 Hts) Hk); [done|].
    destruct (children_len _ _ _ Hk) as [->|HL]; [simpl; lia|lia].
  - rewrite (re_hash _ _ _ _ Hr). destruct (wim_lookup_by_hash w (e_hash e)) as [r|]; [|done].
    intros us cs Hres. unfold extract_file. rewrite (read_resource_eq _ _ _ _ Hres), bind_ok_eq.
    pose proof (re_union _ _ _ _ Hr) as HU. destruct (has (e_attr e) _); by rewrite (proj1 HU).
Qed.

(** An image with a directory "D" that holds one file "x" of two chunks. *)
Definition demo_root : entry := mkEntry 0x10 0 120 0 0 0 (replicate 20 0) 0 [] [] [] [].
Definition demo_dir : entry := mkEntry 0x10 0 240 0 0 0 (replicate 20 0) 0 [68; 0] [] [] [].
Definition demo_file : entry := mkEntry 0x20 0 0 0 0 0 (replicate 20 7) 0 [120; 0] [] [] [].
Definition demo_tree : list tree := [Node demo_dir [Node demo_file []]].

Definition demo_meta : list Z :=
  le_bytes 4 8 ++ le_bytes 4 0 ++ concat (entry_fields demo_root) ++ replicate 8 0 ++
  concat (entry_fields demo_dir) ++ replicate 8 0 ++ concat (entry_fields demo_file) ++ replicate 8 0.

Definition demo_data : list Z := encode_resource 4 sample_cs.
Definition demo_rs : list wim_resource_t :=
  [mkRes (Z.of_nat (length demo_data)) 308 54 4 1 1 (replicate 20 7);
   mkRes 360 (308 + Z.of_nat (length demo_data)) 360 2 1 1 (replicate 20 8)].
Definition demo_image : list Z :=
  image_tag ++ le_bytes 4 208 ++ le_bytes 4 0 ++ le_bytes 4 (WIM_FLAG_COMPRESSION + WIM_FLAG_COMP_LZX) ++
  le_bytes 4 48 ++ replicate 24 0 ++ reshdr_bytes (mkRes 100 208 100 0 0 0 (replicate 20 0)) ++ replicate 136 0 ++
  concat (map entry_bytes demo_rs) ++ demo_data ++ demo_meta.

Definition demo_wim : wim := match wim_open demo_image with Ok w => w | _ => sample_wim end.
Definition demo_img : wim_image := mkImage demo_meta 8 [] [].

Lemma demo_ok e : e = demo_root ∨ e = demo_dir ∨ e = demo_file → entry_ok e.
Proof.
  intros [->|[->| ->]]; (constructor; try reflexivity; unfold is_u32, is_u64; cbn -[Z.lt]; try lia; repeat constructor).
Qed.

Lemma demo_holds : image_holds demo_img demo_tree.
Proof.
  split; [vm_compute; reflexivity|]. exists 8%nat, demo_root.
  split_and!; [reflexivity|apply demo_ok; auto|reflexivity|split; vm_compute; [lia|reflexivity]|].
  change (Z.to_nat (e_subdir demo_root)) with 120%nat. apply children_cons.
  - apply demo_ok. auto.
  - repeat constructor; done.
  - reflexivity.
  - reflexivity.
  - split; vm_compute; [lia|reflexivity].
  - constructor. vm_compute. reflexivity.
  - change (Z.to_nat (e_subdir demo_dir)) with 240%nat. apply children_cons.
    + apply demo_ok. auto.
    + repeat constructor; done.
    + reflexivity.
    + reflexivity.
    + split; vm_compute; [lia|reflexivity].
    + constructor. vm_compute. reflexivity.
    + constructor. vm_compute. reflexivity.
Qed.

Lemma demo_resource : holds_resource demo_wim (mkRes (Z.of_nat (length demo_data)) 308 54 4 1 1 (replicate 20 7)) sample_us sample_cs.
Proof.
  constructor.
  - split; split; vm_compute; congruence || reflexivity.
  - reflexivity.
  - reflexivity.
  - vm_compute. reflexivity.
  - vm_compute. reflexivity.
  - intros i u Hu. destruct i as [|[|i]]; simpl in Hu; [injection Hu as <-; vm_compute; reflexivity..|done].
  - constructor; [by left|constructor; [right|constructor]].
    split; [vm_compute; congruence|split; [split; vm_compute; congruence || reflexivity|vm_compute; reflexivity]].
  - vm_compute. reflexivity.
  - vm_compute. reflexivity.
  - split; [vm_compute; congruence|split; vm_compute; congruence || reflexivity].
  - vm_compute. reflexivity.
Qed.

(** "\d/X" *)
Definition demo_path : list Z := [92; 100; 47; 88].

Lemma wim_extract_correct_witness :
  wim_extract demo_image 1 demo_path (Some true) = Ok (File 54 0 (Written (seqZ 0 48 ++ replicate 6 97))).
Proof.
  pose proof (wim_extract_correct demo_image 1 demo_path demo_wim demo_img demo_tree
    ltac:(vm_compute; reflexivity) ltac:(vm_compute; reflexivity) demo_holds
    ltac:(repeat constructor; simpl; lia)) as H.
  exact (H sample_us sample_cs demo_resource).
Defined.
