(* ===== verification/Bitmap.v ===== *)
(** * Allocation bitmaps

    The bitmaps of the NTFS and ext4 writers: bit [c mod 8] of byte [c / 8] says
    whether unit [c] is in use.  Setting a range of bits stays inside the bitmap
    or is refused, and sets exactly the range. *)

From S2P Require Import Prelude Bytes.

(** [bm[c>>3] |= 1u << (c&7)] *)
Definition bmp_set (bmp : list Z) (c : Z) : option (list Z) :=
  if c / 8 <? Z.of_nat (length bmp)
  then Some (splice bmp (Z.to_nat (c / 8)) [Z.lor (bget bmp (c / 8)) (Z.shiftl 1 (c mod 8))]) else None.

(** [for (c = lcn; c < lcn + n; c++)] *)
Fixpoint bmp_mark (n : nat) (bmp : list Z) (lcn : Z) : option (list Z) :=
  match n with O => Some bmp | S n' => bmp' ← bmp_set bmp lcn; bmp_mark n' bmp' (lcn + 1) end.

Definition bit (bmp : list Z) (c : Z) : bool := Z.testbit (bget bmp (c / 8)) (c mod 8).

Lemma bget_splice1 l i v j : 0 <= i < Z.of_nat (length l) → 0 <= j → bget (splice l (Z.to_nat i) [v]) j = if j =? i then v else bget l j.
Proof.
  intros Hi Hj. unfold bget, splice. rewrite (take_ge [v]) by (cbn; lia). cbn [length].
  destruct (Z.eqb_spec j i) as [->|Hne].
  - rewrite app_nth2 by (rewrite length_take; lia). rewrite length_take, Nat.min_l, Nat.sub_diag by lia. done.
  - destruct (Z.lt_ge_cases j i).
    + rewrite app_nth1 by (rewrite length_take; lia). rewrite <- (take_drop (Z.to_nat i) l) at 2. rewrite app_nth1 by (rewrite length_take; lia). done.
    + rewrite app_nth2 by (rewrite length_take; lia). rewrite length_take, Nat.min_l by lia. cbn [app].
      replace (Z.to_nat j - Z.to_nat i)%nat with (S (Z.to_nat j - Z.to_nat i - 1)) by lia. cbn [nth].
      rewrite <- (take_drop (Z.to_nat i + 1) l) at 2. rewrite (app_nth2 (take _ l)) by (rewrite length_take; lia).
      rewrite length_take, Nat.min_l by lia. f_equal. lia.
Qed.

Lemma bmp_set_spec bmp c : 0 <= c < 8 * Z.of_nat (length bmp) →
  ∃ bmp', bmp_set bmp c = Some bmp' ∧ length bmp' = length bmp ∧ ∀ c', 0 <= c' → bit bmp' c' = bit bmp c' || (c' =? c).
Proof.
  intros Hc. assert (0 <= c / 8 < Z.of_nat (length bmp)) as Hd by dlia. unfold bmp_set. rewrite (proj2 (Z.ltb_lt _ _)) by lia.
  eexists. split; [reflexivity|]. rewrite length_splice. split; [done|]. intros c' Hc'. unfold bit.
  assert (0 <= c' / 8) by dlia. rewrite bget_splice1 by done. pose proof (Z.mod_pos_bound c 8 ltac:(lia)). pose proof (Z.mod_pos_bound c' 8 ltac:(lia)).
  destruct (Z.eqb_spec (c' / 8) (c / 8)) as [E|E].
  - rewrite Z.lor_spec, Z.shiftl_1_l, Z.pow2_bits_eqb by lia. rewrite E. f_equal.
    destruct (Z.eqb_spec (c mod 8) (c' mod 8)), (Z.eqb_spec c' c); try done; exfalso; dlia.
  - destruct (Z.eqb_spec c' c) as [->|]; [done|]. by rewrite orb_false_r.
Qed.

Lemma bmp_mark_spec n : ∀ bmp l, 0 <= l → l + Z.of_nat n <= 8 * Z.of_nat (length bmp) →
  ∃ bmp', bmp_mark n bmp l = Some bmp' ∧ length bmp' = length bmp ∧
    ∀ c, 0 <= c → bit bmp' c = true ↔ bit bmp c = true ∨ l <= c < l + Z.of_nat n.
Proof.
  induction n as [|n IH]; intros bmp l Hl Hn; cbn [bmp_mark].
  - exists bmp. split_and!; [done|done|]. intros c Hc. intuition lia.
  - destruct (bmp_set_spec bmp l ltac:(lia)) as (b1 & -> & L1 & B1). cbn [mbind option_bind].
    destruct (IH b1 (l + 1) ltac:(lia) ltac:(rewrite L1; lia)) as (b2 & -> & L2 & B2).
    exists b2. split_and!; [done|congruence|]. intros c Hc. rewrite B2, B1 by done. rewrite orb_true_iff, Z.eqb_eq. intuition lia.
Qed.
