(* ===== verification/NtfsCodec.v ===== *)
(** * Encoders of the NTFS volume writer
      ([src/tools/iso-patch-mac/engine/ntfs.c])

    The little-endian stores, the run list of a single extent, the update
    sequence that protects each sector of a record, and the hash of a security
    descriptor, each with the reader's side of the format.  The writer stores
    into fixed buffers at offsets it has sized. *)

From S2P Require Import Prelude Bytes.

Definition w16 (p : list Z) (off v : Z) : list Z := splice p (Z.to_nat off) (le_bytes 2 v).
Definition w32 (p : list Z) (off v : Z) : list Z := splice p (Z.to_nat off) (le_bytes 4 v).
Definition w64 (p : list Z) (off v : Z) : list Z := splice p (Z.to_nat off) (le_bytes 8 v).
Definition r16 (p : list Z) (off : Z) : Z := le_val (sub p (Z.to_nat off) 2).
Definition r32 (p : list Z) (off : Z) : Z := le_val (sub p (Z.to_nat off) 4).
Definition r64 (p : list Z) (off : Z) : Z := le_val (sub p (Z.to_nat off) 8).

(** [(x + 7) & ~7u] *)
Definition align8u (x : Z) : Z := Z.land (u32 (x + 7)) (u32 (Z.lnot 7)).
Definition align_up (x a : Z) : Z := u64 (x + a - 1) / a * a.

(** ** Run lists *)

(** [(int64_t)(u << (64 - 8 * n)) >> (64 - 8 * n)] *)
Definition sign_extended (v n : Z) : Z := Z.shiftr (i64 (u64 (Z.shiftl (u64 v) (64 - 8 * n)))) (64 - 8 * n).

(** [for (n = 1; n < 8; n++) if (... == v) break;] *)
Fixpoint min_bytes_from (k : nat) (n v : Z) : Z :=
  match k with
  | O => n
  | S k' => if sign_extended v n =? v then n else min_bytes_from k' (n + 1) v
  end.

Definition min_bytes_s (v : Z) : Z := min_bytes_from 7 1 v.

Definition enc_single_run (count first_lcn : Z) : list Z :=
  let lb := min_bytes_s (i64 count) in
  let ob := min_bytes_s (i64 first_lcn) in
  u8 (Z.lor lb (Z.shiftl ob 4)) :: le_bytes (Z.to_nat lb) count ++ le_bytes (Z.to_nat ob) first_lcn ++ [0].

(** The reader: signed little-endian fields, offsets relative to the previous
    run; a zero byte ends the list. *)
Definition signed_val (l : list Z) : Z :=
  let v := le_val l in
  let h := 2 ^ (8 * Z.of_nat (length l) - 1) in
  if h <=? v then v - 2 * h else v.

Fixpoint decode_runs (fuel : nat) (prev : Z) (l : list Z) : option (list (Z * Z)) :=
  match fuel, l with
  | S fuel', h :: l' =>
      if h =? 0 then Some [] else
      let lb := Z.to_nat (h mod 16) in
      let ob := Z.to_nat (h / 16) in
      if Nat.eqb lb 0 || Nat.eqb ob 0 || negb (Nat.leb (lb + ob) (length l')) then None else
      let count := signed_val (take lb l') in
      let lcn := prev + signed_val (sub l' lb ob) in
      runs ← decode_runs fuel' lcn (drop (lb + ob) l');
      Some ((count, lcn) :: runs)
  | _, _ => None
  end.

(** ** Update sequences *)

(** [for (i = 0; i + 1 < usa_cnt; i++)] from [i]: the last two bytes of each
    sector go to the array and are replaced. *)
Fixpoint fixup_loop (n : nat) (rec : list Z) (usa sectsz usn i : Z) : list Z :=
  match n with
  | O => rec
  | S n' =>
      let q := (i + 1) * sectsz - 2 in
      let rec1 := splice rec (Z.to_nat (usa + 2 + 2 * i)) (sub rec (Z.to_nat q) 2) in
      fixup_loop n' (splice rec1 (Z.to_nat q) (le_bytes 2 usn)) usa sectsz usn (i + 1)
  end.

Definition usn_of (usn : Z) : Z := if (usn =? 0) || (usn =? 0xFFFF) then 1 else usn.

Definition apply_fixup (rec : list Z) (sectsz usn : Z) : list Z :=
  let usn := usn_of usn in
  let usa_off := r16 rec 4 in
  let usa_cnt := r16 rec 6 in
  fixup_loop (Z.to_nat (usa_cnt - 1)) (w16 rec usa_off usn) usa_off sectsz usn 0.

(** The reader: every sector must end with the sequence number; the saved bytes
    are put back. *)
Fixpoint unfix_loop (n : nat) (rec : list Z) (usa sectsz : Z) (usn : list Z) (i : Z) : option (list Z) :=
  match n with
  | O => Some rec
  | S n' =>
      let q := (i + 1) * sectsz - 2 in
      if bool_decide (sub rec (Z.to_nat q) 2 = usn)
      then unfix_loop n' (splice rec (Z.to_nat q) (sub rec (Z.to_nat (usa + 2 + 2 * i)) 2)) usa sectsz usn (i + 1)
      else None
  end.

Definition remove_fixup (rec : list Z) (sectsz : Z) : option (list Z) :=
  let usa_off := r16 rec 4 in
  unfix_loop (Z.to_nat (r16 rec 6 - 1)) rec usa_off sectsz (sub rec (Z.to_nat usa_off) 2) 0.

(** ** The hash of a security descriptor *)

(** [h = d + ((h << 3) | (h >> 29))] *)
Definition sec_hash_step (h d : Z) : Z := u32 (d + Z.lor (u32 (Z.shiftl h 3)) (Z.shiftr h 29)).

Fixpoint sec_hash_loop (n : nat) (h : Z) (sd : list Z) : Z :=
  match n with O => h | S n' => sec_hash_loop n' (sec_hash_step h (r32 sd 0)) (drop 4 sd) end.

Definition sec_hash (sd : list Z) : Z := sec_hash_loop (length sd / 4) 0 sd.

(** ** Alignment *)

Lemma align8u_spec x : 0 <= x < 2 ^ 31 → x <= align8u x < x + 8 ∧ align8u x mod 8 = 0.
Proof.
  intros Hx. unfold align8u. change (u32 (Z.lnot 7)) with (Z.shiftl (Z.ones (32 - 3)) 3).
  rewrite u32_small by lia. rewrite land_round8 by lia. split; [|apply Z.mod_mul; lia].
  pose proof (Z.div_mod (x + 7) 8 ltac:(lia)). pose proof (Z.mod_pos_bound (x + 7) 8 ltac:(lia)). lia.
Qed.

(** ** A run list read back *)

Lemma i64_range v : - 2 ^ 63 <= i64 v < 2 ^ 63.
Proof. unfold i64. pose proof (Z.mod_pos_bound (v + 9223372036854775808) 18446744073709551616 ltac:(lia)). lia. Qed.

Lemma i64_id v : - 2 ^ 63 <= v < 2 ^ 63 → i64 v = v.
Proof. intros Hv. unfold i64. rewrite Z.mod_small by lia. lia. Qed.

Lemma sign_extended_range v n : 1 <= n <= 8 → - 2 ^ (8 * n - 1) <= sign_extended v n < 2 ^ (8 * n - 1).
Proof.
  intros Hn. unfold sign_extended. set (x := i64 _). assert (- 2 ^ 63 <= x < 2 ^ 63) as Hx by apply i64_range.
  rewrite Z.shiftr_div_pow2 by lia.
  assert (2 ^ 63 = 2 ^ (8 * n - 1) * 2 ^ (64 - 8 * n)) as E by (rewrite <- Z.pow_add_r by lia; f_equal; lia).
  assert (0 < 2 ^ (64 - 8 * n)) by (apply Z.pow_pos_nonneg; lia). split.
  - apply Z.div_le_lower_bound; [done|]. lia.
  - apply Z.div_lt_upper_bound; [done|]. lia.
Qed.

Lemma min_bytes_from_spec v k : ∀ n,
  1 <= n → n + Z.of_nat k = 8 → - 2 ^ 63 <= v < 2 ^ 63 →
  1 <= min_bytes_from k n v <= 8 ∧
  - 2 ^ (8 * min_bytes_from k n v - 1) <= v < 2 ^ (8 * min_bytes_from k n v - 1).
Proof.
  induction k as [|k IH]; intros n Hn Hk Hv; cbn [min_bytes_from].
  - replace n with 8 by lia. split; [lia|done].
  - destruct (Z.eqb_spec (sign_extended v n) v) as [E|E]; [|apply IH; lia].
    split; [lia|]. pose proof (sign_extended_range v n ltac:(lia)) as H. by rewrite E in H.
Qed.

Lemma min_bytes_s_spec v :
  - 2 ^ 63 <= v < 2 ^ 63 → 1 <= min_bytes_s v <= 8 ∧ - 2 ^ (8 * min_bytes_s v - 1) <= v < 2 ^ (8 * min_bytes_s v - 1).
Proof. intros. apply min_bytes_from_spec; lia. Qed.

Lemma signed_val_le_bytes n v :
  1 <= n → - 2 ^ (8 * n - 1) <= v < 2 ^ (8 * n - 1) → signed_val (le_bytes (Z.to_nat n) v) = v.
Proof.
  intros Hn Hv. unfold signed_val. rewrite length_le_bytes, le_val_le_bytes, Z2Nat.id by lia.
  assert (256 ^ n = 2 * 2 ^ (8 * n - 1)) as ->.
  { change 256 with (2 ^ 8). rewrite <- Z.pow_mul_r, <- Z.pow_succ_r by lia. f_equal. lia. }
  set (h := 2 ^ (8 * n - 1)) in *. destruct (Z.lt_ge_cases v 0).
  - assert (v mod (2 * h) = v + 2 * h) as -> by (symmetry; apply (Z.mod_unique_pos _ _ (-1)); lia).
    rewrite (proj2 (Z.leb_le _ _)); lia.
  - rewrite Z.mod_small by lia. rewrite (proj2 (Z.leb_gt _ _)); lia.
Qed.

Lemma length_enc_single_run count lcn :
  0 <= count < 2 ^ 63 → 0 <= lcn < 2 ^ 63 → (length (enc_single_run count lcn) <= 18)%nat.
Proof.
  intros Hc Hl. unfold enc_single_run. destruct (min_bytes_s_spec (i64 count) (i64_range _)) as [H1 _].
  destruct (min_bytes_s_spec (i64 lcn) (i64_range _)) as [H2 _].
  generalize dependent (min_bytes_s (i64 count)). generalize dependent (min_bytes_s (i64 lcn)). intros ob Ho lb Hlb.
  cbn [length]. rewrite !length_app, !length_le_bytes. cbn [length]. lia.
Qed.

Lemma run_header lb ob : 1 <= lb <= 8 → 1 <= ob <= 8 → u8 (Z.lor lb (Z.shiftl ob 4)) = lb + 16 * ob.
Proof. intros Hl Ho. rewrite lor_shiftl_add by lia. rewrite u8_small; lia.
Qed.

Lemma decode_enc count lcn rest :
  0 <= count < 2 ^ 63 → 0 <= lcn < 2 ^ 63 → decode_runs 2 0 (enc_single_run count lcn ++ rest) = Some [(count, lcn)].
Proof.
  intros Hc Hl. unfold enc_single_run. rewrite !i64_id by lia.
  destruct (min_bytes_s_spec count ltac:(lia)) as [C1 C2]. destruct (min_bytes_s_spec lcn ltac:(lia)) as [L1 L2].
  generalize dependent (min_bytes_s count). generalize dependent (min_bytes_s lcn). intros ob L1 L2 lb C1 C2. rewrite run_header by done.
  cbn [app]. rewrite <- !app_assoc. remember ([0] ++ rest) as tl eqn:Etl. cbn [decode_runs].
  rewrite (proj2 (Z.eqb_neq _ 0)) by lia.
  replace ((lb + 16 * ob) mod 16) with lb by dlia. replace ((lb + 16 * ob) / 16) with ob by dlia.
  set (x := le_bytes (Z.to_nat lb) count). set (y := le_bytes (Z.to_nat ob) lcn).
  assert (length x = Z.to_nat lb) as Ex by apply length_le_bytes. assert (length y = Z.to_nat ob) as Ey by apply length_le_bytes.
  rewrite (proj2 (Nat.eqb_neq _ 0)), (proj2 (Nat.eqb_neq (Z.to_nat ob) 0)) by lia. cbn [orb].
  rewrite (proj2 (Nat.leb_le _ _)) by (rewrite !length_app; lia). cbn [negb].
  rewrite take_app_length' by done. unfold sub. rewrite drop_app_length', take_app_length' by done.
  rewrite <- drop_drop, drop_app_length', drop_app_length' by done.
  unfold x, y. rewrite !signed_val_le_bytes by lia. subst tl. simpl. reflexivity.
Qed.

(** ** A protected record read back *)

Lemma sub_splice_z l p d o k :
  0 <= p → p + Z.of_nat (length d) <= Z.of_nat (length l) → 0 <= o → o + Z.of_nat k <= p ∨ p + Z.of_nat (length d) <= o →
  sub (splice l (Z.to_nat p) d) (Z.to_nat o) k = sub l (Z.to_nat o) k.
Proof. intros. apply sub_splice_other; lia. Qed.

Lemma sub_splice_eq_z l p d k :
  0 <= p → p + Z.of_nat (length d) <= Z.of_nat (length l) → k = length d → sub (splice l (Z.to_nat p) d) (Z.to_nat p) k = d.
Proof. intros. apply sub_splice_same; lia. Qed.

(** ** Fields of a buffer built by stores *)

Ltac skip_fields :=
  unfold r16, r32, r64, w16, w32, w64;
  repeat (rewrite sub_splice_z by (rewrite ?length_splice, ?length_le_bytes, ?length_replicate; cbn [length]; lia)).
Ltac this_field := rewrite sub_splice_eq_z by (rewrite ?length_splice, ?length_le_bytes, ?length_replicate; cbn [length]; lia).

Lemma sub_app_in (a c : list Z) o n : (o + n <= length a)%nat → sub (a ++ c) o n = sub a o n.
Proof. intros H. unfold sub. rewrite drop_app_le, take_app_le by (rewrite ?length_drop; lia). done. Qed.

Lemma bget_sub1 l o x : 0 <= o → sub l (Z.to_nat o) 1 = [x] → bget l o = x.
Proof.
  intros Ho H. unfold bget. pose proof (f_equal (λ l, l !! 0%nat) H) as E. unfold sub in E.
  rewrite lookup_take_lt, lookup_drop, Nat.add_0_r in E by lia. simpl in E. by apply nth_lookup_Some.
Qed.

Section fixup.
Context (usa S : Z) (Husa : 0 <= usa).

(** The last two bytes of sector [j]. *)
Definition tail_of (j : Z) : Z := (j + 1) * S - 2.

(** A range off the sector ends and the array slots of sectors [i .. i+n). *)
Definition off_tails (o k i n : Z) : Prop := ∀ j, i <= j < i + n → o + k <= tail_of j ∨ tail_of j + 2 <= o.

Lemma fixup_loop_spec n : ∀ rec usn i,
  0 <= i → (i + Z.of_nat n) * S <= Z.of_nat (length rec) → usa + 2 + 2 * (i + Z.of_nat n) <= S - 2 →
  let r := fixup_loop n rec usa S usn i in
  length r = length rec ∧
  (∀ o k, 0 <= o → off_tails o (Z.of_nat k) i (Z.of_nat n) →
     o + Z.of_nat k <= usa + 2 + 2 * i ∨ usa + 2 + 2 * (i + Z.of_nat n) <= o → sub r (Z.to_nat o) k = sub rec (Z.to_nat o) k) ∧
  (∀ j, i <= j < i + Z.of_nat n →
     sub r (Z.to_nat (tail_of j)) 2 = le_bytes 2 usn ∧
     sub r (Z.to_nat (usa + 2 + 2 * j)) 2 = sub rec (Z.to_nat (tail_of j)) 2).
Proof using Husa.
  induction n as [|n IH]; intros rec usn i Hi Hl Hu; cbn [fixup_loop]; [split_and!; [done|done|lia]|].
  fold (tail_of i). set (rec1 := splice rec (Z.to_nat (usa + 2 + 2 * i)) (sub rec (Z.to_nat (tail_of i)) 2)).
  set (rec2 := splice rec1 (Z.to_nat (tail_of i)) (le_bytes 2 usn)).
  assert (length rec2 = length rec) as El by (unfold rec2, rec1; by rewrite !length_splice).
  assert (length rec1 = length rec) as El1 by (unfold rec1; by rewrite length_splice).
  assert (∀ j, i <= j → S - 2 <= tail_of j) as Htl by (intros j Hj; unfold tail_of; nia).
  assert (∀ j, i <= j < i + Z.of_nat (Datatypes.S n) → tail_of j + 2 <= Z.of_nat (length rec)) as Hth
    by (intros j Hj; unfold tail_of; nia).
  assert (∀ j, i + 1 <= j → tail_of i + 2 <= tail_of j) as Hgap by (intros j Hj; unfold tail_of; nia).
  pose proof (Htl i ltac:(lia)) as Hti. pose proof (Hth i ltac:(lia)) as Hti2.
  assert (length (sub rec (Z.to_nat (tail_of i)) 2) = 2%nat) as Es by (apply length_sub; lia).
  destruct (IH rec2 usn (i + 1) ltac:(lia) ltac:(rewrite El; lia) ltac:(lia)) as (H1 & H2 & H3). split_and!.
  - congruence.
  - intros o k Ho Hot Hor. rewrite H2; [|done|intros j Hj; apply Hot; lia|lia].
    unfold rec2, rec1. destruct (Hot i ltac:(lia)) as [Hx|Hx];
      rewrite sub_splice_z, sub_splice_z by (rewrite ?length_splice, ?Es, ?length_le_bytes; lia); done.
  - intros j Hj. destruct (Z.eq_dec j i) as [->|Hne].
    + rewrite !H2 by (lia || (intros j' Hj'; pose proof (Hgap j' ltac:(lia)); lia)). unfold rec2, rec1. split.
      * apply sub_splice_eq_z; rewrite ?length_splice, ?length_le_bytes; lia.
      * rewrite sub_splice_z by (rewrite ?length_splice, ?length_le_bytes; lia). apply sub_splice_eq_z; rewrite ?Es; lia.
    + destruct (H3 j ltac:(lia)) as [G1 G2]. split; [done|]. rewrite G2.
      pose proof (Hgap j ltac:(lia)). pose proof (Htl j ltac:(lia)). pose proof (Hth j ltac:(lia)). unfold rec2, rec1.
      rewrite !sub_splice_z by (rewrite ?length_splice, ?Es, ?length_le_bytes; lia). done.
Qed.

Lemma unfix_loop_spec n : ∀ rec usn i,
  0 <= i → (i + Z.of_nat n) * S <= Z.of_nat (length rec) → usa + 2 + 2 * (i + Z.of_nat n) <= S - 2 →
  (∀ j, i <= j < i + Z.of_nat n → sub rec (Z.to_nat (tail_of j)) 2 = usn) →
  ∃ r, unfix_loop n rec usa S usn i = Some r ∧ length r = length rec ∧
  (∀ o k, 0 <= o → off_tails o (Z.of_nat k) i (Z.of_nat n) → sub r (Z.to_nat o) k = sub rec (Z.to_nat o) k) ∧
  (∀ j, i <= j < i + Z.of_nat n → sub r (Z.to_nat (tail_of j)) 2 = sub rec (Z.to_nat (usa + 2 + 2 * j)) 2).
Proof using Husa.
  induction n as [|n IH]; intros rec usn i Hi Hl Hu Hq; cbn [unfix_loop]; [exists rec; split_and!; [done|done|done|lia]|].
  fold (tail_of i). rewrite bool_decide_true by (apply Hq; lia).
  set (rec1 := splice rec (Z.to_nat (tail_of i)) (sub rec (Z.to_nat (usa + 2 + 2 * i)) 2)).
  assert (length rec1 = length rec) as El by (unfold rec1; by rewrite length_splice).
  assert (∀ j, i <= j → S - 2 <= tail_of j) as Htl by (intros j Hj; unfold tail_of; nia).
  assert (∀ j, i <= j < i + Z.of_nat (Datatypes.S n) → tail_of j + 2 <= Z.of_nat (length rec)) as Hth
    by (intros j Hj; unfold tail_of; nia).
  assert (∀ j, i + 1 <= j → tail_of i + 2 <= tail_of j) as Hgap by (intros j Hj; unfold tail_of; nia).
  pose proof (Htl i ltac:(lia)) as Hti. pose proof (Hth i ltac:(lia)) as Hti2.
  assert (length (sub rec (Z.to_nat (usa + 2 + 2 * i)) 2) = 2%nat) as Es by (apply length_sub; lia).
  destruct (IH rec1 usn (i + 1) ltac:(lia) ltac:(rewrite El; lia) ltac:(lia)) as (r & Hr & H1 & H2 & H3).
  { intros j Hj. unfold rec1. pose proof (Hgap j ltac:(lia)). rewrite sub_splice_z by (rewrite ?Es; lia). apply Hq. lia. }
  exists r. split_and!; [done|congruence| |].
  - intros o k Ho Hot. rewrite H2; [|done|intros j Hj; apply Hot; lia].
    unfold rec1. destruct (Hot i ltac:(lia)) as [Hx|Hx]; rewrite sub_splice_z by (rewrite ?Es; lia); done.
  - intros j Hj. destruct (Z.eq_dec j i) as [->|Hne].
    + rewrite H2 by (lia || (intros j' Hj'; pose proof (Hgap j' ltac:(lia)); lia)).
      unfold rec1. apply sub_splice_eq_z; rewrite ?Es; lia.
    + rewrite (H3 j) by lia. pose proof (Htl j ltac:(lia)). unfold rec1. rewrite sub_splice_z by (rewrite ?Es; lia). done.
Qed.
End fixup.

Lemma sub_eq_lookup {a b : list Z} {o n i : nat} : sub a o n = sub b o n → (i < n)%nat → a !! (o + i)%nat = b !! (o + i)%nat.
Proof.
  intros H Hi. apply (f_equal (λ l, l !! i)) in H. unfold sub in H. rewrite !lookup_take_lt in H by done.
  by rewrite !lookup_drop in H.
Qed.

Lemma sub_lookup_eq (a b : list Z) o n : (∀ i, (o <= i < o + n)%nat → a !! i = b !! i) → sub a o n = sub b o n.
Proof.
  intros H. apply list_eq. intros i. unfold sub. destruct (Nat.lt_ge_cases i n).
  - rewrite !lookup_take_lt, !lookup_drop by done. apply H. lia.
  - by rewrite !lookup_take_ge by done.
Qed.

(** A record whose array lies in its first sector. *)
Definition fixable (rec : list Z) (sectsz : Z) : Prop :=
  let usa := r16 rec 4 in
  let n := r16 rec 6 - 1 in
  8 <= usa ∧ 1 <= n ∧ usa + 2 + 2 * n <= sectsz - 2 ∧ Z.of_nat (length rec) = n * sectsz.

Lemma fixup_roundtrip rec sectsz usn :
  fixable rec sectsz →
  ∃ r, remove_fixup (apply_fixup rec sectsz usn) sectsz = Some r ∧ length r = length rec ∧
    ∀ o k, 0 <= o → o + Z.of_nat k <= r16 rec 4 ∨ r16 rec 4 + 2 * r16 rec 6 <= o → sub r (Z.to_nat o) k = sub rec (Z.to_nat o) k.
Proof.
  intros (Hu & Hn & Hfit & Hlen). unfold apply_fixup, w16.
  set (usa := r16 rec 4) in *. set (cnt := r16 rec 6) in *. set (rec0 := splice rec (Z.to_nat usa) (le_bytes 2 (usn_of usn))).
  assert (length rec0 = length rec) as El0 by (unfold rec0; by rewrite length_splice).
  assert (sectsz <= Z.of_nat (length rec)) as Hsz by nia.
  assert (∀ j, 0 <= j → sectsz - 2 <= tail_of sectsz j) as Htl by (intros j Hj; unfold tail_of; nia).
  assert (∀ j, 0 <= j < cnt - 1 → tail_of sectsz j + 2 <= Z.of_nat (length rec)) as Hth by (intros j Hj; unfold tail_of; nia).
  destruct (fixup_loop_spec usa sectsz ltac:(lia) (Z.to_nat (cnt - 1)) rec0 (usn_of usn) 0) as (F1 & F2 & F3);
    [lia|rewrite Z2Nat.id by lia; nia|lia|]. rewrite Z2Nat.id in F2, F3 by lia.
  set (r1 := fixup_loop _ rec0 usa sectsz (usn_of usn) 0) in *.
  assert (∀ o k, 0 <= o → o + Z.of_nat k <= usa + 2 → sub r1 (Z.to_nat o) k = sub rec0 (Z.to_nat o) k) as Hlow
    by (intros o k Ho Hk; apply F2; [done|intros j Hj; pose proof (Htl j ltac:(lia)); lia|lia]).
  assert (r16 r1 4 = usa) as E4.
  { unfold r16. rewrite (Hlow 4 2%nat) by lia. unfold rec0. rewrite sub_splice_z by (rewrite ?length_le_bytes; lia). done. }
  assert (r16 r1 6 = cnt) as E6.
  { unfold r16. rewrite (Hlow 6 2%nat) by lia. unfold rec0. rewrite sub_splice_z by (rewrite ?length_le_bytes; lia). done. }
  assert (sub r1 (Z.to_nat usa) 2 = le_bytes 2 (usn_of usn)) as Eusn.
  { rewrite (Hlow usa 2%nat) by lia. unfold rec0. apply sub_splice_eq_z; rewrite ?length_le_bytes; lia. }
  destruct (unfix_loop_spec usa sectsz ltac:(lia) (Z.to_nat (cnt - 1)) r1 (le_bytes 2 (usn_of usn)) 0) as (r & Hr & G1 & G2 & G3);
    [lia|rewrite F1, El0, Z2Nat.id by lia; nia|lia|intros j Hj; apply F3; lia|]. rewrite Z2Nat.id in G2, G3 by lia.
  exists r. split_and!; [unfold remove_fixup; rewrite E4, E6, Eusn; exact Hr|congruence|].
  assert (∀ o, 0 <= o < Z.of_nat (length rec) → o < usa ∨ usa + 2 * cnt <= o → r !! Z.to_nat o = rec !! Z.to_nat o) as Hpt.
  { intros o Ho Hout.
    assert (∀ o k, 0 <= o → o + Z.of_nat k <= usa ∨ usa + 2 <= o → sub rec0 (Z.to_nat o) k = sub rec (Z.to_nat o) k) as H0
      by (intros; unfold rec0; apply sub_splice_z; rewrite ?length_le_bytes; lia).
    assert (0 < sectsz) by nia. pose proof (Z.div_mod o sectsz ltac:(lia)) as Ed.
    pose proof (Z.mod_pos_bound o sectsz ltac:(lia)). set (j := o / sectsz) in *.
    assert (0 <= j < cnt - 1) as Hj by (split; [apply Z.div_pos; lia|apply Z.div_lt_upper_bound; lia]).
    assert (o < tail_of sectsz j + 2) as Hup by (unfold tail_of; nia).
    destruct (Z.lt_ge_cases o (tail_of sectsz j)) as [Hlt|Hge].
    - assert (off_tails sectsz o 1 0 (cnt - 1)) as Hot
        by (intros j' Hj'; unfold tail_of in *; destruct (Z.lt_ge_cases j' j); nia).
      pose proof (G2 o 1%nat ltac:(lia) Hot) as E1. pose proof (F2 o 1%nat ltac:(lia) Hot ltac:(lia)) as E2.
      pose proof (H0 o 1%nat ltac:(lia) ltac:(lia)) as E3. rewrite <- (Nat.add_0_r (Z.to_nat o)).
      rewrite (sub_eq_lookup E1), (sub_eq_lookup E2), (sub_eq_lookup E3) by lia. done.
    - pose proof (G3 j ltac:(lia)) as E1. destruct (F3 j ltac:(lia)) as [_ E2].
      pose proof (H0 (tail_of sectsz j) 2%nat ltac:(pose proof (Htl j ltac:(lia)); lia) ltac:(pose proof (Htl j ltac:(lia)); lia)) as E3.
      pose proof (Htl j ltac:(lia)). replace (Z.to_nat o) with (Z.to_nat (tail_of sectsz j) + Z.to_nat (o - tail_of sectsz j))%nat by lia.
      rewrite E2, E3 in E1. apply (sub_eq_lookup E1). lia. }
  intros o k Ho Hout. apply sub_lookup_eq. intros i Hi. destruct (Nat.lt_ge_cases i (length rec)).
  - rewrite <- (Nat2Z.id i). apply Hpt; lia.
  - rewrite !lookup_ge_None_2 by congruence || lia. done.
Qed.

(** Before the array a protected record is as it was. *)
Lemma apply_fixup_head rec sectsz usn o k :
  fixable rec sectsz → 0 <= o → o + Z.of_nat k <= r16 rec 4 →
  sub (apply_fixup rec sectsz usn) (Z.to_nat o) k = sub rec (Z.to_nat o) k ∧ length (apply_fixup rec sectsz usn) = length rec.
Proof.
  intros (Hu & Hn & Hfit & Hlen) Ho Hk. unfold apply_fixup, w16.
  set (usa := r16 rec 4) in *. set (cnt := r16 rec 6) in *. set (rec0 := splice rec (Z.to_nat usa) (le_bytes 2 (usn_of usn))).
  assert (length rec0 = length rec) as El0 by (unfold rec0; by rewrite length_splice).
  assert (sectsz <= Z.of_nat (length rec)) as Hsz by nia.
  destruct (fixup_loop_spec usa sectsz ltac:(lia) (Z.to_nat (cnt - 1)) rec0 (usn_of usn) 0) as (F1 & F2 & _);
    [lia|rewrite Z2Nat.id by lia; nia|lia|]. rewrite Z2Nat.id in F2 by lia. split; [|congruence].
  rewrite F2; [|done|intros j Hj; unfold tail_of; nia|lia]. unfold rec0. apply sub_splice_z; rewrite ?length_le_bytes; lia.
Qed.
