(* ===== verification/NtfsIndex.v ===== *)
(** * The B-tree of a directory index
      ([src/tools/iso-patch-mac/engine/ntfs.c]: [pack_level], [serialize_body],
      [emit_indx], [build_directory_index])

    A sorted list of entries is packed into leaf nodes, one entry between two
    nodes moving up, and so for each level above until the top fits in the
    record.  Here: the code, and the proof that the nodes form a search tree of
    exactly the given entries.  The upper-case table is an argument. *)

From S2P Require Import Prelude Bytes NtfsCodec.

Definition NTFS_INDX_SIZE : Z := 4096.
Definition INDX_BODY_CAP : Z := NTFS_INDX_SIZE - 0x40.

(** [b_data] is present in a view index. *)
Record bentry_t := mkBentry { b_ref : Z; b_key : list Z; b_sub : Z; b_data : option (list Z) }.

Record nodespec_t := mkNode { n_vcn : Z; n_ent : list bentry_t; n_internal : bool; n_end_vcn : Z }.

Definition key_len (e : bentry_t) : Z := Z.of_nat (length (b_key e)).
Definition data_len (e : bentry_t) : Z := Z.of_nat (length (default [] (b_data e))).

(** ** Sizes *)

Definition entry_size_dv (klen dlen : Z) (internal : bool) : Z :=
  let sub_ := if internal then 8 else 0 in
  if negb (dlen =? 0) then align8u (0x10 + klen + dlen + sub_) else align8u (0x10 + klen + sub_).

Definition end_size (internal : bool) : Z := align8u (0x10 + (if internal then 8 else 0)).

Definition size_of (internal : bool) (e : bentry_t) : Z := entry_size_dv (key_len e) (data_len e) internal.

(** The bytes of some entries and of the END entry. *)
Definition sizes (internal : bool) (es : list bentry_t) : Z := foldr (λ e n, size_of internal e + n) 0 es.
Definition body_size (internal : bool) (es : list bentry_t) : Z := sizes internal es + end_size internal.

(** ** Packing a level *)

Definition set_sub (e : bentry_t) (v : Z) : bentry_t := mkBentry (b_ref e) (b_key e) v (b_data e).

(** [while (i < nin)]: the entries of one node, and the rest; the first always
    goes in. *)
Fixpoint fill_node (internal first : bool) (used : Z) (ins : list bentry_t) : list bentry_t * list bentry_t :=
  match ins with
  | [] => ([], [])
  | e :: ins' =>
      let es := size_of internal e in
      if negb first && (INDX_BODY_CAP <? used + es + end_size internal) then ([], ins)
      else let '(cur, rest) := fill_node internal false (used + es) ins' in (e :: cur, rest)
  end.

(** The nodes, the separators, the VCN of the last node and the next free VCN. *)
Record packed := mkPacked { p_specs : list nodespec_t; p_out : list bentry_t; p_right : Z; p_next : Z }.

(** [for (;;)]; [None]: out of fuel. *)
Fixpoint pack_loop (fuel : nat) (ins : list bentry_t) (internal : bool) (rightmost_child next_vcn : Z) : option packed :=
  match fuel with
  | O => None
  | S fuel' =>
      let '(cur, rest) := fill_node internal true 0 ins in
      let vcn := next_vcn in
      match rest with
      | [] => Some (mkPacked [mkNode vcn cur internal (if internal then rightmost_child else 0)] [] vcn (vcn + 1))
      | e :: rest' =>
          if Nat.eqb (length rest') 0 && Nat.leb 2 (length cur) then
            let sep := default e (last cur) in
            Some (mkPacked
              [mkNode vcn (removelast cur) internal (if internal then b_sub sep else 0);
               mkNode (vcn + 1) [e] internal (if internal then rightmost_child else 0)]
              [set_sub sep vcn] (vcn + 1) (vcn + 2))
          else
            r ← pack_loop fuel' rest' internal rightmost_child (vcn + 1);
            Some (mkPacked (mkNode vcn cur internal (if internal then b_sub e else 0) :: p_specs r)
              (set_sub e vcn :: p_out r) (p_right r) (p_next r))
      end
  end.

Definition pack_level (ins : list bentry_t) (internal : bool) (rightmost_child next_vcn : Z) : option packed :=
  pack_loop (S (length ins)) ins internal rightmost_child next_vcn.

(** The second loop: levels of internal nodes until the separators fit the
    root; [p] is the tree so far. *)
Fixpoint promote (fuel : nat) (root_budget : Z) (p : packed) : option packed :=
  match fuel with
  | O => None
  | S fuel' =>
      if (body_size true (p_out p) <=? root_budget) || bool_decide (length (p_out p) = 0%nat) then Some p else
      q ← pack_level (p_out p) true (p_right p) (p_next p);
      promote fuel' root_budget (mkPacked (p_specs p ++ p_specs q) (p_out q) (p_right q) (p_next q))
  end.

(** The tree over [ins]: [p_out] and [p_right] are the root's entries and END. *)
Definition build_tree (ins : list bentry_t) (root_budget : Z) : option packed :=
  p ← pack_level ins false 0 0; promote (S (length ins)) root_budget p.

(** ** Facts on filling a node *)

Lemma fill_node_app internal first used ins cur rest : fill_node internal first used ins = (cur, rest) → ins = cur ++ rest.
Proof.
  revert first used cur rest. induction ins as [|e ins IH]; intros first used cur rest H; cbn [fill_node] in H;
    [by injection H as <- <-|].
  destruct (negb first && _); [by injection H as <- <-|].
  destruct (fill_node internal false (used + size_of internal e) ins) as [c r] eqn:E. injection H as <- <-.
  by rewrite (IH _ _ _ _ E).
Qed.

Lemma fill_node_size internal first used ins cur rest :
  fill_node internal first used ins = (cur, rest) →
  (first = true → ∀ e ins', ins = e :: ins' → used + size_of internal e + end_size internal <= INDX_BODY_CAP) →
  cur = [] ∨ used + sizes internal cur + end_size internal <= INDX_BODY_CAP.
Proof.
  revert first used cur rest. induction ins as [|e ins IH]; intros first used cur rest H Hf; cbn [fill_node] in H;
    [injection H as <- <-; by left|].
  destruct (negb first && _) eqn:Ec; [injection H as <- <-; by left|].
  destruct (fill_node internal false (used + size_of internal e) ins) as [c r] eqn:E. injection H as <- <-. right.
  assert (used + size_of internal e + end_size internal <= INDX_BODY_CAP) as He.
  { destruct first; [by apply (Hf eq_refl e ins)|]. apply andb_false_iff in Ec as [?|Ec]; [done|]. zbool. lia. }
  destruct (IH _ _ _ _ E ltac:(done)) as [->|H2]; cbn [sizes foldr]; [lia|]. unfold sizes in *. lia.
Qed.

(** A node left with more to come holds at least two entries when two always fit. *)
Lemma fill_node_two internal ins cur e rest :
  fill_node internal true 0 ins = (cur, e :: rest) →
  Forall (λ e, 0 <= size_of internal e ∧ 2 * size_of internal e + end_size internal <= INDX_BODY_CAP) ins →
  (2 <= length cur)%nat.
Proof.
  destruct ins as [|a [|b ins]]; intros H Hs.
  - done.
  - by cbn in H.
  - inversion Hs as [|? ? Ha Hs']; subst. inversion Hs' as [|? ? Hb _]; subst. cbn [fill_node negb andb] in H.
    rewrite (proj2 (Z.ltb_ge _ _)) in H by lia. destruct (fill_node internal false _ ins) as [c r].
    injection H as <- _. simpl. lia.
Qed.

(** ** What a tree of nodes holds *)

(** An entry apart from its child pointer. *)
Definition payload (e : bentry_t) : Z * list Z * option (list Z) := (b_ref e, b_key e, b_data e).

(** The entries [ents] with END [e] list [l], each child [v] listing what [C v]
    allows. *)
Fixpoint spine (C : Z → list (Z * list Z * option (list Z)) → Prop) (ents : list bentry_t) (e : Z)
    (l : list (Z * list Z * option (list Z))) : Prop :=
  match ents with
  | [] => C e l
  | x :: ents => ∃ l1 l2, l = l1 ++ payload x :: l2 ∧ C (b_sub x) l1 ∧ spine C ents e l2
  end.

(** A body at height [h]: a leaf lists its entries, an internal one its
    children's lists between its entries; [nodes] is the node of each VCN. *)
Fixpoint body (nodes : Z → option nodespec_t) (h : nat) (ents : list bentry_t) (e : Z)
    (l : list (Z * list Z * option (list Z))) : Prop :=
  match h with
  | O => l = map payload ents
  | S h' => spine (λ v l, ∃ ns, nodes v = Some ns ∧ n_internal ns = negb (Nat.eqb h' 0) ∧
                      body nodes h' (n_ent ns) (n_end_vcn ns) l) ents e l
  end.

Lemma promote_specs fuel budget : ∀ p q, promote fuel budget p = Some q → ∃ more, p_specs q = p_specs p ++ more.
Proof.
  induction fuel as [|fuel IH]; intros p q H; [done|]. cbn [promote] in H.
  destruct (_ || _); [injection H as <-; exists []; by rewrite app_nil_r|]. obind H r Er.
  apply IH in H as [more E]. cbn [p_specs] in E. exists (p_specs r ++ more). by rewrite E, <- app_assoc.
Qed.

Section tree.
Context (nodes : Z → option nodespec_t).

Lemma spine_split C cur x rest e l :
  spine C (cur ++ x :: rest) e l ↔ ∃ l1 l2, l = l1 ++ payload x :: l2 ∧ spine C cur (b_sub x) l1 ∧ spine C rest e l2.
Proof.
  revert l. induction cur as [|y cur IH]; intros l; [done|]. cbn [app spine]. split.
  - intros (l1 & l2 & -> & H1 & H2). apply IH in H2 as (l3 & l4 & -> & H3 & H4).
    exists (l1 ++ payload y :: l3), l4. rewrite <- app_assoc. split_and!; [done|by exists l1, l3|done].
  - intros (l1 & l2 & -> & (l3 & l4 & -> & H1 & H2) & H3). exists l3, (l4 ++ payload x :: l2).
    rewrite <- app_assoc. split_and!; [done|done|]. apply IH. by exists l4, l2.
Qed.

(** A body splits at an entry; in a leaf the END pointers are of no account. *)
Lemma body_split h cur x rest e e1 l :
  body nodes h (cur ++ x :: rest) e l → (h ≠ 0%nat → e1 = b_sub x) →
  ∃ l1 l2, l = l1 ++ payload x :: l2 ∧ body nodes h cur e1 l1 ∧ body nodes h rest e l2.
Proof.
  destruct h as [|h]; cbn [body]; intros H He.
  - subst l. rewrite map_app. by exists (map payload cur), (map payload rest).
  - rewrite He by done. by apply spine_split.
Qed.

(** Appending nodes changes no VCN already there. *)
Definition has_nodes (specs : list nodespec_t) : Prop := Forall (λ ns, nodes (n_vcn ns) = Some ns) specs.

Lemma pack_loop_body fuel : ∀ h ins rc v p l,
  pack_loop fuel ins (negb (Nat.eqb h 0)) rc v = Some p → has_nodes (p_specs p) →
  body nodes h ins rc l → body nodes (S h) (p_out p) (p_right p) l.
Proof.
  induction fuel as [|fuel IH]; intros h ins rc v p l H Hn Hb; [done|]. cbn [pack_loop] in H.
  set (internal := negb (Nat.eqb h 0)) in *.
  assert (∀ ents a b l, (h ≠ 0%nat → a = b) → body nodes h ents a l → body nodes h ents b l) as Hend
    by (intros ents a b l' Hab; destruct h; [done|]; by rewrite Hab).
  assert (h ≠ 0%nat → internal = true) as Hint by (unfold internal; destruct h; [done|done]).
  destruct (fill_node internal true 0 ins) as [cur rest] eqn:Ef. apply fill_node_app in Ef. subst ins.
  destruct rest as [|e rest].
  { injection H as <-. rewrite app_nil_r in Hb. inversion Hn as [|? ? H1 _]; subst. cbn [p_out p_right body spine] in *.
    eexists. split; [exact H1|]. split; [done|]. eapply Hend; [|exact Hb]. intros Hh. by rewrite Hint. }
  destruct (Nat.eqb (length rest) 0 && Nat.leb 2 (length cur)) eqn:Ec.
  - apply andb_prop in Ec as [E1 E2]. apply Nat.eqb_eq in E1. apply Nat.leb_le in E2. destruct rest; [|done].
    destruct (exists_last (l := cur)) as (cur' & sep & ->); [intros ->; simpl in E2; lia|].
    rewrite last_snoc, removelast_last in H. cbn [default] in H. injection H as <-. cbn [p_specs p_out p_right] in *.
    inversion Hn as [|? ? N1 Hn']; subst. inversion Hn' as [|? ? N2 _]; subst. cbn [n_vcn] in N1, N2.
    rewrite <- app_assoc in Hb. cbn [app] in Hb.
    apply (body_split h cur' sep [e] rc (if internal then b_sub sep else 0)) in Hb as (l1 & l2 & -> & B1 & B2);
      [|intros Hh; by rewrite Hint].
    cbn [body spine]. exists l1, l2. split; [done|]. split; (eexists; split; [exact N1 || exact N2|]; split; [done|]; cbn [n_ent n_end_vcn]).
    + done.
    + eapply Hend; [|exact B2]. intros Hh. by rewrite Hint.
  - obind H r Er. injection H as <-. cbn [p_specs p_out p_right] in *. inversion Hn as [|? ? N1 Hn']; subst. cbn [n_vcn] in N1.
    apply (body_split h cur e rest rc (if internal then b_sub e else 0)) in Hb as (l1 & l2 & -> & B1 & B2);
      [|intros Hh; by rewrite Hint].
    pose proof (IH h rest rc (v + 1) r l2 Er Hn' B2) as B3. cbn [body spine]. exists l1, l2. split; [done|]. split; [|exact B3].
    eexists. split; [exact N1|]. by split.
Qed.

Lemma promote_body fuel budget : ∀ h p q l,
  promote fuel budget p = Some q → has_nodes (p_specs q) → (0 < h)%nat →
  body nodes h (p_out p) (p_right p) l → ∃ h', (0 < h')%nat ∧ body nodes h' (p_out q) (p_right q) l.
Proof.
  induction fuel as [|fuel IH]; intros h p q l H Hn Hh Hb; [done|]. pose proof (promote_specs _ _ _ _ H) as [more Em].
  cbn [promote] in H. destruct (_ || _); [injection H as <-; by exists h|]. obind H r Er.
  apply (IH (S h) _ _ _ H); [done|lia|]. cbn [p_out p_right].
  apply (pack_loop_body (S (length (p_out p))) h (p_out p) (p_right p) (p_next p) r l); [| |done].
  - destruct h; [lia|done].
  - pose proof (promote_specs _ _ _ _ H) as [more' Em']. cbn [p_specs] in Em'. rewrite Em' in Hn.
    apply Forall_app in Hn as [Hn _]. by apply Forall_app in Hn as [_ Hn].
Qed.

Lemma build_tree_body ins budget p :
  build_tree ins budget = Some p → has_nodes (p_specs p) →
  ∃ h, (0 < h)%nat ∧ body nodes h (p_out p) (p_right p) (map payload ins).
Proof.
  intros H Hn. unfold build_tree in H. obind H q Ep. apply (promote_body _ _ 1 _ _ _ H Hn ltac:(lia)).
  apply (pack_loop_body (S (length ins)) 0 ins 0 0 q _ Ep); [|done].
  pose proof (promote_specs _ _ _ _ H) as [more Em]. rewrite Em in Hn. by apply Forall_app in Hn as [Hn _].
Qed.
End tree.

(** ** The shape of a level *)

(** An entry of a file-name index whose key leaves room for two in a node, its
    child below [B]. *)
Definition entry_wf (B : Z) (e : bentry_t) : Prop :=
  is_u64 (b_ref e) ∧ b_data e = None ∧ key_len e <= 1968 ∧ 0 <= b_sub e < B.

Lemma size_of_wf B (internal : bool) e :
  entry_wf B e → let n := 0x10 + key_len e + (if internal then 8 else 0) in n <= size_of internal e < n + 8 ∧ size_of internal e mod 8 = 0.
Proof.
  intros (_ & Hd & Hk & _). unfold size_of, entry_size_dv, data_len. rewrite Hd. cbn [default length Z.of_nat Z.eqb negb].
  apply align8u_spec. unfold key_len in *. destruct internal; lia.
Qed.

Lemma size_of_two B (internal : bool) e :
  entry_wf B e → 0 <= size_of internal e ∧ 2 * size_of internal e + end_size internal <= INDX_BODY_CAP.
Proof.
  intros He. destruct (size_of_wf B internal e He) as [H1 H2]. destruct He as (_ & _ & Hk & _). unfold INDX_BODY_CAP, NTFS_INDX_SIZE.
  assert (0 <= key_len e) by (unfold key_len; lia).
  assert (end_size internal <= 24) by (destruct internal; vm_compute; congruence).
  assert (0 <= (if internal then 8 else 0) <= 8) by (destruct internal; lia).
  assert (size_of internal e <= 1992) by dlia. lia.
Qed.

Lemma set_sub_wf B e v : entry_wf B e → 0 <= v < B → entry_wf B (set_sub e v).
Proof. intros (H1 & H2 & H3 & _) Hv. exact (conj H1 (conj H2 (conj H3 Hv))). Qed.

(** The shape needs of an entry only that two fit a node, whatever its child;
    [wf B] says so of entries with a child below [B]. *)
Section level.
Context (wf : Z → bentry_t → Prop).
Context (wf_two : ∀ B internal e, wf B e → 0 <= size_of internal e ∧ 2 * size_of internal e + end_size internal <= INDX_BODY_CAP).
Context (wf_set : ∀ B e v, wf B e → 0 <= v < B → wf B (set_sub e v)) (wf_range : ∀ B e, wf B e → 0 <= b_sub e < B).

Definition node_shape (B : Z) (internal : bool) (ns : nodespec_t) : Prop :=
  n_internal ns = internal ∧ n_ent ns ≠ [] ∧ Forall (wf B) (n_ent ns) ∧ 0 <= n_end_vcn ns < B ∧
  body_size internal (n_ent ns) <= INDX_BODY_CAP.

Record level_ok (B : Z) (internal : bool) (n : nat) (v : Z) (p : packed) : Prop := {
  lv_nodes : Forall (node_shape B internal) (p_specs p);
  lv_vcns : map n_vcn (p_specs p) = seqZ v (Z.of_nat (length (p_specs p)));
  lv_next : p_next p = v + Z.of_nat (length (p_specs p));
  lv_count : length (p_specs p) = S (length (p_out p));
  lv_out : Forall (wf B) (p_out p);
  lv_less : (2 * length (p_out p) + 1 <= n)%nat;
  lv_right : v <= p_right p < p_next p;
}.

Lemma node_shape_mk B (internal : bool) v ents e :
  ents ≠ [] → Forall (wf B) ents → 0 <= e < B → body_size internal ents <= INDX_BODY_CAP →
  node_shape B internal (mkNode v ents internal (if internal then e else 0)).
Proof. intros H1 H2 He H3. split_and!; [done|done|done|destruct internal; simpl; lia|destruct internal; simpl; lia|done]. Qed.

Lemma pack_loop_ok B internal rc fuel : ∀ ins v,
  (length ins < fuel)%nat → ins ≠ [] → Forall (wf B) ins → 0 <= rc < B → 0 <= v → v + Z.of_nat (length ins) <= B →
  ∃ p, pack_loop fuel ins internal rc v = Some p ∧ level_ok B internal (length ins) v p.
Proof.
  induction fuel as [|fuel IH]; intros ins v Hf Hne Hins Hrc Hv HB; [lia|]. cbn [pack_loop].
  destruct (fill_node internal true 0 ins) as [cur rest] eqn:Ef. pose proof (fill_node_app _ _ _ _ _ _ Ef) as Eins.
  assert (cur = [] ∨ 0 + sizes internal cur + end_size internal <= INDX_BODY_CAP) as Hsize.
  { apply (fill_node_size _ _ _ _ _ _ Ef). intros _ e ins' ->. inversion Hins as [|? ? He _]; subst.
    destruct (wf_two B internal e He). lia. }
  assert (cur ≠ []) as Hcur.
  { destruct ins as [|a ins]; [done|]. cbn [fill_node negb andb] in Ef. destruct (fill_node internal false _ ins). by injection Ef as <- _. }
  destruct Hsize as [?|Hsize]; [done|]. subst ins. apply Forall_app in Hins as [Hc Hr]. rewrite length_app in *.
  assert (1 <= length cur)%nat as Hc1 by (destruct cur; [done|simpl; lia]).
  assert (0 < B) as HB0 by lia.
  destruct rest as [|e rest].
  { eexists. split; [reflexivity|]. constructor; cbn [p_specs p_out p_right p_next length map n_vcn]; [|done|lia|done|constructor|lia|lia].
    constructor; [|constructor]. apply node_shape_mk; [done|done|lia|unfold body_size; lia]. }
  assert (2 <= length cur)%nat as Hc2.
  { apply (fill_node_two _ _ _ _ _ Ef). eapply Forall_impl; [by apply Forall_app|]. intros x Hx. by apply (wf_two B). }
  inversion Hr as [|? ? He Hr']; subst. pose proof (wf_range _ _ He) as Hsub. cbn [length] in *.
  rewrite (proj2 (Nat.leb_le _ _)) by lia. rewrite andb_true_r.
  destruct (Nat.eqb_spec (length rest) 0) as [E0|E0].
  - destruct rest; [|done]. destruct (exists_last Hcur) as (cur' & sep & ->). apply Forall_app in Hc as [Hc' Hsep].
    inversion Hsep as [|? ? Hsep' _]; subst. rewrite last_snoc, removelast_last. cbn [default]. pose proof (wf_range _ _ Hsep') as Hss.
    rewrite length_app in *. cbn [length] in *.
    eexists. split; [reflexivity|]. constructor; cbn [p_specs p_out p_right p_next length map n_vcn]; [| |lia|done| |lia|lia].
    + destruct (wf_two B internal sep Hsep') as [Hs0 _]. destruct (wf_two B internal e He) as [He0 He1].
      constructor; [apply node_shape_mk; [intros ->; simpl in *; lia|done|done|]|constructor; [apply node_shape_mk; [done|by constructor|lia|]|constructor]].
      * revert Hsize. unfold body_size, sizes. rewrite foldr_app. cbn [foldr].
        assert (∀ l a, 0 <= a → foldr (λ e n, size_of internal e + n) 0 l <= foldr (λ e n, size_of internal e + n) a l) as Hm
          by (clear; intros l a Ha; induction l; simpl; lia).
        pose proof (Hm cur' (size_of internal sep + 0) ltac:(lia)). lia.
      * unfold body_size, sizes. cbn [foldr]. lia.
    + rewrite (seqZ_cons v) by lia. rewrite (seqZ_cons (Z.succ v)) by lia. do 2 f_equal.
    + constructor; [|constructor]. apply wf_set; [done|lia].
  - destruct (IH rest (v + 1)) as (r & -> & L); [lia|by intros ->|done|done|lia|lia|].
    destruct L as [L1 L2 L3 L4 L5 L6 L7].
    eexists. split; [reflexivity|]. constructor; cbn [p_specs p_out p_right p_next length map n_vcn].
    + constructor; [|done]. apply node_shape_mk; [done|done|done|unfold body_size; lia].
    + rewrite L2. rewrite Nat2Z.inj_succ. rewrite (seqZ_cons v (Z.succ _)) by lia. do 2 f_equal; lia.
    + lia.
    + lia.
    + constructor; [|done]. apply wf_set; [done|lia].
    + lia.
    + lia.
Qed.

(** ** The whole tree is built *)

Record tree_shape (B : Z) (p : packed) : Prop := {
  tr_nodes : Forall (λ ns, node_shape B (n_internal ns) ns) (p_specs p);
  tr_vcns : map n_vcn (p_specs p) = seqZ 0 (Z.of_nat (length (p_specs p)));
  tr_next : p_next p = Z.of_nat (length (p_specs p));
  tr_out : Forall (wf B) (p_out p);
  tr_right : 0 <= p_right p < p_next p;
}.

Lemma nodes_any B internal specs :
  Forall (node_shape B internal) specs → Forall (λ ns, node_shape B (n_internal ns) ns) specs.
Proof. intros H. eapply Forall_impl; [exact H|]. intros ns Hns. pose proof Hns as (E & _). by rewrite E. Qed.

Lemma level_count B internal n v p : level_ok B internal n v p → (length (p_specs p) <= n)%nat.
Proof. intros L. pose proof (lv_count _ _ _ _ _ L). pose proof (lv_less _ _ _ _ _ L). lia. Qed.

Lemma promote_ok B budget fuel : ∀ p,
  tree_shape B p → (length (p_out p) < fuel)%nat → p_next p + 2 * Z.of_nat (length (p_out p)) <= B →
  ∃ q, promote fuel budget p = Some q ∧ tree_shape B q ∧ p_next q <= p_next p + Z.of_nat (length (p_out p)) ∧
    (body_size true (p_out q) <= budget ∨ p_out q = []).
Proof.
  induction fuel as [|fuel IH]; intros p Hp Hf HB; [lia|]. cbn [promote].
  destruct (_ || _) eqn:Ec.
  { exists p. split_and!; [done|done|lia|]. apply orb_prop in Ec as [E|E]; [left; by apply Z.leb_le|right].
    apply bool_decide_eq_true in E. by destruct (p_out p). }
  apply orb_false_iff in Ec as [_ E]. apply bool_decide_eq_false in E.
  pose proof Hp as [T1 T2 T3 T4 T5].
  destruct (pack_loop_ok B true (p_right p) (S (length (p_out p))) (p_out p) (p_next p)) as (r & Er & L);
    [lia|intros E'; apply E; by rewrite E'|done|lia|lia|lia|].
  unfold pack_level. rewrite Er. cbn [mbind option_bind]. pose proof L as [L1 L2 L3 L4 L5 L6 L7].
  destruct (IH (mkPacked (p_specs p ++ p_specs r) (p_out r) (p_right r) (p_next r))) as (q & Hq & Tq & Bq & Fq);
    cbn [p_specs p_out p_right p_next] in *.
  - constructor; cbn [p_specs p_out p_right p_next].
    + apply Forall_app. split; [done|]. by apply (nodes_any B true).
    + rewrite map_app, T2, L2, length_app, Nat2Z.inj_add, T3. rewrite (seqZ_app 0) by lia. by rewrite Z.add_0_l.
    + rewrite length_app. lia.
    + done.
    + lia.
  - lia.
  - lia.
  - exists q. split_and!; [done|done|lia|done].
Qed.

Lemma tree_built B ins budget :
  ins ≠ [] → Forall (wf B) ins → 3 * Z.of_nat (length ins) <= B →
  ∃ p, build_tree ins budget = Some p ∧ tree_shape B p ∧ p_next p <= Z.of_nat (length ins) ∧
    (body_size true (p_out p) <= budget ∨ p_out p = []).
Proof.
  intros Hne Hins HB. unfold build_tree, pack_level. assert (0 < Z.of_nat (length ins)) by (destruct ins; [done|simpl; lia]).
  destruct (pack_loop_ok B false 0 (S (length ins)) ins 0) as (r & -> & L); [lia|done|done|lia|lia|lia|].
  cbn [mbind option_bind]. pose proof L as [L1 L2 L3 L4 L5 L6 L7]. pose proof (level_count _ _ _ _ _ L).
  destruct (promote_ok B budget (S (length ins)) r) as (q & Hq & Tq & Bq & Fq); [|lia|lia|].
  { constructor; [by apply (nodes_any B false)|done|lia|done|lia]. }
  exists q. split_and!; [done|done|lia|done].
Qed.

End level.

Abbreviation node_wf := (node_shape entry_wf).
Abbreviation tree_ok := (tree_shape entry_wf).

Lemma entry_range B e : entry_wf B e → 0 <= b_sub e < B.
Proof. intros (_ & _ & _ & H). exact H. Qed.

Lemma build_tree_ok B ins budget :
  ins ≠ [] → Forall (entry_wf B) ins → 3 * Z.of_nat (length ins) <= B →
  ∃ p, build_tree ins budget = Some p ∧ tree_ok B p ∧ p_next p <= Z.of_nat (length ins) ∧
    (body_size true (p_out p) <= budget ∨ p_out p = []).
Proof. apply (tree_built entry_wf size_of_two set_sub_wf entry_range). Qed.

(** The nodes by VCN. *)
Definition node_table (specs : list nodespec_t) (v : Z) : option nodespec_t := 
  if v <? 0 then None else specs !! Z.to_nat v.

Lemma node_table_has specs : map n_vcn specs = seqZ 0 (Z.of_nat (length specs)) → has_nodes (node_table specs) specs.
Proof.
  intros H. apply Forall_lookup. intros i ns Hi. assert (n_vcn ns = Z.of_nat i) as ->.
  { apply (f_equal (λ l, l !! i)) in H. rewrite list_lookup_fmap, Hi in H. simpl in H.
    rewrite lookup_seqZ_lt in H by (apply lookup_lt_Some in Hi; lia). injection H as ->. lia. }
  unfold node_table. rewrite (proj2 (Z.ltb_ge _ _)), Nat2Z.id by lia. done.
Qed.
