(* ===== verification/NtfsDir.v ===== *)
(** * A directory index on the disk
      ([src/tools/iso-patch-mac/engine/ntfs.c]: [serialize_body], [emit_indx],
      [collate_filename])

    The bytes of an index block and their reader, the collation of names, and
    the theorem that a driver's descent from the root through the blocks on the
    disk finds every name of the directory. *)

From Stdlib Require Import String Sorted.
From stdpp Require Import sorting.
From S2P Require Import Prelude Bytes WStr BlockIO ImageWrites NtfsCodec NtfsIndex.

(** ** Blocks *)

Definition entry_bytes (internal : bool) (e : bentry_t) : list Z :=
  let elen := size_of internal e in
  let fl := if internal then 1 else 0 in
  let p := replicate (Z.to_nat elen) 0 in
  let p :=
    match b_data e with
    | Some d =>
        let doff := u16 (0x10 + key_len e) in
        let p := w16 (w16 p 0 doff) 2 (data_len e) in
        let p := w16 (w16 (w16 p 8 elen) 0xA (key_len e)) 0xC fl in
        splice (splice p 0x10 (b_key e)) (Z.to_nat doff) d
    | None =>
        let p := w64 p 0 (b_ref e) in
        let p := w16 (w16 (w16 p 8 elen) 0xA (key_len e)) 0xC fl in
        splice p 0x10 (b_key e)
    end in
  if internal then w64 p (elen - 8) (b_sub e) else p.

Definition end_bytes (internal : bool) (end_vcn : Z) : list Z :=
  let elen := end_size internal in
  let p := replicate (Z.to_nat elen) 0 in
  let p := w16 (w16 p 8 elen) 0xC (if internal then 3 else 2) in
  if internal then w64 p (elen - 8) end_vcn else p.

Definition serialize_body (ent : list bentry_t) (internal : bool) (end_vcn : Z) : list Z :=
  concat (map (entry_bytes internal) ent) ++ end_bytes internal end_vcn.

(** The block before its sectors are protected. *)
Definition plain_block (ns : nodespec_t) : list Z :=
  let blk := splice (replicate (Z.to_nat NTFS_INDX_SIZE) 0) 0 (lit "INDX") in
  let blk := w64 (w16 (w16 blk 4 0x28) 6 9) 0x10 (n_vcn ns) in
  let entries_off := 0x28 in
  let bs := serialize_body (n_ent ns) (n_internal ns) (n_end_vcn ns) in
  let blk := splice blk (Z.to_nat (0x18 + entries_off)) bs in
  let blk := w32 (w32 (w32 blk 0x18 entries_off) 0x1C (entries_off + Z.of_nat (length bs))) 0x20 (NTFS_INDX_SIZE - 0x18) in
  splice blk 0x24 [if n_internal ns then 1 else 0].

Definition indx_block (ns : nodespec_t) : list Z := apply_fixup (plain_block ns) 512 (u16 (n_vcn ns + 1)).

(** Where it goes, [base] the first byte of the index's clusters. *)
Definition emit_indx (base : Z) (ns : nodespec_t) : Z * list Z := (base + n_vcn ns * NTFS_INDX_SIZE, indx_block ns).

(** ** Collation *)

(** Unit [i] of the name in a key, and the number of its units. *)
Definition key_unit (key : list Z) (i : Z) : Z := r16 key (0x42 + 2 * i).
Definition key_chars (key : list Z) : Z := u8 (bget key 0x40).

(** [for (i = 0; i < n; i++)] from [i]. *)
Fixpoint collate_loop (upcase : Z → Z) (n : nat) (i : Z) (a b : list Z) : Z :=
  match n with
  | O => 0
  | S n' =>
      let ca := upcase (key_unit a i) in
      let cb := upcase (key_unit b i) in
      if negb (ca =? cb) then (if ca <? cb then -1 else 1) else collate_loop upcase n' (i + 1) a b
  end.

Definition collate_filename (upcase : Z → Z) (a b : list Z) : Z :=
  let la := key_chars a in
  let lb := key_chars b in
  let c := collate_loop upcase (Z.to_nat (if la <? lb then la else lb)) 0 a b in
  if negb (c =? 0) then c else if la =? lb then 0 else if la <? lb then -1 else 1.

(** ** The reader *)

(** The entries up to the END entry, and its child. *)
Fixpoint read_body (fuel : nat) (l : list Z) : option (list bentry_t * Z) :=
  match fuel with
  | O => None
  | S fuel' =>
      let elen := r16 l 8 in
      let klen := r16 l 0xA in
      let fl := r16 l 0xC in
      if (elen <? 0x10) || (Z.of_nat (length l) <? elen) then None else
      let sub_ := if Z.odd fl then r64 l (elen - 8) else 0 in
      if Z.odd (fl / 2) then Some ([], sub_) else
      '(es, e) ← read_body fuel' (drop (Z.to_nat elen) l);
      Some (mkBentry (r64 l 0) (sub l 0x10 (Z.to_nat klen)) sub_ None :: es, e)
  end.

(** A block without its sequence numbers. *)
Definition parse_block (v : Z) (blk : list Z) : option nodespec_t :=
  if negb (r64 blk 0x10 =? v) then None else
  let eo := r32 blk 0x18 in
  let len := r32 blk 0x1C in
  '(es, e) ← read_body (length blk) (sub blk (Z.to_nat (0x18 + eo)) (Z.to_nat (len - eo)));
  Some (mkNode v es (Z.odd (bget blk 0x24)) e).

(** Block [v] of the index. *)
Definition read_node (m : mem) (base v : Z) : option nodespec_t :=
  let raw := mread m (base + v * NTFS_INDX_SIZE) (Z.to_nat NTFS_INDX_SIZE) in
  if bool_decide (sub raw 0 4 = lit "INDX") then blk ← remove_fixup raw 512; parse_block v blk else None.

(** One node's answer: the entry, or the child to descend into. *)
Fixpoint probe (cmp : list Z → list Z → Z) (k : list Z) (ents : list bentry_t) (end_vcn : Z) : Z + Z :=
  match ents with
  | [] => inr end_vcn
  | e :: ents' =>
      let c := cmp k (b_key e) in
      if c =? 0 then inl (b_ref e) else if c <? 0 then inr (b_sub e) else probe cmp k ents' end_vcn
  end.

(** The descent; [None]: a block is damaged or the tree is deeper than [h]. *)
Fixpoint search (h : nat) (read : Z → option nodespec_t) (cmp : list Z → list Z → Z) (k : list Z)
    (internal : bool) (ents : list bentry_t) (end_vcn : Z) : option (option Z) :=
  match probe cmp k ents end_vcn with
  | inl r => Some (Some r)
  | inr v =>
      if negb internal then Some None else
      match h with
      | O => None
      | S h' => ns ← read v; search h' read cmp k (n_internal ns) (n_ent ns) (n_end_vcn ns)
      end
  end.

(** ** Names are totally ordered *)

Fixpoint lexcmp (x y : list Z) : Z :=
  match x, y with
  | [], [] => 0
  | [], _ :: _ => -1
  | _ :: _, [] => 1
  | a :: x', b :: y' => if a =? b then lexcmp x' y' else if a <? b then -1 else 1
  end.

Lemma lexcmp_sym x y : lexcmp y x = - lexcmp x y.
Proof.
  revert y. induction x as [|a x IH]; intros [|b y]; simpl; try done. rewrite Z.eqb_sym.
  destruct (Z.eqb_spec a b) as [->|H]; [apply IH|]. destruct (Z.ltb_spec a b), (Z.ltb_spec b a); lia.
Qed.

Lemma lexcmp_zero x y : lexcmp x y = 0 ↔ x = y.
Proof.
  split; [|intros ->; induction y as [|b y IH]; simpl; [done|by rewrite Z.eqb_refl]].
  revert y. induction x as [|a x IH]; intros [|b y]; simpl; try done.
  destruct (Z.eqb_spec a b) as [->|H]; [intros E; f_equal; by apply IH|]. destruct (a <? b); done.
Qed.

Lemma lexcmp_trans x y z : lexcmp x y < 0 → lexcmp y z < 0 → lexcmp x z < 0.
Proof.
  revert y z. induction x as [|a x IH]; intros [|b y] [|c z]; simpl; try done; try lia.
  intros H1 H2. destruct (Z.eqb_spec a b) as [->|Hab], (Z.eqb_spec b c) as [->|Hbc]; try rewrite Z.eqb_refl in *.
  - by apply (IH y z).
  - by destruct (Z.eqb_spec b c).
  - rewrite (proj2 (Z.eqb_neq a c)) by done. done.
  - destruct (Z.ltb_spec a b), (Z.ltb_spec b c); try lia. rewrite (proj2 (Z.eqb_neq a c)), (proj2 (Z.ltb_lt a c)) by lia. lia.
Qed.

(** The name of a key with its case folded. *)
Definition folded (upcase : Z → Z) (key : list Z) : list Z := map (λ i, upcase (key_unit key i)) (seqZ 0 (key_chars key)).

Lemma collate_loop_lex upcase a b n : ∀ i la lb,
  Z.of_nat n = Z.min la lb - i →
  lexcmp (map (λ i, upcase (key_unit a i)) (seqZ i (la - i))) (map (λ i, upcase (key_unit b i)) (seqZ i (lb - i))) =
  let c := collate_loop upcase n i a b in
  if negb (c =? 0) then c else if la =? lb then 0 else if la <? lb then -1 else 1.
Proof.
  induction n as [|n IH]; intros i la lb Hn.
  - cbn [collate_loop Z.eqb negb]. destruct (Z.lt_trichotomy la lb) as [H|[H|H]].
    + rewrite (seqZ_nil i (la - i)), (seqZ_cons i (lb - i)) by lia. rewrite (proj2 (Z.eqb_neq la lb)), (proj2 (Z.ltb_lt la lb)) by lia. done.
    + rewrite !seqZ_nil by lia. by rewrite (proj2 (Z.eqb_eq la lb)).
    + rewrite (seqZ_nil i (lb - i)), (seqZ_cons i (la - i)) by lia. rewrite (proj2 (Z.eqb_neq la lb)), (proj2 (Z.ltb_ge la lb)) by lia. done.
  - rewrite (seqZ_cons i (la - i)), (seqZ_cons i (lb - i)) by lia. cbn [map lexcmp collate_loop].
    destruct (Z.eqb_spec (upcase (key_unit a i)) (upcase (key_unit b i))) as [E|E]; cbn [negb].
    + replace (Z.pred (la - i)) with (la - (i + 1)) by lia. replace (Z.pred (lb - i)) with (lb - (i + 1)) by lia.
      rewrite <- Z.add_1_r. apply IH. lia.
    + destruct (_ <? _); done.
Qed.

Lemma collate_lex upcase a b : collate_filename upcase a b = lexcmp (folded upcase a) (folded upcase b).
Proof.
  assert (∀ x, 0 <= key_chars x) as H0 by (intros x; apply u8_byte). pose proof (H0 a). pose proof (H0 b).
  unfold collate_filename, folded.
  pose proof (collate_loop_lex upcase a b (Z.to_nat (if key_chars a <? key_chars b then key_chars a else key_chars b)) 0 (key_chars a) (key_chars b)) as E.
  rewrite !Z.sub_0_r in E. rewrite E; [done|]. destruct (Z.ltb_spec (key_chars a) (key_chars b)); lia.
Qed.

(** ** The descent finds what the tree lists *)

Section search.
Context (cmp : list Z → list Z → Z) (f : list Z → list Z) (Hcmp : ∀ x y, cmp x y = lexcmp (f x) (f y)).
Context (nodes read : Z → option nodespec_t) (Hread : ∀ v ns, nodes v = Some ns → read v = Some ns).

Abbreviation item := (Z * list Z * option (list Z))%type.
Definition item_key (p : item) : list Z := snd (fst p).
Definition before (p q : item) : Prop := lexcmp (f (item_key p)) (f (item_key q)) < 0.

(** The first entry of that name. *)
Fixpoint lookup_name (k : list Z) (l : list item) : option Z :=
  match l with
  | [] => None
  | p :: l => if bool_decide (f (item_key p) = f k) then Some (fst (fst p)) else lookup_name k l
  end.

Definition absent (k : list Z) (l : list item) : Prop := Forall (λ p, f (item_key p) ≠ f k) l.

Lemma lookup_absent k l : absent k l → lookup_name k l = None.
Proof using. induction 1 as [|p l Hp Hl IH]; [done|]. cbn [lookup_name]. by rewrite bool_decide_false. Qed.
Lemma lookup_app_r k l1 l2 : absent k l1 → lookup_name k (l1 ++ l2) = lookup_name k l2.
Proof using. induction 1 as [|p l Hp Hl IH]; [done|]. cbn [app lookup_name]. by rewrite bool_decide_false. Qed.
Lemma lookup_app_l k l1 l2 : absent k l2 → lookup_name k (l1 ++ l2) = lookup_name k l1.
Proof using.
  intros H. induction l1 as [|p l1 IH]; [by apply lookup_absent|]. cbn [app lookup_name]. by rewrite IH.
Qed.

Lemma before_trans p q r : before p q → before q r → before p r.
Proof using. apply lexcmp_trans. Qed.

(** What is before a smaller name, or after a greater one, is another name. *)
Lemma absent_before k x l : lexcmp (f k) (f (item_key x)) >= 0 → Forall (λ p, before p x) l → absent k l.
Proof using.
  intros Hk H. eapply Forall_impl; [exact H|]. intros p Hp E. unfold before in Hp. rewrite E in Hp. lia.
Qed.
Lemma absent_after k x l : lexcmp (f k) (f (item_key x)) < 0 → Forall (before x) l → absent k (x :: l).
Proof using.
  intros Hk H. constructor.
  - intros E. rewrite E in Hk. pose proof (proj2 (lexcmp_zero (f k) (f k)) eq_refl). lia.
  - eapply Forall_impl; [exact H|]. intros p Hp E. unfold before in Hp. rewrite E, (lexcmp_sym (f k)) in Hp. lia.
Qed.

Lemma sorted_parts l1 x l2 :
  StronglySorted before (l1 ++ x :: l2) →
  StronglySorted before l1 ∧ Forall (λ p, before p x) l1 ∧ Forall (before x) l2 ∧ StronglySorted before l2.
Proof using.
  intros H. split_and!.
  - by apply StronglySorted_app_1_l in H.
  - apply list.Forall_forall. intros p Hp. eapply StronglySorted_app_1_elem_of; [exact H|done|]. apply list_elem_of_here.
  - apply StronglySorted_app_1_r in H. by inversion H.
  - apply StronglySorted_app_1_r in H. by inversion H.
Qed.

(** The key of an entry, whose name has the place of [item_key] of its payload. *)
Lemma probe_leaf k ents e :
  StronglySorted before (map payload ents) →
  match probe cmp k ents e with
  | inl r => lookup_name k (map payload ents) = Some r
  | inr _ => lookup_name k (map payload ents) = None
  end.
Proof using Hcmp.
  induction ents as [|x ents IH]; intros H; [done|]. cbn [map probe]. rewrite Hcmp. inversion H as [|? ? Hs Hx]; subst.
  destruct (Z.eqb_spec (lexcmp (f k) (f (b_key x))) 0) as [E|E].
  { apply lexcmp_zero in E. cbn [lookup_name]. by rewrite bool_decide_true. }
  destruct (Z.ltb_spec (lexcmp (f k) (f (b_key x))) 0) as [Hlt|Hge].
  - apply lookup_absent. by apply absent_after.
  - cbn [lookup_name]. rewrite bool_decide_false; [by apply IH|]. intros E'. apply E. apply lexcmp_zero. by rewrite <- E'.
Qed.

Lemma search_body h k : ∀ ents e l,
  body nodes h ents e l → StronglySorted before l →
  search h read cmp k (negb (Nat.eqb h 0)) ents e = Some (lookup_name k l).
Proof using Hcmp Hread.
  induction h as [|h IH]; intros ents e l Hb Hs.
  - cbn [body] in Hb. subst l. pose proof (probe_leaf k ents e Hs) as H. cbn [search Nat.eqb negb].
    destruct (probe cmp k ents e); by rewrite H.
  - cbn [body] in Hb. revert l Hb Hs. induction ents as [|x ents IHe]; intros l Hb Hs; cbn [search Nat.eqb negb probe spine] in *.
    + destruct Hb as (ns & Hns & Hint & Hb). rewrite (Hread _ _ Hns). cbn [mbind option_bind]. rewrite Hint. by apply IH.
    + destruct Hb as (l1 & l2 & -> & (ns & Hns & Hint & Hb) & Hsp). apply sorted_parts in Hs as (S1 & S2 & S3 & S4).
      rewrite Hcmp. destruct (Z.eqb_spec (lexcmp (f k) (f (b_key x))) 0) as [E|E].
      { rewrite lookup_app_r by (apply (absent_before k (payload x)); [cbn; lia|done]). apply lexcmp_zero in E.
        cbn [lookup_name]. by rewrite bool_decide_true. }
      destruct (Z.ltb_spec (lexcmp (f k) (f (b_key x))) 0) as [Hlt|Hge].
      * rewrite lookup_app_l by by apply absent_after. rewrite (Hread _ _ Hns). cbn [mbind option_bind]. rewrite Hint. by apply IH.
      * rewrite lookup_app_r by (apply (absent_before k (payload x)); [cbn; lia|done]). cbn [lookup_name].
        rewrite bool_decide_false; [by apply IHe|]. intros E'. apply E. apply lexcmp_zero. by rewrite <- E'.
Qed.
End search.

(** ** A block read back *)

Record entry_layout (internal : bool) (e : bentry_t) (p : list Z) : Prop := {
  el_len : Z.of_nat (length p) = size_of internal e;
  el_ref : r64 p 0 = b_ref e;
  el_size : r16 p 8 = size_of internal e;
  el_klen : r16 p 0xA = key_len e;
  el_flag : r16 p 0xC = if internal then 1 else 0;
  el_key : sub p 0x10 (length (b_key e)) = b_key e;
  el_sub : internal = true → r64 p (size_of internal e - 8) = b_sub e;
}.

Lemma entry_bytes_layout B (internal : bool) e : entry_wf B e → B <= 2 ^ 62 → entry_layout internal e (entry_bytes internal e).
Proof.
  intros He HB. destruct (size_of_wf B internal e He) as [Hs Hm]. pose proof (size_of_two B internal e He) as [H0 H2].
  destruct He as (Hr & Hd & Hk & Hsub). unfold INDX_BODY_CAP, NTFS_INDX_SIZE in H2.
  assert (0 <= end_size internal) by (destruct internal; vm_compute; congruence).
  unfold is_u64 in Hr. unfold entry_bytes. rewrite Hd. remember (size_of internal e) as sz eqn:Esz.
  set (p0 := replicate (Z.to_nat sz) 0). assert (Z.of_nat (length p0) = sz) as E0 by (unfold p0; rewrite length_replicate; lia).
  clearbody p0. assert (Z.of_nat (length (b_key e)) = key_len e) as Ek by done.
  assert (Z.of_nat (length (splice (w16 (w16 (w16 (w64 p0 0 (b_ref e)) 8 sz) 0xA (key_len e)) 0xC (if internal then 1 else 0)) 0x10 (b_key e))) = sz) as E1
    by (unfold w16, w64; rewrite !length_splice; done).
  assert (0 <= key_len e) by (unfold key_len; lia). assert (0 <= (if internal then 8 else 0)) by (destruct internal; lia).
  assert (∀ p, p = splice (w16 (w16 (w16 (w64 p0 0 (b_ref e)) 8 sz) 0xA (key_len e)) 0xC (if internal then 1 else 0)) (Z.to_nat 0x10) (b_key e) →
    r64 p 0 = b_ref e ∧ r16 p 8 = sz ∧ r16 p 0xA = key_len e ∧ r16 p 0xC = (if internal then 1 else 0) ∧
    sub p (Z.to_nat 0x10) (length (b_key e)) = b_key e) as Hp.
  { intros p ->. assert ((if internal then 1 else 0) = 0 ∨ (if internal then 1 else 0) = 1) by (destruct internal; auto).
    split_and!; skip_fields; this_field; try done; apply le_val_le_bytes_small;
      [change (256 ^ Z.of_nat 8) with 18446744073709551616|change (256 ^ Z.of_nat 2) with 65536..]; lia. }
  destruct (Hp _ eq_refl) as (P1 & P2 & P3 & P4 & P5). change (Z.to_nat 0x10) with 16%nat in *.
  set (p := splice _ 16 (b_key e)) in *. clearbody p. destruct internal; [|by constructor; rewrite <- ?Esz].
  assert (Z.of_nat (length p) = sz) as Elp by done.
  constructor; rewrite <- ?Esz; unfold w64; [by rewrite length_splice| | | | | |].
  - rewrite <- P1. by skip_fields.
  - rewrite <- P2 at 2. by skip_fields.
  - rewrite <- P3. by skip_fields.
  - rewrite <- P4. by skip_fields.
  - rewrite <- P5 at 2. change 16%nat with (Z.to_nat 0x10). by skip_fields.
  - intros _. skip_fields. this_field. apply le_val_le_bytes_small. change (256 ^ Z.of_nat 8) with 18446744073709551616. lia.
Qed.

(** What a reader sees of an entry. *)
Definition norm (internal : bool) (e : bentry_t) : bentry_t := if internal then e else set_sub e 0.

Lemma read_body_entry B (internal : bool) e rest fuel :
  entry_wf B e → B <= 2 ^ 62 →
  read_body (S fuel) (entry_bytes internal e ++ rest) =
  '(es, v) ← read_body fuel rest; Some (norm internal e :: es, v).
Proof.
  intros He HB. pose proof (entry_bytes_layout B internal e He HB) as L.
  destruct (size_of_wf B internal e He) as [Hs Hm]. pose proof (size_of_two B internal e He) as [H0 H2].
  destruct L as [L1 L2 L3 L4 L5 L6 L7]. set (p := entry_bytes internal e) in *. clearbody p.
  set (sz := size_of internal e) in *. assert (0 <= key_len e) by (unfold key_len; lia).
  assert (0 <= (if internal then 8 else 0)) by (destruct internal; lia).
  assert (∀ o, 0 <= o → o + 2 <= sz → r16 (p ++ rest) o = r16 p o) as R16 by (intros o Ho1 Ho2; unfold r16; rewrite sub_app_in by lia; done).
  assert (∀ o, 0 <= o → o + 8 <= sz → r64 (p ++ rest) o = r64 p o) as R64 by (intros o Ho1 Ho2; unfold r64; rewrite sub_app_in by lia; done).
  cbn [read_body]. rewrite !R16, L3, L4, L5 by lia.
  rewrite (proj2 (Z.ltb_ge sz 0x10)), (proj2 (Z.ltb_ge _ sz)) by (rewrite ?length_app; lia). cbn [orb].
  rewrite (R64 0), L2 by lia.
  assert ((if Z.odd (if internal then 1 else 0) then r64 (p ++ rest) (sz - 8) else 0) = b_sub (norm internal e)) as ->.
  { destruct internal; [|done]. cbn [Z.odd norm]. rewrite R64, L7 by lia. done. }
  assert (Z.odd ((if internal then 1 else 0) / 2) = false) as -> by (destruct internal; done).
  assert (sub (p ++ rest) 0x10 (Z.to_nat (key_len e)) = b_key e) as ->.
  { unfold key_len. rewrite Nat2Z.id, sub_app_in; [done|]. unfold key_len in *. lia. }
  assert (drop (Z.to_nat sz) (p ++ rest) = rest) as -> by (apply drop_app_length'; lia).
  destruct (read_body fuel rest) as [[es v]|]; [|done]. cbn [mbind option_bind]. do 3 f_equal.
  destruct He as (_ & Hd & _). destruct e as [r k s d]. cbn in Hd. subst d. by destruct internal.
Qed.

Lemma read_body_end (internal : bool) v rest fuel :
  is_u64 v → read_body (S fuel) (end_bytes internal v ++ rest) = Some ([], if internal then v else 0).
Proof.
  intros Hv. unfold is_u64 in Hv. destruct internal.
  - unfold end_bytes. change (end_size true) with 24. set (p := w64 _ (24 - 8) v).
    assert (length p = 24%nat) as El by reflexivity.
    assert (r16 p 8 = 24 ∧ r16 p 0xC = 3 ∧ r64 p 16 = v) as (E1 & E2 & E3).
    { unfold p. split_and!; skip_fields; this_field; try reflexivity.
      apply le_val_le_bytes_small. change (256 ^ Z.of_nat 8) with 18446744073709551616. lia. }
    clearbody p. cbn [read_body]. unfold r16, r64 in *. rewrite !sub_app_in by lia. rewrite E1, E2.
    rewrite (proj2 (Z.ltb_ge (Z.of_nat _) 24)) by (rewrite length_app; lia). cbn [Z.ltb Z.compare orb Z.odd].
    change (24 - 8) with 16. by rewrite E3.
  - set (p := end_bytes false v). assert (length p = 16%nat) as El by reflexivity.
    assert (r16 p 8 = 16 ∧ r16 p 0xC = 2) as (E1 & E2) by (split; reflexivity).
    clearbody p. cbn [read_body]. unfold r16 in *. rewrite !sub_app_in by lia. rewrite E1, E2.
    rewrite (proj2 (Z.ltb_ge (Z.of_nat _) 16)) by (rewrite length_app; lia). reflexivity.
Qed.

Lemma read_serialized B (internal : bool) ents v rest fuel :
  Forall (entry_wf B) ents → B <= 2 ^ 62 → is_u64 v → (length ents < fuel)%nat →
  read_body fuel (serialize_body ents internal v ++ rest) = Some (map (norm internal) ents, if internal then v else 0).
Proof.
  intros He HB Hv. unfold serialize_body. revert fuel. induction He as [|e ents He Hes IH]; intros [|fuel] Hf; cbn [length] in Hf; try lia.
  - by apply read_body_end.
  - cbn [map concat]. rewrite <- !app_assoc. rewrite (read_body_entry B) by done. rewrite app_assoc. rewrite IH by lia. done.
Qed.

Lemma length_serialize B (internal : bool) ents v :
  Forall (entry_wf B) ents → B <= 2 ^ 62 → Z.of_nat (length (serialize_body ents internal v)) = body_size internal ents.
Proof.
  intros He HB. unfold serialize_body, body_size. rewrite length_app.
  assert (Z.of_nat (length (end_bytes internal v)) = end_size internal) as E1
    by (unfold end_bytes, w16, w64; destruct internal; rewrite ?length_splice, length_replicate; reflexivity).
  assert (Z.of_nat (length (concat (map (entry_bytes internal) ents))) = sizes internal ents); [|lia].
  induction He as [|e ents He Hes IH]; [done|]. cbn [map concat sizes foldr]. rewrite length_app.
  pose proof (el_len _ _ _ (entry_bytes_layout B internal e He HB)). unfold sizes in *. lia.
Qed.

(** The node a reader sees. *)
Definition norm_node (ns : nodespec_t) : nodespec_t :=
  mkNode (n_vcn ns) (map (norm (n_internal ns)) (n_ent ns)) (n_internal ns) (if n_internal ns then n_end_vcn ns else 0).

Record block_layout (ns : nodespec_t) (blk : list Z) : Prop := {
  bl_len : Z.of_nat (length blk) = NTFS_INDX_SIZE;
  bl_sig : sub blk (Z.to_nat 0) 4 = lit "INDX";
  bl_usa : r16 blk 4 = 0x28 ∧ r16 blk 6 = 9;
  bl_vcn : r64 blk 0x10 = n_vcn ns;
  bl_eo : r32 blk 0x18 = 0x28;
  bl_il : r32 blk 0x1C = 0x28 + body_size (n_internal ns) (n_ent ns);
  bl_flag : sub blk (Z.to_nat 0x24) 1 = [if n_internal ns then 1 else 0];
  bl_body : sub blk (Z.to_nat 0x40) (Z.to_nat (body_size (n_internal ns) (n_ent ns))) =
    serialize_body (n_ent ns) (n_internal ns) (n_end_vcn ns);
}.

Lemma plain_block_layout B ns :
  node_wf B (n_internal ns) ns → B <= 2 ^ 62 → 0 <= n_vcn ns < B → block_layout ns (plain_block ns).
Proof.
  intros (_ & Hne & He & Hend & Hs) HB Hv. pose proof (length_serialize B (n_internal ns) (n_ent ns) (n_end_vcn ns) He HB) as Hl.
  unfold plain_block. remember (serialize_body (n_ent ns) (n_internal ns) (n_end_vcn ns)) as bs eqn:Ebs. unfold INDX_BODY_CAP, NTFS_INDX_SIZE in *.
  set (p0 := replicate (Z.to_nat 4096) 0). assert (length p0 = 4096%nat) as E0 by (unfold p0; apply length_replicate). clearbody p0.
  change (splice p0 0 (lit "INDX")) with (splice p0 (Z.to_nat 0) (lit "INDX")).
  match goal with |- block_layout _ (splice ?l 0x24 ?x) => change (splice l 0x24 x) with (splice l (Z.to_nat 0x24) x) end.
  assert (length (lit "INDX") = 4%nat) as E4 by reflexivity.
  constructor.
  - unfold w16, w32, w64. rewrite !length_splice. unfold NTFS_INDX_SIZE. lia.
  - unfold w16, w32, w64. repeat (rewrite sub_splice_z by (rewrite ?length_splice, ?length_le_bytes, ?E4; cbn [length]; lia)).
    apply sub_splice_eq_z; rewrite ?E4; lia.
  - split; skip_fields; this_field; reflexivity.
  - skip_fields. this_field. apply le_val_le_bytes_small. change (256 ^ Z.of_nat 8) with 18446744073709551616. lia.
  - skip_fields. this_field. reflexivity.
  - skip_fields. this_field. rewrite Hl. apply le_val_le_bytes_small. change (256 ^ Z.of_nat 4) with 4294967296. lia.
  - apply sub_splice_eq_z; [lia|unfold w16, w32, w64; rewrite !length_splice; cbn [length]; lia|done].
  - rewrite <- Hl, Nat2Z.id. skip_fields. change (Z.to_nat (0x18 + 0x28)) with (Z.to_nat 0x40). this_field. exact Ebs.
Qed.

Lemma sizes_count B (internal : bool) ents : Forall (entry_wf B) ents → 8 * Z.of_nat (length ents) <= sizes internal ents.
Proof.
  induction 1 as [|e es He Hes IH]; [done|]. cbn [length sizes foldr]. unfold sizes in *.
  destruct (size_of_wf B internal e He) as [H1 _]. unfold key_len in H1. destruct internal; lia.
Qed.

(** The fields of a block, wherever its protected bytes are. *)
Lemma parse_block_ok B ns r :
  node_wf B (n_internal ns) ns → B <= 2 ^ 62 → Z.of_nat (length r) = NTFS_INDX_SIZE →
  r64 r 0x10 = n_vcn ns → r32 r 0x18 = 0x28 → r32 r 0x1C = 0x28 + body_size (n_internal ns) (n_ent ns) →
  sub r (Z.to_nat 0x24) 1 = [if n_internal ns then 1 else 0] →
  sub r (Z.to_nat 0x40) (Z.to_nat (body_size (n_internal ns) (n_ent ns))) = serialize_body (n_ent ns) (n_internal ns) (n_end_vcn ns) →
  parse_block (n_vcn ns) r = Some (norm_node ns).
Proof.
  intros (_ & Hne & He & Hend & Hs) HB Hl H1 H2 H3 H4 H5. unfold parse_block. rewrite H1, H2, H3, Z.eqb_refl. cbn [negb].
  unfold INDX_BODY_CAP, NTFS_INDX_SIZE in *. pose proof (sizes_count B (n_internal ns) _ He) as Hc.
  assert (0 <= end_size (n_internal ns)) by (destruct (n_internal ns); vm_compute; congruence).
  set (bsz := body_size (n_internal ns) (n_ent ns)) in *. replace (0x28 + bsz - 0x28) with bsz by lia.
  change (0x18 + 0x28) with 0x40. rewrite H5, (bget_sub1 r 0x24 _ ltac:(lia) H4).
  rewrite <- (app_nil_r (serialize_body _ _ _)). rewrite (read_serialized B); [|done|done|unfold is_u64; lia|unfold bsz, body_size in Hs; lia].
  unfold norm_node. by destruct (n_internal ns).
Qed.

(** Reading back the block at its place. *)
Lemma read_node_indx B m base ns :
  node_wf B (n_internal ns) ns → B <= 2 ^ 62 → 0 <= n_vcn ns < B →
  mread m (base + n_vcn ns * NTFS_INDX_SIZE) (Z.to_nat NTFS_INDX_SIZE) = indx_block ns →
  read_node m base (n_vcn ns) = Some (norm_node ns).
Proof.
  intros Hw HB Hv Hm. destruct (plain_block_layout B ns Hw HB Hv) as [L1 L2 [L3 L4] L5 L6 L7 L8 L9].
  unfold read_node. rewrite Hm. unfold indx_block. set (blk := plain_block ns) in *. clearbody blk.
  assert (fixable blk 512) as Hfix by (unfold fixable; rewrite L3, L4, L1; unfold NTFS_INDX_SIZE; lia).
  destruct (apply_fixup_head blk 512 (u16 (n_vcn ns + 1)) 0 4 Hfix) as [Hh _]; [lia|rewrite L3; lia|].
  destruct (fixup_roundtrip blk 512 (u16 (n_vcn ns + 1)) Hfix) as (r & -> & Hlr & Hr).
  change (sub ?x 0 4) with (sub x (Z.to_nat 0) 4). rewrite Hh, L2. rewrite bool_decide_true by done. cbn [mbind option_bind].
  rewrite L3, L4 in Hr. pose proof Hw as (_ & _ & _ & _ & Hs). unfold INDX_BODY_CAP, NTFS_INDX_SIZE in Hs.
  apply (parse_block_ok B); [exact Hw|exact HB|rewrite Hlr; exact L1| | | | |]; unfold r64, r32 in *.
  - by rewrite Hr by lia.
  - by rewrite Hr by lia.
  - by rewrite Hr by lia.
  - by rewrite Hr by lia.
  - by rewrite Hr by lia.
Qed.

(** ** All the blocks of an index *)

Lemma length_indx_block B ns :
  node_wf B (n_internal ns) ns → B <= 2 ^ 62 → 0 <= n_vcn ns < B → Z.of_nat (length (indx_block ns)) = NTFS_INDX_SIZE.
Proof.
  intros Hw HB Hv. destruct (plain_block_layout B ns Hw HB Hv) as [L1 _ [L3 L4] _ _ _ _ _].
  unfold indx_block. rewrite <- L1. f_equal.
  apply (apply_fixup_head _ _ _ 0 0); [unfold fixable; rewrite L3, L4, L1; unfold NTFS_INDX_SIZE; lia|lia|rewrite L3; lia].
Qed.

Section blocks.
Context (B : Z) (HB : B <= 2 ^ 62) (specs : list nodespec_t).
Context (Hwf : Forall (λ ns, node_wf B (n_internal ns) ns) specs).
Context (Hvcn : map n_vcn specs = seqZ 0 (Z.of_nat (length specs))) (Hlen : Z.of_nat (length specs) <= B).

Lemma spec_vcn i ns : specs !! i = Some ns → n_vcn ns = Z.of_nat i.
Proof using Hvcn.
  intros Hi. pose proof (f_equal (λ l, l !! i) Hvcn) as H. cbv beta in H. rewrite list_lookup_fmap, Hi in H.
  rewrite lookup_seqZ_lt in H by (apply lookup_lt_Some in Hi; lia). simpl in H. injection H as ->. lia.
Qed.

Lemma spec_block i ns :
  specs !! i = Some ns → node_wf B (n_internal ns) ns ∧ 0 <= n_vcn ns < B ∧ Z.of_nat (length (indx_block ns)) = NTFS_INDX_SIZE.
Proof using All.
  intros Hi. pose proof (Forall_lookup_1 _ _ _ _ Hwf Hi) as Hw. pose proof (spec_vcn i ns Hi) as E.
  apply lookup_lt_Some in Hi. split_and!; [exact Hw|lia|lia|]. apply (length_indx_block B); [exact Hw|done|lia].
Qed.

Lemma emit_fit base : 0 <= base → base + Z.of_nat (length specs) * NTFS_INDX_SIZE <= OFF_MAX → writes_fit (map (emit_indx base) specs).
Proof using All.
  intros Hb Ho. apply Forall_map, Forall_lookup. intros i ns Hi. destruct (spec_block i ns Hi) as (_ & _ & El).
  cbn [emit_indx fst snd]. pose proof (spec_vcn i ns Hi) as E.
  apply lookup_lt_Some in Hi. unfold NTFS_INDX_SIZE in *. rewrite El, E. lia.
Qed.

Lemma emit_len base : writes_len (map (emit_indx base) specs) = Z.of_nat (length specs) * NTFS_INDX_SIZE.
Proof using All.
  assert (∀ l, Forall (λ ns, Z.of_nat (length (indx_block ns)) = NTFS_INDX_SIZE) l →
    writes_len (map (emit_indx base) l) = Z.of_nat (length l) * NTFS_INDX_SIZE) as H.
  { induction 1 as [|ns l E _ IH]; [done|]. cbn [map writes_len foldr emit_indx snd length]. unfold writes_len in IH. rewrite IH, E. lia. }
  apply H. apply Forall_lookup. intros i ns Hi. by destruct (spec_block i ns Hi) as (_ & _ & ?).
Qed.

Lemma emitted_block m base i ns :
  specs !! i = Some ns →
  mread (apply_writes m (map (emit_indx base) specs)) (base + n_vcn ns * NTFS_INDX_SIZE) (Z.to_nat NTFS_INDX_SIZE) = indx_block ns.
Proof using All.
  intros Hi. destruct (spec_block i ns Hi) as (_ & _ & El). pose proof (spec_vcn i ns Hi) as Ev.
  rewrite <- (take_drop_middle specs i ns Hi), map_app, apply_writes_app. cbn [map].
  change (emit_indx base ns :: map (emit_indx base) (drop (S i) specs)) with ([emit_indx base ns] ++ map (emit_indx base) (drop (S i) specs)).
  rewrite apply_writes_app, apply_writes_avoids.
  - unfold apply_writes at 1. cbn [fold_left emit_indx fst snd]. apply mread_mwrite_at. lia.
  - apply Forall_map, Forall_lookup. intros j ns' Hj. rewrite lookup_drop in Hj. destruct (spec_block _ ns' Hj) as (_ & _ & El').
    pose proof (spec_vcn _ ns' Hj) as Ev'. cbn [emit_indx fst snd]. rewrite El', Ev, Ev'. unfold NTFS_INDX_SIZE. lia.
Qed.

Lemma emitted_nodes m m' base v ns :
  m' ≡m apply_writes m (map (emit_indx base) specs) → norm_node <$> node_table specs v = Some ns → read_node m' base v = Some ns.
Proof using All.
  intros Hm Hv. apply fmap_Some in Hv as (ns0 & Hv & ->). unfold node_table in Hv. destruct (Z.ltb_spec v 0); [done|].
  destruct (spec_block _ ns0 Hv) as (Hw & Hr & _). pose proof (spec_vcn _ ns0 Hv) as Ev. rewrite Z2Nat.id in Ev by done. rewrite <- Ev.
  apply (read_node_indx B); [exact Hw|done|done|]. rewrite <- (emitted_block m base _ ns0 Hv). apply mread_ext. intros x _. apply Hm.
Qed.
End blocks.

(** Normalising the nodes changes nothing that is listed. *)
Lemma body_norm nodes h : ∀ ents e l,
  body nodes h ents e l →
  body (λ v, norm_node <$> nodes v) h (map (norm (negb (Nat.eqb h 0))) ents) (if negb (Nat.eqb h 0) then e else 0) l.
Proof.
  induction h as [|h IH]; intros ents e l Hb; cbn [body Nat.eqb negb] in *.
  - subst l. rewrite map_map. apply map_ext. by intros [].
  - revert l Hb. induction ents as [|x ents IHe]; intros l Hb; cbn [map spine] in *.
    + destruct Hb as (ns & Hns & Hint & Hb). exists (norm_node ns). rewrite Hns. split; [done|]. split; [done|].
      cbn [norm_node n_ent n_end_vcn]. rewrite Hint. by apply IH.
    + destruct Hb as (l1 & l2 & -> & (ns & Hns & Hint & Hb) & Hsp). exists l1, l2. split; [done|]. split; [|by apply IHe].
      exists (norm_node ns). cbn [norm b_sub]. rewrite Hns. split; [done|]. split; [done|].
      cbn [norm_node n_ent n_end_vcn]. rewrite Hint. by apply IH.
Qed.

Lemma map_norm_internal ents : map (norm true) ents = ents.
Proof. induction ents as [|e ents IH]; [done|]. cbn [map]. by rewrite IH. Qed.
