(* ===== verification/NtfsRecord.v ===== *)
(** * File records of an NTFS volume ([src/tools/iso-patch-mac/engine/ntfs.c]:
      [rec_new], [attr_resident], [attr_insert_filename], [attr_nonres],
      [rec_finalize], [put_record])

    A record is 1024 bytes: a header, attributes one after the other, an end
    mark.  Here: the code on its buffer, the reader of the format, and the proof
    that a record reads back as the list of the attributes the writer was given,
    those refused for lack of room left out. *)

From Stdlib Require Import String Sorted.
From S2P Require Import Prelude Bytes WStr NtfsCodec.

Definition NTFS_SECTOR : Z := 512.
Definition NTFS_MFT_RECSZ : Z := 1024.
Definition NTFS_AT_STANDARD_INFORMATION : Z := 0x10.
Definition NTFS_AT_ATTRIBUTE_LIST : Z := 0x20.
Definition NTFS_AT_FILE_NAME : Z := 0x30.
Definition NTFS_AT_DATA : Z := 0x80.
Definition NTFS_AT_INDEX_ROOT : Z := 0x90.
Definition NTFS_AT_INDEX_ALLOCATION : Z := 0xA0.
Definition NTFS_AT_BITMAP : Z := 0xB0.
Definition NTFS_AT_REPARSE_POINT : Z := 0xC0.
Definition NTFS_AT_END : Z := 0xFFFFFFFF.
Definition NTFS_FR_IN_USE : Z := 0x0001.
Definition NTFS_FR_DIRECTORY : Z := 0x0002.

(** A child of a directory: its reference and [$FILE_NAME] key. *)
Record idx_entry_t := mkIdx { x_ref : Z; x_key : list Z }.

Record mftrec_t := mkRec {
  r_buf : list Z; r_used : Z; r_attr_id : Z; r_seq : Z; r_flags : Z; r_link_count : Z; r_is_dir : bool;
  r_entries : list idx_entry_t; r_reparse : option (list Z); r_ov : list (list Z); r_base_ref : Z }.

(** The buffer, its use and the next identifier; the rest stays. *)
Definition set_attrs (r : mftrec_t) (buf : list Z) (used attr_id : Z) : mftrec_t :=
  mkRec buf used attr_id (r_seq r) (r_flags r) (r_link_count r) (r_is_dir r) (r_entries r) (r_reparse r) (r_ov r) (r_base_ref r).

(** [p[off] = v] *)
Definition w8 (p : list Z) (off v : Z) : list Z := splice p (Z.to_nat off) [u8 v].

(** A [uint16_t] array copied with [memcpy]. *)
Definition unit_bytes (name : list Z) : list Z := concat (map (le_bytes 2) name).

(** ** The writer *)

Definition rec_new (recno : Z) (is_dir : bool) : mftrec_t :=
  let seq := if (1 <=? recno) && (recno <=? 23) then u16 recno else 1 in
  let flags := Z.lor NTFS_FR_IN_USE (if is_dir then NTFS_FR_DIRECTORY else 0) in
  let b := splice (replicate (Z.to_nat NTFS_MFT_RECSZ) 0) (Z.to_nat 0) (lit "FILE") in
  let b := w64 (w16 (w16 b 4 0x30) 6 3) 8 0 in
  let b := w16 (w16 (w16 (w16 b 0x10 seq) 0x12 1) 0x14 0x38) 0x16 flags in
  let b := w64 (w32 b 0x1C NTFS_MFT_RECSZ) 0x20 0 in
  let b := w32 (w16 b 0x28 0) 0x2C recno in
  mkRec b 0x38 0 seq flags 1 is_dir [] None [] 0.

(** The bytes of a resident attribute. *)
Definition resident_bytes (type : Z) (name val : list Z) (indexed id : Z) : list Z :=
  let name_off := 0x18 in
  let val_off := align8u (name_off + 2 * Z.of_nat (length name)) in
  let total := align8u (val_off + Z.of_nat (length val)) in
  let a := w32 (w32 (replicate (Z.to_nat total) 0) 0 type) 4 total in
  let a := w16 (w8 (w8 a 8 0) 9 (Z.of_nat (length name))) 0xA name_off in
  let a := w16 (w32 (w16 a 0xE id) 0x10 (Z.of_nat (length val))) 0x14 val_off in
  let a := w8 a 0x16 (Z.lor indexed (if type =? 0x30 then 1 else 0)) in
  splice (splice a (Z.to_nat name_off) (unit_bytes name)) (Z.to_nat val_off) val.

(** [None] is the result -1; the record is then as it was. *)
Definition attr_resident (r : mftrec_t) (type : Z) (name val : list Z) (indexed : Z) : option mftrec_t :=
  let off := r_used r in
  let val_off := align8u (0x18 + 2 * Z.of_nat (length name)) in
  let total := align8u (val_off + Z.of_nat (length val)) in
  if NTFS_MFT_RECSZ <? u32 (off + total + 8) then None else
  Some (set_attrs r (splice (r_buf r) (Z.to_nat off) (resident_bytes type name val indexed (r_attr_id r)))
          (off + total) (u16 (r_attr_id r + 1))).

(** [while (p < r->used)]: the first attribute after the names. *)
Fixpoint insert_point (fuel : nat) (buf : list Z) (used p : Z) : Z :=
  match fuel with
  | O => p
  | S fuel' =>
      if negb (p <? used) then p else
      let t := r32 buf p in
      if (t =? 0xFFFFFFFF) || (0x30 <? t) then p else
      let l := r32 buf (p + 4) in
      if l =? 0 then p else insert_point fuel' buf used (u32 (p + l))
  end.

Definition attr_insert_filename (r : mftrec_t) (fn : list Z) : option mftrec_t :=
  let val_off := 0x18 in
  let total := align8u (val_off + Z.of_nat (length fn)) in
  if NTFS_MFT_RECSZ <? u32 (r_used r + total + 8) then None else
  let p := insert_point (length (r_buf r)) (r_buf r) (r_used r) 0x38 in
  let buf := splice (r_buf r) (Z.to_nat (p + total)) (sub (r_buf r) (Z.to_nat p) (Z.to_nat (r_used r - p))) in
  let a := w32 (w32 (replicate (Z.to_nat total) 0) 0 NTFS_AT_FILE_NAME) 4 total in
  let a := w16 (w8 (w8 a 8 0) 9 0) 0xA val_off in
  let a := w8 (w16 (w32 (w16 a 0xE (r_attr_id r)) 0x10 (Z.of_nat (length fn))) 0x14 val_off) 0x16 1 in
  Some (set_attrs r (splice buf (Z.to_nat p) (splice a (Z.to_nat val_off) fn)) (r_used r + total) (u16 (r_attr_id r + 1))).

(** The bytes of a non-resident attribute of one run. *)
Definition nonres_bytes (type : Z) (name : list Z) (first_lcn nclusters cluster_size data_size init_size attr_flags id : Z) : list Z :=
  let name_off := 0x40 in
  let mp_off := align8u (name_off + 2 * Z.of_nat (length name)) in
  let run := enc_single_run nclusters first_lcn in
  let total := align8u (mp_off + Z.of_nat (length run)) in
  let a := w32 (w32 (replicate (Z.to_nat total) 0) 0 type) 4 total in
  let a := w16 (w8 (w8 a 8 1) 9 (Z.of_nat (length name))) 0xA name_off in
  let a := w64 (w16 (w16 a 0xC attr_flags) 0xE id) 0x10 0 in
  let a := w8 (w16 (w64 a 0x18 (if nclusters =? 0 then 0 else nclusters - 1)) 0x20 mp_off) 0x22 0 in
  let a := w64 (w64 (w64 a 0x28 (u64 (nclusters * cluster_size))) 0x30 data_size) 0x38 init_size in
  splice (splice a (Z.to_nat name_off) (unit_bytes name)) (Z.to_nat mp_off) run.

Definition attr_nonres (r : mftrec_t) (type : Z) (name : list Z) (first_lcn nclusters cluster_size data_size init_size attr_flags : Z) : option mftrec_t :=
  let off := r_used r in
  let mp_off := align8u (0x40 + 2 * Z.of_nat (length name)) in
  let total := align8u (mp_off + Z.of_nat (length (enc_single_run nclusters first_lcn))) in
  if NTFS_MFT_RECSZ <? u32 (off + total + 8) then None else
  Some (set_attrs r (splice (r_buf r) (Z.to_nat off)
            (nonres_bytes type name first_lcn nclusters cluster_size data_size init_size attr_flags (r_attr_id r)))
          (off + total) (u16 (r_attr_id r + 1))).

Definition rec_finalize (r : mftrec_t) : mftrec_t :=
  let b := w32 (r_buf r) (r_used r) NTFS_AT_END in
  let in_use := align8u (r_used r + 4) in
  let b := w16 (w16 (w32 b 0x18 in_use) 0x16 (r_flags r)) 0x12 (r_link_count r) in
  let b := w64 (w16 b 0x28 (r_attr_id r)) 0x20 (r_base_ref r) in
  set_attrs r b (r_used r) (r_attr_id r).

(** What [put_record] writes at the record's place in the table. *)
Definition put_bytes (recno : Z) (r : mftrec_t) : list Z :=
  apply_fixup (r_buf (rec_finalize r)) NTFS_SECTOR (u16 (recno + 1)).

(** ** The reader *)

Inductive attr_body :=
  | Resident (val : list Z) (indexed : Z)
  | Nonres (lcn count alloc data init flags : Z).

Record attr := mkAttr { a_type : Z; a_name : list Z; a_id : Z; a_body : attr_body }.

(** One attribute from exactly its bytes. *)
Definition read_attr (l : list Z) : option attr :=
  let noff := r16 l 0xA in
  let name := map (λ i, r16 l (noff + 2 * i)) (seqZ 0 (bget l 9)) in
  let mk := mkAttr (r32 l 0) name (r16 l 0xE) in
  if bget l 8 =? 0 then
    let vlen := r32 l 0x10 in
    let voff := r16 l 0x14 in
    if Z.of_nat (length l) <? voff + vlen then None else
    Some (mk (Resident (sub l (Z.to_nat voff) (Z.to_nat vlen)) (bget l 0x16)))
  else
    runs ← decode_runs 2 0 (drop (Z.to_nat (r16 l 0x20)) l);
    match runs with
    | [(count, lcn)] =>
        if (r64 l 0x10 =? 0) && (r64 l 0x18 =? count - 1)
        then Some (mk (Nonres lcn count (r64 l 0x28) (r64 l 0x30) (r64 l 0x38) (r16 l 0xC))) else None
    | _ => None
    end.

(** The attributes up to the end mark. *)
Fixpoint read_attrs (fuel : nat) (l : list Z) : option (list attr) :=
  match fuel with
  | O => None
  | S fuel' =>
      if r32 l 0 =? NTFS_AT_END then Some [] else
      let len := r32 l 4 in
      if (len <? 0x18) || (Z.of_nat (length l) <? len) then None else
      a ← read_attr (take (Z.to_nat len) l);
      al ← read_attrs fuel' (drop (Z.to_nat len) l);
      Some (a :: al)
  end.

Record filerec := mkFile {
  f_seq : Z; f_links : Z; f_flags : Z; f_base : Z; f_next_id : Z; f_recno : Z; f_attrs : list attr }.

Definition read_filerec (raw : list Z) : option filerec :=
  if bool_decide (sub raw (Z.to_nat 0) 4 = lit "FILE") then
    blk ← remove_fixup raw NTFS_SECTOR;
    let first := r16 blk 0x14 in
    al ← read_attrs (length blk) (sub blk (Z.to_nat first) (Z.to_nat (r32 blk 0x18 - first)));
    Some (mkFile (r16 blk 0x10) (r16 blk 0x12) (r16 blk 0x16) (r64 blk 0x20) (r16 blk 0x28) (r32 blk 0x2C) al)
  else None.

(** ** An attribute reads back *)

Definition is_u16 (z : Z) : Prop := 0 <= z < 65536.

Lemma length_unit_bytes name : length (unit_bytes name) = (2 * length name)%nat.
Proof. unfold unit_bytes. induction name as [|u l IH]; [done|]. cbn [map concat]. rewrite length_app, length_le_bytes, IH. simpl. lia. Qed.

Lemma name_unit_at name : ∀ i u, name !! i = Some u → sub (unit_bytes name) (2 * i) 2 = le_bytes 2 u.
Proof.
  induction name as [|v l IH]; intros [|i] u H; try done.
  - injection H as ->. unfold unit_bytes. cbn [map concat]. unfold sub. by rewrite drop_0, take_app_le.
  - cbn in H. rewrite <- (IH i u H). unfold unit_bytes, sub. cbn [map concat].
    replace (2 * S i)%nat with (length (le_bytes 2 v) + 2 * i)%nat by (rewrite length_le_bytes; lia).
    by rewrite <- drop_drop, drop_app_length.
Qed.

(** The units of a name, wherever it lies. *)
Lemma units_read l o name :
  0 <= o → Forall is_u16 name → sub l (Z.to_nat o) (2 * length name) = unit_bytes name →
  map (λ i, r16 l (o + 2 * i)) (seqZ 0 (Z.of_nat (length name))) = name.
Proof.
  intros Ho Hn Hs. apply list_eq. intros i. rewrite list_lookup_fmap. destruct (Nat.lt_ge_cases i (length name)) as [H|H].
  - rewrite lookup_seqZ_lt by lia. cbn [fmap option_fmap option_map]. destruct (lookup_lt_is_Some_2 name i H) as [u Hu].
    rewrite Hu. f_equal. unfold r16. replace (Z.to_nat (o + 2 * (0 + Z.of_nat i))) with (Z.to_nat o + 2 * i)%nat by lia.
    rewrite <- (sub_sub l (Z.to_nat o) (2 * length name)) by lia. rewrite Hs, (name_unit_at name i u Hu).
    apply le_val_le_bytes_small. pose proof (Forall_lookup_1 _ _ _ _ Hn Hu) as Hr. unfold is_u16 in Hr. change (256 ^ Z.of_nat 2) with 65536. lia.
  - rewrite lookup_seqZ_ge by lia. by rewrite (lookup_ge_None_2 name).
Qed.

(** [bs] is an encoding of [a]. *)
Record encodes (a : attr) (bs : list Z) : Prop := {
  en_len : 0x18 <= Z.of_nat (length bs) <= 65536;
  en_mod : Z.of_nat (length bs) mod 8 = 0;
  en_type : r32 bs 0 = a_type a;
  en_size : r32 bs 4 = Z.of_nat (length bs);
  en_read : read_attr bs = Some a;
  en_live : a_type a ≠ NTFS_AT_END;
}.

Definition name_ok (type : Z) (name : list Z) (id : Z) : Prop :=
  is_u32 type ∧ type ≠ NTFS_AT_END ∧ Forall is_u16 name ∧ Z.of_nat (length name) <= 255 ∧ is_u16 id.

(** Lengths of the two forms. *)
Definition resident_len (name val : list Z) : Z :=
  align8u (align8u (0x18 + 2 * Z.of_nat (length name)) + Z.of_nat (length val)).
Definition nonres_len (name : list Z) (count lcn : Z) : Z :=
  align8u (align8u (0x40 + 2 * Z.of_nat (length name)) + Z.of_nat (length (enc_single_run count lcn))).

Ltac rec_fields := unfold w8; skip_fields; this_field.
Ltac small_val := apply le_val_le_bytes_small;
  repeat match goal with |- context [256 ^ ?e] => let v := eval vm_compute in (256 ^ e) in change (256 ^ e) with v end; lia.

Lemma bget_field l o x : 0 <= o → sub l (Z.to_nat o) 1 = [u8 x] → 0 <= x < 256 → bget l o = x.
Proof. intros Ho Hs Hx. rewrite u8_small in Hs by done. by apply bget_sub1. Qed.

Lemma resident_encodes type name val indexed id :
  name_ok type name id → Z.of_nat (length val) <= 60000 → 0 <= indexed < 128 →
  let bs := resident_bytes type name val indexed id in
  encodes (mkAttr type name id (Resident val (Z.lor indexed (if type =? 0x30 then 1 else 0)))) bs ∧
  Z.of_nat (length bs) = resident_len name val.
Proof.
  intros (Ht & Hend & Hu & Hn & Hid) Hv Hi. unfold resident_len, resident_bytes, is_u16, is_u32 in *.
  set (k := Z.of_nat (length name)) in *. set (v := Z.of_nat (length val)) in *. assert (0 <= k) by lia. assert (0 <= v) by lia.
  destruct (align8u_spec (0x18 + 2 * k) ltac:(lia)) as [V1 V2]. set (voff := align8u (0x18 + 2 * k)) in *. clearbody voff.
  destruct (align8u_spec (voff + v) ltac:(lia)) as [T1 T2]. set (total := align8u (voff + v)) in *. clearbody total.
  set (ix := Z.lor indexed _). assert (0 <= ix < 256) as Hix.
  { assert (0 <= (if type =? 48 then 1 else 0) < 2 ^ 1) by (destruct (type =? 48); lia). unfold ix.
    split; [apply Z.lor_nonneg; lia|]. apply (lt_pow2_testbit _ 8); [apply Z.lor_nonneg; lia|lia|]. intros i Hi'.
    rewrite Z.lor_spec, (testbit_small indexed 8), (testbit_small _ 1 i) by lia. done. }
  clearbody ix. set (p0 := replicate (Z.to_nat total) 0). assert (Z.of_nat (length p0) = total) as E0 by (unfold p0; rewrite length_replicate; lia).
  clearbody p0. pose proof (length_unit_bytes name) as Eu.
  set (bs := splice _ (Z.to_nat voff) val). assert (Z.of_nat (length bs) = total) as El by (unfold bs, w8, w16, w32; rewrite !length_splice; done).
  assert (r32 bs 0 = type ∧ r32 bs 4 = total ∧ r16 bs 0xA = 0x18 ∧ r16 bs 0xE = id ∧ r32 bs 0x10 = v ∧ r16 bs 0x14 = voff) as (R1 & R2 & R3 & R4 & R5 & R6)
    by (unfold bs; split_and!; rec_fields; small_val).
  assert (sub bs (Z.to_nat 8) 1 = [u8 0] ∧ sub bs (Z.to_nat 9) 1 = [u8 k] ∧ sub bs (Z.to_nat 0x16) 1 = [u8 ix] ∧
    sub bs (Z.to_nat 0x18) (2 * length name) = unit_bytes name ∧ sub bs (Z.to_nat voff) (length val) = val) as (S1 & S2 & S3 & S4 & S5)
    by (unfold bs; split_and!; rec_fields; done).
  clearbody bs. split; [|exact El]. constructor; cbn [a_type]; [lia|by rewrite El|done|by rewrite El| |done].
  unfold read_attr. rewrite (bget_field bs 8 0 ltac:(lia) S1 ltac:(lia)), (bget_field bs 9 k ltac:(lia) S2 ltac:(lia)), R3.
  unfold k. rewrite (units_read bs 0x18 name ltac:(lia) Hu S4), R1, R4, R5, R6. cbn [Z.eqb].
  rewrite (proj2 (Z.ltb_ge _ _)) by lia. unfold v. by rewrite Nat2Z.id, S5, (bget_field bs 0x16 ix ltac:(lia) S3 Hix).
Qed.

Lemma nonres_encodes type name lcn count cs data init flags id :
  name_ok type name id → 0 <= lcn < 2 ^ 63 → 0 < count < 2 ^ 63 → is_u64 data → is_u64 init → is_u16 flags →
  let bs := nonres_bytes type name lcn count cs data init flags id in
  encodes (mkAttr type name id (Nonres lcn count (u64 (count * cs)) data init flags)) bs ∧
  Z.of_nat (length bs) = nonres_len name count lcn.
Proof.
  intros (Ht & Hend & Hu & Hn & Hid) Hl Hc Hd Hi Hf. unfold nonres_len, nonres_bytes, is_u16, is_u32, is_u64 in *.
  pose proof (length_enc_single_run count lcn) as Hrl. pose proof (decode_enc count lcn) as Hdec.
  set (run := enc_single_run count lcn) in *. clearbody run. pose proof (u64_range (count * cs)) as Ha. set (al := u64 (count * cs)) in *. clearbody al. unfold is_u64 in Ha.
  set (k := Z.of_nat (length name)) in *. set (v := Z.of_nat (length run)) in *. assert (0 <= k) by lia. assert (0 <= v) by lia.
  destruct (align8u_spec (0x40 + 2 * k) ltac:(lia)) as [V1 V2]. set (voff := align8u (0x40 + 2 * k)) in *. clearbody voff.
  destruct (align8u_spec (voff + v) ltac:(lia)) as [T1 T2]. set (total := align8u (voff + v)) in *. clearbody total.
  rewrite (proj2 (Z.eqb_neq count 0)) by lia.
  set (p0 := replicate (Z.to_nat total) 0). assert (Z.of_nat (length p0) = total) as E0 by (unfold p0; rewrite length_replicate; lia).
  clearbody p0. pose proof (length_unit_bytes name) as Eu.
  set (bs := splice _ (Z.to_nat voff) run). assert (Z.of_nat (length bs) = total) as El by (unfold bs, w8, w16, w32, w64; rewrite !length_splice; done).
  assert (r32 bs 0 = type ∧ r32 bs 4 = total ∧ r16 bs 0xA = 0x40 ∧ r16 bs 0xE = id ∧ r16 bs 0xC = flags ∧ r64 bs 0x10 = 0 ∧
    r64 bs 0x18 = count - 1 ∧ r16 bs 0x20 = voff) as (R1 & R2 & R3 & R4 & R5 & R6 & R7 & R8)
    by (unfold bs; split_and!; rec_fields; small_val).
  assert (r64 bs 0x28 = al ∧ r64 bs 0x30 = data ∧ r64 bs 0x38 = init) as (R9 & R10 & R11)
    by (unfold bs; split_and!; rec_fields; small_val).
  assert (sub bs (Z.to_nat 8) 1 = [u8 1] ∧ sub bs (Z.to_nat 9) 1 = [u8 k] ∧
    sub bs (Z.to_nat 0x40) (2 * length name) = unit_bytes name ∧ sub bs (Z.to_nat voff) (length run) = run) as (S1 & S2 & S4 & S5)
    by (unfold bs; split_and!; rec_fields; done).
  clearbody bs. split; [|exact El]. constructor; cbn [a_type]; [lia|by rewrite El|done|by rewrite El| |done].
  unfold read_attr. rewrite (bget_field bs 8 1 ltac:(lia) S1 ltac:(lia)), (bget_field bs 9 k ltac:(lia) S2 ltac:(lia)), R3.
  unfold k. rewrite (units_read bs 0x40 name ltac:(lia) Hu S4), R1, R4, R5, R6, R7, R8, R9, R10, R11. cbn [Z.eqb].
  rewrite <- (take_drop (length run) (drop (Z.to_nat voff) bs)). change (take (length run) (drop (Z.to_nat voff) bs)) with (sub bs (Z.to_nat voff) (length run)).
  rewrite S5, Hdec by lia. cbn [mbind option_bind andb]. by rewrite Z.eqb_refl.
Qed.

(** ** The attributes of a record *)

Lemma read_attrs_ok al bss : Forall2 encodes al bss → ∀ rest fuel,
  r32 rest 0 = NTFS_AT_END → (4 <= length rest)%nat → (length al < fuel)%nat →
  read_attrs fuel (concat bss ++ rest) = Some al.
Proof.
  induction 1 as [|a bs al bss H _ IH]; intros rest [|fuel] Hr Hl Hf; cbn [length] in Hf; try lia.
  - cbn [concat app read_attrs]. by rewrite Hr, Z.eqb_refl.
  - destruct H as [[L1 L2] _ Et Es Hread Hlive]. cbn [concat]. rewrite <- app_assoc. set (w := concat bss ++ rest) in *.
    cbn [read_attrs]. assert (∀ o, o = 0 ∨ o = 4 → r32 (bs ++ w) o = r32 bs o) as Hh
      by (intros o Ho; unfold r32; rewrite sub_app_in by lia; done).
    rewrite !Hh, Et, Es by auto. rewrite (proj2 (Z.eqb_neq _ _)) by done.
    rewrite (proj2 (Z.ltb_ge _ 0x18)), (proj2 (Z.ltb_ge (Z.of_nat _) _)) by (rewrite ?length_app; lia). cbn [orb].
    rewrite Nat2Z.id, take_app_length, drop_app_length, Hread. cbn [mbind option_bind]. unfold w. rewrite IH by (done || lia). done.
Qed.

(** A new attribute among the names of a record. *)
Fixpoint insert_name (al : list attr) (a : attr) : list attr :=
  match al with
  | [] => [a]
  | b :: al' => if 0x30 <? a_type b then a :: al else b :: insert_name al' a
  end.

Lemma insert_name_split al a : ∃ pre post,
  al = pre ++ post ∧ insert_name al a = pre ++ a :: post ∧ Forall (λ b, a_type b <= 0x30) pre ∧
  match post with [] => True | b :: _ => 0x30 < a_type b end.
Proof.
  induction al as [|b al (pre & post & E1 & E2 & H1 & H2)]; [by exists [], []|]. cbn [insert_name].
  destruct (Z.ltb_spec 0x30 (a_type b)).
  - by exists [], (b :: al).
  - exists (b :: pre), post. rewrite E2. split_and!; [by rewrite E1|done|by constructor|done].
Qed.

(** Inserting keeps the order of the types. *)
Lemma insert_name_sorted al a :
  a_type a = 0x30 → StronglySorted (λ x y, a_type x <= a_type y) al → StronglySorted (λ x y, a_type x <= a_type y) (insert_name al a).
Proof.
  intros Ha. induction 1 as [|b al Hs IH Hb]; cbn [insert_name]; [repeat constructor|]. destruct (Z.ltb_spec 0x30 (a_type b)).
  - constructor; [by constructor|]. constructor; [lia|]. eapply Forall_impl; [exact Hb|]. simpl. lia.
  - constructor; [exact IH|]. destruct (insert_name_split al a) as (pre & post & E1 & E2 & _). rewrite E2. rewrite E1 in Hb.
    apply Forall_app in Hb as [? ?]. apply Forall_app. split; [done|]. constructor; [lia|done].
Qed.

Lemma insert_point_ok al bss : Forall2 encodes al bss → ∀ fuel hd w used,
  Forall (λ b, a_type b <= 0x30) al → Z.of_nat (length hd) + Z.of_nat (length (concat bss)) <= used →
  used < 2 ^ 31 → (length al < fuel)%nat →
  (used = Z.of_nat (length hd) + Z.of_nat (length (concat bss)) ∨ 0x30 < r32 w 0 ∧ (8 <= length w)%nat) →
  insert_point fuel (hd ++ concat bss ++ w) used (Z.of_nat (length hd)) = Z.of_nat (length hd) + Z.of_nat (length (concat bss)).
Proof.
  induction 1 as [|a bs al bss H _ IH]; intros fuel hd w used Ht Hu Hu' Hf Hend; (destruct fuel as [|fuel]; [cbn in Hf; lia|]); cbn [concat app] in *; cbn [insert_point].
  - cbn [length] in *. destruct (Z.ltb_spec (Z.of_nat (length hd)) used); [|cbn [negb]; lia]. cbn [negb].
    destruct Hend as [?|[Hw Hl]]; [lia|].
    assert (r32 (hd ++ w) (Z.of_nat (length hd)) = r32 w 0) as ->.
    { unfold r32, sub. rewrite Nat2Z.id, drop_app_length. done. }
    rewrite (proj2 (Z.ltb_lt 0x30 _)) by done. rewrite orb_true_r. lia.
  - inversion Ht as [|? ? Ha Ht']; subst. destruct H as [[L1 L2] _ Et Es _ Hlive]. rewrite length_app in *.
    rewrite (proj2 (Z.ltb_lt _ used)) by lia. cbn [negb].
    assert (∀ o, o = 0 ∨ o = 4 → r32 (hd ++ (bs ++ concat bss) ++ w) (Z.of_nat (length hd) + o) = r32 bs o) as Hh.
    { intros o Ho. unfold r32. replace (Z.to_nat (Z.of_nat (length hd) + o)) with (length hd + Z.to_nat o)%nat by lia.
      unfold sub at 1. rewrite <- drop_drop, drop_app_length. fold (sub ((bs ++ concat bss) ++ w) (Z.to_nat o) 4).
      rewrite <- app_assoc, sub_app_in by lia. done. }
    pose proof (Hh 0 (or_introl eq_refl)) as H0. rewrite Z.add_0_r in H0. rewrite H0, (Hh 4 (or_intror eq_refl)), Et, Es.
    rewrite (proj2 (Z.eqb_neq _ 0xFFFFFFFF)), (proj2 (Z.ltb_ge 0x30 _)), (proj2 (Z.eqb_neq _ 0)) by (done || lia). cbn [orb].
    rewrite u32_small by lia. pose proof (IH fuel (hd ++ bs) w used Ht') as E. rewrite length_app, Nat2Z.inj_add, <- !app_assoc in E.
    rewrite <- !app_assoc. rewrite E; [lia|lia|done|simpl in Hf; lia|]. destruct Hend; [left; lia|by right].
Qed.

(** Stores at a seam of a buffer. *)
Lemma splice_seam (x w s : list Z) n : n = length x → (length s <= length w)%nat → splice (x ++ w) n s = x ++ s ++ drop (length s) w.
Proof.
  intros -> H. unfold splice. rewrite take_app_length, length_app, (take_ge s) by lia. do 2 f_equal. rewrite <- drop_drop, drop_app_length. done.
Qed.

Lemma shift_in (x y z a : list Z) : (length a <= length z)%nat →
  splice (splice (x ++ y ++ z) (length x + length a) y) (length x) a = x ++ a ++ y ++ drop (length a) z.
Proof.
  intros H. rewrite <- (take_drop (length a) (y ++ z)), app_assoc.
  rewrite splice_seam by (rewrite ?length_app, ?length_take, ?length_drop, ?length_app; lia). rewrite <- app_assoc.
  rewrite splice_seam by (rewrite ?length_app, ?length_take, ?length_app; lia). do 2 f_equal.
  rewrite drop_app_length' by (rewrite length_take, length_app; lia). f_equal. rewrite drop_drop, Nat.add_comm.
  rewrite <- drop_drop, drop_app_length. done.
Qed.

(** ** Records *)

(** The fields of the header that no attribute touches. *)
Record header (recno seq : Z) (hd : list Z) : Prop := {
  hd_len : length hd = 0x38%nat;
  hd_sig : sub hd (Z.to_nat 0) 4 = lit "FILE";
  hd_usa : r16 hd 4 = 0x30 ∧ r16 hd 6 = 3;
  hd_seq : r16 hd 0x10 = seq;
  hd_first : r16 hd 0x14 = 0x38;
  hd_recno : r32 hd 0x2C = recno;
}.

(** [r] is the record [recno] holding the attributes [al]. *)
Definition rec_rep (recno : Z) (r : mftrec_t) (al : list attr) : Prop :=
  ∃ hd bss tl,
    r_buf r = hd ++ concat bss ++ tl ∧ Z.of_nat (length (r_buf r)) = NTFS_MFT_RECSZ ∧ header recno (r_seq r) hd ∧
    Forall2 encodes al bss ∧ r_used r = 0x38 + Z.of_nat (length (concat bss)) ∧ r_used r + 8 <= NTFS_MFT_RECSZ ∧
    r_attr_id r = Z.of_nat (length al).

Lemma concat_mod al bss : Forall2 encodes al bss →
  Z.of_nat (length (concat bss)) mod 8 = 0 ∧ 0x18 * Z.of_nat (length al) <= Z.of_nat (length (concat bss)).
Proof.
  induction 1 as [|a bs al bss H _ IH]; [done|]. cbn [concat length]. rewrite length_app. destruct H as [[L1 L2] L3 _ _ _ _].
  split; [|lia]. rewrite Nat2Z.inj_add, Z.add_mod by lia. by rewrite L3, (proj1 IH).
Qed.

Lemma rep_facts recno r al : rec_rep recno r al →
  0x38 <= r_used r ∧ r_used r + 8 <= NTFS_MFT_RECSZ ∧ r_used r mod 8 = 0 ∧ r_attr_id r = Z.of_nat (length al) ∧ r_attr_id r <= 40.
Proof.
  intros (hd & bss & tl & Eb & El & Hh & Hal & Eu & Hu & Ei). destruct (concat_mod al bss Hal) as [M1 M2].
  unfold NTFS_MFT_RECSZ in *. split_and!; [lia|lia| |done|lia]. rewrite Eu, Z.add_mod by lia. by rewrite M1.
Qed.

Lemma rec_new_rep recno is_dir : is_u32 recno → rec_rep recno (rec_new recno is_dir) [].
Proof.
  intros Hr. unfold is_u32 in Hr. set (r := rec_new recno is_dir).
  assert (∃ seq, r_seq r = seq ∧ 0 <= seq < 65536) as (seq & Es & Hs).
  { eexists. split; [reflexivity|]. cbn. destruct (Z.leb_spec 1 recno), (Z.leb_spec recno 23); cbn [andb]; try lia. rewrite u16_small; lia. }
  assert (∃ flags, Z.lor NTFS_FR_IN_USE (if is_dir then NTFS_FR_DIRECTORY else 0) = flags) as (flags & Ef) by by eexists.
  assert (length (r_buf r) = 1024%nat) as El by (unfold r, rec_new, w16, w32, w64; cbn [r_buf]; rewrite !length_splice, length_replicate; done).
  assert (sub (r_buf r) (Z.to_nat 0) 4 = lit "FILE" ∧ r16 (r_buf r) 4 = 0x30 ∧ r16 (r_buf r) 6 = 3 ∧ r16 (r_buf r) 0x10 = r_seq r ∧
    r16 (r_buf r) 0x14 = 0x38 ∧ r32 (r_buf r) 0x2C = recno) as (F1 & F2 & F3 & F4 & F5 & F6).
  { rewrite Es. unfold r, rec_new in *. cbn [r_buf r_seq] in *. rewrite Es, Ef. clear -Hr Hs. set (p0 := replicate (Z.to_nat NTFS_MFT_RECSZ) 0).
    assert (length p0 = 1024%nat) as E0 by (unfold p0; apply length_replicate). clearbody p0.
    assert (length (lit "FILE") = 4%nat) as E4 by reflexivity. unfold NTFS_MFT_RECSZ.
    split_and!.
    1: skip_fields; this_field; reflexivity.
    all: skip_fields; this_field; small_val. }
  assert (r_used r = 0x38 ∧ r_attr_id r = 0) as [Eu Ei] by (split; reflexivity).
  exists (take 0x38 (r_buf r)), [], (drop 0x38 (r_buf r)). cbn [concat app length]. rewrite take_drop, Eu, Ei. clearbody r.
  assert (∀ o k, (o + k <= 0x38)%nat → sub (take 0x38 (r_buf r)) o k = sub (r_buf r) o k) as Hsub.
  { intros o k Hok. unfold sub. rewrite skipn_firstn_comm, take_take. f_equal. lia. }
  split_and!; [done|unfold NTFS_MFT_RECSZ; lia| |constructor| | |].
  - constructor; unfold r16, r32; rewrite ?Hsub by lia; [rewrite length_take; lia|exact F1|split; [exact F2|exact F3]|exact F4|exact F5|exact F6].
  - reflexivity.
  - vm_compute. congruence.
  - reflexivity.
Qed.

Definition type_ok (type : Z) (name : list Z) : Prop :=
  is_u32 type ∧ type ≠ NTFS_AT_END ∧ Forall is_u16 name ∧ Z.of_nat (length name) <= 255.

Lemma rep_name_ok recno r al type name : rec_rep recno r al → type_ok type name → name_ok type name (r_attr_id r).
Proof. intros H (H1 & H2 & H3 & H4). destruct (rep_facts _ _ _ H) as (_ & _ & _ & E & Hi). unfold name_ok, is_u16. split_and!; try done; lia. Qed.

Lemma append_rep recno r al a bs :
  rec_rep recno r al → encodes a bs → r_used r + Z.of_nat (length bs) + 8 <= NTFS_MFT_RECSZ →
  rec_rep recno (set_attrs r (splice (r_buf r) (Z.to_nat (r_used r)) bs) (r_used r + Z.of_nat (length bs)) (u16 (r_attr_id r + 1))) (al ++ [a]).
Proof.
  intros H Ha Hfit. destruct (rep_facts _ _ _ H) as (_ & _ & _ & _ & Hid). destruct H as (hd & bss & tl & Eb & El & Hh & Hal & Eu & Hu & Ei).
  assert (length hd = 0x38%nat) as Ehd by apply Hh. unfold NTFS_MFT_RECSZ in *. rewrite Eb, !length_app in El.
  exists hd, (bss ++ [bs]), (drop (length bs) tl). cbn [set_attrs r_buf r_used r_attr_id r_seq].
  rewrite length_splice, concat_app, !length_app. cbn [concat length]. rewrite app_nil_r. split_and!.
  - rewrite Eb, app_assoc. rewrite splice_seam by (rewrite ?length_app; lia). by rewrite <- !app_assoc.
  - rewrite Eb, !length_app. unfold NTFS_MFT_RECSZ. lia.
  - exact Hh.
  - apply Forall2_app; [done|by constructor].
  - lia.
  - unfold NTFS_MFT_RECSZ. lia.
  - rewrite u16_small by lia. lia.
Qed.

(** The rest of the record is untouched. *)
Definition same_meta (r r' : mftrec_t) : Prop :=
  r_seq r' = r_seq r ∧ r_flags r' = r_flags r ∧ r_link_count r' = r_link_count r ∧ r_is_dir r' = r_is_dir r ∧
  r_entries r' = r_entries r ∧ r_reparse r' = r_reparse r ∧ r_ov r' = r_ov r ∧ r_base_ref r' = r_base_ref r.

(** An operation that adds an attribute of [n] bytes: [P] says where it goes. *)
Definition adds (recno : Z) (r : mftrec_t) (n : Z) (al' : list attr) (res : option mftrec_t) : Prop :=
  match res with
  | Some r' => r_used r + n + 8 <= NTFS_MFT_RECSZ ∧ r_used r' = r_used r + n ∧ same_meta r r' ∧ rec_rep recno r' al'
  | None => NTFS_MFT_RECSZ < r_used r + n + 8
  end.

Definition resident_attr (type : Z) (name val : list Z) (indexed id : Z) : attr :=
  mkAttr type name id (Resident val (Z.lor indexed (if type =? 0x30 then 1 else 0))).

Lemma attr_resident_adds recno r al type name val indexed :
  rec_rep recno r al → type_ok type name → Z.of_nat (length val) <= 60000 → 0 <= indexed < 128 →
  adds recno r (resident_len name val) (al ++ [resident_attr type name val indexed (Z.of_nat (length al))])
    (attr_resident r type name val indexed).
Proof.
  intros H Ht Hv Hi. destruct (rep_facts _ _ _ H) as (U1 & U2 & _ & Ei & _).
  destruct (resident_encodes type name val indexed (r_attr_id r) (rep_name_ok _ _ _ _ _ H Ht) Hv Hi) as [He El].
  unfold attr_resident. fold (resident_len name val). destruct (en_len _ _ He) as [L1 L2]. unfold NTFS_MFT_RECSZ in *.
  rewrite u32_small by lia. destruct (Z.ltb_spec 1024 (r_used r + resident_len name val + 8)); cbn [adds]; [done|].
  split_and!; [done|done|done|]. rewrite <- El, <- Ei. apply append_rep; [done|exact He|unfold NTFS_MFT_RECSZ; lia].
Qed.

Lemma attr_nonres_adds recno r al type name lcn count cs data init flags :
  rec_rep recno r al → type_ok type name → 0 <= lcn < 2 ^ 63 → 0 < count < 2 ^ 63 → is_u64 data → is_u64 init → is_u16 flags →
  adds recno r (nonres_len name count lcn) (al ++ [mkAttr type name (Z.of_nat (length al)) (Nonres lcn count (u64 (count * cs)) data init flags)])
    (attr_nonres r type name lcn count cs data init flags).
Proof.
  intros H Ht Hl Hc Hd Hi Hf. destruct (rep_facts _ _ _ H) as (U1 & U2 & _ & Ei & _).
  destruct (nonres_encodes type name lcn count cs data init flags (r_attr_id r) (rep_name_ok _ _ _ _ _ H Ht) Hl Hc Hd Hi Hf) as [He El].
  unfold attr_nonres. fold (nonres_len name count lcn). destruct (en_len _ _ He) as [L1 L2]. unfold NTFS_MFT_RECSZ in *.
  rewrite u32_small by lia. destruct (Z.ltb_spec 1024 (r_used r + nonres_len name count lcn + 8)); cbn [adds]; [done|].
  split_and!; [done|done|done|]. rewrite <- El, <- Ei. apply append_rep; [done|exact He|unfold NTFS_MFT_RECSZ; lia].
Qed.

Lemma splice_nil l n : splice l n [] = l.
Proof. unfold splice. rewrite take_nil, Nat.add_0_r. apply take_drop. Qed.

(** The attribute that [attr_insert_filename] builds is a resident one without a name. *)
Lemma insert_bytes fn id :
  let total := align8u (0x18 + Z.of_nat (length fn)) in
  let a := w32 (w32 (replicate (Z.to_nat total) 0) 0 NTFS_AT_FILE_NAME) 4 total in
  let a := w16 (w8 (w8 a 8 0) 9 0) 0xA 0x18 in
  let a := w8 (w16 (w32 (w16 a 0xE id) 0x10 (Z.of_nat (length fn))) 0x14 0x18) 0x16 1 in
  splice a (Z.to_nat 0x18) fn = resident_bytes NTFS_AT_FILE_NAME [] fn 1 id ∧ total = resident_len [] fn.
Proof.
  unfold resident_bytes, resident_len. change (align8u (24 + 2 * Z.of_nat (length (@nil Z)))) with 24. split; [|done]. cbv zeta.
  f_equal. change (unit_bytes []) with (@nil Z). by rewrite splice_nil.
Qed.

Lemma attr_insert_adds recno r al fn :
  rec_rep recno r al → Z.of_nat (length fn) <= 60000 →
  adds recno r (resident_len [] fn) (insert_name al (resident_attr NTFS_AT_FILE_NAME [] fn 1 (Z.of_nat (length al)))) (attr_insert_filename r fn).
Proof.
  intros H Hv. destruct (rep_facts _ _ _ H) as (U1 & U2 & _ & Ei & Hid).
  assert (type_ok NTFS_AT_FILE_NAME []) as Ht by (unfold type_ok; split_and!; [by vm_compute|by vm_compute|constructor|vm_compute; congruence]).
  destruct (resident_encodes NTFS_AT_FILE_NAME [] fn 1 (r_attr_id r) (rep_name_ok _ _ _ _ _ H Ht) Hv ltac:(lia)) as [He El].
  unfold attr_insert_filename. destruct (insert_bytes fn (r_attr_id r)) as [Eb Et]. cbv zeta in Eb, Et |- *. rewrite Eb, Et.
  set (bs := resident_bytes NTFS_AT_FILE_NAME [] fn 1 (r_attr_id r)) in *. clearbody bs. clear Eb Et.
  destruct (en_len _ _ He) as [L1 L2]. set (n := resident_len [] fn) in *. clearbody n. unfold NTFS_MFT_RECSZ in *.
  rewrite u32_small by lia. destruct (Z.ltb_spec 1024 (r_used r + n + 8)); cbn [adds]; [done|].
  split_and!; [done|done|done|]. rewrite Ei in He. unfold resident_attr in *.
  set (a := mkAttr _ _ _ _) in *. clearbody a. destruct (insert_name_split al a) as (pre & post & E1 & E2 & Hpre & Hpost).
  destruct H as (hd & bss & tl & Ebuf & Elen & Hh & Hal & Eu & Hu & _). assert (length hd = 0x38%nat) as Ehd by apply Hh.
  rewrite E1 in Hal. apply Forall2_app_inv_l in Hal as (bp & bq & Hp & Hq & ->). rewrite concat_app in *.
  rewrite Ebuf, !length_app in Elen. rewrite length_app in Eu.
  assert (insert_point (length (r_buf r)) (r_buf r) (r_used r) 0x38 = 0x38 + Z.of_nat (length (concat bp))) as Ep.
  { rewrite Ebuf. change 0x38 with (Z.of_nat 0x38) at 1. rewrite <- Ehd, <- app_assoc.
    destruct (concat_mod pre bp Hp) as [_ Hc].
    rewrite (insert_point_ok pre bp Hp); [lia|done|lia|lia|rewrite !length_app; lia|].
    destruct Hq as [|b bs' post bq Hb Hq]; [left; cbn [concat length] in Eu; lia|right]. cbn [concat]. destruct Hb as [[B1 B2] _ Bt _ _ _].
    unfold r32. rewrite <- app_assoc, sub_app_in by lia. fold (r32 bs' 0). rewrite Bt, length_app. split; [exact Hpost|lia]. }
  rewrite Ep, E2. unfold NTFS_MFT_RECSZ in *.
  exists hd, (bp ++ bs :: bq), (drop (length bs) tl). cbn [set_attrs r_buf r_used r_attr_id r_seq].
  rewrite !length_splice, concat_app. cbn [concat]. rewrite !length_app. split_and!.
  - rewrite Ebuf.
    replace (Z.to_nat (56 + Z.of_nat (length (concat bp)) + n)) with (length (hd ++ concat bp) + length bs)%nat by (rewrite length_app; lia).
    replace (Z.to_nat (56 + Z.of_nat (length (concat bp)))) with (length (hd ++ concat bp)) by (rewrite length_app; lia).
    assert (sub (hd ++ (concat bp ++ concat bq) ++ tl) (length (hd ++ concat bp)) (Z.to_nat (r_used r - (56 + Z.of_nat (length (concat bp))))) = concat bq) as ->.
    { unfold sub. rewrite <- app_assoc, app_assoc, drop_app_length. rewrite take_app_length' by lia. done. }
    rewrite <- app_assoc, app_assoc. rewrite shift_in by lia. by rewrite <- !app_assoc.
  - rewrite Ebuf, !length_app. unfold NTFS_MFT_RECSZ. lia.
  - exact Hh.
  - apply Forall2_app; [done|by constructor].
  - lia.
  - unfold NTFS_MFT_RECSZ. lia.
  - rewrite u16_small by lia. rewrite E1, !length_app in *. simpl. lia.
Qed.

(** ** A finished record *)

Lemma align8_plus4 u : 0 <= u < 2 ^ 30 → u mod 8 = 0 → align8u (u + 4) = u + 8.
Proof. intros H1 H2. destruct (align8u_spec (u + 4) ltac:(lia)) as [? ?]. dlia. Qed.

(** The bytes of a finished record before its sectors are protected. *)
Record finished (recno : Z) (r : mftrec_t) (bss : list (list Z)) (b : list Z) : Prop := {
  fi_len : Z.of_nat (length b) = NTFS_MFT_RECSZ;
  fi_sig : sub b (Z.to_nat 0) 4 = lit "FILE";
  fi_usa : r16 b 4 = 0x30 ∧ r16 b 6 = 3;
  fi_seq : r16 b 0x10 = r_seq r;
  fi_links : r16 b 0x12 = r_link_count r;
  fi_first : r16 b 0x14 = 0x38;
  fi_flags : r16 b 0x16 = r_flags r;
  fi_use : r32 b 0x18 = r_used r + 8;
  fi_base : r64 b 0x20 = r_base_ref r;
  fi_id : r16 b 0x28 = r_attr_id r;
  fi_recno : r32 b 0x2C = recno;
  fi_attrs : ∃ rest, r32 rest 0 = NTFS_AT_END ∧ length rest = 8%nat ∧ sub b (Z.to_nat 0x38) (Z.to_nat (r_used r + 8 - 0x38)) = concat bss ++ rest;
}.

Definition meta_ok (r : mftrec_t) : Prop :=
  is_u16 (r_seq r) ∧ is_u16 (r_link_count r) ∧ is_u16 (r_flags r) ∧ is_u64 (r_base_ref r).

Lemma finalize_finished recno r al : rec_rep recno r al → meta_ok r →
  ∃ bss, Forall2 encodes al bss ∧ finished recno r bss (r_buf (rec_finalize r)).
Proof.
  intros H (M1 & M2 & M3 & M4). unfold is_u16, is_u64 in *. destruct (rep_facts _ _ _ H) as (U1 & U2 & U3 & _ & Hid).
  destruct H as (hd & bss & tl & Eb & El & Hh & Hal & Eu & Hu & Ei). exists bss. split; [done|].
  destruct Hh as [Ehd Hsig [Hu4 Hu6] Hseq Hfirst Hrec]. unfold NTFS_MFT_RECSZ in *.
  rewrite Eb, !length_app in El. unfold rec_finalize. cbn [set_attrs r_buf]. rewrite align8_plus4 by lia.
  set (b0 := w32 (r_buf r) (r_used r) NTFS_AT_END).
  assert (b0 = hd ++ concat bss ++ le_bytes 4 NTFS_AT_END ++ drop 4 tl) as E0.
  { unfold b0, w32. rewrite Eb, app_assoc. rewrite splice_seam by (rewrite ?length_app, ?length_le_bytes; lia).
    rewrite length_le_bytes. by rewrite <- !app_assoc. }
  assert (length b0 = 1024%nat) as El0 by (unfold b0, w32; rewrite length_splice, Eb, !length_app; lia).
  assert (∀ o k, (o + k <= 0x38)%nat → sub b0 o k = sub hd o k) as Hsub by (intros o k Hok; rewrite E0; apply sub_app_in; lia).
  assert (sub b0 (Z.to_nat 0x38) (Z.to_nat (r_used r + 8 - 0x38)) = concat bss ++ (le_bytes 4 NTFS_AT_END ++ take 4 (drop 4 tl))) as Hattr.
  { rewrite E0. unfold sub. rewrite drop_app_length' by lia. rewrite !app_assoc.
    rewrite take_app_ge by (rewrite length_app, length_le_bytes; lia). f_equal. f_equal. rewrite length_app, length_le_bytes. lia. }
  clearbody b0. clear E0. constructor.
  - unfold w16, w32, w64. rewrite !length_splice. unfold NTFS_MFT_RECSZ. lia.
  - skip_fields. rewrite Hsub by lia. exact Hsig.
  - split; skip_fields; rewrite Hsub by lia; [exact Hu4|exact Hu6].
  - skip_fields. rewrite Hsub by lia. exact Hseq.
  - skip_fields. this_field. small_val.
  - skip_fields. rewrite Hsub by lia. exact Hfirst.
  - skip_fields. this_field. small_val.
  - skip_fields. this_field. small_val.
  - skip_fields. this_field. small_val.
  - skip_fields. this_field. small_val.
  - skip_fields. rewrite Hsub by lia. exact Hrec.
  - exists (le_bytes 4 NTFS_AT_END ++ take 4 (drop 4 tl)). split; [reflexivity|]. split.
    + rewrite length_app, length_le_bytes, length_take, length_drop. lia.
    + rewrite <- Hattr. by skip_fields.
Qed.

Definition file_of (recno : Z) (r : mftrec_t) (al : list attr) : filerec :=
  mkFile (r_seq r) (r_link_count r) (r_flags r) (r_base_ref r) (Z.of_nat (length al)) recno al.

Lemma read_put recno n r al : rec_rep recno r al → meta_ok r →
  read_filerec (put_bytes n r) = Some (file_of recno r al) ∧ Z.of_nat (length (put_bytes n r)) = NTFS_MFT_RECSZ.
Proof.
  intros H HM. destruct (rep_facts _ _ _ H) as (U1 & U2 & U3 & Ei & Hid). destruct (finalize_finished _ _ _ H HM) as (bss & Hal & F).
  destruct F as [F0 F1 [F2 F3] F4 F5 F6 F7 F8 F9 F10 F11 (rest & R1 & R2 & R3)].
  unfold put_bytes. set (b := r_buf (rec_finalize r)) in *. clearbody b. unfold NTFS_MFT_RECSZ in *.
  assert (fixable b NTFS_SECTOR) as Hfix by (unfold fixable; rewrite F2, F3; unfold NTFS_SECTOR; lia).
  destruct (apply_fixup_head b NTFS_SECTOR (u16 (n + 1)) 0 4 Hfix ltac:(lia) ltac:(rewrite F2; lia)) as [Hh Hl]. split; [|by rewrite Hl].
  unfold read_filerec. rewrite Hh, F1, bool_decide_true by done.
  destruct (fixup_roundtrip b NTFS_SECTOR (u16 (n + 1)) Hfix) as (blk & -> & Elb & Hblk). rewrite F2, F3 in Hblk.
  cbn [mbind option_bind].
  assert (∀ o k, 0 <= o → o + Z.of_nat k <= 0x30 → sub blk (Z.to_nat o) k = sub b (Z.to_nat o) k) as Hlow by (intros; apply Hblk; lia).
  assert (∀ o, 0 <= o <= 0x2E → r16 blk o = r16 b o) as H16 by (intros o Ho; unfold r16; by rewrite Hlow by lia).
  assert (∀ o, 0 <= o <= 0x2C → r32 blk o = r32 b o) as H32 by (intros o Ho; unfold r32; by rewrite Hlow by lia).
  assert (r64 blk 0x20 = r_base_ref r) as -> by (unfold r64 in *; by rewrite Hlow by lia).
  rewrite !H16, !H32, F4, F5, F6, F7, F8, F10, F11 by lia. rewrite Hblk, R3 by lia. rewrite (read_attrs_ok al bss Hal) by (done || (rewrite ?R2, ?Elb; lia)). cbn [mbind option_bind].
  unfold file_of. by rewrite Ei.
Qed.

(** ** Any sequence of attributes *)

Inductive rop :=
  | AddResident (type : Z) (name val : list Z) (indexed : Z)
  | AddNonres (type : Z) (name : list Z) (lcn count cs data init flags : Z)
  | InsertName (fn : list Z).

Definition run_rop (r : mftrec_t) (op : rop) : option mftrec_t :=
  match op with
  | AddResident type name val indexed => attr_resident r type name val indexed
  | AddNonres type name lcn count cs data init flags => attr_nonres r type name lcn count cs data init flags
  | InsertName fn => attr_insert_filename r fn
  end.

Definition rop_ok (op : rop) : Prop :=
  match op with
  | AddResident type name val indexed => type_ok type name ∧ Z.of_nat (length val) <= 60000 ∧ 0 <= indexed < 128
  | AddNonres type name lcn count cs data init flags =>
      type_ok type name ∧ 0 <= lcn < 2 ^ 63 ∧ 0 < count < 2 ^ 63 ∧ is_u64 data ∧ is_u64 init ∧ is_u16 flags
  | InsertName fn => Z.of_nat (length fn) <= 60000
  end.

(** What an operation means: on a list of attributes, in 1024 bytes. *)
Definition attr_len (a : attr) : Z :=
  match a_body a with
  | Resident val _ => resident_len (a_name a) val
  | Nonres lcn count _ _ _ _ => nonres_len (a_name a) count lcn
  end.
Definition used_by (al : list attr) : Z := foldr (λ a n, attr_len a + n) 0x38 al.

Definition new_attr (op : rop) (id : Z) : attr :=
  match op with
  | AddResident type name val indexed => resident_attr type name val indexed id
  | AddNonres type name lcn count cs data init flags => mkAttr type name id (Nonres lcn count (u64 (count * cs)) data init flags)
  | InsertName fn => resident_attr NTFS_AT_FILE_NAME [] fn 1 id
  end.

Definition spec_rop (al : list attr) (op : rop) : list attr :=
  let a := new_attr op (Z.of_nat (length al)) in
  if used_by al + attr_len a + 8 <=? NTFS_MFT_RECSZ
  then match op with InsertName _ => insert_name al a | _ => al ++ [a] end
  else al.

Lemma rop_adds recno r al op :
  rec_rep recno r al → rop_ok op →
  adds recno r (attr_len (new_attr op 0))
    (match op with InsertName _ => insert_name al (new_attr op (Z.of_nat (length al))) | _ => al ++ [new_attr op (Z.of_nat (length al))] end) (run_rop r op).
Proof.
  intros H Hop. destruct op as [type name val ix|type name lcn count cs data init flags|fn]; cbn [rop_ok] in Hop; cbn [run_rop].
  - destruct Hop as (? & ? & ?). by apply attr_resident_adds.
  - destruct Hop as (? & ? & ? & ? & ? & ?). by apply attr_nonres_adds.
  - by apply attr_insert_adds.
Qed.

Lemma used_by_app al1 al2 : used_by (al1 ++ al2) = used_by al1 + used_by al2 - 0x38.
Proof. unfold used_by. induction al1 as [|a al1 IH]; cbn [app foldr]; lia. Qed.

Lemma insert_used al a : used_by (insert_name al a) = used_by al + attr_len a.
Proof. unfold used_by. induction al as [|b al IH]; cbn [insert_name foldr]; [lia|]. destruct (0x30 <? a_type b); cbn [foldr]; lia. Qed.

(** The record and the list go together. *)
Definition tracks (recno : Z) (r : mftrec_t) (al : list attr) : Prop := rec_rep recno r al ∧ r_used r = used_by al.

Lemma rop_tracks recno r al op :
  tracks recno r al → rop_ok op →
  let r' := default r (run_rop r op) in tracks recno r' (spec_rop al op) ∧ same_meta r r'.
Proof.
  intros [H Hu] Hop. pose proof (rop_adds recno r al op H Hop) as Ha. unfold spec_rop.
  assert (attr_len (new_attr op 0) = attr_len (new_attr op (Z.of_nat (length al)))) as El by by destruct op. rewrite El in Ha.
  set (a := new_attr op (Z.of_nat (length al))) in *. rewrite <- Hu.
  destruct (run_rop r op) as [r'|]; cbn [adds] in Ha; cbn [default from_option]; unfold id.
  - destruct Ha as (A1 & A2 & A3 & A4). rewrite (proj2 (Z.leb_le _ _)) by done. split; [|done]. split; [done|]. rewrite A2, Hu.
    destruct op; [| |by rewrite insert_used]; rewrite used_by_app; unfold used_by; cbn [foldr]; lia.
  - rewrite (proj2 (Z.leb_gt _ _)) by lia. by split.
Qed.

(** With room for it an operation succeeds. *)
Lemma rop_fits recno r al op :
  tracks recno r al → rop_ok op → r_used r + attr_len (new_attr op 0) + 8 <= NTFS_MFT_RECSZ →
  ∃ r', run_rop r op = Some r' ∧ tracks recno r' (spec_rop al op) ∧ same_meta r r' ∧ r_used r' = r_used r + attr_len (new_attr op 0).
Proof.
  intros H Hop Hfit. pose proof (rop_tracks recno r al op H Hop) as [H1 H2]. destruct H as [H _].
  pose proof (rop_adds recno r al op H Hop) as Ha. destruct (run_rop r op) as [r'|]; cbn [adds] in Ha; [|lia].
  destruct Ha as (_ & Hu & _). by exists r'.
Qed.

Lemma spec_append al op : (match op with InsertName _ => False | _ => True end) →
  used_by al + attr_len (new_attr op 0) + 8 <= NTFS_MFT_RECSZ → spec_rop al op = al ++ [new_attr op (Z.of_nat (length al))].
Proof.
  intros Hop Hfit. unfold spec_rop. assert (attr_len (new_attr op 0) = attr_len (new_attr op (Z.of_nat (length al)))) as E by by destruct op.
  rewrite <- E, (proj2 (Z.leb_le _ _)) by done. by destruct op.
Qed.

Lemma spec_insert al fn : used_by al + resident_len [] fn + 8 <= NTFS_MFT_RECSZ →
  spec_rop al (InsertName fn) = insert_name al (resident_attr NTFS_AT_FILE_NAME [] fn 1 (Z.of_nat (length al))).
Proof. intros Hfit. unfold spec_rop. change (attr_len (new_attr (InsertName fn) (Z.of_nat (length al)))) with (resident_len [] fn). by rewrite (proj2 (Z.leb_le _ _)). Qed.

(** Appending an attribute that fits. *)
Lemma append_resident n r al t name val ix : tracks n r al → type_ok t name → Z.of_nat (length val) <= 60000 → 0 <= ix < 128 →
  r_used r + resident_len name val + 8 <= NTFS_MFT_RECSZ →
  ∃ r', attr_resident r t name val ix = Some r' ∧ tracks n r' (al ++ [resident_attr t name val ix (Z.of_nat (length al))]) ∧
    same_meta r r' ∧ r_used r' = r_used r + resident_len name val.
Proof.
  intros T Ht Hv Hix Hfit. destruct (rop_fits n r al (AddResident t name val ix) T ltac:(cbn [rop_ok]; split_and!; first [done|lia]) Hfit) as (r' & E & T' & M & U).
  exists r'. split_and!; try done. rewrite spec_append in T'; [done|done|by rewrite <- (proj2 T)].
Qed.

Lemma resident_done n r al t name val ix r' : tracks n r al → type_ok t name → Z.of_nat (length val) <= 60000 → 0 <= ix < 128 →
  attr_resident r t name val ix = Some r' →
  tracks n r' (al ++ [resident_attr t name val ix (Z.of_nat (length al))]) ∧ same_meta r r' ∧
  r_used r' = r_used r + resident_len name val ∧ r_used r' + 8 <= NTFS_MFT_RECSZ.
Proof.
  intros T Ht Hv Hix E. pose proof (attr_resident_adds n r al t name val ix (proj1 T) Ht Hv Hix) as Ha. rewrite E in Ha. destruct Ha as (Hfit & _).
  destruct (append_resident n r al t name val ix T Ht Hv Hix Hfit) as (r2 & E2 & T2 & M2 & U2). rewrite E in E2. injection E2 as <-.
  split_and!; [done|done|done|lia].
Qed.

Lemma append_nonres n r al t name lcn count cs data init flags :
  tracks n r al → type_ok t name → 0 <= lcn < 2 ^ 63 → 0 < count < 2 ^ 63 → is_u64 data → is_u64 init → is_u16 flags →
  r_used r + nonres_len name count lcn + 8 <= NTFS_MFT_RECSZ →
  ∃ r', attr_nonres r t name lcn count cs data init flags = Some r' ∧
    tracks n r' (al ++ [mkAttr t name (Z.of_nat (length al)) (Nonres lcn count (u64 (count * cs)) data init flags)]) ∧
    same_meta r r' ∧ r_used r' = r_used r + nonres_len name count lcn.
Proof.
  intros T Ht Hl Hc Hd Hi Hf Hfit. destruct (rop_fits n r al (AddNonres t name lcn count cs data init flags) T ltac:(cbn [rop_ok]; split_and!; first [done|lia]) Hfit) as (r' & E & T' & M & U).
  exists r'. split_and!; try done. rewrite spec_append in T'; [done|done|by rewrite <- (proj2 T)].
Qed.

Lemma nonres_done n r al t name lcn count cs data init flags r' :
  tracks n r al → type_ok t name → 0 <= lcn < 2 ^ 63 → 0 < count < 2 ^ 63 → is_u64 data → is_u64 init → is_u16 flags →
  attr_nonres r t name lcn count cs data init flags = Some r' →
  tracks n r' (al ++ [mkAttr t name (Z.of_nat (length al)) (Nonres lcn count (u64 (count * cs)) data init flags)]) ∧
  same_meta r r' ∧ r_used r' = r_used r + nonres_len name count lcn ∧ r_used r' + 8 <= NTFS_MFT_RECSZ.
Proof.
  intros T Ht Hl Hc Hd Hi Hf E. pose proof (attr_nonres_adds n r al t name lcn count cs data init flags (proj1 T) Ht Hl Hc Hd Hi Hf) as Ha.
  rewrite E in Ha. destruct Ha as (Hfit & _).
  destruct (append_nonres n r al t name lcn count cs data init flags T Ht Hl Hc Hd Hi Hf Hfit) as (r2 & E2 & T2 & M2 & U2). rewrite E in E2. injection E2 as <-.
  split_and!; [done|done|done|lia].
Qed.

Lemma resident_len_bound val : Z.of_nat (length val) <= 60000 →
  0x18 + Z.of_nat (length val) <= resident_len [] val < 0x18 + Z.of_nat (length val) + 8 ∧ resident_len [] val mod 8 = 0.
Proof. intros H. unfold resident_len. change (align8u (24 + 2 * Z.of_nat (length (@nil Z)))) with 24. apply align8u_spec. lia. Qed.

Lemma nonres_len_bound count lcn : 0 <= count < 2 ^ 63 → 0 <= lcn < 2 ^ 63 → 0x40 <= nonres_len [] count lcn <= 88.
Proof.
  intros Hc Hl. pose proof (length_enc_single_run count lcn Hc Hl). unfold nonres_len. change (align8u (64 + 2 * Z.of_nat (length (@nil Z)))) with 64.
  destruct (align8u_spec (64 + Z.of_nat (length (enc_single_run count lcn))) ltac:(lia)) as [H1 H2]. dlia.
Qed.

Definition run_rops (r : mftrec_t) (ops : list rop) : mftrec_t := fold_left (λ r op, default r (run_rop r op)) ops r.
Definition spec_rops (al : list attr) (ops : list rop) : list attr := fold_left spec_rop ops al.

Lemma same_meta_trans r1 r2 r3 : same_meta r1 r2 → same_meta r2 r3 → same_meta r1 r3.
Proof. unfold same_meta. intuition congruence. Qed.

Lemma rops_tracks recno ops : Forall rop_ok ops → ∀ r al,
  tracks recno r al → tracks recno (run_rops r ops) (spec_rops al ops) ∧ same_meta r (run_rops r ops).
Proof.
  induction 1 as [|op ops Hop _ IH]; intros r al H; [by split; [|unfold same_meta]|].
  destruct (rop_tracks recno r al op H Hop) as [H1 H2]. destruct (IH _ _ H1) as [H3 H4].
  unfold run_rops, spec_rops in *. cbn [fold_left]. split; [exact H3|]. by eapply same_meta_trans.
Qed.

(** Identifiers stay distinct. *)
Definition ids_fresh (al : list attr) : Prop := NoDup (map a_id al) ∧ Forall (λ a, 0 <= a_id a < Z.of_nat (length al)) al.

Lemma insert_name_perm al a : insert_name al a ≡ₚ a :: al.
Proof.
  induction al as [|b al IH]; [done|]. cbn [insert_name]. destruct (0x30 <? a_type b); [done|].
  rewrite IH. apply Permutation_swap.
Qed.

Lemma ids_cons al al' a : al' ≡ₚ a :: al → a_id a = Z.of_nat (length al) → ids_fresh al → ids_fresh al'.
Proof.
  intros Hp Ha [H1 H2]. unfold ids_fresh. rewrite (Permutation_length Hp). split.
  - rewrite Hp. cbn [map]. constructor; [|done]. intros Hin. apply list_elem_of_fmap in Hin as (b & Eb & Hb).
    rewrite list.Forall_forall in H2. pose proof (H2 b Hb) as Hlt. cbn beta in Hlt. lia.
  - rewrite Hp. cbn [length]. constructor; [lia|]. eapply Forall_impl; [exact H2|]. simpl. lia.
Qed.

Lemma spec_rop_ids al op : ids_fresh al → ids_fresh (spec_rop al op).
Proof.
  intros H. unfold spec_rop. destruct (_ <=? _); [|done]. set (a := new_attr op _).
  assert (a_id a = Z.of_nat (length al)) as Ea by by destruct op.
  destruct op; (eapply (ids_cons al _ a); [|exact Ea|exact H]); [| |by rewrite insert_name_perm]; rewrite (Permutation_app_comm al); done.
Qed.

(** Every appended attribute is of the greatest type so far. *)
Fixpoint ascending (al : list attr) (ops : list rop) : bool :=
  match ops with
  | [] => true
  | op :: ops' =>
      (match op with InsertName _ => true | _ => forallb (λ b, a_type b <=? a_type (new_attr op 0)) al end) &&
      ascending (spec_rop al op) ops'
  end.

Definition by_type (al : list attr) : Prop := StronglySorted (λ x y, a_type x <= a_type y) al.

Lemma snoc_sorted al a : by_type al → Forall (λ b, a_type b <= a_type a) al → by_type (al ++ [a]).
Proof.
  unfold by_type. induction 1 as [|b al Hs IH Hb]; intros Ha; cbn [app]; [repeat constructor|].
  inversion Ha; subst. constructor; [by apply IH|]. apply Forall_app. split; [done|by constructor].
Qed.

Lemma spec_rop_sorted al op ops : by_type al → ascending al (op :: ops) = true → by_type (spec_rop al op).
Proof.
  intros Hs H. cbn [ascending] in H. apply andb_prop in H as [H _]. unfold spec_rop. destruct (_ <=? _); [|done].
  destruct op; [| |by apply insert_name_sorted]; (apply snoc_sorted; [done|]);
    (apply list.Forall_forall; intros b Hb; rewrite forallb_forall in H; apply list_elem_of_In in Hb; apply H in Hb; zbool; exact Hb).
Qed.

Lemma spec_rops_facts ops : ∀ al,
  ids_fresh al → ids_fresh (spec_rops al ops) ∧ (by_type al → ascending al ops = true → by_type (spec_rops al ops)).
Proof.
  induction ops as [|op ops IH]; intros al H; [done|]. destruct (IH (spec_rop al op) (spec_rop_ids al op H)) as [H1 H2].
  unfold spec_rops in *. cbn [fold_left]. split; [done|]. intros Hs Ha. pose proof (spec_rop_sorted al op ops Hs Ha) as Hs'.
  apply H2; [done|]. cbn [ascending] in Ha. by apply andb_prop in Ha as [_ Ha].
Qed.

(** C39. A record reads back as the attributes it was given.  Whatever is
    appended ([attr_resident], [attr_nonres]) or inserted
    ([attr_insert_filename]) and whatever is refused for lack of room, the bytes
    [put_record] writes are a sound 1024-byte record from which a reader that
    checks the sector protection gets exactly the attributes kept: values and
    names unchanged, runs decoded to the cluster and count given, identifiers
    distinct, and in ascending type order when the appends are ascending, the
    inserted names among them. *)
Theorem ntfs_record_attrs recno is_dir ops :
  is_u32 recno → Forall rop_ok ops →
  let r := run_rops (rec_new recno is_dir) ops in
  let al := spec_rops [] ops in
  let raw := put_bytes recno r in
  Z.of_nat (length raw) = NTFS_MFT_RECSZ ∧
  read_filerec raw = Some (mkFile (r_seq (rec_new recno is_dir)) 1 (if is_dir then 3 else 1) 0 (Z.of_nat (length al)) recno al) ∧
  NoDup (map a_id al) ∧ (ascending [] ops = true → by_type al) ∧ used_by al + 8 <= NTFS_MFT_RECSZ.
Proof.
  intros Hr Hops r al raw. assert (tracks recno (rec_new recno is_dir) []) as H0 by (split; [by apply rec_new_rep|reflexivity]).
  destruct (rops_tracks recno ops Hops _ _ H0) as [[H1 Hu] (M1 & M2 & M3 & M4 & M5 & M6 & M7 & M8)]. fold r al in H1, Hu, M1, M2, M3, M4, M5, M6, M7, M8.
  assert (ids_fresh []) as Hi0 by (split; [constructor|constructor]). destruct (spec_rops_facts ops [] Hi0) as [[Hi _] Hs]. fold al in Hi, Hs.
  assert (r_flags (rec_new recno is_dir) = if is_dir then 3 else 1) as Ef by by destruct is_dir.
  assert (is_u16 (r_seq (rec_new recno is_dir))) as Hseq.
  { unfold is_u16, rec_new. cbn [r_seq]. destruct (_ && _); [|lia]. unfold u16. pose proof (Z.mod_pos_bound recno 65536 ltac:(lia)). lia. }
  assert (meta_ok r) as HM.
  { unfold meta_ok. rewrite M1, M2, M3, M8, Ef. split_and!; [exact Hseq|by vm_compute|by destruct is_dir|by vm_compute]. }
  destruct (read_put recno recno r al H1 HM) as [R1 R2]. fold raw in R1, R2. unfold file_of in R1. rewrite M1, M2, M3, M8, Ef in R1.
  destruct (rep_facts _ _ _ H1) as (_ & U2 & _). rewrite Hu in U2. split_and!; [exact R2|exact R1|exact Hi| |exact U2].
  intros Ha. apply Hs; [constructor|exact Ha].
Qed.

Definition sample_rops : list rop :=
  [AddResident NTFS_AT_STANDARD_INFORMATION [] (replicate 72 7) 0;
   AddResident NTFS_AT_FILE_NAME [] (replicate 0x44 1) 0;
   AddResident NTFS_AT_DATA [] (replicate 900 0) 0;
   AddNonres NTFS_AT_DATA [] 5000 300 4096 1228000 1228000 0;
   InsertName (replicate 0x46 2);
   AddResident NTFS_AT_DATA [36; 105] [1; 2; 3] 0].

(** The value of 900 bytes does not fit; the inserted name stands before the data. *)
Lemma ntfs_record_attrs_witness :
  map a_type (spec_rops [] sample_rops) = [0x10; 0x30; 0x30; 0x80; 0x80] ∧
  f_attrs <$> read_filerec (put_bytes 40 (run_rops (rec_new 40 false) sample_rops)) = Some (spec_rops [] sample_rops).
Proof.
  split; [reflexivity|]. destruct (ntfs_record_attrs 40 false sample_rops) as (_ & -> & _).
  - by vm_compute.
  - repeat constructor; unfold is_u16; vm_compute; congruence.
  - reflexivity.
Defined.
