(* ===== verification/NtfsLookup.v ===== *)
(** * A directory of an NTFS volume ([src/tools/iso-patch-mac/engine/ntfs.c]:
      [build_directory_index], up to the value of [$INDEX_ROOT])

    From the names of a directory to its [$INDEX_ROOT] value and the index
    blocks on the disk, and a driver's lookup over both.  [qsort] is any
    function that returns a sorted permutation; the upper-case table, the size
    of the record so far and the place of the index's clusters are arguments. *)

From Stdlib Require Import String Sorted.
From stdpp Require Import sorting.
From S2P Require Import Prelude Bytes WStr BlockIO ImageWrites NtfsCodec NtfsIndex NtfsDir NtfsRecord.

Definition idx_cmp (upcase : Z → Z) (a b : idx_entry_t) : Z := collate_filename upcase (x_key a) (x_key b).

(** [leaf_in[i]] *)
Definition leaf_in (e : idx_entry_t) : bentry_t := mkBentry (x_ref e) (x_key e) 0 None.

(** What a record of [used] bytes has room for. *)
Definition free_now (used : Z) : Z :=
  let fixed := 0x20 + 0x10 + 0x10 + 8 + 8 in
  if used + fixed <? NTFS_MFT_RECSZ then NTFS_MFT_RECSZ - used - fixed else 0.
Definition root_budget (used : Z) : Z :=
  let reserve := 0x60 + 0x60 in
  if reserve <? free_now used then free_now used - reserve else 0.

(** The blocks and their number, and the root's entries, whether they have
    children, and the child of its END. *)
Record dirindex := mkDirIndex { i_specs : list nodespec_t; i_blocks : Z; i_ents : list bentry_t; i_large : bool; i_end : Z }.

(** The tree for a record of [used] bytes: in the root, or in blocks below it. *)
Definition plan_index (used : Z) (entries : list idx_entry_t) : option dirindex :=
  let e := map leaf_in entries in
  let small := body_size false e in
  if small <=? free_now used then Some (mkDirIndex [] 0 e false 0) else
  p ← build_tree e (root_budget used);
  Some (mkDirIndex (p_specs p) (p_next p) (p_out p) true (p_right p)).

(** The value of [$INDEX_ROOT]. *)
Definition index_root (x : dirindex) : list Z :=
  let bs := serialize_body (i_ents x) (i_large x) (i_end x) in
  let val_len := 0x20 + Z.of_nat (length bs) in
  let val := replicate 0x20 0 ++ bs in
  let val := w32 (w32 (w32 val 0 NTFS_AT_FILE_NAME) 4 1) 8 NTFS_INDX_SIZE in
  let val := splice val 0x0C [1] in
  let val := w32 (w32 (w32 val 0x10 0x10) 0x14 (val_len - 0x10)) 0x18 (val_len - 0x10) in
  splice val 0x1C [if i_large x then 1 else 0].

(** ** The driver *)

(** The root's entries, whether they have children, and its END's child. *)
Definition open_root (val : list Z) : option (list bentry_t * bool * Z) :=
  if negb (r32 val 0 =? NTFS_AT_FILE_NAME) || negb (r32 val 8 =? NTFS_INDX_SIZE) then None else
  let eo := r32 val 0x10 in
  let len := r32 val 0x14 in
  '(es, e) ← read_body (length val) (sub val (Z.to_nat (0x10 + eo)) (Z.to_nat (len - eo)));
  Some (es, Z.odd (bget val 0x1C), e).

(** The reference of a name: [Some None] when the directory has none. *)
Definition lookup_dir (h : nat) (upcase : Z → Z) (m : mem) (base : Z) (root : list Z) (key : list Z) : option (option Z) :=
  '(es, internal, e) ← open_root root;
  search h (read_node m base) (collate_filename upcase) key internal es e.

(** ** The root read back *)

Lemma open_root_ok B x :
  Forall (entry_wf B) (i_ents x) → B <= 2 ^ 62 → 0 <= i_end x < B → body_size (i_large x) (i_ents x) <= 65536 →
  open_root (index_root x) = Some (map (norm (i_large x)) (i_ents x), i_large x, if i_large x then i_end x else 0).
Proof.
  intros He HB Hend Hs. pose proof (length_serialize B (i_large x) (i_ents x) (i_end x) He HB) as Hl.
  pose proof (sizes_count B (i_large x) _ He) as Hc. assert (16 <= end_size (i_large x)) as Hes by (destruct (i_large x); vm_compute; congruence).
  unfold index_root. remember (serialize_body (i_ents x) (i_large x) (i_end x)) as bs eqn:Ebs.
  set (p0 := replicate 0x20 0 ++ bs). assert (Z.of_nat (length p0) = 0x20 + Z.of_nat (length bs)) as E0
    by (unfold p0; rewrite length_app, length_replicate; lia).
  assert (sub p0 (Z.to_nat 0x20) (length bs) = bs) as Eb.
  { unfold p0, sub. rewrite drop_app_length' by (rewrite length_replicate; lia). by rewrite firstn_all. }
  assert (0 < Z.of_nat (length bs)) by (unfold body_size in Hl; lia). clearbody p0.
  match goal with |- context [splice (w32 (w32 (w32 ?l 0x10 0x10) 0x14 ?a) 0x18 ?a) 0x1C ?y] =>
    change (splice (w32 (w32 (w32 l 0x10 0x10) 0x14 a) 0x18 a) 0x1C y) with (splice (w32 (w32 (w32 l 0x10 0x10) 0x14 a) 0x18 a) (Z.to_nat 0x1C) y) end.
  change (splice ?l 0x0C [1]) with (splice l (Z.to_nat 0x0C) [1]).
  set (v := 0x20 + Z.of_nat (length bs) - 0x10). set (val := splice _ (Z.to_nat 0x1C) _).
  assert (Z.of_nat (length val) = Z.of_nat (length p0)) as El by (unfold val, w32; rewrite !length_splice; done).
  assert (r32 val 0 = NTFS_AT_FILE_NAME ∧ r32 val 8 = NTFS_INDX_SIZE ∧ r32 val 0x10 = 0x10 ∧ r32 val 0x14 = v) as (R1 & R2 & R3 & R4).
  { unfold val. split_and!; skip_fields; this_field; try reflexivity.
    apply le_val_le_bytes_small. change (256 ^ Z.of_nat 4) with 4294967296. unfold v. lia. }
  assert (sub val (Z.to_nat 0x1C) 1 = [if i_large x then 1 else 0]) as R5.
  { unfold val, w32. this_field. done. }
  assert (sub val (Z.to_nat 0x20) (length bs) = bs) as R6 by (rewrite <- Eb at 2; unfold val; by skip_fields).
  clearbody val. unfold open_root. rewrite R1, R2, !Z.eqb_refl. cbn [negb orb]. rewrite R3, R4, (bget_sub1 val 0x1C _ ltac:(lia) R5).
  change (0x10 + 0x10) with 0x20. replace (v - 0x10) with (Z.of_nat (length bs)) by (unfold v; lia). rewrite Nat2Z.id, R6, Ebs.
  rewrite <- (app_nil_r (serialize_body _ _ _)). rewrite (read_serialized B); [|done|done|unfold is_u64; lia|unfold body_size in *; lia].
  cbn [mbind option_bind]. by destruct (i_large x).
Qed.

(** ** Sorted names are a search order *)

Lemma lexcmp_le_trans x y z : lexcmp x y <= 0 → lexcmp y z <= 0 → lexcmp x z <= 0.
Proof.
  intros H1 H2. destruct (Z.eq_dec (lexcmp x y) 0) as [E|E]; [by apply lexcmp_zero in E as ->|].
  destruct (Z.eq_dec (lexcmp y z) 0) as [E'|E']; [by apply lexcmp_zero in E' as <-|].
  apply Z.lt_le_incl. apply (lexcmp_trans x y z); lia.
Qed.

Definition names (upcase : Z → Z) (l : list idx_entry_t) : list (list Z) := map (λ e, folded upcase (x_key e)) l.

Lemma sorted_before upcase l :
  Sorted (λ a b, idx_cmp upcase a b <= 0) l → NoDup (names upcase l) →
  StronglySorted (before (folded upcase)) (map payload (map leaf_in l)).
Proof.
  intros Hs Hn. apply Sorted_StronglySorted in Hs.
  2:{ intros a b c. unfold idx_cmp. rewrite !collate_lex. apply lexcmp_le_trans. }
  induction Hs as [|a l Hl IH Ha]; [constructor|]. cbn [map names] in *. apply NoDup_cons in Hn as [Hin Hn].
  constructor; [by apply IH|]. rewrite map_map. apply Forall_map, list.Forall_forall. intros b Hb.
  rewrite list.Forall_forall in Ha. pose proof (Ha b Hb) as Hle. unfold idx_cmp in Hle. rewrite collate_lex in Hle.
  unfold before. cbn [item_key payload leaf_in fst snd b_key].
  destruct (Z.eq_dec (lexcmp (folded upcase (x_key a)) (folded upcase (x_key b))) 0) as [E|E]; [|lia].
  apply lexcmp_zero in E. destruct Hin. unfold names. rewrite E. by apply (list_elem_of_fmap_2 (λ e, folded upcase (x_key e))).
Qed.

Lemma lookup_name_in f l p : StronglySorted (before f) l → p ∈ l → lookup_name f (item_key p) l = Some (fst (fst p)).
Proof.
  induction 1 as [|q l Hl IH Hq]; intros Hp; [by apply not_elem_of_nil in Hp|]. cbn [lookup_name].
  apply elem_of_cons in Hp as [->|Hp]; [by rewrite bool_decide_true|]. rewrite bool_decide_false; [by apply IH|].
  rewrite list.Forall_forall in Hq. pose proof (Hq p Hp) as Hlt. unfold before in Hlt. intros E. rewrite E in Hlt.
  pose proof (proj2 (lexcmp_zero (f (item_key p)) _) eq_refl). lia.
Qed.

Lemma lookup_name_folded f k k' l : f k = f k' → lookup_name f k l = lookup_name f k' l.
Proof. intros E. induction l as [|p l IH]; [done|]. cbn [lookup_name]. by rewrite E, IH. Qed.

(** ** Building the index *)

Definition idx_wf (e : idx_entry_t) : Prop := is_u64 (x_ref e) ∧ Z.of_nat (length (x_key e)) <= 0x42 + 2 * 255.

Lemma leaf_in_wf e : idx_wf e → entry_wf (2 ^ 62) (leaf_in e).
Proof. intros [H1 H2]. refine (conj H1 (conj eq_refl (conj _ _))); [unfold key_len; cbn [leaf_in b_key]; lia|cbn [leaf_in b_sub]; lia]. Qed.

(** What a built index is: the blocks a well-formed tree, the root within what
    the record has room for. *)
Record index_ok (used : Z) (n : Z) (x : dirindex) : Prop := {
  ix_ents : Forall (entry_wf (2 ^ 62)) (i_ents x);
  ix_end : 0 <= i_end x < 2 ^ 62;
  ix_nodes : Forall (λ ns, node_wf (2 ^ 62) (n_internal ns) ns) (i_specs x);
  ix_vcns : map n_vcn (i_specs x) = seqZ 0 (Z.of_nat (length (i_specs x)));
  ix_blocks : i_blocks x = Z.of_nat (length (i_specs x));
  ix_count : i_blocks x <= 3 * n;
  ix_fit : body_size (i_large x) (i_ents x) <= free_now used;
  ix_root : i_large x = true → body_size true (i_ents x) <= root_budget used ∨ i_ents x = [];
  ix_leaf : if i_large x then 0 < i_blocks x else i_specs x = [];
}.

Lemma plan_index_ok used entries :
  0 <= used → used + 0x68 <= NTFS_MFT_RECSZ → Forall idx_wf entries → 3 * Z.of_nat (length entries) <= 2 ^ 60 →
  ∃ x, plan_index used entries = Some x ∧ index_ok used (Z.of_nat (length entries)) x ∧
  ∃ h, body (node_table (i_specs x)) h (i_ents x) (i_end x) (map payload (map leaf_in entries)) ∧ i_large x = negb (Nat.eqb h 0).
Proof.
  intros H0 Hu Hwf Hlen. assert (Forall (entry_wf (2 ^ 62)) (map leaf_in entries)) as Hins
    by (apply Forall_map; eapply Forall_impl; [exact Hwf|apply leaf_in_wf]).
  unfold plan_index. destruct (Z.leb_spec (body_size false (map leaf_in entries)) (free_now used)) as [Hs|Hs].
  { eexists. split; [reflexivity|]. split; [constructor; cbn [i_specs i_blocks i_ents i_large i_end length]; [exact Hins|lia|constructor|done|done|lia|exact Hs|done|done]|].
    exists 0%nat. by split. }
  assert (free_now used = NTFS_MFT_RECSZ - used - 80) as Ef
    by (unfold free_now, NTFS_MFT_RECSZ in *; rewrite (proj2 (Z.ltb_lt _ _)) by lia; lia). unfold NTFS_MFT_RECSZ in *.
  assert (root_budget used <= free_now used) as Eb by (unfold root_budget; destruct (Z.ltb_spec (0x60 + 0x60) (free_now used)); lia).
  assert (map leaf_in entries ≠ []) as Hne.
  { intros E. rewrite E in Hs. assert (body_size false [] = 16) as E16 by reflexivity. rewrite E16 in Hs. lia. }
  destruct (build_tree_ok (2 ^ 62) (map leaf_in entries) (root_budget used) Hne Hins) as (p & Hp & T & Hnext & Hfit);
    [rewrite length_map; lia|]. rewrite length_map in Hnext. destruct T as [T1 T2 T3 T4 T5]. rewrite Hp. cbn [mbind option_bind].
  eexists. split; [reflexivity|]. split.
  - constructor; cbn [i_specs i_blocks i_ents i_large i_end]; [exact T4|lia|exact T1|exact T2|exact T3|lia| |intros _; exact Hfit|lia].
    destruct Hfit as [Hfit| ->]; [lia|]. assert (body_size true [] = 24) as E24 by reflexivity. rewrite E24. lia.
  - cbn [i_specs i_ents i_large i_end]. destruct (build_tree_body (node_table (p_specs p)) _ _ _ Hp (node_table_has _ T2)) as (h & Hh & Hb).
    exists h. split; [exact Hb|]. by destruct h; [lia|].
Qed.

Lemma length_index_root used n x : index_ok used n x → Z.of_nat (length (index_root x)) = 0x20 + body_size (i_large x) (i_ents x).
Proof.
  intros X. pose proof (length_serialize (2 ^ 62) (i_large x) (i_ents x) (i_end x) (ix_ents _ _ _ X) ltac:(lia)) as Hl.
  unfold index_root, w32. rewrite !length_splice, length_app, length_replicate. lia.
Qed.

(** A device with the blocks: the descent from the root. *)
Lemma lookup_dir_read upcase used base l x h m m' :
  index_ok used (Z.of_nat (length l)) x → 0 <= used → 3 * Z.of_nat (length l) <= 2 ^ 62 →
  body (node_table (i_specs x)) h (i_ents x) (i_end x) (map payload (map leaf_in l)) → i_large x = negb (Nat.eqb h 0) →
  StronglySorted (before (folded upcase)) (map payload (map leaf_in l)) →
  m' ≡m apply_writes m (map (emit_indx base) (i_specs x)) →
  ∀ key, lookup_dir h upcase m' base (index_root x) key = Some (lookup_name (folded upcase) key (map payload (map leaf_in l))).
Proof.
  intros X Hu Hl62 Hbody Hlarge Hs Hv key. destruct X as [X1 X2 X3 X4 Xb X5 X6 _ _].
  assert (Z.of_nat (length (i_specs x)) <= 2 ^ 62) as Hlen by lia.
  unfold lookup_dir. rewrite (open_root_ok (2 ^ 62)); [|exact X1|lia|lia|].
  2:{ unfold free_now, NTFS_MFT_RECSZ in X6. destruct (_ <? _) in X6; lia. }
  cbn [mbind option_bind]. rewrite Hlarge.
  apply (search_body (collate_filename upcase) (folded upcase) (collate_lex upcase) (λ v, norm_node <$> node_table (i_specs x) v)); [|by apply body_norm|exact Hs].
  intros v ns Hns. by apply (emitted_nodes (2 ^ 62) ltac:(lia) (i_specs x) X3 X4 Hlen m m' base v ns Hv).
Qed.

(** The blocks and the root, written and read back. *)
Lemma lookup_dir_body {D} `{Image D} (d : D) upcase used base l x h :
  img_ok d → 0 <= base → base + 3 * Z.of_nat (length l) * NTFS_INDX_SIZE <= OFF_MAX →
  img_live (3 * Z.of_nat (length l) * NTFS_INDX_SIZE) d → index_ok used (Z.of_nat (length l)) x → 0 <= used →
  body (node_table (i_specs x)) h (i_ents x) (i_end x) (map payload (map leaf_in l)) → i_large x = negb (Nat.eqb h 0) →
  StronglySorted (before (folded upcase)) (map payload (map leaf_in l)) →
  ∃ d', puts d (map (emit_indx base) (i_specs x)) = Some d' ∧
  ∀ key, lookup_dir h upcase (img_view d') base (index_root x) key = Some (lookup_name (folded upcase) key (map payload (map leaf_in l))).
Proof.
  intros Hok Hb0 Hb1 Hlive X Hu Hbody Hlarge Hs. pose proof X as [X1 X2 X3 X4 Xb X5 X6 _ _]. unfold NTFS_INDX_SIZE, OFF_MAX in Hb1.
  assert (Z.of_nat (length (i_specs x)) <= 2 ^ 62) as Hlen by lia. set (n := Z.of_nat (length (i_specs x))) in *.
  destruct (puts_total (map (emit_indx base) (i_specs x)) d 0) as (d' & Hd & _ & _ & Hv & _); [done| |lia| |].
  { apply (emit_fit (2 ^ 62) ltac:(lia) (i_specs x) X3 X4 Hlen); [done|]. unfold NTFS_INDX_SIZE, OFF_MAX. fold n. lia. }
  { rewrite (emit_len (2 ^ 62) ltac:(lia) (i_specs x) X3 X4 Hlen). eapply img_live_le; [exact Hlive|]. unfold NTFS_INDX_SIZE. fold n. lia. }
  exists d'. split; [exact Hd|]. by apply (lookup_dir_read upcase used base l x h (img_view d) (img_view d') X Hu ltac:(lia) Hbody Hlarge Hs).
Qed.

(** A sorted listing answers for exactly its entries. *)
Lemma lookup_listed upcase srt entries : srt ≡ₚ entries → StronglySorted (before (folded upcase)) (map payload (map leaf_in srt)) →
  (∀ e key, e ∈ entries → folded upcase key = folded upcase (x_key e) → lookup_name (folded upcase) key (map payload (map leaf_in srt)) = Some (x_ref e)) ∧
  (∀ key, folded upcase key ∉ names upcase entries → lookup_name (folded upcase) key (map payload (map leaf_in srt)) = None).
Proof.
  intros Hp Hs. split.
  - intros e key He Hk. rewrite <- Hp in He. change (Some (x_ref e)) with (Some (fst (fst (payload (leaf_in e))))).
    rewrite <- (lookup_name_in (folded upcase) _ (payload (leaf_in e)) Hs) by (do 2 apply list_elem_of_fmap_2; exact He). by apply lookup_name_folded.
  - intros key Hk. apply lookup_absent. rewrite map_map. apply Forall_map, list.Forall_forall. intros e He E.
    apply Hk. rewrite <- E. unfold names. rewrite <- Hp. by apply (list_elem_of_fmap_2 (λ e, folded upcase (x_key e))).
Qed.

(** ** Concrete directories *)

(** Names of ASCII letters, a key of a name, and a directory of three. *)
Definition ascii_upcase (c : Z) : Z := if (97 <=? c) && (c <=? 122) then c - 32 else c.
Definition key_of (name : list Z) : list Z :=
  replicate 0x40 0 ++ [Z.of_nat (length name); 0] ++ unit_bytes name.
Definition demo_names : list idx_entry_t :=
  [mkIdx 70 (key_of [98; 46; 65]); mkIdx 71 (key_of [97]); mkIdx 72 (key_of [66])].

Definition cmp_le (a b : idx_entry_t) : Prop := idx_cmp ascii_upcase a b <= 0.
#[local] Instance cmp_le_dec a b : Decision (cmp_le a b).
Proof. unfold cmp_le. apply _. Defined.
#[local] Instance cmp_le_total : Total cmp_le.
Proof.
  intros a b. unfold cmp_le, idx_cmp. rewrite !collate_lex, (lexcmp_sym (folded ascii_upcase (x_key a))). lia.
Qed.

Definition demo_sort (l : list idx_entry_t) : list idx_entry_t := merge_sort cmp_le l.

Lemma demo_sort_ok l : demo_sort l ≡ₚ l ∧ Sorted (λ a b, idx_cmp ascii_upcase a b <= 0) (demo_sort l).
Proof. split; [apply merge_sort_Permutation|]. apply (Sorted_merge_sort cmp_le). Qed.

(** A directory of eighty names in two blocks and a root of one. *)
Definition many_names : list idx_entry_t :=
  map (λ i, mkIdx (100 + i) (key_of [120; 48 + i / 10; 48 + i mod 10])) (seqZ 0 80).

Example many_names_tree :
  match plan_index 300 (demo_sort many_names) with
  | Some x => i_large x = true ∧ length (i_specs x) = 2%nat ∧ length (i_ents x) = 1%nat ∧ length (index_root x) = 152%nat
  | None => False
  end.
Proof. vm_compute. split_and!; reflexivity. Qed.

(** The collation goes up from A to b. *)
Example collation_up : idx_cmp ascii_upcase (mkIdx 0 (key_of [97])) (mkIdx 0 (key_of [66])) < 0.
Proof. vm_compute. reflexivity. Qed.
