(* ===== verification/NtfsVolume.v ===== *)
(** * The NTFS volume writer up to its close
      ([src/tools/iso-patch-mac/engine/ntfs.c]: [ntfs_writer_open], the cluster
      allocator, [ntfs_secure_intern], [add_common] and the [ntfs_add_*] calls)

    The writer keeps its records in memory, streams file contents to the disk
    and serialises the rest when it is closed.  A step that would read or write
    outside a buffer of the program ends in [None]: a parent that has no record,
    a name longer than the key buffer, a cluster past the allocation bitmap. *)

From Stdlib Require Import String.
From S2P Require Import Prelude Bytes Bitmap WStr BlockIO ImageWrites NtfsCodec NtfsRecord.

Definition cluster_size : Z := 4096.
Definition spc : Z := cluster_size / NTFS_SECTOR.
Definition NTFS_REC_ROOT : Z := 5.
Definition NTFS_REC_EXTEND : Z := 11.

Record sec_desc_t := mkSec { s_sd : list Z; s_hash : Z; s_id : Z; s_sds_offset : Z }.

(** [rec] holds the [nrec] records there are, [cap_rec] the pointers there is
    room for; [rpl] the reparse points. *)
Record ntfs_writer := mkW {
  part_off : Z; part_sectors : Z; total_clusters : Z; next_lcn : Z; serial : Z;
  clbmp : list Z; mft_zone_end : Z; reserve_lcn : Z; reserve_len : Z; mftmirr_lcn : Z;
  rec : list mftrec_t; cap_rec : Z; sec : list sec_desc_t; rpl : list (Z * Z);
  label : list Z; root_sec_id : Z; root_attrs : Z }.

Definition set_rec (w : ntfs_writer) (l : list mftrec_t) (cap : Z) : ntfs_writer :=
  mkW (part_off w) (part_sectors w) (total_clusters w) (next_lcn w) (serial w) (clbmp w) (mft_zone_end w) (reserve_lcn w)
    (reserve_len w) (mftmirr_lcn w) l cap (sec w) (rpl w) (label w) (root_sec_id w) (root_attrs w).
Definition set_lcns (w : ntfs_writer) (lcn : Z) (bmp : list Z) : ntfs_writer :=
  mkW (part_off w) (part_sectors w) (total_clusters w) lcn (serial w) bmp (mft_zone_end w) (reserve_lcn w)
    (reserve_len w) (mftmirr_lcn w) (rec w) (cap_rec w) (sec w) (rpl w) (label w) (root_sec_id w) (root_attrs w).
Definition set_sec (w : ntfs_writer) (l : list sec_desc_t) : ntfs_writer :=
  mkW (part_off w) (part_sectors w) (total_clusters w) (next_lcn w) (serial w) (clbmp w) (mft_zone_end w) (reserve_lcn w)
    (reserve_len w) (mftmirr_lcn w) (rec w) (cap_rec w) l (rpl w) (label w) (root_sec_id w) (root_attrs w).
Definition set_rpl (w : ntfs_writer) (l : list (Z * Z)) : ntfs_writer :=
  mkW (part_off w) (part_sectors w) (total_clusters w) (next_lcn w) (serial w) (clbmp w) (mft_zone_end w) (reserve_lcn w)
    (reserve_len w) (mftmirr_lcn w) (rec w) (cap_rec w) (sec w) l (label w) (root_sec_id w) (root_attrs w).

Definition nrec (w : ntfs_writer) : Z := Z.of_nat (length (rec w)).

(** ** Clusters *)

Definition alloc_clusters (w : ntfs_writer) (n : Z) : option (Z * ntfs_writer) :=
  let lcn :=
    if negb (reserve_len w =? 0) && (next_lcn w <? u64 (reserve_lcn w + reserve_len w)) && (reserve_lcn w <? u64 (next_lcn w + n))
    then u64 (reserve_lcn w + reserve_len w) else next_lcn w in
  bmp ← bmp_mark (Z.to_nat n) (clbmp w) lcn;
  Some (lcn, set_lcns w (u64 (lcn + n)) bmp).

Definition cluster_byte (w : ntfs_writer) (lcn : Z) : Z := u64 (part_off w + u64 (lcn * cluster_size)).

(** ** Attribute values *)

Definition to_disk_attrs (win_attrs : Z) (is_dir : bool) : Z :=
  let a := Z.land win_attrs 0x3127 in
  let a := if negb (Z.land win_attrs 0x400 =? 0) then Z.lor a 0x400 else a in
  if is_dir then Z.lor a 0x10000000 else a.

(** Times are creation, access, modification.  The 72 bytes, and the length
    returned. *)
Definition build_std_info (c a m disk_attrs security_id : Z) : list Z * Z :=
  let b := w64 (w64 (w64 (w64 (replicate 72 0) 0 c) 8 m) 0x10 m) 0x18 a in
  let b := w32 b 0x20 (Z.land disk_attrs (u32 (Z.lnot 0x10000000))) in
  if security_id =? 0 then (b, 48) else (w32 b 0x34 (u32 security_id), 72).

Definition build_file_name (parent_ref c a m alloc_size real_size disk_attrs : Z) (name : list Z) (name_space : Z) : list Z :=
  let b := w64 (w64 (w64 (w64 (w64 (replicate 0x42 0) 0 parent_ref) 8 c) 0x10 m) 0x18 m) 0x20 a in
  let b := w32 (w64 (w64 b 0x28 alloc_size) 0x30 real_size) 0x38 disk_attrs in
  w8 (w8 b 0x40 (Z.of_nat (length name))) 0x41 name_space ++ unit_bytes name.

(** The key buffer, [uint8_t fn[0x42 + 512]]. *)
Definition key_fits (name : list Z) : bool := (length name <=? 256)%nat.

Fixpoint fold_eq (upcase : Z → Z) (l s : list Z) : bool :=
  match l, s with
  | a :: l, b :: s => if upcase a =? upcase b then fold_eq upcase l s else false
  | _, _ => true
  end.
Definition names_collapsible (upcase : Z → Z) (l s : list Z) : bool :=
  if negb (Nat.eqb (length l) (length s)) then false else fold_eq upcase l s.

(** ** Security descriptors *)

Definition build_default_sd : list Z :=
  let sd := w16 (w8 (w8 (replicate 256 0) 0 1) 1 0) 2 0x8004 in
  let acl := 20 in
  let sd := w16 (w8 (w8 sd acl 2) (acl + 1) 0) (acl + 4) 3 in
  let p := acl + 8 in
  let sd := w32 (w16 (w8 (w8 sd p 0) (p + 1) 0) (p + 2) 20) (p + 4) 0x001F01FF in
  let sd := w32 (w8 (w8 (w8 sd (p + 8) 1) (p + 9) 1) (p + 15) 5) (p + 16) 18 in
  let p := p + 20 in
  let sd := w32 (w16 (w8 (w8 sd p 0) (p + 1) 0) (p + 2) 24) (p + 4) 0x001F01FF in
  let sd := w32 (w32 (w8 (w8 (w8 sd (p + 8) 1) (p + 9) 2) (p + 15) 5) (p + 16) 32) (p + 20) 544 in
  let p := p + 24 in
  let sd := w32 (w16 (w8 (w8 sd p 0) (p + 1) 0) (p + 2) 24) (p + 4) 0x001200A9 in
  let sd := w32 (w32 (w8 (w8 (w8 sd (p + 8) 1) (p + 9) 2) (p + 15) 5) (p + 16) 32) (p + 20) 545 in
  let p := p + 24 in
  let acl_size := p - acl in
  let sd := w16 sd (acl + 2) acl_size in
  let owner := acl + acl_size in
  let sd := w32 (w32 (w8 (w8 (w8 sd owner 1) (owner + 1) 2) (owner + 7) 5) (owner + 8) 32) (owner + 12) 544 in
  let group := owner + 16 in
  let sd := w32 (w8 (w8 (w8 sd group 1) (group + 1) 1) (group + 7) 5) (group + 8) 18 in
  let sd := w32 (w32 (w32 (w32 sd 4 owner) 8 group) 12 0) 16 acl in
  take (Z.to_nat (group + 12)) sd.

(** [for (i = 0; i < w->nsec; i++)]: the descriptor already there. *)
Fixpoint find_sec (l : list sec_desc_t) (h : Z) (use : list Z) : option Z :=
  match l with
  | [] => None
  | s :: l' =>
      if (s_hash s =? h) && (Z.of_nat (length (s_sd s)) =? Z.of_nat (length use)) && bool_decide (s_sd s = use)
      then Some (s_id s) else find_sec l' h use
  end.

Definition ntfs_secure_intern (w : ntfs_writer) (sd : list Z) : Z * ntfs_writer :=
  let use := match sd with [] => build_default_sd | _ => sd end in
  let h := sec_hash use in
  match find_sec (sec w) h use with
  | Some id => (id, w)
  | None =>
      let id := 0x100 + Z.of_nat (length (sec w)) in
      (id, set_sec w (sec w ++ [mkSec use h id 0]))
  end.

(** ** Opening *)

(** [while (nc <= recno) nc *= 2;] *)
Fixpoint grow_cap (fuel : nat) (nc recno : Z) : Z :=
  match fuel with O => nc | S fuel' => if nc <=? recno then grow_cap fuel' (nc * 2) recno else nc end.

(** [rec_new] at the end of the table, where every caller puts it. *)
Definition add_rec (w : ntfs_writer) (is_dir : bool) : ntfs_writer :=
  let recno := nrec w in
  let cap := if cap_rec w <=? recno then grow_cap 32 (if cap_rec w =? 0 then 64 else cap_rec w * 2) recno else cap_rec w in
  set_rec w (rec w ++ [rec_new recno is_dir]) cap.

Fixpoint add_reserved (n : nat) (w : ntfs_writer) : ntfs_writer :=
  match n with
  | O => w
  | S n' => let i := nrec w in add_reserved n' (add_rec w ((i =? NTFS_REC_ROOT) || (i =? NTFS_REC_EXTEND)))
  end.

Definition ntfs_writer_open (part_lba sectors : Z) (label : list Z) : option ntfs_writer :=
  let total := u64 (sectors - 1) / spc in
  let ser := Z.lxor 0x5346534D00000000 (u64 (sectors * 2654435761)) in
  let boot_clusters := (8192 + cluster_size - 1) / cluster_size in
  let bmp_bytes := align_up (u64 (total + 7) / 8) cluster_size in
  bmp ← bmp_mark (Z.to_nat boot_clusters) (replicate (Z.to_nat bmp_bytes) 0) 0;
  let mirror_clusters := (4 * NTFS_MFT_RECSZ + cluster_size - 1) / cluster_size in
  let mirror := sectors / 2 / spc in
  bmp ← bmp_mark (Z.to_nat mirror_clusters) bmp mirror;
  let zone_end := 64 + Z.shiftr total 3 in
  let w := mkW (u64 (part_lba * NTFS_SECTOR)) sectors total zone_end ser bmp zone_end mirror mirror_clusters mirror
             [] 0 [] [] (take 32 label) 0x100 0x10000006 in
  let '(_, w) := ntfs_secure_intern w [] in
  Some (add_reserved 27 w).

Definition ntfs_set_root_security (w : ntfs_writer) (sec_id : Z) : ntfs_writer :=
  if 0 <=? sec_id
  then mkW (part_off w) (part_sectors w) (total_clusters w) (next_lcn w) (serial w) (clbmp w) (mft_zone_end w) (reserve_lcn w)
         (reserve_len w) (mftmirr_lcn w) (rec w) (cap_rec w) (sec w) (rpl w) (label w) sec_id (root_attrs w)
  else w.

(** ** Names and links *)

Definition ref_of (recno : Z) (r : mftrec_t) : Z := Z.lor recno (Z.shiftl (r_seq r) 48).

Definition ntfs_root_ref (w : ntfs_writer) : Z :=
  match rec w !! Z.to_nat NTFS_REC_ROOT with Some r => ref_of NTFS_REC_ROOT r | None => Z.lor NTFS_REC_ROOT (Z.shiftl 1 48) end.

Definition parent_recno (ref : Z) : Z := u32 (Z.land ref 0xFFFFFFFFFFFF).

(** A record by number: [None] outside the table. *)
Definition get_rec (w : ntfs_writer) (i : Z) : option mftrec_t := rec w !! Z.to_nat i.
Definition put_rec (w : ntfs_writer) (i : Z) (r : mftrec_t) : ntfs_writer := set_rec w (<[Z.to_nat i := r]> (rec w)) (cap_rec w).

Definition with_entries (r : mftrec_t) (l : list idx_entry_t) : mftrec_t :=
  mkRec (r_buf r) (r_used r) (r_attr_id r) (r_seq r) (r_flags r) (r_link_count r) (r_is_dir r) l (r_reparse r) (r_ov r) (r_base_ref r).
Definition with_links (r : mftrec_t) (n : Z) : mftrec_t :=
  mkRec (r_buf r) (r_used r) (r_attr_id r) (r_seq r) (r_flags r) n (r_is_dir r) (r_entries r) (r_reparse r) (r_ov r) (r_base_ref r).
Definition with_ov (r : mftrec_t) (l : list (list Z)) : mftrec_t :=
  mkRec (r_buf r) (r_used r) (r_attr_id r) (r_seq r) (r_flags r) (r_link_count r) (r_is_dir r) (r_entries r) (r_reparse r) l (r_base_ref r).
Definition with_reparse (r : mftrec_t) (b : list Z) : mftrec_t :=
  mkRec (r_buf r) (r_used r) (r_attr_id r) (r_seq r) (r_flags r) (r_link_count r) (r_is_dir r) (r_entries r) (Some b) (r_ov r) (r_base_ref r).

(** [dir_push] on the record of a parent. *)
Definition dir_push (w : ntfs_writer) (parent : Z) (file_ref : Z) (key : list Z) : option ntfs_writer :=
  p ← get_rec w parent; Some (put_rec w parent (with_entries p (r_entries p ++ [mkIdx file_ref key]))).

(** The outcome of adding a record: its reference, 0 when an attribute did not
    fit. *)
Definition add_common (upcase : Z → Z) (w : ntfs_writer) (parent_ref : Z) (name short : list Z)
    (attributes security_id c a m : Z) (is_dir : bool) (alloc_size real_size : Z) : option (Z * ntfs_writer) :=
  let recno := nrec w in
  let w := add_rec w is_dir in
  r ← get_rec w recno;
  let disk_attrs := to_disk_attrs attributes is_dir in
  match attr_resident r NTFS_AT_STANDARD_INFORMATION [] (fst (build_std_info c a m disk_attrs security_id)) 0 with
  | None => Some (0, w)
  | Some r =>
      let w := put_rec w recno r in
      let my_ref := ref_of recno r in
      let has_short := negb (Nat.eqb (length short) 0) in
      let collapsed := has_short && names_collapsible upcase name short in
      let long_ns := if negb has_short then 0 else if collapsed then 3 else 1 in
      if negb (key_fits name) then None else
      let fn := build_file_name parent_ref c a m alloc_size real_size disk_attrs name long_ns in
      match attr_resident r NTFS_AT_FILE_NAME [] fn 0 with
      | None => Some (0, w)
      | Some r =>
          w ← dir_push (put_rec w recno r) (parent_recno parent_ref) my_ref fn;
          if has_short && negb collapsed then
            if negb (key_fits short) then None else
            let sn := build_file_name parent_ref c a m alloc_size real_size disk_attrs short 2 in
            r ← get_rec w recno;
            match attr_resident r NTFS_AT_FILE_NAME [] sn 0 with
            | None => Some (0, w)
            | Some r =>
                w ← dir_push (put_rec w recno r) (parent_recno parent_ref) my_ref sn;
                r ← get_rec w recno;
                Some (my_ref, put_rec w recno (with_links r (u16 (r_link_count r + 1))))
            end
          else Some (my_ref, w)
      end
  end.

(** [ntfs_lookup_child]: the loop over the entries of a directory. *)
Fixpoint same_units (upcase : Z → Z) (key name : list Z) (j : Z) : bool :=
  match name with
  | [] => true
  | u :: name' =>
      if negb (upcase (Z.lor (bget key (0x42 + 2 * j)) (Z.shiftl (bget key (0x42 + 2 * j + 1)) 8)) =? upcase u) then false
      else same_units upcase key name' (j + 1)
  end.

Fixpoint lookup_entries (upcase : Z → Z) (l : list idx_entry_t) (name : list Z) : Z :=
  match l with
  | [] => 0
  | e :: l' =>
      if negb (bget (x_key e) 0x40 =? Z.of_nat (length name)) then lookup_entries upcase l' name else
      if same_units upcase (x_key e) name 0 then x_ref e else lookup_entries upcase l' name
  end.

(** [None]: the number is outside the array of pointers. *)
Definition ntfs_lookup_child (upcase : Z → Z) (w : ntfs_writer) (parent_ref : Z) (name : list Z) : option Z :=
  let i := parent_recno parent_ref in
  if cap_rec w <=? i then None else
  match get_rec w i with None => Some 0 | Some p => Some (lookup_entries upcase (r_entries p) name) end.

Definition ntfs_add_dir (upcase : Z → Z) (w : ntfs_writer) (parent_ref : Z) (name short : list Z) (attributes security_id c a m : Z) :
    option (Z * ntfs_writer) :=
  add_common upcase w parent_ref name short (Z.lor attributes 0x10) security_id c a m true 0 0.

Definition ntfs_set_reparse (w : ntfs_writer) (ref tag : Z) (data : list Z) : option ntfs_writer :=
  let i := parent_recno ref in
  if cap_rec w <=? i then None else
  match get_rec w i with
  | None => Some w
  | Some r =>
      let buf := le_bytes 4 tag ++ le_bytes 2 (Z.of_nat (length data)) ++ le_bytes 2 0 ++ data in
      let w := put_rec w i (with_reparse r buf) in
      Some (set_rpl w (rpl w ++ [(tag, ref)]))
  end.

(** ** Files *)

Definition clusters_of (size : Z) : Z := if size =? 0 then 0 else u64 (size + cluster_size - 1) / cluster_size.

(** The slack of the last cluster, [while (pad)]. *)
Fixpoint zero_fill (fuel : nat) (base pad : Z) : list (Z * list Z) :=
  match fuel with
  | O => []
  | S fuel' =>
      if pad =? 0 then [] else
      let k := if pad <? 4096 then pad else 4096 in
      (base, replicate (Z.to_nat k) 0) :: zero_fill fuel' (u64 (base + k)) (pad - k)
  end.

(** What a streamed file sends to the disk. *)
Definition data_writes (w : ntfs_writer) (lcn alloc_size : Z) (data : list Z) : list (Z * list Z) :=
  let size := Z.of_nat (length data) in
  (if size =? 0 then [] else [(cluster_byte w lcn, data)]) ++
  (if size <? alloc_size then zero_fill (Z.to_nat (alloc_size / 4096 + 1)) (u64 (cluster_byte w lcn + size)) (alloc_size - size) else []).

(** [skip]: the environment variable [NTFS_SKIP_DATA] is set. *)
Definition ntfs_add_file {D} `{Image D} (skip : bool) (upcase : Z → Z) (w : ntfs_writer) (d : D) (parent_ref : Z) (name short : list Z)
    (attributes security_id c a m : Z) (data : list Z) : option (Z * ntfs_writer * D) :=
  let size := Z.of_nat (length data) in
  let nclu := clusters_of size in
  let alloc_size := u64 (nclu * cluster_size) in
  let recno := nrec w in
  '(ref, w) ← add_common upcase w parent_ref name short attributes security_id c a m false alloc_size size;
  if ref =? 0 then Some (0, w, d) else
  r ← get_rec w recno;
  let room := u32 (NTFS_MFT_RECSZ - r_used r - 0x18 - 8) in
  if (size <=? room) && (size <=? 700) then
    match attr_resident r NTFS_AT_DATA [] data 0 with
    | None => Some (0, w, d)
    | Some r => Some (ref, put_rec w recno r, d)
    end
  else
    '(lcn, w) ← alloc_clusters w nclu;
    d ← puts d (if skip then [] else data_writes w lcn alloc_size data);
    match attr_nonres r NTFS_AT_DATA [] lcn nclu cluster_size size size 0 with
    | None => Some (0, w, d)
    | Some r => Some (ref, put_rec w recno r, d)
    end.

(** The reference and the byte offset where a worker will write the data. *)
Definition ntfs_add_file_deferred (upcase : Z → Z) (w : ntfs_writer) (parent_ref : Z) (name short : list Z)
    (attributes security_id c a m size : Z) : option (Z * Z * ntfs_writer) :=
  let nclu := u64 (size + cluster_size - 1) / cluster_size in
  let alloc_size := u64 (nclu * cluster_size) in
  let recno := nrec w in
  '(ref, w) ← add_common upcase w parent_ref name short attributes security_id c a m false alloc_size size;
  if ref =? 0 then Some (0, 0, w) else
  r ← get_rec w recno;
  '(lcn, w) ← alloc_clusters w nclu;
  match attr_nonres r NTFS_AT_DATA [] lcn nclu cluster_size size size 0 with
  | None => Some (0, 0, w)
  | Some r => Some (ref, cluster_byte w lcn, put_rec w recno r)
  end.

(** ** Hard links *)

(** A name into the record, or into the overflow list once it is in use. *)
Definition ntfs_add_hardlink (upcase : Z → Z) (w : ntfs_writer) (target_ref parent_ref : Z) (name short : list Z)
    (attributes c a m size : Z) : option (Z * ntfs_writer) :=
  let recno := parent_recno target_ref in
  if cap_rec w <=? recno then Some (0, w) else
  match get_rec w recno with
  | None => Some (0, w)
  | Some r =>
      if r_is_dir r then Some (0, w) else
      let pno := parent_recno parent_ref in
      if cap_rec w <=? pno then None else
      match get_rec w pno with
      | None => Some (0, w)
      | Some _ =>
          let disk_attrs := to_disk_attrs attributes false in
          let alloc_size := u64 (clusters_of size * cluster_size) in
          let has_short := negb (Nat.eqb (length short) 0) in
          let collapsed := has_short && names_collapsible upcase name short in
          let long_ns := if negb has_short then 0 else if collapsed then 3 else 1 in
          if negb (key_fits name) then None else
          let fn := build_file_name parent_ref c a m alloc_size size disk_attrs name long_ns in
          let has_dos := has_short && negb collapsed in
          if has_dos && negb (key_fits short) then None else
          let sn := build_file_name parent_ref c a m alloc_size size disk_attrs short 2 in
          let need := align8u (0x18 + Z.of_nat (length fn)) + (if has_dos then align8u (0x18 + Z.of_nat (length sn)) else 0) in
          let links := u16 (r_link_count r + (if has_dos then 2 else 1)) in
          if negb (Nat.eqb (length (r_ov r)) 0) || (NTFS_MFT_RECSZ <? u32 (r_used r + need + 8)) then
            let w := put_rec w recno (with_ov r (r_ov r ++ fn :: (if has_dos then [sn] else []))) in
            w ← dir_push w pno target_ref fn;
            w ← (if has_dos then dir_push w pno target_ref sn else Some w);
            r ← get_rec w recno;
            Some (target_ref, put_rec w recno (with_links r links))
          else
            match attr_insert_filename r fn with
            | None => Some (0, w)
            | Some r =>
                w ← dir_push (put_rec w recno r) pno target_ref fn;
                r ← get_rec w recno;
                if has_dos then
                  match attr_insert_filename r sn with
                  | None => Some (0, w)
                  | Some r =>
                      w ← dir_push (put_rec w recno r) pno target_ref sn;
                      r ← get_rec w recno;
                      Some (target_ref, put_rec w recno (with_links r links))
                  end
                else Some (target_ref, put_rec w recno (with_links r links))
            end
      end
  end.
