(* ===== verification/NtfsAlloc.v ===== *)
(** * The cluster allocator of the NTFS writer
      ([src/tools/iso-patch-mac/engine/ntfs.c]: [alloc_clusters])

    Every run handed out is fresh, stays clear of the boot clusters and of the
    mirror reserved at the middle of the volume, and is marked in the allocation
    bitmap, which marks nothing else. *)

From Stdlib Require Import Sorted.
From S2P Require Import Prelude Bytes NtfsCodec NtfsRecord Bitmap NtfsVolume.

(** ** The state of the allocator *)

Definition runs := list (Z * Z).
Definition run_has (c : Z) (x : Z * Z) : Prop := fst x <= c < fst x + snd x.

(** [sum] clusters were handed out in the runs [rs], latest first, none longer
    than [big]; of the clusters before them those in [low] are marked. *)
Record alloc_low (low : Z → Prop) (w : ntfs_writer) (rs : runs) (sum big : Z) : Prop := {
  ao_zone : 64 <= mft_zone_end w <= next_lcn w;
  ao_res : 0 <= reserve_lcn w < 2 ^ 60 ∧ reserve_len w = 1;
  ao_size : Z.of_nat (length (clbmp w)) < 2 ^ 60;
  ao_next : next_lcn w <= mft_zone_end w + sum + big + 1 ∧
            (next_lcn w <= reserve_lcn w → next_lcn w <= mft_zone_end w + sum);
  ao_sum : 0 <= sum ∧ 0 <= big;
  ao_runs : Forall (λ x, mft_zone_end w <= fst x ∧ 0 < snd x ∧ fst x + snd x <= next_lcn w ∧
                         (fst x + snd x <= reserve_lcn w ∨ reserve_lcn w + 1 <= fst x)) rs;
  ao_sorted : StronglySorted (λ x y, fst y + snd y <= fst x) rs;
  ao_in : Forall (λ x, fst x + snd x <= 8 * Z.of_nat (length (clbmp w))) rs;
  ao_bits : ∀ c, 0 <= c → bit (clbmp w) c = true ↔ low c ∨ c = reserve_lcn w ∨ Exists (run_has c) rs;
}.
Arguments ao_zone {low} w rs sum big _.
Arguments ao_res {low} w rs sum big _.
Arguments ao_size {low} w rs sum big _.
Arguments ao_next {low} w rs sum big _.
Arguments ao_sum {low} w rs sum big _.
Arguments ao_runs {low} w rs sum big _.
Arguments ao_sorted {low} w rs sum big _.
Arguments ao_in {low} w rs sum big _.
Arguments ao_bits {low} w rs sum big _.

(** Before the close only the boot clusters are. *)
Definition boot_only (c : Z) : Prop := c < 2.
Abbreviation alloc_ok := (alloc_low boot_only).

Definition same_volume (w w' : ntfs_writer) : Prop :=
  part_off w' = part_off w ∧ part_sectors w' = part_sectors w ∧ total_clusters w' = total_clusters w ∧
  mft_zone_end w' = mft_zone_end w ∧ reserve_lcn w' = reserve_lcn w ∧ reserve_len w' = reserve_len w ∧
  length (clbmp w') = length (clbmp w).

Lemma alloc_ok_same low w w' rs sum big :
  same_volume w w' → next_lcn w' = next_lcn w → clbmp w' = clbmp w → alloc_low low w rs sum big → alloc_low low w' rs sum big.
Proof.
  intros (_ & _ & _ & Ez & Er & El & _) En Eb [H1 H2 H3 H4 H5 H6 H7 H8 H9].
  constructor; rewrite ?Ez, ?En, ?Er, ?El, ?Eb; done.
Qed.

Lemma alloc_ok_more low w rs sum sum' big : sum <= sum' → alloc_low low w rs sum big → alloc_low low w rs sum' big.
Proof. intros Hs [H1 H2 H3 H4 H5 H6 H7 H8 H9]. constructor; try done; lia. Qed.

(** What is fixed at the opening. *)
Definition same_plan (w w' : ntfs_writer) : Prop :=
  mftmirr_lcn w' = mftmirr_lcn w ∧ serial w' = serial w ∧ label w' = label w ∧ root_sec_id w' = root_sec_id w ∧ root_attrs w' = root_attrs w.

Lemma alloc_clusters_ok low w rs sum big n :
  alloc_low low w rs sum big → 0 < n <= big → mft_zone_end w + sum + n + big + 1 <= 8 * Z.of_nat (length (clbmp w)) →
  ∃ lcn w', alloc_clusters w n = Some (lcn, w') ∧ alloc_low low w' ((lcn, n) :: rs) (sum + n) big ∧ same_volume w w' ∧
    next_lcn w <= lcn ∧ lcn + n <= 8 * Z.of_nat (length (clbmp w)) ∧
    rec w' = rec w ∧ cap_rec w' = cap_rec w ∧ sec w' = sec w ∧ rpl w' = rpl w ∧ same_plan w w'.
Proof.
  intros [Hz [Hr0 Hr1] Hsz [Hn1 Hn2] Hs Hruns Hsort Hin Hbits] Hn Hcap. unfold alloc_clusters. rewrite Hr1. cbn [Z.eqb negb andb].
  rewrite !(u64_small (reserve_lcn w + 1)), (u64_small (next_lcn w + n)) by lia.
  set (lcn := if _ : bool then _ else _).
  assert (next_lcn w <= lcn ∧ lcn + n <= mft_zone_end w + sum + n + big + 1 ∧ (lcn + n <= reserve_lcn w ∨ reserve_lcn w + 1 <= lcn) ∧
    (lcn + n <= reserve_lcn w → lcn = next_lcn w)) as (L1 & L2 & L3 & L4).
  { unfold lcn. destruct (Z.ltb_spec (next_lcn w) (reserve_lcn w + 1)), (Z.ltb_spec (reserve_lcn w) (next_lcn w + n)); cbn [andb]; lia. }
  clearbody lcn. destruct (bmp_mark_spec (Z.to_nat n) (clbmp w) lcn ltac:(lia) ltac:(lia)) as (bmp & Eb & Lb & Bb).
  rewrite Eb. cbn [mbind option_bind]. rewrite Z2Nat.id in Bb by lia. rewrite (u64_small (lcn + n)) by lia.
  eexists lcn, _. split; [reflexivity|]. split; [|split_and!; try done; cbn; lia].
  constructor; cbn [set_lcns mft_zone_end next_lcn reserve_lcn reserve_len clbmp]; rewrite ?Lb; [lia|done|done|lia|lia| | | |].
  - constructor; [simpl; lia|]. eapply Forall_impl; [exact Hruns|]. simpl. lia.
  - constructor; [done|]. eapply Forall_impl; [exact Hruns|]. simpl. lia.
  - constructor; [simpl; lia|done].
  - intros c Hc. rewrite Bb, Hbits, Exists_cons by done. unfold run_has at 2. cbn [fst snd]. tauto.
Qed.
