(* ===== verification/NtfsSession.v ===== *)
(** * Sessions of the NTFS writer
      ([src/tools/iso-patch-mac/engine/ntfs.c]: [ntfs_add_dir], [ntfs_add_file],
      [ntfs_add_hardlink], [ntfs_secure_intern], [ntfs_set_reparse])

    What a volume holds after any sequence of the calls the disk builder makes
    between opening and closing it.  The state is related to its later states by
    a preorder, [ext]: records only gain attributes and entries, runs keep their
    contents; so what an operation promised when it returned still holds at the
    end. *)

From Stdlib Require Import String Sorted.
From S2P Require Import Prelude Bytes WStr BlockIO ImageWrites NtfsCodec NtfsRecord Bitmap NtfsVolume NtfsAlloc.

(** ** Updating the table of records *)

Lemma put_last w l cap r0 r1 i : i = Z.of_nat (length l) → put_rec (set_rec w (l ++ [r0]) cap) i r1 = set_rec w (l ++ [r1]) cap.
Proof.
  intros ->. unfold put_rec. cbn [set_rec rec cap_rec]. rewrite Nat2Z.id. f_equal. rewrite insert_app_r_alt by lia. by rewrite Nat.sub_diag.
Qed.

Lemma get_last w l cap r i : i = Z.of_nat (length l) → get_rec (set_rec w (l ++ [r]) cap) i = Some r.
Proof. intros ->. unfold get_rec. cbn [set_rec rec]. rewrite Nat2Z.id, lookup_app_r by lia. by rewrite Nat.sub_diag. Qed.

Lemma push_before w l cap r p rp ref key : 0 <= p → l !! Z.to_nat p = Some rp →
  dir_push (set_rec w (l ++ [r]) cap) p ref key =
  Some (set_rec w (<[Z.to_nat p := with_entries rp (r_entries rp ++ [mkIdx ref key])]> l ++ [r]) cap).
Proof.
  intros Hp Hl. unfold dir_push, get_rec, put_rec. cbn [set_rec rec cap_rec]. pose proof (lookup_lt_Some _ _ _ Hl).
  rewrite lookup_app_l by done. rewrite Hl. cbn [mbind option_bind]. do 2 f_equal. apply insert_app_l. done.
Qed.

Lemma add_rec_eq w is_dir : ∃ cap, add_rec w is_dir = set_rec w (rec w ++ [rec_new (nrec w) is_dir]) cap ∧
  (nrec w <= cap_rec w → nrec w + 1 <= cap ∧ cap_rec w <= cap).
Proof.
  eexists. split; [reflexivity|]. intros H. assert (0 <= nrec w) by (unfold nrec; lia).
  destruct (Z.leb_spec (cap_rec w) (nrec w)); [|lia]. destruct (Z.eqb_spec (cap_rec w) 0) as [E|E].
  - cbn [grow_cap]. rewrite !(proj2 (Z.leb_gt 64 _)) by lia. lia.
  - change 32%nat with (S 31). cbn [grow_cap]. rewrite (proj2 (Z.leb_gt _ _)) by lia. lia.
Qed.

(** ** References and names *)

Definition seq_of (n : Z) : Z := if (1 <=? n) && (n <=? 23) then u16 n else 1.
Definition file_ref (n : Z) : Z := Z.lor n (Z.shiftl (seq_of n) 48).

Lemma seq_of_range n : 0 <= n → 1 <= seq_of n < 65536.
Proof.
  intros H. unfold seq_of. destruct (Z.leb_spec 1 n), (Z.leb_spec n 23); cbn [andb]; try lia. rewrite u16_small; lia.
Qed.

Lemma file_ref_val n : 0 <= n < 2 ^ 32 → file_ref n = n + seq_of n * 2 ^ 48.
Proof. intros H. pose proof (seq_of_range n ltac:(lia)). unfold file_ref. apply lor_shiftl_add; lia. Qed.

Lemma parent_recno_ref n : 0 <= n < 2 ^ 32 → parent_recno (file_ref n) = n.
Proof.
  intros H. rewrite file_ref_val by done. unfold parent_recno. rewrite (land_mask _ 0xFFFFFFFFFFFF 48) by (done || lia).
  rewrite Z.add_mod, Z.mod_mul, Z.add_0_r, Z.mod_mod by lia. rewrite (Z.mod_small n) by lia. apply u32_small. lia.
Qed.

Lemma file_ref_inj n m : 0 <= n < 2 ^ 32 → 0 <= m < 2 ^ 32 → file_ref n = file_ref m → n = m.
Proof. intros Hn Hm E. rewrite <- (parent_recno_ref n), <- (parent_recno_ref m) by done. by rewrite E. Qed.

Lemma file_ref_pos n : 0 <= n < 2 ^ 32 → file_ref n ≠ 0.
Proof. intros H. rewrite file_ref_val by done. pose proof (seq_of_range n ltac:(lia)). lia. Qed.

Lemma length_file_name p c a m al re da name ns :
  length (build_file_name p c a m al re da name ns) = (0x42 + 2 * length name)%nat.
Proof.
  unfold build_file_name, w8, w32, w64. rewrite length_app, !length_splice, length_replicate, length_unit_bytes. lia.
Qed.

Lemma length_std_info c a m da sid : length (fst (build_std_info c a m da sid)) = 72%nat.
Proof. unfold build_std_info, w32, w64. destruct (_ =? _); cbn [fst]; rewrite !length_splice, length_replicate; done. Qed.

(** The name, the parent and the name space in a key. *)
Definition key_name (key : list Z) : list Z := map (λ i, r16 key (0x42 + 2 * i)) (seqZ 0 (bget key 0x40)).

Lemma file_name_fields p c a m al re da name ns :
  is_u64 p → Forall is_u16 name → Z.of_nat (length name) <= 255 → 0 <= ns < 256 →
  let k := build_file_name p c a m al re da name ns in
  key_name k = name ∧ r64 k 0 = p ∧ bget k 0x41 = ns.
Proof.
  intros Hp Hn Hl Hns. cbv zeta. unfold is_u64 in Hp. unfold build_file_name. set (h := w8 _ 0x41 ns).
  assert (length h = 0x42%nat) as Eh by (unfold h, w8, w32, w64; rewrite !length_splice, length_replicate; done).
  assert (r64 h 0 = p) as H0 by (unfold h; rec_fields; small_val).
  assert (sub h (Z.to_nat 0x40) 1 = [u8 (Z.of_nat (length name))] ∧ sub h (Z.to_nat 0x41) 1 = [u8 ns]) as [H1 H2]
    by (unfold h; split; rec_fields; done).
  clearbody h. set (k := h ++ unit_bytes name).
  assert (∀ o j, (o + j <= 0x42)%nat → sub k o j = sub h o j) as Hlow by (intros; unfold k; apply sub_app_in; lia).
  split_and!.
  - unfold key_name. rewrite (bget_field k 0x40 (Z.of_nat (length name)) ltac:(lia)) by (rewrite ?Hlow by lia; done || lia).
    apply (units_read k 0x42 name ltac:(lia) Hn). unfold k, sub. rewrite drop_app_length' by lia.
    rewrite take_ge by (rewrite length_unit_bytes; lia). done.
  - unfold r64 in *. by rewrite Hlow by lia.
  - apply (bget_field k 0x41 ns ltac:(lia)); [rewrite Hlow by lia; done|done].
Qed.

(** ** A new record with its names *)

Definition is_data (a : attr) : Prop := a_type a = NTFS_AT_DATA ∧ a_name a = [].
#[export] Instance is_data_dec a : Decision (is_data a).
Proof. unfold is_data. apply _. Defined.

Definition datas (al : list attr) : list attr_body := map a_body (filter is_data al).
Definition file_names (al : list attr) : list (list Z) :=
  omap (λ a, match a_body a with Resident v _ => if a_type a =? NTFS_AT_FILE_NAME then Some v else None | _ => None end) al.

(** No index and no reparse point yet. *)
Definition early (al : list attr) : Prop := Forall (λ a, a_type a <= NTFS_AT_DATA) al.

Lemma early_snoc al a : early al → a_type a <= NTFS_AT_DATA → early (al ++ [a]).
Proof. intros H Ha. apply Forall_app. split; [done|]. by constructor. Qed.

(** The keys [add_common] and [ntfs_add_hardlink] make. *)
Definition keys_of (upcase : Z → Z) (parent_ref c a m alloc real da : Z) (name short : list Z) : list (list Z) :=
  let has_short := negb (Nat.eqb (length short) 0) in
  let collapsed := has_short && names_collapsible upcase name short in
  build_file_name parent_ref c a m alloc real da name (if negb has_short then 0 else if collapsed then 3 else 1) ::
  (if has_short && negb collapsed then [build_file_name parent_ref c a m alloc real da short 2] else []).

Record fresh_rec (n : Z) (is_dir : bool) (keys : list (list Z)) (r : mftrec_t) : Prop := {
  fr_attrs : ∃ al, tracks n r al ∧ early al ∧ file_names al = keys ∧ datas al = [];
  fr_used : r_used r <= 872;
  fr_seq : r_seq r = seq_of n;
  fr_flags : r_flags r = (if is_dir then 3 else 1);
  fr_links : r_link_count r = Z.of_nat (length keys);
  fr_dir : r_is_dir r = is_dir;
  fr_rest : r_entries r = [] ∧ r_reparse r = None ∧ r_ov r = [] ∧ r_base_ref r = 0;
}.

Definition name_fits (name short : list Z) : Prop :=
  Forall is_u16 name ∧ Z.of_nat (length name) <= 255 ∧ Forall is_u16 short ∧ Z.of_nat (length short) <= 12.

Lemma type_ok_plain t : is_u32 t → t ≠ NTFS_AT_END → type_ok t [].
Proof. intros. unfold type_ok. split_and!; [done|done|constructor|simpl; lia]. Qed.

(** One resident attribute onto a record with room. *)
Lemma add_value n r al t val : tracks n r al → is_u32 t → t ≠ NTFS_AT_END → Z.of_nat (length val) <= 1000 →
  r_used r + resident_len [] val + 8 <= NTFS_MFT_RECSZ →
  ∃ r', attr_resident r t [] val 0 = Some r' ∧ tracks n r' (al ++ [resident_attr t [] val 0 (Z.of_nat (length al))]) ∧
    same_meta r r' ∧ r_used r' = r_used r + resident_len [] val.
Proof.
  intros H Ht Hend Hv Hfit. apply (append_resident n r al t [] val 0 H); [by apply type_ok_plain|lia|lia|done].
Qed.

Lemma add_plain n r al t val : tracks n r al → is_u32 t → t ≠ NTFS_AT_END → Z.of_nat (length val) <= 1000 →
  r_used r + Z.of_nat (length val) + 40 <= NTFS_MFT_RECSZ →
  ∃ r', attr_resident r t [] val 0 = Some r' ∧ tracks n r' (al ++ [resident_attr t [] val 0 (Z.of_nat (length al))]) ∧
    same_meta r r' ∧ r_used r' = r_used r + resident_len [] val.
Proof. intros H Ht Hend Hv Hfit. destruct (resident_len_bound val ltac:(lia)). apply add_value; try done; lia. Qed.

Lemma file_names_snoc al a : file_names (al ++ [a]) = file_names al ++ file_names [a].
Proof. unfold file_names. by rewrite omap_app. Qed.
Lemma datas_snoc al a : datas (al ++ [a]) = datas al ++ datas [a].
Proof. unfold datas. by rewrite filter_app, map_app. Qed.

Lemma name_attr_facts key id :
  let a := resident_attr NTFS_AT_FILE_NAME [] key 0 id in file_names [a] = [key] ∧ datas [a] = [].
Proof. done. Qed.

Section add_common.
Context (upcase : Z → Z) (w : ntfs_writer) (parent_ref : Z) (name short : list Z) (attributes sid c a m alloc real : Z) (is_dir : bool).
Context (rp : mftrec_t) (Hp : rec w !! Z.to_nat (parent_recno parent_ref) = Some rp) (Hname : name_fits name short) (Hn : nrec w < 2 ^ 32).

Let n := nrec w.
Let da := to_disk_attrs attributes is_dir.
Let keys := keys_of upcase parent_ref c a m alloc real da name short.
Let p := parent_recno parent_ref.

Lemma parent_nonneg : 0 <= p.
Proof using. apply u32_range. Qed.

Lemma push_twice l cap r ref key1 key2 rq : l !! Z.to_nat p = Some rq →
  dir_push (set_rec w (<[Z.to_nat p := with_entries rq (r_entries rq ++ [mkIdx ref key1])]> l ++ [r]) cap) p ref key2 =
  Some (set_rec w (<[Z.to_nat p := with_entries rq (r_entries rq ++ [mkIdx ref key1; mkIdx ref key2])]> l ++ [r]) cap).
Proof using.
  intros Hl. pose proof (lookup_lt_Some _ _ _ Hl). pose proof parent_nonneg.
  erewrite push_before; [|done|by apply list_lookup_insert_eq]. rewrite list_insert_insert_eq. do 4 f_equal.
  unfold with_entries. cbn. by rewrite <- app_assoc.
Qed.

Lemma add_common_ok : ∃ r cap,
  add_common upcase w parent_ref name short attributes sid c a m is_dir alloc real =
    Some (file_ref n, set_rec w (<[Z.to_nat p := with_entries rp (r_entries rp ++ map (mkIdx (file_ref n)) keys)]> (rec w) ++ [r]) cap) ∧
  fresh_rec n is_dir keys r ∧ (n <= cap_rec w → n + 1 <= cap ∧ cap_rec w <= cap).
Proof using Hp Hname Hn.
  destruct Hname as (Hn1 & Hn2 & Hs1 & Hs2). pose proof parent_nonneg as Hp0.
  destruct (add_rec_eq w is_dir) as (cap & Ea & Hcap). unfold add_common. rewrite Ea. fold n. fold da.
  assert (n = Z.of_nat (length (rec w))) as En by done. set (r0 := rec_new n is_dir). rewrite get_last by done. cbn [mbind option_bind].
  assert (tracks n r0 []) as T0 by (split; [apply rec_new_rep; unfold is_u32; lia|reflexivity]).
  set (si := fst (build_std_info c a m da sid)). assert (length si = 72%nat) as Esi by apply length_std_info. clearbody si.
  destruct (add_plain n r0 [] NTFS_AT_STANDARD_INFORMATION si T0) as (r1 & -> & T1 & M1 & U1); [by vm_compute|by vm_compute|lia|change (r_used r0) with 56; unfold NTFS_MFT_RECSZ; lia|].
  assert (r_used r1 <= 152) as B1 by (rewrite U1; destruct (resident_len_bound si ltac:(lia)); change (r_used r0) with 56; dlia).
  assert (ref_of n r1 = file_ref n) as Eref by (unfold ref_of; destruct M1 as (-> & _); reflexivity). rewrite Eref.
  rewrite put_last by done.
  unfold key_fits. rewrite (proj2 (Nat.leb_le (length name) _)), (proj2 (Nat.leb_le (length short) _)) by lia. cbn [negb].
  unfold keys, keys_of. set (hs := negb (Nat.eqb (length short) 0)). set (col := hs && names_collapsible upcase name short).
  set (fn := build_file_name parent_ref c a m alloc real da name _).
  assert (length fn = (66 + 2 * length name)%nat) as Efn by apply length_file_name. clearbody fn.
  destruct (add_plain n r1 _ NTFS_AT_FILE_NAME fn T1) as (r2 & -> & T2 & M2 & U2); [by vm_compute|by vm_compute|lia|unfold NTFS_MFT_RECSZ; lia|].
  assert (r_used r2 <= 752) as B2 by (rewrite U2; destruct (resident_len_bound fn ltac:(lia)); dlia).
  rewrite put_last by done. fold p. rewrite (push_before _ _ _ _ p rp _ fn Hp0 Hp). cbn [mbind option_bind].
  pose proof (same_meta_trans _ _ _ M1 M2) as M12.
  destruct (hs && negb col) eqn:Edos.
  2:{ exists r2, cap. split; [reflexivity|]. split; [|exact Hcap]. destruct M12 as (E1 & E2 & E3 & E4 & E5 & E6 & E7 & E8).
      constructor; [|lia|exact E1|rewrite E2; by destruct is_dir|exact E3|exact E4|exact (conj E5 (conj E6 (conj E7 E8)))].
      eexists. split; [exact T2|]. split; [repeat (apply early_snoc; [|by vm_compute]); constructor|]. rewrite file_names_snoc, datas_snoc. exact (name_attr_facts fn _). }
  set (sn := build_file_name parent_ref c a m alloc real da short 2).
  assert (length sn = (66 + 2 * length short)%nat) as Esn by apply length_file_name. clearbody sn.
  assert (length (<[Z.to_nat p := with_entries rp (r_entries rp ++ [mkIdx (file_ref n) fn])]> (rec w)) = length (rec w)) as El by apply length_insert.
  rewrite get_last by (by rewrite El). cbn [mbind option_bind].
  destruct (add_plain n r2 _ NTFS_AT_FILE_NAME sn T2) as (r3 & -> & T3 & M3 & U3); [by vm_compute|by vm_compute|lia|unfold NTFS_MFT_RECSZ; lia|].
  assert (r_used r3 <= 872) as B3 by (rewrite U3; destruct (resident_len_bound sn ltac:(lia)); dlia).
  rewrite put_last by (by rewrite El). rewrite push_twice by done. cbn [mbind option_bind].
  assert (length (<[Z.to_nat p := with_entries rp (r_entries rp ++ [mkIdx (file_ref n) fn; mkIdx (file_ref n) sn])]> (rec w)) = length (rec w)) as El2 by apply length_insert.
  rewrite get_last by (by rewrite El2). cbn [mbind option_bind]. rewrite put_last by (by rewrite El2). eexists _, cap. split; [reflexivity|]. split; [|exact Hcap].
  destruct (same_meta_trans _ _ _ M12 M3) as (E1 & E2 & E3 & E4 & E5 & E6 & E7 & E8).
  constructor; cbn [with_links r_used r_seq r_flags r_link_count r_is_dir r_entries r_reparse r_ov r_base_ref];
    [|lia|exact E1|rewrite E2; by destruct is_dir|rewrite E3; reflexivity|exact E4|exact (conj E5 (conj E6 (conj E7 E8)))].
  eexists. split; [exact T3|]. split; [repeat (apply early_snoc; [|by vm_compute]); constructor|]. rewrite !file_names_snoc, !datas_snoc.
  destruct (name_attr_facts fn 1) as [F1 F2]. destruct (name_attr_facts sn 2) as [F3 F4]. split; reflexivity.
Qed.
End add_common.

(** ** The invariant of the records *)

Definition entries_all (l : list mftrec_t) : list idx_entry_t := concat (map r_entries l).
Definition keys_for (ref : Z) (l : list idx_entry_t) : list (list Z) := map x_key (filter (λ e, x_ref e = ref) l).

(** An entry of directory [p] when there are [count] records. *)
Definition entry_ok (count p : Z) (e : idx_entry_t) : Prop :=
  (∃ k, 27 <= k < count ∧ x_ref e = file_ref k) ∧ parent_recno (r64 (x_key e) 0) = p ∧ Z.of_nat (length (x_key e)) <= 0x42 + 2 * 255.

(** Record [n] among the entries [all] of the volume: its names, those that
    fitted and those that did not, are exactly the entries that refer to it, and
    its link count is their number.  The reserved records are as they were
    made. *)
Definition rec_ok (all : list idx_entry_t) (count n : Z) (r : mftrec_t) : Prop :=
  r_seq r = seq_of n ∧ r_base_ref r = 0 ∧ r_flags r = (if r_is_dir r then 3 else 1) ∧ Forall (entry_ok count n) (r_entries r) ∧
  ∃ al, tracks n r al ∧ early al ∧ file_names al ++ r_ov r ≡ₚ keys_for (file_ref n) all ∧
    (27 <= n → r_link_count r = u16 (Z.of_nat (length (keys_for (file_ref n) all)))) ∧ (n < 27 → r_link_count r = 1 ∧ r_used r = 0x38 ∧ r_ov r = []).

#[export] Instance keys_for_perm ref : Proper ((≡ₚ) ==> (≡ₚ)) (keys_for ref).
Proof. intros l l' H. unfold keys_for. by rewrite H. Qed.

Lemma keys_for_app ref l1 l2 : keys_for ref (l1 ++ l2) = keys_for ref l1 ++ keys_for ref l2.
Proof. unfold keys_for. by rewrite filter_app, map_app. Qed.

Lemma keys_for_new ref keys : keys_for ref (map (mkIdx ref) keys) = keys.
Proof.
  unfold keys_for. induction keys as [|k keys IH]; [done|]. cbn [map]. rewrite filter_cons_True by done. cbn [map x_key]. by rewrite IH.
Qed.

Lemma keys_for_other ref ref' keys : ref ≠ ref' → keys_for ref (map (mkIdx ref') keys) = [].
Proof.
  intros H. unfold keys_for. induction keys as [|k keys IH]; [done|]. cbn [map]. by rewrite filter_cons_False by (cbn; congruence).
Qed.

Lemma entries_all_app l1 l2 : entries_all (l1 ++ l2) = entries_all l1 ++ entries_all l2.
Proof. unfold entries_all. by rewrite map_app, concat_app. Qed.

Lemma entries_all_insert l i r r' es : l !! i = Some r → r_entries r' = r_entries r ++ es →
  entries_all (<[i := r']> l) ≡ₚ es ++ entries_all l.
Proof.
  intros Hl He. pose proof (lookup_lt_Some _ _ _ Hl). rewrite insert_take_drop by done.
  rewrite <- (take_drop_middle l i r Hl) at 3. rewrite !entries_all_app. unfold entries_all. cbn [map concat]. rewrite He. solve_Permutation.
Qed.

Lemma entry_ok_mono count count' p e : count <= count' → entry_ok count p e → entry_ok count' p e.
Proof. intros Hc ((k & Hk & E) & H2). split; [|done]. exists k. split; [lia|done]. Qed.

(** What a step does to the records: one of them, [n], may be new or changed;
    its parent [p] gains the entries. *)
Section step.
Context (l l' : list mftrec_t) (n p : Z) (keys : list (list Z)).
Let count := Z.of_nat (length l).
Let count' := Z.of_nat (length l').
Context (Hall : entries_all l' ≡ₚ map (mkIdx (file_ref n)) keys ++ entries_all l).
Context (Hn : 27 <= n < count') (Hc : count <= count' < 2 ^ 32) (Hp : p ≠ n).
Context (Hkeys : Forall (λ k, parent_recno (r64 k 0) = p ∧ Z.of_nat (length k) <= 0x42 + 2 * 255) keys).
Context (Hl : ∀ i r, l !! i = Some r → rec_ok (entries_all l) count (Z.of_nat i) r).
Context (Hpt : ∀ i r, l' !! i = Some r →
  (Z.of_nat i = n ∧ rec_ok (entries_all l') count' n r) ∨
  (Z.of_nat i = p ∧ ∃ rp, l !! i = Some rp ∧ r = with_entries rp (r_entries rp ++ map (mkIdx (file_ref n)) keys)) ∨
  (Z.of_nat i ≠ n ∧ l !! i = Some r)).

Lemma step_recs i r : l' !! i = Some r → rec_ok (entries_all l') count' (Z.of_nat i) r.
Proof using All.
  intros Hi. pose proof (lookup_lt_Some _ _ _ Hi) as Hlt.
  destruct (decide (Z.of_nat i = n)) as [E|E].
  { destruct (Hpt i r Hi) as [[? ?]|[[? ?]|[? ?]]]; [by subst n|lia|lia]. }
  assert (keys_for (file_ref (Z.of_nat i)) (entries_all l') ≡ₚ keys_for (file_ref (Z.of_nat i)) (entries_all l)) as Hk.
  { rewrite Hall, keys_for_app, keys_for_other; [done|]. intros E'. apply file_ref_inj in E'; unfold count' in *; lia. }
  assert (∀ r0, rec_ok (entries_all l) count (Z.of_nat i) r0 → Forall (entry_ok count' (Z.of_nat i)) (r_entries r0)) as Hmono.
  { intros r0 (_ & _ & _ & He & _). eapply Forall_impl; [exact He|]. intros e. apply entry_ok_mono. lia. }
  destruct (Hpt i r Hi) as [[? _]|[[Ei (rp & Hrp & ->)]|[_ Hr]]]; [lia| |].
  - pose proof (Hl i rp Hrp) as Hok. pose proof (Hmono rp Hok) as He. destruct Hok as (H1 & H2 & H3 & _ & al & H5 & H5' & H6 & H7 & H8).
    split_and!; [exact H1|exact H2|exact H3| |].
    + cbn [with_entries r_entries]. apply Forall_app. split; [exact He|]. apply Forall_map. eapply Forall_impl; [exact Hkeys|].
      intros k [K1 K2]. split_and!; [exists n; split; [lia|done]|cbn; congruence|done].
    + exists al. cbn [with_entries r_ov r_link_count]. rewrite Hk. by split_and!.
  - pose proof (Hl i r Hr) as Hok. pose proof (Hmono r Hok) as He. destruct Hok as (H1 & H2 & H3 & _ & al & H5 & H5' & H6 & H7 & H8).
    split_and!; [exact H1|exact H2|exact H3|exact He|]. exists al. rewrite Hk. by split_and!.
Qed.
End step.

(** ** The invariant of the volume, and what only grows *)

Record vol_ok (w : ntfs_writer) (rs : runs) (sum big : Z) : Prop := {
  vo_alloc : alloc_ok w rs sum big;
  vo_count : 27 <= nrec w <= cap_rec w;
  vo_recs : ∀ i r, rec w !! i = Some r → rec_ok (entries_all (rec w)) (nrec w) (Z.of_nat i) r;
  vo_sec : ∀ i s, sec w !! i = Some s → s_id s = 0x100 + Z.of_nat i ∧ s_hash s = sec_hash (s_sd s);
  vo_distinct : NoDup (map s_sd (sec w));
  vo_off : 0 <= part_off w ∧ part_off w + 8 * Z.of_nat (length (clbmp w)) * cluster_size <= OFF_MAX;
}.

Definition rec_ext (n : Z) (r r' : mftrec_t) : Prop :=
  r_is_dir r' = r_is_dir r ∧ (∃ more, r_entries r' = r_entries r ++ more) ∧
  ∀ al, tracks n r al → ∃ al', tracks n r' al' ∧ datas al' = datas al.

(** The bytes of a run. *)
Definition run_bytes (m : mem) (w : ntfs_writer) (x : Z * Z) : list Z :=
  mread m (cluster_byte w (fst x)) (Z.to_nat (snd x * cluster_size)).

Record ext (w : ntfs_writer) (m : mem) (rs : runs) (w' : ntfs_writer) (m' : mem) (rs' : runs) : Prop := {
  ex_vol : same_volume w w';
  ex_plan : same_plan w w';
  ex_runs : ∃ more, rs' = more ++ rs;
  ex_data : Forall (λ x, run_bytes m' w' x = run_bytes m w x) rs;
  ex_sec : ∃ more, sec w' = sec w ++ more;
  ex_rpl : ∃ more, rpl w' = rpl w ++ more;
  ex_recs : ∀ i r, rec w !! i = Some r → ∃ r', rec w' !! i = Some r' ∧ rec_ext (Z.of_nat i) r r';
}.

Lemma same_plan_trans w1 w2 w3 : same_plan w1 w2 → same_plan w2 w3 → same_plan w1 w3.
Proof. unfold same_plan. intuition congruence. Qed.

Lemma same_volume_trans w1 w2 w3 : same_volume w1 w2 → same_volume w2 w3 → same_volume w1 w3.
Proof. unfold same_volume. intuition congruence. Qed.

Lemma rec_ext_refl n r : rec_ext n r r.
Proof. split_and!; [done|exists []; by rewrite app_nil_r|]. intros al H. by exists al. Qed.

Lemma rec_ext_trans n r1 r2 r3 : rec_ext n r1 r2 → rec_ext n r2 r3 → rec_ext n r1 r3.
Proof.
  intros (A1 & (x & A2) & A3) (B1 & (y & B2) & B3). split_and!; [congruence|exists (x ++ y); by rewrite B2, A2, app_assoc|].
  intros al H. destruct (A3 al H) as (al' & H' & E'). destruct (B3 al' H') as (al2 & H2 & E2). exists al2. split; [done|congruence].
Qed.

Lemma ext_refl w m rs : ext w m rs w m rs.
Proof.
  constructor; [done|done|by exists []|by apply list.Forall_forall|exists []; by rewrite app_nil_r|exists []; by rewrite app_nil_r|].
  intros i r Hr. exists r. split; [done|apply rec_ext_refl].
Qed.

Lemma ext_trans w1 m1 rs1 w2 m2 rs2 w3 m3 rs3 : ext w1 m1 rs1 w2 m2 rs2 → ext w2 m2 rs2 w3 m3 rs3 → ext w1 m1 rs1 w3 m3 rs3.
Proof.
  intros [A1 A0 (ax & ->) A3 (ay & A4) (az & A5) A6] [B1 B0 (bx & ->) B3 (by_ & B4) (bz & B5) B6]. constructor.
  - by eapply same_volume_trans.
  - by eapply same_plan_trans.
  - exists (bx ++ ax). by rewrite app_assoc.
  - apply Forall_app in B3 as [_ B3]. rewrite list.Forall_forall in *. intros x Hx. rewrite B3 by done. by apply A3.
  - exists (ay ++ by_). by rewrite B4, A4, app_assoc.
  - exists (az ++ bz). by rewrite B5, A5, app_assoc.
  - intros i r Hr. destruct (A6 i r Hr) as (r2 & Hr2 & E2). destruct (B6 i r2 Hr2) as (r3 & Hr3 & E3).
    exists r3. split; [done|]. by eapply rec_ext_trans.
Qed.

Lemma run_bytes_same m w w' x : same_volume w w' → run_bytes m w' x = run_bytes m w x.
Proof. intros (E & _). unfold run_bytes, cluster_byte. by rewrite E. Qed.

(** ** What the operations promise *)

Definition stored (w : ntfs_writer) (m : mem) (rs : runs) (ds : list attr_body) (data : list Z) : Prop :=
  match ds with
  | [Resident v _] => v = data
  | [Nonres lcn count _ size init _] =>
      (lcn, count) ∈ rs ∧ size = Z.of_nat (length data) ∧ init = size ∧ size <= count * cluster_size ∧
      take (length data) (run_bytes m w (lcn, count)) = data
  | _ => False
  end.

Definition file_holds (w : ntfs_writer) (m : mem) (rs : runs) (ref : Z) (data : list Z) : Prop :=
  ∃ r al, get_rec w (parent_recno ref) = Some r ∧ r_is_dir r = false ∧ tracks (parent_recno ref) r al ∧ stored w m rs (datas al) data.

Definition entry_holds (w : ntfs_writer) (parent_ref ref : Z) (name : list Z) : Prop :=
  ∃ r e, get_rec w (parent_recno parent_ref) = Some r ∧ e ∈ r_entries r ∧ x_ref e = ref ∧ key_name (x_key e) = name.

Lemma get_rec_ext w m rs w' m' rs' i r : ext w m rs w' m' rs' → 0 <= i → get_rec w i = Some r →
  ∃ r', get_rec w' i = Some r' ∧ rec_ext i r r'.
Proof.
  intros He Hi Hr. destruct (ex_recs _ _ _ _ _ _ He _ _ Hr) as (r' & Hr' & Hx). rewrite Z2Nat.id in Hx by done. by exists r'.
Qed.

Lemma file_holds_ext w m rs w' m' rs' ref data : ext w m rs w' m' rs' → file_holds w m rs ref data → file_holds w' m' rs' ref data.
Proof.
  intros He (r & al & Hr & Hd & Ht & Hs). destruct (get_rec_ext _ _ _ _ _ _ _ _ He ltac:(apply u32_range) Hr) as (r' & Hr' & E1 & _ & E3).
  destruct (E3 al Ht) as (al' & Ht' & Ed). exists r', al'. split_and!; [done|congruence|done|]. rewrite Ed.
  unfold stored in *. destruct (datas al) as [|[v i|lcn cnt a s i f] []]; try done. destruct Hs as (S1 & S2 & S3 & S4 & S5).
  destruct (ex_runs _ _ _ _ _ _ He) as (more & ->). split_and!; [apply elem_of_app; by right|done|done|done|].
  pose proof (ex_data _ _ _ _ _ _ He) as Hf. rewrite list.Forall_forall in Hf. by rewrite Hf.
Qed.

Lemma entry_holds_ext w m rs w' m' rs' p ref name : ext w m rs w' m' rs' → entry_holds w p ref name → entry_holds w' p ref name.
Proof.
  intros He (r & e & Hr & Hin & H1 & H2). destruct (get_rec_ext _ _ _ _ _ _ _ _ He ltac:(apply u32_range) Hr) as (r' & Hr' & _ & (more & E2) & _).
  exists r', e. split_and!; [done|rewrite E2; apply elem_of_app; by left|done|done].
Qed.

(** ** Steps that add a record *)

Lemma tracks_entries n r l al : tracks n r al → tracks n (with_entries r l) al.
Proof. exact id. Qed.
Lemma tracks_links n r k al : tracks n r al → tracks n (with_links r k) al.
Proof. exact id. Qed.
Lemma tracks_ov n r l al : tracks n r al → tracks n (with_ov r l) al.
Proof. exact id. Qed.
Lemma tracks_reparse n r b al : tracks n r al → tracks n (with_reparse r b) al.
Proof. exact id. Qed.

Lemma entries_ext n r es : rec_ext n r (with_entries r (r_entries r ++ es)).
Proof. split_and!; [done|by exists es|]. intros al H. exists al. split; [by apply tracks_entries|done]. Qed.

Lemma keys_of_facts upcase parent_ref c a m alloc real da name short :
  is_u64 parent_ref → name_fits name short →
  let keys := keys_of upcase parent_ref c a m alloc real da name short in
  Forall (λ k, parent_recno (r64 k 0) = parent_recno parent_ref ∧ Z.of_nat (length k) <= 0x42 + 2 * 255) keys ∧
  (1 <= length keys <= 2)%nat ∧ key_name <$> head keys = Some name.
Proof.
  intros Hp (N1 & N2 & S1 & S2). cbv zeta. unfold keys_of. cbv zeta. set (hs := negb (Nat.eqb (length short) 0)). set (col := hs && names_collapsible upcase name short).
  assert (∀ nm ns, Forall is_u16 nm → Z.of_nat (length nm) <= 255 → 0 <= ns < 256 →
    let k := build_file_name parent_ref c a m alloc real da nm ns in
    parent_recno (r64 k 0) = parent_recno parent_ref ∧ Z.of_nat (length k) <= 0x42 + 2 * 255 ∧ key_name k = nm) as Hk.
  { intros nm ns H1 H2 H3. destruct (file_name_fields parent_ref c a m alloc real da nm ns Hp H1 H2 H3) as (F1 & F2 & _). cbv zeta in *.
    rewrite F2, length_file_name. split_and!; [done|lia|done]. }
  set (ns := if negb hs then 0 else if col then 3 else 1). assert (0 <= ns < 256) as Hns by (unfold ns; destruct (negb hs), col; lia).
  destruct (Hk name ns N1 N2 Hns) as (K1 & K2 & K3). destruct (Hk short 2 S1 ltac:(lia) ltac:(lia)) as (L1 & L2 & _). cbv zeta in *. cbn [head fmap option_fmap option_map].
  rewrite K3. destruct (hs && negb col); (split_and!; [|cbn; lia|cbn; lia|done]).
  - constructor; [by split|]. constructor; [by split|constructor].
  - constructor; [by split|constructor].
Qed.

(** A record with the names [keys] and nothing of its own yet. *)
Definition named (n : Z) (is_dir : bool) (keys : list (list Z)) (r : mftrec_t) : Prop :=
  r_seq r = seq_of n ∧ r_base_ref r = 0 ∧ r_flags r = (if is_dir then 3 else 1) ∧ r_is_dir r = is_dir ∧ r_entries r = [] ∧ r_ov r = [] ∧
  r_link_count r = Z.of_nat (length keys) ∧ ∃ al, tracks n r al ∧ early al ∧ file_names al = keys.

Lemma fresh_named n is_dir keys r : fresh_rec n is_dir keys r → named n is_dir keys r.
Proof.
  intros [(al & F1 & F1' & F2 & F3) F4 F5 F6 F7 F8 (F9 & F10 & F11 & F12)]. unfold named. split_and!; try done. by exists al.
Qed.

Lemma filter_none {A} (P : A → Prop) `{∀ x, Decision (P x)} (l : list A) : Forall (λ x, ¬ P x) l → filter P l = [].
Proof. induction 1 as [|x l Hx _ IH]; [done|]. by rewrite filter_cons_False. Qed.

Lemma no_links_beyond l count n : count < 2 ^ 32 → 0 <= n < 2 ^ 32 → count <= n →
  (∀ i r, l !! i = Some r → Forall (entry_ok count (Z.of_nat i)) (r_entries r)) → keys_for (file_ref n) (entries_all l) = [].
Proof.
  intros Hc Hn Hcn Hl. unfold keys_for. rewrite filter_none; [done|]. apply list.Forall_forall. intros e He Ee. unfold entries_all in He.
  apply list_elem_of_In, in_concat in He as (es & Hes & He). apply in_map_iff in Hes as (r & <- & Hr).
  apply list_elem_of_In, list_elem_of_lookup in Hr as [i Hi]. apply list_elem_of_In in He.
  pose proof (Hl i r Hi) as Hf. rewrite list.Forall_forall in Hf. destruct (Hf e He) as ((k & Hk & E) & _).
  rewrite E in Ee. apply file_ref_inj in Ee; lia.
Qed.

Lemma add_recs_ok w w' n is_dir parent_ref rp keys r :
  (∀ i r, rec w !! i = Some r → rec_ok (entries_all (rec w)) (nrec w) (Z.of_nat i) r) →
  rec w !! Z.to_nat (parent_recno parent_ref) = Some rp → n = nrec w → 27 <= n → n + 1 < 2 ^ 32 →
  Forall (λ k, parent_recno (r64 k 0) = parent_recno parent_ref ∧ Z.of_nat (length k) <= 0x42 + 2 * 255) keys → (1 <= length keys <= 2)%nat →
  rec w' = <[Z.to_nat (parent_recno parent_ref) := with_entries rp (r_entries rp ++ map (mkIdx (file_ref n)) keys)]> (rec w) ++ [r] →
  named n is_dir keys r →
  (∀ i r, rec w' !! i = Some r → rec_ok (entries_all (rec w')) (nrec w') (Z.of_nat i) r) ∧
  (∀ i r, rec w !! i = Some r → ∃ r', rec w' !! i = Some r' ∧ rec_ext (Z.of_nat i) r r').
Proof.
  intros Hl Hrp -> Hn Hn2 Hkeys Hlen Ew (R1 & R2 & R3 & R4 & R5 & R6 & R7 & al & R8 & R8' & R9).
  set (p := parent_recno parent_ref) in *. assert (0 <= p) as Hp by apply u32_range.
  pose proof (lookup_lt_Some _ _ _ Hrp) as Hlt. set (n := nrec w) in *. assert (n = Z.of_nat (length (rec w))) as En by done.
  assert (nrec w' = n + 1) as En' by (unfold nrec; rewrite Ew, length_app, length_insert; simpl; lia).
  assert (entries_all (rec w') ≡ₚ map (mkIdx (file_ref n)) keys ++ entries_all (rec w)) as Hall.
  { rewrite Ew, entries_all_app. unfold entries_all at 2. cbn [map concat]. rewrite R5. cbn [app]. rewrite app_nil_r.
    by apply (entries_all_insert (rec w) _ rp). }
  assert (rec_ok (entries_all (rec w')) (nrec w') n r) as Hnew.
  { assert (keys_for (file_ref n) (entries_all (rec w')) ≡ₚ keys) as Ek.
    { rewrite Hall, keys_for_app, keys_for_new. rewrite (no_links_beyond (rec w) n n); [by rewrite app_nil_r|lia|lia|lia|].
      intros i r0 Hi. destruct (Hl i r0 Hi) as (_ & _ & _ & He & _). exact He. }
    split_and!; [done|done|by rewrite R4|rewrite R5; constructor|]. exists al. rewrite Ek, R6, app_nil_r, R9.
    split_and!; [done|done|done|intros _; rewrite R7, u16_small; lia|lia]. }
  split.
  - apply (step_recs (rec w) (rec w') n p keys Hall); [unfold nrec in *; lia|unfold nrec in *; lia|lia|done|exact Hl|].
    intros i r0 Hi. rewrite Ew in Hi. destruct (Nat.lt_ge_cases i (length (rec w))) as [Hlt'|Hge].
    + rewrite lookup_app_l in Hi by (by rewrite length_insert). apply list_lookup_insert_Some in Hi as [(<- & <- & _)|[Hne Hi]].
      * right; left. split; [lia|]. by exists rp.
      * right; right. split; [lia|done].
    + left. rewrite lookup_app_r in Hi by (by rewrite length_insert). rewrite length_insert in Hi.
      destruct (i - length (rec w))%nat eqn:Ei; [|done]. injection Hi as <-. split; [lia|exact Hnew].
  - intros i r0 Hi. pose proof (lookup_lt_Some _ _ _ Hi). rewrite Ew, lookup_app_l by (by rewrite length_insert).
    destruct (decide (i = Z.to_nat p)) as [->|Hne].
    + rewrite list_lookup_insert_eq by done. eexists. split; [reflexivity|]. rewrite Hrp in Hi. injection Hi as <-. apply entries_ext.
    + rewrite list_lookup_insert_ne by done. exists r0. split; [done|apply rec_ext_refl].
Qed.

(** ** The calls *)

Record fmeta := mkMeta { m_attr : Z; m_sid : Z; m_c : Z; m_a : Z; m_m : Z }.

Inductive vop :=
  | OpDir (parent : Z) (name short : list Z) (t : fmeta)
  | OpFile (parent : Z) (name short : list Z) (t : fmeta) (data : list Z)
  | OpLink (target parent : Z) (name short : list Z) (t : fmeta) (size : Z)
  | OpSec (sd : list Z)
  | OpReparse (ref tag : Z) (data : list Z).

Definition run_vop {D} `{Image D} (upcase : Z → Z) (w : ntfs_writer) (d : D) (op : vop) : option (Z * ntfs_writer * D) :=
  match op with
  | OpDir p name short t => '(res, w) ← ntfs_add_dir upcase w p name short (m_attr t) (m_sid t) (m_c t) (m_a t) (m_m t); Some (res, w, d)
  | OpFile p name short t data => ntfs_add_file false upcase w d p name short (m_attr t) (m_sid t) (m_c t) (m_a t) (m_m t) data
  | OpLink target p name short t size =>
      '(res, w) ← ntfs_add_hardlink upcase w target p name short (m_attr t) (m_c t) (m_a t) (m_m t) size; Some (res, w, d)
  | OpSec sd => let '(id, w) := ntfs_secure_intern w sd in Some (id, w, d)
  | OpReparse ref tag data => w ← ntfs_set_reparse w ref tag data; Some (0, w, d)
  end.

Fixpoint run_vops {D} `{Image D} (upcase : Z → Z) (w : ntfs_writer) (d : D) (ops : list vop) : option (list Z * ntfs_writer * D) :=
  match ops with
  | [] => Some ([], w, d)
  | op :: ops' => '(res, w, d) ← run_vop upcase w d op; '(l, w, d) ← run_vops upcase w d ops'; Some (res :: l, w, d)
  end.

(** What a caller must pass: [kinds] says which records are directories. *)
Definition is_parent (kinds : list bool) (ref : Z) : bool :=
  let p := parent_recno ref in (ref =? file_ref p) && nth (Z.to_nat p) kinds false && ((p =? NTFS_REC_ROOT) || (27 <=? p)).
Definition is_target (kinds : list bool) (ref : Z) : bool :=
  let p := parent_recno ref in (ref =? file_ref p) && negb (nth (Z.to_nat p) kinds true) && (27 <=? p).
Definition names_check (name short : list Z) : bool :=
  forallb (λ u, (0 <=? u) && (u <? 65536)) (name ++ short) && (length name <=? 255)%nat && (length short <=? 12)%nat.

Definition vop_ok (kinds : list bool) (op : vop) : bool :=
  match op with
  | OpDir p name short _ => is_parent kinds p && names_check name short
  | OpFile p name short _ data => is_parent kinds p && names_check name short && (Z.of_nat (length data) <? 2 ^ 62)
  | OpLink target p name short _ _ => is_target kinds target && is_parent kinds p && names_check name short
  | OpSec _ => true
  | OpReparse ref _ _ => parent_recno ref <? Z.of_nat (length kinds)
  end.
Definition next_kinds (kinds : list bool) (op : vop) : list bool :=
  match op with OpDir _ _ _ _ => kinds ++ [true] | OpFile _ _ _ _ _ => kinds ++ [false] | _ => kinds end.
Fixpoint vops_ok (kinds : list bool) (ops : list vop) : bool :=
  match ops with [] => true | op :: ops' => vop_ok kinds op && vops_ok (next_kinds kinds op) ops' end.

(** The clusters an operation may take. *)
Definition need (op : vop) : Z := match op with OpFile _ _ _ _ data => clusters_of (Z.of_nat (length data)) | _ => 0 end.

Definition promise (w : ntfs_writer) (m : mem) (rs : runs) (op : vop) (res : Z) : Prop :=
  match op with
  | OpDir p name _ _ => entry_holds w p res name ∧ ∃ r, get_rec w (parent_recno res) = Some r ∧ r_is_dir r = true
  | OpFile p name _ _ data => entry_holds w p res name ∧ file_holds w m rs res data
  | OpLink target p name _ _ _ => res = target ∧ entry_holds w p target name
  | OpSec sd => ∃ s, sec w !! Z.to_nat (res - 0x100) = Some s ∧ 0x100 <= res ∧ s_id s = res ∧ s_sd s = match sd with [] => build_default_sd | _ => sd end
  | OpReparse ref tag _ => (tag, ref) ∈ rpl w
  end.

Lemma promise_ext w m rs w' m' rs' op res : ext w m rs w' m' rs' → promise w m rs op res → promise w' m' rs' op res.
Proof.
  intros He. destruct op; cbn [promise].
  - intros [H1 (r & Hr & Hd)]. split; [by eapply entry_holds_ext|].
    destruct (get_rec_ext _ _ _ _ _ _ _ _ He ltac:(apply u32_range) Hr) as (r' & Hr' & E & _). exists r'. split; [done|congruence].
  - intros [H1 H2]. split; [by eapply entry_holds_ext|by eapply file_holds_ext].
  - intros [H1 H2]. split; [done|by eapply entry_holds_ext].
  - intros (s & H1 & H2 & H3). destruct (ex_sec _ _ _ _ _ _ He) as (more & E). exists s. split; [|by split]. rewrite E. by apply lookup_app_l_Some.
  - intros H. destruct (ex_rpl _ _ _ _ _ _ He) as (more & ->). apply elem_of_app. by left.
Qed.

Definition kinds_ok (w : ntfs_writer) (kinds : list bool) : Prop := map r_is_dir (rec w) = kinds.

Lemma is_parent_ok w kinds ref : kinds_ok w kinds → nrec w < 2 ^ 32 → is_parent kinds ref = true →
  ∃ r, rec w !! Z.to_nat (parent_recno ref) = Some r ∧ r_is_dir r = true ∧ is_u64 ref ∧ ref = file_ref (parent_recno ref) ∧ parent_recno ref < nrec w.
Proof.
  intros Hk Hn H. unfold is_parent in H. apply andb_prop in H as [H _]. apply andb_prop in H as [H1 H2]. zbool.
  assert (is_Some (kinds !! Z.to_nat (parent_recno ref))) as [b Hb].
  { apply lookup_lt_is_Some. apply Nat.nle_gt. intros Hle. by rewrite nth_overflow in H2. }
  rewrite (nth_lookup_Some _ _ _ _ Hb) in H2. subst b. rewrite <- Hk, list_lookup_fmap in Hb. apply fmap_Some in Hb as (r & Hr & Hd).
  pose proof (lookup_lt_Some _ _ _ Hr). assert (0 <= parent_recno ref) by apply u32_range.
  exists r. split_and!; [done|done| |done|unfold nrec; lia]. rewrite H1, file_ref_val by (unfold nrec in *; lia).
  pose proof (seq_of_range (parent_recno ref) ltac:(lia)). unfold is_u64, nrec in *. lia.
Qed.

Lemma names_check_ok name short : names_check name short = true → name_fits name short.
Proof.
  unfold names_check. intros H. apply andb_prop in H as [H H3]. apply andb_prop in H as [H1 H2].
  apply Nat.leb_le in H2, H3. rewrite forallb_app in H1. apply andb_prop in H1 as [A B].
  assert (∀ l, forallb (λ u, (0 <=? u) && (u <? 65536)) l = true → Forall is_u16 l) as Hf.
  { intros l Hl. apply list.Forall_forall. intros u Hu. rewrite forallb_forall in Hl. apply list_elem_of_In in Hu. apply Hl in Hu. zbool. unfold is_u16. lia. }
  unfold name_fits. split_and!; [by apply Hf|lia|by apply Hf|lia].
Qed.
