(* ===== verification/NtfsRuns.v ===== *)
(** * Runs of clusters and what they hold
      ([src/tools/iso-patch-mac/engine/ntfs.c]: [alloc_clusters] followed by
      [blockio_write])

    A run handed out by the allocator and written: the new run holds the bytes,
    every earlier run what it held. *)

From Stdlib Require Import Sorted.
From S2P Require Import Prelude Bytes BlockIO ImageWrites NtfsCodec NtfsRecord Bitmap NtfsVolume NtfsAlloc NtfsSession.

(** The volume lies below the end of the image. *)
Definition on_image (w : ntfs_writer) : Prop :=
  0 <= part_off w ∧ part_off w + 8 * Z.of_nat (length (clbmp w)) * cluster_size <= OFF_MAX.

Lemma on_image_same w w' : same_volume w w' → on_image w → on_image w'.
Proof. intros (E & _ & _ & _ & _ & _ & El). unfold on_image. by rewrite E, El. Qed.

(** [m] has what [ws] wrote. *)
Definition holds (m : mem) (ws : list (Z * list Z)) : Prop := Forall (λ x, mread m (fst x) (length (snd x)) = snd x) ws.

(** Writing again what is there changes nothing. *)
Lemma holds_apply m ws : holds m ws → apply_writes m ws ≡m m.
Proof.
  induction 1 as [|[off bs] ws H _ IH]; [done|]. unfold apply_writes in *. cbn [fold_left fst snd] in *.
  assert (mwrite m off bs ≡m m) as E.
  { intros x. destruct (decide (off <= x < off + Z.of_nat (length bs))) as [Hx|Hx].
    - rewrite mwrite_in by lia. rewrite <- H. unfold bget. rewrite mread_lookup by lia. f_equal. lia.
    - apply mwrite_out. lia. }
  change (fold_left (λ m w, mwrite m (fst w) (snd w)) ws (mwrite m off bs)) with (apply_writes (mwrite m off bs) ws).
  rewrite E. exact IH.
Qed.

Lemma holds_ext m m' ws : (∀ x, x ∈ ws → mread m' (fst x) (length (snd x)) = mread m (fst x) (length (snd x))) → holds m ws → holds m' ws.
Proof. intros He H. apply list.Forall_forall. intros x Hx. rewrite He by done. unfold holds in H. rewrite list.Forall_forall in H. by apply H. Qed.

(** Where a cluster is on the image. *)
Lemma cluster_byte_ok w c : on_image w → 0 <= c <= 8 * Z.of_nat (length (clbmp w)) → cluster_byte w c = part_off w + c * cluster_size.
Proof.
  intros [O1 O2] Hc. unfold cluster_byte. unfold OFF_MAX, cluster_size in *. rewrite !(u64_small (c * 4096)), u64_small by lia. done.
Qed.

Lemma run_base low w rs sum big x : alloc_low low w rs sum big → on_image w → x ∈ rs →
  cluster_byte w (fst x) = part_off w + fst x * cluster_size ∧ mft_zone_end w <= fst x ∧ 0 < snd x ∧ fst x + snd x <= next_lcn w ∧
  fst x + snd x <= 8 * Z.of_nat (length (clbmp w)) ∧ (fst x + snd x <= reserve_lcn w ∨ reserve_lcn w + 1 <= fst x).
Proof.
  intros Ha Ho Hx. pose proof (ao_zone _ _ _ _ Ha). pose proof (ao_in _ _ _ _ Ha) as Hin. pose proof (ao_runs _ _ _ _ Ha) as Hr.
  rewrite list.Forall_forall in Hin, Hr. specialize (Hin x Hx). specialize (Hr x Hx). cbn beta in *. rewrite cluster_byte_ok by (done || lia). split_and!; try lia.
Qed.

(** Writes clear of the runs leave them as they are. *)
Lemma runs_keep low w rs sum big m m' ws : alloc_low low w rs sum big → on_image w → m' ≡m apply_writes m ws →
  Forall (λ x, avoids (part_off w + fst x * cluster_size) (snd x * cluster_size) ws) rs → Forall (λ x, run_bytes m' w x = run_bytes m w x) rs.
Proof.
  intros Ha Ho Hm Hws. rewrite list.Forall_forall in *. intros x Hx. destruct (run_base low w rs sum big x Ha Ho Hx) as (E & _ & H0 & _).
  unfold run_bytes. rewrite E. rewrite (mread_ext _ (apply_writes m ws)) by (intros y _; apply Hm). apply apply_writes_avoids.
  rewrite Z2Nat.id by (unfold cluster_size; lia). by apply Hws.
Qed.

Section put.
Context {D : Type} `{HI : Image D}.
Context (low : Z → Prop) (w : ntfs_writer) (d : D) (rs : runs) (sum big n k : Z).
Context (Ha : alloc_low low w rs sum big) (Ho : on_image w) (Hd : img_ok d).
Context (Hn : 0 < n <= big) (Hcap : mft_zone_end w + sum + n + big + 1 <= 8 * Z.of_nat (length (clbmp w))).

Lemma run_put (ws : Z → list (Z * list Z)) :
  0 <= k → img_live (n * cluster_size + k) d →
  (∀ base, 0 <= base → base + n * cluster_size <= OFF_MAX →
     inside base (base + n * cluster_size) (ws base) ∧ writes_len (ws base) <= n * cluster_size) →
  ∃ lcn w' d', let base := part_off w + lcn * cluster_size in
    alloc_clusters w n = Some (lcn, w') ∧ cluster_byte w' lcn = base ∧ puts d (ws base) = Some d' ∧
    alloc_low low w' ((lcn, n) :: rs) (sum + n) big ∧ same_volume w w' ∧ on_image w' ∧
    rec w' = rec w ∧ cap_rec w' = cap_rec w ∧ sec w' = sec w ∧ rpl w' = rpl w ∧ same_plan w w' ∧
    img_ok d' ∧ img_live k d' ∧ 0 < lcn ∧ base + n * cluster_size <= OFF_MAX ∧
    img_view d' ≡m apply_writes (img_view d) (ws base) ∧
    Forall (λ x, run_bytes (img_view d') w' x = run_bytes (img_view d) w x) rs.
Proof using All.
  intros Hk Hlive Hws. destruct (alloc_clusters_ok low w rs sum big n Ha Hn Hcap) as (lcn & w' & Ea & A' & S & L1 & L2 & E1 & E2 & E3 & E4 & E5).
  pose proof S as (P1 & _ & _ & P4 & _ & _ & P7). pose proof (ao_zone _ _ _ _ Ha) as Hz. pose proof Ho as [O1 O2].
  set (base := part_off w + lcn * cluster_size).
  assert (0 <= base ∧ base + n * cluster_size <= OFF_MAX) as [B1 B2] by (unfold base, cluster_size in *; lia).
  destruct (Hws base B1 B2) as (W1 & W2). pose proof (writes_len_nonneg (ws base)).
  assert (writes_fit (ws base)) as Wf by (by apply (inside_fit base (base + n * cluster_size))).
  destruct (puts_total (ws base) d k Hd Wf Hk) as (d' & Ep & Hd' & _ & Hv & Hl'); [eapply img_live_le; [exact Hlive|lia]|].
  pose proof (on_image_same w w' S Ho) as O'.
  exists lcn, w', d'. cbv zeta. fold base. split_and!; try done.
  - destruct (run_base low w' _ _ big (lcn, n) A' O' (list_elem_of_here _ _)) as (E & _). by rewrite P1 in E.
  - lia.
  - assert (Forall (λ x, run_bytes (img_view d') w x = run_bytes (img_view d) w x) rs) as Hk2.
    { apply (runs_keep low w rs sum big _ _ (ws base) Ha Ho Hv). pose proof (ao_sorted _ _ _ _ A') as Hso. inversion Hso as [|? ? _ Hso2]; subst.
      eapply Forall_impl; [exact Hso2|]. cbn [fst snd]. intros x Hx. apply (inside_avoids _ _ _ _ _ W1). right. unfold base, cluster_size. lia. }
    eapply Forall_impl; [exact Hk2|]. cbn beta. intros x Hx. by rewrite (run_bytes_same _ w w' x S).
Qed.
End put.
