(* ===== verification/NtfsSteps.v ===== *)
(** * Every call keeps the volume consistent
      ([src/tools/iso-patch-mac/engine/ntfs.c]: [ntfs_add_dir],
      [ntfs_add_file], [ntfs_add_hardlink], [ntfs_secure_intern],
      [ntfs_set_reparse])

    One lemma per call, on the invariant and the preorder of [NtfsSession]. *)

From Stdlib Require Import String Sorted.
From S2P Require Import Prelude Bytes WStr BlockIO ImageWrites NtfsCodec NtfsRecord Bitmap NtfsVolume NtfsAlloc NtfsSession NtfsRuns.

(** ** Parts of the state *)

Lemma same_set_rec w l cap : same_volume w (set_rec w l cap).
Proof. done. Qed.

(** ** A file's data on the disk *)

Lemma take_mread m a n k : (k <= n)%nat → take k (mread m a n) = mread m a k.
Proof. intros H. replace n with (k + (n - k))%nat by lia. rewrite mread_app. by rewrite take_app_length' by by rewrite length_mread. Qed.

Lemma clusters_of_spec size : 0 <= size < 2 ^ 62 →
  let n := clusters_of size in size <= n * cluster_size < size + cluster_size ∧ (size = 0 → n = 0) ∧ (0 < size → 0 < n) ∧ 0 <= n < 2 ^ 51.
Proof.
  intros Hs. unfold clusters_of, cluster_size. destruct (Z.eqb_spec size 0) as [->|Hne]; [lia|].
  rewrite u64_small by lia. split_and!; intros; dlia.
Qed.

(** What a streamed file sends to a run at [base] of [n] clusters. *)
Definition run_data (base n : Z) (data : list Z) : list (Z * list Z) :=
  let size := Z.of_nat (length data) in
  (base, data) :: (if size <? n * cluster_size then [(base + size, replicate (Z.to_nat (n * cluster_size - size)) 0)] else []).

Section data.
Context (n : Z) (data : list Z).
Let size := Z.of_nat (length data).
Context (Hs : 0 < size <= n * cluster_size) (Hlast : n * cluster_size < size + cluster_size).

Lemma data_writes_eq w lcn base : cluster_byte w lcn = base → 0 <= base → base + n * cluster_size <= OFF_MAX →
  data_writes w lcn (n * cluster_size) data = run_data base n data.
Proof using All.
  intros Eb Hb Hfit. unfold data_writes, run_data. fold size. rewrite Eb. rewrite (proj2 (Z.eqb_neq size 0)) by lia. cbn [app]. f_equal.
  destruct (Z.ltb_spec size (n * cluster_size)) as [Hlt|Hge]; [|done]. unfold OFF_MAX, cluster_size in *.
  replace (n * 4096 / 4096 + 1) with (n + 1) by (rewrite Z.div_mul; lia).
  replace (Z.to_nat (n + 1)) with (S (S (Z.to_nat (n - 1)))) by lia. cbn [zero_fill].
  rewrite (proj2 (Z.eqb_neq (n * 4096 - size) 0)), (proj2 (Z.ltb_lt (n * 4096 - size) 4096)) by lia.
  rewrite (u64_small (base + size)) by lia. do 2 f_equal.
  replace (n * 4096 - size - (n * 4096 - size)) with 0 by lia. done.
Qed.

Lemma run_data_inside base : inside base (base + n * cluster_size) (run_data base n data) ∧ writes_len (run_data base n data) <= n * cluster_size.
Proof using Hs.
  unfold run_data. fold size. destruct (Z.ltb_spec size (n * cluster_size)); (split; [constructor; [cbn [fst snd]; lia|]|]).
  - constructor; [|constructor]. cbn [fst snd]. rewrite length_replicate. lia.
  - unfold writes_len. cbn [foldr snd]. rewrite length_replicate. lia.
  - constructor.
  - unfold writes_len. cbn [foldr snd]. lia.
Qed.

Lemma run_data_read m base : mread (apply_writes m (run_data base n data)) base (length data) = data.
Proof using Hs.
  unfold run_data. fold size. set (rest := if _ : bool then _ else _).
  change ((base, data) :: rest) with ([(base, data)] ++ rest). rewrite apply_writes_app, apply_writes_avoids.
  - unfold apply_writes. cbn [fold_left fst snd]. apply mread_mwrite_at. done.
  - unfold rest. destruct (_ <? _); [|constructor]. constructor; [|constructor]. cbn [fst snd]. lia.
Qed.
End data.

(** The result of a call, all in one. *)
Definition step_ok {D} `{Image D} (w : ntfs_writer) (d : D) (rs : runs) (sum big k : Z) (kinds : list bool) (op : vop)
    (res : option (Z * ntfs_writer * D)) : Prop :=
  ∃ v w' d' rs', res = Some (v, w', d') ∧ vol_ok w' rs' (sum + need op) big ∧ ext w (img_view d) rs w' (img_view d') rs' ∧
    kinds_ok w' (next_kinds kinds op) ∧ img_ok d' ∧ img_live k d' ∧ promise w' (img_view d') rs' op v.

(** ** Adding a record *)

Lemma kinds_add w w' kinds p rp es r :
  kinds_ok w kinds → rec w !! p = Some rp → rec w' = <[p := with_entries rp es]> (rec w) ++ [r] → kinds_ok w' (kinds ++ [r_is_dir r]).
Proof.
  unfold kinds_ok. intros <- Hp ->. rewrite map_app. f_equal. change (map r_is_dir) with (fmap r_is_dir : list mftrec_t → list bool).
  rewrite list_fmap_insert. cbn [with_entries r_is_dir]. apply list_insert_id. by rewrite list_lookup_fmap, Hp.
Qed.

Lemma entry_added w' l parent_ref rp ref keys name r :
  rec w' = <[Z.to_nat (parent_recno parent_ref) := with_entries rp (r_entries rp ++ map (mkIdx ref) keys)]> l ++ [r] →
  l !! Z.to_nat (parent_recno parent_ref) = Some rp → key_name <$> head keys = Some name → entry_holds w' parent_ref ref name.
Proof.
  intros Ew Hl Hk. pose proof (lookup_lt_Some _ _ _ Hl). destruct keys as [|key keys]; [done|]. injection Hk as Hk.
  eexists _, (mkIdx ref key). unfold get_rec. rewrite Ew, lookup_app_l, list_lookup_insert_eq by (rewrite ?length_insert; done).
  split; [reflexivity|]. split_and!; [|done|done]. cbn [with_entries r_entries map]. apply elem_of_app. right. apply list_elem_of_here.
Qed.

Lemma last_added w' l n r : rec w' = l ++ [r] → n = Z.of_nat (length l) → n < 2 ^ 32 → get_rec w' (parent_recno (file_ref n)) = Some r.
Proof.
  intros Ew -> Hn. rewrite parent_recno_ref by lia. unfold get_rec. rewrite Ew, Nat2Z.id, lookup_app_r by lia. by rewrite Nat.sub_diag.
Qed.

Section calls.
Context {D : Type} `{HI : Image D}.
Context (upcase : Z → Z) (w : ntfs_writer) (d : D) (rs : runs) (sum big k : Z) (kinds : list bool).
Context (Hvol : vol_ok w rs sum big) (Hkinds : kinds_ok w kinds) (Hcount : nrec w + 1 < 2 ^ 32) (Hd : img_ok d).

(** What [vol_ok] and [ext] need of a call that adds the record [r]. *)
Lemma added w' rs' is_dir parent_ref rp keys r sum' m' :
  rec w !! Z.to_nat (parent_recno parent_ref) = Some rp → is_u64 parent_ref →
  Forall (λ k, parent_recno (r64 k 0) = parent_recno parent_ref ∧ Z.of_nat (length k) <= 0x42 + 2 * 255) keys → (1 <= length keys <= 2)%nat →
  rec w' = <[Z.to_nat (parent_recno parent_ref) := with_entries rp (r_entries rp ++ map (mkIdx (file_ref (nrec w))) keys)]> (rec w) ++ [r] →
  named (nrec w) is_dir keys r → nrec w' <= cap_rec w' → sec w' = sec w → rpl w' = rpl w → same_volume w w' → same_plan w w' →
  alloc_ok w' rs' sum' big → (∃ more, rs' = more ++ rs) → Forall (λ x, run_bytes m' w' x = run_bytes (img_view d) w x) rs →
  vol_ok w' rs' sum' big ∧ ext w (img_view d) rs w' m' rs' ∧ kinds_ok w' (kinds ++ [is_dir]).
Proof using Hvol Hkinds Hcount.
  intros Hp Hu Hkeys Hlen Ew Hnamed Hcap Esec Erpl Hsame Hplan Halloc Hruns Hdata. pose proof Hvol as [V1 [V2 V2'] V3 V4 V5 V6].
  destruct (add_recs_ok w w' (nrec w) is_dir parent_ref rp keys r V3 Hp eq_refl ltac:(lia) Hcount Hkeys Hlen Ew Hnamed) as [R1 R2].
  assert (nrec w' = nrec w + 1) as En by (unfold nrec; rewrite Ew, length_app, length_insert; simpl; lia).
  pose proof Hsame as (S1 & S2 & S3 & S4 & S5 & S6 & S7). split_and!.
  - constructor; [done|lia|exact R1|by rewrite Esec|by rewrite Esec|by rewrite S1, S7].
  - constructor; [done|done|done|done|exists []; by rewrite app_nil_r|exists []; by rewrite app_nil_r|exact R2].
  - destruct Hnamed as (_ & _ & _ & <- & _). eapply kinds_add; [done|exact Hp|exact Ew].
Qed.

Lemma run_bytes_id w' : same_volume w w' → Forall (λ x, run_bytes (img_view d) w' x = run_bytes (img_view d) w x) rs.
Proof using. intros H. apply list.Forall_forall. intros x _. by apply run_bytes_same. Qed.

Lemma add_dir_step parent name short t :
  vop_ok kinds (OpDir parent name short t) = true → img_live k d →
  step_ok w d rs sum big k kinds (OpDir parent name short t) (run_vop upcase w d (OpDir parent name short t)).
Proof using Hvol Hkinds Hcount Hd.
  intros Hop Hk. cbn [vop_ok] in Hop. apply andb_prop in Hop as [Hpar Hnm]. apply names_check_ok in Hnm.
  destruct (is_parent_ok w kinds parent Hkinds ltac:(lia) Hpar) as (rp & Hrp & _ & Hu & _ & _).
  destruct (add_common_ok upcase w parent name short (Z.lor (m_attr t) 0x10) (m_sid t) (m_c t) (m_a t) (m_m t) 0 0 true rp Hrp Hnm ltac:(lia))
    as (r & cap & E & Hf & Hcap). cbn [run_vop]. unfold ntfs_add_dir. rewrite E. cbn [mbind option_bind].
  set (keys := keys_of _ _ _ _ _ _ _ _ _ _) in *.
  destruct (keys_of_facts upcase parent (m_c t) (m_a t) (m_m t) 0 0 (to_disk_attrs (Z.lor (m_attr t) 0x10) true) name short Hu Hnm) as (K1 & K2 & K3). fold keys in K1, K2, K3. clearbody keys.
  set (w' := set_rec w _ cap). pose proof Hvol as [V1 [V2 V2'] V3 V4 V5 V6].
  assert (rec w' = <[Z.to_nat (parent_recno parent) := with_entries rp (r_entries rp ++ map (mkIdx (file_ref (nrec w))) keys)]> (rec w) ++ [r]) as Ew by done.
  assert (nrec w' = nrec w + 1) as En by (unfold nrec; rewrite Ew, length_app, length_insert; simpl; lia).
  destruct (added w' rs true parent rp keys r sum (img_view d) Hrp Hu K1 K2 Ew (fresh_named _ _ _ _ Hf)) as (A1 & A2 & A3);
    [rewrite En; cbn; lia|done|done|done|done|by apply (alloc_ok_same _ w)|by exists []|by apply run_bytes_id|].
  exists (file_ref (nrec w)), w', d, rs. cbn [need next_kinds]. rewrite Z.add_0_r. split_and!; try done.
  cbn [promise]. split.
  - by eapply entry_added.
  - exists r. split; [|apply Hf]. eapply last_added; [exact Ew|by rewrite length_insert|lia].
Qed.
(** The data attribute on the record just named. *)
Lemma named_data n is_dir keys r r' a al : fresh_rec n is_dir keys r → same_meta r r' →
  (∀ al, file_names (al ++ [a]) = file_names al) → tracks n r' (al ++ [a]) → early (al ++ [a]) → file_names al = keys → named n is_dir keys r'.
Proof using.
  intros [_ _ F5 F6 F7 F8 (F9 & F10 & F11 & F12)] (M1 & M2 & M3 & M4 & M5 & M6 & M7 & M8) Hnm Ht He Ek.
  unfold named. rewrite M1, M2, M3, M4, M5, M7, M8. split_and!; try done. exists (al ++ [a]). split; [done|]. split; [done|]. by rewrite Hnm.
Qed.

Lemma file_holds_last w' m rs' n l r al data : rec w' = l ++ [r] → n = Z.of_nat (length l) → n < 2 ^ 32 → r_is_dir r = false →
  tracks n r al → stored w' m rs' (datas al) data → file_holds w' m rs' (file_ref n) data.
Proof using.
  intros Ew En Hn Hdir Ht Hs. exists r, al. rewrite (last_added w' l n r Ew En Hn). rewrite parent_recno_ref by lia. by split_and!.
Qed.

Section file.
Context (parent : Z) (name short : list Z) (t : fmeta) (data : list Z).
Let size := Z.of_nat (length data).
Let n := clusters_of size.
Let op := OpFile parent name short t data.
Context (Hop : vop_ok kinds op = true) (Hlive : img_live (n * cluster_size + k) d) (Hk : 0 <= k).
Context (Hbig : n <= big) (Hcap : mft_zone_end w + sum + n + big + 1 <= 8 * Z.of_nat (length (clbmp w))).

(** The state after [add_common], [r] its new record. *)
Let after (rp r : mftrec_t) (keys : list (list Z)) (cap : Z) : ntfs_writer :=
  set_rec w (<[Z.to_nat (parent_recno parent) := with_entries rp (r_entries rp ++ map (mkIdx (file_ref (nrec w))) keys)]> (rec w) ++ [r]) cap.

(** A file whose data stays in the record. *)
Lemma resident_step rp r keys cap :
  rec w !! Z.to_nat (parent_recno parent) = Some rp → is_u64 parent →
  Forall (λ k, parent_recno (r64 k 0) = parent_recno parent ∧ Z.of_nat (length k) <= 0x42 + 2 * 255) keys → (1 <= length keys <= 2)%nat →
  key_name <$> head keys = Some name → fresh_rec (nrec w) false keys r → nrec w + 1 <= cap →
  size <= u32 (NTFS_MFT_RECSZ - r_used r - 0x18 - 8) → size <= 700 →
  ∃ r', attr_resident r NTFS_AT_DATA [] data 0 = Some r' ∧
    step_ok w d rs sum big k kinds op (Some (file_ref (nrec w), put_rec (after rp r keys cap) (nrec w) r', d)).
Proof using All.
  intros Hrp Hu K1 K2 K3 Hf Hc Hroom Hsz. pose proof Hf as [(al & T & Te & Ek & Ed) Fu _ _ _ Fd _].
  destruct (rep_facts _ _ _ (proj1 T)) as (U1 & U2 & U3 & _). unfold NTFS_MFT_RECSZ in *. rewrite u32_small in Hroom by lia.
  destruct (resident_len_bound data ltac:(lia)) as [B1 B2].
  destruct (add_value (nrec w) r al NTFS_AT_DATA data T) as (r' & Er & T' & M' & U'); [by vm_compute|by vm_compute|lia|unfold NTFS_MFT_RECSZ; fold size in B1; dlia|].
  exists r'. split; [exact Er|]. set (a := resident_attr NTFS_AT_DATA [] data 0 (Z.of_nat (length al))) in *.
  assert (named (nrec w) false keys r') as Hnamed.
  { apply (named_data _ _ _ _ _ a al Hf M'); [|exact T'|by apply early_snoc|exact Ek]. intros al0. rewrite file_names_snoc. apply app_nil_r. }
  unfold after. rewrite put_last by (by rewrite length_insert). set (w' := set_rec w _ cap).
  pose proof Hvol as [V1 [V2 V2'] V3 V4 V5 V6].
  assert (rec w' = <[Z.to_nat (parent_recno parent) := with_entries rp (r_entries rp ++ map (mkIdx (file_ref (nrec w))) keys)]> (rec w) ++ [r']) as Ew by done.
  assert (nrec w' = nrec w + 1) as En by (unfold nrec; rewrite Ew, length_app, length_insert; simpl; lia).
  assert (0 <= n) as Hn by (apply clusters_of_spec; lia).
  destruct (added w' rs false parent rp keys r' (sum + n) (img_view d) Hrp Hu K1 K2 Ew Hnamed) as (A1 & A2 & A3);
    [rewrite En; cbn; lia|done|done|done|done|apply (alloc_ok_more _ _ _ sum); [lia|]; by apply (alloc_ok_same _ w)|by exists []|by apply run_bytes_id|].
  exists (file_ref (nrec w)), w', d, rs. cbn [need next_kinds op]. fold size. fold n. split_and!; try done.
  - by eapply img_live_le; [exact Hlive|unfold cluster_size; lia].
  - cbn [promise op]. split; [by eapply entry_added|]. eapply (file_holds_last w' _ rs (nrec w) _ r' (al ++ [a])); [exact Ew|by rewrite length_insert|lia| |exact T'|].
    + destruct M' as (_ & _ & _ & -> & _). exact Fd.
    + rewrite datas_snoc, Ed. reflexivity.
Qed.

(** A file streamed to clusters of its own. *)
Lemma streamed_step rp r keys cap :
  rec w !! Z.to_nat (parent_recno parent) = Some rp → is_u64 parent →
  Forall (λ k, parent_recno (r64 k 0) = parent_recno parent ∧ Z.of_nat (length k) <= 0x42 + 2 * 255) keys → (1 <= length keys <= 2)%nat →
  key_name <$> head keys = Some name → fresh_rec (nrec w) false keys r → nrec w + 1 <= cap → 0 < size < 2 ^ 62 →
  ∃ lcn w2 d2 r', alloc_clusters (after rp r keys cap) n = Some (lcn, w2) ∧ puts d (data_writes w2 lcn (n * cluster_size) data) = Some d2 ∧
    attr_nonres r NTFS_AT_DATA [] lcn n cluster_size size size 0 = Some r' ∧
    step_ok w d rs sum big k kinds op (Some (file_ref (nrec w), put_rec w2 (nrec w) r', d2)).
Proof using All.
  intros Hrp Hu K1 K2 K3 Hf Hc Hsz. pose proof Hf as [(al & T & Te & Ek & Ed) Fu _ _ _ Fd _].
  pose proof Hvol as [V1 [V2 V2'] V3 V4 V5 V6]. set (w1 := after rp r keys cap).
  destruct (clusters_of_spec size ltac:(lia)) as (N1 & _ & N2 & N3). fold n in N1, N2, N3. specialize (N2 ltac:(lia)).
  assert (alloc_ok w1 rs sum big) as A1 by (by apply (alloc_ok_same _ w)).
  destruct (run_put boot_only w1 d rs sum big n k A1 V6 Hd ltac:(lia) Hcap (λ base, run_data base n data) Hk Hlive)
    as (lcn & w2 & d2 & Ea & Eb & Ep & A2 & S2 & O2 & E1 & E2 & E3 & E4 & E5 & Hd2 & Hl2 & L1 & Hfit & Hv & Hruns).
  { intros base _ _. apply run_data_inside. fold size. lia. }
  set (base := part_off w1 + lcn * cluster_size) in *. assert (0 <= base) as Hb0 by (destruct V6; unfold base, cluster_size in *; cbn; lia).
  rewrite <- (data_writes_eq n data ltac:(fold size; lia) ltac:(fold size; lia) w2 lcn base Eb Hb0 Hfit) in Ep. set (ws := data_writes w2 lcn (n * cluster_size) data) in *.
  assert (0 <= lcn < 2 ^ 63 ∧ 0 < n < 2 ^ 63) as [Hlr Hnr] by (destruct V6; unfold base, OFF_MAX, cluster_size in *; cbn in *; lia).
  destruct (append_nonres (nrec w) r al NTFS_AT_DATA [] lcn n cluster_size size size 0 T) as (r' & Er & T' & M' & _);
    [apply type_ok_plain; [by vm_compute|by vm_compute]|lia|lia|unfold is_u64; lia|unfold is_u64; lia|by vm_compute| |].
  { destruct (nonres_len_bound n lcn ltac:(lia) ltac:(lia)). unfold NTFS_MFT_RECSZ. lia. }
  set (a := mkAttr _ _ _ _) in T'.
  exists lcn, w2, d2, r'. split; [exact Ea|]. split; [exact Ep|]. split; [exact Er|].
  assert (named (nrec w) false keys r') as Hnamed.
  { apply (named_data _ _ _ _ _ a al Hf M'); [|exact T'|by apply early_snoc|exact Ek]. intros al0. rewrite file_names_snoc. apply app_nil_r. }
  assert (put_rec w2 (nrec w) r' = set_rec w2 (<[Z.to_nat (parent_recno parent) := with_entries rp (r_entries rp ++ map (mkIdx (file_ref (nrec w))) keys)]> (rec w) ++ [r']) cap) as Eput.
  { transitivity (put_rec (set_rec w2 (rec w1) cap) (nrec w) r').
    - unfold put_rec. rewrite E1, E2. reflexivity.
    - apply put_last. by rewrite length_insert. }
  rewrite Eput. set (w' := set_rec w2 _ cap).
  assert (rec w' = <[Z.to_nat (parent_recno parent) := with_entries rp (r_entries rp ++ map (mkIdx (file_ref (nrec w))) keys)]> (rec w) ++ [r']) as Ew by done.
  assert (nrec w' = nrec w + 1) as En by (unfold nrec; rewrite Ew, length_app, length_insert; simpl; lia).
  destruct (added w' ((lcn, n) :: rs) false parent rp keys r' (sum + n) (img_view d2) Hrp Hu K1 K2 Ew Hnamed) as (B1 & B2 & B3);
    [rewrite En; cbn; lia|exact E3|exact E4|exact S2|exact E5|by apply (alloc_ok_same _ w2)|by exists [(lcn, n)]|exact Hruns|].
  exists (file_ref (nrec w)), w', d2, ((lcn, n) :: rs). cbn [need next_kinds op]. fold size. fold n. split_and!; try done.
  cbn [promise op]. split; [by eapply entry_added|].
  eapply (file_holds_last w' _ _ (nrec w) _ r' (al ++ [a])); [exact Ew|by rewrite length_insert|lia| |exact T'|].
  - destruct M' as (_ & _ & _ & -> & _). exact Fd.
  - rewrite datas_snoc, Ed. cbn [app datas map filter stored a]. change (filter is_data [a]) with [a]. cbn [map a a_body stored].
    split_and!; [apply list_elem_of_here|done|done|fold size; lia|].
    unfold run_bytes. cbn [fst snd]. change (cluster_byte w' lcn) with (cluster_byte w2 lcn). rewrite Eb, take_mread by (unfold size in *; lia).
    rewrite (mread_ext _ (apply_writes (img_view d) (run_data base n data))) by (intros y _; apply Hv). apply run_data_read. fold size. lia.
Qed.
End file.
End calls.

Section more_calls.
Context {D : Type} `{HI : Image D}.
Context (upcase : Z → Z) (w : ntfs_writer) (d : D) (rs : runs) (sum big k : Z) (kinds : list bool).
Context (Hvol : vol_ok w rs sum big) (Hkinds : kinds_ok w kinds) (Hcount : nrec w + 1 < 2 ^ 32) (Hd : img_ok d).

Lemma add_file_step parent name short t data :
  let n := clusters_of (Z.of_nat (length data)) in
  vop_ok kinds (OpFile parent name short t data) = true → img_live (n * cluster_size + k) d → 0 <= k →
  n <= big → mft_zone_end w + sum + n + big + 1 <= 8 * Z.of_nat (length (clbmp w)) →
  step_ok w d rs sum big k kinds (OpFile parent name short t data) (run_vop upcase w d (OpFile parent name short t data)).
Proof using Hvol Hkinds Hcount Hd.
  intros n Hop Hlive Hk Hbig Hcap. pose proof Hop as Hop'. cbn [vop_ok] in Hop'. apply andb_prop in Hop' as [H' Hsz]. apply andb_prop in H' as [Hpar Hnm].
  apply names_check_ok in Hnm. zbool. set (size := Z.of_nat (length data)) in *.
  destruct (is_parent_ok w kinds parent Hkinds ltac:(lia) Hpar) as (rp & Hrp & _ & Hu & _ & _).
  destruct (clusters_of_spec size ltac:(lia)) as (N1 & N2 & _ & N3). fold n in N1, N2, N3. unfold cluster_size in N1.
  destruct (add_common_ok upcase w parent name short (m_attr t) (m_sid t) (m_c t) (m_a t) (m_m t) (u64 (n * cluster_size)) size false rp Hrp Hnm ltac:(lia))
    as (r & cap & E & Hf & Hc). cbn [run_vop]. unfold ntfs_add_file. fold size. fold n. rewrite E. cbn [mbind option_bind].
  rewrite (proj2 (Z.eqb_neq (file_ref (nrec w)) 0)) by (apply file_ref_pos; unfold nrec in *; lia).
  rewrite get_last by (by rewrite length_insert). cbn [mbind option_bind].
  set (keys := keys_of _ _ _ _ _ _ _ _ _ _) in *.
  destruct (keys_of_facts upcase parent (m_c t) (m_a t) (m_m t) (u64 (n * cluster_size)) size (to_disk_attrs (m_attr t) false) name short Hu Hnm) as (K1 & K2 & K3).
  fold keys in K1, K2, K3. clearbody keys. pose proof (vo_count _ _ _ _ Hvol) as [V2 V2'].
  destruct ((size <=? u32 (NTFS_MFT_RECSZ - r_used r - 24 - 8)) && (size <=? 700)) eqn:Ec.
  - apply andb_prop in Ec as [C1 C2]. zbool.
    destruct (resident_step upcase w d rs sum big k kinds Hvol Hkinds Hcount Hd parent name short t data Hop Hlive Hk Hbig Hcap rp r keys cap Hrp Hu K1 K2 K3 Hf ltac:(lia) C1 C2)
      as (r' & -> & Hstep). exact Hstep.
  - assert (0 < size) as Hpos.
    { apply andb_false_iff in Ec as [C|C]; zbool; [|lia]. pose proof Hf as [(al & T & _) Fu _ _ _ _ _].
      destruct (rep_facts _ _ _ (proj1 T)) as (U1 & _). unfold NTFS_MFT_RECSZ in *. rewrite u32_small in C by lia. lia. }
    destruct (streamed_step upcase w d rs sum big k kinds Hvol Hkinds Hcount Hd parent name short t data Hop Hlive Hk Hbig Hcap rp r keys cap Hrp Hu K1 K2 K3 Hf ltac:(lia) ltac:(fold size; lia))
      as (lcn & w2 & d2 & r' & Ea & Ep & Er & Hstep).
    fold size in Ea, Ep, Er. fold n in Ea, Ep, Er. rewrite Ea. cbn [mbind option_bind]. rewrite (u64_small (n * cluster_size)) by (unfold cluster_size; lia).
    rewrite Ep. cbn [mbind option_bind]. rewrite Er. exact Hstep.
Qed.

(** ** Descriptors and reparse points *)

Lemma find_sec_spec l h use : (∀ i s, l !! i = Some s → s_id s = 0x100 + Z.of_nat i ∧ s_hash s = sec_hash (s_sd s)) → h = sec_hash use →
  match find_sec l h use with
  | Some id => ∃ i s, l !! i = Some s ∧ s_id s = id ∧ s_sd s = use
  | None => use ∉ map s_sd l
  end.
Proof using.
  intros Hl ->. assert (∀ i s, l !! i = Some s → s_hash s = sec_hash (s_sd s)) as Hh by (intros i s Hi; by apply (Hl i s)). clear Hl.
  induction l as [|s l IH]; [apply not_elem_of_nil|]. cbn [find_sec map].
  destruct (bool_decide (s_sd s = use)) eqn:E.
  - apply bool_decide_eq_true in E. rewrite (Hh 0%nat s eq_refl), E, !Z.eqb_refl. cbn [andb]. by exists 0%nat, s.
  - apply bool_decide_eq_false in E. rewrite andb_false_r. specialize (IH (λ i s' Hi, Hh (S i) s' Hi)).
    destruct (find_sec l (sec_hash use) use) as [id|].
    + destruct IH as (i & s' & Hi & H1 & H2). by exists (S i), s'.
    + apply not_elem_of_cons. by split.
Qed.

Lemma sec_step sd : img_live k d → step_ok w d rs sum big k kinds (OpSec sd) (run_vop upcase w d (OpSec sd)).
Proof using Hvol Hkinds Hcount Hd.
  intros Hk. cbn [run_vop]. unfold ntfs_secure_intern. set (use := match sd with [] => build_default_sd | _ => sd end).
  pose proof Hvol as [V1 V2 V3 V4 V5 V6]. pose proof (find_sec_spec (sec w) (sec_hash use) use V4 eq_refl) as Hfind.
  destruct (find_sec (sec w) (sec_hash use) use) as [id|].
  - destruct Hfind as (i & s & Hi & H1 & H2). destruct (V4 i s Hi) as [H3 _]. exists id, w, d, rs. cbn [need next_kinds promise]. rewrite Z.add_0_r.
    split_and!; [done|exact Hvol|apply ext_refl|done|done|done|]. exists s. fold use. replace (Z.to_nat (id - 256)) with i by lia. split_and!; [done|lia|done|done].
  - eexists _, _, d, rs. cbn [need next_kinds promise]. rewrite Z.add_0_r. split; [reflexivity|]. set (w' := set_sec w _).
    split_and!; [|constructor; cbn [w' set_sec sec rec rpl]| |done|done|].
    + constructor; [by apply (alloc_ok_same _ w)|done|exact V3| | |exact V6]; cbn [w' set_sec sec].
      * intros i s Hi. apply lookup_app_Some in Hi as [Hi|[Hge Hi]]; [by apply V4|].
        destruct (i - length (sec w))%nat eqn:Ei; [|done]. injection Hi as <-. cbn [s_id s_hash s_sd]. split; [lia|done].
      * rewrite map_app. apply NoDup_app. split_and!; [done| |apply NoDup_singleton]. intros x Hx Hx'. apply list_elem_of_singleton in Hx'. subst x. done.
    + done.
    + done.
    + by exists [].
    + by apply run_bytes_id.
    + by eexists.
    + exists []. by rewrite app_nil_r.
    + intros i r Hr. exists r. split; [done|apply rec_ext_refl].
    + exact Hkinds.
    + eexists. fold use. replace (Z.to_nat (256 + Z.of_nat (length (sec w)) - 256)) with (length (sec w)) by lia. cbn [w' set_sec sec].
      rewrite lookup_app_r, Nat.sub_diag by lia. split; [reflexivity|]. split_and!; [lia|done|done].
Qed.
End more_calls.

(** ** Changing a record in place *)

Lemma get_put_eq w i r r0 : get_rec w i = Some r0 → get_rec (put_rec w i r) i = Some r.
Proof. intros H. unfold get_rec, put_rec in *. cbn [set_rec rec]. apply list_lookup_insert_eq. by eapply lookup_lt_Some. Qed.
Lemma get_put_ne w i j r : Z.to_nat i ≠ Z.to_nat j → get_rec (put_rec w i r) j = get_rec w j.
Proof. intros H. unfold get_rec, put_rec. cbn [set_rec rec]. by apply list_lookup_insert_ne. Qed.
Lemma put_put w i r r' : put_rec (put_rec w i r) i r' = put_rec w i r'.
Proof. unfold put_rec. cbn [set_rec rec cap_rec]. unfold set_rec. f_equal. apply list_insert_insert_eq. Qed.
Lemma put_comm w i j r r' : Z.to_nat i ≠ Z.to_nat j → put_rec (put_rec w i r) j r' = put_rec (put_rec w j r') i r.
Proof. intros H. unfold put_rec. cbn [set_rec rec cap_rec]. unfold set_rec. f_equal. apply list_insert_insert_ne. congruence. Qed.

Lemma dir_push_eq w p ref key rp : get_rec w p = Some rp →
  dir_push w p ref key = Some (put_rec w p (with_entries rp (r_entries rp ++ [mkIdx ref key]))).
Proof. intros H. unfold dir_push. by rewrite H. Qed.

Lemma nrec_put w i r : nrec (put_rec w i r) = nrec w.
Proof. unfold nrec, put_rec. cbn [set_rec rec]. by rewrite length_insert. Qed.

Lemma entries_all_same l i r r' : l !! i = Some r → r_entries r' = r_entries r → entries_all (<[i := r']> l) = entries_all l.
Proof.
  intros Hl He. unfold entries_all. f_equal. change (map r_entries) with (fmap r_entries : list mftrec_t → list (list idx_entry_t)).
  rewrite list_fmap_insert, He. apply list_insert_id. by rewrite list_lookup_fmap, Hl.
Qed.

Lemma kinds_put w kinds i r r' : kinds_ok w kinds → get_rec w i = Some r → r_is_dir r' = r_is_dir r → kinds_ok (put_rec w i r') kinds.
Proof.
  unfold kinds_ok, get_rec, put_rec. intros <- Hi Hd. cbn [set_rec rec]. change (map r_is_dir) with (fmap r_is_dir : list mftrec_t → list bool).
  rewrite list_fmap_insert, Hd. apply list_insert_id. by rewrite list_lookup_fmap, Hi.
Qed.

Lemma insert_name_facts al a : a_type a = NTFS_AT_FILE_NAME →
  datas (insert_name al a) = datas al ∧ file_names (insert_name al a) ≡ₚ file_names [a] ++ file_names al.
Proof.
  intros Ha. destruct (insert_name_split al a) as (pre & post & E1 & E2 & _). rewrite E2, E1.
  change (pre ++ a :: post) with (pre ++ [a] ++ post). unfold datas, file_names. rewrite !filter_app, !omap_app, !map_app.
  split.
  - rewrite (filter_cons_False is_data) by (unfold is_data; rewrite Ha; by intros [? _]). done.
  - rewrite !app_assoc. f_equiv. apply Permutation_app_comm.
Qed.

Lemma insert_name_early al a : a_type a = NTFS_AT_FILE_NAME → early al → early (insert_name al a).
Proof.
  intros Ha H. destruct (insert_name_split al a) as (pre & post & E1 & E2 & _). rewrite E2. unfold early in *. rewrite E1 in H.
  apply Forall_app in H as [H1 H2]. apply Forall_app. split; [done|]. constructor; [by rewrite Ha|done].
Qed.

(** One more name in a record with room for it. *)
Lemma insert_one n r al fn : tracks n r al → Z.of_nat (length fn) <= 1000 → r_used r + resident_len [] fn + 8 <= NTFS_MFT_RECSZ →
  ∃ r', attr_insert_filename r fn = Some r' ∧ same_meta r r' ∧ r_used r' = r_used r + resident_len [] fn ∧
    ∀ al, tracks n r al → ∃ al', tracks n r' al' ∧ (early al → early al') ∧ datas al' = datas al ∧ file_names al' ≡ₚ fn :: file_names al.
Proof.
  intros H Hfn Hfit. assert (rop_ok (InsertName fn)) as Hop by (cbn [rop_ok]; lia).
  destruct (rop_fits n r al (InsertName fn) H Hop Hfit) as (r' & E & _ & M & U). exists r'. split; [exact E|]. split; [exact M|]. split; [exact U|].
  intros al0 H0. destruct (rop_tracks n r al0 (InsertName fn) H0 Hop) as [T _]. cbn [run_rop] in E. cbn [run_rop] in T. rewrite E in T. cbn [default from_option] in T. unfold id in T.
  rewrite spec_insert in T by (rewrite <- (proj2 H0); exact Hfit). eexists. split; [exact T|].
  split; [by apply insert_name_early|]. by apply insert_name_facts.
Qed.

Section change.
Context {D : Type} `{HI : Image D}.
Context (upcase : Z → Z) (w : ntfs_writer) (d : D) (rs : runs) (sum big k : Z) (kinds : list bool).
Context (Hvol : vol_ok w rs sum big) (Hkinds : kinds_ok w kinds) (Hcount : nrec w + 1 < 2 ^ 32) (Hd : img_ok d) (Hk : img_live k d).

Lemma reparse_step ref tag data : vop_ok kinds (OpReparse ref tag data) = true →
  step_ok w d rs sum big k kinds (OpReparse ref tag data) (run_vop upcase w d (OpReparse ref tag data)).
Proof using Hvol Hkinds Hcount Hd Hk.
  intros Hop. cbn [vop_ok] in Hop. zbool. pose proof Hvol as [V1 [V2 V2'] V3 V4 V5 V6].
  assert (length kinds = length (rec w)) as Elk by (rewrite <- Hkinds; apply length_map).
  cbn [run_vop]. unfold ntfs_set_reparse. set (i := parent_recno ref) in *. assert (0 <= i) by apply u32_range.
  rewrite (proj2 (Z.leb_gt _ _)) by (unfold nrec in *; lia).
  destruct (lookup_lt_is_Some_2 (rec w) (Z.to_nat i)) as [r Hr]; [lia|]. assert (get_rec w i = Some r) as Hg by done. rewrite Hg. cbn [mbind option_bind].
  set (r' := with_reparse r _). set (w' := set_rpl (put_rec w i r') _).
  assert (rec w' = <[Z.to_nat i := r']> (rec w)) as Ew by done.
  assert (entries_all (rec w') = entries_all (rec w)) as Eall by (rewrite Ew; by apply (entries_all_same _ _ r)).
  assert (nrec w' = nrec w) as En by apply nrec_put.
  exists 0, w', d, rs. cbn [need next_kinds promise]. rewrite Z.add_0_r. split; [reflexivity|]. split_and!; [| |by apply (kinds_put w kinds i r)|done|done|apply elem_of_app; right; apply list_elem_of_here].
  - constructor; [by apply (alloc_ok_same _ w)|by rewrite En| |exact V4|exact V5|exact V6].
    intros j rj Hj. rewrite Eall, En. rewrite Ew in Hj. apply list_lookup_insert_Some in Hj as [(<- & <- & _)|[_ Hj]]; [|by apply V3].
    exact (V3 _ _ Hr).
  - constructor; [done|done|by exists []|by apply run_bytes_id|exists []; by rewrite app_nil_r|by eexists|].
    intros j rj Hj. rewrite Ew. destruct (decide (j = Z.to_nat i)) as [->|Hne].
    + rewrite list_lookup_insert_eq by (by eapply lookup_lt_Some). exists r'. split; [done|]. rewrite Hr in Hj. injection Hj as <-.
      split_and!; [done|exists []; by rewrite app_nil_r|]. intros al Hal. exists al. split; [by apply tracks_reparse|done].
    + rewrite list_lookup_insert_ne by done. exists rj. split; [done|apply rec_ext_refl].
Qed.

(** A target [rt] that got the names [keys], and the directory that lists them. *)
Lemma linked target parent rt rt' rp keys name short t size :
  target = file_ref (parent_recno target) → 27 <= parent_recno target →
  get_rec w (parent_recno target) = Some rt → r_is_dir rt = false → get_rec w (parent_recno parent) = Some rp → r_is_dir rp = true →
  Forall (λ k, parent_recno (r64 k 0) = parent_recno parent ∧ Z.of_nat (length k) <= 0x42 + 2 * 255) keys → key_name <$> head keys = Some name →
  r_seq rt' = r_seq rt ∧ r_base_ref rt' = r_base_ref rt ∧ r_flags rt' = r_flags rt ∧ r_is_dir rt' = r_is_dir rt ∧ r_entries rt' = r_entries rt →
  r_link_count rt' = u16 (r_link_count rt + Z.of_nat (length keys)) →
  (∀ al, tracks (parent_recno target) rt al → ∃ al', tracks (parent_recno target) rt' al' ∧ (early al → early al') ∧ datas al' = datas al ∧
     file_names al' ++ r_ov rt' ≡ₚ keys ++ file_names al ++ r_ov rt) →
  step_ok w d rs sum big k kinds (OpLink target parent name short t size)
    (Some (target, put_rec (put_rec w (parent_recno parent) (with_entries rp (r_entries rp ++ map (mkIdx target) keys))) (parent_recno target) rt', d)).
Proof using Hvol Hkinds Hcount Hd Hk.
  intros Ht Ht27 Hgt Htd Hgp Hpd Hkeys Hname (M1 & M2 & M3 & M4 & M5) Hlc Hal. set (n := parent_recno target) in *. set (p := parent_recno parent) in *.
  assert (0 <= n ∧ 0 <= p) as [Hn0 Hp0] by (split; apply u32_range).
  assert (Z.to_nat p ≠ Z.to_nat n) as Hpn by (intros E; unfold get_rec in *; rewrite E in Hgp; congruence).
  pose proof Hvol as [V1 [V2 V2'] V3 V4 V5 V6]. set (rp' := with_entries rp _). set (w1 := put_rec w p rp'). set (w' := put_rec w1 n rt').
  pose proof (lookup_lt_Some _ _ _ Hgt) as Hltn. pose proof (lookup_lt_Some _ _ _ Hgp) as Hltp.
  assert (rec w' = <[Z.to_nat n := rt']> (<[Z.to_nat p := rp']> (rec w))) as Ew by done.
  assert (nrec w' = nrec w) as En by (unfold w', w1; by rewrite !nrec_put).
  assert (entries_all (rec w') ≡ₚ map (mkIdx (file_ref n)) keys ++ entries_all (rec w)) as Hall.
  { rewrite Ew. rewrite (entries_all_same _ _ rt) by (rewrite ?list_lookup_insert_ne by done; done).
    rewrite <- Ht. by apply (entries_all_insert (rec w) _ rp). }
  assert (rec_ok (entries_all (rec w')) (nrec w') n rt') as Hnew.
  { pose proof (V3 _ _ Hgt) as Hok. rewrite Z2Nat.id in Hok by done. destruct Hok as (H1 & H2 & H3 & H4 & al & H5 & H5' & H6 & H7 & _).
    destruct (Hal al H5) as (al' & T' & Te' & _ & Hnm).
    assert (keys_for (file_ref n) (entries_all (rec w')) ≡ₚ keys ++ keys_for (file_ref n) (entries_all (rec w))) as Ek by (by rewrite Hall, keys_for_app, keys_for_new).
    split_and!; [congruence|congruence|by rewrite M3, M4|rewrite M5, En; exact H4|]. exists al'. split; [done|]. split; [by apply Te'|]. split; [rewrite Ek, <- H6; exact Hnm|].
    split; [|lia]. intros _. rewrite Ek, length_app, Hlc, H7 by done. unfold u16. rewrite Z.add_mod_idemp_l by lia. f_equal. lia. }
  exists target, w', d, rs. cbn [need next_kinds promise]. rewrite Z.add_0_r. split; [reflexivity|].
  assert (get_rec w1 n = Some rt) as Hg1 by (unfold w1; rewrite get_put_ne; done).
  split_and!; [| | |done|done|done|].
  - constructor; [by apply (alloc_ok_same _ w)|by rewrite En| |exact V4|exact V5|exact V6].
    apply (step_recs (rec w) (rec w') n p keys Hall); [unfold nrec in *; lia|unfold nrec in *; lia|lia|exact Hkeys|exact V3|].
    intros i r0 Hi. rewrite Ew in Hi. apply list_lookup_insert_Some in Hi as [(<- & <- & _)|[Hne Hi]]; [left; split; [lia|exact Hnew]|right].
    apply list_lookup_insert_Some in Hi as [(<- & <- & _)|[Hne2 Hi]]; [left|right; split; [lia|done]].
    split; [lia|]. exists rp. split; [done|]. by rewrite <- Ht.
  - constructor; [done|done|by exists []|by apply run_bytes_id|exists []; by rewrite app_nil_r|exists []; by rewrite app_nil_r|].
    intros i r0 Hi. rewrite Ew. destruct (decide (i = Z.to_nat n)) as [->|Hne].
    + rewrite list_lookup_insert_eq by (by rewrite length_insert). exists rt'. split; [done|]. unfold get_rec in Hgt. rewrite Hgt in Hi. injection Hi as <-.
      split_and!; [done|exists []; by rewrite app_nil_r, M5|]. rewrite Z2Nat.id by done. intros al T. destruct (Hal al T) as (al' & T' & _ & E' & _). by exists al'.
    + rewrite list_lookup_insert_ne by done. destruct (decide (i = Z.to_nat p)) as [->|Hne2].
      * rewrite list_lookup_insert_eq by done. eexists. split; [reflexivity|]. unfold get_rec in Hgp. rewrite Hgp in Hi. injection Hi as <-. apply entries_ext.
      * rewrite list_lookup_insert_ne by done. exists r0. split; [done|apply rec_ext_refl].
  - unfold w'. eapply kinds_put; [|exact Hg1|exact M4]. unfold w1. by eapply kinds_put.
  - destruct keys as [|key keys]; [done|]. injection Hname as Hname. exists rp', (mkIdx target key).
    fold p. unfold w'. rewrite get_put_ne by congruence. unfold w1. split; [by eapply get_put_eq|]. split_and!; [|done|done].
    cbn [rp' with_entries r_entries map]. apply elem_of_app. right. apply list_elem_of_here.
Qed.
End change.

Lemma is_target_ok w kinds ref : kinds_ok w kinds → nrec w < 2 ^ 32 → is_target kinds ref = true →
  ∃ r, get_rec w (parent_recno ref) = Some r ∧ r_is_dir r = false ∧ ref = file_ref (parent_recno ref) ∧ 27 <= parent_recno ref < nrec w.
Proof.
  intros Hk Hn H. unfold is_target in H. apply andb_prop in H as [H H3]. apply andb_prop in H as [H1 H2]. zbool.
  assert (is_Some (kinds !! Z.to_nat (parent_recno ref))) as [b Hb].
  { apply lookup_lt_is_Some. apply Nat.nle_gt. intros Hle. by rewrite nth_overflow in H2. }
  rewrite (nth_lookup_Some _ _ _ _ Hb) in H2. subst b. rewrite <- Hk, list_lookup_fmap in Hb. apply fmap_Some in Hb as (r & Hr & Hd).
  pose proof (lookup_lt_Some _ _ _ Hr). exists r. split_and!; [done|done|done|done|unfold nrec; lia].
Qed.

(** Two entries pushed one after the other, with the target's record changed around them. *)
Lemma push_keys w t p rt1 rp ref keys : Z.to_nat t ≠ Z.to_nat p → get_rec w p = Some rp →
  (1 <= length keys <= 2)%nat →
  ∃ w1, dir_push (put_rec w t rt1) p ref (default [] (head keys)) = Some w1 ∧
    (match tail keys with [] => Some w1 | k :: _ => dir_push w1 p ref k end) =
      Some (put_rec (put_rec w t rt1) p (with_entries rp (r_entries rp ++ map (mkIdx ref) keys))).
Proof.
  intros Hne Hp Hk. assert (get_rec (put_rec w t rt1) p = Some rp) as Hp1 by by rewrite get_put_ne.
  eexists. rewrite (dir_push_eq _ _ _ _ _ Hp1). split; [reflexivity|]. destruct keys as [|k1 [|k2 [|]]]; cbn [length head tail map default from_option] in *; try lia.
  - done.
  - unfold id. erewrite dir_push_eq by (by eapply get_put_eq). rewrite put_put. unfold with_entries. cbn. by rewrite <- app_assoc.
Qed.

Section link.
Context {D : Type} `{HI : Image D}.
Context (upcase : Z → Z) (w : ntfs_writer) (d : D) (rs : runs) (sum big k : Z) (kinds : list bool).
Context (Hvol : vol_ok w rs sum big) (Hkinds : kinds_ok w kinds) (Hcount : nrec w + 1 < 2 ^ 32) (Hd : img_ok d) (Hk : img_live k d).

Lemma link_step target parent name short t size : vop_ok kinds (OpLink target parent name short t size) = true →
  step_ok w d rs sum big k kinds (OpLink target parent name short t size) (run_vop upcase w d (OpLink target parent name short t size)).
Proof using All.
  intros Hop. cbn [vop_ok] in Hop. apply andb_prop in Hop as [Hop Hnm]. apply andb_prop in Hop as [Htar Hpar]. apply names_check_ok in Hnm.
  destruct (is_target_ok w kinds target Hkinds ltac:(lia) Htar) as (rt & Hgt & Htd & Etar & Htn).
  destruct (is_parent_ok w kinds parent Hkinds ltac:(lia) Hpar) as (rp & Hgp & Hpd & Hu & _ & Hpn).
  pose proof (vo_count _ _ _ _ Hvol) as [V2 V2']. pose proof (vo_recs _ _ _ _ Hvol _ _ Hgt) as Hok. rewrite Z2Nat.id in Hok by lia.
  destruct Hok as (_ & _ & _ & _ & al & T & _). destruct (rep_facts _ _ _ (proj1 T)) as (U1 & U2 & U3 & _).
  cbn [run_vop]. unfold ntfs_add_hardlink. set (n := parent_recno target) in *. set (p := parent_recno parent) in *.
  rewrite (proj2 (Z.leb_gt (cap_rec w) n)), (proj2 (Z.leb_gt (cap_rec w) p)) by lia. rewrite Hgt, Htd. change (get_rec w p) with (rec w !! Z.to_nat p). rewrite Hgp.
  destruct Hnm as (N1 & N2 & S1 & S2). unfold key_fits. rewrite (proj2 (Nat.leb_le (length name) _)), (proj2 (Nat.leb_le (length short) _)) by lia.
  cbn [negb]. rewrite andb_false_r. set (alloc := u64 (clusters_of size * cluster_size)). set (da := to_disk_attrs (m_attr t) false).
  pose proof (keys_of_facts upcase parent (m_c t) (m_a t) (m_m t) alloc size da name short Hu ltac:(by split_and!)) as Hkf. cbv zeta in Hkf. unfold keys_of in Hkf. cbv zeta in Hkf.
  set (hs := negb (Nat.eqb (length short) 0)) in *. set (col := hs && names_collapsible upcase name short) in *.
  set (fn := build_file_name parent _ _ _ _ _ _ name _) in *. set (sn := build_file_name parent _ _ _ _ _ _ short 2) in *.
  assert (length fn = (66 + 2 * length name)%nat) as Efn by apply length_file_name. assert (length sn = (66 + 2 * length short)%nat) as Esn by apply length_file_name.
  clearbody fn sn. set (dos := hs && negb col) in *. set (keys := fn :: (if dos then [sn] else [])) in *. destruct Hkf as (K1 & K2 & K3).
  assert (0 <= n ∧ 0 <= p) as [Hn0 Hp0] by (split; apply u32_range).
  assert (Z.to_nat n ≠ Z.to_nat p) as Hne by (intros E; unfold get_rec in *; rewrite E in Hgt; congruence).
  assert (∀ rt1, ∃ w1, dir_push (put_rec w n rt1) p target fn = Some w1 ∧
    (if dos then dir_push w1 p target sn else Some w1) = Some (put_rec (put_rec w n rt1) p (with_entries rp (r_entries rp ++ map (mkIdx target) keys)))) as Hpush.
  { intros rt1. destruct (push_keys w n p rt1 rp target keys Hne Hgp K2) as (w1 & P1 & P2). exists w1. split; [exact P1|]. revert P2. unfold keys. by destruct dos. }
  assert (∀ rt1 rt2, put_rec (put_rec (put_rec w n rt1) p (with_entries rp (r_entries rp ++ map (mkIdx target) keys))) n rt2 =
    put_rec (put_rec w p (with_entries rp (r_entries rp ++ map (mkIdx target) keys))) n rt2) as Hput by (intros; rewrite (put_comm w), put_put by done; done).
  assert (Z.of_nat (length keys) = if dos then 2 else 1) as Elk by (unfold keys; destruct dos; done).
  set (needed := align8u (0x18 + Z.of_nat (length fn)) + _).
  destruct (resident_len_bound fn ltac:(lia)) as [Bf1 Bf2]. destruct (resident_len_bound sn ltac:(lia)) as [Bs1 Bs2].
  assert (needed = resident_len [] fn + (if dos then resident_len [] sn else 0)) as Eneed by done.
  unfold NTFS_MFT_RECSZ in *.
  destruct (negb (length (r_ov rt) =? 0)%nat || (1024 <? u32 (r_used rt + needed + 8))) eqn:Eov.
  - (* the overflow list *)
    destruct (Hpush (with_ov rt (r_ov rt ++ keys))) as (w1 & P1 & P2). fold keys. rewrite P1. cbn [mbind option_bind]. rewrite P2. cbn [mbind option_bind].
    rewrite get_put_ne by done. rewrite (get_put_eq _ _ _ rt) by done. cbn [mbind option_bind]. rewrite Hput.
    eapply (linked w d rs sum big k kinds Hvol Hkinds Hcount Hd Hk target parent rt _ rp keys name short t size Etar); [lia|exact Hgt|exact Htd|exact Hgp|exact Hpd|exact K1|exact K3|done| |].
    + cbn [with_links r_link_count]. by rewrite Elk.
    + intros al0 T0. exists al0. split; [by apply tracks_links, tracks_ov|]. split; [done|]. split; [done|]. cbn [with_links with_ov r_ov]. solve_Permutation.
  - (* into the record *)
    apply orb_false_iff in Eov as [Eov1 Eov2]. apply negb_false_iff, Nat.eqb_eq in Eov1. zbool.
    assert (r_ov rt = []) as Eov by (by destruct (r_ov rt)).
    assert (0 <= needed < 2000) as Hnd by (rewrite Eneed; destruct dos; lia). rewrite u32_small in Eov2 by lia.
    destruct (insert_one n rt al fn T ltac:(lia)) as (r1 & -> & M1 & Ur1 & A1); [unfold NTFS_MFT_RECSZ; rewrite Eneed in Eov2; destruct dos; lia|].
    destruct (A1 al T) as (al1 & T1 & _). pose proof M1 as (Mo1 & Mo2 & Mo3 & Mo4 & Mo5 & Mo6 & Mo7 & Mo8).
    set (rp1 := with_entries rp (r_entries rp ++ [mkIdx target fn])).
    rewrite (dir_push_eq _ p target fn rp) by (by rewrite get_put_ne). fold rp1. cbn [mbind option_bind].
    rewrite get_put_ne by done. rewrite (get_put_eq _ _ _ rt) by done. cbn [mbind option_bind]. destruct dos.
    + destruct (insert_one n r1 al1 sn T1 ltac:(lia)) as (r2 & -> & M2 & _ & A2); [unfold NTFS_MFT_RECSZ; rewrite Eneed in Eov2; lia|].
      pose proof M2 as (Mp1 & Mp2 & Mp3 & Mp4 & Mp5 & Mp6 & Mp7 & Mp8).
      rewrite (put_comm w n p) by done. rewrite put_put. rewrite (dir_push_eq _ p target sn rp1) by (rewrite get_put_ne by done; by eapply get_put_eq).
      cbn [mbind option_bind]. rewrite get_put_ne by done. rewrite (get_put_eq _ _ _ rt) by (rewrite get_put_ne by done; done). cbn [mbind option_bind].
      rewrite (put_comm _ n p) by done. rewrite !put_put.
      assert (with_entries rp1 (r_entries rp1 ++ [mkIdx target sn]) = with_entries rp (r_entries rp ++ map (mkIdx target) keys)) as ->
        by (unfold rp1, with_entries; cbn; by rewrite <- app_assoc).
      eapply (linked w d rs sum big k kinds Hvol Hkinds Hcount Hd Hk target parent rt _ rp keys name short t size Etar); [lia|exact Hgt|exact Htd|exact Hgp|exact Hpd|exact K1|exact K3| | |].
      * cbn [with_links r_seq r_base_ref r_flags r_is_dir r_entries]. split_and!; congruence.
      * cbn [with_links r_link_count]. by rewrite Elk.
      * intros al0 T0. destruct (A1 al0 T0) as (al0' & T0' & X0 & D0 & F0). destruct (A2 al0' T0') as (al2 & T2 & X2 & D2 & F2).
        exists al2. split; [by apply tracks_links|]. split; [auto|]. split; [congruence|]. cbn [with_links r_ov]. rewrite Mp7, Mo7, F2, F0. unfold keys. apply Permutation_swap.
    + rewrite (put_comm w n p) by done. rewrite put_put.
      eapply (linked w d rs sum big k kinds Hvol Hkinds Hcount Hd Hk target parent rt _ rp keys name short t size Etar); [lia|exact Hgt|exact Htd|exact Hgp|exact Hpd|exact K1|exact K3| | |].
      * cbn [with_links r_seq r_base_ref r_flags r_is_dir r_entries]. split_and!; congruence.
      * cbn [with_links r_link_count]. by rewrite Elk.
      * intros al0 T0. destruct (A1 al0 T0) as (al0' & T0' & X0 & D0 & F0). exists al0'. split; [by apply tracks_links|]. split; [done|]. split; [done|].
        cbn [with_links r_ov]. rewrite Mo7, F0. done.
Qed.
End link.
