(* ===== verification/NtfsOpen.v ===== *)
(** * A whole session of the NTFS writer
      ([src/tools/iso-patch-mac/engine/ntfs.c]: [ntfs_writer_open] and any
      sequence of the calls up to [ntfs_writer_close])

    A fresh volume satisfies the invariant of [NtfsSession]; every call keeps it
    ([NtfsSteps]); so the volume a session ends with holds everything that was
    put on it. *)

From Stdlib Require Import String Sorted.
From S2P Require Import Prelude Bytes WStr BlockIO ImageWrites NtfsCodec NtfsRecord Bitmap NtfsVolume NtfsAlloc NtfsSession NtfsSteps.

(** ** Opening *)

Definition reserved_dir (i : Z) : bool := (i =? NTFS_REC_ROOT) || (i =? NTFS_REC_EXTEND).
Definition reserved_kinds : list bool := map reserved_dir (seqZ 0 27).

Definition first_recs (n : nat) : list mftrec_t := map (λ i, rec_new i (reserved_dir i)) (seqZ 0 (Z.of_nat n)).

Lemma first_recs_snoc n : first_recs (S n) = first_recs n ++ [rec_new (Z.of_nat n) (reserved_dir (Z.of_nat n))].
Proof.
  unfold first_recs. replace (Z.of_nat (S n)) with (Z.of_nat n + 1) by lia. rewrite seqZ_app by lia. rewrite map_app. do 2 f_equal. 
Qed.

Lemma set_rec_set_rec w l cap l' cap' : set_rec (set_rec w l cap) l' cap' = set_rec w l' cap'.
Proof. done. Qed.

Lemma add_reserved_eq n : ∀ m w l cap, l = first_recs m → cap = (if (m =? 0)%nat then 0 else 64) → (m + n <= 64)%nat →
  add_reserved n (set_rec w l cap) = set_rec w (first_recs (m + n)) (if (m + n =? 0)%nat then 0 else 64).
Proof.
  induction n as [|n IH]; intros m w l cap -> -> Hm; cbn [add_reserved]; [by rewrite Nat.add_0_r|].
  assert (nrec (set_rec w (first_recs m) (if (m =? 0)%nat then 0 else 64)) = Z.of_nat m) as En
    by (unfold nrec, first_recs; cbn [set_rec rec]; rewrite length_map, length_seqZ; lia).
  rewrite En. fold (reserved_dir (Z.of_nat m)). unfold add_rec. rewrite En. cbn [set_rec rec cap_rec]. rewrite <- first_recs_snoc, set_rec_set_rec.
  replace (m + S n)%nat with (S m + n)%nat by lia. apply IH; [done| |lia]. destruct m as [|m]; [reflexivity|].
  cbn [Nat.eqb]. by rewrite (proj2 (Z.leb_gt 64 _)) by lia.
Qed.

Lemma rec_kinds : map r_is_dir (first_recs 27) = reserved_kinds.
Proof. reflexivity. Qed.

Lemma no_first_entries n : entries_all (first_recs n) = [].
Proof. induction n as [|n IH]; [done|]. by rewrite first_recs_snoc, entries_all_app, IH. Qed.

Lemma first_rec_ok i r : first_recs 27 !! i = Some r → rec_ok [] 27 (Z.of_nat i) r.
Proof.
  intros Hi. pose proof (lookup_lt_Some _ _ _ Hi) as Hl. unfold first_recs in Hl. rewrite length_map, length_seqZ in Hl.
  unfold first_recs in Hi. rewrite list_lookup_fmap, lookup_seqZ_lt in Hi by lia. cbn [fmap option_fmap option_map] in Hi. injection Hi as <-.
  rewrite Z.add_0_l. split_and!; [done|done|by destruct (reserved_dir _)|constructor|]. exists []. split_and!; [|constructor|done|lia|done].
  split; [apply rec_new_rep; unfold is_u32; lia|reflexivity].
Qed.

(** The bitmap of a fresh volume. *)
Lemma zero_bit n c : 0 <= c → bit (replicate n 0) c = false.
Proof. intros Hc. unfold bit, bget. replace (nth _ _ _) with 0; [apply Z.testbit_0_l|]. symmetry.
  destruct (nth_in_or_default (Z.to_nat (c / 8)) (replicate n 0) 0) as [H|H]; [|done].
  apply list_elem_of_In, elem_of_replicate in H. tauto. Qed.

Section opened.
Context (part_lba sectors : Z) (lbl : list Z) (big : Z).
Context (Hlba : 0 <= part_lba < 2 ^ 50) (Hsec : 32 <= sectors < 2 ^ 50) (Hbig : 0 <= big).
Let total := (sectors - 1) / 8.

Lemma ntfs_writer_open_ok : ∃ w, ntfs_writer_open part_lba sectors lbl = Some w ∧ vol_ok w [] 0 big ∧ kinds_ok w reserved_kinds ∧
  nrec w = 27 ∧ part_off w = part_lba * 512 ∧ total_clusters w = total ∧ mft_zone_end w = 64 + total / 8 ∧ reserve_lcn w = sectors / 16 ∧ rpl w = [] ∧
  total <= 8 * Z.of_nat (length (clbmp w)) ∧ Z.of_nat (length (clbmp w)) mod cluster_size = 0 ∧
  part_sectors w = sectors ∧ mftmirr_lcn w = reserve_lcn w ∧ (length (label w) <= 32)%nat.
Proof using All.
  unfold ntfs_writer_open. change spc with 8. rewrite (u64_small (sectors - 1)) by lia. fold total.
  assert (0 < total < 2 ^ 47) as Ht by (unfold total; dlia). rewrite (u64_small (total + 7)) by lia.
  set (nb := align_up _ cluster_size).
  assert (total <= 8 * nb < total + 40000) as Hnb.
  { unfold nb, align_up, cluster_size. unfold u64. dlia. }
  change ((8192 + cluster_size - 1) / cluster_size) with 2. change ((4 * NTFS_MFT_RECSZ + cluster_size - 1) / cluster_size) with 1.
  destruct (bmp_mark_spec (Z.to_nat 2) (replicate (Z.to_nat nb) 0) 0) as (b1 & -> & L1 & B1); [lia|rewrite length_replicate; unfold nb in *; lia|].
  cbn [mbind option_bind]. rewrite length_replicate in L1.
  rewrite Z.div_div by lia. change (2 * 8) with 16.
  assert (0 <= sectors / 16 <= total) as Hm by (unfold total; dlia).
  destruct (bmp_mark_spec (Z.to_nat 1) b1 (sectors / 16)) as (b2 & -> & L2 & B2); [lia|rewrite L1; unfold total in *; dlia|].
  cbn [mbind option_bind]. rewrite !Z2Nat.id in B1, B2 by lia.
  set (w0 := mkW _ _ _ _ _ _ _ _ _ _ _ _ _ _ _ _ _). unfold ntfs_secure_intern. cbn [w0 sec find_sec].
  set (w1 := set_sec w0 _). assert (w1 = set_rec w1 (first_recs 0) 0) as -> by done.
  rewrite (add_reserved_eq 27 0) by (done || lia). cbn [Nat.add Nat.eqb]. eexists. split; [reflexivity|].
  assert (Z.shiftr total 3 = total / 8) as Esh by (rewrite Z.shiftr_div_pow2 by lia; reflexivity).
  assert (u64 (part_lba * NTFS_SECTOR) = part_lba * 512) as Eo by (unfold NTFS_SECTOR; apply u64_small; lia).
  assert (nrec (set_rec w1 (first_recs 27) 64) = 27) as En by done.
  assert (length b2 = Z.to_nat nb) as Lb by congruence.
  split.
  - constructor.
    + constructor; cbn [set_rec w1 set_sec w0 mft_zone_end next_lcn reserve_lcn reserve_len clbmp];
        rewrite ?Esh, ?Lb; [dlia|split; [lia|done]|lia|dlia|lia|constructor|constructor|constructor|].
      intros c Hc. rewrite B2, B1 by done. rewrite zero_bit by done. rewrite Exists_nil. intuition (lia || done).
    + rewrite En. cbn. lia.
    + cbn [set_rec rec]. rewrite no_first_entries, En. apply first_rec_ok.
    + cbn [set_rec w1 set_sec w0 sec]. intros i s Hi. destruct i as [|i]; [|by destruct i]. injection Hi as <-. cbn [s_id s_hash s_sd]. split; reflexivity.
    + cbn [set_rec w1 set_sec w0 sec]. apply NoDup_singleton.
    + cbn [set_rec w1 set_sec w0 part_off clbmp]. rewrite Eo, Lb. unfold cluster_size, OFF_MAX. lia.
  - split; [exact rec_kinds|]. cbn [set_rec w1 set_sec w0 part_off total_clusters mft_zone_end reserve_lcn rpl clbmp].
    rewrite Esh, Lb, Eo. cbn [set_rec w1 set_sec w0 label part_sectors mftmirr_lcn reserve_lcn]. split_and!; try done; [lia| |].
    + rewrite Z2Nat.id by lia. unfold nb, align_up. apply Z.mod_mul. by vm_compute.
    + rewrite length_take. lia.
Qed.
End opened.

(** ** Any sequence of calls *)

Definition total_need (ops : list vop) : Z := foldr (λ op z, need op + z) 0 ops.
Definition biggest (ops : list vop) : Z := foldr (λ op z, Z.max (need op) z) 0 ops.

Lemma need_nonneg op kinds : vop_ok kinds op = true → 0 <= need op.
Proof.
  intros H. destruct op; cbn [need]; try lia. cbn [vop_ok] in H. apply andb_prop in H as [_ H]. zbool.
  apply clusters_of_spec. lia.
Qed.

Lemma total_need_nonneg ops : ∀ kinds, vops_ok kinds ops = true → 0 <= total_need ops.
Proof.
  unfold total_need. induction ops as [|op ops IH]; intros kinds H; cbn [foldr]; [lia|]. cbn [vops_ok] in H. apply andb_prop in H as [H1 H2].
  pose proof (need_nonneg _ _ H1). specialize (IH _ H2). lia.
Qed.

Lemma biggest_nonneg ops : 0 <= biggest ops.
Proof. induction ops as [|op ops IH]; [done|]. unfold biggest in *. cbn [foldr]. lia. Qed.

Section session.
Context {D : Type} `{HI : Image D} (upcase : Z → Z).

Lemma vop_step w d rs sum big k kinds op :
  vol_ok w rs sum big → kinds_ok w kinds → nrec w + 1 < 2 ^ 32 → img_ok d → vop_ok kinds op = true →
  0 <= k → img_live (need op * cluster_size + k) d → need op <= big →
  mft_zone_end w + sum + need op + big + 1 <= 8 * Z.of_nat (length (clbmp w)) →
  step_ok w d rs sum big k kinds op (run_vop upcase w d op).
Proof.
  intros Hvol Hkinds Hcount Hd Hop Hk Hlive Hbig Hcap.
  assert (img_live k d) as Hlive' by (pose proof (need_nonneg _ _ Hop); eapply img_live_le; [exact Hlive|unfold cluster_size; lia]).
  destruct op.
  - by apply add_dir_step.
  - by apply add_file_step.
  - by apply link_step.
  - by apply sec_step.
  - by apply reparse_step.
Qed.

(** Records are never more than one per call. *)
Lemma next_count w w' kinds op : kinds_ok w kinds → kinds_ok w' (next_kinds kinds op) → nrec w <= nrec w' <= nrec w + 1.
Proof.
  unfold kinds_ok, nrec. intros E1 E2. apply (f_equal length) in E1, E2. rewrite length_map in E1, E2.
  destruct op; cbn [next_kinds] in E2; rewrite ?length_app in E2; cbn [length] in E2; lia.
Qed.

Lemma next_kinds_more kinds op : ∃ more, next_kinds kinds op = kinds ++ more.
Proof. destruct op; cbn [next_kinds]; eexists; try reflexivity; by rewrite app_nil_r. Qed.

Lemma kinds_more ops : ∀ kinds, ∃ more, fold_left next_kinds ops kinds = kinds ++ more.
Proof.
  induction ops as [|op ops IH]; intros kinds; [exists []; by rewrite app_nil_r|]. cbn [fold_left].
  destruct (next_kinds_more kinds op) as (m1 & ->). destruct (IH (kinds ++ m1)) as (m2 & ->). exists (m1 ++ m2). by rewrite app_assoc.
Qed.

Lemma run_vops_ok ops : ∀ w d rs sum big k kinds,
  vol_ok w rs sum big → kinds_ok w kinds → nrec w + Z.of_nat (length ops) < 2 ^ 32 → img_ok d → vops_ok kinds ops = true →
  0 <= k → img_live (total_need ops * cluster_size + k) d → biggest ops <= big →
  mft_zone_end w + sum + total_need ops + big + 1 <= 8 * Z.of_nat (length (clbmp w)) →
  ∃ l w' d' rs', run_vops upcase w d ops = Some (l, w', d') ∧ vol_ok w' rs' (sum + total_need ops) big ∧
    ext w (img_view d) rs w' (img_view d') rs' ∧ img_ok d' ∧ img_live k d' ∧ Forall2 (promise w' (img_view d') rs') ops l ∧
    nrec w' <= nrec w + Z.of_nat (length ops) ∧ kinds_ok w' (fold_left next_kinds ops kinds).
Proof.
  induction ops as [|op ops IH]; intros w d rs sum big k kinds Hvol Hkinds Hcount Hd Hops Hk Hlive Hbig Hcap.
  - exists [], w, d, rs. cbn [run_vops total_need foldr] in *. rewrite Z.add_0_r. split_and!; [done|done|apply ext_refl|done|done|constructor|cbn; lia|done].
  - cbn [vops_ok] in Hops. apply andb_prop in Hops as [Hop Hops]. pose proof (need_nonneg _ _ Hop) as Hn0. pose proof (total_need_nonneg _ _ Hops) as Ht0.
    unfold total_need, biggest in Hlive, Hbig, Hcap. cbn [foldr length] in *. fold (total_need ops) in *. fold (biggest ops) in *.
    destruct (vop_step w d rs sum big (total_need ops * cluster_size + k) kinds op Hvol Hkinds ltac:(lia) Hd Hop ltac:(unfold cluster_size; lia))
      as (v & w1 & d1 & rs1 & E1 & V1 & X1 & K1 & Hd1 & L1 & P1); [by eapply img_live_le; [exact Hlive|lia]|lia|lia|].
    pose proof (next_count _ _ _ _ Hkinds K1). destruct (ex_vol _ _ _ _ _ _ X1) as (_ & _ & _ & Sz & _ & _ & Sb).
    destruct (IH w1 d1 rs1 (sum + need op) big k _ V1 K1 ltac:(lia) Hd1 Hops Hk L1 ltac:(lia) ltac:(rewrite Sz, Sb; lia))
      as (l & w2 & d2 & rs2 & E2 & V2 & X2 & Hd2 & L2 & P2 & C2 & K2).
    exists (v :: l), w2, d2, rs2. cbn [run_vops]. rewrite E1. cbn [mbind option_bind]. rewrite E2. cbn [mbind option_bind].
    unfold total_need at 1. cbn [foldr]. fold (total_need ops). rewrite Z.add_assoc. split_and!; try done.
    + by eapply ext_trans.
    + constructor; [by eapply promise_ext|exact P2].
    + cbn [length]. lia.
Qed.
End session.

(** ** What a reader finds *)

Definition read_data (w : ntfs_writer) (m : mem) (al : list attr) : option (list Z) :=
  match datas al with
  | [Resident v _] => Some v
  | [Nonres lcn count _ size _ _] => Some (take (Z.to_nat size) (run_bytes m w (lcn, count)))
  | _ => None
  end.

(** The record [put_record] writes under the number of a reference. *)
Definition reads_as (w : ntfs_writer) (ref : Z) (f : filerec) : Prop :=
  ∃ r, get_rec w (parent_recno ref) = Some r ∧ read_filerec (put_bytes (parent_recno ref) r) = Some f.

(** The clusters of a file are among the runs handed out. *)
Definition runs_of (al : list attr) : runs := omap (λ b, match b with Nonres lcn count _ _ _ _ => Some (lcn, count) | _ => None end) (datas al).

Definition kept (w : ntfs_writer) (m : mem) (rs : runs) (op : vop) (res : Z) : Prop :=
  match op with
  | OpDir p name _ _ => entry_holds w p res name ∧ ∃ f, reads_as w res f ∧ f_flags f = 3
  | OpFile p name _ _ data =>
      entry_holds w p res name ∧ ∃ f, reads_as w res f ∧ f_flags f = 1 ∧ read_data w m (f_attrs f) = Some data ∧ Forall (λ x, x ∈ rs) (runs_of (f_attrs f))
  | OpLink target p name _ _ _ => res = target ∧ entry_holds w p target name
  | OpSec sd => ∃ s, sec w !! Z.to_nat (res - 0x100) = Some s ∧ 0x100 <= res ∧ s_id s = res ∧ s_sd s = match sd with [] => build_default_sd | _ => sd end
  | OpReparse ref tag _ => (tag, ref) ∈ rpl w
  end.

(** Record [n]: the bytes are sound, its names are the entries that refer to it,
    the link count their number, and its own entries refer to records there are. *)
Definition consistent (w : ntfs_writer) (n : Z) (r : mftrec_t) : Prop :=
  ∃ f, read_filerec (put_bytes n r) = Some f ∧ f_recno f = n ∧ f_seq f = seq_of n ∧ f_flags f = (if r_is_dir r then 3 else 1) ∧
    file_names (f_attrs f) ++ r_ov r ≡ₚ keys_for (file_ref n) (entries_all (rec w)) ∧
    (27 <= n → f_links f = u16 (Z.of_nat (length (keys_for (file_ref n) (entries_all (rec w)))))) ∧
    Forall (entry_ok (nrec w) n) (r_entries r).

Lemma rec_reads all count n r al : 0 <= n < 2 ^ 32 → rec_ok all count n r → tracks n r al →
  read_filerec (put_bytes n r) = Some (file_of n r al).
Proof.
  intros Hn (H1 & H2 & H3 & _ & al0 & _ & _ & _ & H7 & H8) [T _]. apply (read_put n n r al T). unfold meta_ok. rewrite H1, H2, H3.
  pose proof (seq_of_range n ltac:(lia)). split_and!; [unfold is_u16; lia| |destruct (r_is_dir r); by vm_compute|by vm_compute].
  unfold is_u16. destruct (Z.lt_ge_cases n 27); [destruct (H8 ltac:(done)) as [-> _]; lia|rewrite H7 by done]. apply Z.mod_pos_bound. lia.
Qed.

Lemma rec_consistent w rs sum big n r : vol_ok w rs sum big → nrec w < 2 ^ 32 → 0 <= n → get_rec w n = Some r → consistent w n r.
Proof.
  intros V Hc Hn Hr. pose proof (vo_recs _ _ _ _ V _ _ Hr) as Hok. rewrite Z2Nat.id in Hok by done.
  pose proof (lookup_lt_Some _ _ _ Hr) as Hl. assert (n < 2 ^ 32) by (unfold nrec in Hc; lia).
  pose proof Hok as (H1 & _ & H3 & H4 & al & T & _ & H6 & H7 & _). exists (file_of n r al).
  split_and!; [by apply (rec_reads _ _ n r al ltac:(lia) Hok)|done|done|done|done|done|done].
Qed.

Lemma promise_kept w m rs sum big op res : vol_ok w rs sum big → nrec w < 2 ^ 32 → promise w m rs op res → kept w m rs op res.
Proof.
  intros V Hc. assert (∀ ref r, get_rec w (parent_recno ref) = Some r → 0 <= parent_recno ref < 2 ^ 32 ∧ rec_ok (entries_all (rec w)) (nrec w) (parent_recno ref) r) as Hrec.
  { intros ref r Hr. assert (0 <= parent_recno ref < 2 ^ 32) by apply u32_range. split; [done|].
    pose proof (vo_recs _ _ _ _ V _ _ Hr) as Hok. by rewrite Z2Nat.id in Hok by lia. }
  destruct op; cbn [promise kept]; try done.
  - intros [He (r & Hr & Hd)]. split; [done|]. destruct (Hrec _ _ Hr) as [Hn Hok]. pose proof Hok as (_ & _ & H3 & _ & al & T & _).
    exists (file_of (parent_recno res) r al). split; [|cbn [file_of f_flags]; by rewrite H3, Hd].
    exists r. split; [done|]. by apply (rec_reads _ _ _ r al Hn Hok).
  - intros [He (r & al & Hr & Hd & T & Hs)]. split; [done|]. destruct (Hrec _ _ Hr) as [Hn Hok]. pose proof Hok as (_ & _ & H3 & _).
    exists (file_of (parent_recno res) r al). split; [exists r; split; [done|]; by apply (rec_reads _ _ _ r al Hn Hok)|].
    cbn [file_of f_flags f_attrs]. split; [by rewrite H3, Hd|]. unfold read_data, runs_of. unfold stored in Hs.
    destruct (datas al) as [|[v i|lcn cnt a s i fl] []]; try done.
    + subst v. split; [done|constructor].
    + destruct Hs as (S1 & -> & _ & _ & S5). rewrite Nat2Z.id, S5. split; [done|]. cbn. by constructor.
Qed.


(** A directory in the root, a small and a streamed file in it, a second name for
    the latter, a descriptor, a reparse point. *)
Definition sample_meta : fmeta := mkMeta 0x20 0x100 1 2 3.
Definition sample_vops : list vop :=
  [OpDir (file_ref 5) [77; 121; 68; 105; 114] [] sample_meta;
   OpFile (file_ref 27) [97; 46; 116; 120; 116] [] sample_meta [1; 2; 3];
   OpFile (file_ref 27) [76; 111; 110; 103; 32; 110; 97; 109; 101] [76; 79; 78; 71; 126; 49] sample_meta (replicate 5000 7);
   OpLink (file_ref 29) (file_ref 5) [98] [] sample_meta 5000;
   OpSec [1; 0; 4; 128];
   OpReparse (file_ref 28) 0xA000000C [9; 9]].

