(* ===== verification/NtfsTree.v ===== *)
(** * Indexes put on the volume
      ([src/tools/iso-patch-mac/engine/ntfs.c]: [build_directory_index],
      [prepare_secure_index], [attr_view_index_root])

    The trees of [NtfsIndex] with their clusters allocated, their blocks sent to
    the disk and their attributes added to a record: the names of a directory,
    and the two indexes of the security descriptors. *)

From Stdlib Require Import String.
From S2P Require Import Prelude Bytes WStr Outcome BlockIO ImageWrites NtfsCodec NtfsIndex NtfsDir NtfsRecord NtfsLookup Bitmap NtfsVolume.

(** An access that the model has no value for is outside a buffer. *)
Definition opt {A} (o : option A) : outcome A := match o with Some a => Ok a | None => Fault end.
(** [if (attr_...(r, ...)) return rc;] *)
Definition must {A} (rc : Z) (o : option A) : outcome A := match o with Some a => Ok a | None => Err rc end.

Definition I30 : list Z := lit "$I30".

(** [for (b = 0; b < n; b++) bm[b/8] |= 1 << (b&7);] on [len] zero bytes. *)
Definition full_bitmap (len n : Z) : outcome (list Z) := opt (bmp_mark (Z.to_nat n) (replicate (Z.to_nat len) 0) 0).

(** ** A directory *)

Section dirs.
Context {D : Type} `{Image D} (upcase : Z → Z) (qsort : list idx_entry_t → list idx_entry_t).

(** The blocks of a large index: their first cluster. *)
Definition place_blocks (w : ntfs_writer) (d : D) (specs : list nodespec_t) (idx_blocks : Z) : outcome (Z * ntfs_writer * D) :=
  '(lcn, w) ← opt (alloc_clusters w idx_blocks);
  d ← opt (puts d (map (emit_indx (cluster_byte w lcn)) specs));
  Ok (lcn, w, d).

(** The attributes of a large index after its root. *)
Definition index_attrs (w : ntfs_writer) (d : D) (r : mftrec_t) (idx_lcn idx_blocks : Z) : outcome (mftrec_t * ntfs_writer * D) :=
  r ← must (-1) (attr_nonres r NTFS_AT_INDEX_ALLOCATION I30 idx_lcn idx_blocks cluster_size (u64 (idx_blocks * NTFS_INDX_SIZE)) (u64 (idx_blocks * NTFS_INDX_SIZE)) 0);
  let bm_bytes := u32 (u64 (idx_blocks + 7) / 8) in
  rbm ← full_bitmap (align8u bm_bytes) idx_blocks;
  match attr_resident r NTFS_AT_BITMAP I30 rbm 0 with
  | Some r => Ok (r, w, d)
  | None =>
      let bm_clusters := u64 (bm_bytes + cluster_size - 1) / cluster_size in
      '(bm_lcn, w) ← opt (alloc_clusters w bm_clusters);
      bm ← full_bitmap (u64 (bm_clusters * cluster_size)) idx_blocks;
      d ← opt (puts d [(cluster_byte w bm_lcn, bm)]);
      r ← must (-1) (attr_nonres r NTFS_AT_BITMAP I30 bm_lcn bm_clusters cluster_size bm_bytes bm_bytes 0);
      Ok (r, w, d)
  end.

(** Sort, lay out, write the blocks, add the attributes: [-1] as soon as one does
    not fit the record. *)
Definition build_directory_index (w : ntfs_writer) (d : D) (r : mftrec_t) : outcome (mftrec_t * ntfs_writer * D) :=
  let r := with_entries r (qsort (r_entries r)) in
  match plan_index (r_used r) (r_entries r) with
  | None => Spin
  | Some x =>
      let idx_blocks := i_blocks x in
      '(lcn, w, d) ← (if i_large x then place_blocks w d (i_specs x) idx_blocks else Ok (0, w, d));
      r ← must (-1) (attr_resident r NTFS_AT_INDEX_ROOT I30 (index_root x) 0);
      if i_large x then index_attrs w d r lcn idx_blocks else Ok (r, w, d)
  end.

(** The index of record [i], and its reparse point after it. *)
Definition index_dir (w : ntfs_writer) (d : D) (i : Z) : outcome (ntfs_writer * D) :=
  r ← opt (get_rec w i);
  '(r, w, d) ← build_directory_index w d r;
  r ← (match r_reparse r with None => Ok r | Some b => must (-1) (attr_resident r NTFS_AT_REPARSE_POINT [] b 0) end);
  Ok (put_rec w i r, d).

(** [for (i = 0; i < w->nrec; i++)]: every directory. *)
Fixpoint index_dirs (n : nat) (w : ntfs_writer) (d : D) (i : Z) : outcome (ntfs_writer * D) :=
  match n with
  | O => Ok (w, d)
  | S n' =>
      match get_rec w i with
      | Some r => if r_is_dir r then '(w, d) ← index_dir w d i; index_dirs n' w d (i + 1) else index_dirs n' w d (i + 1)
      | None => index_dirs n' w d (i + 1)
      end
  end.

(** ** An index of the security descriptors *)

Record secidx_t := mkSecIdx { x_root : list Z; x_large : bool; x_lcn : Z; x_blocks : Z; x_bm : list Z }.

(** The header of a view's root: no attribute is indexed. *)
Definition view_root (collation : Z) (body : list Z) (large : bool) : list Z :=
  let val := replicate 0x20 0 ++ body in
  let val_len := Z.of_nat (length val) in
  let val := w8 (w32 (w32 (w32 val 0 0) 4 collation) 8 NTFS_INDX_SIZE) 0xC 1 in
  w8 (w32 (w32 (w32 val 0x10 0x10) 0x14 (val_len - 0x10)) 0x18 (val_len - 0x10)) 0x1C (if large then 1 else 0).

Definition prepare_secure_index (w : ntfs_writer) (d : D) (collation : Z) (ent : list bentry_t) (root_budget : Z) : outcome (secidx_t * ntfs_writer * D) :=
  if body_size false ent <=? root_budget
  then Ok (mkSecIdx (view_root collation (serialize_body ent false 0) false) false 0 0 [], w, d)
  else
    match build_tree ent root_budget with
    | None => Spin
    | Some p =>
        let idx_blocks := p_next p in
        '(lcn, w, d) ← place_blocks w d (p_specs p) idx_blocks;
        bm ← full_bitmap (align8u (u32 (u64 (idx_blocks + 7) / 8))) idx_blocks;
        Ok (mkSecIdx (view_root collation (serialize_body (p_out p) true (p_right p)) true) true lcn idx_blocks bm, w, d)
    end.
End dirs.

(** [attr_view_index_root]: the entries already serialised, END after them. *)
Definition view_index_value (collation : Z) (body : list Z) : list Z :=
  let n := Z.of_nat (length body) in
  let vl := 0x10 + 0x10 + n + 0x10 in
  let val := replicate (Z.to_nat vl) 0 in
  let val := w8 (w32 (w32 (w32 val 0 0) 4 collation) 8 NTFS_INDX_SIZE) 0xC 1 in
  let idx_len := 0x10 + n + 0x10 in
  let val := w8 (w32 (w32 (w32 val 0x10 0x10) 0x14 idx_len) 0x18 idx_len) 0x1C 0 in
  let val := splice val (Z.to_nat 0x20) body in
  let e := 0x20 + n in
  w16 (w16 val (e + 8) 0x10) (e + 0xC) 2.

Definition attr_view_index_root (r : mftrec_t) (name : list Z) (collation : Z) (body : list Z) : option mftrec_t :=
  attr_resident r NTFS_AT_INDEX_ROOT name (view_index_value collation body) 0.
