(* ===== verification/NtfsMeta.v ===== *)
(** * The contents of the NTFS metafiles
      ([src/tools/iso-patch-mac/engine/ntfs.c]: [build_attrdef], [crc64_ecma],
      [build_metafile_sd] and the tables built by [ntfs_writer_close])

    The bytes of [$AttrDef], of the quota and reparse indexes, of [$Secure]'s
    stream of descriptors, of the boot sector, and the entries of the two
    security indexes. *)

From Stdlib Require Import String.
From S2P Require Import Prelude Bytes WStr NtfsCodec NtfsIndex NtfsRecord Bitmap NtfsVolume.

(** A fixed FILETIME for metafiles. *)
Definition T : Z := 0x01da84c3f3b79090.

(** ** [$AttrDef] *)

Definition ADMAX : Z := 0xFFFFFFFFFFFFFFFF.

Record attrdef := mkAttrDef { ad_name : list Z; ad_type : Z; ad_disp : Z; ad_coll : Z; ad_flags : Z; ad_mn : Z; ad_mx : Z }.

Definition ATTRDEF : list attrdef :=
  [mkAttrDef (lit "$STANDARD_INFORMATION") 0x10 0 0 0x40 48 72;
   mkAttrDef (lit "$ATTRIBUTE_LIST") 0x20 0 0 0x80 0 ADMAX;
   mkAttrDef (lit "$FILE_NAME") 0x30 0 0 0x42 68 578;
   mkAttrDef (lit "$OBJECT_ID") 0x40 0 0 0x40 0 256;
   mkAttrDef (lit "$SECURITY_DESCRIPTOR") 0x50 0 0 0x80 0 ADMAX;
   mkAttrDef (lit "$VOLUME_NAME") 0x60 0 0 0x40 2 256;
   mkAttrDef (lit "$VOLUME_INFORMATION") 0x70 0 0 0x40 12 12;
   mkAttrDef (lit "$DATA") 0x80 0 0 0x00 0 ADMAX;
   mkAttrDef (lit "$INDEX_ROOT") 0x90 0 0 0x40 0 ADMAX;
   mkAttrDef (lit "$INDEX_ALLOCATION") 0xA0 0 0 0x80 0 ADMAX;
   mkAttrDef (lit "$BITMAP") 0xB0 0 0 0x80 0 ADMAX;
   mkAttrDef (lit "$REPARSE_POINT") 0xC0 0 0 0x80 0 16384;
   mkAttrDef (lit "$EA_INFORMATION") 0xD0 0 0 0x40 8 8;
   mkAttrDef (lit "$EA") 0xE0 0 0 0x00 0 65536;
   mkAttrDef (lit "$LOGGED_UTILITY_STREAM") 0x100 0 0 0x80 0 65536].

Definition attrdef_entry (a : attrdef) : list Z :=
  let e := splice (replicate 160 0) 0 (unit_bytes (take 64 (ad_name a))) in
  let e := w32 (w32 (w32 (w32 e 0x80 (ad_type a)) 0x84 (ad_disp a)) 0x88 (ad_coll a)) 0x8C (ad_flags a) in
  w64 (w64 e 0x90 (ad_mn a)) 0x98 (ad_mx a).

Definition build_attrdef : list Z := concat (map attrdef_entry ATTRDEF) ++ replicate 160 0.

(** ** The checksum of the upper-case table *)

Definition crc64_poly : Z := 0x9a6c9329ac4bc9b5.

Fixpoint crc64_shift (n : nat) (c : Z) : Z :=
  match n with O => c | S n' => crc64_shift n' (if Z.odd c then Z.lxor crc64_poly (Z.shiftr c 1) else Z.shiftr c 1) end.

(** [table[i]] *)
Definition crc64_entry (i : Z) : Z := crc64_shift 8 i.

Definition crc64_step (crc b : Z) : Z := Z.lxor (crc64_entry (Z.land (Z.lxor crc b) 0xff)) (Z.shiftr crc 8).

Definition crc64_ecma (data : list Z) : Z := Z.lxor (fold_left crc64_step data ADMAX) ADMAX.

(** The table as the bytes of [$UpCase]. *)
Definition upcase_bytes (upcase : Z → Z) : list Z := concat (map (λ c, [u8 (upcase c); u8 (Z.shiftr (upcase c) 8)]) (seqZ 0 65536)).

(** ** [$Quota] *)

(** The fields common to both owners. *)
Definition quota_entry (len data_len owner : Z) : list Z :=
  let e := w16 (w16 (replicate (Z.to_nat len) 0) 0 0x14) 2 data_len in
  let e := w32 (w16 (w16 e 8 len) 0xA 4) 0x10 owner in
  let e := w64 (w64 (w32 (w32 e 0x14 2) 0x18 1) 0x1C 0) 0x24 T in
  w64 (w64 (w64 e 0x2C ADMAX) 0x34 ADMAX) 0x3C 0.

Definition quota_body : list Z :=
  let q2 := quota_entry 0x58 0x40 0x100 in
  let s := 0x14 + 0x30 in
  let q2 := w8 (w8 (w8 q2 s 1) (s + 1) 2) (s + 7) 5 in
  quota_entry 0x48 0x30 1 ++ w32 (w32 q2 (s + 8) 0x20) (s + 0xC) 0x220.

(** ** [$Reparse] *)

(** The order of the index: tag, then the low and the high half of the reference. *)
Definition rpl_gt (a b : Z * Z) : bool :=
  if negb (fst a =? fst b) then fst b <? fst a
  else if negb (u32 (snd a) =? u32 (snd b)) then u32 (snd b) <? u32 (snd a)
  else u32 (Z.shiftr (snd b) 32) <? u32 (Z.shiftr (snd a) 32).

(** The inner loop: [x] is [rpl[a]], exchanged with every smaller one after it. *)
Fixpoint swap_pass (x : Z * Z) (l : list (Z * Z)) : (Z * Z) * list (Z * Z) :=
  match l with
  | [] => (x, [])
  | y :: l' =>
      let '(x', y') := if rpl_gt x y then (y, x) else (x, y) in
      let '(m, r) := swap_pass x' l' in (m, y' :: r)
  end.

Fixpoint rpl_sort (n : nat) (l : list (Z * Z)) : list (Z * Z) :=
  match n, l with
  | S n', x :: l' => let '(m, r) := swap_pass x l' in m :: rpl_sort n' r
  | _, _ => l
  end.

Definition rpl_entry (x : Z * Z) : list Z :=
  let e := w16 (w16 (replicate 0x20 0) 0 0x1C) 2 0 in
  let e := w16 (w16 (w16 e 8 0x20) 0xA 0xC) 0xC 0 in
  w64 (w32 e 0x10 (fst x)) 0x14 (snd x).

Definition rpl_body (l : list (Z * Z)) : list Z := concat (map rpl_entry l).

(** ** [$Secure] *)

Definition with_sds (s : sec_desc_t) (off : Z) : sec_desc_t := mkSec (s_sd s) (s_hash s) (s_id s) off.
Definition sd_len (s : sec_desc_t) : Z := Z.of_nat (length (s_sd s)).

(** The offsets of the descriptors, and the end of the last. *)
Fixpoint sds_place (tail : Z) (l : list sec_desc_t) : list sec_desc_t * Z :=
  match l with
  | [] => ([], tail)
  | s :: l' => let '(r, e) := sds_place (u32 (align_up (u32 (tail + 20 + sd_len s)) 16)) l' in (with_sds s tail :: r, e)
  end.

(** An entry of the stream. *)
Definition sds_entry (s : sec_desc_t) : list Z :=
  w32 (w64 (w32 (w32 (replicate 20 0) 0 (s_hash s)) 4 (s_id s)) 8 (s_sds_offset s)) 0x10 (u32 (20 + sd_len s)) ++ s_sd s.

(** The stream: each entry and its copy 256 KiB further.  [None]: past the end
    of the buffer. *)
Fixpoint sds_fill (sds : list Z) (off : Z) (l : list sec_desc_t) : option (list Z) :=
  match l with
  | [] => Some sds
  | s :: l' =>
      if Z.of_nat (length sds) <? 0x40000 + off + 20 + sd_len s then None else
      let sds := splice sds (Z.to_nat off) (sds_entry s) in
      let e := sub sds (Z.to_nat off) (Z.to_nat (20 + sd_len s)) in
      sds_fill (splice sds (Z.to_nat (0x40000 + off)) e) (u32 (align_up (u32 (off + 20 + sd_len s)) 16)) l'
  end.

(** The data of both indexes starts with the 20 bytes of the entry's header. *)
Definition sec_data (s : sec_desc_t) : list Z :=
  w32 (w64 (w32 (w32 (replicate 20 0) 0 (s_hash s)) 4 (s_id s)) 8 (s_sds_offset s)) 0x10 (u32 (20 + sd_len s)).
Definition sii_entry (s : sec_desc_t) : bentry_t := mkBentry 0 (le_bytes 4 (s_id s)) 0 (Some (sec_data s)).
Definition sdh_entry (s : sec_desc_t) : bentry_t :=
  mkBentry 0 (le_bytes 4 (s_hash s) ++ le_bytes 4 (s_id s)) 0 (Some (sec_data s ++ le_bytes 4 0x00490049)).

Definition secidx_sdh_cmp (x y : bentry_t) : Z :=
  let hx := r32 (b_key x) 0 in let hy := r32 (b_key y) 0 in
  if negb (hx =? hy) then (if hx <? hy then -1 else 1) else
  let ix := r32 (b_key x) 4 in let iy := r32 (b_key y) 4 in
  if ix <? iy then -1 else if iy <? ix then 1 else 0.

(** ** The boot sector *)

Definition ntfs_boot_sector (w : ntfs_writer) (mft_lcn : Z) : list Z :=
  let b := w8 (w8 (w8 (replicate 512 0) 0 0xEB) 1 0x52) 2 0x90 in
  let b := splice b 3 (lit "NTFS    ") in
  let b := w8 (w8 (w16 b 0x0B NTFS_SECTOR) 0x0D spc) 0x15 0xF8 in
  let b := w32 (w32 (w16 (w16 b 0x18 0x3F) 0x1A 0xFF) 0x1C (u32 (part_off w / NTFS_SECTOR))) 0x24 0x00800080 in
  let b := w64 (w64 (w64 b 0x28 (u64 (part_sectors w - 1))) 0x30 mft_lcn) 0x38 (mftmirr_lcn w) in
  w16 (w64 (w8 (w8 b 0x40 0xF6) 0x44 1) 0x48 (serial w)) 0x1FE 0xAA55.

(** ** A standalone descriptor, which no metafile uses *)

Definition build_metafile_sd (read_only : bool) : list Z :=
  let o := w16 (w8 (replicate 0x64 0) 0 1) 2 0x8004 in
  let o := w32 (w32 (w32 (w32 o 4 0x48) 8 0x54) 0xC 0) 0x10 0x14 in
  let o := w16 (w16 (w8 o 0x14 2) 0x16 0x34) 0x18 2 in
  let mask := if read_only then 0x00120089 else 0x0012019f in
  let ace := 0x1c in
  let o := w32 (w16 (w8 (w8 o ace 0) (ace + 1) 0) (ace + 2) 0x14) (ace + 4) mask in
  let o := w32 (w8 (w8 (w8 o (ace + 8) 1) (ace + 9) 1) (ace + 14) 5) (ace + 16) 18 in
  let ace := 0x30 in
  let o := w32 (w16 (w8 (w8 o ace 0) (ace + 1) 0) (ace + 2) 0x18) (ace + 4) mask in
  let o := w8 (w8 (w8 o (ace + 8) 1) (ace + 9) 2) (ace + 14) 5 in
  let o := w32 (w32 o (ace + 16) 32) (ace + 20) 544 in
  let o := w32 (w8 (w8 (w8 o 0x48 1) 0x49 1) 0x4E 5) 0x50 18 in
  w32 (w32 (w8 (w8 (w8 o 0x54 1) 0x55 2) 0x5A 5) 0x5C 32) 0x60 544.
