(* ===== verification/NtfsLinks.v ===== *)
(** * Records with more names than fit
      ([src/tools/iso-patch-mac/engine/ntfs.c]: [convert_to_attrlist])

    The names that did not fit the record of a file move to extension records,
    and a list of all its attributes to a cluster of its own. *)

From Stdlib Require Import String.
From S2P Require Import Prelude Bytes WStr Outcome BlockIO ImageWrites NtfsCodec NtfsRecord Bitmap NtfsVolume NtfsTree.

Definition with_base (r : mftrec_t) (base : Z) : mftrec_t :=
  mkRec (r_buf r) (r_used r) (r_attr_id r) (r_seq r) (r_flags r) (r_link_count r) (r_is_dir r) (r_entries r) (r_reparse r) (r_ov r) base.

Definition al_entry (type ref inst : Z) : list Z :=
  let e := w8 (w8 (w16 (w32 (replicate 0x20 0) 0 type) 4 0x20) 6 0) 7 0x1A in
  w16 (w64 (w64 e 8 0) 0x10 ref) 0x18 inst.

(** ** The attributes of the record as it is *)

Record raw_attrs := mkRaw { std_raw : list Z; data_raw : list Z; fns : list (list Z) }.

(** [memcpy] of [n] bytes at [off] of the record's buffer. *)
Definition copy_attr (buf : list Z) (off n : Z) : outcome (list Z) :=
  if Z.of_nat (length buf) <? off + n then Fault else Ok (sub buf (Z.to_nat off) (Z.to_nat n)).

(** [while (p < base->used)] *)
Fixpoint scan_attrs (fuel : nat) (buf : list Z) (used p : Z) (a : raw_attrs) : outcome raw_attrs :=
  match fuel with
  | O => Spin
  | S fuel' =>
      if negb (p <? used) then Ok a else
      let t := r32 buf p in
      if t =? 0xFFFFFFFF then Ok a else
      let l := r32 buf (p + 4) in
      if l =? 0 then Ok a else
      a ← (if (t =? 0x10) && (l <=? 512) then b ← copy_attr buf p l; Ok (mkRaw b (data_raw a) (fns a))
           else if (t =? 0x80) && (l <=? 1024) then b ← copy_attr buf p l; Ok (mkRaw (std_raw a) b (fns a))
           else if t =? 0x30 then b ← copy_attr buf (p + r16 buf (p + 0x14)) (r32 buf (p + 0x10)); Ok (mkRaw (std_raw a) (data_raw a) (fns a ++ [b]))
           else Ok a);
      scan_attrs fuel' buf used (u32 (p + l)) a
  end.

(** ** The base record *)

(** An attribute of the old record with its new identifier. *)
Definition put_raw (r : mftrec_t) (raw : list Z) : mftrec_t :=
  let buf := w16 (splice (r_buf r) (Z.to_nat (r_used r)) raw) (r_used r + 0xE) (r_attr_id r) in
  set_attrs r buf (r_used r + Z.of_nat (length raw)) (u16 (r_attr_id r + 1)).

Definition has_raw (raw : list Z) : bool := negb (Nat.eqb (length raw) 0).

(** The rebuilt record, the names left over and what the list says of those
    kept; [None]: no room. *)
Definition rebuild_base (r : mftrec_t) (a : raw_attrs) (base_ref al_lcn al_clu al_bytes : Z) :
    option (mftrec_t * list (list Z) * list (Z * Z) * Z * Z) :=
  let r := set_attrs r (r_buf r) 0x38 0 in
  let std_inst := r_attr_id r in
  let r := if has_raw (std_raw a) then put_raw r (std_raw a) else r in
  r ← attr_nonres r NTFS_AT_ATTRIBUTE_LIST [] al_lcn al_clu cluster_size al_bytes al_bytes 0;
  let data_len := Z.of_nat (length (data_raw a)) in
  let '(r, rest, fe) :=
    match fns a with
    | [] => (r, [], [])
    | fn :: rest =>
        if u32 (r_used r + align8u (0x18 + Z.of_nat (length fn)) + data_len + 8) <=? NTFS_MFT_RECSZ then
          match attr_resident r NTFS_AT_FILE_NAME [] fn 0 with
          | Some r' => (r', rest, [(base_ref, r_attr_id r)])
          | None => (r, fns a, [])
          end
        else (r, fns a, [])
    end in
  if has_raw (data_raw a) then
    if NTFS_MFT_RECSZ <? u32 (r_used r + data_len + 8) then None else
    Some (put_raw r (data_raw a), rest, fe, (if has_raw (std_raw a) then std_inst else 0), r_attr_id r)
  else Some (r, rest, fe, (if has_raw (std_raw a) then std_inst else 0), 0).

(** ** Extension records *)

(** [for (; fi < nfn; fi++)]: the names into extension records, and where each
    went; [ext] is the one being filled. *)
Fixpoint spill (fuel : nat) (w : ntfs_writer) (base_ref : Z) (ext : option Z) (names : list (list Z)) : outcome (list (Z * Z) * ntfs_writer) :=
  match names with
  | [] => Ok ([], w)
  | fn :: rest =>
      match fuel with
      | O => Spin
      | S fuel' =>
          '(er, w) ← (match ext with
             | Some er => Ok (er, w)
             | None =>
                 let er := nrec w in
                 let w := add_rec w false in
                 r ← opt (get_rec w er);
                 Ok (er, put_rec w er (with_base (with_links r 0) base_ref))
             end);
          r ← opt (get_rec w er);
          match attr_resident r NTFS_AT_FILE_NAME [] fn 0 with
          | None => spill fuel' w base_ref None names
          | Some r' =>
              '(fe, w) ← spill fuel' (put_rec w er r') base_ref (Some er) rest;
              Ok ((ref_of er r, r_attr_id r) :: fe, w)
          end
      end
  end.

(** ** The conversion *)

Definition al_list (a : raw_attrs) (base_ref std_inst data_inst : Z) (fe : list (Z * Z)) : list Z :=
  (if has_raw (std_raw a) then al_entry 0x10 base_ref std_inst else []) ++
  concat (map (λ x, al_entry 0x30 (fst x) (snd x)) fe) ++
  (if has_raw (data_raw a) then al_entry 0x80 base_ref data_inst else []).

Section convert.
Context {D : Type} `{Image D}.

Definition convert_to_attrlist (w : ntfs_writer) (d : D) (base_recno : Z) : outcome (ntfs_writer * D) :=
  base ← opt (get_rec w base_recno);
  let base_ref := ref_of base_recno base in
  a ← scan_attrs (S (length (r_buf base))) (r_buf base) (r_used base) 0x38 (mkRaw [] [] []);
  let a := mkRaw (std_raw a) (data_raw a) (fns a ++ r_ov base) in
  let n_ent := (if has_raw (std_raw a) then 1 else 0) + Z.of_nat (length (fns a)) + (if has_raw (data_raw a) then 1 else 0) in
  let al_bytes := u32 (n_ent * 0x20) in
  let al_clu := u32 (al_bytes + cluster_size - 1) / cluster_size in
  '(al_lcn, w) ← opt (alloc_clusters w al_clu);
  '(base, rest, fe, std_inst, data_inst) ← must (-1) (rebuild_base base a base_ref al_lcn al_clu al_bytes);
  let w := put_rec w base_recno (with_ov base []) in
  '(fe', w) ← spill (2 * length rest) w base_ref None rest;
  let al := al_list a base_ref std_inst data_inst (fe ++ fe') in
  if u64 (al_clu * cluster_size) <? Z.of_nat (length al) then Fault else
  d ← opt (puts d [(cluster_byte w al_lcn, splice (replicate (Z.to_nat (u64 (al_clu * cluster_size))) 0) 0 al)]);
  Ok (w, d).

(** [for (i = 0; i < n0; i++)]: the records with names that did not fit. *)
Fixpoint convert_all (n : nat) (w : ntfs_writer) (d : D) (i : Z) : outcome (ntfs_writer * D) :=
  match n with
  | O => Ok (w, d)
  | S n' =>
      match get_rec w i with
      | Some r =>
          if negb (Nat.eqb (length (r_ov r)) 0) then
            match convert_to_attrlist w d i with
            | Ok (w, d) => convert_all n' w d (i + 1)
            | Err _ => Err (-5)
            | Fault => Fault
            | Spin => Spin
            end
          else convert_all n' w d (i + 1)
      | None => convert_all n' w d (i + 1)
      end
  end.
End convert.
