(* ===== verification/NtfsClose.v ===== *)
(** * Closing an NTFS volume
      ([src/tools/iso-patch-mac/engine/ntfs.c]: [put_record],
      [ntfs_writer_close])

    The phases of the close, in its order: the names of the metafiles, the
    indexes, the attribute lists, the layout, the metafile records, and the
    writes.  A phase ends in the error code the function returns, or in [Fault]
    when it would leave a buffer. *)

From Stdlib Require Import String.
From S2P Require Import Prelude Bytes WStr Outcome BlockIO ImageWrites NtfsCodec NtfsIndex NtfsRecord NtfsLookup Bitmap NtfsVolume NtfsTree NtfsMeta NtfsLinks.

(** ** Small steps *)

(** Calls on a record whose results are ignored. *)
Definition attrs (r : mftrec_t) (ops : list rop) : mftrec_t := run_rops r ops.

Definition upd (w : ntfs_writer) (i : Z) (f : mftrec_t → mftrec_t) : outcome ntfs_writer :=
  r ← opt (get_rec w i); Ok (put_rec w i (f r)).

Definition with_flags (r : mftrec_t) (fl : Z) : mftrec_t :=
  mkRec (r_buf r) (r_used r) (r_attr_id r) (r_seq r) fl (r_link_count r) (r_is_dir r) (r_entries r) (r_reparse r) (r_ov r) (r_base_ref r).

Fixpoint each {A S} (f : S → A → outcome S) (s : S) (l : list A) : outcome S :=
  match l with [] => Ok s | x :: l' => s ← f s x; each f s l' end.

(** [$STANDARD_INFORMATION] of a metafile. *)
Definition si (disk_attrs sec_id : Z) : list Z := fst (build_std_info T T T disk_attrs sec_id).

(** [$FILE_NAME] of a metafile. *)
Definition fname (parent alloc real disk_attrs : Z) (name : list Z) : list Z :=
  build_file_name parent T T T alloc real disk_attrs name 3.

Definition info_ops (disk_attrs sec_id : Z) (fn : list Z) : list rop :=
  [AddResident NTFS_AT_STANDARD_INFORMATION [] (si disk_attrs sec_id) 0; AddResident NTFS_AT_FILE_NAME [] fn 0].

(** ** 1. Names *)

Definition close_root (w : ntfs_writer) : outcome ntfs_writer :=
  let root_ref := ntfs_root_ref w in
  let fn := fname root_ref 0 0 (root_attrs w) (lit ".") in
  w ← upd w NTFS_REC_ROOT (λ r, attrs r (info_ops (root_attrs w) (root_sec_id w) fn));
  w ← opt (dir_push w NTFS_REC_ROOT root_ref fn);
  upd w NTFS_REC_EXTEND (λ r, attrs r (info_ops 0x10000006 0x101 (fname root_ref 0 0 0x10000006 (lit "$Extend")))).

Definition sysf : list (Z * list Z) :=
  [(0, lit "$MFT"); (1, lit "$MFTMirr"); (2, lit "$LogFile"); (3, lit "$Volume"); (4, lit "$AttrDef"); (6, lit "$Bitmap");
   (7, lit "$Boot"); (8, lit "$BadClus"); (9, lit "$Secure"); (10, lit "$UpCase"); (11, lit "$Extend")].

Definition push_sysf (w : ntfs_writer) (x : Z * list Z) : outcome ntfs_writer :=
  sr ← opt (get_rec w (fst x));
  let da := if fst x =? 9 then 0x20000006 else if r_is_dir sr then 0x10000006 else 0x06 in
  opt (dir_push w NTFS_REC_ROOT (ref_of (fst x) sr) (fname (ntfs_root_ref w) 0 0 da (snd x))).

Definition extf : list (Z * list Z) := [(24, lit "$Quota"); (25, lit "$ObjId"); (26, lit "$Reparse")].

Definition push_extf (w : ntfs_writer) (x : Z * list Z) : outcome ntfs_writer :=
  er ← opt (get_rec w NTFS_REC_EXTEND);
  let extend_ref := ref_of NTFS_REC_EXTEND er in
  let fn := fname extend_ref 0 0 0x20000026 (snd x) in
  w ← upd w (fst x) (λ r, attrs (with_flags r (Z.lor (r_flags r) (Z.lor 0x04 0x08))) (info_ops 0x20000026 0x101 fn));
  r ← opt (get_rec w (fst x));
  opt (dir_push w NTFS_REC_EXTEND (ref_of (fst x) r) fn).

(** A view index on record [i], failing the close. *)
Definition add_view (w : ntfs_writer) (i : Z) (name : list Z) (collation : Z) (body : list Z) : outcome ntfs_writer :=
  r ← opt (get_rec w i);
  r ← must (-1) (attr_view_index_root r name collation body);
  Ok (put_rec w i r).

Definition close_views (w : ntfs_writer) : outcome ntfs_writer :=
  w ← add_view w 24 (lit "$O") 0x11 [];
  w ← add_view w 24 (lit "$Q") 0x10 quota_body;
  w ← add_view w 25 (lit "$O") 0x13 [];
  match rpl w with
  | [] => add_view w 26 (lit "$R") 0x13 []
  | _ =>
      let w := set_rpl w (rpl_sort (length (rpl w)) (rpl w)) in
      add_view w 26 (lit "$R") 0x13 (rpl_body (rpl w))
  end.

Definition close_names (w : ntfs_writer) : outcome ntfs_writer :=
  w ← close_root w; w ← each push_sysf w sysf; w ← each push_extf w extf; close_views w.

(** ** 2. Layout *)

Record ntfs_layout := mkLayout {
  mft_count : Z; mft_clusters : Z; mft_lcn : Z; mftbmp_bytes : Z; mftbmp_clusters : Z; mftbmp_lcn : Z;
  attrdef_clusters : Z; logfile_bytes : Z; logfile_clusters : Z; sds_bytes : Z; sds_data_size : Z; sds_clusters : Z; bitmap_clusters : Z;
  upcase_lcn : Z; attrdef_lcn : Z; logfile_lcn : Z; sds_lcn : Z; bitmap_lcn : Z }.

Definition logfile_size (part_sectors : Z) : Z :=
  let vol_bytes := u64 (u64 (part_sectors - 1) * 512) in
  let b := vol_bytes / 200 in
  let b := if b <? 1048576 then 1048576 else b in
  let b := if 67108864 <? b then 67108864 else b in
  align_up b cluster_size.

Definition mark (w : ntfs_writer) (lcn n : Z) : outcome ntfs_writer :=
  bmp ← opt (bmp_mark (Z.to_nat n) (clbmp w) lcn); Ok (set_lcns w (next_lcn w) bmp).

Definition last_end (l : list sec_desc_t) : Z := match last l with Some s => s_sds_offset s + 20 + sd_len s | None => 0 end.

Definition plan_layout (w : ntfs_writer) : outcome (ntfs_layout * ntfs_writer) :=
  let count := nrec w in
  let mft_clusters := (count * NTFS_MFT_RECSZ + cluster_size - 1) / cluster_size in
  let attrdef_clusters := (Z.of_nat (length build_attrdef) + cluster_size - 1) / cluster_size in
  let logfile_bytes := logfile_size (part_sectors w) in
  let logfile_clusters := logfile_bytes / cluster_size in
  let '(secs, sds_tail) := sds_place 0 (sec w) in
  let w := set_sec w secs in
  let sds_data_size := 0x40000 + last_end secs in
  let sds_bytes := align_up (0x40000 + sds_tail) cluster_size in
  let sds_clusters := sds_bytes / cluster_size in
  let boot_clusters := (8192 + cluster_size - 1) / cluster_size in
  let mftbmp_bytes := (count + 7) / 8 in
  let resident := mftbmp_bytes <=? 0x40 in
  let mftbmp_clusters := if resident then 0 else (mftbmp_bytes + cluster_size - 1) / cluster_size in
  let mftbmp_lcn := if resident then 0 else boot_clusters in
  w ← (if resident then Ok w else mark w mftbmp_lcn mftbmp_clusters);
  let lcn := boot_clusters + mftbmp_clusters in
  let lcn := if lcn * cluster_size <? 16 * 1024 then (16 * 1024 + cluster_size - 1) / cluster_size else lcn in
  w ← mark w lcn mft_clusters;
  fail_if (mft_zone_end w <? lcn + mft_clusters) (-3) (
  fail_if (total_clusters w <? u64 (mftmirr_lcn w + reserve_len w)) (-3) (
  '(upcase_lcn, w) ← opt (alloc_clusters w ((0x20000 + cluster_size - 1) / cluster_size));
  '(attrdef_lcn, w) ← opt (alloc_clusters w attrdef_clusters);
  '(logfile_lcn, w) ← opt (alloc_clusters w logfile_clusters);
  '(sds_lcn, w) ← opt (alloc_clusters w sds_clusters);
  let bitmap_clusters := Z.of_nat (length (clbmp w)) / cluster_size in
  '(bitmap_lcn, w) ← opt (alloc_clusters w bitmap_clusters);
  fail_if (total_clusters w <? next_lcn w) (-2) (
  Ok (mkLayout count mft_clusters lcn mftbmp_bytes mftbmp_clusters mftbmp_lcn attrdef_clusters logfile_bytes logfile_clusters
        sds_bytes sds_data_size sds_clusters bitmap_clusters upcase_lcn attrdef_lcn logfile_lcn sds_lcn bitmap_lcn, w)))).

(** ** 3. The metafile records *)

(** [for (k = 0; k < mft_count; k++) if (k<16 || k>23) mb[k/8] |= 1<<(k&7);] *)
Fixpoint mark_records (n : nat) (k : Z) (mb : list Z) : option (list Z) :=
  match n with
  | O => Some mb
  | S n' => mb ← (if (k <? 16) || (23 <? k) then bmp_set mb k else Some mb); mark_records n' (k + 1) mb
  end.

Definition clusters_bytes (n : Z) : Z := u64 (n * cluster_size).

(** [mp_off + ...] of [$Bad], the run of a hole. *)
Definition bad_attr (total id : Z) : list Z :=
  let lb := min_bytes_s (i64 total) in
  let name_off := 0x40 in
  let mp_off := align8u (name_off + 2 * 4) in
  let len := align8u (mp_off + 1 + lb + 1) in
  let a := w32 (w32 (replicate 0x60 0) 0 0x80) 4 len in
  let a := w16 (w16 (w16 (w8 (w8 a 8 1) 9 4) 0xA name_off) 0xC 0) 0xE id in
  let a := w16 (w16 (w64 (w64 a 0x10 0) 0x18 (if total =? 0 then 0 else total - 1)) 0x20 mp_off) 0x22 0 in
  let a := w64 (w64 (w64 a 0x28 (u64 (total * cluster_size))) 0x30 (u64 (total * cluster_size))) 0x38 0 in
  let a := splice a (Z.to_nat name_off) (unit_bytes (lit "$Bad")) in
  let a := splice a (Z.to_nat mp_off) ([lb] ++ le_bytes (Z.to_nat lb) total ++ [0]) in
  take (Z.to_nat len) a.

(** [memcpy(r->buf+r->used,a,total)], with no look at the room. *)
Definition append_raw (r : mftrec_t) (a : list Z) : outcome mftrec_t :=
  if NTFS_MFT_RECSZ <? r_used r + Z.of_nat (length a) then Fault else
  Ok (set_attrs r (splice (r_buf r) (Z.to_nat (r_used r)) a) (r_used r + Z.of_nat (length a)) (u16 (r_attr_id r + 1))).

(** [$MFT]'s attributes before its bitmap. *)
Definition mft_ops (root_ref : Z) (l : ntfs_layout) : list rop :=
  info_ops 0x06 0x100 (fname root_ref (clusters_bytes (mft_clusters l)) (mft_count l * NTFS_MFT_RECSZ) 0x06 (lit "$MFT")) ++
  [AddNonres NTFS_AT_DATA [] (mft_lcn l) (mft_clusters l) cluster_size (mft_count l * NTFS_MFT_RECSZ) (mft_count l * NTFS_MFT_RECSZ) 0].

(** A metafile with its data in one run. *)
Definition stream_ops (root_ref alloc : Z) (name : list Z) (lcn n size : Z) : list rop :=
  info_ops 0x06 0x100 (fname root_ref alloc size 0x06 name) ++ [AddNonres NTFS_AT_DATA [] lcn n cluster_size size size 0].

Definition volume_ops (w : ntfs_writer) (root_ref : Z) : list rop :=
  info_ops 0x06 0x100 (fname root_ref 0 0 0x06 (lit "$Volume")) ++
  (if negb (Nat.eqb (length (label w)) 0) then [AddResident 0x60 [] (unit_bytes (map u8 (label w))) 0] else []) ++
  [AddResident 0x70 [] (w8 (w8 (replicate 12 0) 8 3) 9 1) 0; AddResident NTFS_AT_DATA [] [] 0].

(** [$Secure]: its two indexes share the record. *)
Definition secure_ops (root_ref : Z) (l : ntfs_layout) : list rop :=
  info_ops 0x20000006 0x101 (fname root_ref (clusters_bytes (sds_clusters l)) (sds_data_size l) 0x20000006 (lit "$Secure")) ++
  [AddNonres NTFS_AT_DATA (lit "$SDS") (sds_lcn l) (sds_clusters l) cluster_size (sds_data_size l) (sds_data_size l) 0].

Definition index_run (name : list Z) (x : secidx_t) : list rop :=
  if x_large x then [AddNonres NTFS_AT_INDEX_ALLOCATION name (x_lcn x) (x_blocks x) cluster_size (u64 (x_blocks x * NTFS_INDX_SIZE)) (u64 (x_blocks x * NTFS_INDX_SIZE)) 0] else [].
Definition index_bits (name : list Z) (x : secidx_t) : list rop :=
  if x_large x then [AddResident NTFS_AT_BITMAP name (x_bm x) 0] else [].

(** [rc |= attr_...]: every call is made, and one that fails fails the close. *)
Fixpoint all_attrs (r : mftrec_t) (ops : list rop) : mftrec_t * bool :=
  match ops with
  | [] => (r, true)
  | op :: ops' => match run_rop r op with Some r' => all_attrs r' ops' | None => (fst (all_attrs r ops'), false) end
  end.

Section writer.
Context {D : Type} `{Image D} (upcase : Z → Z) (qsort : list idx_entry_t → list idx_entry_t) (qsort_sdh : list bentry_t → list bentry_t).

Definition fill_mft (w : ntfs_writer) (d : D) (l : ntfs_layout) : outcome (ntfs_writer * D) :=
  w ← upd w 0 (λ r, attrs r (mft_ops (ntfs_root_ref w) l));
  if mftbmp_bytes l <=? 0x40 then
    mb ← opt (mark_records (Z.to_nat (mft_count l)) 0 (replicate 0x40 0));
    w ← upd w 0 (λ r, attrs r [AddResident NTFS_AT_BITMAP [] (take (Z.to_nat (align8u (mftbmp_bytes l))) mb) 0]);
    Ok (w, d)
  else
    mb ← opt (mark_records (Z.to_nat (mft_count l)) 0 (replicate (Z.to_nat (clusters_bytes (mftbmp_clusters l))) 0));
    d ← opt (puts d [(cluster_byte w (mftbmp_lcn l), mb)]);
    w ← upd w 0 (λ r, attrs r [AddNonres NTFS_AT_BITMAP [] (mftbmp_lcn l) (mftbmp_clusters l) cluster_size (mftbmp_bytes l) (mftbmp_bytes l) 0]);
    Ok (w, d).

Definition fill_badclus (w : ntfs_writer) : outcome ntfs_writer :=
  w ← upd w 8 (λ r, attrs r (info_ops 0x06 0x100 (fname (ntfs_root_ref w) 0 0 0x06 (lit "$BadClus")) ++ [AddResident NTFS_AT_DATA [] [] 0]));
  r ← opt (get_rec w 8);
  r ← append_raw r (bad_attr (total_clusters w) (r_attr_id r));
  Ok (put_rec w 8 r).

Definition fill_secure (w : ntfs_writer) (d : D) (l : ntfs_layout) : outcome (ntfs_writer * D) :=
  w ← upd w 9 (λ r, attrs (with_flags r (Z.lor (r_flags r) 0x08)) (secure_ops (ntfs_root_ref w) l));
  r ← opt (get_rec w 9);
  let sii := map sii_entry (sec w) in
  let sdh := qsort_sdh (map sdh_entry (sec w)) in
  let avail := if r_used r <? NTFS_MFT_RECSZ then NTFS_MFT_RECSZ - r_used r else 0 in
  let per_root := if 0x200 <? avail then 0x40 else 0x20 in
  '(SDH, w, d) ← prepare_secure_index w d 0x12 sdh per_root;
  '(SII, w, d) ← prepare_secure_index w d 0x10 sii per_root;
  let '(r, ok) := all_attrs r (
    [AddResident NTFS_AT_INDEX_ROOT (lit "$SDH") (x_root SDH) 0; AddResident NTFS_AT_INDEX_ROOT (lit "$SII") (x_root SII) 0] ++
    index_run (lit "$SDH") SDH ++ index_run (lit "$SII") SII ++ index_bits (lit "$SDH") SDH ++ index_bits (lit "$SII") SII) in
  fail_if (negb ok) (-4) (Ok (put_rec w 9 r, d)).

Definition upcase_info : list Z := w64 (w32 (replicate 32 0) 0 0x20) 8 (crc64_ecma (upcase_bytes upcase)).

Definition reserved_ops : list rop := [AddResident NTFS_AT_STANDARD_INFORMATION [] (si 0x06 0x100) 0; AddResident NTFS_AT_DATA [] [] 0].

(** Records 16 to 23 are formatted but free. *)
Definition freed (r : mftrec_t) : mftrec_t := set_attrs (with_links (with_flags r 0) 0) (r_buf r) 0x38 0.

Definition fill_records (w : ntfs_writer) (d : D) (l : ntfs_layout) : outcome (ntfs_writer * D) :=
  let root_ref := ntfs_root_ref w in
  '(w, d) ← fill_mft w d l;
  w ← upd w 1 (λ r, attrs r (stream_ops root_ref cluster_size (lit "$MFTMirr") (mftmirr_lcn w) 1 (4 * NTFS_MFT_RECSZ)));
  w ← upd w 2 (λ r, attrs r (stream_ops root_ref (clusters_bytes (logfile_clusters l)) (lit "$LogFile") (logfile_lcn l) (logfile_clusters l) (logfile_bytes l)));
  w ← upd w 3 (λ r, attrs r (volume_ops w root_ref));
  w ← upd w 4 (λ r, attrs r (stream_ops root_ref (clusters_bytes (attrdef_clusters l)) (lit "$AttrDef") (attrdef_lcn l) (attrdef_clusters l) (Z.of_nat (length build_attrdef))));
  w ← upd w 6 (λ r, attrs r (stream_ops root_ref (clusters_bytes (bitmap_clusters l)) (lit "$Bitmap") (bitmap_lcn l) (bitmap_clusters l) (u64 (total_clusters w + 7) / 8)));
  w ← upd w 7 (λ r, attrs r (stream_ops root_ref (2 * cluster_size) (lit "$Boot") 0 ((8192 + cluster_size - 1) / cluster_size) 8192));
  w ← fill_badclus w;
  '(w, d) ← fill_secure w d l;
  w ← upd w 10 (λ r, attrs r (stream_ops root_ref 0x20000 (lit "$UpCase") (upcase_lcn l) ((0x20000 + cluster_size - 1) / cluster_size) 0x20000 ++
                              [AddResident NTFS_AT_DATA (lit "$Info") upcase_info 0]));
  w ← each (λ w i, upd w i (λ r, attrs (with_links r 0) reserved_ops)) w [12; 13; 14; 15];
  w ← each (λ w i, upd w i freed) w [16; 17; 18; 19; 20; 21; 22; 23];
  Ok (w, d).

(** ** 4. The writes *)

Definition mft_byte (w : ntfs_writer) (l : ntfs_layout) : Z := cluster_byte w (mft_lcn l).

(** [put_record]: where record [i] goes, and its bytes. *)
Definition put_record (w : ntfs_writer) (l : ntfs_layout) (i : Z) : option (Z * list Z) :=
  r ← get_rec w i; Some (u64 (mft_byte w l + i * NTFS_MFT_RECSZ), put_bytes i r).

(** [while (rem)]: the log, one MiB at a time. *)
Fixpoint log_writes (fuel : nat) (base rem : Z) : list (Z * list Z) :=
  match fuel with
  | O => []
  | S fuel' =>
      if rem =? 0 then [] else
      let k := if rem <? 1048576 then rem else 1048576 in
      (base, replicate (Z.to_nat k) 0xFF) :: log_writes fuel' (u64 (base + k)) (rem - k)
  end.

(** The clusters past the end of the volume count as used. *)
Definition final_bitmap (w : ntfs_writer) : option (list Z) :=
  bmp_mark (Z.to_nat (8 * Z.of_nat (length (clbmp w)) - total_clusters w)) (clbmp w) (total_clusters w).

Definition close_writes (w : ntfs_writer) (l : ntfs_layout) : option (list (Z * list Z)) :=
  recs ← mapM (put_record w l) (seqZ 0 (mft_count l));
  mir ← mapM (put_record w l) (seqZ 0 4);
  sds ← sds_fill (replicate (Z.to_nat (sds_bytes l)) 0) 0 (sec w);
  bmp ← final_bitmap w;
  let boot := ntfs_boot_sector w (mft_lcn l) in
  Some (recs ++
    [(cluster_byte w (mftmirr_lcn w), concat (map snd mir)); (cluster_byte w (upcase_lcn l), upcase_bytes upcase);
     (cluster_byte w (attrdef_lcn l), build_attrdef)] ++
    log_writes (Z.to_nat (logfile_bytes l / 1048576 + 1)) (cluster_byte w (logfile_lcn l)) (logfile_bytes l) ++
    [(cluster_byte w (sds_lcn l), sds); (cluster_byte w (bitmap_lcn l), bmp);
     (part_off w, boot); (u64 (part_off w + u64 (u64 (part_sectors w - 1) * 512)), boot)]).

(** The volume at the end, and the device; the result of the flush is ignored. *)
Definition ntfs_writer_close (w : ntfs_writer) (d : D) : outcome (ntfs_writer * ntfs_layout * D) :=
  w ← close_names w;
  '(w, d) ← index_dirs qsort (length (rec w)) w d 0;
  '(w, d) ← convert_all (length (rec w)) w d 0;
  '(l, w) ← plan_layout w;
  '(w, d) ← fill_records w d l;
  ws ← opt (close_writes w l);
  d ← opt (puts d ws);
  '(_, d) ← opt (img_flush d);
  Ok (w, l, d).
End writer.
