(* ===== verification/NtfsIndexed.v ===== *)
(** * Directories with their index on the volume
      ([src/tools/iso-patch-mac/engine/ntfs.c]: [build_directory_index] inside
      [ntfs_writer_close])

    What a directory record and its blocks promise once [build_directory_index]
    and [index_dir] have run, when they refuse, and that nothing written later to
    other clusters takes the index back. *)

From Stdlib Require Import String Sorted.
From S2P Require Import Prelude Bytes WStr Outcome BlockIO ImageWrites NtfsCodec NtfsIndex NtfsDir NtfsRecord NtfsLookup Bitmap NtfsVolume NtfsAlloc NtfsTree NtfsSession NtfsRuns NtfsOpen.

Definition find_attr (type : Z) (name : list Z) (al : list attr) : option attr := head (filter (λ a, a_type a = type ∧ a_name a = name) al).

Lemma find_attr_early type name al al2 : early al → NTFS_AT_DATA < type → find_attr type name (al ++ al2) = find_attr type name al2.
Proof.
  intros He Ht. unfold find_attr. rewrite filter_app. rewrite filter_none; [done|]. eapply Forall_impl; [exact He|]. cbn beta. intros a Ha [E _]. lia.
Qed.

(** What an operation of the close does to the rest of the volume. *)
Record grows (w : ntfs_writer) (m : mem) (rs : runs) (w' : ntfs_writer) (m' : mem) (rs' : runs) : Prop := {
  gr_vol : same_volume w w';
  gr_runs : ∃ more, rs' = more ++ rs;
  gr_data : Forall (λ x, run_bytes m' w' x = run_bytes m w x) rs;
  gr_sec : sec w' = sec w ∧ rpl w' = rpl w ∧ cap_rec w' = cap_rec w;
  gr_plan : same_plan w w';
}.

Lemma grows_refl w m rs : grows w m rs w m rs.
Proof. constructor; [done|by exists []|by apply list.Forall_forall|done|done]. Qed.

Lemma grows_trans w1 m1 rs1 w2 m2 rs2 w3 m3 rs3 : grows w1 m1 rs1 w2 m2 rs2 → grows w2 m2 rs2 w3 m3 rs3 → grows w1 m1 rs1 w3 m3 rs3.
Proof.
  intros [A1 (ax & ->) A3 A4 A5] [B1 (bx & ->) B3 B4 B5]. constructor.
  - by eapply same_volume_trans.
  - exists (bx ++ ax). by rewrite app_assoc.
  - apply Forall_app in B3 as [_ B3]. rewrite list.Forall_forall in *. intros x Hx. rewrite B3 by done. by apply A3.
  - intuition congruence.
  - unfold same_plan in *. intuition congruence.
Qed.

Lemma grows_rec w m rs w' m' rs' l cap : grows w m rs w' m' rs' → cap = cap_rec w → grows w m rs (set_rec w' l cap) m' rs'.
Proof. intros [A1 A2 A3 (A4 & A5 & _) A6] ->. by constructor. Qed.

(** The directory [entries], as a driver finds it. *)
Definition indexed (upcase : Z → Z) (w : ntfs_writer) (m : mem) (rs : runs) (entries : list idx_entry_t) (al : list attr) : Prop :=
  ∃ x h used srt lcn,
    srt ≡ₚ entries ∧ StronglySorted (before (folded upcase)) (map payload (map leaf_in srt)) ∧
    index_ok used (Z.of_nat (length srt)) x ∧ 0 <= used ∧ 3 * Z.of_nat (length srt) <= 2 ^ 60 ∧
    body (node_table (i_specs x)) h (i_ents x) (i_end x) (map payload (map leaf_in srt)) ∧ i_large x = negb (Nat.eqb h 0) ∧
    a_body <$> find_attr NTFS_AT_INDEX_ROOT I30 al = Some (Resident (index_root x) 0) ∧
    (i_large x = true →
       (∃ a s i f, a_body <$> find_attr NTFS_AT_INDEX_ALLOCATION I30 al = Some (Nonres lcn (i_blocks x) a s i f)) ∧
       (lcn, i_blocks x) ∈ rs ∧ 0 <= cluster_byte w lcn ∧ holds m (map (emit_indx (cluster_byte w lcn)) (i_specs x))).

Lemma emit_in_run used n x base ws : index_ok used n x → n <= 2 ^ 60 → ws ∈ map (emit_indx base) (i_specs x) →
  ∃ o, 0 <= o ∧ fst ws = base + o ∧ o + Z.of_nat (length (snd ws)) <= i_blocks x * cluster_size.
Proof.
  intros [X1 X2 X3 X4 Xb X5 X6 _ _] Hn Hw. apply list_elem_of_fmap in Hw as (ns & -> & Hns). apply list_elem_of_lookup in Hns as [j Hj].
  destruct (spec_block (2 ^ 62) ltac:(lia) (i_specs x) X3 X4 ltac:(lia) j ns Hj) as (_ & V & El).
  pose proof (spec_vcn (i_specs x) X4 j ns Hj) as Ev. apply lookup_lt_Some in Hj.
  exists (n_vcn ns * NTFS_INDX_SIZE). cbn [emit_indx fst snd]. rewrite El. unfold NTFS_INDX_SIZE, cluster_size in *. lia.
Qed.

Lemma indexed_grows upcase w m rs w' m' rs' entries al :
  grows w m rs w' m' rs' → indexed upcase w m rs entries al → indexed upcase w' m' rs' entries al.
Proof.
  intros G (x & h & used & srt & lcn & H1 & H2 & H3 & H4 & H5 & H6 & H7 & H8 & H9). exists x, h, used, srt, lcn. split_and!; try done.
  intros Hl. destruct (H9 Hl) as (B1 & B2 & B3 & B4). split; [done|]. pose proof (gr_data _ _ _ _ _ _ G) as Hd. rewrite list.Forall_forall in Hd. specialize (Hd _ B2).
  destruct (gr_vol _ _ _ _ _ _ G) as (Ep & _). assert (cluster_byte w' lcn = cluster_byte w lcn) as Eb by (unfold cluster_byte; by rewrite Ep).
  destruct (gr_runs _ _ _ _ _ _ G) as (more & ->). rewrite Eb. split_and!; [apply elem_of_app; by right|done|].
  eapply holds_ext; [|exact B4]. intros ws Hws. destruct (emit_in_run _ _ _ _ _ H3 ltac:(lia) Hws) as (o & O1 & O2 & O3).
  unfold run_bytes in Hd. cbn [fst snd] in Hd. rewrite Eb in Hd. rewrite O2.
  apply (f_equal (λ l, sub l (Z.to_nat o) (length (snd ws)))) in Hd.
  rewrite !sub_mread in Hd by lia. by rewrite Z2Nat.id in Hd by lia.
Qed.

(** The driver's search, from where the allocation attribute says the blocks are. *)
Lemma indexed_lookup upcase w m rs entries al : indexed upcase w m rs entries al → ∃ root h srt,
  srt ≡ₚ entries ∧ StronglySorted (before (folded upcase)) (map payload (map leaf_in srt)) ∧
  a_body <$> find_attr NTFS_AT_INDEX_ROOT I30 al = Some (Resident root 0) ∧
  ∀ base key, (∀ lcn n a s i f, a_body <$> find_attr NTFS_AT_INDEX_ALLOCATION I30 al = Some (Nonres lcn n a s i f) → (lcn, n) ∈ rs → base = cluster_byte w lcn) →
    lookup_dir h upcase m base root key = Some (lookup_name (folded upcase) key (map payload (map leaf_in srt))).
Proof.
  intros (x & h & used & srt & lcn & H1 & H2 & H3 & H4 & H5 & H6 & H7 & H8 & H9). exists (index_root x), h, srt. split_and!; [done|done|done|].
  intros base key Hbase. apply (lookup_dir_read upcase used base srt x h m m H3 H4 ltac:(lia) H6 H7 H2).
  destruct (i_large x) eqn:El.
  - destruct (H9 eq_refl) as ((a & s & i & f & E) & Hin & _ & Hh). rewrite (Hbase _ _ _ _ _ _ E Hin). symmetry. by apply holds_apply.
  - pose proof (ix_leaf _ _ _ H3) as Hl. rewrite El in Hl. by rewrite Hl.
Qed.

(** ** Building one index *)

(** What a directory record must leave free: with room for the root, the run and
    the bitmap of a large index; a reparse point only on an empty directory. *)
Definition dir_room (r : mftrec_t) : bool :=
  (r_used r <=? 728) && (Z.of_nat (length (r_entries r)) <? 2 ^ 32) &&
  match r_reparse r with
  | None => true
  | Some b => Nat.eqb (length (r_entries r)) 0 && (r_used r + 80 + resident_len [] b + 8 <=? NTFS_MFT_RECSZ) && (Z.of_nat (length b) <=? 1000)
  end.

Lemma dir_room_spec r : dir_room r = true → r_used r + 0x68 <= NTFS_MFT_RECSZ ∧ Z.of_nat (length (r_entries r)) < 2 ^ 32.
Proof. unfold dir_room, NTFS_MFT_RECSZ. intros H. apply andb_prop in H as [H _]. apply andb_prop in H as [H1 H2]. zbool. lia. Qed.

Lemma type_ok_I30 t : is_u32 t → t ≠ NTFS_AT_END → type_ok t I30.
Proof. intros. unfold type_ok. split_and!; [done|done| |vm_compute; congruence]. repeat constructor; vm_compute; congruence. Qed.

Lemma resident_len_I30 val : Z.of_nat (length val) <= 60000 → 32 + Z.of_nat (length val) <= resident_len I30 val < 32 + Z.of_nat (length val) + 8.
Proof.
  intros H. unfold resident_len. change (align8u (24 + 2 * Z.of_nat (length I30))) with 32.
  destruct (align8u_spec (32 + Z.of_nat (length val)) ltac:(lia)) as [H1 H2]. lia.
Qed.

Lemma nonres_len_I30 count lcn : 0 <= count < 2 ^ 63 → 0 <= lcn < 2 ^ 63 → nonres_len I30 count lcn <= 96.
Proof.
  intros Hc Hl. pose proof (length_enc_single_run count lcn Hc Hl). unfold nonres_len. change (align8u (64 + 2 * Z.of_nat (length I30))) with 72.
  destruct (align8u_spec (72 + Z.of_nat (length (enc_single_run count lcn))) ltac:(lia)) as [H1 H2]. dlia.
Qed.

Lemma attr_resident_small r t val ix r' : 0 <= r_used r <= 1024 → Z.of_nat (length val) < 2 ^ 31 - 5000 →
  attr_resident r t I30 val ix = Some r' → Z.of_nat (length val) <= 1024.
Proof.
  intros Hu Hv H. unfold attr_resident in H. change (align8u (0x18 + 2 * Z.of_nat (length I30))) with 32 in H.
  destruct (align8u_spec (32 + Z.of_nat (length val)) ltac:(lia)) as [H1 H2]. unfold NTFS_MFT_RECSZ in H.
  rewrite u32_small in H by lia. destruct (Z.ltb_spec 1024 (r_used r + align8u (32 + Z.of_nat (length val)) + 8)); [done|lia].
Qed.

(** A run is refused only by a record of more than 919 bytes. *)
Lemma nonres_refused i r al t lcn count cs data init flags :
  tracks i r al → type_ok t I30 → 0 <= lcn < 2 ^ 63 → 0 < count < 2 ^ 63 → is_u64 data → is_u64 init → is_u16 flags →
  attr_nonres r t I30 lcn count cs data init flags = None → 919 < r_used r.
Proof.
  intros T Ht Hl Hc Hd Hi Hf E. destruct (decide (919 < r_used r)) as [|Hle]; [done|exfalso].
  pose proof (nonres_len_I30 count lcn ltac:(lia) Hl). destruct (append_nonres i r al t I30 lcn count cs data init flags T Ht Hl Hc Hd Hi Hf) as (r' & E' & _).
  { unfold NTFS_MFT_RECSZ. lia. }
  by rewrite E in E'.
Qed.

Lemma full_bitmap_ok len n : 0 <= n <= 8 * len → ∃ b, full_bitmap len n = Ok b ∧ Z.of_nat (length b) = len.
Proof.
  intros H. unfold full_bitmap. destruct (bmp_mark_spec (Z.to_nat n) (replicate (Z.to_nat len) 0) 0) as (b & -> & L & _);
    [lia|rewrite length_replicate; lia|]. exists b. split; [done|]. rewrite L, length_replicate. lia.
Qed.

Section index_dir.
Context {D : Type} `{HI : Image D} (upcase : Z → Z) (qsort : list idx_entry_t → list idx_entry_t).
Context (Hq : ∀ l, qsort l ≡ₚ l ∧ Sorted (λ a b, idx_cmp upcase a b <= 0) (qsort l)).
Context (low : Z → Prop) (w : ntfs_writer) (d : D) (rs : runs) (sum big k : Z) (i : Z) (r : mftrec_t) (al : list attr).
Context (Ha : alloc_low low w rs sum big) (Ho : on_image w) (Hd : img_ok d) (Ht : tracks i r al) (He : early al).
Let n := Z.of_nat (length (r_entries r)).
Context (Hu : r_used r + 0x68 <= NTFS_MFT_RECSZ) (Hn32 : n < 2 ^ 32) (Hwf : Forall idx_wf (r_entries r)) (Hnd : NoDup (names upcase (r_entries r))).
Context (Hbig : 4 * n <= big) (Hcap : mft_zone_end w + sum + 4 * n + big + 1 <= 8 * Z.of_nat (length (clbmp w))).
Context (Hk : 0 <= k) (Hlive : img_live (4 * n * cluster_size + k) d).

(** The run of a large index, and its bitmap, in the record or in clusters of its
    own; one of them does not fit only when the record was nearly full. *)
Lemma index_attrs_ok w1 d1 rs1 r1 al1 lcn blocks :
  alloc_low low w1 rs1 (sum + blocks) big → on_image w1 → img_ok d1 → same_volume w w1 →
  tracks i r1 al1 → 0 < blocks → blocks <= 3 * n → 0 <= lcn < 2 ^ 63 →
  img_live (n * cluster_size + k) d1 →
  (index_attrs w1 d1 r1 lcn blocks = Err (-1) ∧ 823 < r_used r1) ∨
  ∃ r2 w2 d2 rs2 s2 al2, index_attrs w1 d1 r1 lcn blocks = Ok (r2, w2, d2) ∧
    alloc_low low w2 rs2 (sum + s2) big ∧ 0 <= s2 <= 4 * n ∧ on_image w2 ∧ img_ok d2 ∧ img_live k d2 ∧
    rec w2 = rec w1 ∧ grows w1 (img_view d1) rs1 w2 (img_view d2) rs2 ∧
    tracks i r2 al2 ∧ same_meta r1 r2 ∧
    (∃ a b, al2 = al1 ++ [a; b] ∧ a_type a = NTFS_AT_INDEX_ALLOCATION ∧ a_name a = I30 ∧ a_type b = NTFS_AT_BITMAP ∧
       ∃ x1 x2 x3 x4, a_body a = Nonres lcn blocks x1 x2 x3 x4).
Proof using HI Hbig Hcap Hk Hn32.
  intros A1 O1 D1 S1 T1 Hb Hb3 Hlcn L1. unfold index_attrs.
  assert (0 < blocks < 2 ^ 63) as Hb63 by lia. pose proof (nonres_len_I30 blocks lcn ltac:(lia) Hlcn) as Hnl.
  set (sz := u64 (blocks * NTFS_INDX_SIZE)). assert (is_u64 sz) as Hsz by apply u64_range.
  assert (type_ok NTFS_AT_INDEX_ALLOCATION I30) as Hta by (by apply type_ok_I30; vm_compute).
  assert (type_ok NTFS_AT_BITMAP I30) as Htb by (by apply type_ok_I30; vm_compute).
  destruct (attr_nonres r1 NTFS_AT_INDEX_ALLOCATION I30 lcn blocks cluster_size sz sz 0) as [r2|] eqn:E2.
  2:{ left. split; [done|]. pose proof (nonres_refused i r1 al1 _ lcn blocks cluster_size sz sz 0 T1 Hta Hlcn Hb63 Hsz Hsz ltac:(by vm_compute) E2). lia. }
  destruct (nonres_done i r1 al1 NTFS_AT_INDEX_ALLOCATION I30 lcn blocks cluster_size sz sz 0 r2 T1) as (T2 & M2 & U2 & U2');
    [done|lia|lia|done|done|by vm_compute|done|]. cbn [must mbind outcome_bind].
  destruct (rep_facts _ _ _ (proj1 T2)) as (U20 & _). unfold NTFS_MFT_RECSZ in U2'.
  rewrite (u64_small (blocks + 7)) by lia. assert (0 < (blocks + 7) / 8 < 2 ^ 31 - 6000) as Hbm by dlia. rewrite (u32_small ((blocks + 7) / 8)) by lia.
  set (bm := (blocks + 7) / 8) in *. destruct (align8u_spec bm ltac:(lia)) as [Al1 Al2].
  destruct (full_bitmap_ok (align8u bm) blocks) as (rbm & -> & Lr); [unfold bm in *; dlia|]. cbn [mbind outcome_bind].
  destruct (attr_resident r2 NTFS_AT_BITMAP I30 rbm 0) as [r3|] eqn:E3.
  - pose proof (attr_resident_small r2 NTFS_AT_BITMAP rbm 0 r3 ltac:(lia) ltac:(lia) E3) as Hsm.
    destruct (resident_done i r2 _ NTFS_AT_BITMAP I30 rbm 0 r3 T2 Htb ltac:(lia) ltac:(lia) E3) as (T3 & M3 & _).
    right. exists r3, w1, d1, rs1, blocks. eexists. split; [reflexivity|]. split_and!; [done|lia|lia|done|done| |done|apply grows_refl| | |].
    + eapply img_live_le; [exact L1|unfold cluster_size; lia].
    + rewrite <- app_assoc in T3. exact T3.
    + by eapply same_meta_trans.
    + eexists _, _. split; [reflexivity|]. split_and!; try done. by do 4 eexists.
  - set (bc := (bm + cluster_size - 1) / cluster_size). assert (u64 (bm + cluster_size - 1) / cluster_size = bc) as -> by (unfold bc, cluster_size; rewrite u64_small by lia; done).
    assert (0 < bc ∧ bm <= bc * cluster_size ∧ bc <= n ∧ bc < 2 ^ 31) as (C1 & C2 & C3 & C4) by (unfold bc, bm, cluster_size in *; dlia).
    assert (Hs := S1). destruct Hs as (_ & _ & _ & Z1 & _ & _ & Z2).
    destruct (full_bitmap_ok (u64 (bc * cluster_size)) blocks) as (b & Eb & Lb);
      [unfold cluster_size in *; rewrite u64_small by lia; unfold bm in *; dlia|].
    rewrite (u64_small (bc * cluster_size)) in Eb, Lb by (unfold cluster_size in *; lia).
    destruct (run_put low w1 d1 rs1 (sum + blocks) big bc k A1 O1 D1 ltac:(lia) ltac:(rewrite Z1, Z2; lia) (λ base, [(base, b)]) Hk)
      as (bl & w2 & d2 & Ea & Ecb & Ep & A2 & S2 & O2 & R1 & R2 & R3 & R4 & R5 & D2 & L2 & Hbl & Hfit & _ & Hruns).
    { eapply img_live_le; [exact L1|unfold cluster_size in *; lia]. }
    { intros base _ _. split; [constructor; [cbn [fst snd]; lia|constructor]|unfold writes_len; cbn [foldr snd]; lia]. }
    rewrite Ea. cbn [opt mbind outcome_bind]. rewrite (u64_small (bc * cluster_size)) by (unfold cluster_size in *; lia). rewrite Eb.
    cbn [mbind outcome_bind]. rewrite Ecb, Ep. cbn [opt mbind outcome_bind].
    assert (0 <= bl < 2 ^ 63) as Hbl63 by (destruct O1; unfold OFF_MAX, cluster_size in *; lia).
    assert (is_u64 bm) as Hbm64 by (unfold is_u64; lia).
    destruct (attr_nonres r2 NTFS_AT_BITMAP I30 bl bc cluster_size bm bm 0) as [r3|] eqn:E4.
    2:{ left. split; [done|]. pose proof (nonres_refused i r2 _ NTFS_AT_BITMAP bl bc cluster_size bm bm 0 T2 Htb Hbl63 ltac:(lia) Hbm64 Hbm64 ltac:(by vm_compute) E4). lia. }
    destruct (nonres_done i r2 _ NTFS_AT_BITMAP I30 bl bc cluster_size bm bm 0 r3 T2) as (T3 & M3 & _);
      [done|done|lia|done|done|by vm_compute|done|].
    cbn [must mbind outcome_bind]. right. exists r3, w2, d2, ((bl, bc) :: rs1), (blocks + bc). eexists. split; [reflexivity|].
    rewrite Z.add_assoc. split_and!; [done|lia|lia|done|done|done|done| | | |].
    + constructor; [done|by exists [(bl, bc)]|exact Hruns|done|done].
    + rewrite <- app_assoc in T3. exact T3.
    + by eapply same_meta_trans.
    + eexists _, _. split; [reflexivity|]. split_and!; try done. by do 4 eexists.
Qed.

(** The record after the close's work on it: [al'] its attributes. *)
Definition dir_done (m : mem) (w' : ntfs_writer) (rs' : runs) (r' : mftrec_t) (al' : list attr) : Prop :=
  tracks i r' al' ∧ (∃ more, al' = al ++ more ∧ Forall (λ a, NTFS_AT_DATA < a_type a) more) ∧
  r_seq r' = r_seq r ∧ r_flags r' = r_flags r ∧ r_link_count r' = r_link_count r ∧ r_is_dir r' = r_is_dir r ∧ r_base_ref r' = r_base_ref r ∧ r_ov r' = r_ov r ∧
  r_entries r' ≡ₚ r_entries r ∧ indexed upcase w' m rs' (r_entries r) al' ∧
  a_body <$> find_attr NTFS_AT_REPARSE_POINT [] al' = (λ b, Resident b 0) <$> r_reparse r.

(** The index of the sorted entries, [srt]. *)
Section built.
Context (srt : list idx_entry_t) (x : dirindex) (h : nat).
Context (Hp : srt ≡ₚ r_entries r) (Hs : StronglySorted (before (folded upcase)) (map payload (map leaf_in srt))).
Context (X : index_ok (r_used r) (Z.of_nat (length srt)) x).
Context (Hbody : body (node_table (i_specs x)) h (i_ents x) (i_end x) (map payload (map leaf_in srt))) (Hlarge : i_large x = negb (Nat.eqb h 0)).

Lemma length_srt : Z.of_nat (length srt) = n.
Proof using Hp. unfold n. by rewrite Hp. Qed.

(** The state after the blocks of a large index went out. *)
Definition tree_placed (lcn : Z) (w1 : ntfs_writer) (d1 : D) (rs1 : runs) (s1 : Z) : Prop :=
  rec w1 = rec w ∧ grows w (img_view d) rs w1 (img_view d1) rs1 ∧ alloc_low low w1 rs1 (sum + s1) big ∧ on_image w1 ∧ img_ok d1 ∧ 0 <= s1 <= 3 * n ∧
  if i_large x then img_live (n * cluster_size + k) d1 ∧ s1 = i_blocks x ∧ 0 <= lcn < 2 ^ 63 ∧ (lcn, i_blocks x) ∈ rs1 ∧ 0 <= cluster_byte w1 lcn ∧
    holds (img_view d1) (map (emit_indx (cluster_byte w1 lcn)) (i_specs x)) else img_live k d1.

Lemma blocks_placed : ∃ lcn w1 d1 rs1 s1,
  (if i_large x then place_blocks w d (i_specs x) (i_blocks x) else Ok (0, w, d)) = Ok (lcn, w1, d1) ∧ tree_placed lcn w1 d1 rs1 s1.
Proof using All.
  pose proof length_srt as Esn. unfold tree_placed.
  pose proof X as [X1 X2 X3 X4 Xb X5 X6 _ X8]. rewrite Esn in X5. destruct (i_large x) eqn:Elarge.
  2:{ exists 0, w, d, rs, 0. rewrite Z.add_0_r. split_and!; try done; [apply grows_refl|lia|]. eapply img_live_le; [exact Hlive|unfold cluster_size; lia]. }
  assert (Z.of_nat (length (i_specs x)) <= 2 ^ 62) as Hlen by lia.
  destruct (run_put low w d rs sum big (i_blocks x) (n * cluster_size + k) Ha Ho Hd ltac:(lia) ltac:(lia) (λ base, map (emit_indx base) (i_specs x)))
    as (lcn & w1 & d1 & Ea & Eb & Ep & A1 & S1 & O1 & R1 & R2 & R3 & R4 & R5 & D1 & L1 & Hl0 & Hfit & Hv & Hruns).
  { unfold cluster_size in *; lia. }
  { eapply img_live_le; [exact Hlive|unfold cluster_size; lia]. }
  { intros base B1 B2. rewrite (emit_len (2 ^ 62) ltac:(lia) (i_specs x) X3 X4 Hlen). unfold NTFS_INDX_SIZE, cluster_size. split; [|lia].
    apply list.Forall_forall. intros ws Hws. destruct (emit_in_run _ _ _ _ _ X ltac:(lia) Hws) as (o & Q1 & Q2 & Q3). unfold cluster_size in Q3. lia. }
  set (base := part_off w + lcn * cluster_size) in *. assert (0 <= base) by (destruct Ho; unfold base, cluster_size in *; lia).
  exists lcn, w1, d1, ((lcn, i_blocks x) :: rs), (i_blocks x). unfold place_blocks. rewrite Ea. cbn [opt mbind outcome_bind]. rewrite Eb, Ep. cbn [opt mbind outcome_bind].
  split_and!; try done; try lia.
  - constructor; [done|by exists [(lcn, i_blocks x)]|exact Hruns|done|done].
  - destruct Ho. unfold base, OFF_MAX, cluster_size in *. lia.
  - apply list_elem_of_here.
  - apply list.Forall_forall. intros ws Hws. apply list_elem_of_fmap in Hws as (ns & -> & Hns). apply list_elem_of_lookup in Hns as [j Hj].
    rewrite (mread_ext _ (apply_writes (img_view d) (map (emit_indx base) (i_specs x)))) by (intros y _; apply Hv).
    cbn [emit_indx fst snd]. destruct (spec_block (2 ^ 62) ltac:(lia) (i_specs x) X3 X4 Hlen j ns Hj) as (_ & _ & E).
    replace (length (indx_block ns)) with (Z.to_nat NTFS_INDX_SIZE) by lia. by apply (emitted_block (2 ^ 62) ltac:(lia) (i_specs x) X3 X4 Hlen _ _ j).
Qed.

(** The root of the index has room; a large one leaves room for its run, unless
    the record was more than 728 bytes. *)
Lemma root_room : resident_len I30 (index_root x) + r_used r + 8 <= NTFS_MFT_RECSZ ∧ Z.of_nat (length (index_root x)) <= 1000 ∧
  (i_large x = true → r_used r <= 728 → r_used r + resident_len I30 (index_root x) <= 823).
Proof using X Hu Ht.
  clear - X Hu Ht. destruct (rep_facts _ _ _ (proj1 Ht)) as (U0 & _).
  pose proof (length_index_root _ _ _ X) as Eroot. pose proof (ix_fit _ _ _ X) as Hfit. pose proof (ix_root _ _ _ X) as Hbud.
  unfold NTFS_MFT_RECSZ in *.
  assert (free_now (r_used r) = 944 - r_used r) as Efree by (unfold free_now, NTFS_MFT_RECSZ; rewrite (proj2 (Z.ltb_lt _ _)) by lia; lia).
  assert (root_budget (r_used r) = Z.max 0 (752 - r_used r)) as Ebud by (unfold root_budget; rewrite Efree; destruct (Z.ltb_spec (0x60 + 0x60) (944 - r_used r)); lia).
  rewrite Efree in Hfit. rewrite Ebud in Hbud.
  pose proof (resident_len_I30 (index_root x) ltac:(lia)) as Hrl.
  split_and!; [lia|lia|]. intros E Hs. rewrite E in *. destruct (Hbud eq_refl) as [Hb|Hb]; [lia|].
  rewrite Hb in Eroot. change (body_size true []) with 24 in Eroot. lia.
Qed.

(** The run and the bitmap of a large index: the attributes [more]. *)
Lemma rest_placed lcn w1 d1 rs1 s1 r1 al1 : tree_placed lcn w1 d1 rs1 s1 → tracks i r1 al1 →
  (i_large x = true ∧ 823 < r_used r1 ∧ (if i_large x then index_attrs w1 d1 r1 lcn (i_blocks x) else Ok (r1, w1, d1)) = Err (-1)) ∨
  ∃ r2 w2 d2 rs2 s2 more, (if i_large x then index_attrs w1 d1 r1 lcn (i_blocks x) else Ok (r1, w1, d1)) = Ok (r2, w2, d2) ∧
    rec w2 = rec w1 ∧ grows w1 (img_view d1) rs1 w2 (img_view d2) rs2 ∧ alloc_low low w2 rs2 (sum + s2) big ∧ on_image w2 ∧ img_ok d2 ∧ img_live k d2 ∧ 0 <= s2 <= 4 * n ∧
    tracks i r2 (al1 ++ more) ∧ same_meta r1 r2 ∧ Forall (λ a, NTFS_AT_INDEX_ALLOCATION <= a_type a ∧ a_type a ≠ NTFS_AT_REPARSE_POINT) more ∧
    (if i_large x then ∃ x1 x2 x3 x4, a_body <$> find_attr NTFS_AT_INDEX_ALLOCATION I30 more = Some (Nonres lcn (i_blocks x) x1 x2 x3 x4)
     else more = [] ∧ r2 = r1).
Proof using All.
  intros (R1 & G1 & A1 & O1 & D1 & Hs1 & Hcase) T1. pose proof (ix_leaf _ _ _ X) as Hb. destruct (i_large x) eqn:Elarge.
  - destruct Hcase as (L1 & -> & Hlcn & _). pose proof (ix_count _ _ _ X) as Hcount. rewrite length_srt in Hcount.
    destruct (index_attrs_ok w1 d1 rs1 r1 _ lcn (i_blocks x) A1 O1 D1 (gr_vol _ _ _ _ _ _ G1) T1) as [[Hf Hu1]|(r2 & w2 & d2 & rs2 & s2 & al2 & Q1 & Q2 & Q3 & Q4 & Q5 & Q6 & Q7 & Q8 & Q9 & Q10 & (a & b & Q11 & Q12 & Q13 & Q14 & x1 & x2 & x3 & x4 & Q15))];
      [lia|lia|lia|done|by left|]. subst al2.
    right. exists r2, w2, d2, rs2, s2, [a; b]. split_and!; try done; try lia.
    + constructor; [by rewrite Q12|]. constructor; [by rewrite Q14|constructor].
    + exists x1, x2, x3, x4. unfold find_attr. rewrite filter_cons_True by (by split). cbn [head fmap option_fmap option_map]. by rewrite Q15.
  - right. exists r1, w1, d1, rs1, s1, []. rewrite app_nil_r. split_and!; try done; try lia; apply grows_refl.
Qed.

(** What the attributes up to the bitmap make of the directory. *)
Lemma built_indexed lcn w1 d1 rs1 s1 w2 d2 rs2 ra more last : tree_placed lcn w1 d1 rs1 s1 → grows w1 (img_view d1) rs1 w2 (img_view d2) rs2 →
  a_type ra = NTFS_AT_INDEX_ROOT → a_name ra = I30 → a_body ra = Resident (index_root x) 0 →
  (if i_large x then ∃ x1 x2 x3 x4, a_body <$> find_attr NTFS_AT_INDEX_ALLOCATION I30 more = Some (Nonres lcn (i_blocks x) x1 x2 x3 x4) else True) →
  indexed upcase w2 (img_view d2) rs2 (r_entries r) (al ++ ra :: more ++ last).
Proof using All.
  intros (R1 & G1 & A1 & O1 & D1 & Hs1 & Hcase) G2 Ra1 Ra2 Ra3 Hmore. pose proof length_srt as Esn. destruct (rep_facts _ _ _ (proj1 Ht)) as (U0 & _).
  apply (indexed_grows _ w1 (img_view d1) rs1); [exact G2|]. exists x, h, (r_used r), srt, lcn. split_and!; try done; try lia.
  - rewrite find_attr_early by (done || by vm_compute). unfold find_attr. rewrite filter_cons_True by (by split). cbn [head fmap option_fmap option_map]. by rewrite Ra3.
  - intros E. rewrite E in Hmore, Hcase. destruct Hmore as (x1 & x2 & x3 & x4 & Q). destruct Hcase as (_ & _ & _ & C1 & C2 & C3).
    split; [|by split_and!]. exists x1, x2, x3, x4. rewrite find_attr_early by (done || by vm_compute). unfold find_attr in *.
    rewrite filter_cons_False by (rewrite Ra1; by intros [? _]). rewrite filter_app. destruct (filter _ more) as [|a l]; [done|exact Q].
Qed.
End built.

(** The whole of [build_directory_index]: [-1], or the directory on the volume. *)
Lemma build_directory_index_ok :
  (build_directory_index qsort w d r = Err (-1) ∧ 728 < r_used r ∧ free_now (r_used r) < body_size false (map leaf_in (qsort (r_entries r)))) ∨
  ∃ r' w' d' rs' more, build_directory_index qsort w d r = Ok (r', w', d') ∧
    rec w' = rec w ∧ grows w (img_view d) rs w' (img_view d') rs' ∧ alloc_low low w' rs' (sum + 4 * n) big ∧ on_image w' ∧
    img_ok d' ∧ img_live k d' ∧ tracks i r' (al ++ more) ∧ same_meta (with_entries r (qsort (r_entries r))) r' ∧
    Forall (λ a, NTFS_AT_DATA < a_type a ∧ a_type a ≠ NTFS_AT_REPARSE_POINT) more ∧
    (∀ last, indexed upcase w' (img_view d') rs' (r_entries r) (al ++ more ++ last)) ∧
    (r_entries r = [] → r_used r' = r_used r + 80).
Proof using All.
  destruct (rep_facts _ _ _ (proj1 Ht)) as (U0 & _). destruct (Hq (r_entries r)) as [Hp Hsort]. unfold build_directory_index. set (srt := qsort (r_entries r)) in *.
  pose proof (length_srt srt Hp) as Esn.
  assert (Forall idx_wf srt) as Hwf' by (by rewrite Hp).
  assert (NoDup (names upcase srt)) as Hnd' by (unfold names in *; by rewrite Hp).
  destruct (plan_index_ok (r_used r) srt ltac:(lia) Hu Hwf' ltac:(lia)) as (x & Hx & X & h & Hbody & Hlarge).
  pose proof (sorted_before upcase _ Hsort Hnd') as Hs. cbn [with_entries r_entries r_used]. rewrite Hx. cbn zeta.
  set (r0 := with_entries r srt). assert (tracks i r0 al) as T0 by exact Ht.
  destruct (blocks_placed srt x h Hp Hs X Hbody Hlarge) as (lcn & w1 & d1 & rs1 & s1 & -> & P). cbn [mbind outcome_bind].
  destruct (root_room srt x X) as (F1 & F2 & F3).
  destruct (append_resident i r0 al NTFS_AT_INDEX_ROOT I30 (index_root x) 0 T0) as (r1 & -> & T1 & M1 & U1);
    [by apply type_ok_I30; vm_compute|lia|lia|cbn [r0 with_entries r_used]; lia|]. cbn [must mbind outcome_bind]. cbn [r0 with_entries r_used] in U1.
  set (ra := resident_attr NTFS_AT_INDEX_ROOT I30 (index_root x) 0 (Z.of_nat (length al))) in *.
  assert (a_type ra = NTFS_AT_INDEX_ROOT ∧ a_name ra = I30 ∧ a_body ra = Resident (index_root x) 0) as (Ra1 & Ra2 & Ra3) by done. clearbody ra.
  destruct (rest_placed srt x h Hp Hs X Hbody Hlarge lcn w1 d1 rs1 s1 r1 _ P T1) as [(El & Hu1 & ->)|(r2 & w2 & d2 & rs2 & s2 & more & -> & R2 & G2 & A2 & O2 & D2 & L2 & Hs2 & T2 & M2 & Hlate & Hmore)].
  { left. split; [done|]. specialize (F3 El). split; [lia|]. unfold plan_index in Hx. fold srt.
    destruct (Z.leb_spec (body_size false (map leaf_in srt)) (free_now (r_used r))); [injection Hx as <-; discriminate El|lia]. }
  right. exists r2, w2, d2, rs2, (ra :: more). pose proof P as (R1 & G1 & _). rewrite <- app_assoc in T2. split; [reflexivity|].
  split; [congruence|]. split; [by eapply grows_trans|]. split; [apply (alloc_ok_more _ _ _ (sum + s2)); [lia|done]|]. do 4 (split; [done|]).
  split; [by eapply same_meta_trans|]. split; [|split].
  - constructor; [by rewrite Ra1|]. eapply Forall_impl; [exact Hlate|]. cbn beta. intros a [Hx1 Hx2]. split; [|done]. unfold NTFS_AT_INDEX_ALLOCATION, NTFS_AT_DATA in *. lia.
  - intros last. apply (built_indexed srt x h Hp Hs X Hbody Hlarge lcn w1 d1 rs1 s1); try done. destruct (i_large x); [done|exact I].
  - intros Er. assert (srt = []) as Es by (apply (Permutation_nil_r srt); by rewrite Hp, Er).
    rewrite Es in Hx. unfold plan_index in Hx. cbn [map] in Hx. change (body_size false []) with 16 in Hx. unfold NTFS_MFT_RECSZ in Hu.
    rewrite (proj2 (Z.leb_le _ _)) in Hx by (unfold free_now, NTFS_MFT_RECSZ; rewrite (proj2 (Z.ltb_lt _ _)); lia). injection Hx as <-. destruct Hmore as [_ ->].
    rewrite U1. reflexivity.
Qed.

(** The reparse point of an empty directory is its last attribute. *)
Lemma reparse_last r2 al2 : tracks i r2 al2 → r_reparse r2 = r_reparse r → find_attr NTFS_AT_REPARSE_POINT [] al2 = None →
  (∀ b, r_reparse r = Some b → Z.of_nat (length b) <= 1000 ∧ r_used r2 + resident_len [] b + 8 <= NTFS_MFT_RECSZ) →
  ∃ r3 last, (match r_reparse r2 with None => Ok r2 | Some b => must (-1) (attr_resident r2 NTFS_AT_REPARSE_POINT [] b 0) end) = Ok r3 ∧
    tracks i r3 (al2 ++ last) ∧ same_meta r2 r3 ∧ Forall (λ a, NTFS_AT_DATA < a_type a) last ∧
    a_body <$> find_attr NTFS_AT_REPARSE_POINT [] (al2 ++ last) = (λ b, Resident b 0) <$> r_reparse r.
Proof using All.
  intros T -> Hnone Hfit. destruct (r_reparse r) as [b|] eqn:Erp.
  - destruct (Hfit b eq_refl) as [F1 F2]. destruct (append_resident i r2 _ NTFS_AT_REPARSE_POINT [] b 0 T) as (r3 & -> & T3 & M3 & U3);
      [by apply type_ok_plain; vm_compute|lia|lia|lia|]. eexists r3, _. split; [reflexivity|]. split; [exact T3|]. split; [exact M3|].
    split; [constructor; [by vm_compute|constructor]|]. unfold find_attr in *. rewrite filter_app. destruct (filter _ al2); [|done].
    rewrite filter_cons_True by done. reflexivity.
  - exists r2, []. rewrite app_nil_r. split; [reflexivity|]. split; [exact T|]. split; [done|]. split; [constructor|]. by rewrite Hnone.
Qed.

(** A record with the room [dir_room] asks for. *)
Lemma index_dir_ok : get_rec w i = Some r → dir_room r = true → ∃ w' d' rs' r' al', index_dir qsort w d i = Ok (put_rec w' i r', d') ∧
  rec w' = rec w ∧ grows w (img_view d) rs w' (img_view d') rs' ∧ alloc_low low w' rs' (sum + 4 * n) big ∧ on_image w' ∧
  img_ok d' ∧ img_live k d' ∧ dir_done (img_view d') w' rs' r' al'.
Proof using All.
  intros Hr Hrm. unfold dir_room in Hrm. apply andb_prop in Hrm as [Hr1 Hr3]. apply andb_prop in Hr1 as [Hr1 _]. zbool.
  unfold index_dir. rewrite Hr. cbn [opt mbind outcome_bind].
  destruct build_directory_index_ok as [(_ & ? & _)|(r2 & w2 & d2 & rs2 & more & -> & R2 & G2 & A2 & O2 & D2 & L2 & T2 & M2 & Hlate & Hix & Hempty)]; [lia|].
  destruct M2 as (N1 & N2 & N3 & N4 & N5 & N6 & N7 & N8). cbn [with_entries r_seq r_flags r_link_count r_is_dir r_entries r_reparse r_ov r_base_ref] in *.
  cbn [mbind outcome_bind].
  destruct (reparse_last r2 _ T2 N6) as (r3 & last & -> & T3 & M3 & Hlast & Hrep).
  { rewrite find_attr_early by (done || by vm_compute). unfold find_attr. rewrite filter_none; [done|].
    eapply Forall_impl; [exact Hlate|]. by intros a [_ Hx1] [Hx2 _]. }
  { intros b Eb. rewrite Eb in Hr3. apply andb_prop in Hr3 as [Hr3 Hb3]. apply andb_prop in Hr3 as [Hr3 Hb2]. apply Nat.eqb_eq in Hr3. zbool. split; [lia|].
    rewrite Hempty by (by destruct (r_entries r)). exact Hb2. }
  cbn [mbind outcome_bind]. exists w2, d2, rs2, r3, (al ++ more ++ last). split; [reflexivity|].
  rewrite <- app_assoc in T3, Hrep. destruct M3 as (P1 & P2 & P3 & P4 & P5 & P6 & P7 & P8). destruct (Hq (r_entries r)) as [Hp _].
  do 6 (split; [done|]). split; [exact T3|]. split.
  { exists (more ++ last). split; [done|]. apply Forall_app. split; [|done]. eapply Forall_impl; [exact Hlate|]. by intros a [? _]. }
  split_and!; [congruence..|by rewrite P5, N5|apply Hix|exact Hrep].
Qed.
End index_dir.

(** ** Every directory *)

(** A directory that can be indexed. *)
Definition dir_ready (upcase : Z → Z) (i : Z) (r : mftrec_t) : Prop :=
  dir_room r = true ∧ Forall idx_wf (r_entries r) ∧ NoDup (names upcase (r_entries r)) ∧ ∃ al, tracks i r al ∧ early al.

Definition dir_need (r : mftrec_t) : Z := if r_is_dir r then 4 * Z.of_nat (length (r_entries r)) else 0.
Definition dirs_need (l : list mftrec_t) : Z := foldr (λ r z, dir_need r + z) 0 l.

Lemma dir_need_nonneg r : 0 <= dir_need r.
Proof. unfold dir_need. destruct (r_is_dir r); lia. Qed.
Lemma dirs_need_nonneg l : 0 <= dirs_need l.
Proof. induction l as [|r l IH]; [done|]. unfold dirs_need in *. cbn [foldr]. pose proof (dir_need_nonneg r). lia. Qed.

Lemma dir_done_grows upcase i r al m w rs r' al' m2 w2 rs2 : grows w m rs w2 m2 rs2 → dir_done upcase i r al m w rs r' al' → dir_done upcase i r al m2 w2 rs2 r' al'.
Proof. intros G (H1 & H2 & H3 & H4 & H5 & H6 & H7 & H8 & H9 & H10 & H11). split_and!; try assumption. by eapply indexed_grows. Qed.

(** Record [j] after the indexes: a directory of the range is indexed, all else
    is as it was. *)
Definition rec_indexed (upcase : Z → Z) (m : mem) (w' : ntfs_writer) (rs' : runs) (j : Z) (here : bool) (r : mftrec_t) : Prop :=
  ∃ r', get_rec w' j = Some r' ∧
    if r_is_dir r && here then ∃ al al', tracks j r al ∧ early al ∧ dir_done upcase j r al m w' rs' r' al' else r' = r.

Section index_dirs.
Context {D : Type} `{HI : Image D} (upcase : Z → Z) (qsort : list idx_entry_t → list idx_entry_t).
Context (Hq : ∀ l, qsort l ≡ₚ l ∧ Sorted (λ a b, idx_cmp upcase a b <= 0) (qsort l)).
Context (low : Z → Prop) (big k : Z) (Hk : 0 <= k).

Lemma index_dirs_ok l : ∀ w d rs sum i,
  drop (Z.to_nat i) (rec w) = l → 0 <= i →
  alloc_low low w rs sum big → on_image w → img_ok d →
  (∀ j r, l !! j = Some r → r_is_dir r = true → dir_ready upcase (i + Z.of_nat j) r) →
  dirs_need l <= big → mft_zone_end w + sum + dirs_need l + big + 1 <= 8 * Z.of_nat (length (clbmp w)) →
  img_live (dirs_need l * cluster_size + k) d →
  ∃ w' d' rs', index_dirs qsort (length l) w d i = Ok (w', d') ∧ grows w (img_view d) rs w' (img_view d') rs' ∧
    alloc_low low w' rs' (sum + dirs_need l) big ∧ on_image w' ∧ img_ok d' ∧ img_live k d' ∧ length (rec w') = length (rec w) ∧
    ∀ j r, 0 <= j → get_rec w j = Some r → rec_indexed upcase (img_view d') w' rs' j (i <=? j) r.
Proof using All.
  induction l as [|r l IH]; intros w d rs sum i El Hi Ha Ho Hd Hready Hbig Hcap Hlive.
  { exists w, d, rs. cbn [length index_dirs dirs_need foldr] in *. rewrite Z.add_0_r. split_and!; try done; [apply grows_refl|].
    intros j r Hj Hr. exists r. split; [done|]. rewrite (proj2 (Z.leb_gt _ _)), andb_false_r; [done|].
    apply lookup_lt_Some in Hr. assert (length (rec w) <= Z.to_nat i)%nat by (by apply drop_nil_inv). lia. }
  assert (get_rec w i = Some r) as Hr.
  { unfold get_rec. rewrite <- (Nat.add_0_r (Z.to_nat i)), <- lookup_drop, El. done. }
  assert (drop (Z.to_nat (i + 1)) (rec w) = l) as El'.
  { replace (Z.to_nat (i + 1)) with (Z.to_nat i + 1)%nat by lia. rewrite <- drop_drop, El. done. }
  cbn [length index_dirs]. rewrite Hr. pose proof (dirs_need_nonneg l) as Hn0. pose proof (dir_need_nonneg r) as Hr0.
  unfold dirs_need in Hbig, Hcap, Hlive |- *. cbn [foldr] in *. fold (dirs_need l) in *.
  assert (∀ j r0, l !! j = Some r0 → r_is_dir r0 = true → dir_ready upcase (i + 1 + Z.of_nat j) r0) as Hready'.
  { intros j r0 Hj Hdir. replace (i + 1 + Z.of_nat j) with (i + Z.of_nat (S j)) by lia. by apply Hready. }
  unfold dir_need in *. destruct (r_is_dir r) eqn:Edir.
  - destruct (Hready 0%nat r eq_refl Edir) as (R1 & R2 & R3 & al & R4 & R5). rewrite Z.add_0_r in R4.
    set (n := Z.of_nat (length (r_entries r))) in *.
    destruct (index_dir_ok upcase qsort Hq low w d rs sum big (dirs_need l * cluster_size + k) i r al Ha Ho Hd R4 R5)
      as (w2 & d2 & rs2 & r' & al' & -> & E2 & G2 & A2 & O2 & D2 & L2 & Hdone);
      [by apply dir_room_spec|by apply dir_room_spec|done|done|fold n; lia|fold n; lia|unfold cluster_size; lia|eapply img_live_le; [exact Hlive|fold n; lia]|done|done|].
    cbn [mbind outcome_bind]. set (w3 := put_rec w2 i r').
    assert (grows w (img_view d) rs w3 (img_view d2) rs2) as G3 by (apply grows_rec; [done|by destruct (gr_sec _ _ _ _ _ _ G2) as (_ & _ & ->)]).
    assert (rec w3 = <[Z.to_nat i := r']> (rec w)) as E3 by (unfold w3, put_rec; cbn [set_rec rec]; by rewrite E2).
    destruct (gr_vol _ _ _ _ _ _ G3) as (_ & _ & _ & Z1 & _ & _ & Z2). fold n in A2.
    destruct (IH w3 d2 rs2 (sum + 4 * n) (i + 1)) as (w' & d' & rs' & -> & G & A & O & Dk & L & Elen & Hall).
    { rewrite E3, drop_insert_lt by lia. exact El'. }
    { lia. }
    { by apply (alloc_ok_same _ w2). }
    { exact O2. } { exact D2. } { exact Hready'. } { lia. } { rewrite Z1, Z2. lia. } { exact L2. }
    exists w', d', rs'. rewrite Z.add_assoc. split_and!; try done; [by eapply grows_trans|by rewrite Elen, E3, length_insert|].
    intros j rj Hj Hrj. destruct (decide (j = i)) as [->|Hne].
    + rewrite Hr in Hrj. injection Hrj as <-.
      destruct (Hall i r' Hj) as (r2 & H1 & H2).
      { unfold get_rec. rewrite E3. apply list_lookup_insert_eq. by eapply lookup_lt_Some. }
      rewrite (proj2 (Z.leb_gt (i + 1) i)), andb_false_r in H2 by lia. subst r2. exists r'. split; [done|].
      rewrite Edir, (proj2 (Z.leb_le i i)) by lia. cbn [andb]. exists al, al'. split; [done|]. split; [done|].
      apply (dir_done_grows upcase i r al (img_view d2) w3 rs2); [done|]. apply (dir_done_grows upcase i r al (img_view d2) w2 rs2); [|done].
      apply grows_rec; [apply grows_refl|done].
    + destruct (Hall j rj Hj) as (r2 & H1 & H2); [unfold get_rec in *; rewrite E3, list_lookup_insert_ne by lia; done|].
      exists r2. split; [done|]. replace (i <=? j) with (i + 1 <=? j) by (destruct (Z.leb_spec i j), (Z.leb_spec (i + 1) j); lia). exact H2.
  - destruct (IH w d rs sum (i + 1) El') as (w' & d' & rs' & -> & G & A & O & Dk & L & Elen & Hall); try done; try lia.
    exists w', d', rs'. cbn [Z.add]. split_and!; try done. intros j rj Hj Hrj. destruct (Hall j rj Hj Hrj) as (r2 & H1 & H2). exists r2. split; [done|].
    destruct (decide (j = i)) as [->|Hne].
    + rewrite Hr in Hrj. injection Hrj as <-. rewrite Edir in *. exact H2.
    + replace (i <=? j) with (i + 1 <=? j) by (destruct (Z.leb_spec i j), (Z.leb_spec (i + 1) j); lia). exact H2.
Qed.
End index_dirs.

(** ** A directory is found by name *)

(** C38. The index of a directory, found by name or refused.  In a writer whose
    allocator is consistent, with four clusters left per name, on a device that
    can take them, and for a directory record with at least 0x68 bytes free:
    [build_directory_index] gives up with -1 only when the record was more than
    728 bytes long and the names do not fit in it.  Otherwise it adds attributes
    to the record, leaves every run of the volume as it was, and a driver's
    descent from the [$INDEX_ROOT] just added through the blocks of the run in
    [$INDEX_ALLOCATION] (checked against their sequence numbers, entries compared
    with the volume's collation) finds the reference of every name of the
    directory, whatever its case, and finds nothing for every other name. *)
Theorem ntfs_index_search {D} `{HI : Image D} upcase qsort low w (d : D) rs sum big k i r al :
  (∀ l, qsort l ≡ₚ l ∧ Sorted (λ a b, idx_cmp upcase a b <= 0) (qsort l)) →
  alloc_low low w rs sum big → on_image w → img_ok d → tracks i r al → early al →
  let n := Z.of_nat (length (r_entries r)) in
  r_used r + 0x68 <= NTFS_MFT_RECSZ → n < 2 ^ 32 → Forall idx_wf (r_entries r) → NoDup (names upcase (r_entries r)) →
  4 * n <= big → mft_zone_end w + sum + 4 * n + big + 1 <= 8 * Z.of_nat (length (clbmp w)) →
  0 <= k → img_live (4 * n * cluster_size + k) d →
  (build_directory_index qsort w d r = Err (-1) ∧ 728 < r_used r ∧ free_now (r_used r) < body_size false (map leaf_in (qsort (r_entries r)))) ∨
  ∃ r' w' d' rs' more root base h,
    build_directory_index qsort w d r = Ok (r', w', d') ∧ tracks i r' (al ++ more) ∧
    grows w (img_view d) rs w' (img_view d') rs' ∧ alloc_low low w' rs' (sum + 4 * n) big ∧ img_live k d' ∧
    a_body <$> find_attr NTFS_AT_INDEX_ROOT I30 (al ++ more) = Some (Resident root 0) ∧
    (∀ lcn c x1 x2 x3 x4, a_body <$> find_attr NTFS_AT_INDEX_ALLOCATION I30 (al ++ more) = Some (Nonres lcn c x1 x2 x3 x4) → base = cluster_byte w' lcn) ∧
    (∀ e key, e ∈ r_entries r → folded upcase key = folded upcase (x_key e) →
       lookup_dir h upcase (img_view d') base root key = Some (Some (x_ref e))) ∧
    (∀ key, folded upcase key ∉ names upcase (r_entries r) → lookup_dir h upcase (img_view d') base root key = Some None).
Proof.
  intros Hq Ha Ho Hd Ht He n Hu Hn Hwf Hnd Hbig Hcap Hk Hlive.
  destruct (build_directory_index_ok upcase qsort Hq low w d rs sum big k i r al Ha Ho Hd Ht He Hu Hn Hwf Hnd Hbig Hcap Hk Hlive)
    as [Hf|(r' & w' & d' & rs' & more & E & _ & G & A & _ & _ & L & T & _ & _ & Hix & _)]; [by left|right].
  specialize (Hix []). rewrite app_nil_r in Hix. apply indexed_lookup in Hix as (root & h & srt & Hp & Hs & Hroot & Hlook).
  set (base := match a_body <$> find_attr NTFS_AT_INDEX_ALLOCATION I30 (al ++ more) with Some (Nonres lcn _ _ _ _ _) => cluster_byte w' lcn | _ => 0 end).
  assert (∀ lcn c x1 x2 x3 x4, a_body <$> find_attr NTFS_AT_INDEX_ALLOCATION I30 (al ++ more) = Some (Nonres lcn c x1 x2 x3 x4) → base = cluster_byte w' lcn) as Hbase
    by (intros; unfold base; by simplify_option_eq).
  specialize (Hlook base). destruct (lookup_listed upcase srt (r_entries r) Hp Hs) as [Hin Hout].
  exists r', w', d', rs', more, root, base, h. do 7 (split; [done|]).
  split; intros; (rewrite Hlook; [f_equal; by apply Hin || by apply Hout|intros; by eapply Hbase]).
Qed.

(** The root record of a fresh volume, and a record of 904 bytes. *)
Definition root_rec : mftrec_t := rec_new 5 (reserved_dir 5).
Definition full_rec : mftrec_t := default root_rec (attr_resident root_rec NTFS_AT_STANDARD_INFORMATION [] (replicate 824 0) 0).

(** In the latter three short names do not fit, nor does the run of their block. *)
Example index_refused :
  r_used full_rec = 904 ∧
  match ntfs_writer_open 2048 40001 [] with
  | Some w => build_directory_index demo_sort w ((λ _, 0) : mem) (with_entries full_rec demo_names) = Err (-1)
  | None => False
  end.
Proof. vm_compute. split; reflexivity. Qed.

Lemma many_wf : Forall idx_wf many_names.
Proof. apply Forall_map, list.Forall_forall. intros i Hi%elem_of_seqZ. split; [unfold is_u64; cbn [x_ref]; lia|cbn; lia]. Qed.

Lemma ntfs_index_search_witness : ∃ w r' w' d' root base h,
  ntfs_writer_open 2048 40001 [] = Some w ∧
  build_directory_index demo_sort w ((λ _, 0) : mem) (with_entries root_rec many_names) = Ok (r', w', d') ∧
  lookup_dir h ascii_upcase d' base root (key_of [88; 52; 50]) = Some (Some 142) ∧
  lookup_dir h ascii_upcase d' base root (key_of [88; 52]) = Some None.
Proof.
  destruct (ntfs_writer_open_ok 2048 40001 [] 320) as (w & Eo & V & _ & _ & _ & _ & Ez & _ & _ & Hb & _); [lia|lia|lia|].
  destruct (ntfs_index_search (D := mem) ascii_upcase demo_sort boot_only w (λ _, 0) [] 0 320 0 5 (with_entries root_rec many_names) [])
    as [(_ & Hu & _)|(r' & w' & d' & rs' & more & root & base & h & E & _ & _ & _ & _ & _ & _ & Hin & Hout)].
  - exact demo_sort_ok.
  - exact (vo_alloc _ _ _ _ V).
  - exact (vo_off _ _ _ _ V).
  - exact I.
  - split; [apply (rec_new_rep 5); vm_compute; split; congruence|reflexivity].
  - constructor.
  - vm_compute. congruence.
  - vm_compute. reflexivity.
  - exact many_wf.
  - apply (bool_decide_unpack (NoDup (names ascii_upcase many_names))). vm_compute. exact I.
  - vm_compute. congruence.
  - rewrite Ez. cbn [with_entries r_entries]. change (Z.of_nat (length many_names)) with 80. change ((40001 - 1) / 8 / 8) with 625. change ((40001 - 1) / 8) with 5000 in Hb. lia.
  - lia.
  - exact I.
  - exfalso. revert Hu. vm_compute. discriminate.
  - exists w, r', w', d', root, base, h. split; [exact Eo|]. split; [exact E|]. split.
    + apply (Hin (mkIdx 142 (key_of [120; 52; 50]))); [|vm_compute; reflexivity].
      apply (list_elem_of_lookup_2 _ 42). vm_compute. reflexivity.
    + apply Hout. apply (bool_decide_unpack (¬ (_ ∈ _))). vm_compute. exact I.
Defined.
