(* ===== verification/NtfsNamed.v ===== *)
(** * The names of the metafiles
      ([src/tools/iso-patch-mac/engine/ntfs.c]: the first step of
      [ntfs_writer_close])

    What [close_names] leaves: the root and [$Extend] named and with the
    metafiles among their entries, the three view indexes in place, and the rest
    of the volume as it was. *)

From Stdlib Require Import String.
From S2P Require Import Prelude Bytes WStr Outcome BlockIO ImageWrites NtfsCodec NtfsRecord Bitmap NtfsVolume NtfsAlloc NtfsTree NtfsMeta NtfsLinks NtfsClose NtfsSession NtfsSteps NtfsOpen.

(** ** Records of the metafiles *)

Lemma resident_pos name val : Z.of_nat (length name) <= 255 → Z.of_nat (length val) <= 60000 → 0 < resident_len name val.
Proof.
  intros H1 H2. unfold resident_len. destruct (align8u_spec (24 + 2 * Z.of_nat (length name)) ltac:(lia)) as [A1 A2].
  destruct (align8u_spec (align8u (24 + 2 * Z.of_nat (length name)) + Z.of_nat (length val)) ltac:(lia)) as [B1 B2]. lia.
Qed.

(** A record with no room used has no attribute. *)
Lemma empty_tracks n r al : tracks n r al → r_used r = 0x38 → al = [].
Proof.
  intros [(hd & bss & tl & Eb & El & Hh & Hal & Eu & Hu & Ei) _] H. destruct (concat_mod al bss Hal) as [_ M]. destruct al; [done|cbn [length] in M; lia].
Qed.

Definition info_attrs (disk_attrs sec_id : Z) (fn : list Z) : list attr :=
  [resident_attr NTFS_AT_STANDARD_INFORMATION [] (si disk_attrs sec_id) 0 0; resident_attr NTFS_AT_FILE_NAME [] fn 0 1].

Lemma info_tracks n r da sid fn : tracks n r [] → Z.of_nat (length fn) <= 255 →
  let r' := attrs r (info_ops da sid fn) in
  tracks n r' (info_attrs da sid fn) ∧ same_meta r r' ∧ r_used r' = 152 + resident_len [] fn.
Proof.
  intros T Hf. cbv zeta. unfold attrs, run_rops, info_ops. cbn [fold_left run_rop].
  assert (length (si da sid) = 72%nat) as Esi by apply length_std_info. unfold info_attrs. set (s := si da sid) in *. clearbody s.
  assert (r_used r = 56) as U by (destruct T as [_ ->]; reflexivity).
  destruct (add_plain n r [] NTFS_AT_STANDARD_INFORMATION s T) as (r1 & -> & T1 & M1 & U1); [by vm_compute|by vm_compute|lia|rewrite U; unfold NTFS_MFT_RECSZ; lia|].
  cbn [default from_option id]. assert (r_used r1 = 152) as U1' by (rewrite U1, U; unfold resident_len; by rewrite Esi).
  destruct (resident_len_bound fn ltac:(lia)) as [R1 R2].
  destruct (add_plain n r1 _ NTFS_AT_FILE_NAME fn T1) as (r2 & -> & T2 & M2 & U2); [by vm_compute|by vm_compute|lia|rewrite U1'; unfold NTFS_MFT_RECSZ; lia|].
  cbn [default from_option id]. split; [exact T2|]. split; [by eapply same_meta_trans|]. by rewrite U2, U1'.
Qed.

Lemma info_early da sid fn : early (info_attrs da sid fn).
Proof. repeat constructor; by vm_compute. Qed.

(** A reserved record as the session leaves it. *)
Record reserved_rec (i : Z) (r : mftrec_t) : Prop := {
  rv_tracks : tracks i r [];
  rv_seq : r_seq r = seq_of i;
  rv_flags : r_flags r = if reserved_dir i then 3 else 1;
  rv_links : r_link_count r = 1;
  rv_dir : r_is_dir r = reserved_dir i;
  rv_base : r_base_ref r = 0;
  rv_ov : r_ov r = [];
}.

Definition reserved_kept (w : ntfs_writer) : Prop := ∀ i, 0 <= i < 27 → ∃ r, get_rec w i = Some r ∧ reserved_rec i r.

Lemma session_reserved w rs sum big kinds : vol_ok w rs sum big → kinds_ok w (reserved_kinds ++ kinds) → reserved_kept w.
Proof.
  intros V K i Hi. unfold kinds_ok in K. assert (Z.to_nat i < length (rec w))%nat as Hlt by (pose proof (vo_count _ _ _ _ V) as [H _]; unfold nrec in H; lia).
  apply lookup_lt_is_Some in Hlt as [r Hr]. exists r. split; [exact Hr|]. pose proof (vo_recs _ _ _ _ V _ _ Hr) as Hok. rewrite Z2Nat.id in Hok by lia.
  destruct Hok as (H1 & H2 & H3 & _ & al & H5 & _ & _ & _ & H8). destruct (H8 ltac:(lia)) as (H9 & H10 & H11).
  assert (r_is_dir r = reserved_dir i) as Hd.
  { apply (f_equal (λ l, l !! Z.to_nat i)) in K. rewrite lookup_app_l in K by (unfold reserved_kinds; rewrite length_map, length_seqZ; lia).
    unfold reserved_kinds in K. change (map ?f) with (fmap f : list _ → list _) in K. rewrite !list_lookup_fmap, Hr, lookup_seqZ_lt in K by lia.
    cbn [fmap option_fmap option_map] in K. injection K as ->. f_equal. lia. }
  constructor; try done; [|by rewrite H3, Hd]. by rewrite (empty_tracks _ _ _ H5 H10) in H5.
Qed.

Lemma length_fname p a re da name : length (fname p a re da name) = (66 + 2 * length name)%nat.
Proof. unfold fname. by rewrite length_file_name. Qed.

(** ** What the step leaves alone *)

Definition same_rest (w w' : ntfs_writer) : Prop :=
  same_volume w w' ∧ next_lcn w' = next_lcn w ∧ clbmp w' = clbmp w ∧ sec w' = sec w ∧ cap_rec w' = cap_rec w ∧
  same_plan w w' ∧ length (rec w') = length (rec w).

Lemma same_rest_refl w : same_rest w w.
Proof. done. Qed.
Lemma same_rest_trans w1 w2 w3 : same_rest w1 w2 → same_rest w2 w3 → same_rest w1 w3.
Proof. unfold same_rest, same_volume, same_plan. intuition congruence. Qed.
Lemma same_rest_put w i r : same_rest w (put_rec w i r).
Proof. split_and!; try done. unfold put_rec. cbn [set_rec rec]. by rewrite length_insert. Qed.
Lemma same_rest_rpl w l : same_rest w (set_rpl w l).
Proof. done. Qed.
Lemma same_rest_put' w w' i r : same_rest w w' → same_rest w (put_rec w' i r).
Proof. intros H. eapply same_rest_trans; [exact H|apply same_rest_put]. Qed.

Lemma put_same w i r : get_rec w i = Some r → put_rec w i r = w.
Proof. intros H. unfold put_rec, set_rec, get_rec in *. rewrite list_insert_id by done. by destruct w. Qed.

Lemma upd_eq w i f r : get_rec w i = Some r → upd w i f = Ok (put_rec w i (f r)).
Proof. intros H. unfold upd. by rewrite H. Qed.

Lemma root_ref_eq w r : get_rec w NTFS_REC_ROOT = Some r → r_seq r = seq_of NTFS_REC_ROOT → ntfs_root_ref w = file_ref NTFS_REC_ROOT.
Proof. intros H E. unfold ntfs_root_ref, get_rec in *. rewrite H. unfold ref_of, file_ref. by rewrite E. Qed.

Lemma ref_of_eq i r : r_seq r = seq_of i → ref_of i r = file_ref i.
Proof. intros E. unfold ref_of, file_ref. by rewrite E. Qed.

(** ** The entries of the metafiles *)

Definition root_name (w : ntfs_writer) : list Z := fname (file_ref NTFS_REC_ROOT) 0 0 (root_attrs w) (lit ".").
Definition extend_name : list Z := fname (file_ref NTFS_REC_ROOT) 0 0 0x10000006 (lit "$Extend").
Definition sys_attrs (i : Z) : Z := if i =? 9 then 0x20000006 else if reserved_dir i then 0x10000006 else 0x06.
Definition sys_entry (x : Z * list Z) : idx_entry_t :=
  mkIdx (file_ref (fst x)) (fname (file_ref NTFS_REC_ROOT) 0 0 (sys_attrs (fst x)) (snd x)).
Definition root_entries (w : ntfs_writer) : list idx_entry_t := mkIdx (file_ref NTFS_REC_ROOT) (root_name w) :: map sys_entry sysf.
Definition ext_entry (x : Z * list Z) : idx_entry_t := mkIdx (file_ref (fst x)) (fname (file_ref NTFS_REC_EXTEND) 0 0 0x20000026 (snd x)).

Definition named_root (w : ntfs_writer) (r : mftrec_t) (es : list idx_entry_t) : mftrec_t :=
  with_entries (attrs r (info_ops (root_attrs w) (root_sec_id w) (root_name w))) (r_entries r ++ es).
Definition named_extend (r : mftrec_t) (es : list idx_entry_t) : mftrec_t :=
  with_entries (attrs r (info_ops 0x10000006 0x101 extend_name)) (r_entries r ++ es).

Lemma attrs_entries r ops : r_entries (attrs r ops) = r_entries r ∧ r_seq (attrs r ops) = r_seq r ∧ r_is_dir (attrs r ops) = r_is_dir r.
Proof.
  unfold attrs, run_rops. revert r. induction ops as [|op ops IH]; intros r; [done|]. cbn [fold_left].
  destruct (IH (default r (run_rop r op))) as (-> & -> & ->).
  destruct op; cbn [run_rop]; unfold attr_resident, attr_nonres, attr_insert_filename; repeat case_match; done.
Qed.

(** ** Step by step *)

Section names.
Context (w : ntfs_writer) (Hres : reserved_kept w).

Lemma close_root_ok r5 r11 : get_rec w NTFS_REC_ROOT = Some r5 → get_rec w NTFS_REC_EXTEND = Some r11 → r_seq r5 = seq_of NTFS_REC_ROOT →
  close_root w = Ok (put_rec (put_rec w NTFS_REC_ROOT (named_root w r5 [mkIdx (file_ref NTFS_REC_ROOT) (root_name w)]))
                       NTFS_REC_EXTEND (attrs r11 (info_ops 0x10000006 0x101 extend_name))).
Proof using.
  intros H5 H11 Hs. unfold close_root. rewrite (root_ref_eq w r5 H5 Hs). fold (root_name w). fold extend_name.
  rewrite (upd_eq _ _ _ _ H5). cbn [mbind outcome_bind].
  rewrite (dir_push_eq _ _ _ _ _ (get_put_eq _ _ _ _ H5)). cbn [opt mbind outcome_bind]. rewrite put_put.
  erewrite upd_eq by (rewrite get_put_ne by (by vm_compute); exact H11). unfold named_root.
  destruct (attrs_entries r5 (info_ops (root_attrs w) (root_sec_id w) (root_name w))) as (-> & _). reflexivity.
Qed.

Lemma push_sysf_one w1 r1 x r : get_rec w1 NTFS_REC_ROOT = Some r1 → r_seq r1 = seq_of NTFS_REC_ROOT →
  get_rec w1 (fst x) = Some r → r_seq r = seq_of (fst x) → r_is_dir r = reserved_dir (fst x) →
  push_sysf w1 x = Ok (put_rec w1 NTFS_REC_ROOT (with_entries r1 (r_entries r1 ++ [sys_entry x]))).
Proof using.
  intros Hr Hs Hrx Hsx Hdx. unfold push_sysf. rewrite Hrx. cbn [opt mbind outcome_bind].
  rewrite (root_ref_eq w1 r1 Hr Hs), (ref_of_eq _ _ Hsx), (dir_push_eq _ _ _ _ _ Hr), Hdx. reflexivity.
Qed.

(** The entries of the root, one metafile after the other. *)
Lemma push_sysf_ok l : ∀ w1 r1, Forall (λ x, 0 <= fst x < 27 ∧ fst x ≠ NTFS_REC_ROOT ∧
    ∃ r, get_rec w1 (fst x) = Some r ∧ r_seq r = seq_of (fst x) ∧ r_is_dir r = reserved_dir (fst x)) l →
  get_rec w1 NTFS_REC_ROOT = Some r1 → r_seq r1 = seq_of NTFS_REC_ROOT →
  each push_sysf w1 l = Ok (put_rec w1 NTFS_REC_ROOT (with_entries r1 (r_entries r1 ++ map sys_entry l))).
Proof using.
  induction l as [|x l IH]; intros w1 r1 Hl Hr Hs; cbn [each map].
  - rewrite app_nil_r. f_equal. symmetry. apply put_same. rewrite Hr. by destruct r1.
  - inversion Hl as [|? ? (Hx & Hne & r & Hrx & Hsx & Hdx) Hl']; subst. rewrite (push_sysf_one w1 r1 x r) by done. cbn [mbind outcome_bind].
    erewrite IH; [|clear IH|by apply (get_put_eq _ _ _ _ Hr)|done].
    + rewrite put_put. cbn [with_entries r_entries]. by rewrite <- app_assoc.
    + eapply Forall_impl; [exact Hl'|]. cbn beta. intros y (Hy & Hney & ry & Hry & H). split_and!; [lia|lia|done|]. exists ry. split; [|done].
      rewrite get_put_ne; [exact Hry|]. intros E. apply Hney. apply Z2Nat.inj in E; [by rewrite E|by vm_compute|lia].
Qed.

(** The three view indexes: named, and listed in [$Extend]. *)
Definition view_named (x : Z * list Z) (r : mftrec_t) : mftrec_t :=
  attrs (with_flags r (Z.lor (r_flags r) (Z.lor 0x04 0x08))) (info_ops 0x20000026 0x101 (fname (file_ref NTFS_REC_EXTEND) 0 0 0x20000026 (snd x))).

Lemma push_extf_one w1 r1 x r : get_rec w1 NTFS_REC_EXTEND = Some r1 → r_seq r1 = seq_of NTFS_REC_EXTEND → Z.to_nat NTFS_REC_EXTEND ≠ Z.to_nat (fst x) →
  get_rec w1 (fst x) = Some r → r_seq r = seq_of (fst x) →
  push_extf w1 x = Ok (put_rec (put_rec w1 (fst x) (view_named x r)) NTFS_REC_EXTEND (with_entries r1 (r_entries r1 ++ [ext_entry x]))).
Proof using.
  intros Hr Hs Hne Hrx Hsx. unfold push_extf. rewrite Hr. cbn [opt mbind outcome_bind]. rewrite (ref_of_eq _ _ Hs), (upd_eq _ _ _ _ Hrx). cbn [mbind outcome_bind].
  fold (view_named x r). rewrite (get_put_eq _ _ _ _ Hrx). cbn [opt mbind outcome_bind].
  assert (r_seq (view_named x r) = seq_of (fst x)) as Hv.
  { unfold view_named. set (ops := info_ops _ _ _). destruct (attrs_entries (with_flags r (Z.lor (r_flags r) (Z.lor 0x04 0x08))) ops) as (_ & -> & _). exact Hsx. }
  rewrite (ref_of_eq _ _ Hv). erewrite dir_push_eq by (rewrite get_put_ne by congruence; exact Hr). reflexivity.
Qed.

Lemma push_extf_ok l : ∀ w1 r1, Forall (λ x, 0 <= fst x < 27 ∧ fst x ≠ NTFS_REC_EXTEND ∧ ∃ r, get_rec w1 (fst x) = Some r ∧ r_seq r = seq_of (fst x)) l →
  NoDup (map fst l) → get_rec w1 NTFS_REC_EXTEND = Some r1 → r_seq r1 = seq_of NTFS_REC_EXTEND →
  ∃ w2, each push_extf w1 l = Ok w2 ∧ same_rest w1 w2 ∧ rpl w2 = rpl w1 ∧
    get_rec w2 NTFS_REC_EXTEND = Some (with_entries r1 (r_entries r1 ++ map ext_entry l)) ∧
    (∀ x r, x ∈ l → get_rec w1 (fst x) = Some r → get_rec w2 (fst x) = Some (view_named x r)) ∧
    (∀ i, 0 <= i → i ≠ NTFS_REC_EXTEND → i ∉ map fst l → get_rec w2 i = get_rec w1 i).
Proof using.
  induction l as [|x l IH]; intros w1 r1 Hl Hnd Hr Hs; cbn [each map].
  - exists w1. rewrite app_nil_r. split_and!; try done; [by destruct r1|]. intros x r Hx. by apply elem_of_nil in Hx.
  - inversion Hl as [|? ? (Hx & Hne & r & Hrx & Hsx) Hl']; subst. inversion Hnd as [|? ? Hnin Hnd']; subst.
    assert (Z.to_nat NTFS_REC_EXTEND ≠ Z.to_nat (fst x)) as Hne1 by (intros E; apply Hne; apply Z2Nat.inj in E; [done|by vm_compute|lia]).
    rewrite (push_extf_one w1 r1 x r) by done. cbn [mbind outcome_bind].
    set (w3 := put_rec (put_rec w1 (fst x) (view_named x r)) NTFS_REC_EXTEND (with_entries r1 (r_entries r1 ++ [ext_entry x]))).
    assert (∀ i, 0 <= i → i ≠ NTFS_REC_EXTEND → i ≠ fst x → get_rec w3 i = get_rec w1 i) as H3.
    { intros i Hi H1 H2. unfold w3. rewrite !get_put_ne; [done| |]; intros E; apply Z2Nat.inj in E; try lia; try congruence; by vm_compute. }
    destruct (IH w3 (with_entries r1 (r_entries r1 ++ [ext_entry x]))) as (w2 & -> & S & R & E1 & E2 & E3).
    { apply list.Forall_forall. intros y Hy. rewrite list.Forall_forall in Hl'. destruct (Hl' y Hy) as (Hy0 & Hy1 & ry & Hry & Hsy). split_and!; [lia|lia|done|].
      exists ry. split; [|done]. rewrite H3; [done|lia|done|]. intros E. apply Hnin. rewrite <- E. by apply list_elem_of_fmap_2. }
    { done. }
    { unfold w3. eapply get_put_eq. rewrite get_put_ne by congruence. exact Hr. }
    { done. }
    exists w2. split; [reflexivity|]. split; [eapply same_rest_trans; [|exact S]; unfold w3; by do 2 apply same_rest_put'|]. split; [by rewrite R|].
    split; [rewrite E1; cbn [with_entries r_entries]; by rewrite <- app_assoc|]. split.
    + intros y ry Hy Hry. apply elem_of_cons in Hy as [->|Hy].
      * rewrite Hrx in Hry. injection Hry as <-. rewrite E3; [|lia|done|done]. unfold w3. rewrite get_put_ne by done. by apply (get_put_eq _ _ _ _ Hrx).
      * apply E2; [done|]. rewrite list.Forall_forall in Hl'. destruct (Hl' y Hy) as (Hy0 & Hy1 & _). rewrite H3; [done|lia|done|].
        intros E. apply Hnin. rewrite <- E. by apply list_elem_of_fmap_2.
    + intros i Hi H1 H2. apply not_elem_of_cons in H2 as [H2 H4]. rewrite E3 by done. by apply H3.
Qed.
End names.

(** ** The view indexes *)

Lemma type_ok_check t name :
  (0 <=? t) && (t <? 2 ^ 32) && negb (t =? NTFS_AT_END) && forallb (λ u, (0 <=? u) && (u <? 65536)) name && (length name <=? 8)%nat = true → type_ok t name.
Proof.
  intros H. apply andb_prop in H as [H H4]. apply andb_prop in H as [H H3]. apply andb_prop in H as [H H2]. apply andb_prop in H as [H0 H1].
  apply negb_true_iff in H2. apply Nat.leb_le in H4. zbool. unfold type_ok, is_u32. split_and!; [lia|lia|done| |lia].
  apply list.Forall_forall. intros u Hu. rewrite forallb_forall in H3. apply list_elem_of_In in Hu. apply H3 in Hu. zbool. unfold is_u16. lia.
Qed.

Lemma length_view_value collation body : length (view_index_value collation body) = (48 + length body)%nat.
Proof. unfold view_index_value. cbv zeta. unfold w8, w16, w32. rewrite !length_splice, length_replicate. lia. Qed.

Lemma add_view_ok w i r al name collation body : get_rec w i = Some r → tracks i r al → type_ok NTFS_AT_INDEX_ROOT name →
  r_used r + resident_len name (replicate (48 + length body) 0) + 8 <= NTFS_MFT_RECSZ → Z.of_nat (length body) <= 1000 →
  ∃ r', add_view w i name collation body = Ok (put_rec w i r') ∧ same_meta r r' ∧ r_used r' = r_used r + resident_len name (replicate (48 + length body) 0) ∧
    tracks i r' (al ++ [resident_attr NTFS_AT_INDEX_ROOT name (view_index_value collation body) 0 (Z.of_nat (length al))]).
Proof.
  intros Hr T Ht Hfit Hb. unfold add_view. rewrite Hr. cbn [opt mbind outcome_bind]. unfold attr_view_index_root.
  assert (resident_len name (view_index_value collation body) = resident_len name (replicate (48 + length body) 0)) as E
    by (unfold resident_len; by rewrite length_view_value, length_replicate).
  destruct (append_resident i r al NTFS_AT_INDEX_ROOT name (view_index_value collation body) 0 T Ht) as (r' & -> & T' & M & U);
    [rewrite length_view_value; lia|lia|by rewrite E|]. cbn [must mbind outcome_bind]. exists r'. rewrite E in U. by split_and!.
Qed.

Lemma length_rpl_body l : length (rpl_body l) = (32 * length l)%nat.
Proof.
  unfold rpl_body. induction l as [|x l IH]; [done|]. cbn [map concat length]. rewrite length_app, IH. unfold rpl_entry, w16, w32, w64.
  rewrite !length_splice, length_replicate. lia.
Qed.

Lemma length_swap_pass x l : length (snd (swap_pass x l)) = length l.
Proof.
  revert x. induction l as [|y l IH]; intros x; [done|]. cbn [swap_pass]. destruct (rpl_gt x y); [specialize (IH y)|specialize (IH x)];
    destruct (swap_pass _ l); cbn [snd length] in *; by rewrite IH.
Qed.
Lemma length_rpl_sort n l : length (rpl_sort n l) = length l.
Proof.
  revert l. induction n as [|n IH]; intros [|x l]; try done. cbn [rpl_sort]. pose proof (length_swap_pass x l) as E. destruct (swap_pass x l) as [m r].
  cbn [snd length] in *. by rewrite IH, E.
Qed.

(** ** The whole step *)

Definition named_recs : list Z := [NTFS_REC_ROOT; NTFS_REC_EXTEND; 24; 25; 26].

Lemma not_named i : i ≠ 5 → i ≠ 11 → ¬ 24 <= i < 27 → i ∉ named_recs.
Proof. intros H1 H2 H3. unfold named_recs, NTFS_REC_ROOT, NTFS_REC_EXTEND. rewrite !elem_of_cons, elem_of_nil. lia. Qed.

Record named_state (w w' : ntfs_writer) : Prop := {
  nd_rest : same_rest w w';
  nd_root : ∃ r, get_rec w NTFS_REC_ROOT = Some r ∧ get_rec w' NTFS_REC_ROOT = Some (named_root w r (root_entries w));
  nd_ext : ∃ r, get_rec w NTFS_REC_EXTEND = Some r ∧ get_rec w' NTFS_REC_EXTEND = Some (named_extend r (map ext_entry extf));
  nd_views : ∀ i, 24 <= i < 27 → ∃ r r' al, get_rec w i = Some r ∧ get_rec w' i = Some r' ∧ tracks i r' al ∧ r_seq r' = seq_of i ∧
    r_flags r' = 13 ∧ r_link_count r' = 1 ∧ r_is_dir r' = false ∧ r_base_ref r' = 0 ∧ r_ov r' = [];
  nd_other : ∀ i, 0 <= i → i ∉ named_recs → get_rec w' i = get_rec w i;
}.

Lemma view_named_ok x i r : i = fst x → 24 <= i < 27 → reserved_rec i r → Z.of_nat (length (snd x)) <= 8 →
  let r' := view_named x r in
  tracks i r' (info_attrs 0x20000026 0x101 (fname (file_ref NTFS_REC_EXTEND) 0 0 0x20000026 (snd x))) ∧ r_used r' <= 264 ∧
  r_seq r' = seq_of i ∧ r_flags r' = 13 ∧ r_link_count r' = 1 ∧ r_is_dir r' = false ∧ r_base_ref r' = 0 ∧ r_ov r' = [].
Proof.
  intros -> Hi [R1 R2 R3 R4 R5 R6 R7] Hx. cbv zeta. unfold view_named.
  assert (reserved_dir (fst x) = false) as Hd by (unfold reserved_dir, NTFS_REC_ROOT, NTFS_REC_EXTEND; destruct (Z.eqb_spec (fst x) 5), (Z.eqb_spec (fst x) 11); lia || done).
  rewrite Hd in *. pose proof (length_fname (file_ref NTFS_REC_EXTEND) 0 0 0x20000026 (snd x)) as Ef. set (fn := fname _ _ _ _ _) in *. clearbody fn.
  destruct (info_tracks (fst x) (with_flags r (Z.lor (r_flags r) (Z.lor 0x04 0x08))) 0x20000026 0x101 fn R1 ltac:(lia)) as (T & (M1 & M2 & M3 & M4 & M5 & M6 & M7 & M8) & U).
  destruct (resident_len_bound fn ltac:(lia)) as [L1 L2].
  split; [exact T|]. rewrite M1, M2, M3, M4, M7, M8, U. cbn [with_flags r_seq r_flags r_link_count r_is_dir r_ov r_base_ref]. rewrite R3.
  split_and!; try done. dlia.
Qed.

Lemma close_views_ok w r24 r25 r26 al24 al25 al26 :
  get_rec w 24 = Some r24 → get_rec w 25 = Some r25 → get_rec w 26 = Some r26 →
  tracks 24 r24 al24 → tracks 25 r25 al25 → tracks 26 r26 al26 → r_used r24 <= 264 → r_used r25 <= 264 → r_used r26 <= 264 → (length (rpl w) <= 21)%nat →
  ∃ w' r24' r25' r26', close_views w = Ok w' ∧ same_rest w w' ∧
    get_rec w' 24 = Some r24' ∧ get_rec w' 25 = Some r25' ∧ get_rec w' 26 = Some r26' ∧ same_meta r24 r24' ∧ same_meta r25 r25' ∧ same_meta r26 r26' ∧
    (∃ al, tracks 24 r24' al) ∧ (∃ al, tracks 25 r25' al) ∧ (∃ al, tracks 26 r26' al) ∧
    ∀ i, 0 <= i → ¬ 24 <= i < 27 → get_rec w' i = get_rec w i.
Proof.
  intros H24 H25 H26 T24 T25 T26 U24 U25 U26 Hrpl. unfold close_views.
  assert (type_ok NTFS_AT_INDEX_ROOT (lit "$O") ∧ type_ok NTFS_AT_INDEX_ROOT (lit "$Q") ∧ type_ok NTFS_AT_INDEX_ROOT (lit "$R")) as (TO & TQ & TR).
  { split_and!; apply type_ok_check; by vm_compute. }
  assert (length quota_body = 160%nat) as Eq by reflexivity. set (qb := quota_body) in *. clearbody qb.
  assert (∀ (name b : list Z), length name = 2%nat → (length b <= 1000)%nat → resident_len name (replicate (48 + length b) 0) <= 32 + 48 + Z.of_nat (length b) + 7) as Hlen.
  { intros name b E Hb. unfold resident_len. rewrite E, length_replicate. change (align8u (24 + 2 * Z.of_nat 2)) with 32.
    destruct (align8u_spec (32 + Z.of_nat (48 + length b))) as [A1 A2]; lia. }
  pose proof (Hlen (lit "$O") [] eq_refl ltac:(cbn; lia)) as LO. pose proof (Hlen (lit "$Q") qb eq_refl ltac:(lia)) as LQ. cbn [length] in LO. rewrite Eq in LQ.
  destruct (add_view_ok w 24 r24 al24 (lit "$O") 0x11 [] H24 T24 TO) as (ra & -> & Ma & Ua & Ta); [unfold NTFS_MFT_RECSZ; cbn [length] in *; lia|cbn; lia|].
  cbn [mbind outcome_bind length] in *. set (w1 := put_rec w 24 ra).
  destruct (add_view_ok w1 24 ra _ (lit "$Q") 0x10 qb (get_put_eq _ _ _ _ H24) Ta TQ) as (rb & -> & Mb & Ub & Tb); [unfold NTFS_MFT_RECSZ; rewrite Eq; lia|lia|].
  cbn [mbind outcome_bind]. set (w2 := put_rec w1 24 rb).
  assert (get_rec w2 25 = Some r25) as H25' by (unfold w2, w1; rewrite !get_put_ne by lia; exact H25).
  destruct (add_view_ok w2 25 r25 al25 (lit "$O") 0x13 [] H25' T25 TO) as (rc & -> & Mc & Uc & Tc); [unfold NTFS_MFT_RECSZ; cbn [length] in *; lia|cbn; lia|].
  cbn [mbind outcome_bind]. set (w3 := put_rec w2 25 rc).
  assert (get_rec w3 26 = Some r26) as H26' by (unfold w3, w2, w1; rewrite !get_put_ne by lia; exact H26).
  cbv zeta. assert (∃ rd w4, (match rpl w3 with [] => add_view w3 26 (lit "$R") 0x13 []
    | _ => add_view (set_rpl w3 (rpl_sort (length (rpl w3)) (rpl w3))) 26 (lit "$R") 0x13 (rpl_body (rpl (set_rpl w3 (rpl_sort (length (rpl w3)) (rpl w3))))) end) = Ok (put_rec w4 26 rd) ∧
    rec w4 = rec w3 ∧ same_rest w3 w4 ∧ same_meta r26 rd ∧ ∃ al, tracks 26 rd al) as (rd & w4 & -> & E4 & S4 & Md & Td).
  { change (rpl w3) with (rpl w). assert (∃ (b : list Z) k, (length b = 32 * k ∧ k <= 21)%nat ∧ ∃ w4, rec w4 = rec w3 ∧ same_rest w3 w4 ∧
      (match rpl w with [] => add_view w3 26 (lit "$R") 0x13 [] | _ => add_view (set_rpl w3 (rpl_sort (length (rpl w)) (rpl w))) 26 (lit "$R") 0x13 (rpl_body (rpl (set_rpl w3 (rpl_sort (length (rpl w)) (rpl w))))) end) =
      add_view w4 26 (lit "$R") 0x13 b) as (b & j & [Hb Hj] & w4 & E4 & S4 & ->).
    { destruct (rpl w) as [|x l] eqn:E; [exists [], 0%nat; split; [cbn; lia|]; by exists w3|].
      set (s := rpl_sort _ _). exists (rpl_body s), (length (x :: l)). split; [rewrite length_rpl_body; unfold s; rewrite length_rpl_sort; lia|].
      exists (set_rpl w3 s). split_and!; done. }
    assert (resident_len (lit "$R") (replicate (48 + length b) 0) = 80 + 32 * Z.of_nat j) as LR.
    { unfold resident_len. rewrite length_replicate, Hb. change (align8u (24 + 2 * Z.of_nat (length (lit "$R")))) with 32.
      destruct (align8u_spec (32 + Z.of_nat (48 + 32 * j))) as [A1 A2]; [lia|]. dlia. }
    destruct (add_view_ok w4 26 r26 al26 (lit "$R") 0x13 b) as (rd & -> & Md & Ud & Td);
      [unfold get_rec in *; by rewrite E4|done|done|unfold NTFS_MFT_RECSZ; lia|lia|]. exists rd, w4. split_and!; try done. by eexists. }
  assert (∀ i, get_rec w4 i = get_rec w3 i) as G4 by (intros i; unfold get_rec; by rewrite E4).
  exists (put_rec w4 26 rd), rb, rc, rd. split; [reflexivity|]. split.
  { apply same_rest_put'. eapply same_rest_trans; [|exact S4]. unfold w3, w2, w1. by do 3 apply same_rest_put'. }
  split_and!; try done.
  - rewrite get_put_ne, G4 by lia. unfold w3. rewrite get_put_ne by lia. eapply get_put_eq. unfold w1. by apply (get_put_eq _ _ _ _ H24).
  - rewrite get_put_ne, G4 by lia. by apply (get_put_eq _ _ _ _ H25').
  - eapply get_put_eq. rewrite G4. exact H26'.
  - by eapply same_meta_trans.
  - by eexists.
  - by eexists.
  - intros i Hi Hn. rewrite get_put_ne, G4 by lia. unfold w3, w2, w1. by rewrite !get_put_ne by lia.
Qed.

Lemma named_meta r r' i : same_meta r r' → r_seq r = seq_of i → r_flags r = 13 → r_link_count r = 1 → r_is_dir r = false → r_base_ref r = 0 → r_ov r = [] →
  r_seq r' = seq_of i ∧ r_flags r' = 13 ∧ r_link_count r' = 1 ∧ r_is_dir r' = false ∧ r_base_ref r' = 0 ∧ r_ov r' = [].
Proof. intros (-> & -> & -> & -> & _ & _ & -> & ->). done. Qed.

Lemma extf_lookup i : 24 <= i < 27 → ∃ s, (i, s) ∈ extf ∧ (length s <= 8)%nat.
Proof.
  intros Hi. assert (i = 24 ∨ i = 25 ∨ i = 26) as [->|[->| ->]] by lia; eexists; (split; [|shelve]); unfold extf.
  - apply list_elem_of_here.
  - apply list_elem_of_further, list_elem_of_here.
  - do 2 apply list_elem_of_further. apply list_elem_of_here.
  Unshelve. all: vm_compute; lia.
Qed.

Lemma not_view i : ¬ 24 <= i < 27 → i ∉ map fst extf.
Proof. intros H. change (map fst extf) with [24; 25; 26]. rewrite !elem_of_cons, elem_of_nil. lia. Qed.

(** Every record of the metafiles is there before the step and has the number
    and kind it was made with. *)
Lemma close_names_ok w : reserved_kept w → (length (rpl w) <= 21)%nat → ∃ w', close_names w = Ok w' ∧ named_state w w'.
Proof.
  intros Hres Hrpl. destruct (Hres NTFS_REC_ROOT ltac:(by vm_compute)) as (r5 & H5 & R5). destruct (Hres NTFS_REC_EXTEND ltac:(by vm_compute)) as (r11 & H11 & R11).
  unfold close_names. rewrite (close_root_ok w r5 r11 H5 H11 (rv_seq _ _ R5)). cbn [mbind outcome_bind].
  set (a5 := named_root w r5 _). set (a11 := attrs r11 _). set (w1 := put_rec (put_rec w NTFS_REC_ROOT a5) NTFS_REC_EXTEND a11).
  assert (r_seq a5 = seq_of NTFS_REC_ROOT) as S5.
  { unfold a5, named_root. cbn [with_entries r_seq]. set (ops := info_ops _ _ _). destruct (attrs_entries r5 ops) as (_ & -> & _). apply R5. }
  assert (r_seq a11 = seq_of NTFS_REC_EXTEND ∧ r_is_dir a11 = true ∧ r_entries a11 = r_entries r11) as (S11 & D11 & E11).
  { unfold a11. set (ops := info_ops _ _ _). destruct (attrs_entries r11 ops) as (-> & -> & ->). split; [apply R11|]. split; [|done]. by rewrite (rv_dir _ _ R11). }
  assert (get_rec w1 NTFS_REC_ROOT = Some a5) as G5 by (unfold w1; rewrite get_put_ne by (by vm_compute); by apply (get_put_eq _ _ _ _ H5)).
  assert (get_rec w1 NTFS_REC_EXTEND = Some a11) as G11 by (unfold w1; eapply get_put_eq; rewrite get_put_ne by (by vm_compute); exact H11).
  assert (∀ i, 0 <= i → i ≠ NTFS_REC_ROOT → i ≠ NTFS_REC_EXTEND → get_rec w1 i = get_rec w i) as Gi.
  { intros i Hi N1 N2. unfold w1. rewrite !get_put_ne; [done| |]; intros E; apply Z2Nat.inj in E; try lia; try (by vm_compute); congruence. }
  assert (same_rest w w1) as SR1 by (unfold w1; by do 2 apply same_rest_put').
  rewrite (push_sysf_ok sysf w1 a5); [|clear - Hres Gi G11 S11 D11|exact G5|exact S5].
  2:{ apply list.Forall_forall. intros x Hx. assert (0 <= fst x < 27 ∧ fst x ≠ NTFS_REC_ROOT) as [Hr Hne].
      { unfold sysf in Hx. repeat (apply elem_of_cons in Hx as [->|Hx]; [cbn [fst]; unfold NTFS_REC_ROOT; lia|]). by apply elem_of_nil in Hx. }
      split_and!; [lia|lia|done|]. destruct (decide (fst x = NTFS_REC_EXTEND)) as [->|N]; [by exists a11|].
      destruct (Hres (fst x) Hr) as (r & Hrx & R). exists r. rewrite Gi by (done || lia). split_and!; [done|apply R|apply R]. }
  cbn [mbind outcome_bind]. set (b5 := with_entries a5 _). set (w2 := put_rec w1 NTFS_REC_ROOT b5).
  assert (∀ i, 0 <= i → i ≠ NTFS_REC_ROOT → get_rec w2 i = get_rec w1 i) as G2.
  { intros i Hi N1. unfold w2. rewrite get_put_ne; [done|]. intros E. apply Z2Nat.inj in E; try lia; try (by vm_compute); congruence. }
  assert (∀ i, 24 <= i < 27 → ∃ r, get_rec w2 i = Some r ∧ get_rec w i = Some r ∧ reserved_rec i r) as Hv.
  { intros i Hi. destruct (Hres i ltac:(lia)) as (r & Hr & R). exists r. unfold NTFS_REC_ROOT, NTFS_REC_EXTEND in *. rewrite G2, Gi by lia. done. }
  destruct (push_extf_ok extf w2 a11) as (w3 & -> & SR3 & RP3 & GX & GV & GO).
  { apply list.Forall_forall. intros x Hx. assert (24 <= fst x < 27) as Hr.
    { unfold extf in Hx. repeat (apply elem_of_cons in Hx as [->|Hx]; [cbn [fst]; lia|]). by apply elem_of_nil in Hx. }
    destruct (Hv (fst x) Hr) as (r & Hrx & _ & R). split_and!; [lia|lia|unfold NTFS_REC_EXTEND; lia|]. exists r. split; [done|apply R]. }
  { change (map fst extf) with [24; 25; 26]. repeat constructor; rewrite ?elem_of_cons, ?elem_of_nil; lia. }
  { rewrite G2 by (by vm_compute). exact G11. }
  { exact S11. }
  cbn [mbind outcome_bind].
  assert (∀ i, 24 <= i < 27 → ∃ r r' al, get_rec w i = Some r ∧ get_rec w3 i = Some r' ∧ tracks i r' al ∧ r_used r' <= 264 ∧
    r_seq r' = seq_of i ∧ r_flags r' = 13 ∧ r_link_count r' = 1 ∧ r_is_dir r' = false ∧ r_base_ref r' = 0 ∧ r_ov r' = []) as Hviews.
  { intros i Hi. destruct (extf_lookup i Hi) as (s & Hs & Ls). destruct (Hv i Hi) as (r & Hr2 & Hr & R).
    destruct (view_named_ok (i, s) i r eq_refl Hi R ltac:(cbn [snd]; lia)) as (T & U & H). exists r, (view_named (i, s) r). eexists. split_and!; try done; try apply H.
    by apply (GV (i, s)). }
  destruct (Hviews 24 ltac:(lia)) as (r24 & b24 & al24 & A24 & B24 & T24 & U24 & M24). destruct (Hviews 25 ltac:(lia)) as (r25 & b25 & al25 & A25 & B25 & T25 & U25 & M25).
  destruct (Hviews 26 ltac:(lia)) as (r26 & b26 & al26 & A26 & B26 & T26 & U26 & M26).
  destruct (close_views_ok w3 b24 b25 b26 al24 al25 al26) as (w' & c24 & c25 & c26 & -> & SR' & C24 & C25 & C26 & N24 & N25 & N26 & (bl24 & K24) & (bl25 & K25) & (bl26 & K26) & GN);
    [done..|by rewrite RP3|].
  exists w'. split; [reflexivity|]. constructor.
  - eapply same_rest_trans; [exact SR1|]. eapply same_rest_trans; [|exact SR']. eapply same_rest_trans; [|exact SR3]. by apply same_rest_put'.
  - exists r5. split; [exact H5|]. rewrite GN by (unfold NTFS_REC_ROOT; lia). rewrite GO by (try apply not_view; unfold NTFS_REC_ROOT, NTFS_REC_EXTEND; lia).
    unfold w2. rewrite (get_put_eq _ _ _ _ G5). f_equal. unfold b5, a5, named_root, root_entries. cbn [with_entries r_entries]. by rewrite <- app_assoc.
  - exists r11. split; [exact H11|]. rewrite GN by (unfold NTFS_REC_EXTEND; lia). rewrite GX. unfold named_extend. f_equal. by rewrite E11.
  - intros i Hi. assert (i = 24 ∨ i = 25 ∨ i = 26) as [->|[->| ->]] by lia.
    + exists r24, c24, bl24. split_and!; try done; by apply (named_meta b24 c24 24 N24); apply M24.
    + exists r25, c25, bl25. split_and!; try done; by apply (named_meta b25 c25 25 N25); apply M25.
    + exists r26, c26, bl26. split_and!; try done; by apply (named_meta b26 c26 26 N26); apply M26.
  - intros i Hi Hn. unfold named_recs in Hn. rewrite !not_elem_of_cons in Hn. destruct Hn as (N1 & N2 & N3 & N4 & N5 & _).
    rewrite GN by lia. rewrite GO; [|done|done|apply not_view; lia]. by rewrite G2, Gi.
Qed.
