(* ===== verification/NtfsPlan.v ===== *)
(** * Where the metafiles go
      ([src/tools/iso-patch-mac/engine/ntfs.c]: the second step of
      [ntfs_writer_close])

    With room on the volume [plan_layout] succeeds, and the allocator's invariant
    goes on: the MFT and its bitmap lie in the zone kept for them, the other
    metafiles in runs of their own. *)

From Stdlib Require Import String Sorted.
From S2P Require Import Prelude Bytes WStr Outcome BlockIO ImageWrites NtfsCodec NtfsRecord Bitmap NtfsVolume NtfsAlloc NtfsTree NtfsMeta NtfsLinks NtfsClose NtfsSession.

(** ** The stream of descriptors *)

(** Room for the descriptors, their headers and their padding. *)
Definition sds_span (l : list sec_desc_t) : Z := foldr (λ s z, sd_len s + 36 + z) 0 l.

Lemma sds_span_nonneg l : 0 <= sds_span l.
Proof. induction l as [|s l IH]; [done|]. cbn [sds_span foldr]. fold (sds_span l). unfold sd_len. lia. Qed.

Lemma align_up_spec x n : 0 <= x → 0 < n → x + n < 2 ^ 64 → x <= align_up x n < x + n ∧ align_up x n mod n = 0.
Proof.
  intros Hx Hn Hb. unfold align_up. rewrite (u64_small (x + n - 1)) by lia.
  pose proof (Z.div_mod (x + n - 1) n ltac:(lia)). pose proof (Z.mod_pos_bound (x + n - 1) n ltac:(lia)).
  assert (x <= (x + n - 1) / n * n < x + n) by nia. split; [lia|]. by rewrite Z.mod_mul by lia.
Qed.

Lemma sds_next tail s : 0 <= tail → tail + sd_len s + 36 <= 2 ^ 31 →
  let t := u32 (align_up (u32 (tail + 20 + sd_len s)) 16) in tail + 20 + sd_len s <= t < tail + sd_len s + 36.
Proof.
  intros Ht Hb. cbv zeta. assert (0 <= sd_len s) by (unfold sd_len; lia). rewrite (u32_small (tail + 20 + sd_len s)) by lia.
  destruct (align_up_spec (tail + 20 + sd_len s) 16 ltac:(lia) ltac:(lia) ltac:(lia)) as [A _]. rewrite u32_small by lia. lia.
Qed.

(** The descriptors as [sds_place] numbers them: each at its offset, up to
    [e]. *)
Fixpoint sds_laid (tail : Z) (l : list sec_desc_t) (e : Z) : Prop :=
  match l with
  | [] => tail = e
  | s :: l' => s_sds_offset s = tail ∧ ∃ t, tail + 20 + sd_len s <= t ∧ t = u32 (align_up (u32 (tail + 20 + sd_len s)) 16) ∧ sds_laid t l' e
  end.

Lemma sds_place_ok l : ∀ tail, 0 <= tail → tail + sds_span l <= 2 ^ 31 →
  let '(r, e) := sds_place tail l in
  sds_laid tail r e ∧ tail <= e <= tail + sds_span l ∧ Forall2 (λ s s', s' = with_sds s (s_sds_offset s')) l r.
Proof.
  induction l as [|s l IH]; intros tail Ht Hb; cbn [sds_place].
  - split_and!; [done|lia|cbn; lia|constructor].
  - cbn [sds_span foldr] in Hb. fold (sds_span l) in Hb. pose proof (sds_span_nonneg l). pose proof (sds_next tail s Ht ltac:(lia)) as N. cbv zeta in N.
    set (t := u32 _) in *. specialize (IH t ltac:(unfold sd_len in *; lia) ltac:(lia)). destruct (sds_place t l) as [r e] eqn:E. destruct IH as (I1 & I2 & I3).
    assert (0 <= sd_len s) by (unfold sd_len; lia). split_and!.
    + split; [done|]. exists t. split_and!; [exact (proj1 N)|done|exact I1].
    + lia.
    + cbn [sds_span foldr]. fold (sds_span l). lia.
    + constructor; [done|exact I3].
Qed.

Lemma sds_laid_last tail l e : 0 <= tail → sds_laid tail l e → tail <= e ∧ 0 <= last_end l <= e.
Proof.
  revert tail. induction l as [|s l IH]; intros tail Ht; [intros ->; unfold last_end; cbn [last]; lia|].
  cbn [sds_laid]. intros (E & t & Ht1 & _ & Hl). assert (0 <= sd_len s) by (unfold sd_len; lia). destruct (IH t ltac:(lia) Hl) as [H1 H2]. split; [lia|].
  unfold last_end in *. destruct l as [|s' l]; [cbn [last]; rewrite E; cbn [sds_laid] in Hl; lia|]. change (last (s :: s' :: l)) with (last (s' :: l)). exact H2.
Qed.

(** Filling the stream never leaves it. *)
Lemma sds_fill_ok l : ∀ tail e sds, 0 <= tail → sds_laid tail l e → 0x40000 + e <= Z.of_nat (length sds) → ∃ b, sds_fill sds tail l = Some b ∧ length b = length sds.
Proof.
  induction l as [|s l IH]; intros tail e sds Ht Hl Hb; cbn [sds_fill]; [by exists sds|].
  cbn [sds_laid] in Hl. destruct Hl as (E & t & Ht1 & -> & Hl). set (t := u32 _) in *. assert (0 <= sd_len s) by (unfold sd_len; lia).
  destruct (sds_laid_last t l e ltac:(lia) Hl) as [H1 _]. rewrite (proj2 (Z.ltb_ge _ _)) by lia.
  destruct (IH t e (splice (splice sds (Z.to_nat tail) (sds_entry s)) (Z.to_nat (0x40000 + tail)) (sub (splice sds (Z.to_nat tail) (sds_entry s)) (Z.to_nat tail) (Z.to_nat (20 + sd_len s)))))
    as (b & Eb & Lb); [lia|exact Hl|by rewrite !length_splice|]. exists b. split; [exact Eb|]. by rewrite Lb, !length_splice.
Qed.

(** ** Marking and allocating *)

(** The rest of the volume stays as it is. *)
Definition kept_state (w w' : ntfs_writer) : Prop :=
  same_volume w w' ∧ same_plan w w' ∧ rec w' = rec w ∧ cap_rec w' = cap_rec w ∧ sec w' = sec w ∧ rpl w' = rpl w.

Lemma kept_state_trans w1 w2 w3 : kept_state w1 w2 → kept_state w2 w3 → kept_state w1 w3.
Proof. unfold kept_state, same_volume, same_plan. intuition congruence. Qed.

Lemma alloc_low_iff low low' w rs sum big : (∀ c, 0 <= c → low' c ↔ low c) → alloc_low low w rs sum big → alloc_low low' w rs sum big.
Proof. intros Hl [H1 H2 H3 H4 H5 H6 H7 H8 H9]. constructor; try done. intros c Hc. rewrite H9, Hl by done. done. Qed.

Lemma mark_ok low w rs sum big lcn n : alloc_low low w rs sum big → 0 <= lcn → 0 <= n → lcn + n <= 8 * Z.of_nat (length (clbmp w)) →
  ∃ w', mark w lcn n = Ok w' ∧ alloc_low (λ c, low c ∨ lcn <= c < lcn + n) w' rs sum big ∧ kept_state w w'.
Proof.
  intros [H1 H2 H3 H4 H5 H6 H7 H8 H9] Hl Hn Hfit. unfold mark.
  destruct (bmp_mark_spec (Z.to_nat n) (clbmp w) lcn Hl ltac:(lia)) as (b & -> & L & B). cbn [opt mbind outcome_bind]. rewrite Z2Nat.id in B by lia.
  eexists. split; [reflexivity|]. split; [|split_and!; first [done|by cbn [set_lcns clbmp]; rewrite L]].
  constructor; cbn [set_lcns mft_zone_end next_lcn reserve_lcn reserve_len clbmp]; rewrite ?L; try done.
  intros c Hc. rewrite B, H9 by done. tauto.
Qed.

Lemma alloc_kept low w rs sum big n : alloc_low low w rs sum big → 0 < n <= big → mft_zone_end w + sum + n + big + 1 <= 8 * Z.of_nat (length (clbmp w)) →
  ∃ lcn w', alloc_clusters w n = Some (lcn, w') ∧ alloc_low low w' ((lcn, n) :: rs) (sum + n) big ∧ kept_state w w'.
Proof.
  intros A Hn Hc. destruct (alloc_clusters_ok low w rs sum big n A Hn Hc) as (lcn & w' & E & A' & S & _ & _ & E1 & E2 & E3 & E4 & E5).
  exists lcn, w'. by split_and!.
Qed.

Lemma logfile_size_ok n : 32 <= n < 2 ^ 50 → 0 < logfile_size n <= 2 ^ 26 ∧ logfile_size n mod cluster_size = 0.
Proof.
  intros H. unfold logfile_size, cluster_size. rewrite (u64_small (n - 1)), u64_small by lia.
  set (b := (n - 1) * 512 / 200). set (b1 := if b <? 1048576 then 1048576 else b). set (b2 := if 67108864 <? b1 then 67108864 else b1).
  assert (1048576 <= b2 <= 67108864) as Hb2.
  { unfold b2, b1. destruct (Z.ltb_spec b 1048576); [cbn; lia|]. destruct (Z.ltb_spec 67108864 b); lia. }
  destruct (align_up_spec b2 4096 ltac:(lia) ltac:(lia) ltac:(lia)) as [A B]. split; [|exact B]. dlia.
Qed.

(** ** The layout *)

Definition bmp_bytes_of (count : Z) : Z := (count + 7) / 8.
Definition bmp_len (count : Z) : Z := if bmp_bytes_of count <=? 0x40 then 0 else (bmp_bytes_of count + cluster_size - 1) / cluster_size.
Definition bmp_at (count : Z) : Z := if bmp_bytes_of count <=? 0x40 then 0 else 2.
Definition mft_len (count : Z) : Z := (count * NTFS_MFT_RECSZ + cluster_size - 1) / cluster_size.
Definition mft_at (count : Z) : Z := if bmp_len count <? 2 then 4 else 2 + bmp_len count.

Definition sds_size (w : ntfs_writer) : Z := align_up (0x40000 + snd (sds_place 0 (sec w))) cluster_size.
Definition bitmap_len (w : ntfs_writer) : Z := Z.of_nat (length (clbmp w)) / cluster_size.

(** The clusters of the metafiles outside the zone. *)
Definition plan_need (w : ntfs_writer) : Z :=
  32 + 1 + logfile_size (part_sectors w) / cluster_size + sds_size w / cluster_size + bitmap_len w.

(** The clusters marked in front of the data: the boot sector's, the bitmap of
    the MFT and the MFT. *)
Definition front (count c : Z) : Prop := boot_only c ∨ bmp_at count <= c < bmp_at count + bmp_len count ∨ mft_at count <= c < mft_at count + mft_len count.

Record laid_out (w : ntfs_writer) (l : ntfs_layout) : Prop := {
  lo_count : mft_count l = nrec w;
  lo_mft : mft_lcn l = mft_at (nrec w) ∧ mft_clusters l = mft_len (nrec w);
  lo_bmp : mftbmp_bytes l = bmp_bytes_of (nrec w) ∧ mftbmp_lcn l = bmp_at (nrec w) ∧ mftbmp_clusters l = bmp_len (nrec w);
  lo_attrdef : attrdef_clusters l = 1;
  lo_log : logfile_bytes l = logfile_size (part_sectors w) ∧ logfile_clusters l = logfile_size (part_sectors w) / cluster_size;
  lo_sds : sds_bytes l = sds_size w ∧ sds_clusters l = sds_size w / cluster_size ∧ 0x40000 <= sds_data_size l <= sds_size w;
  lo_bitmap : bitmap_clusters l = bitmap_len w;
}.

Definition layout_runs (l : ntfs_layout) : runs :=
  [(bitmap_lcn l, bitmap_clusters l); (sds_lcn l, sds_clusters l); (logfile_lcn l, logfile_clusters l); (attrdef_lcn l, 1); (upcase_lcn l, 32)].

Lemma front_spec count : 27 <= count < 2 ^ 32 → 4 <= mft_at count ∧ 0 < mft_len count < 2 ^ 31 ∧ 0 <= bmp_at count ∧ 0 <= bmp_len count < 2 ^ 31 ∧
  bmp_at count + bmp_len count <= mft_at count ∧ (0 < bmp_len count → bmp_at count = 2) ∧ mft_at count < 2 ^ 31 ∧ count * NTFS_MFT_RECSZ <= mft_len count * cluster_size.
Proof.
  intros H. unfold mft_at, bmp_at, mft_len, NTFS_MFT_RECSZ. unfold bmp_len. set (b := bmp_bytes_of count).
  assert (0 < b < 2 ^ 30) as Hb by (unfold b, bmp_bytes_of; dlia). unfold cluster_size.
  destruct (Z.leb_spec b 64); [rewrite (proj2 (Z.ltb_lt 0 2)) by lia; split_and!; dlia|].
  assert (0 < (b + 4096 - 1) / 4096 < 2 ^ 20) by dlia. destruct (Z.ltb_spec ((b + 4096 - 1) / 4096) 2); split_and!; dlia.
Qed.

Lemma length_attrdef : length build_attrdef = 2560%nat.
Proof. vm_compute. reflexivity. Qed.

Section plan.
Context (w : ntfs_writer) (rs : runs) (sum big : Z) (Ha : alloc_ok w rs sum big).
Context (Hcount : 27 <= nrec w < 2 ^ 32) (Hsec : 32 <= part_sectors w < 2 ^ 50) (Hsds : sds_span (sec w) <= 0x40000).
Context (Hmirr : mftmirr_lcn w = reserve_lcn w) (Htot : reserve_lcn w + 1 <= total_clusters w).
Context (Hzone : mft_at (nrec w) + mft_len (nrec w) <= mft_zone_end w).
Context (Hlen : Z.of_nat (length (clbmp w)) mod cluster_size = 0).
Context (Hbig : plan_need w <= big) (Hcap : mft_zone_end w + sum + plan_need w + big + 1 <= total_clusters w).
Context (Hall : total_clusters w <= 8 * Z.of_nat (length (clbmp w))).

Lemma sds_size_ok : let '(secs, e) := sds_place 0 (sec w) in
  sds_laid 0 secs e ∧ 0 <= e <= 0x40000 ∧ sds_size w mod cluster_size = 0 ∧ 0x40000 + e <= sds_size w <= 0x90000 ∧ 0 <= last_end secs <= e ∧
  Forall2 (λ s s', s' = with_sds s (s_sds_offset s')) (sec w) secs.
Proof using Hsds.
  pose proof (sds_place_ok (sec w) 0 ltac:(lia) ltac:(lia)) as H. unfold sds_size. destruct (sds_place 0 (sec w)) as [secs e]. destruct H as (L & B & F).
  cbn [snd]. unfold cluster_size. destruct (align_up_spec (0x40000 + e) 4096 ltac:(lia) ltac:(lia) ltac:(lia)) as [A1 A2].
  destruct (sds_laid_last 0 secs e ltac:(lia) L) as [_ L2]. split_and!; try done; lia.
Qed.

Lemma plan_ok : ∃ l w', plan_layout w = Ok (l, w') ∧ laid_out w l ∧ kept_state (set_sec w (fst (sds_place 0 (sec w)))) w' ∧
  alloc_low (front (nrec w)) w' (layout_runs l ++ rs) (sum + plan_need w) big ∧ next_lcn w' <= total_clusters w.
Proof using All.
  pose proof sds_size_ok as Hs. destruct (front_spec (nrec w) Hcount) as (F1 & F2 & F3 & F4 & F5 & F6 & F7 & F8).
  destruct (logfile_size_ok (part_sectors w) Hsec) as (G1 & G2). unfold plan_need in *. remember (logfile_size (part_sectors w)) as ls eqn:Els.
  pose proof (ao_zone _ _ _ _ Ha) as Hz. pose proof (ao_size _ _ _ _ Ha) as Hsz. pose proof (ao_sum _ _ _ _ Ha) as Hsum. pose proof (ao_res _ _ _ _ Ha) as Hrv.
  unfold plan_layout. fold (bmp_bytes_of (nrec w)). fold (mft_len (nrec w)). rewrite length_attrdef.
  change ((Z.of_nat 2560 + cluster_size - 1) / cluster_size) with 1. change ((8192 + cluster_size - 1) / cluster_size) with 2.
  change ((16 * 1024 + cluster_size - 1) / cluster_size) with 4. change ((0x20000 + cluster_size - 1) / cluster_size) with 32. rewrite <- Els.
  fold (bmp_len (nrec w)). assert (sds_size w = align_up (0x40000 + snd (sds_place 0 (sec w))) cluster_size) as Esb by done.
  destruct (sds_place 0 (sec w)) as [secs e]. cbn [fst snd] in *. destruct Hs as (S1 & S2 & S3 & S4 & S5 & _). rewrite <- Esb. clear Esb.
  remember (sds_size w) as sb eqn:Esb. set (w0 := set_sec w secs).
  unfold bitmap_len in *. set (bl := Z.of_nat (length (clbmp w)) / cluster_size) in *.
  assert (0 < ls / cluster_size ∧ 0 < sb / cluster_size ∧ 0 <= bl) as (Hl0 & Hs0 & Hbl0) by (unfold bl, cluster_size in *; dlia).
  assert (0 < bl) as Hbl by (unfold bl, cluster_size in *; dlia).
  change (if bmp_bytes_of (nrec w) <=? 0x40 then 0 else 2) with (bmp_at (nrec w)).
  assert ((if (2 + bmp_len (nrec w)) * cluster_size <? 16 * 1024 then 4 else 2 + bmp_len (nrec w)) = mft_at (nrec w)) as Em.
  { unfold mft_at, cluster_size. destruct (Z.ltb_spec ((2 + bmp_len (nrec w)) * 4096) (16 * 1024)), (Z.ltb_spec (bmp_len (nrec w)) 2); lia. }
  assert (∃ w1, (if bmp_bytes_of (nrec w) <=? 0x40 then Ok w0 else mark w0 (bmp_at (nrec w)) (bmp_len (nrec w))) = Ok w1 ∧
    alloc_low (λ c, boot_only c ∨ bmp_at (nrec w) <= c < bmp_at (nrec w) + bmp_len (nrec w)) w1 rs sum big ∧ kept_state w0 w1) as (w1 & -> & A1 & K1).
  { assert (alloc_low boot_only w0 rs sum big) as A0 by (by apply (alloc_ok_same _ w)). destruct (bmp_bytes_of (nrec w) <=? 0x40) eqn:Eb.
    - assert (bmp_len (nrec w) = 0) by (unfold bmp_len; by rewrite Eb). exists w0. split; [done|]. split; [|done]. apply (alloc_low_iff boot_only); [intros c _; split; [intros [?|?]; [done|lia]|by left]|done].
    - apply (mark_ok boot_only w0 rs sum big); [done|lia|lia|cbn [w0 set_sec clbmp]; lia]. }
  cbn [mbind outcome_bind]. rewrite Em. pose proof K1 as ((P1 & P2 & P3 & P4 & P5 & P6 & P7) & _). cbn [w0 set_sec mft_zone_end total_clusters clbmp] in *.
  destruct (mark_ok _ w1 rs sum big (mft_at (nrec w)) (mft_len (nrec w)) A1) as (w2 & -> & A2 & K2); [lia|lia|rewrite P7; lia|]. cbn [mbind outcome_bind].
  apply (alloc_low_iff _ (front (nrec w))) in A2; [|intros c _; unfold front; tauto].
  pose proof (kept_state_trans _ _ _ K1 K2) as K. pose proof K as ((Q1 & Q2 & Q3 & Q4 & Q5 & Q6 & Q7) & (Q8 & _) & _). cbn [w0 set_sec mft_zone_end total_clusters clbmp reserve_len reserve_lcn mftmirr_lcn] in *.
  unfold fail_if at 1. rewrite (proj2 (Z.ltb_ge _ _)) by lia. unfold fail_if at 1. rewrite Q6, Q8, Hmirr, (u64_small (reserve_lcn w + _)) by lia. rewrite (proj2 (Z.ltb_ge _ _)) by lia.
  destruct (alloc_kept _ w2 rs sum big 32 A2) as (c1 & w3 & -> & A3 & K3); [lia|rewrite Q4, Q7; lia|]. cbn [opt mbind outcome_bind].
  pose proof K3 as ((_ & _ & _ & Z3 & _ & _ & B3) & _).
  destruct (alloc_kept _ w3 _ _ big 1 A3) as (c2 & w4 & -> & A4 & K4); [lia|rewrite Z3, B3, Q4, Q7; lia|]. cbn [opt mbind outcome_bind].
  pose proof K4 as ((_ & _ & _ & Z4 & _ & _ & B4) & _).
  destruct (alloc_kept _ w4 _ _ big (ls / cluster_size) A4) as (c3 & w5 & -> & A5 & K5); [lia|rewrite Z4, B4, Z3, B3, Q4, Q7; lia|]. cbn [opt mbind outcome_bind].
  pose proof K5 as ((_ & _ & _ & Z5 & _ & _ & B5) & _).
  destruct (alloc_kept _ w5 _ _ big (sb / cluster_size) A5) as (c4 & w6 & -> & A6 & K6); [lia|rewrite Z5, B5, Z4, B4, Z3, B3, Q4, Q7; lia|]. cbn [opt mbind outcome_bind].
  pose proof K6 as ((_ & _ & _ & Z6 & _ & _ & B6) & _). rewrite B6, B5, B4, B3, Q7. fold bl.
  destruct (alloc_kept _ w6 _ _ big bl A6) as (c5 & w7 & -> & A7 & K7); [lia|rewrite Z6, B6, Z5, B5, Z4, B4, Z3, B3, Q4, Q7; lia|]. cbn [opt mbind outcome_bind].
  assert (kept_state w0 w7) as K8 by (do 5 (eapply kept_state_trans; [|eassumption]); exact K).
  pose proof K8 as ((_ & _ & T8 & Z8 & _ & _ & B8) & _). cbn [w0 set_sec mft_zone_end total_clusters clbmp] in T8, Z8, B8.
  pose proof (ao_next _ _ _ _ A7) as [N7 _]. rewrite Z8 in N7.
  unfold fail_if. rewrite T8, (proj2 (Z.ltb_ge _ _)) by lia.
  eexists _, w7. split; [reflexivity|]. split; [|split; [exact K8|split; [|lia]]].
  - constructor; cbn; rewrite <- ?Els, <- ?Esb; try done. split_and!; try done; lia.
  - cbn [layout_runs bitmap_lcn bitmap_clusters sds_lcn sds_clusters logfile_lcn logfile_clusters attrdef_lcn upcase_lcn app].
    replace (sum + (32 + 1 + ls / cluster_size + sb / cluster_size + bl)) with (sum + 32 + 1 + ls / cluster_size + sb / cluster_size + bl) by lia. exact A7.
Qed.
End plan.
