(* ===== verification/NtfsSecure.v ===== *)
(** * The record of the security descriptors
      ([src/tools/iso-patch-mac/engine/ntfs.c]: [prepare_secure_index] and the
      [$Secure] record in [ntfs_writer_close])

    Both indexes of the descriptors are built and put on the volume, and with at
    most 500 descriptors the record has room for their roots, their runs and
    their bitmaps. *)

From Stdlib Require Import String Sorted.
From S2P Require Import Prelude Bytes WStr Outcome BlockIO ImageWrites NtfsCodec NtfsIndex NtfsDir NtfsRecord NtfsLookup Bitmap NtfsVolume NtfsAlloc NtfsTree NtfsMeta NtfsLinks NtfsClose NtfsSession NtfsRuns NtfsSteps NtfsIndexed NtfsNamed.

(** ** Entries of a view *)

(** A small key with its data. *)
Definition view_wf (B : Z) (e : bentry_t) : Prop :=
  key_len e <= 8 ∧ 0 < data_len e <= 24 ∧ 0 <= b_sub e < B.

Lemma view_size B (internal : bool) e : view_wf B e → 0 <= size_of internal e <= 56.
Proof.
  intros (H1 & H2 & _). assert (0 <= key_len e) by (unfold key_len; lia). unfold size_of, entry_size_dv.
  rewrite (proj2 (Z.eqb_neq _ _)) by lia. cbn [negb].
  destruct (align8u_spec (16 + key_len e + data_len e + (if internal then 8 else 0))) as [A1 A2]; [destruct internal; lia|].
  destruct internal; dlia.
Qed.

Lemma view_two B internal e : view_wf B e → 0 <= size_of internal e ∧ 2 * size_of internal e + end_size internal <= INDX_BODY_CAP.
Proof.
  intros H. pose proof (view_size B internal e H). assert (end_size internal <= 24) by (destruct internal; vm_compute; congruence).
  unfold INDX_BODY_CAP, NTFS_INDX_SIZE. lia.
Qed.

Lemma view_set B e v : view_wf B e → 0 <= v < B → view_wf B (set_sub e v).
Proof. intros (H1 & H2 & _) Hv. exact (conj H1 (conj H2 Hv)). Qed.

Lemma view_range B e : view_wf B e → 0 <= b_sub e < B.
Proof. intros (_ & _ & H). exact H. Qed.

Lemma length_sec_data s : length (sec_data s) = 20%nat.
Proof. unfold sec_data, w32, w64. by rewrite !length_splice, length_replicate. Qed.

Lemma sii_wf s : view_wf (2 ^ 62) (sii_entry s).
Proof.
  unfold view_wf. change (data_len (sii_entry s)) with (Z.of_nat (length (sec_data s))). rewrite length_sec_data.
  split; [vm_compute; congruence|]. by split.
Qed.
Lemma sdh_wf s : view_wf (2 ^ 62) (sdh_entry s).
Proof.
  unfold view_wf. change (data_len (sdh_entry s)) with (Z.of_nat (length (sec_data s ++ le_bytes 4 0x00490049))).
  rewrite length_app, length_sec_data, length_le_bytes. split; [vm_compute; congruence|]. by split.
Qed.

(** ** Bytes of nodes *)

Lemma length_index_entry internal e : length (entry_bytes internal e) = Z.to_nat (size_of internal e).
Proof. unfold entry_bytes. destruct (b_data e), internal; unfold w16, w64; rewrite !length_splice, length_replicate; done. Qed.

Lemma length_body internal ents v : Forall (λ e, 0 <= size_of internal e) ents → Z.of_nat (length (serialize_body ents internal v)) = body_size internal ents.
Proof.
  intros H. unfold serialize_body, body_size. rewrite length_app.
  assert (Z.of_nat (length (end_bytes internal v)) = end_size internal) as E.
  { unfold end_bytes. destruct internal; unfold w16, w64; rewrite !length_splice, length_replicate; reflexivity. }
  assert (Z.of_nat (length (concat (map (entry_bytes internal) ents))) = sizes internal ents) as E2; [|lia].
  clear E. induction H as [|e ents He _ IH]; [done|]. cbn [map concat sizes foldr]. rewrite length_app, length_index_entry. unfold sizes in IH. lia.
Qed.

Lemma length_fixup_loop n : ∀ r usa sectsz usn i, length (fixup_loop n r usa sectsz usn i) = length r.
Proof. induction n as [|n IH]; intros; [done|]. cbn [fixup_loop]. by rewrite IH, !length_splice. Qed.
Lemma length_apply_fixup r sectsz usn : length (apply_fixup r sectsz usn) = length r.
Proof. unfold apply_fixup. rewrite length_fixup_loop. unfold w16. by rewrite length_splice. Qed.

Lemma length_block ns : length (indx_block ns) = Z.to_nat NTFS_INDX_SIZE.
Proof. unfold indx_block. rewrite length_apply_fixup. unfold plain_block, w16, w32, w64. by rewrite !length_splice, length_replicate. Qed.

Lemma length_view_root c body large : length (view_root c body large) = (32 + length body)%nat.
Proof. unfold view_root, w8, w32. rewrite !length_splice, length_app, length_replicate. done. Qed.

(** ** One index *)

Lemma view_sizes internal es : Forall (view_wf (2 ^ 62)) es → Forall (λ e, 0 <= size_of internal e) es.
Proof. intros H. eapply Forall_impl; [exact H|]. intros e He. pose proof (view_size _ internal e He). lia. Qed.


Section index.
Context {D : Type} `{HI : Image D}.
Context (low : Z → Prop) (w : ntfs_writer) (d : D) (rs : runs) (sum big k : Z) (collation : Z) (ent : list bentry_t).
Context (Ha : alloc_low low w rs sum big) (Ho : on_image w) (Hd : img_ok d) (Hwf : Forall (view_wf (2 ^ 62)) ent).
Let n := Z.of_nat (length ent).
Context (Hn : n <= 500) (Hbig : n <= big) (Hcap : mft_zone_end w + sum + n + big + 1 <= 8 * Z.of_nat (length (clbmp w))).
Context (Hk : 0 <= k) (Hlive : img_live (n * cluster_size + k) d).

(** The result fits the record. *)
Definition small_index (x : secidx_t) : Prop :=
  Z.of_nat (length (x_root x)) <= 96 ∧
  (x_large x = true → 0 < x_blocks x <= 500 ∧ 0 <= x_lcn x < 2 ^ 63 ∧ Z.of_nat (length (x_bm x)) <= 64).

Lemma prepare_secure_index_ok : ∃ x w' d' rs', prepare_secure_index w d collation ent 0x40 = Ok (x, w', d') ∧ small_index x ∧
  rec w' = rec w ∧ grows w (img_view d) rs w' (img_view d') rs' ∧ alloc_low low w' rs' (sum + n) big ∧ on_image w' ∧ img_ok d' ∧ img_live k d'.
Proof using All.
  unfold prepare_secure_index. destruct (Z.leb_spec (body_size false ent) 0x40) as [Hs|Hs].
  - eexists _, w, d, rs. split; [reflexivity|]. split.
    + split; [|done]. cbn [x_root]. rewrite length_view_root. pose proof (length_body false ent 0 (view_sizes false ent Hwf)). lia.
    + split_and!; try done; [apply grows_refl|apply (alloc_ok_more _ _ _ sum); [lia|done]|]. eapply img_live_le; [exact Hlive|unfold cluster_size; lia].
  - assert (ent ≠ []) as Hne by (intros E; rewrite E in Hs; by vm_compute in Hs).
    destruct (tree_built view_wf view_two view_set view_range (2 ^ 62) ent 0x40 Hne Hwf ltac:(lia)) as (p & -> & T & Hnext & Hfit).
    destruct T as [T1 T2 T3 T4 T5]. rewrite T3 in Hnext. set (c := Z.of_nat (length (p_specs p))) in *. rewrite T3 in T5. rewrite T3.
    destruct (run_put low w d rs sum big c k Ha Ho Hd ltac:(lia) ltac:(lia) (λ base, map (emit_indx base) (p_specs p)) Hk)
      as (lcn & w1 & d1 & Ea & Eb & Ep & A1 & S1 & O1 & R1 & R2 & R3 & R4 & R5 & D1 & L1 & Hl0 & Hoff & _ & Hruns).
    { eapply img_live_le; [exact Hlive|unfold cluster_size; lia]. }
    { intros base _ _. split.
      - apply Forall_map, Forall_lookup. intros i ns Hi. pose proof (spec_vcn _ T2 i ns Hi) as Ev. apply lookup_lt_Some in Hi. cbn [emit_indx fst snd].
        rewrite Ev, length_block. unfold NTFS_INDX_SIZE, cluster_size. lia.
      - unfold c. clear. induction (p_specs p) as [|ns l IH]; [done|]. cbn [map writes_len foldr emit_indx snd length]. unfold writes_len in IH.
        rewrite length_block. unfold NTFS_INDX_SIZE, cluster_size in *. lia. }
    unfold place_blocks. rewrite Ea. cbn [opt mbind outcome_bind]. rewrite Eb, Ep. cbn [opt mbind outcome_bind].
    rewrite (u64_small (c + 7)) by lia. assert (0 < (c + 7) / 8 <= 63) as Hb by dlia. rewrite (u32_small ((c + 7) / 8)) by lia.
    destruct (align8u_spec ((c + 7) / 8) ltac:(lia)) as [A2 A3]. destruct (full_bitmap_ok (align8u ((c + 7) / 8)) c) as (bm & -> & Lb); [dlia|].
    cbn [mbind outcome_bind]. eexists _, w1, d1, ((lcn, c) :: rs). split; [reflexivity|]. split; [split; cbn [x_root x_large x_blocks x_lcn x_bm]|].
    + rewrite length_view_root. pose proof (length_body true (p_out p) (p_right p) (view_sizes true _ T4)) as Lp.
      destruct Hfit as [Hfit|E]; [lia|]. rewrite E in Lp. change (body_size true []) with 24 in Lp. rewrite E. lia.
    + intros _. split_and!; try lia; [|dlia]. destruct Ho, O1. unfold OFF_MAX, cluster_size in *. lia.
    + split_and!; try done; [constructor; [done|by exists [(lcn, c)]|exact Hruns|done|done]|]. apply (alloc_ok_more _ _ _ (sum + c)); [lia|done].
Qed.
End index.

(** ** The record *)

Lemma find_here t name pre a post : Forall (λ b, a_type b ≠ t) pre → a_type a = t → a_name a = name → find_attr t name (pre ++ a :: post) = Some a.
Proof.
  intros Hp Ht Hn. unfold find_attr. rewrite filter_app, filter_none by (eapply Forall_impl; [exact Hp|]; by intros b Hb [? _]).
  rewrite filter_cons_True by done. done.
Qed.

Lemma find_attr_app t name al a more : find_attr t name al = Some a → find_attr t name (al ++ more) = Some a.
Proof. unfold find_attr. rewrite filter_app. by destruct (filter _ al). Qed.

Lemma info_types t da sid fn : t ≠ NTFS_AT_STANDARD_INFORMATION → t ≠ NTFS_AT_FILE_NAME → Forall (λ b, a_type b ≠ t) (info_attrs da sid fn).
Proof. intros. unfold info_attrs. repeat constructor; cbn; congruence. Qed.

Lemma nonres_len_4 name count lcn : length name = 4%nat → 0 <= count < 2 ^ 63 → 0 <= lcn < 2 ^ 63 → 0 < nonres_len name count lcn <= 96.
Proof.
  intros E Hc Hl. pose proof (length_enc_single_run count lcn Hc Hl). unfold nonres_len. rewrite E. change (align8u (64 + 2 * Z.of_nat 4)) with 72.
  destruct (align8u_spec (72 + Z.of_nat (length (enc_single_run count lcn))) ltac:(lia)) as [H1 H2]. dlia.
Qed.

Lemma resident_len_4 name val : length name = 4%nat → Z.of_nat (length val) <= 1000 →
  32 + Z.of_nat (length val) <= resident_len name val < 32 + Z.of_nat (length val) + 8 ∧ resident_len name val mod 8 = 0.
Proof. intros E H. unfold resident_len. rewrite E. change (align8u (24 + 2 * Z.of_nat 4)) with 32. apply align8u_spec. lia. Qed.

(** Attributes that fit are all made. *)
Definition appends (op : rop) : Prop :=
  rop_ok op ∧ 0 <= attr_len (new_attr op 0) ∧ match op with InsertName _ => False | _ => True end.
Definition rops_len (ops : list rop) : Z := foldr (λ op z, attr_len (new_attr op 0) + z) 0 ops.

Lemma rops_len_nonneg ops : Forall appends ops → 0 <= rops_len ops.
Proof. induction 1 as [|op ops (_ & H & _) _ IH]; [done|]. unfold rops_len in *. cbn [foldr]. lia. Qed.

Lemma rops_len_app ops1 ops2 : rops_len (ops1 ++ ops2) = rops_len ops1 + rops_len ops2.
Proof. unfold rops_len. induction ops1 as [|op ops1 IH]; [done|]. cbn [app foldr]. lia. Qed.

Lemma all_attrs_ok n ops : Forall appends ops → ∀ r al, tracks n r al → r_used r + rops_len ops + 8 <= NTFS_MFT_RECSZ →
  ∃ r' more, all_attrs r ops = (r', true) ∧ tracks n r' (al ++ more) ∧ same_meta r r'.
Proof.
  induction 1 as [|op ops (H1 & H2 & H3) Hops IH]; intros r al T Hfit; cbn [all_attrs].
  - exists r, []. rewrite app_nil_r. by split_and!.
  - pose proof (rops_len_nonneg ops Hops) as H0. unfold rops_len in *. cbn [foldr] in Hfit.
    destruct (rop_fits n r al op T H1 ltac:(lia)) as (r1 & E & T1 & M1 & U1). rewrite E.
    rewrite spec_append in T1; [|done|rewrite <- (proj2 T); lia].
    destruct (IH r1 _ T1 ltac:(lia)) as (r' & more & -> & T' & M'). exists r', (new_attr op (Z.of_nat (length al)) :: more).
    split; [done|]. rewrite <- app_assoc in T'. split; [exact T'|]. by eapply same_meta_trans.
Qed.

(** One attribute for the whole of a stream. *)
Definition run_attr (name : list Z) (id lcn n size : Z) : attr := mkAttr NTFS_AT_DATA name id (Nonres lcn n (u64 (n * cluster_size)) size size 0).

Definition run_fits (lcn n size : Z) : Prop := 0 <= lcn < 2 ^ 63 ∧ 0 < n < 2 ^ 63 ∧ is_u64 size.

(** The attributes of a record whose data is one run. *)
Lemma stream_tracks i r da sid fn name lcn n size : tracks i r [] → Z.of_nat (length fn) <= 255 → type_ok NTFS_AT_DATA name →
  (length name = 0 ∨ length name = 4)%nat → run_fits lcn n size →
  let r' := attrs r (info_ops da sid fn ++ [AddNonres NTFS_AT_DATA name lcn n cluster_size size size 0]) in
  tracks i r' (info_attrs da sid fn ++ [run_attr name 2 lcn n size]) ∧ same_meta r r' ∧ r_used r' <= 248 + resident_len [] fn.
Proof.
  intros T Hf Ht Hn (Hl & Hc & Hs). cbv zeta. unfold attrs, run_rops. rewrite fold_left_app. cbn [fold_left].
  destruct (info_tracks i r da sid fn T Hf) as (T1 & M1 & U1). unfold attrs, run_rops in T1, M1, U1. set (r1 := fold_left _ (info_ops da sid fn) r) in *. clearbody r1.
  assert (nonres_len name n lcn <= 96) as Hnl.
  { destruct Hn as [E|E]; [|destruct (nonres_len_4 name n lcn E ltac:(lia) ltac:(lia)); lia]. destruct name; [|done]. pose proof (nonres_len_bound n lcn ltac:(lia) ltac:(lia)). lia. }
  destruct (resident_len_bound fn ltac:(lia)) as [R1 R2]. cbn [run_rop].
  destruct (append_nonres i r1 _ NTFS_AT_DATA name lcn n cluster_size size size 0 T1 Ht Hl Hc Hs Hs) as (r2 & -> & T2 & M2 & U2); [by vm_compute|unfold NTFS_MFT_RECSZ; lia|].
  cbn [default from_option id]. split; [exact T2|]. split; [by eapply same_meta_trans|lia].
Qed.

Lemma stream_found da sid fn name lcn n size more :
  find_attr NTFS_AT_DATA name (info_attrs da sid fn ++ run_attr name 2 lcn n size :: more) = Some (run_attr name 2 lcn n size).
Proof. apply find_here; [apply info_types; by vm_compute|done|done]. Qed.

Section secure.
Context {D : Type} `{HI : Image D} (qsort_sdh : list bentry_t → list bentry_t) (Hq : ∀ l, qsort_sdh l ≡ₚ l).
Context (low : Z → Prop) (w : ntfs_writer) (d : D) (rs : runs) (sum big k : Z) (l : ntfs_layout) (r : mftrec_t).
Context (Ha : alloc_low low w rs sum big) (Ho : on_image w) (Hd : img_ok d) (Hr : get_rec w 9 = Some r) (Hres : reserved_rec 9 r).
Let n := Z.of_nat (length (sec w)).
Context (Hn : n <= 500) (Hbig : n <= big) (Hcap : mft_zone_end w + sum + 2 * n + big + 1 <= 8 * Z.of_nat (length (clbmp w))).
Context (Hk : 0 <= k) (Hlive : img_live (2 * n * cluster_size + k) d) (Hrun : run_fits (sds_lcn l) (sds_clusters l) (sds_data_size l)).

(** What the record holds at the end, and what stays. *)
Lemma fill_secure_ok : ∃ w' d' rs' r' da sid fn more, fill_secure qsort_sdh w d l = Ok (w', d') ∧
  rec w' = <[Z.to_nat 9 := r']> (rec w) ∧ grows w (img_view d) rs w' (img_view d') rs' ∧ alloc_low low w' rs' (sum + 2 * n) big ∧ on_image w' ∧
  img_ok d' ∧ img_live k d' ∧
  tracks 9 r' (info_attrs da sid fn ++ run_attr (lit "$SDS") 2 (sds_lcn l) (sds_clusters l) (sds_data_size l) :: more) ∧
  r_seq r' = 9 ∧ r_flags r' = 9 ∧ r_link_count r' = 1 ∧ r_base_ref r' = 0 ∧ r_ov r' = [].
Proof using All.
  pose proof Hres as [R1 R2 R3 R4 R5 R6 R7]. unfold fill_secure. rewrite (upd_eq _ _ _ _ Hr). cbn [mbind outcome_bind].
  unfold secure_ops. set (da := 0x20000006). set (fn := fname _ _ _ da _).
  assert (Z.of_nat (length fn) = 80) as Ef by (unfold fn; rewrite length_fname; reflexivity). clearbody fn.
  destruct (stream_tracks 9 (with_flags r (Z.lor (r_flags r) 0x08)) da 0x101 fn (lit "$SDS") (sds_lcn l) (sds_clusters l) (sds_data_size l) R1)
    as (T1 & M1 & U1); [lia|by apply type_ok_check; vm_compute|by right|done|].
  set (r1 := attrs _ _) in *. clearbody r1. destruct (resident_len_bound fn ltac:(lia)) as [L1 L2]. assert (r_used r1 <= 352) as U1' by dlia.
  destruct (rep_facts _ _ _ (proj1 T1)) as (U0 & _). rewrite (get_put_eq _ _ _ _ Hr). cbn [opt mbind outcome_bind].
  cbv zeta. rewrite (proj2 (Z.ltb_lt (r_used r1) NTFS_MFT_RECSZ)) by (unfold NTFS_MFT_RECSZ; lia).
  rewrite (proj2 (Z.ltb_lt 0x200 (NTFS_MFT_RECSZ - r_used r1))) by (unfold NTFS_MFT_RECSZ; lia).
  set (w1 := put_rec w 9 r1). assert (alloc_low low w1 rs sum big) as A1 by (by apply (alloc_ok_same _ w)).
  set (sdh := qsort_sdh _). assert (Z.of_nat (length sdh) = n) as Esdh by (unfold sdh; rewrite Hq, length_map; done).
  assert (Forall (view_wf (2 ^ 62)) sdh) as Wsdh by (unfold sdh; rewrite Hq; apply Forall_map, list.Forall_forall; intros s _; apply sdh_wf). clearbody sdh.
  change (sec w1) with (sec w). set (sii := map sii_entry (sec w)). assert (Z.of_nat (length sii) = n) as Esii by (unfold sii; by rewrite length_map).
  assert (Forall (view_wf (2 ^ 62)) sii) as Wsii by (unfold sii; apply Forall_map, list.Forall_forall; intros s _; apply sii_wf). clearbody sii.
  destruct (prepare_secure_index_ok low w1 d rs sum big (n * cluster_size + k) 0x12 sdh A1 Ho Hd Wsdh) as (x & w2 & d2 & rs2 & -> & [X1 X2] & E2 & G2 & A2 & O2 & D2 & L3);
    [lia|lia|rewrite Esdh; cbn [w1 put_rec set_rec mft_zone_end clbmp]; lia|unfold cluster_size; lia|eapply img_live_le; [exact Hlive|rewrite Esdh; lia]|].
  cbn [mbind outcome_bind]. pose proof (gr_vol _ _ _ _ _ _ G2) as (_ & _ & _ & Z2 & _ & _ & B2). cbn [w1 put_rec set_rec mft_zone_end clbmp] in Z2, B2. rewrite Esdh in A2.
  destruct (prepare_secure_index_ok low w2 d2 rs2 (sum + n) big k 0x10 sii A2 O2 D2 Wsii) as (y & w3 & d3 & rs3 & -> & [Y1 Y2] & E3 & G3 & A3 & O3 & D3 & L4);
    [lia|lia|rewrite Esii, Z2, B2; lia|lia|rewrite Esii; exact L3|]. cbn [mbind outcome_bind].
  assert (type_ok NTFS_AT_INDEX_ROOT (lit "$SDH") ∧ type_ok NTFS_AT_INDEX_ROOT (lit "$SII") ∧ type_ok NTFS_AT_INDEX_ALLOCATION (lit "$SDH") ∧
    type_ok NTFS_AT_INDEX_ALLOCATION (lit "$SII") ∧ type_ok NTFS_AT_BITMAP (lit "$SDH") ∧ type_ok NTFS_AT_BITMAP (lit "$SII")) as (K1 & K2 & K3 & K4 & K5 & K6)
    by (split_and!; apply type_ok_check; by vm_compute).
  assert (∀ t name v, (length name = 4)%nat → type_ok t name → Z.of_nat (length v) <= 96 → appends (AddResident t name v 0) ∧
    attr_len (new_attr (AddResident t name v 0) 0) <= 32 + (Z.of_nat (length v) + 7) / 8 * 8) as Hres4.
  { intros t name v E Ht Hv. destruct (resident_len_4 name v E ltac:(lia)) as [B1 B3]. cbn [new_attr attr_len resident_attr a_body a_name].
    split; [|dlia]. split_and!; [cbn [rop_ok]; split_and!; [done|lia|lia|lia]|cbn [new_attr attr_len resident_attr a_body a_name]; lia|done]. }
  assert (∀ name (z : secidx_t), (length name = 4)%nat → type_ok NTFS_AT_INDEX_ALLOCATION name → small_index z →
    Forall appends (index_run name z) ∧ rops_len (index_run name z) <= 96) as Hrun4.
  { intros name z E Ht [_ Hz]. unfold index_run. destruct (x_large z); [|split; [constructor|done]]. destruct (Hz eq_refl) as (Z1 & Z3 & Z4).
    destruct (nonres_len_4 name (x_blocks z) (x_lcn z) E ltac:(lia) Z3) as [N1 N2].
    split; [constructor; [|constructor]; split_and!|].
    - cbn [rop_ok]. split_and!; try done; try lia; apply u64_range.
    - cbn [new_attr attr_len a_body a_name]. lia.
    - done.
    - cbn [rops_len foldr new_attr attr_len a_body a_name]. lia. }
  assert (∀ name (z : secidx_t), (length name = 4)%nat → type_ok NTFS_AT_BITMAP name → small_index z →
    Forall appends (index_bits name z) ∧ rops_len (index_bits name z) <= 96) as Hbit4.
  { intros name z E Ht [_ Hz]. unfold index_bits. destruct (x_large z); [|split; [constructor|done]]. destruct (Hz eq_refl) as (Z1 & Z3 & Z4).
    destruct (Hres4 NTFS_AT_BITMAP name (x_bm z) E Ht ltac:(lia)) as [N1 N2].
    split; [by constructor|]. cbn [rops_len foldr]. dlia. }
  destruct (Hres4 NTFS_AT_INDEX_ROOT (lit "$SDH") (x_root x) eq_refl K1 X1) as [P1 Q1]. destruct (Hres4 NTFS_AT_INDEX_ROOT (lit "$SII") (x_root y) eq_refl K2 Y1) as [P2 Q2].
  destruct (Hrun4 (lit "$SDH") x eq_refl K3 (conj X1 X2)) as [P3 Q3]. destruct (Hrun4 (lit "$SII") y eq_refl K4 (conj Y1 Y2)) as [P4 Q4].
  destruct (Hbit4 (lit "$SDH") x eq_refl K5 (conj X1 X2)) as [P5 Q5]. destruct (Hbit4 (lit "$SII") y eq_refl K6 (conj Y1 Y2)) as [P6 Q6].
  set (ops := [_; _] ++ _).
  assert (Forall appends ops) as Pops by (unfold ops; repeat (apply Forall_app; split); try assumption; constructor; [exact P1|constructor; [exact P2|constructor]]).
  assert (rops_len ops <= 640) as Qops.
  { unfold ops. rewrite !rops_len_app. assert (∀ a b, rops_len [a; b] = attr_len (new_attr a 0) + attr_len (new_attr b 0)) as -> by (intros; unfold rops_len; cbn [foldr]; lia). dlia. }
  destruct (all_attrs_ok 9 ops Pops r1 _ T1) as (r' & more & -> & T' & M'); [unfold NTFS_MFT_RECSZ; lia|]. clearbody ops. cbn [negb fail_if].
  pose proof (same_meta_trans _ _ _ M1 M') as (N1 & N2 & N3 & N4 & N5 & N6 & N7 & N8). cbn [with_flags r_seq r_flags r_link_count r_is_dir r_entries r_reparse r_ov r_base_ref] in *.
  exists (put_rec w3 9 r'), d3, rs3, r', da, 0x101, fn, more. split; [reflexivity|].
  assert (grows w (img_view d) rs w3 (img_view d3) rs3) as G.
  { eapply grows_trans; [|exact G3]. eapply grows_trans; [|exact G2]. apply grows_rec; [apply grows_refl|done]. }
  split; [|split; [|split; [|split; [exact O3|split; [exact D3|split; [exact L4|]]]]]].
  - cbn [put_rec set_rec rec]. rewrite E3, E2. unfold w1, put_rec. cbn [set_rec rec]. by rewrite list_insert_insert_eq.
  - apply grows_rec; [exact G|by destruct (gr_sec _ _ _ _ _ _ G) as (_ & _ & ->)].
  - rewrite Esii in A3. replace (sum + n + n) with (sum + 2 * n) in A3 by lia. by apply (alloc_ok_same _ w3).
  - split; [rewrite <- app_assoc in T'; exact T'|]. rewrite N1, N2, N3, N7, N8, R2, R3, R4, R6, R7. done.
Qed.
End secure.
