(* ===== verification/NtfsFill.v ===== *)
(** * The records of the metafiles
      ([src/tools/iso-patch-mac/engine/ntfs.c]: the third step of
      [ntfs_writer_close])

    [fill_records] succeeds, touches the records 0 to 23 alone, leaves each of
    them sound with its stream where the layout says, and takes nothing back
    that was on the volume. *)

From Stdlib Require Import String Sorted.
From S2P Require Import Prelude Bytes WStr Outcome BlockIO ImageWrites NtfsCodec NtfsIndex NtfsDir NtfsRecord NtfsLookup Bitmap NtfsVolume NtfsAlloc NtfsTree NtfsMeta NtfsLinks NtfsClose NtfsSession NtfsRuns NtfsSteps NtfsOpen NtfsIndexed NtfsNamed NtfsPlan NtfsSecure.

Lemma length_si da sid : length (si da sid) = 72%nat.
Proof. apply length_std_info. Qed.

#[local] Opaque fname si.

(** ** What a filled record is *)

(** The stream of a metafile: its name, its run and its size. *)
Definition meta_stream (w : ntfs_writer) (l : ntfs_layout) (i : Z) : option (list Z * Z * Z * Z) :=
  if i =? 0 then Some ([], mft_lcn l, mft_clusters l, mft_count l * NTFS_MFT_RECSZ)
  else if i =? 1 then Some ([], mftmirr_lcn w, 1, 4 * NTFS_MFT_RECSZ)
  else if i =? 2 then Some ([], logfile_lcn l, logfile_clusters l, logfile_bytes l)
  else if i =? 4 then Some ([], attrdef_lcn l, attrdef_clusters l, 2560)
  else if i =? 6 then Some ([], bitmap_lcn l, bitmap_clusters l, u64 (total_clusters w + 7) / 8)
  else if i =? 7 then Some ([], 0, 2, 8192)
  else if i =? 9 then Some (lit "$SDS", sds_lcn l, sds_clusters l, sds_data_size l)
  else if i =? 10 then Some ([], upcase_lcn l, 32, 0x20000)
  else None.

Definition has_stream (r : mftrec_t) (al : list attr) (s : option (list Z * Z * Z * Z)) : Prop :=
  match s with
  | Some (name, lcn, n, size) => find_attr NTFS_AT_DATA name al = Some (run_attr name 2 lcn n size) ∧ Z.odd (r_flags r) = true
  | None => True
  end.

(** Record 8 describes a hole, which the reader of [NtfsRecord] does not parse. *)
Definition filled (w : ntfs_writer) (l : ntfs_layout) (i : Z) (r : mftrec_t) : Prop :=
  r_ov r = [] ∧
  if i =? 8 then length (r_buf r) = Z.to_nat NTFS_MFT_RECSZ
  else ∃ al, tracks i r al ∧ meta_ok r ∧ r_seq r = seq_of i ∧ has_stream r al (meta_stream w l i).

Lemma reserved_meta i r : 0 <= i < 27 → reserved_rec i r → meta_ok r.
Proof.
  intros Hi [H1 H2 H3 H4 H5 H6 H7]. unfold meta_ok. rewrite H2, H3, H4, H6. pose proof (seq_of_range i ltac:(lia)).
  split_and!; [unfold is_u16; lia|done|destruct (reserved_dir i); by vm_compute|by vm_compute].
Qed.

Lemma meta_same r r' : same_meta r r' → meta_ok r → meta_ok r'.
Proof. intros (E1 & E2 & E3 & _ & _ & _ & _ & E8). unfold meta_ok. by rewrite E1, E2, E3, E8. Qed.

(** A record of the reserved ones with [ops] done to it. *)
Lemma filled_stream w l i r alloc da name lcn n size ops : 0 <= i < 27 → i ≠ 8 → reserved_rec i r → Z.of_nat (length name) <= 8 → Forall rop_ok ops →
  Forall (λ op, match op with InsertName _ => False | _ => True end) ops → run_fits lcn n size →
  meta_stream w l i = Some ([], lcn, n, size) →
  filled w l i (attrs r (info_ops 0x06 0x100 (fname (file_ref NTFS_REC_ROOT) alloc da 0x06 name) ++ [AddNonres NTFS_AT_DATA [] lcn n cluster_size size size 0] ++ ops)).
Proof.
  intros Hi H8 R Hn Hops Hap Hrun Hs. pose proof (reserved_meta i r Hi R) as Hm. pose proof R as [R1 R2 R3 R4 R5 R6 R7].
  set (fn := fname _ _ _ _ _). assert (Z.of_nat (length fn) <= 255) as Ef by (unfold fn; rewrite length_fname; lia). clearbody fn.
  destruct (stream_tracks i r 0x06 0x100 fn [] lcn n size R1 Ef) as (T & M & _); [by apply type_ok_check; vm_compute|by left|done|].
  unfold filled. rewrite (proj2 (Z.eqb_neq _ _)) by done. unfold attrs, run_rops in *. rewrite app_assoc, fold_left_app.
  set (r1 := fold_left _ (info_ops 0x06 0x100 fn ++ _) r) in *. clearbody r1.
  assert (∃ more, tracks i (run_rops r1 ops) ((info_attrs 6 256 fn ++ [run_attr [] 2 lcn n size]) ++ more) ∧ same_meta r1 (run_rops r1 ops)) as (more & T2 & M2).
  { destruct (rops_tracks i ops Hops r1 _ T) as [T2 M2]. revert T2. clear - Hap M2.
    generalize (info_attrs 6 256 fn ++ [run_attr [] 2 lcn n size]). intros al T2. 
    assert (∃ more, spec_rops al ops = al ++ more) as (more & E).
    { clear - Hap. revert al. induction ops as [|op ops IH]; intros al; [exists []; by rewrite app_nil_r|]. inversion Hap as [|? ? Ho Hap']; subst.
      unfold spec_rops in *. cbn [fold_left]. unfold spec_rop at 2. destruct (_ <=? _).
      - destruct op; try done; (match goal with |- context [fold_left _ _ (al ++ [?a])] => destruct (IH Hap' (al ++ [a])) as (m & ->) end); rewrite <- app_assoc; by eexists.
      - by apply IH. }
    rewrite E in T2. by exists more. }
  pose proof (same_meta_trans _ _ _ M M2) as (N1 & N2 & N3 & N4 & N5 & N6 & N7 & N8). unfold run_rops in *.
  split; [by rewrite N7|]. eexists. split; [exact T2|]. split; [eapply meta_same; [|exact Hm]; by eapply same_meta_trans|]. split; [by rewrite N1|].
  rewrite Hs. unfold has_stream. split; [rewrite <- app_assoc; apply stream_found|]. rewrite N2, R3. by destruct (reserved_dir i).
Qed.

Lemma filled_ops w l i r ops : i ≠ 8 → tracks i r [] → meta_ok r → r_seq r = seq_of i → r_ov r = [] → Forall rop_ok ops → meta_stream w l i = None →
  filled w l i (attrs r ops).
Proof.
  intros H8 R1 Hm R2 R7 Hops Hs.
  destruct (rops_tracks i ops Hops r [] R1) as [T M]. unfold filled, attrs. rewrite (proj2 (Z.eqb_neq _ _)) by done.
  split; [destruct M as (_ & _ & _ & _ & _ & _ & -> & _); done|]. eexists. split; [exact T|]. split; [by eapply meta_same|].
  split; [by destruct M as (-> & _)|]. by rewrite Hs.
Qed.

(** ** Filling one after the other *)

Record filling (w0 : ntfs_writer) (l : ntfs_layout) (done_ : list Z) (w : ntfs_writer) : Prop := {
  fg_vol : same_volume w0 w;
  fg_plan : same_plan w0 w;
  fg_sec : sec w = sec w0 ∧ rpl w = rpl w0;
  fg_todo : ∀ i, 0 <= i → i ∉ done_ → get_rec w i = get_rec w0 i;
  fg_done : ∀ i, i ∈ done_ → ∃ r, get_rec w i = Some r ∧ filled w0 l i r;
  fg_bound : Forall (λ i, 0 <= i < 27) done_;
}.

Lemma filling_set w0 l S w w' i r r' : filling w0 l S w → same_volume w w' → same_plan w w' → sec w' = sec w ∧ rpl w' = rpl w → rec w' = <[Z.to_nat i := r']> (rec w) →
  0 <= i < 27 → i ∉ S → get_rec w i = Some r → filled w0 l i r' → filling w0 l (i :: S) w'.
Proof.
  intros [F1 F2 [F3 F3'] F4 F5 F6] Hv Hp [Hs Hs'] Er Hi Hn Hr Hf. rewrite list.Forall_forall in F6.
  assert (∀ j, 0 <= j → j ≠ i → get_rec w' j = get_rec w j) as Hne by (intros j Hj H; unfold get_rec; rewrite Er; apply list_lookup_insert_ne; lia).
  constructor; [by eapply same_volume_trans|by eapply same_plan_trans|split; congruence| | |].
  - intros j Hj Hns. apply not_elem_of_cons in Hns as [N1 N2]. rewrite Hne by done. by apply F4.
  - intros j Hj. apply elem_of_cons in Hj as [->|Hj].
    + exists r'. split; [|done]. unfold get_rec in *. rewrite Er. apply list_lookup_insert_eq. by eapply lookup_lt_Some.
    + destruct (F5 j Hj) as (rj & Hrj & Hfj). exists rj. split; [|done]. specialize (F6 j Hj). rewrite Hne; [done|lia|]. intros ->. done.
  - constructor; [done|]. by apply list.Forall_forall.
Qed.

Lemma filling_put w0 l S w i r r' : filling w0 l S w → 0 <= i < 27 → i ∉ S → get_rec w i = Some r → filled w0 l i r' → filling w0 l (i :: S) (put_rec w i r').
Proof. intros F Hi Hn Hr Hf. by apply (filling_set w0 l S w _ i r r'). Qed.

Lemma filling_upd w0 l S w i f : filling w0 l S w → (∃ r, get_rec w0 i = Some r ∧ reserved_rec i r) → 0 <= i < 27 → i ∉ S →
  (∀ r, reserved_rec i r → filled w0 l i (f r)) →
  ∃ w', upd w i f = Ok w' ∧ filling w0 l (i :: S) w' ∧ same_rest w w'.
Proof.
  intros F (r & Hr & R) Hi Hn Hf. assert (get_rec w i = Some r) as Hw by (rewrite (fg_todo _ _ _ _ F) by (done || lia); done).
  exists (put_rec w i (f r)). split; [by apply upd_eq|]. split; [|apply same_rest_put]. by apply (filling_put _ _ _ _ _ r); [| | | |apply Hf].
Qed.

Lemma root_ref_filling w0 l S w : filling w0 l S w → NTFS_REC_ROOT ∉ S → ntfs_root_ref w = ntfs_root_ref w0.
Proof.
  intros F H. pose proof (fg_todo _ _ _ _ F NTFS_REC_ROOT ltac:(by vm_compute) H) as E. unfold ntfs_root_ref, get_rec in *. by rewrite E.
Qed.

(** ** The hole of the bad clusters *)

Lemma length_bad_attr total id : (length (bad_attr total id) <= 96)%nat.
Proof. unfold bad_attr. rewrite length_take. unfold w8, w16, w32, w64. rewrite !length_splice, length_replicate. lia. Qed.

Lemma fill_badclus_ok w0 l S w : filling w0 l S w → (∃ r, get_rec w0 8 = Some r ∧ reserved_rec 8 r) → 8 ∉ S →
  ∃ w', fill_badclus w = Ok w' ∧ filling w0 l (8 :: S) w' ∧ same_rest w w'.
Proof.
  intros F (r & Hr & R) Hn. assert (get_rec w 8 = Some r) as Hw by (rewrite (fg_todo _ _ _ _ F) by (done || lia); done).
  pose proof R as [R1 R2 R3 R4 R5 R6 R7]. unfold fill_badclus. rewrite (upd_eq _ _ _ _ Hw). cbn [mbind outcome_bind]. rewrite (get_put_eq _ _ _ _ Hw). cbn [opt mbind outcome_bind].
  set (fn := fname _ _ _ _ _). assert (Z.of_nat (length fn) = 82) as Ef by (unfold fn; rewrite length_fname; reflexivity). clearbody fn.
  unfold attrs at 2 4. unfold run_rops. rewrite fold_left_app. cbn [fold_left run_rop].
  destruct (info_tracks 8 r 0x06 0x100 fn R1 ltac:(lia)) as (T1 & M1 & U1). unfold attrs, run_rops in T1, M1, U1. set (r1 := fold_left _ (info_ops _ _ fn) r) in *. clearbody r1.
  destruct (resident_len_bound fn ltac:(lia)) as [L1 L2]. change (resident_len [] (@nil Z)) with 24.
  destruct (append_resident 8 r1 _ NTFS_AT_DATA [] [] 0 T1) as (r2 & -> & T2 & M2 & U2); [by apply type_ok_check; vm_compute|cbn; lia|lia|change (resident_len [] (@nil Z)) with 24; unfold NTFS_MFT_RECSZ; lia|].
  change (resident_len [] (@nil Z)) with 24 in U2. cbn [default from_option id]. unfold append_raw.
  pose proof (length_bad_attr (total_clusters (put_rec w 8 r2)) (r_attr_id r2)) as Lb. set (a := bad_attr _ _) in *. clearbody a.
  rewrite (proj2 (Z.ltb_ge _ _)) by (unfold NTFS_MFT_RECSZ; lia). cbn [mbind outcome_bind].
  eexists. split; [reflexivity|]. rewrite put_put. split; [|apply same_rest_put]. apply (filling_put _ _ _ _ _ r); [done|lia|done|done|].
  unfold filled. destruct M1 as (_ & _ & _ & _ & _ & _ & E1 & _). destruct M2 as (_ & _ & _ & _ & _ & _ & E2 & _).
  split; [cbn [set_attrs r_ov]; by rewrite E2, E1|]. cbn [Z.eqb Pos.eqb set_attrs r_buf]. rewrite length_splice.
  destruct T2 as [(hd & bss & tl & _ & El & _) _]. lia.
Qed.

(** ** The MFT and its bitmap *)

Lemma mark_records_ok n : ∀ k mb, 0 <= k → k + Z.of_nat n <= 8 * Z.of_nat (length mb) → ∃ mb', mark_records n k mb = Some mb' ∧ length mb' = length mb.
Proof.
  induction n as [|n IH]; intros k mb Hk Hn; cbn [mark_records]; [by exists mb|].
  assert (∃ b, (if (k <? 16) || (23 <? k) then bmp_set mb k else Some mb) = Some b ∧ length b = length mb) as (b & -> & Lb).
  { destruct (_ || _); [|by exists mb]. destruct (bmp_set_spec mb k ltac:(lia)) as (b & E & L & _). by exists b. }
  cbn [mbind option_bind]. destruct (IH (k + 1) b) as (b' & E & L'); [lia|rewrite Lb; lia|]. exists b'. split; [done|congruence].
Qed.

Section fill.
Context {D : Type} `{HI : Image D} (upcase : Z → Z) (qsort_sdh : list bentry_t → list bentry_t) (Hq : ∀ l, qsort_sdh l ≡ₚ l).
Context (low : Z → Prop) (w : ntfs_writer) (d : D) (rs : runs) (sum big : Z) (l : ntfs_layout).
Context (Ha : alloc_low low w rs sum big) (Ho : on_image w) (Hd : img_ok d) (Hres : ∀ i, 0 <= i < 24 → i ∉ named_recs → ∃ r, get_rec w i = Some r ∧ reserved_rec i r).
Context (Hroot : ntfs_root_ref w = file_ref NTFS_REC_ROOT).
Context (Hcount : mft_count l = nrec w) (Hn : 27 <= nrec w < 2 ^ 32) (Hbb : mftbmp_bytes l = bmp_bytes_of (nrec w)) (Hbl : mftbmp_lcn l = bmp_at (nrec w)) (Hbc : mftbmp_clusters l = bmp_len (nrec w)).
Context (Hml : mft_lcn l = mft_at (nrec w)) (Hmc : mft_clusters l = mft_len (nrec w)) (Hzone : mft_at (nrec w) + mft_len (nrec w) <= mft_zone_end w) (Hfits : mft_zone_end w <= 8 * Z.of_nat (length (clbmp w))).
Lemma front_run : run_fits (mft_lcn l) (mft_clusters l) (mft_count l * NTFS_MFT_RECSZ).
Proof using Hn Hcount Hml Hmc.
  destruct (front_spec (nrec w) Hn) as (F1 & F2 & F3 & F4 & F5 & F6 & F7 & F8). unfold run_fits, is_u64, NTFS_MFT_RECSZ. rewrite Hml, Hmc, Hcount. lia.
Qed.

Lemma fill_mft_ok k : 0 <= k → img_live (bmp_len (nrec w) * cluster_size + k) d →
  ∃ w' d', fill_mft w d l = Ok (w', d') ∧ filling w l [0] w' ∧ same_rest w w' ∧ img_ok d' ∧ img_live k d' ∧
    Forall (λ x, run_bytes (img_view d') w x = run_bytes (img_view d) w x) rs.
Proof using All.
  intros Hk Hlive. destruct (Hres 0 ltac:(lia)) as (r & Hr & R); [apply not_named; lia|].
  destruct (front_spec (nrec w) Hn) as (F1 & F2 & F3 & F4 & F5 & F6 & F7 & F8).
  assert (filling w l [] w) as Fw by (constructor; try done; intros i Hi; by apply elem_of_nil in Hi).
  assert (∀ op, rop_ok op → (match op with InsertName _ => False | _ => True end) → filled w l 0 (attrs (attrs r (mft_ops (ntfs_root_ref w) l)) [op])) as Hfill.
  { intros op Hop Ha'. unfold attrs, run_rops. rewrite <- fold_left_app. change (fold_left _ ?ops r) with (attrs r ops). unfold mft_ops. rewrite Hroot, <- app_assoc.
    apply (filled_stream w l 0 r (clusters_bytes (mft_clusters l)) (mft_count l * NTFS_MFT_RECSZ) (lit "$MFT") (mft_lcn l) (mft_clusters l) (mft_count l * NTFS_MFT_RECSZ) [op]);
      [lia|lia|exact R|by vm_compute|by constructor|by constructor|apply front_run|reflexivity]. }
  unfold fill_mft. rewrite (upd_eq _ _ _ _ Hr). cbn [mbind outcome_bind]. rewrite Hbb, Hcount.
  destruct (Z.leb_spec (bmp_bytes_of (nrec w)) 0x40) as [Hb|Hb].
  - destruct (mark_records_ok (Z.to_nat (nrec w)) 0 (replicate (Z.to_nat 0x40) 0)) as (mb & E & L); [lia|rewrite length_replicate; unfold bmp_bytes_of in Hb; dlia|].
    change (Z.to_nat 0x40) with 64%nat in *. rewrite E. cbn [opt mbind outcome_bind]. erewrite upd_eq by apply (get_put_eq _ _ _ _ Hr). cbn [mbind outcome_bind]. rewrite put_put.
    eexists _, d. split; [reflexivity|]. split; [|split; [apply same_rest_put|split; [done|split; [|by apply list.Forall_forall]]]].
    + apply (filling_put _ _ _ _ _ r); [done|lia|apply not_elem_of_nil|done|]. apply Hfill; [|done]. cbn [rop_ok]. split_and!; [by apply type_ok_check; vm_compute|rewrite length_take, L, length_replicate; lia|lia|lia].
    + eapply img_live_le; [exact Hlive|unfold cluster_size; lia].
  - assert (0 < bmp_len (nrec w)) as Hl0 by (unfold bmp_len; rewrite (proj2 (Z.leb_gt _ _)) by lia; unfold cluster_size; dlia).
    specialize (F6 Hl0). assert (clusters_bytes (mftbmp_clusters l) = bmp_len (nrec w) * cluster_size) as Ec by (unfold clusters_bytes; rewrite Hbc, u64_small by (unfold cluster_size; lia); done).
    rewrite Ec. destruct (mark_records_ok (Z.to_nat (nrec w)) 0 (replicate (Z.to_nat (bmp_len (nrec w) * cluster_size)) 0)) as (mb & -> & L).
    { lia. } { rewrite length_replicate. unfold bmp_len, bmp_bytes_of, cluster_size in *. rewrite (proj2 (Z.leb_gt _ _)) in * by lia. dlia. }
    cbn [opt mbind outcome_bind]. rewrite length_replicate in L.
    set (w1 := put_rec w 0 _). pose proof (ao_zone _ _ _ _ Ha) as Hz. pose proof Ho as [O1 O2].
    assert (cluster_byte w1 (mftbmp_lcn l) = part_off w + 2 * cluster_size) as Eb.
    { rewrite Hbl, F6. apply (cluster_byte_ok w1 2); [done|cbn [w1 put_rec set_rec clbmp]; lia]. }
    rewrite Eb. set (ws := [(part_off w + 2 * cluster_size, mb)]).
    assert (inside (part_off w) (part_off w + mft_zone_end w * cluster_size) ws) as Hin.
    { constructor; [|constructor]. cbn [fst snd]. unfold cluster_size in *. lia. }
    destruct (puts_total ws d k Hd) as (d1 & -> & Hd1 & _ & Hv & Hl1); [eapply inside_fit; [| |exact Hin]; unfold OFF_MAX, cluster_size in *; lia|done| |].
    { eapply img_live_le; [exact Hlive|]. unfold ws, writes_len. cbn [foldr snd]. unfold cluster_size in *. lia. }
    cbn [opt mbind outcome_bind]. erewrite upd_eq by apply (get_put_eq _ _ _ _ Hr). cbn [mbind outcome_bind]. unfold w1. rewrite put_put.
    eexists _, d1. split; [reflexivity|]. split; [|split; [apply same_rest_put|split; [done|split; [done|]]]].
    + apply (filling_put _ _ _ _ _ r); [done|lia|apply not_elem_of_nil|done|]. apply Hfill; [|done]. cbn [rop_ok].
      split_and!; try lia; [by apply type_ok_check; vm_compute|unfold is_u64, bmp_bytes_of; dlia|unfold is_u64, bmp_bytes_of; dlia|by vm_compute].
    + apply (runs_keep low w rs sum big _ _ ws Ha Ho Hv). apply list.Forall_forall. intros x Hx. apply (inside_avoids _ _ _ _ _ Hin). left.
      destruct (run_base low w rs sum big x Ha Ho Hx) as (_ & B & _). unfold cluster_size. lia.
Qed.

(** ** The other records *)

Context (Hruns : ∀ i name lcn n size, meta_stream w l i = Some (name, lcn, n, size) → run_fits lcn n size) (Hlab : (length (label w) <= 32)%nat).

(** Some records are filled, and the rest of the volume is as in [b]. *)
Definition waits (b : ntfs_writer) (S : list Z) (w1 : ntfs_writer) : Prop := filling w l S w1 ∧ same_rest b w1.

Lemma upd_step b S w1 i f : waits b S w1 → 0 <= i < 24 → i ∉ named_recs → i ∉ S → (∀ r, reserved_rec i r → filled w l i (f r)) →
  ∃ w2, upd w1 i f = Ok w2 ∧ waits b (i :: S) w2.
Proof using All.
  intros [F R] Hi Hnm HS Hf. destruct (filling_upd w l S w1 i f F (Hres i Hi Hnm) ltac:(lia) HS Hf) as (w2 & E & F2 & R2).
  exists w2. split; [exact E|]. split; [exact F2|]. by eapply same_rest_trans.
Qed.

Lemma stream_step b S w1 i f alloc name lcn n size ops : waits b S w1 → 0 <= i < 24 → i ≠ 8 → i ∉ named_recs → i ∉ S → Z.of_nat (length name) <= 8 →
  Forall rop_ok ops → Forall (λ op, match op with InsertName _ => False | _ => True end) ops →
  meta_stream w l i = Some ([], lcn, n, size) → (∀ r, f r = attrs r (stream_ops (file_ref NTFS_REC_ROOT) alloc name lcn n size ++ ops)) →
  ∃ w2, upd w1 i f = Ok w2 ∧ waits b (i :: S) w2.
Proof using All.
  intros W Hi H8 Hnm HS Hname Hops Hap Hs Hf. apply (upd_step b S w1 i f W Hi Hnm HS). intros r R. rewrite Hf. unfold stream_ops. rewrite <- app_assoc.
  apply filled_stream; try done; [lia|by eapply Hruns].
Qed.

Lemma reserved_step b S w1 i : waits b S w1 → 12 <= i < 16 → i ∉ S → ∃ w2, upd w1 i (λ r, attrs (with_links r 0) reserved_ops) = Ok w2 ∧ waits b (i :: S) w2.
Proof using All.
  intros W Hi HS. apply (upd_step b S w1 i _ W ltac:(lia)); [apply not_named; lia|done|]. intros r R. pose proof (reserved_meta i r ltac:(lia) R) as (M1 & M2 & M3 & M4).
  apply filled_ops; [lia|apply R|by split_and!|apply R|apply R| |].
  - assert (length (si 6 256) = 72%nat) as Esi by apply length_si. unfold reserved_ops. set (s := si _ _) in *. clearbody s.
    constructor; [|constructor; [|constructor]]; cbn [rop_ok length]; (split_and!; [by apply type_ok_check; vm_compute|rewrite ?Esi; lia|lia|lia]).
  - unfold meta_stream. repeat rewrite (proj2 (Z.eqb_neq i _)) by lia. done.
Qed.

Lemma freed_step b S w1 i : waits b S w1 → 16 <= i < 24 → i ∉ S → ∃ w2, upd w1 i freed = Ok w2 ∧ waits b (i :: S) w2.
Proof using All.
  intros W Hi HS. apply (upd_step b S w1 i _ W ltac:(lia)); [apply not_named; lia|done|]. intros r R. pose proof (reserved_meta i r ltac:(lia) R) as (M1 & M2 & M3 & M4).
  unfold filled. rewrite (proj2 (Z.eqb_neq i 8)) by lia. split; [apply R|]. exists []. pose proof (rv_tracks _ _ R) as [(hd & bss & tl & T) U]. split.
  - split; [|reflexivity]. exists hd, bss, tl. unfold freed. cbn [set_attrs with_links with_flags r_buf r_used r_attr_id]. destruct T as (T1 & T2 & T3 & T4 & T5 & T6 & T7).
    rewrite U in T5. change (used_by []) with 0x38 in T5. by split_and!.
  - split; [by split_and!|]. split; [apply R|]. unfold meta_stream. repeat rewrite (proj2 (Z.eqb_neq i _)) by lia. done.
Qed.

Lemma each_step b (P : Z → Prop) f l' : (∀ S w1 i, waits b S w1 → P i → i ∉ S → ∃ w2, upd w1 i f = Ok w2 ∧ waits b (i :: S) w2) →
  ∀ S w1, waits b S w1 → Forall P l' → NoDup l' → Forall (λ i, i ∉ S) l' →
  ∃ w2, each (λ w i, upd w i f) w1 l' = Ok w2 ∧ waits b (rev l' ++ S) w2.
Proof using.
  intros Hf. induction l' as [|i l' IH]; intros S w1 W HP Hnd HS; cbn [each]; [by exists w1|].
  inversion HP as [|? ? Hi HP']; subst. inversion Hnd as [|? ? Hni Hnd']; subst. inversion HS as [|? ? Hs HS']; subst.
  destruct (Hf S w1 i W Hi Hs) as (w2 & -> & W2). cbn [mbind outcome_bind]. destruct (IH (i :: S) w2 W2 HP' Hnd') as (w3 & -> & W3).
  - apply list.Forall_forall. intros j Hj. rewrite list.Forall_forall in HS'. apply not_elem_of_cons. split; [by intros ->|by apply HS'].
  - exists w3. split; [done|]. cbn [rev]. by rewrite <- app_assoc.
Qed.

Lemma volume_step b S w1 : waits b S w1 → 3 ∉ S → ∃ w2, upd w1 3 (λ r, attrs r (volume_ops w1 (file_ref NTFS_REC_ROOT))) = Ok w2 ∧ waits b (3 :: S) w2.
Proof using All.
  intros W HS. apply (upd_step b S w1 3 _ W ltac:(lia)); [apply not_named; lia|done|]. intros r R. destruct W as [F _].
  destruct (fg_plan _ _ _ _ F) as (_ & _ & El & _). apply filled_ops; [lia|apply R|by apply (reserved_meta 3)|apply R|apply R| |done].
  unfold volume_ops. rewrite El. set (fn := fname _ _ _ _ _). assert (Z.of_nat (length fn) = 80) as Ef by (unfold fn; rewrite length_fname; reflexivity). clearbody fn.
  assert (length (si 6 256) = 72%nat) as Esi by apply length_si. unfold info_ops. set (s := si _ _) in *. clearbody s. repeat (apply Forall_app; split).
  - constructor; [|constructor; [|constructor]]; cbn [rop_ok]; (split_and!; [by apply type_ok_check; vm_compute|lia|lia|lia]).
  - destruct (negb _); [|constructor]. constructor; [|constructor]. cbn [rop_ok]. split_and!; [by apply type_ok_check; vm_compute|rewrite length_unit_bytes, length_map; lia|lia|lia].
  - constructor; [|constructor; [|constructor]]; cbn [rop_ok]; (split_and!; [by apply type_ok_check; vm_compute|vm_compute; congruence|lia|lia]).
Qed.

(** With at most 500 descriptors, and room for their indexes. *)
Let n := Z.of_nat (length (sec w)).
Context (Hsec : n <= 500) (Hbig : n <= big) (Hcap : mft_zone_end w + sum + 2 * n + big + 1 <= 8 * Z.of_nat (length (clbmp w))).

Lemma secure_step S w1 d1 k : waits w S w1 → 9 ∉ S → img_ok d1 → 0 <= k → img_live (2 * n * cluster_size + k) d1 →
  ∃ w2 d2 rs2, fill_secure qsort_sdh w1 d1 l = Ok (w2, d2) ∧ filling w l (9 :: S) w2 ∧ length (rec w2) = length (rec w1) ∧
    grows w1 (img_view d1) rs w2 (img_view d2) rs2 ∧ alloc_low low w2 rs2 (sum + 2 * n) big ∧ on_image w2 ∧ img_ok d2 ∧ img_live k d2.
Proof using All.
  intros [F R] HS Hd1 Hk Hlive. destruct (Hres 9 ltac:(lia)) as (r & Hr & R9); [apply not_named; lia|].
  assert (get_rec w1 9 = Some r) as Hr1 by (rewrite (fg_todo _ _ _ _ F) by (done || lia); exact Hr).
  pose proof R as (Sv & Sn & Sb & Ss & Sc & Sp & Sl). pose proof Sv as (_ & _ & _ & Sz & _ & _ & Sbl).
  destruct (fill_secure_ok qsort_sdh Hq low w1 d1 rs sum big k l r) as (w2 & d2 & rs2 & r' & da & sid & fn & more & E & Er & G & A & O & D2 & L & T & N1 & N2 & N3 & N4 & N5);
    [by apply (alloc_ok_same _ w)|by apply (on_image_same w)|done|done|exact R9|rewrite Ss; exact Hsec|rewrite Ss; exact Hbig|rewrite Ss, Sz, Sbl; exact Hcap|done|rewrite Ss; exact Hlive|by apply (Hruns 9 (lit "$SDS"))|].
  exists w2, d2, rs2. split; [exact E|]. rewrite Ss in A. split_and!; try done; [|by rewrite Er, length_insert].
  destruct G as [G1 G2 G3 (G4 & G4' & _) G5]. apply (filling_set w l S w1 w2 9 r r' F G1 G5 (conj G4 G4') Er ltac:(lia) HS Hr1).
  split; [exact N5|]. change (9 =? 8) with false. cbv iota. eexists. split; [exact T|]. split; [|split; [exact N1|split; [apply stream_found|by rewrite N2]]].
  unfold meta_ok. rewrite N1, N2, N3, N4. by split_and!.
Qed.

Definition fill_list : list Z := [0; 1; 2; 3; 4; 6; 7; 8; 9; 10; 12; 13; 14; 15; 16; 17; 18; 19; 20; 21; 22; 23].

Lemma not_in_check (i : Z) S : existsb (Z.eqb i) S = false → i ∉ S.
Proof using. intros H Hin. apply list_elem_of_In in Hin. assert (existsb (Z.eqb i) S = true) as E by (apply existsb_exists; exists i; split; [done|apply Z.eqb_refl]). congruence. Qed.

Context (Hlay : mftmirr_lcn w = reserve_lcn w ∧ attrdef_clusters l = 1).

Lemma length_upcase_info : length (upcase_info upcase) = 32%nat.
Proof using. unfold upcase_info, w32, w64. by rewrite !length_splice, length_replicate. Qed.

(** One metafile with its data in a run. *)
Ltac stream_upd St W :=
  match goal with |- context [upd ?w0 ?i (λ r, attrs r (stream_ops ?ref ?alloc ?name ?lcn ?n ?size))] =>
    let w2 := fresh "w" in let W2 := fresh "W" in
    destruct (St _ _ w0 i alloc name lcn n size W) as (w2 & -> & W2);
      [reflexivity|reflexivity|reflexivity|cbn; lia| |cbn [mbind outcome_bind]; clear W; rename W2 into W]
  end.

(** The records before [$Secure]. *)
Lemma fill_front w1 : waits w [0] w1 → ∃ w8, (∀ A (K : ntfs_writer → outcome A),
   (    w ← upd w1 1 (λ r, attrs r (stream_ops (file_ref NTFS_REC_ROOT) cluster_size (lit "$MFTMirr") (mftmirr_lcn w1) 1 (4 * NTFS_MFT_RECSZ)));
    w ← upd w 2 (λ r, attrs r (stream_ops (file_ref NTFS_REC_ROOT) (clusters_bytes (logfile_clusters l)) (lit "$LogFile") (logfile_lcn l) (logfile_clusters l) (logfile_bytes l)));
    w ← upd w 3 (λ r, attrs r (volume_ops w (file_ref NTFS_REC_ROOT)));
    w ← upd w 4 (λ r, attrs r (stream_ops (file_ref NTFS_REC_ROOT) (clusters_bytes (attrdef_clusters l)) (lit "$AttrDef") (attrdef_lcn l) (attrdef_clusters l) (Z.of_nat (length build_attrdef))));
    w ← upd w 6 (λ r, attrs r (stream_ops (file_ref NTFS_REC_ROOT) (clusters_bytes (bitmap_clusters l)) (lit "$Bitmap") (bitmap_lcn l) (bitmap_clusters l) (u64 (total_clusters w + 7) / 8)));
    w ← upd w 7 (λ r, attrs r (stream_ops (file_ref NTFS_REC_ROOT) (2 * cluster_size) (lit "$Boot") 0 ((8192 + cluster_size - 1) / cluster_size) 8192));
    w ← fill_badclus w;
    K w) = K w8) ∧ waits w [8; 7; 6; 4; 3; 2; 1; 0] w8.
Proof using All.
  intros W1. rewrite length_attrdef. change ((8192 + cluster_size - 1) / cluster_size) with 2. destruct Hlay as [_ Eattr].
  assert (∀ b S w1 i alloc name lcn n size, waits b S w1 → (0 <=? i) && (i <? 24) && negb (i =? 8) = true → existsb (Z.eqb i) named_recs = false →
    existsb (Z.eqb i) S = false → (length name <= 8)%nat → meta_stream w l i = Some ([], lcn, n, size) →
    ∃ w2, upd w1 i (λ r, attrs r (stream_ops (file_ref NTFS_REC_ROOT) alloc name lcn n size)) = Ok w2 ∧ waits b (i :: S) w2) as St.
  { intros b S w2 i alloc name lcn m size W Hi Hnm HS Hlen Hm. zbool. apply (stream_step b S w2 i _ alloc name lcn m size [] W); [lia|lia|by apply not_in_check|by apply not_in_check|lia|constructor|constructor|exact Hm|].
    intros r. by rewrite app_nil_r. }
  match goal with |- ∃ w8, (∀ A K, @?ch A K = _) ∧ _ =>
    assert (∃ w8, ch _ Ok = Ok w8 ∧ waits w [8; 7; 6; 4; 3; 2; 1; 0] w8) as (w8 & E & W8); [cbv beta|exists w8; split; [intros A K|exact W8]] end.
  2:{ repeat match type of E with (?m ≫= _) = _ => let x := fresh "x" in destruct m as [x| | |]; cbn [mbind outcome_bind] in E |- *; [|discriminate..] end.
      injection E as ->. reflexivity. }
  stream_upd St W1. { destruct W1 as [F1 _]. destruct (fg_plan _ _ _ _ F1) as (-> & _). reflexivity. }
  stream_upd St W1. { reflexivity. }
  destruct (volume_step _ _ _ W1) as (w4 & -> & W4); [by apply not_in_check|]. cbn [mbind outcome_bind]. clear W1. rename W4 into W1.
  stream_upd St W1. { unfold meta_stream. cbn [Z.eqb Pos.eqb]. by rewrite Eattr. }
  stream_upd St W1. { destruct W1 as [F1 _]. destruct (fg_vol _ _ _ _ F1) as (_ & _ & -> & _). reflexivity. }
  stream_upd St W1. { reflexivity. }
  destruct W1 as [F1 R1]. match type of F1 with filling _ _ _ ?w7 => destruct (fill_badclus_ok w l _ w7 F1 (Hres 8 ltac:(lia) ltac:(by apply not_named; lia)) ltac:(by apply not_in_check)) as (w8 & -> & F8 & R8) end.
  cbn [mbind outcome_bind]. exists w8. split; [done|]. split; [exact F8|]. by eapply same_rest_trans.
Qed.

(** Every record of the metafiles but the root and [$Extend] is filled; the rest of
    the volume is as it was, and grew by the indexes of [$Secure]. *)
Lemma fill_records_ok k : 0 <= k → img_live (bmp_len (nrec w) * cluster_size + 2 * n * cluster_size + k) d →
  ∃ w' d' rs', fill_records upcase qsort_sdh w d l = Ok (w', d') ∧ filling w l (rev fill_list) w' ∧ length (rec w') = length (rec w) ∧
    grows w (img_view d) rs w' (img_view d') rs' ∧ alloc_low low w' rs' (sum + 2 * n) big ∧ on_image w' ∧ img_ok d' ∧ img_live k d'.
Proof using All.
  intros Hk Hlive. unfold fill_records. cbv zeta. rewrite Hroot.
  destruct (fill_mft_ok (2 * n * cluster_size + k)) as (w1 & d1 & -> & F1 & R1 & D1 & L1 & G1); [unfold n, cluster_size; lia|by rewrite Z.add_assoc|].
  cbn [mbind outcome_bind]. destruct (fill_front w1 (conj F1 R1)) as (w8 & E & W8).
  destruct W8 as [F8 R8].
  destruct (secure_step _ w8 d1 k (conj F8 R8) ltac:(by apply not_in_check) D1 Hk L1) as (w9 & d9 & rs9 & E9 & F9 & N9 & G9 & A9 & O9 & D9 & L9).
  assert (waits w9 _ w9) as W9 by (split; [exact F9|apply same_rest_refl]).
  set (f10 := λ r, attrs r (stream_ops (file_ref NTFS_REC_ROOT) 0x20000 (lit "$UpCase") (upcase_lcn l) 32 0x20000 ++ [AddResident NTFS_AT_DATA (lit "$Info") (upcase_info upcase) 0])).
  destruct (stream_step w9 _ w9 10 f10 0x20000 (lit "$UpCase") (upcase_lcn l) 32 0x20000 [AddResident NTFS_AT_DATA (lit "$Info") (upcase_info upcase) 0] W9)
    as (w10 & E10 & W10); [lia|lia|by apply not_in_check|by apply not_in_check|by vm_compute| |by constructor|done|done|].
  { constructor; [|constructor]. cbn [rop_ok]. rewrite length_upcase_info. split_and!; [by apply type_ok_check; vm_compute|lia|lia|lia]. }
  destruct (each_step w9 (λ i, 12 <= i < 16) _ [12; 13; 14; 15] (reserved_step w9) _ _ W10) as (w11 & E11 & W11).
  { repeat constructor; lia. }
  { apply (bool_decide_unpack _). by vm_compute. }
  { repeat constructor; by apply not_in_check. }
  destruct (each_step w9 (λ i, 16 <= i < 24) _ [16; 17; 18; 19; 20; 21; 22; 23] (freed_step w9) _ _ W11) as (w12 & E12 & [F12 R12]).
  { repeat constructor; lia. }
  { apply (bool_decide_unpack _). by vm_compute. }
  { repeat constructor; by apply not_in_check. }
  exists w12, d9, rs9. split; [etransitivity; [apply E|]; cbv beta; rewrite E9; cbn [mbind outcome_bind]; unfold f10 in E10; change ((0x20000 + cluster_size - 1) / cluster_size) with 32;
    rewrite E10; cbn [mbind outcome_bind]; rewrite E11; cbn [mbind outcome_bind]; rewrite E12; reflexivity|].
  split; [exact F12|]. pose proof R8 as (_ & _ & _ & _ & _ & _ & Ll). pose proof R12 as (V12 & Nl & Nb & Sc & Cp & Pl & Lr).
  split_and!; try done; [congruence| |by apply (alloc_ok_same _ w9)|by apply (on_image_same w9)].
  eapply grows_trans; [|eapply grows_trans; [exact G9|]].
  - destruct R8 as (V8 & _ & _ & S8 & C8 & P8 & _). constructor; [done|by exists []| |split_and!; [done|apply (fg_sec _ _ _ _ F8)|done]|done].
    eapply Forall_impl; [exact G1|]. cbn beta. intros x <-. by rewrite (run_bytes_same _ w w8 x).
  - constructor; [done|by exists []| |split_and!; [done|destruct (fg_sec _ _ _ _ F9), (fg_sec _ _ _ _ F12); congruence|done]|done].
    apply list.Forall_forall. intros x _. by rewrite (run_bytes_same _ w9 w12 x).
Qed.
End fill.
