(* ===== verification/NtfsWrites.v ===== *)
(** * The last writes of the close
      ([src/tools/iso-patch-mac/engine/ntfs.c]: the last step of
      [ntfs_writer_close])

    The table of records, its mirror, the metafiles and both boot sectors go out
    in writes that do not meet: each is on the image at the end, and the runs of
    the files are as they were. *)

From Stdlib Require Import String Sorted.
From stdpp Require sorting.
From S2P Require Import Prelude Bytes WStr Outcome BlockIO ImageWrites NtfsCodec NtfsIndex NtfsRecord NtfsLookup Bitmap NtfsVolume NtfsAlloc NtfsTree NtfsMeta NtfsLinks NtfsClose NtfsSession NtfsRuns NtfsIndexed NtfsNamed NtfsPlan NtfsSecure.

(** ** Writes that do not meet *)

Fixpoint disjoint (ws : list (Z * list Z)) : Prop :=
  match ws with [] => True | x :: ws' => avoids (fst x) (Z.of_nat (length (snd x))) ws' ∧ disjoint ws' end.

Lemma holds_all ws : ∀ m, disjoint ws → holds (apply_writes m ws) ws.
Proof.
  induction ws as [|[off bs] ws IH]; intros m; [constructor|]. cbn [disjoint fst snd]. intros [Ha Hd]. unfold apply_writes. cbn [fold_left fst snd].
  change (fold_left _ ws (mwrite m off bs)) with (apply_writes (mwrite m off bs) ws). constructor; [|by apply IH].
  cbn [fst snd]. rewrite apply_writes_avoids by done. apply mread_mwrite_same.
Qed.

Lemma disjoint_app ws1 ws2 lo hi : disjoint ws1 → inside lo hi ws1 → avoids lo (hi - lo) ws2 → disjoint ws2 → disjoint (ws1 ++ ws2).
Proof.
  intros H1 Hin Hav H2. induction ws1 as [|x ws1 IH]; [done|]. cbn [disjoint app] in *. inversion Hin as [|? ? Hx Hin']; subst. destruct H1 as [A B].
  split; [|by apply IH]. apply Forall_app. split; [done|]. eapply Forall_impl; [exact Hav|]. cbn beta. intros y Hy. lia.
Qed.

Lemma avoids_inside a n lo hi ws : inside lo hi ws → hi <= a ∨ a + n <= lo → avoids a n ws.
Proof. intros Hin H. by apply (inside_avoids lo hi). Qed.

Lemma disjoint_one x : disjoint [x].
Proof. split; [constructor|done]. Qed.

(** ** The log *)

Lemma log_writes_ok fuel : ∀ base rem, 0 <= base → 0 <= rem → base + rem <= OFF_MAX → rem <= 1048576 * Z.of_nat fuel →
  let ws := log_writes fuel base rem in inside base (base + rem) ws ∧ disjoint ws ∧ writes_len ws = rem.
Proof.
  induction fuel as [|fuel IH]; intros base rem Hb Hr Hm Hf; cbn [log_writes].
  { assert (rem = 0) as -> by lia. split_and!; [constructor|done|done]. }
  destruct (Z.eqb_spec rem 0) as [->|Hn]; [by split_and!; [constructor| |]|].
  set (k := if rem <? 1048576 then rem else 1048576). assert (0 < k <= rem ∧ (k = rem ∨ k = 1048576)) as Hk by (unfold k; destruct (Z.ltb_spec rem 1048576); lia).
  rewrite u64_small by (unfold OFF_MAX in *; lia). destruct (IH (base + k) (rem - k)) as (I1 & I2 & I3); [lia|lia|lia|lia|]. cbv zeta.
  split_and!.
  - constructor; [cbn [fst snd]; rewrite length_replicate; lia|]. eapply inside_weaken; [| |exact I1]; lia.
  - cbn [disjoint fst snd]. rewrite length_replicate. split; [|done]. apply (inside_avoids _ _ _ _ _ I1). lia.
  - unfold writes_len in *. cbn [foldr snd]. rewrite length_replicate, I3. lia.
Qed.

(** ** The records *)

Lemma length_put_bytes i r : length (put_bytes i r) = length (r_buf r).
Proof. unfold put_bytes. rewrite length_apply_fixup. unfold rec_finalize, w16, w32, w64. cbn [set_attrs r_buf]. by rewrite !length_splice. Qed.

Definition sized (r : mftrec_t) : Prop := length (r_buf r) = Z.to_nat NTFS_MFT_RECSZ.

Lemma tracks_sized i r al : tracks i r al → sized r.
Proof. intros [(hd & bss & tl & _ & E & _) _]. unfold sized. lia. Qed.

(** Where record [i] goes. *)
Definition slot (base i : Z) (r : mftrec_t) : Z * list Z := (base + i * NTFS_MFT_RECSZ, put_bytes i r).

Section slots.
Context (w : ntfs_writer) (l : ntfs_layout) (base : Z) (Hbase : mft_byte w l = base) (Hpos : 0 <= base).

Lemma put_records_ok n : ∀ a, 0 <= a → base + (a + Z.of_nat n) * NTFS_MFT_RECSZ <= OFF_MAX →
  (∀ i, a <= i < a + Z.of_nat n → ∃ r, get_rec w i = Some r ∧ sized r) →
  ∃ ws, mapM (put_record w l) (seqZ a (Z.of_nat n)) = Some ws ∧ inside (base + a * NTFS_MFT_RECSZ) (base + (a + Z.of_nat n) * NTFS_MFT_RECSZ) ws ∧
    disjoint ws ∧ writes_len ws = Z.of_nat n * NTFS_MFT_RECSZ ∧
    ∀ i r, a <= i < a + Z.of_nat n → get_rec w i = Some r → ws !! Z.to_nat (i - a) = Some (slot base i r).
Proof using All.
  induction n as [|n IH]; intros a Ha Hm Hr.
  - exists []. cbn. split_and!; try done; [constructor|lia].
  - rewrite Nat2Z.inj_succ in *. rewrite seqZ_cons by lia. destruct (Hr a ltac:(lia)) as (r & Hra & Hsz).
    unfold NTFS_MFT_RECSZ in *. destruct (IH (a + 1)) as (ws & E & I1 & I2 & I3 & I4); [lia|lia|intros i Hi; apply Hr; lia|].
    exists (slot base a r :: ws). replace (Z.pred (Z.succ (Z.of_nat n))) with (Z.of_nat n) by lia. replace (Z.succ a) with (a + 1) by lia.
    assert (length (put_bytes a r) = 1024%nat) as Elen by (rewrite length_put_bytes, Hsz; reflexivity).
    split_and!.
    + assert (put_record w l a = Some (slot base a r)) as Ep.
      { unfold put_record, slot. rewrite Hra, Hbase. cbn [mbind option_bind]. unfold NTFS_MFT_RECSZ. by rewrite u64_small by (unfold OFF_MAX in *; lia). }
      cbn [mapM]. rewrite Ep. cbn [mbind option_bind]. rewrite E. reflexivity.
    + constructor; [unfold slot, NTFS_MFT_RECSZ; cbn [fst snd]; rewrite Elen; lia|]. eapply inside_weaken; [| |exact I1]; lia.
    + cbn [disjoint]. split; [|done]. unfold slot, NTFS_MFT_RECSZ. cbn [fst snd]. rewrite Elen. apply (inside_avoids _ _ _ _ _ I1). lia.
    + unfold writes_len in *. cbn [foldr]. rewrite I3. unfold slot. cbn [snd]. rewrite Elen. lia.
    + intros i ri Hi Hri. destruct (decide (i = a)) as [->|Hne].
      * rewrite Hra in Hri. injection Hri as <-. by rewrite Z.sub_diag.
      * replace (Z.to_nat (i - a)) with (S (Z.to_nat (i - (a + 1)))) by lia. cbn [lookup list_lookup]. apply I4; [lia|done].
Qed.
End slots.

(** ** Groups of writes, each in a run of its own *)

Definition clear (x y : Z * Z) : Prop := fst x + snd x <= fst y ∨ fst y + snd y <= fst x.

Fixpoint all_clear (l : runs) : Prop := match l with [] => True | x :: l' => Forall (clear x) l' ∧ all_clear l' end.

Section groups.
Context (off : Z).

Definition grouped (g : list (Z * list Z)) (x : Z * Z) : Prop :=
  disjoint g ∧ inside (off + fst x * cluster_size) (off + (fst x + snd x) * cluster_size) g.

Lemma groups_avoid gs xs x : Forall2 grouped gs xs → Forall (clear x) xs → avoids (off + fst x * cluster_size) (snd x * cluster_size) (concat gs).
Proof using.
  induction 1 as [|g y gs xs [_ Hg] _ IH]; intros Hc; cbn [concat]; [constructor|]. inversion Hc as [|? ? Hx Hc']; subst.
  apply avoids_app; [|by apply IH]. apply (inside_avoids _ _ _ _ _ Hg). unfold clear, cluster_size in *. lia.
Qed.

Lemma groups_disjoint gs xs : Forall2 grouped gs xs → all_clear xs → disjoint (concat gs).
Proof using.
  induction 1 as [|g y gs xs [Hd Hg] Hgs IH]; intros Hc; cbn [concat]; [done|]. cbn [all_clear] in Hc. destruct Hc as [Hy Hc].
  apply (disjoint_app _ _ _ _ Hd Hg); [|by apply IH]. pose proof (groups_avoid gs xs y Hgs Hy) as Ha.
  replace (off + (fst y + snd y) * cluster_size - (off + fst y * cluster_size)) with (snd y * cluster_size) by (unfold cluster_size; lia). exact Ha.
Qed.

Lemma groups_fit gs xs : Forall2 grouped gs xs → 0 <= off → Forall (λ x, 0 <= fst x ∧ off + (fst x + snd x) * cluster_size <= OFF_MAX) xs → writes_fit (concat gs).
Proof using.
  induction 1 as [|g y gs xs [_ Hg] _ IH]; intros Ho Hf; cbn [concat]; [constructor|]. inversion Hf as [|? ? [F1 F2] Hf']; subst.
  apply Forall_app. split; [|by apply IH]. apply (inside_fit _ _ _) in Hg; [exact Hg|unfold cluster_size; lia|done].
Qed.

Lemma grouped_one a bs x : off + fst x * cluster_size <= a → a + Z.of_nat (length bs) <= off + (fst x + snd x) * cluster_size → grouped [(a, bs)] x.
Proof using. intros H1 H2. split; [apply disjoint_one|]. constructor; [cbn [fst snd]; lia|constructor]. Qed.
End groups.

(** ** The bitmap, the boot sectors and the tables *)

Lemma length_boot w lcn : length (ntfs_boot_sector w lcn) = 512%nat.
Proof. unfold ntfs_boot_sector, w8, w16, w32, w64. by rewrite !length_splice, length_replicate. Qed.

Lemma length_concat_pairs {A} (f : A → list Z) (l : list A) : (∀ x, length (f x) = 2%nat) → length (concat (map f l)) = (2 * length l)%nat.
Proof. intros H. induction l as [|x l IH]; [done|]. cbn [map concat length]. rewrite length_app, H, IH. lia. Qed.

Lemma length_upcase_bytes upcase : Z.of_nat (length (upcase_bytes upcase)) = 0x20000.
Proof. unfold upcase_bytes. rewrite length_concat_pairs by done. rewrite Nat2Z.inj_mul, length_seqZ. done. Qed.

Lemma final_bitmap_ok w : 0 <= total_clusters w <= 8 * Z.of_nat (length (clbmp w)) →
  ∃ b, final_bitmap w = Some b ∧ length b = length (clbmp w) ∧
    ∀ c, 0 <= c → bit b c = true ↔ bit (clbmp w) c = true ∨ total_clusters w <= c < 8 * Z.of_nat (length (clbmp w)).
Proof.
  intros H. unfold final_bitmap. destruct (bmp_mark_spec (Z.to_nat (8 * Z.of_nat (length (clbmp w)) - total_clusters w)) (clbmp w) (total_clusters w)) as (b & E & L & B); [lia|lia|].
  exists b. split_and!; [done|done|]. intros c Hc. rewrite B by done. rewrite Z2Nat.id by lia. intuition lia.
Qed.

(** ** All of them *)

Section last.
Context (upcase : Z → Z) (low : Z → Prop) (w : ntfs_writer) (l : ntfs_layout) (more rs0 : runs) (sum big e : Z).
Context (Ha : alloc_low low w (more ++ layout_runs l ++ rs0) sum big) (Ho : on_image w).
Context (Htot : total_clusters w = (part_sectors w - 1) / 8 ∧ next_lcn w <= total_clusters w <= 8 * Z.of_nat (length (clbmp w))) (Hps : 32 <= part_sectors w < 2 ^ 50).
Context (Hend : part_off w + (total_clusters w + 1) * cluster_size <= OFF_MAX).
Context (Hmft : 1 <= mft_lcn l ∧ 0 < mft_clusters l ∧ mft_lcn l + mft_clusters l <= mft_zone_end w ∧ mft_count l * NTFS_MFT_RECSZ <= mft_clusters l * cluster_size).
Context (Hcount : 27 <= mft_count l) (Hsz : ∀ i, 0 <= i < mft_count l → ∃ r, get_rec w i = Some r ∧ sized r).
Context (Hmirr : mftmirr_lcn w = reserve_lcn w ∧ mft_zone_end w <= reserve_lcn w ∧ reserve_lcn w + 1 <= total_clusters w).
Context (Hlog : 0 < logfile_clusters l ∧ logfile_bytes l = logfile_clusters l * cluster_size).
Context (Hsds : sds_laid 0 (sec w) e ∧ 0x40000 + e <= sds_bytes l ∧ sds_bytes l = sds_clusters l * cluster_size).
Context (Hbmp : bitmap_clusters l * cluster_size = Z.of_nat (length (clbmp w))).

(** The runs the writes go to. *)
Definition last_runs : runs :=
  [(mft_lcn l, mft_clusters l); (reserve_lcn w, 1); (upcase_lcn l, 32); (attrdef_lcn l, 1); (logfile_lcn l, logfile_clusters l);
   (sds_lcn l, sds_clusters l); (bitmap_lcn l, bitmap_clusters l); (0, 1); (total_clusters w, 1)].

Lemma layout_run x : x ∈ layout_runs l → cluster_byte w (fst x) = part_off w + fst x * cluster_size ∧ mft_zone_end w <= fst x ∧ 0 < snd x ∧
  fst x + snd x <= total_clusters w ∧ (fst x + snd x <= reserve_lcn w ∨ reserve_lcn w + 1 <= fst x).
Proof using All.
  intros Hx. destruct (run_base low w _ sum big x Ha Ho) as (B1 & B2 & B3 & B4 & B5 & B6); [apply elem_of_app; right; apply elem_of_app; by left|]. split_and!; try done. lia.
Qed.

Lemma last_clear : all_clear last_runs ∧ Forall (λ x, Forall (clear x) last_runs) (more ++ rs0).
Proof using All.
  pose proof (ao_sorted _ _ _ _ Ha) as Hs. pose proof (ao_zone _ _ _ _ Ha) as Hz. pose proof (ao_runs _ _ _ _ Ha) as Hr.
  assert (Forall (λ x, mft_zone_end w <= fst x ∧ 0 < snd x ∧ fst x + snd x <= total_clusters w ∧ (fst x + snd x <= reserve_lcn w ∨ reserve_lcn w + 1 <= fst x)) (layout_runs l)) as Hl
    by (apply list.Forall_forall; intros x Hx; destruct (layout_run x Hx) as (_ & H); exact H).
  rewrite !sorting.StronglySorted_app in Hs. destruct Hs as (S1 & Sm & S2 & Sl & S3). rewrite list.Forall_forall in Hr.
  assert (∀ x y, x ∈ more ++ rs0 → y ∈ layout_runs l → clear x y) as Hc.
  { intros x y Hx Hy. apply elem_of_app in Hx as [Hx|Hx]; [right; apply (S1 x y Hx), elem_of_app; by left|left; by apply (S2 y x)]. }
  unfold layout_runs in Hl, Hc, Sl. set (layout_five := [_; _; _; _; _]) in Hc. set (r1 := (bitmap_lcn l, bitmap_clusters l)) in *. set (r2 := (sds_lcn l, sds_clusters l)) in *. set (r3 := (logfile_lcn l, logfile_clusters l)) in *.
  set (r4 := (attrdef_lcn l, 1)) in *. set (r5 := (upcase_lcn l, 32)) in *.
  rewrite !sorting.StronglySorted_cons in Sl. destruct Sl as (P1 & P2 & P3 & P4 & _).
  rewrite !Forall_cons in Hl. rewrite !Forall_cons in P1. rewrite !Forall_cons in P2. rewrite !Forall_cons in P3. rewrite !Forall_cons in P4. destruct Hl as (L1 & L2 & L3 & L4 & L5 & _). unfold r1, r2, r3, r4, r5, clear, last_runs in *. cbn [fst snd] in *. split.
  - cbn [all_clear]. rewrite !Forall_cons, !Forall_nil. cbn [fst snd]. unfold clear. cbn [fst snd]. clear - L1 L2 L3 L4 L5 P1 P2 P3 P4 Hmft Hmirr Hz Htot Hlog. split_and!; first [done|lia].
  - apply list.Forall_forall. intros x Hx. pose proof (Hc x) as Hcx. assert (mft_zone_end w <= fst x ∧ 0 < snd x ∧ fst x + snd x <= total_clusters w ∧ (fst x + snd x <= reserve_lcn w ∨ reserve_lcn w + 1 <= fst x)) as Hx2.
    { destruct (Hr x) as (B1 & B2 & B3 & B4); [apply elem_of_app in Hx as [Hx|Hx]; apply elem_of_app; [by left|right; apply elem_of_app; by right]|]. lia. }
    assert (Forall (clear x) layout_five) as Hl5 by (apply list.Forall_forall; intros y Hy; by apply Hcx).
    unfold layout_five in Hl5. rewrite !Forall_cons in Hl5. destruct Hl5 as (C1 & C2 & C3 & C4 & C5 & _). rewrite !Forall_cons, Forall_nil. unfold clear in *. cbn [fst snd] in *. lia.
Qed.

(** What is on its way to the volume. *)
Record written (ws : list (Z * list Z)) : Prop := {
  wr_slots : ∀ i r, 0 <= i < mft_count l → get_rec w i = Some r → slot (part_off w + mft_lcn l * cluster_size) i r ∈ ws;
  wr_mirror : ∃ mir, mapM (put_record w l) (seqZ 0 4) = Some mir ∧ (part_off w + reserve_lcn w * cluster_size, concat (map snd mir)) ∈ ws;
  wr_upcase : (part_off w + upcase_lcn l * cluster_size, upcase_bytes upcase) ∈ ws;
  wr_bitmap : ∃ b, final_bitmap w = Some b ∧ (part_off w + bitmap_lcn l * cluster_size, b) ∈ ws;
  wr_boot : (part_off w, ntfs_boot_sector w (mft_lcn l)) ∈ ws ∧ (part_off w + (part_sectors w - 1) * 512, ntfs_boot_sector w (mft_lcn l)) ∈ ws;
}.

Definition last_need : Z :=
  (mft_clusters l + 1 + 32 + 1 + logfile_clusters l + sds_clusters l + bitmap_clusters l + 2) * cluster_size.

Lemma concat_slots_len n : ∀ mir, writes_len mir = n → Z.of_nat (length (concat (map snd mir))) = n.
Proof using All. intros mir <-. induction mir as [|x mir IH]; [done|]. cbn [map concat writes_len foldr]. rewrite length_app. unfold writes_len in IH. lia. Qed.

Lemma close_writes_ok : ∃ ws, close_writes upcase w l = Some ws ∧ disjoint ws ∧ writes_fit ws ∧ writes_len ws <= last_need ∧
  Forall (λ x, avoids (part_off w + fst x * cluster_size) (snd x * cluster_size) ws) (more ++ rs0) ∧ written ws.
Proof using All.
  destruct last_clear as [Hcl Hcr]. pose proof Ho as [O1 O2]. pose proof (ao_zone _ _ _ _ Ha) as Hz. pose proof (ao_res _ _ _ _ Ha) as [Hr _].
  assert (Forall (λ x, cluster_byte w (fst x) = part_off w + fst x * cluster_size ∧ mft_zone_end w <= fst x ∧ 0 < snd x ∧
    fst x + snd x <= total_clusters w ∧ (fst x + snd x <= reserve_lcn w ∨ reserve_lcn w + 1 <= fst x)) (layout_runs l)) as Hl
    by (apply list.Forall_forall; intros x Hx; by apply layout_run).
  unfold layout_runs in Hl. rewrite !Forall_cons in Hl. cbn [fst snd] in Hl. destruct Hl as ((B1 & L1) & (B2 & L2) & (B3 & L3) & (B4 & L4) & (B5 & L5) & _).
  assert (mft_byte w l = part_off w + mft_lcn l * cluster_size) as Em by (apply cluster_byte_ok; [done|lia]).
  assert (cluster_byte w (mftmirr_lcn w) = part_off w + reserve_lcn w * cluster_size) as Er by (destruct Hmirr as (-> & H1 & H2); apply cluster_byte_ok; [done|lia]).
  set (base := part_off w + mft_lcn l * cluster_size) in *.
  destruct (put_records_ok w l base Em ltac:(unfold base, cluster_size; lia) (Z.to_nat (mft_count l)) 0 ltac:(lia)) as (recs & Erecs & R1 & R2 & R3 & R4);
    [unfold base, NTFS_MFT_RECSZ, OFF_MAX, cluster_size in *; lia|intros i Hi; apply Hsz; lia|].
  destruct (put_records_ok w l base Em ltac:(unfold base, cluster_size; lia) 4 0 ltac:(lia)) as (mir & Emir & _ & _ & M3 & _);
    [unfold base, NTFS_MFT_RECSZ, OFF_MAX, cluster_size in *; lia|intros i Hi; apply Hsz; lia|].
  apply concat_slots_len in M3. rewrite Z2Nat.id in Erecs by lia. change (Z.of_nat 4) with 4 in *.
  destruct (sds_fill_ok (sec w) 0 e (replicate (Z.to_nat (sds_bytes l)) 0) ltac:(lia) (proj1 Hsds)) as (sds & Esds & Lsds); [rewrite length_replicate; lia|]. rewrite length_replicate in Lsds.
  destruct (final_bitmap_ok w ltac:(lia)) as (b & Eb & Lb & _).
  destruct (log_writes_ok (Z.to_nat (logfile_bytes l / 1048576 + 1)) (part_off w + logfile_lcn l * cluster_size) (logfile_bytes l)) as (G1 & G2 & G3);
    [unfold cluster_size in *; lia|unfold cluster_size in *; lia|unfold OFF_MAX, cluster_size in *; lia|unfold cluster_size in *; dlia|].
  set (log := log_writes _ _ _) in *. set (boot := ntfs_boot_sector w (mft_lcn l)). assert (length boot = 512%nat) as Lboot by apply length_boot. 
  assert (8 * total_clusters w <= part_sectors w - 1 < 8 * total_clusters w + 8) as Hsx by (clear - Htot; dlia).
  assert (u64 (part_off w + u64 (u64 (part_sectors w - 1) * 512)) = part_off w + (part_sectors w - 1) * 512) as Ebk
    by (unfold OFF_MAX, cluster_size in *; rewrite (u64_small (part_sectors w - 1)) by lia; rewrite (u64_small (_ * _)) by lia; apply u64_small; lia).
  set (gs := [recs; [(part_off w + reserve_lcn w * cluster_size, concat (map snd mir))]; [(part_off w + upcase_lcn l * cluster_size, upcase_bytes upcase)];
    [(part_off w + attrdef_lcn l * cluster_size, build_attrdef)]; log; [(part_off w + sds_lcn l * cluster_size, sds)];
    [(part_off w + bitmap_lcn l * cluster_size, b)]; [(part_off w, boot)]; [(part_off w + (part_sectors w - 1) * 512, boot)]]).
  assert (Forall2 (grouped (part_off w)) gs last_runs) as HG.
  { unfold gs, last_runs. pose proof (length_upcase_bytes upcase) as Lup. pose proof length_attrdef as Lad. unfold NTFS_MFT_RECSZ in *.
    rewrite !list.Forall2_cons. split_and!; [| | | | | | | | |constructor].
    - split; [exact R2|]. eapply inside_weaken; [| |exact R1]; cbn [fst snd]; unfold base, cluster_size in *; lia.
    - apply grouped_one; cbn [fst snd]; [lia|rewrite M3; unfold cluster_size; lia].
    - apply grouped_one; cbn [fst snd]; [lia|rewrite Lup; unfold cluster_size; lia].
    - apply grouped_one; cbn [fst snd]; [lia|rewrite Lad; unfold cluster_size; lia].
    - split; [exact G2|]. eapply inside_weaken; [| |exact G1]; cbn [fst snd]; unfold cluster_size in *; lia.
    - apply grouped_one; cbn [fst snd]; [lia|rewrite Lsds; unfold cluster_size in *; lia].
    - apply grouped_one; cbn [fst snd]; [lia|rewrite Lb; unfold cluster_size in *; lia].
    - apply grouped_one; cbn [fst snd]; [lia|rewrite Lboot; unfold cluster_size in *; lia].
    - apply grouped_one; cbn [fst snd]; rewrite ?Lboot; unfold cluster_size in *; lia. }
  exists (concat gs). split_and!.
  - unfold close_writes. rewrite Erecs, Emir. cbn [mbind option_bind]. rewrite Esds, Eb. cbn [mbind option_bind].
    rewrite Er, B1, B2, B3, B4, B5, Ebk. fold log. reflexivity.
  - by apply (groups_disjoint (part_off w) gs last_runs).
  - apply (groups_fit (part_off w) gs last_runs HG); [lia|]. unfold last_runs. rewrite !Forall_cons, Forall_nil. cbn [fst snd]. unfold cluster_size in *.
    clear - Hend Hmft L1 L2 L3 L4 L5 Hmirr Hz Htot O1. repeat (split; [lia|]). exact I.
  - unfold gs, last_need. cbn [concat]. rewrite !writes_len_app, R3, G3. unfold writes_len. cbn [foldr snd]. rewrite M3, (length_upcase_bytes upcase), length_attrdef, Lsds, Lb, Lboot.
    unfold NTFS_MFT_RECSZ, cluster_size in *. lia.
  - eapply Forall_impl; [exact Hcr|]. intros x Hx. by apply (groups_avoid (part_off w) gs last_runs).
  - assert (∀ g x, g ∈ gs → x ∈ g → x ∈ concat gs) as Hin by (intros g x Hg Hx; apply list_elem_of_In, in_concat; exists g; split; by apply list_elem_of_In).
    assert (∀ (j : nat) g x, gs !! j = Some g → x ∈ g → x ∈ concat gs) as Hat by (intros j g x Hj; apply Hin; by eapply list_elem_of_lookup_2).
    constructor.
    + intros i r Hi Hri. apply (Hat 0%nat recs _ eq_refl). apply (list_elem_of_lookup_2 _ (Z.to_nat (i - 0))). apply R4; [lia|done].
    + exists mir. split; [done|]. by apply (Hat 1%nat _ _ eq_refl), list_elem_of_here.
    + by apply (Hat 2%nat _ _ eq_refl), list_elem_of_here.
    + exists b. split; [done|]. by apply (Hat 6%nat _ _ eq_refl), list_elem_of_here.
    + split; [by apply (Hat 7%nat _ _ eq_refl), list_elem_of_here|by apply (Hat 8%nat _ _ eq_refl), list_elem_of_here].
Qed.
End last.
