(* ===== verification/NtfsFinish.v ===== *)
(** * The close from end to end
      ([src/tools/iso-patch-mac/engine/ntfs.c]: [ntfs_writer_close])

    What a volume must not exceed for its close to succeed ([closable], limits on
    the records, the descriptors and the names a session left), the room it takes, and the state the phases leave: every record,
    where the records and the runs are on the image, which clusters are marked. *)

From Stdlib Require Import String Sorted.
From S2P Require Import Prelude Bytes WStr Outcome BlockIO ImageWrites NtfsCodec NtfsIndex NtfsDir NtfsRecord NtfsLookup Bitmap NtfsVolume NtfsAlloc NtfsTree NtfsMeta NtfsLinks NtfsClose NtfsSession NtfsRuns NtfsSteps NtfsOpen NtfsIndexed NtfsNamed NtfsPlan NtfsSecure NtfsFill NtfsWrites.

#[local] Opaque fname si.

(** ** What can be closed *)

(** The entries of a directory with those the close adds to the root and to
    [$Extend]. *)
Definition listed (w : ntfs_writer) (j : Z) (r : mftrec_t) : list idx_entry_t :=
  r_entries r ++ (if j =? NTFS_REC_ROOT then root_entries w else if j =? NTFS_REC_EXTEND then map ext_entry extf else []).

(** A directory no two of whose names are alike; a directory of the session has
    room for its index ([dir_room]), the reserved ones always do. *)
Definition dir_closable (upcase : Z → Z) (w : ntfs_writer) (j : Z) (r : mftrec_t) : bool :=
  (if reserved_dir j then (Z.of_nat (length (listed w j r)) <? 2 ^ 32) && bool_decide (r_reparse r = None) else dir_room r) &&
  bool_decide (NoDup (names upcase (listed w j r))).

(** What a session may leave for the close to succeed: no file has more names
    than its record holds; at most 21 reparse points and 500 descriptors of
    together 256 KiB; the MFT fits its zone; every directory can be indexed. *)
Definition closable (upcase : Z → Z) (w : ntfs_writer) : bool :=
  forallb (λ r, Nat.eqb (length (r_ov r)) 0) (rec w) && (length (rpl w) <=? 21)%nat && (length (sec w) <=? 500)%nat && (sds_span (sec w) <=? 0x40000) &&
  (mft_at (nrec w) + mft_len (nrec w) <=? mft_zone_end w) &&
  forallb (λ j, match get_rec w j with Some r => negb (r_is_dir r) || dir_closable upcase w j r | None => true end) (seqZ 0 (nrec w)).

(** The clusters the close may take (sixty for the fifteen names it adds), and
    the bytes it may write. *)
Definition close_need (w : ntfs_writer) : Z := dirs_need (rec w) + 60 + plan_need w + 2 * Z.of_nat (length (sec w)).
Definition close_bytes (w : ntfs_writer) : Z := (close_need w + bmp_len (nrec w) + mft_len (nrec w) + 3) * cluster_size.

Lemma align_up_nonneg x n : 0 < n → 0 <= align_up x n.
Proof. intros H. unfold align_up. pose proof (u64_range (x + n - 1)) as [H1 _]. pose proof (Z.div_pos _ n H1 H). nia. Qed.

(** The log alone takes 256 clusters. *)
Lemma plan_need_min w : 32 <= part_sectors w < 2 ^ 50 → 289 <= plan_need w.
Proof.
  intros H. unfold plan_need, bitmap_len. assert (0 <= sds_size w) by (by apply align_up_nonneg).
  assert (1048576 <= logfile_size (part_sectors w)) as Hl.
  { unfold logfile_size, cluster_size. rewrite (u64_small (part_sectors w - 1)), u64_small by lia.
    set (b := _ / 200). set (b1 := if b <? 1048576 then 1048576 else b). set (b2 := if 67108864 <? b1 then 67108864 else b1).
    assert (1048576 <= b2 <= 67108864) by (unfold b2, b1; destruct (Z.ltb_spec b 1048576); [cbn; lia|]; destruct (Z.ltb_spec 67108864 b); lia).
    destruct (align_up_spec b2 4096 ltac:(lia) ltac:(lia) ltac:(lia)). lia. }
  assert (0 <= Z.of_nat (length (clbmp w)) / cluster_size) by (apply Z.div_pos; [lia|done]). assert (0 <= sds_size w / cluster_size) by (by apply Z.div_pos).
  assert (256 <= logfile_size (part_sectors w) / cluster_size) by (apply Z.div_le_lower_bound; [done|exact Hl]). lia.
Qed.

(** ** Records and entries *)

Lemma convert_none {D} `{Image D} (w : ntfs_writer) (d : D) n : Forall (λ r, r_ov r = []) (rec w) → ∀ i, convert_all n w d i = Ok (w, d).
Proof.
  intros Hov. induction n as [|n IH]; intros i; [done|]. cbn [convert_all]. destruct (get_rec w i) as [r|] eqn:E; [|apply IH].
  rewrite list.Forall_forall in Hov. rewrite (Hov r) by (by eapply list_elem_of_lookup_2). apply IH.
Qed.

Lemma file_ref_u64 k : 0 <= k < 2 ^ 32 → is_u64 (file_ref k).
Proof. intros H. rewrite file_ref_val by done. pose proof (seq_of_range k ltac:(lia)). unfold is_u64. lia. Qed.

Lemma entry_wf_idx count p e : count < 2 ^ 32 → entry_ok count p e → idx_wf e.
Proof. intros Hc ((k & Hk & E) & _ & H). split; [rewrite E; apply file_ref_u64; lia|done]. Qed.

Lemma fname_wf k p a re da name : 0 <= k < 2 ^ 32 → (length name <= 255)%nat → idx_wf (mkIdx (file_ref k) (fname p a re da name)).
Proof. intros Hk Hn. split; [by apply file_ref_u64|]. cbn [x_key]. rewrite length_fname. lia. Qed.

Lemma root_entries_wf w : Forall idx_wf (root_entries w).
Proof.
  unfold root_entries, root_name. constructor; [apply fname_wf; [by vm_compute|by vm_compute; lia]|].
  apply Forall_map, list.Forall_forall. intros x Hx. apply fname_wf.
  - unfold sysf in Hx. repeat (apply elem_of_cons in Hx as [->|Hx]; [cbn [fst]; unfold NTFS_REC_EXTEND; lia|]). by apply elem_of_nil in Hx.
  - unfold sysf in Hx. repeat (apply elem_of_cons in Hx as [->|Hx]; [vm_compute; lia|]). by apply elem_of_nil in Hx.
Qed.

Lemma ext_entries_wf : Forall idx_wf (map ext_entry extf).
Proof.
  apply Forall_map, list.Forall_forall. intros x Hx. apply fname_wf.
  - unfold extf in Hx. repeat (apply elem_of_cons in Hx as [->|Hx]; [cbn [fst]; lia|]). by apply elem_of_nil in Hx.
  - unfold extf in Hx. repeat (apply elem_of_cons in Hx as [->|Hx]; [vm_compute; lia|]). by apply elem_of_nil in Hx.
Qed.

Lemma named_tracks i r da sid fn es : reserved_rec i r → Z.of_nat (length fn) <= 255 →
  tracks i (with_entries (attrs r (info_ops da sid fn)) es) (info_attrs da sid fn) ∧ same_meta r (attrs r (info_ops da sid fn)).
Proof. intros R Hf. destruct (info_tracks i r da sid fn (rv_tracks _ _ R) Hf) as (T & M & _). by split. Qed.

Lemma rev_in (i : Z) l : i ∈ rev l ↔ i ∈ l.
Proof. rewrite !list_elem_of_In, <- in_rev. done. Qed.

(** ** The streams of the metafiles *)

Lemma meta_stream_same w w' l i : same_volume w w' → same_plan w w' → meta_stream w' l i = meta_stream w l i.
Proof. intros (_ & _ & Et & _) (Em & _). unfold meta_stream. by rewrite Et, Em. Qed.

Lemma filled_same w w' l i r : same_volume w w' → same_plan w w' → filled w l i r ↔ filled w' l i r.
Proof. intros S P. unfold filled. by rewrite (meta_stream_same w w' l i S P). Qed.

Lemma stream_fits low w l rs sum big i name lcn n size : alloc_low low w (layout_runs l ++ rs) sum big → next_lcn w <= 2 ^ 50 → mftmirr_lcn w = reserve_lcn w →
  run_fits (mft_lcn l) (mft_clusters l) (mft_count l * NTFS_MFT_RECSZ) → attrdef_clusters l = 1 → 0 <= logfile_bytes l < 2 ^ 32 → 0 <= sds_data_size l < 2 ^ 32 →
  meta_stream w l i = Some (name, lcn, n, size) → run_fits lcn n size.
Proof.
  intros Ha Hnext Hm H0 Hat Hlb Hsd. pose proof (ao_runs _ _ _ _ Ha) as Hr. pose proof (ao_zone _ _ _ _ Ha) as Hz. pose proof (ao_res _ _ _ _ Ha) as [Hres _].
  apply Forall_app in Hr as [Hr _]. unfold layout_runs in Hr. rewrite !Forall_cons in Hr. cbn [fst snd] in Hr. destruct Hr as (R1 & R2 & R3 & R4 & R5 & _).
  unfold meta_stream. rewrite Hat, Hm.
  repeat (destruct (i =? _); [intros [= <- <- <- <-]; first [exact H0|unfold run_fits, is_u64, NTFS_MFT_RECSZ; split_and!; first [lia|pose proof (u64_range (total_clusters w + 7)); unfold is_u64 in *; dlia]]|]). done.
Qed.

(** The names of the metafiles add fifteen entries. *)
Definition added (j : nat) : Z := if (j =? 5)%nat then 48 else if (j =? 11)%nat then 12 else 0.

Lemma added_late n : ∀ i, (12 <= i)%nat → foldr (λ j z, added j + z) 0 (seq i n) = 0.
Proof.
  induction n as [|n IH]; intros i Hi; [done|]. cbn [seq foldr]. rewrite IH by lia. unfold added.
  by rewrite (proj2 (Nat.eqb_neq i 5)), (proj2 (Nat.eqb_neq i 11)) by lia.
Qed.

Lemma dirs_need_shift (f : nat → Z) l2 : ∀ l1 i, length l2 = length l1 →
  (∀ j r1 r2, l1 !! j = Some r1 → l2 !! j = Some r2 → dir_need r2 = dir_need r1 + f (i + j)%nat) →
  dirs_need l2 = dirs_need l1 + foldr (λ j z, f j + z) 0 (seq i (length l1)).
Proof.
  induction l2 as [|r2 l2 IH]; intros [|r1 l1] i El H; try done. cbn [length seq foldr]. unfold dirs_need in *. cbn [foldr].
  rewrite (IH l1 (S i)) by (try (cbn in El; lia); intros j a b Ha Hb; replace (S i + j)%nat with (i + S j)%nat by lia; by apply (H (S j))).
  rewrite (H 0%nat r1 r2 eq_refl eq_refl), Nat.add_0_r. lia.
Qed.

Lemma dirs_need_named w w1 : reserved_kept w → 27 <= nrec w → named_state w w1 → dirs_need (rec w1) = dirs_need (rec w) + 60.
Proof.
  intros Hres Hn N. pose proof (nd_rest _ _ N) as (_ & _ & _ & _ & _ & _ & El).
  rewrite (dirs_need_shift added (rec w1) (rec w) 0 El).
  - f_equal. unfold nrec in Hn. replace (length (rec w)) with (12 + (length (rec w) - 12))%nat by lia. rewrite seq_app, foldr_app, added_late by lia. reflexivity.
  - intros i r r1 Hr Hr1. cbn [Nat.add]. assert (get_rec w (Z.of_nat i) = Some r ∧ get_rec w1 (Z.of_nat i) = Some r1) as [Hg Hg1] by (unfold get_rec; by rewrite Nat2Z.id).
    unfold dir_need, added. destruct (Nat.eqb_spec i 5) as [->|N1]; [|destruct (Nat.eqb_spec i 11) as [->|N2]].
    + destruct (nd_root _ _ N) as (r' & E & E1). unfold NTFS_REC_ROOT in *. change (Z.of_nat 5) with 5 in *. rewrite Hg in E. injection E as <-. rewrite Hg1 in E1. injection E1 as ->.
      unfold named_root. cbn [with_entries r_is_dir r_entries]. set (ops := info_ops _ _ _). destruct (attrs_entries r ops) as (_ & _ & ->).
      destruct (Hres 5 ltac:(lia)) as (r' & E & R). rewrite Hg in E. injection E as <-. rewrite (rv_dir _ _ R). rewrite length_app. change (length (root_entries w)) with 12%nat. cbn. lia.
    + destruct (nd_ext _ _ N) as (r' & E & E1). unfold NTFS_REC_EXTEND in *. change (Z.of_nat 11) with 11 in *. rewrite Hg in E. injection E as <-. rewrite Hg1 in E1. injection E1 as ->.
      unfold named_extend. cbn [with_entries r_is_dir r_entries]. set (ops := info_ops _ _ _). destruct (attrs_entries r ops) as (_ & _ & ->).
      destruct (Hres 11 ltac:(lia)) as (r' & E & R). rewrite Hg in E. injection E as <-. rewrite (rv_dir _ _ R). rewrite length_app. change (length (map ext_entry extf)) with 3%nat. cbn. lia.
    + destruct (decide (24 <= Z.of_nat i < 27)) as [N3|N3].
      * destruct (nd_views _ _ N (Z.of_nat i) N3) as (r' & r2 & al & E & E1 & _ & _ & _ & _ & Hd & _). rewrite Hg in E. injection E as <-. rewrite Hg1 in E1. injection E1 as <-. rewrite Hd.
        destruct (Hres (Z.of_nat i) ltac:(lia)) as (r' & E & R). rewrite Hg in E. injection E as <-. rewrite (rv_dir _ _ R). unfold reserved_dir, NTFS_REC_ROOT, NTFS_REC_EXTEND.
        by rewrite (proj2 (Z.eqb_neq _ 5)), (proj2 (Z.eqb_neq _ 11)) by lia.
      * rewrite (nd_other _ _ N (Z.of_nat i) ltac:(lia) (not_named (Z.of_nat i) ltac:(lia) ltac:(lia) N3)) in Hg1. rewrite Hg in Hg1. injection Hg1 as <-. lia.
Qed.

Section finish.
Context (upcase : Z → Z) (w : ntfs_writer) (rs : runs) (sum big : Z) (kinds : list bool).
Context (V : vol_ok w rs sum big) (K : kinds_ok w (reserved_kinds ++ kinds)) (Hn : nrec w < 2 ^ 32) (Hc : closable upcase w = true).

Lemma closable_limits : Forall (λ r, r_ov r = []) (rec w) ∧ (length (sec w) <= 500)%nat ∧ sds_span (sec w) <= 0x40000 ∧ mft_at (nrec w) + mft_len (nrec w) <= mft_zone_end w.
Proof using Hc.
  unfold closable in Hc. rewrite !andb_true_iff in Hc. destruct Hc as (((((Ho & _) & Hs) & Hp) & Hz) & _). apply Nat.leb_le in Hs. zbool. split_and!; try done.
  apply list.Forall_forall. intros r Hin. rewrite forallb_forall in Ho. apply list_elem_of_In, Ho in Hin. apply Nat.eqb_eq in Hin. by destruct (r_ov r).
Qed.

Lemma closable_reparse : (length (rpl w) <= 21)%nat.
Proof using Hc. unfold closable in Hc. rewrite !andb_true_iff in Hc. destruct Hc as (((((_ & Hr) & _) & _) & _) & _). by apply Nat.leb_le in Hr. Qed.

Lemma closable_dir j r : 0 <= j → get_rec w j = Some r → r_is_dir r = true → dir_closable upcase w j r = true.
Proof using Hc.
  intros Hj Hr Hdir. unfold closable in Hc. apply andb_prop in Hc as [_ Hd]. rewrite forallb_forall in Hd.
  specialize (Hd j). rewrite Hr, Hdir in Hd. apply Hd. apply list_elem_of_In, elem_of_seqZ. apply lookup_lt_Some in Hr. unfold nrec. lia.
Qed.

(** The record of the root, or of [$Extend], has room when it is named. *)
Lemma reserved_room j r da sid fn es : reserved_rec j r → reserved_dir j = true → dir_closable upcase w j r = true →
  Z.of_nat (length fn) <= 255 → r_entries r ++ es = listed w j r →
  dir_room (with_entries (attrs r (info_ops da sid fn)) (r_entries r ++ es)) = true ∧ NoDup (names upcase (r_entries r ++ es)).
Proof using.
  intros R Hdir H Hf Ees. unfold dir_closable in H. rewrite Hdir in H. apply andb_prop in H as [H Hnd]. apply andb_prop in H as [Hl Hrp].
  apply bool_decide_eq_true in Hnd. apply bool_decide_eq_true in Hrp. rewrite <- Ees in Hl, Hnd. split; [|done].
  destruct (info_tracks j r da sid fn (rv_tracks _ _ R) Hf) as (_ & (_ & _ & _ & _ & _ & M6 & _) & U). destruct (resident_len_bound fn ltac:(lia)) as [B1 B2].
  unfold dir_room. cbn [with_entries r_used r_entries r_reparse]. rewrite M6, Hrp, Hl, U, (proj2 (Z.leb_le _ _)) by lia. done.
Qed.

Lemma name_root_len : Z.of_nat (length (root_name w)) <= 255 ∧ Z.of_nat (length extend_name) <= 255.
Proof using. unfold root_name, extend_name. rewrite !length_fname. cbn; lia. Qed.

Lemma closable_names : ∃ w1, close_names w = Ok w1 ∧ named_state w w1 ∧ Forall (λ r, r_is_dir r = true → dir_room r = true ∧ NoDup (names upcase (r_entries r))) (rec w1).
Proof using All.
  pose proof (session_reserved _ _ _ _ _ V K) as Hres. pose proof name_root_len as [L1 L2].
  destruct (close_names_ok w Hres closable_reparse) as (w1 & E & N). exists w1. split; [done|]. split; [done|].
  apply Forall_lookup. intros i r1 Hi Hdir. set (j := Z.of_nat i). assert (get_rec w1 j = Some r1) as Hr1 by (unfold get_rec, j; by rewrite Nat2Z.id).
  assert (0 <= j) as Hj by lia. clearbody j. clear i Hi.
  destruct (decide (j = NTFS_REC_ROOT)) as [->|N1]; [|destruct (decide (j = NTFS_REC_EXTEND)) as [->|N2]; [|destruct (decide (24 <= j < 27)) as [N3|N3]]].
  - destruct (nd_root _ _ N) as (r & Hr & Er). rewrite Er in Hr1. injection Hr1 as <-. destruct (Hres NTFS_REC_ROOT ltac:(by vm_compute)) as (r' & Hr' & R).
    rewrite Hr in Hr'. injection Hr' as <-. apply reserved_room with (j := NTFS_REC_ROOT); try done. apply closable_dir; [done|done|by rewrite (rv_dir _ _ R)].
  - destruct (nd_ext _ _ N) as (r & Hr & Er). rewrite Er in Hr1. injection Hr1 as <-. destruct (Hres NTFS_REC_EXTEND ltac:(by vm_compute)) as (r' & Hr' & R).
    rewrite Hr in Hr'. injection Hr' as <-. apply reserved_room with (j := NTFS_REC_EXTEND); try done. apply closable_dir; [done|done|by rewrite (rv_dir _ _ R)].
  - destruct (nd_views _ _ N j N3) as (r & r' & al & Hr & Er & _ & _ & _ & _ & Hf & _). rewrite Er in Hr1. injection Hr1 as <-. congruence.
  - rewrite (nd_other _ _ N j Hj (not_named j N1 N2 N3)) in Hr1. pose proof (closable_dir j r1 Hj Hr1 Hdir) as H.
    unfold dir_closable, listed in H. unfold reserved_dir in H. rewrite (proj2 (Z.eqb_neq _ _) N1), (proj2 (Z.eqb_neq _ _) N2) in H. cbn [orb] in H.
    rewrite app_nil_r in H. apply andb_prop in H as [H1 H2]. by apply bool_decide_eq_true in H2.
Qed.

Lemma session_rec j r : 0 <= j → get_rec w j = Some r → rec_ok (entries_all (rec w)) (nrec w) j r ∧ j < nrec w.
Proof using V.
  intros Hj Hr. pose proof (vo_recs _ _ _ _ V _ _ Hr) as H. rewrite Z2Nat.id in H by done. apply lookup_lt_Some in Hr. unfold nrec. split; [done|lia].
Qed.

Lemma session_entries j r : 0 <= j → get_rec w j = Some r → Forall idx_wf (r_entries r).
Proof using V Hn.
  intros Hj Hr. destruct (session_rec j r Hj Hr) as [(_ & _ & _ & He & _) _]. eapply Forall_impl; [exact He|]. intros e. by apply entry_wf_idx.
Qed.

(** What it was before. *)
Definition named_from (j : Z) (r1 : mftrec_t) : Prop :=
  ∃ r, get_rec w j = Some r ∧ r_is_dir r1 = r_is_dir r ∧ (j ∉ named_recs → r1 = r) ∧
    (¬ 24 <= j < 27 → r_entries r1 = listed w j r ∧ r_flags r1 = if r_is_dir r then 3 else 1).

(** Every record after the names: its attributes, and what it was. *)
Lemma named_rec w1 : named_state w w1 → ∀ j r1, 0 <= j → get_rec w1 j = Some r1 →
  ∃ al, tracks j r1 al ∧ meta_ok r1 ∧ r_seq r1 = seq_of j ∧ r_ov r1 = [] ∧ (24 <= j < 27 → r_is_dir r1 = false) ∧
    (¬ 24 <= j < 27 → early al ∧ Forall idx_wf (r_entries r1)) ∧ named_from j r1.
Proof using All.
  intros N j r1 Hj Hr1. pose proof (session_reserved _ _ _ _ _ V K) as Hres. pose proof name_root_len as [L1 L2].
  destruct (decide (j = NTFS_REC_ROOT)) as [->|N1]; [|destruct (decide (j = NTFS_REC_EXTEND)) as [->|N2]; [|destruct (decide (24 <= j < 27)) as [N3|N3]]].
  - destruct (nd_root _ _ N) as (r & Hr & E). rewrite E in Hr1. injection Hr1 as <-. destruct (Hres NTFS_REC_ROOT ltac:(by vm_compute)) as (r' & Hr' & R).
    rewrite Hr in Hr'. injection Hr' as <-. unfold named_root. destruct (named_tracks _ r (root_attrs w) (root_sec_id w) (root_name w) (r_entries r ++ root_entries w) R L1) as [T M].
    set (a := attrs r _) in *. pose proof M as (M1 & _ & _ & _ & _ & _ & M7 & _).
    eexists. split; [exact T|]. split; [apply (meta_same r a M), (reserved_meta NTFS_REC_ROOT); [by vm_compute|done]|]. cbn [with_entries r_seq r_ov r_is_dir r_entries].
    split; [rewrite M1; apply R|]. split; [rewrite M7; apply R|]. split; [unfold NTFS_REC_ROOT; lia|]. split.
    + intros _. split; [apply info_early|]. apply Forall_app. split; [by apply (session_entries NTFS_REC_ROOT)|apply root_entries_wf].
    + exists r. pose proof M as (_ & M2 & _ & M4 & _). cbn [with_entries r_is_dir r_entries r_flags]. split; [done|]. split; [exact M4|].
      split; [intros Hni; destruct Hni; apply list_elem_of_here|]. intros _. split; [done|]. by rewrite M2, (rv_flags _ _ R), (rv_dir _ _ R).
  - destruct (nd_ext _ _ N) as (r & Hr & E). rewrite E in Hr1. injection Hr1 as <-. destruct (Hres NTFS_REC_EXTEND ltac:(by vm_compute)) as (r' & Hr' & R).
    rewrite Hr in Hr'. injection Hr' as <-. unfold named_extend. destruct (named_tracks _ r 0x10000006 0x101 extend_name (r_entries r ++ map ext_entry extf) R L2) as [T M].
    set (a := attrs r _) in *. pose proof M as (M1 & _ & _ & _ & _ & _ & M7 & _).
    eexists. split; [exact T|]. split; [apply (meta_same r a M), (reserved_meta NTFS_REC_EXTEND); [by vm_compute|done]|]. cbn [with_entries r_seq r_ov r_is_dir r_entries].
    split; [rewrite M1; apply R|]. split; [rewrite M7; apply R|]. split; [unfold NTFS_REC_EXTEND; lia|]. split.
    + intros _. split; [apply info_early|]. apply Forall_app. split; [by apply (session_entries NTFS_REC_EXTEND)|apply ext_entries_wf].
    + exists r. pose proof M as (_ & M2 & _ & M4 & _). cbn [with_entries r_is_dir r_entries r_flags]. split; [done|]. split; [exact M4|].
      split; [intros Hni; destruct Hni; apply list_elem_of_further, list_elem_of_here|]. intros _. split; [done|]. by rewrite M2, (rv_flags _ _ R), (rv_dir _ _ R).
  - destruct (nd_views _ _ N j N3) as (r & r' & al & Hr & E & T & S1 & S2 & S3 & S4 & S5 & S6). rewrite E in Hr1. injection Hr1 as <-.
    pose proof (seq_of_range j ltac:(lia)). exists al. split; [done|]. split; [unfold meta_ok; rewrite S1, S2, S3, S5; unfold is_u16, is_u64; lia|].
    split_and!; try done. exists r. destruct (Hres j ltac:(lia)) as (r2 & Hr2 & R). rewrite Hr in Hr2. injection Hr2 as <-. split; [done|]. split.
    + rewrite S4, (rv_dir _ _ R). unfold reserved_dir, NTFS_REC_ROOT, NTFS_REC_EXTEND. destruct (Z.eqb_spec j 5), (Z.eqb_spec j 11); lia || done.
    + split; [|done]. intros Hni. exfalso. apply Hni. unfold named_recs. rewrite !elem_of_cons. lia.
  - assert (j ∉ named_recs) as Hni by (apply not_named; [exact N1|exact N2|exact N3]). rewrite (nd_other _ _ N j Hj Hni) in Hr1.
    destruct (session_rec j r1 Hj Hr1) as [Hok Hlt]. pose proof (session_entries j r1 Hj Hr1) as He.
    destruct closable_limits as [Hov _]. rewrite list.Forall_forall in Hov. specialize (Hov r1 ltac:(by eapply list_elem_of_lookup_2)).
    destruct Hok as (H1 & H2 & H3 & _ & al & T & Hea & _ & H7 & H8). pose proof (seq_of_range j Hj). exists al. split_and!; try done.
    2:{ exists r1. split_and!; try done. intros _. split; [|done]. unfold listed. by rewrite (proj2 (Z.eqb_neq _ _) N1), (proj2 (Z.eqb_neq _ _) N2), app_nil_r. }
    unfold meta_ok. rewrite H1, H2, H3. split_and!; [unfold is_u16; lia| |destruct (r_is_dir r1); by vm_compute|by vm_compute].
    unfold is_u16. destruct (Z.lt_ge_cases j 27); [destruct (H8 ltac:(done)) as [-> _]; lia|rewrite H7 by done]. apply Z.mod_pos_bound. lia.
Qed.
End finish.

(** ** The phases *)

Section close.
Context {D : Type} `{HI : Image D} (upcase : Z → Z) (qsort : list idx_entry_t → list idx_entry_t) (qsort_sdh : list bentry_t → list bentry_t).
Context (Hq : ∀ l, qsort l ≡ₚ l ∧ Sorted (λ a b, idx_cmp upcase a b <= 0) (qsort l)) (Hq2 : ∀ l, qsort_sdh l ≡ₚ l).
Context (w : ntfs_writer) (d : D) (rs : runs) (sum big k : Z) (kinds : list bool).
Context (V : vol_ok w rs sum big) (K : kinds_ok w (reserved_kinds ++ kinds)) (Hn : nrec w < 2 ^ 32) (Hc : closable upcase w = true).
Context (Hd : img_ok d) (Hk : 0 <= k) (Hlive : img_live (close_bytes w + k) d).
Context (Hbig : close_need w <= big) (Hcap : mft_zone_end w + sum + close_need w + big + 1 <= total_clusters w).
Context (Hps : 32 <= part_sectors w < 2 ^ 50) (Htot : total_clusters w = (part_sectors w - 1) / 8 ∧ total_clusters w <= 8 * Z.of_nat (length (clbmp w))).
Context (Hlen : Z.of_nat (length (clbmp w)) mod cluster_size = 0) (Hmirr : mftmirr_lcn w = reserve_lcn w ∧ mft_zone_end w <= reserve_lcn w ∧ reserve_lcn w + 1 <= total_clusters w).
Context (Hlab : (length (label w) <= 32)%nat) (Hend : part_off w + (total_clusters w + 1) * cluster_size <= OFF_MAX).

(** The named records and the indexes of all directories. *)
Record indexed_state (w2 : ntfs_writer) (m2 : mem) (rs2 : runs) : Prop := {
  ix_rest : same_volume w w2 ∧ same_plan w w2 ∧ sec w2 = sec w ∧ length (rec w2) = length (rec w);
  ix_runs : ∃ more, rs2 = more ++ rs;
  ix_held : Forall (λ x, run_bytes m2 w x = run_bytes (img_view d) w x) rs;
  ix_ov : Forall (λ r, r_ov r = []) (rec w2);
  ix_recs : ∀ j r, 0 <= j → get_rec w j = Some r → ∃ r2 al, get_rec w2 j = Some r2 ∧ tracks j r2 al ∧ meta_ok r2 ∧ r_seq r2 = seq_of j ∧
    (j ∉ named_recs → r_is_dir r = false → r2 = r) ∧ (r_is_dir r = true → r_flags r2 = 3 ∧ indexed upcase w2 m2 rs2 (listed w j r) al);
}.

Lemma close_first : ∃ w2 d2 rs2 s2, (
    w ← close_names w; '(w, d) ← index_dirs qsort (length (rec w)) w d 0; convert_all (length (rec w)) w d 0) = Ok (w2, d2) ∧
  indexed_state w2 (img_view d2) rs2 ∧ alloc_ok w2 rs2 (sum + s2) big ∧ on_image w2 ∧ img_ok d2 ∧
  img_live ((2 * Z.of_nat (length (sec w)) + plan_need w + bmp_len (nrec w) + mft_len (nrec w) + 3) * cluster_size + k) d2 ∧
  close_need w = s2 + plan_need w + 2 * Z.of_nat (length (sec w)) ∧ 0 <= s2.
Proof using All.
  pose proof (plan_need_min w Hps) as Hp0. destruct (closable_names upcase w rs sum big kinds V K Hn Hc) as (w1 & E1 & N & Hdirs).
  pose proof (closable_limits upcase w Hc) as (_ & Hs500 & _). unfold close_bytes, close_need in *. rewrite E1. cbn [mbind outcome_bind].
  pose proof (dirs_need_named w w1 (session_reserved _ _ _ _ _ V K) (proj1 (vo_count _ _ _ _ V)) N) as Edn.
  pose proof (nd_rest _ _ N) as (Sv & Sl & Sb & Ss & Sc & Sp & Slen). pose proof Sv as (_ & _ & _ & Sz & _ & _ & Sbl).
  assert (alloc_ok w1 rs sum big) as A1 by (apply (alloc_ok_same _ w); try done; apply V).
  assert (on_image w1) as O1 by (apply (on_image_same w w1 Sv); apply V). pose proof (dirs_need_nonneg (rec w1)) as Hdn.
  assert (0 <= bmp_len (nrec w) ∧ 0 <= mft_len (nrec w)) as [Hb0 Hm0].
  { unfold bmp_len, mft_len, bmp_bytes_of, cluster_size, NTFS_MFT_RECSZ, nrec. destruct (_ <=? _); split; dlia. }
  assert (∀ j r1, 0 <= j → get_rec w1 j = Some r1 → r_is_dir r1 = true → dir_ready upcase j r1) as Hready.
  { intros j r1 Hj Hr Hd1. destruct (named_rec upcase w rs sum big kinds V K Hn Hc w1 N j r1 Hj Hr) as (al & T & _ & _ & _ & T5 & T6 & _).
    rewrite list.Forall_forall in Hdirs. destruct (Hdirs r1 ltac:(by eapply list_elem_of_lookup_2) Hd1) as [F1 F2].
    destruct T6 as [F3 F4]; [intros Hv; specialize (T5 Hv); congruence|]. split_and!; try done. by exists al. }
  destruct (index_dirs_ok upcase qsort Hq boot_only big ((2 * Z.of_nat (length (sec w)) + plan_need w + bmp_len (nrec w) + mft_len (nrec w) + 3) * cluster_size + k) ltac:(unfold cluster_size; lia)
      (rec w1) w1 d rs sum 0 eq_refl ltac:(lia) A1 O1 Hd) as (w2 & d2 & rs2 & E2 & G & A2 & O2 & D2 & L2 & El & Hrecs).
  { intros j r1 Hj Hd1. replace (0 + Z.of_nat j) with (Z.of_nat j) by lia. apply Hready; [lia| |done]. unfold get_rec. by rewrite Nat2Z.id. }
  { lia. } { rewrite Sz, Sbl. lia. }
  { eapply img_live_le; [exact Hlive|]. unfold cluster_size. lia. }
  rewrite E2. cbn [mbind outcome_bind].
  assert (Forall (λ r, r_ov r = []) (rec w2)) as Hov.
  { apply Forall_lookup. intros i r2 Hi. pose proof (lookup_lt_Some _ _ _ Hi) as Hlt. rewrite El in Hlt. apply lookup_lt_is_Some in Hlt as [r1 Hr1].
    destruct (Hrecs (Z.of_nat i) r1 ltac:(lia)) as (r2' & Hr2 & Hcase); [unfold get_rec; by rewrite Nat2Z.id|]. unfold get_rec in Hr2. rewrite Nat2Z.id, Hi in Hr2. injection Hr2 as <-.
    destruct (named_rec upcase w rs sum big kinds V K Hn Hc w1 N (Z.of_nat i) r1 ltac:(lia)) as (al & _ & _ & _ & Eo & _); [unfold get_rec; by rewrite Nat2Z.id|].
    destruct (_ && _); [|by rewrite Hcase]. destruct Hcase as (al1 & al2 & _ & _ & (_ & _ & _ & _ & _ & _ & _ & Eov & _)). by rewrite Eov. }
  exists w2, d2, rs2, (dirs_need (rec w1)). rewrite (convert_none w2 d2 _ Hov). split; [done|]. split; [|split_and!; try done; lia].
  constructor.
  - destruct (gr_sec _ _ _ _ _ _ G) as (G4 & _). split_and!; [by eapply same_volume_trans; [|apply G]|by eapply same_plan_trans; [|apply G]|congruence|congruence].
  - apply G.
  - eapply Forall_impl; [exact (gr_data _ _ _ _ _ _ G)|]. cbn beta. intros x Hx. rewrite <- (run_bytes_same (img_view d) w w1 x Sv), <- Hx. symmetry. apply run_bytes_same. eapply same_volume_trans; [exact Sv|apply G].
  - exact Hov.
  - intros j r Hj Hr. pose proof (lookup_lt_Some _ _ _ Hr) as Hlt. rewrite <- Slen in Hlt. apply lookup_lt_is_Some in Hlt as [r1 Hr1].
    destruct (named_rec upcase w rs sum big kinds V K Hn Hc w1 N j r1 Hj Hr1) as (al & T & M & Eq & Eo & Tv & Te & (r' & Hr' & Ed & Eo2 & Ee)).
    rewrite Hr in Hr'. injection Hr' as <-. destruct (Hrecs j r1 Hj Hr1) as (r2 & Hr2 & Hcase). rewrite (proj2 (Z.leb_le 0 j)), andb_true_r in Hcase by done. rewrite Ed in Hcase.
    destruct (r_is_dir r) eqn:Edir.
    + destruct Hcase as (al1 & al2 & _ & _ & (C1 & _ & C3 & C4 & C5 & _ & C7 & _ & _ & C10 & _)). destruct Ee as [Ee Ef]; [intros Hv; rewrite Tv in Ed; [done|exact Hv]|].
      rewrite Ee in C10. exists r2, al2. split_and!; try done; [|congruence|by rewrite C4, Ef].
      unfold meta_ok in *. by rewrite C3, C4, C5, C7.
    + subst r2. exists r1, al. split_and!; try done. intros Hni _. by apply Eo2.
Qed.

(** The layout and the metafile records. *)
Record filled_state (l : ntfs_layout) (w4 : ntfs_writer) (m4 : mem) (rs4 rs2 : runs) : Prop := {
  fd_rest : same_volume w w4 ∧ same_plan w w4 ∧ nrec w4 = nrec w;
  fd_lay : laid_out w l;
  fd_runs : (∃ more, rs4 = more ++ layout_runs l ++ rs2) ∧ ∃ more, rs2 = more ++ rs;
  fd_held : Forall (λ x, run_bytes m4 w x = run_bytes (img_view d) w x) rs;
  fd_sec : ∃ e, sds_laid 0 (sec w4) e ∧ 0x40000 + e <= sds_bytes l;
  fd_filled : ∀ i, i ∈ fill_list → ∃ r, get_rec w4 i = Some r ∧ filled w l i r;
  fd_recs : ∀ j r, 0 <= j → get_rec w j = Some r → j ∉ fill_list → ∃ r2 al, get_rec w4 j = Some r2 ∧ tracks j r2 al ∧ meta_ok r2 ∧ r_seq r2 = seq_of j ∧
    (j ∉ named_recs → r_is_dir r = false → r2 = r) ∧ (r_is_dir r = true → r_flags r2 = 3 ∧ indexed upcase w4 m4 rs2 (listed w j r) al);
}.

Lemma plan_need_same w2 : same_volume w w2 → part_sectors w2 = part_sectors w → sec w2 = sec w → plan_need w2 = plan_need w.
Proof using. intros (_ & _ & _ & _ & _ & _ & Eb) Ep Es. unfold plan_need, sds_size, bitmap_len. by rewrite Eb, Ep, Es. Qed.

Lemma laid_out_same w2 l : same_volume w w2 → nrec w2 = nrec w → sec w2 = sec w → laid_out w2 l → laid_out w l.
Proof using.
  intros (_ & Ep & _ & _ & _ & _ & Eb) En Es [L1 L2 L3 L4 L5 L6 L7]. unfold sds_size, bitmap_len in *. rewrite ?En, ?Ep, ?Es, ?Eb in *. by constructor.
Qed.

(** The indexes do not see the descriptors. *)
Lemma indexed_sec w2 m2 rs2 w3 m3 entries al : same_volume w2 w3 → Forall (λ x, run_bytes m3 w2 x = run_bytes m2 w2 x) rs2 →
  indexed upcase w2 m2 rs2 entries al → indexed upcase w3 m3 rs2 entries al.
Proof using.
  intros S H X. assert (grows w2 m2 rs2 (set_rec w2 (rec w2) (cap_rec w2)) m3 rs2) as G.
  { constructor; [done|by exists []| |done|done]. eapply Forall_impl; [exact H|]. cbn beta. intros x <-. by apply run_bytes_same. }
  apply (indexed_grows _ _ _ _ _ _ _ _ _ G) in X. destruct S as (Ep & _). destruct X as (x & h & used & srt & lcn & X). exists x, h, used, srt, lcn.
  unfold cluster_byte in *. cbn [set_rec part_off] in X. by rewrite Ep.
Qed.

Lemma close_second : ∃ l w4 d4 rs4 rs2 s4, (
    w ← close_names w; '(w, d) ← index_dirs qsort (length (rec w)) w d 0; '(w, d) ← convert_all (length (rec w)) w d 0;
    '(l, w) ← plan_layout w; '(w, d) ← fill_records upcase qsort_sdh w d l; Ok (l, w, d)) = Ok (l, w4, d4) ∧
  filled_state l w4 (img_view d4) rs4 rs2 ∧ alloc_low (front (nrec w)) w4 rs4 s4 big ∧ next_lcn w4 <= total_clusters w ∧ on_image w4 ∧ img_ok d4 ∧
  img_live ((plan_need w + mft_len (nrec w) + 3) * cluster_size + k) d4.
Proof using All.
  pose proof (plan_need_min w Hps) as Hp0. destruct close_first as (w2 & d2 & rs2 & s2 & E2 & [(I1 & I2 & I3 & I4) I5 I6 I7 I8] & A2 & O2 & D2 & L2 & Eneed & Hs2).
  pose proof I1 as (P1 & P2 & P3 & P4 & P5 & P6 & P7). pose proof I2 as (Q1 & _ & Q3 & _).
  destruct (closable_limits upcase w Hc) as (_ & Hs500 & Hsp & Hzone). assert (nrec w2 = nrec w) as En by (unfold nrec; by rewrite I4).
  pose proof (plan_need_same w2 I1 P2 I3) as Ep.
  destruct (plan_ok w2 rs2 (sum + s2) big A2) as (l & w3 & E3 & Lo & Kp & A3 & Nx); rewrite ?En, ?P2, ?P3, ?P4, ?P5, ?P7, ?Ep, ?I3, ?Q1; try done; try lia.
  { pose proof (vo_count _ _ _ _ V). lia. }
  pose proof (sds_size_ok w2 ltac:(by rewrite I3)) as Hsz. destruct (sds_place 0 (sec w2)) as [secs e] eqn:Esds. cbn [fst] in Kp. destruct Hsz as (Z1 & Z2 & Z3 & Z4 & Z5 & Z6).
  pose proof Kp as (K1 & K2 & K3 & K4 & K5 & K6). cbn [set_sec rec cap_rec sec rpl] in K3, K4, K5, K6.
  assert (nrec w3 = nrec w) as En3 by (unfold nrec; rewrite K3, I4; done).
  assert (same_volume w w3) as SV by (eapply same_volume_trans; [exact I1|exact K1]). assert (same_plan w w3) as SP by (eapply same_plan_trans; [exact I2|exact K2]).
  pose proof SV as (V1 & V2 & V3 & V4 & V5 & V6 & V7). pose proof SP as (U1 & _ & U3 & _).
  assert (length (sec w3) = length (sec w)) as Esl by (rewrite K5; apply Forall2_length in Z6; congruence).
  assert (∀ j, get_rec w3 j = get_rec w2 j) as Gr by (intros j; unfold get_rec; by rewrite K3).
  rewrite Ep in A3. pose proof Lo as Lo2. destruct Lo2 as [Lc [Lm1 Lm2] (Lb1 & Lb2 & Lb3) Lat [Ll1 Ll2] (Ls1 & Ls2 & Ls3) Lbm]. rewrite En in Lc, Lm1, Lm2, Lb1, Lb2, Lb3, A3. rewrite P2 in Ll1, Ll2. rewrite P3 in Nx.
  assert (total_clusters w < 2 ^ 47) as Ht47 by (destruct Htot as [-> _]; clear - Hps; dlia).
  assert (26 < nrec w) as Hn27 by (pose proof (vo_count _ _ _ _ V); lia). destruct (front_spec (nrec w) ltac:(lia)) as (F1 & F2 & F3 & F4 & F5 & F6 & F7 & F8).
  destruct (logfile_size_ok (part_sectors w) Hps) as [G1 G2].
  pose proof (session_reserved _ _ _ _ _ V K) as Hres.
  assert (∀ i r, 0 <= i < 27 → i ∉ named_recs → get_rec w i = Some r → get_rec w3 i = Some r) as Hkeep.
  { intros i r Hi Hni Hr. destruct (I8 i r ltac:(lia) Hr) as (r2 & al & Hr2 & _ & _ & _ & H & _). rewrite Gr, Hr2. rewrite H; [done|done|].
    destruct (Hres i Hi) as (r' & Hr' & R). rewrite Hr in Hr'. injection Hr' as <-. rewrite (rv_dir _ _ R).
    unfold named_recs in Hni. rewrite !not_elem_of_cons in Hni. unfold reserved_dir. destruct Hni as (N1 & N2 & _). by rewrite (proj2 (Z.eqb_neq _ _) N1), (proj2 (Z.eqb_neq _ _) N2). }
  destruct (fill_records_ok upcase qsort_sdh Hq2 (front (nrec w)) w3 d2 (layout_runs l ++ rs2) (sum + s2 + plan_need w) big l A3) with (k := (plan_need w + mft_len (nrec w) + 3) * cluster_size + k)
    as (w4 & d4 & rs4 & E4 & F & El4 & G4 & A4 & O4 & D4 & L4); rewrite ?En3, ?V4, ?V5, ?V7, ?U1, ?U3, ?Esl; try done; try lia.
  { by apply (on_image_same w2 w3 K1). }
  { intros i Hi Hni. destruct (Hres i ltac:(lia)) as (r & Hr & R). exists r. split; [apply Hkeep; [lia|done|done]|done]. }
  { destruct (Hres NTFS_REC_ROOT ltac:(by vm_compute)) as (r & Hr & _). destruct (I8 NTFS_REC_ROOT r ltac:(by vm_compute) Hr) as (r2 & al & Hr2 & _ & _ & Es & _).
    apply (root_ref_eq w3 r2); [by rewrite Gr|done]. }
  { intros i name lcn n size. apply (stream_fits (front (nrec w)) w3 l rs2 (sum + s2 + plan_need w) big); [done|lia|rewrite U1, V5; lia| |done|rewrite Ll1; lia|lia].
    rewrite Lm1, Lm2, Lc. unfold run_fits, is_u64, NTFS_MFT_RECSZ in *. lia. }
  { unfold cluster_size. lia. }
  { eapply img_live_le; [exact L2|unfold cluster_size; lia]. }
  exists l, w4, d4, rs4, rs2, (sum + s2 + plan_need w + 2 * Z.of_nat (length (sec w))).
  split; [|split; [|split_and!; try done]].
  - destruct (close_names w) as [w1| | |]; cbn [mbind outcome_bind] in E2 |- *; [|discriminate..].
    destruct (index_dirs _ _ _ _ _) as [[wi di]| | |]; cbn [mbind outcome_bind] in E2 |- *; [|discriminate..].
    rewrite E2. cbn [mbind outcome_bind]. rewrite E3. cbn [mbind outcome_bind]. by rewrite E4.
  - constructor.
    + split_and!; [by eapply same_volume_trans; [|apply F]|by eapply same_plan_trans; [|apply F]|unfold nrec in *; congruence].
    + by apply (laid_out_same w2).
    + destruct (gr_runs _ _ _ _ _ _ G4) as (more & ->). split; [by exists more|done].
    + pose proof (gr_data _ _ _ _ _ _ G4) as H4. apply Forall_app in H4 as [_ H4]. destruct I5 as (more2 & ->). apply Forall_app in H4 as [_ H4].
      rewrite list.Forall_forall in *. intros x Hx. rewrite <- (I6 x Hx), <- (run_bytes_same (img_view d2) w w3 x SV), <- (H4 x Hx). symmetry.
      apply run_bytes_same. eapply same_volume_trans; [exact SV|apply F].
    + exists e. destruct (fg_sec _ _ _ _ F) as [-> _]. rewrite K5. split; [exact Z1|]. rewrite Ls1. lia.
    + intros i Hi. destruct (fg_done _ _ _ _ F i) as (r & Hr & Hf); [by apply rev_in|]. exists r. split; [done|]. by apply (filled_same w w3).
    + intros j r Hj Hr Hni. destruct (I8 j r Hj Hr) as (r2 & al & Hr2 & T & M & Es & Hsame & Hdir). exists r2, al.
      assert (get_rec w4 j = Some r2) as E by (rewrite (fg_todo _ _ _ _ F j Hj); [by rewrite Gr|by rewrite rev_in]).
      split_and!; try done. intros Hd1. destruct (Hdir Hd1) as [Hf Hx]. split; [done|]. apply (indexed_sec w2 (img_view d2) rs2); [| |exact Hx].
      * eapply same_volume_trans; [exact K1|apply F].
      * pose proof (gr_data _ _ _ _ _ _ G4) as H4. apply Forall_app in H4 as [_ H4]. eapply Forall_impl; [exact H4|]. cbn beta. intros x Hx4.
        rewrite <- (run_bytes_same (img_view d2) w2 w3 x K1), <- Hx4. symmetry. apply run_bytes_same. eapply same_volume_trans; [exact K1|apply F].
  - by rewrite <- Esl.
  - pose proof (ao_next _ _ _ _ A4) as [Hnx _]. rewrite Esl in Hnx. destruct (fg_vol _ _ _ _ F) as (_ & _ & _ & Ez & _). rewrite Ez, V4 in Hnx. lia.
Qed.

(** Every record can be written. *)
Lemma filled_sized l w4 m4 rs4 rs2 : filled_state l w4 m4 rs4 rs2 → ∀ i, 0 <= i < nrec w → ∃ r, get_rec w4 i = Some r ∧ sized r.
Proof using All.
  intros F i Hi. destruct (decide (i ∈ fill_list)) as [Hin|Hni].
  - destruct (fd_filled _ _ _ _ _ F i Hin) as (r & Hr & _ & Hf). exists r. split; [done|]. destruct (i =? 8); [exact Hf|].
    destruct Hf as (al & T & _). by apply (tracks_sized i r al).
  - assert (is_Some (get_rec w i)) as [r Hr] by (apply lookup_lt_is_Some; unfold nrec in Hi; lia).
    destruct (fd_recs _ _ _ _ _ F i r ltac:(lia) Hr Hni) as (r2 & al & Hr2 & T & _). exists r2. split; [done|]. by apply (tracks_sized i r2 al).
Qed.

(** The volume is closed: what is on the image, and the state it came from. *)
Record closed_state (l : ntfs_layout) (w' : ntfs_writer) (m' : mem) (rs' rs2 : runs) : Prop := {
  cl_state : filled_state l w' m' rs' rs2;
  cl_alloc : ∃ s, alloc_low (front (nrec w)) w' rs' s big;
  cl_next : next_lcn w' <= total_clusters w;
  cl_image : on_image w';
  cl_written : ∃ ws, written upcase w' l ws ∧ holds m' ws;
}.

Lemma close_ok : ∃ w' l d' rs' rs2, ntfs_writer_close upcase qsort qsort_sdh w d = Ok (w', l, d') ∧ closed_state l w' (img_view d') rs' rs2 ∧ img_ok d' ∧ img_live k d'.
Proof using All.
  pose proof (plan_need_min w Hps) as Hp0. destruct close_second as (l & w4 & d4 & rs4 & rs2 & s4 & E4 & F & A4 & Nx & O4 & D4 & L4).
  pose proof F as [(SV & SP & En) Lo [(more & Ers) (more2 & Ers2)] Hheld (e & Hsds1 & Hsds2) Hfl Hrc].
  pose proof SV as (V1 & V2 & V3 & V4 & V5 & V6 & V7). pose proof SP as (U1 & _). destruct (closable_limits upcase w Hc) as (_ & _ & Hsp & Hzone).
  pose proof Lo as [Lc [Lm1 Lm2] _ Lat [Ll1 Ll2] (Ls1 & Ls2 & Ls3) Lbm]. pose proof (vo_count _ _ _ _ V) as Hcnt.
  destruct (front_spec (nrec w) ltac:(lia)) as (F1 & F2 & F3 & F4 & F5 & F6 & F7 & F8). destruct (logfile_size_ok (part_sectors w) Hps) as [G1 G2].
  pose proof (sds_size_ok w Hsp) as Hsz. destruct (sds_place 0 (sec w)) as [secs e0]. destruct Hsz as (_ & _ & Z3 & Z4 & _).
  assert (bitmap_clusters l * cluster_size = Z.of_nat (length (clbmp w))) as Eb by (rewrite Lbm; unfold bitmap_len, cluster_size in *; dlia).
  assert (sds_size w / cluster_size * cluster_size = sds_size w) as Es by (unfold cluster_size in *; dlia).
  assert (logfile_size (part_sectors w) / cluster_size * cluster_size = logfile_size (part_sectors w)) as El by (unfold cluster_size in *; dlia).
  rewrite Ers in A4. destruct (close_writes_ok upcase (front (nrec w)) w4 l more rs2 s4 big e A4 O4) as (ws & Ews & Hdis & Hfit & Hwl & Hav & Hwr);
    rewrite ?V1, ?V2, ?V3, ?V4, ?V5, ?V7, ?U1, ?Lc, ?Lm1, ?Lm2; try done; try lia.
  { intros i Hi. by apply (filled_sized l w4 (img_view d4) rs4 rs2). }
  { rewrite Ll2, Ll1. unfold cluster_size in *. dlia. }
  { rewrite Ls2, Es. split; [exact Hsds1|]. split; [exact Hsds2|exact Ls1]. }
  destruct (puts_total ws d4 k D4 Hfit Hk) as (d5 & E5 & D5 & _ & Hv5 & L5).
  { eapply img_live_le; [exact L4|]. unfold last_need, plan_need in *. rewrite Lm2, Ll2, Ls2, Lbm in Hwl. unfold cluster_size in *. lia. }
  destruct (img_flush_total d5 k D5 Hk L5) as (d6 & E6 & L6). pose proof E6 as Hf. apply img_flush_spec in Hf as (D6 & _ & [[_ Hv6]|]); [|done|done].
  assert (Forall (λ x, run_bytes (img_view d6) w4 x = run_bytes (img_view d4) w4 x) (more ++ rs2)) as Hk6.
  { rewrite list.Forall_forall in *. intros x Hx. destruct (run_base _ w4 _ s4 big x A4 O4) as (B1 & _ & B3 & _).
    { apply elem_of_app in Hx as [Hx|Hx]; apply elem_of_app; [by left|right; apply elem_of_app; by right]. }
    unfold run_bytes. rewrite B1. rewrite (mread_ext _ (apply_writes (img_view d4) ws)) by (intros y _; by rewrite Hv6, Hv5).
    apply apply_writes_avoids. rewrite Z2Nat.id by (unfold cluster_size; lia). by apply Hav. }
  exists w4, l, d6, rs4, rs2. split; [|split; [|by split]].
  - unfold ntfs_writer_close. destruct (close_names w) as [w1| | |]; cbn [mbind outcome_bind] in E4 |- *; [|discriminate..].
    destruct (index_dirs _ _ _ _ _) as [[wi di]| | |]; cbn [mbind outcome_bind] in E4 |- *; [|discriminate..].
    destruct (convert_all _ _ _ _) as [[wi2 di2]| | |]; cbn [mbind outcome_bind] in E4 |- *; [|discriminate..].
    destruct (plan_layout _) as [[li wi3]| | |]; cbn [mbind outcome_bind] in E4 |- *; [|discriminate..].
    destruct (fill_records _ _ _ _ _) as [[wi4 di4]| | |]; cbn [mbind outcome_bind] in E4 |- *; [|discriminate..].
    injection E4 as -> -> ->. rewrite Ews. cbn [opt mbind outcome_bind]. rewrite E5. cbn [opt mbind outcome_bind]. by rewrite E6.
  - apply Forall_app in Hk6 as [_ Hk6]. constructor; [|by exists s4; rewrite Ers|done|done|].
    + constructor; try done.
      * split; [by exists more|by exists more2].
      * rewrite Ers2 in Hk6. apply Forall_app in Hk6 as [_ Hk6]. rewrite list.Forall_forall in *. intros x Hx.
        rewrite <- (Hheld x Hx), <- (run_bytes_same (img_view d6) w w4 x SV), <- (run_bytes_same (img_view d4) w w4 x SV). by apply Hk6.
      * by exists e.
      * intros j r Hj Hr Hni. destruct (Hrc j r Hj Hr Hni) as (r2 & al & Hr2 & T & M & Esq & Hsame & Hdir). exists r2, al. split_and!; try done.
        intros Hd1. destruct (Hdir Hd1) as [Hf Hx]. split; [done|]. by apply (indexed_sec w4 (img_view d4) rs2).
    + exists ws. split; [done|]. eapply holds_ext; [|apply (holds_all ws (img_view d4) Hdis)]. intros x _. apply mread_ext. intros y _. by rewrite Hv6, Hv5.
Qed.
End close.
