(* ===== verification/NtfsMount.v ===== *)
(** * Mounting a closed NTFS volume
      ([src/tools/iso-patch-mac/engine/ntfs.c]: what a driver sees of the
      writer's work)

    A reader that starts from nothing but the image and the partition's offset:
    the boot sector, the record of the MFT, from there any record, its data, and
    the indexes of directories.  On a volume a session filled and closed it finds
    every file under its name with its data, and system files that agree
    ([ntfs_volume_mounts]). *)

From Stdlib Require Import String Sorted.
From S2P Require Import Prelude Bytes WStr Outcome BlockIO ImageWrites NtfsCodec NtfsIndex NtfsDir NtfsRecord NtfsLookup Bitmap NtfsVolume NtfsAlloc NtfsTree NtfsMeta NtfsLinks NtfsClose NtfsSession NtfsRuns NtfsSteps NtfsOpen NtfsIndexed NtfsNamed NtfsPlan NtfsSecure NtfsFill NtfsWrites NtfsFinish.

#[local] Opaque fname si.

(** ** The reader *)

Record volume := mkVol { v_off : Z; v_mft : Z; v_count : Z }.

(** The boot sector says where record 0 is, record 0 where the MFT is and how
    long. *)
Definition mount (m : mem) (off : Z) : option volume :=
  let b := mread m off 512 in
  if (r16 b 0x1FE =? 0xAA55) && bool_decide (sub b (Z.to_nat 3) 8 = lit "NTFS    ") && (r16 b 0x0B =? 512) && (bget b 0x0D =? 8) then
    f ← read_filerec (mread m (off + r64 b 0x30 * cluster_size) (Z.to_nat NTFS_MFT_RECSZ));
    a ← find_attr NTFS_AT_DATA [] (f_attrs f);
    match a_body a with
    | Nonres lcn _ _ size _ _ => Some (mkVol off (off + lcn * cluster_size) (size / NTFS_MFT_RECSZ))
    | _ => None
    end
  else None.

Definition vol_record (m : mem) (v : volume) (n : Z) : option filerec :=
  if (0 <=? n) && (n <? v_count v) then read_filerec (mread m (v_mft v + n * NTFS_MFT_RECSZ) (Z.to_nat NTFS_MFT_RECSZ)) else None.

(** The record of a reference: in use, and of the reference's sequence number. *)
Definition vol_open (m : mem) (v : volume) (ref : Z) : option filerec :=
  f ← vol_record m v (parent_recno ref);
  if Z.odd (f_flags f) && (f_recno f =? parent_recno ref) && (f_seq f =? Z.shiftr ref 48) then Some f else None.

(** The data of a stream. *)
Definition vol_data (m : mem) (v : volume) (name : list Z) (f : filerec) : option (list Z) :=
  a ← find_attr NTFS_AT_DATA name (f_attrs f);
  match a_body a with
  | Resident val _ => Some val
  | Nonres lcn count _ size _ _ => Some (take (Z.to_nat size) (mread m (v_off v + lcn * cluster_size) (Z.to_nat (count * cluster_size))))
  end.

(** A key in the index of a directory: [Some None] when it is not there. *)
Definition vol_find (h : nat) (upcase : Z → Z) (m : mem) (v : volume) (f : filerec) (key : list Z) : option (option Z) :=
  a ← find_attr NTFS_AT_INDEX_ROOT I30 (f_attrs f);
  match a_body a with
  | Resident root _ =>
      let base := match a_body <$> find_attr NTFS_AT_INDEX_ALLOCATION I30 (f_attrs f) with Some (Nonres lcn _ _ _ _ _) => v_off v + lcn * cluster_size | _ => 0 end in
      lookup_dir h upcase m base root key
  | _ => None
  end.

(** Name [name] of directory [p] leads to [ref], whatever its case; [h] bounds
    the depth of the descent, and any depth from some on will do. *)
Definition leads (upcase : Z → Z) (m : mem) (v : volume) (p : Z) (name : list Z) (ref : Z) : Prop :=
  ∃ f h0, vol_open m v p = Some f ∧ f_flags f = 3 ∧
    ∀ h name', (h0 <= h)%nat → Forall is_u16 name' → map upcase name' = map upcase name → vol_find h upcase m v f (key_of name') = Some (Some ref).

(** ** More fuel finds the same *)

Lemma search_more h read cmp k : ∀ h' internal ents e r, (h <= h')%nat →
  search h read cmp k internal ents e = Some r → search h' read cmp k internal ents e = Some r.
Proof.
  induction h as [|h IH]; intros h' internal ents e r Hh; destruct h' as [|h']; try lia; cbn [search]; destruct (probe cmp k ents e); try done; destruct (negb internal); try done.
  destruct (read z) as [ns|]; [|done]. cbn [mbind option_bind]. apply IH. lia.
Qed.

Lemma lookup_more h h' upcase m base root key r : (h <= h')%nat → lookup_dir h upcase m base root key = Some r → lookup_dir h' upcase m base root key = Some r.
Proof. unfold lookup_dir. intros Hh. destruct (open_root root) as [[[es i] e]|]; [|done]. cbn [mbind option_bind]. by apply search_more. Qed.

(** ** Names *)

Lemma folded_name upcase k name : key_name k = name → name ≠ [] → Z.of_nat (length name) <= 255 → folded upcase k = map upcase name.
Proof.
  intros E Hne Hl. assert (length (key_name k) = Z.to_nat (bget k 0x40)) as El by (unfold key_name; by rewrite length_map, length_seqZ).
  rewrite E in El. assert (0 < Z.of_nat (length name)) by (destruct name; [done|cbn [length]; lia]).
  unfold folded, key_chars. rewrite u8_small by lia. rewrite <- E. unfold key_name. rewrite map_map. reflexivity.
Qed.

Lemma key_of_name name : Forall is_u16 name → Z.of_nat (length name) <= 255 → key_name (key_of name) = name.
Proof.
  intros Hu Hl. unfold key_of. set (k := _ ++ _). assert (bget k 0x40 = Z.of_nat (length name)) as Eb by reflexivity.
  unfold key_name. rewrite Eb. apply (units_read k 0x42 name ltac:(lia) Hu). (unfold k, sub; rewrite app_assoc; rewrite drop_app_length' by reflexivity; apply take_ge; rewrite length_unit_bytes; lia).
Qed.

Lemma folded_key upcase name name' k : Forall is_u16 name' → map upcase name' = map upcase name → Z.of_nat (length name) <= 255 → name ≠ [] → key_name k = name →
  folded upcase (key_of name') = folded upcase k.
Proof.
  intros Hu He Hl Hne Hk. assert (length name' = length name) as El by (rewrite <- (length_map upcase name'), He; apply length_map).
  rewrite (folded_name upcase k name), (folded_name upcase (key_of name') name'); try done; [by apply key_of_name; rewrite ?El| |by rewrite El].
  intros ->. by destruct name.
Qed.

(** ** Fields of the boot sector *)

Lemma boot_fields w lcn : 0 <= lcn < 2 ^ 62 →
  let b := ntfs_boot_sector w lcn in
  r16 b 0x1FE = 0xAA55 ∧ sub b (Z.to_nat 3) 8 = lit "NTFS    " ∧ r16 b 0x0B = 512 ∧ bget b 0x0D = 8 ∧ r64 b 0x30 = lcn.
Proof.
  intros Hl. cbv zeta. unfold ntfs_boot_sector. cbv zeta. change 3%nat with (Z.to_nat 3). split_and!.
  - unfold w8. skip_fields. this_field. small_val.
  - unfold w8. set (sig := lit _). assert (length sig = 8%nat) as Es by reflexivity. clearbody sig. skip_fields. rewrite sub_splice_eq_z by (rewrite ?length_splice, ?length_replicate; cbn [length]; lia). done.
  - unfold w8. skip_fields. this_field. reflexivity.
  - apply bget_field; [lia| |lia]. unfold w8. skip_fields. this_field. reflexivity.
  - unfold w8. skip_fields. this_field. small_val.
Qed.

Lemma boot_geometry w lcn : 32 <= part_sectors w < 2 ^ 50 → 0 <= mftmirr_lcn w < 2 ^ 62 →
  r64 (ntfs_boot_sector w lcn) 0x28 = part_sectors w - 1 ∧ r64 (ntfs_boot_sector w lcn) 0x38 = mftmirr_lcn w.
Proof.
  intros Hs Hl. unfold ntfs_boot_sector. cbv zeta. rewrite (u64_small (part_sectors w - 1)) by lia. split.
  - unfold w8. skip_fields. this_field. small_val.
  - unfold w8. skip_fields. this_field. small_val.
Qed.

Lemma shiftr_ref i : 0 <= i < 2 ^ 32 → Z.shiftr (file_ref i) 48 = seq_of i.
Proof. intros Hi. rewrite file_ref_val by done. rewrite Z.shiftr_div_pow2 by lia. rewrite Z.div_add by lia. rewrite Z.div_small by lia. lia. Qed.

Lemma holds_in m ws a bs : holds m ws → (a, bs) ∈ ws → mread m a (length bs) = bs.
Proof. intros H Hin. unfold holds in H. rewrite list.Forall_forall in H. exact (H (a, bs) Hin). Qed.

(** The system files: the boot sector is repeated where it says the partition
    ends, [$MFTMirr] repeats the first four records, [$UpCase] holds the table,
    and [$Bitmap] marks the front of the volume, the table of records, the mirror
    and the clusters of every file made. *)
Definition marked (m : mem) (v : volume) (b : list Z) (ref : Z) : Prop :=
  ∀ f a lcn n alloc size init fl c, vol_open m v ref = Some f → find_attr NTFS_AT_DATA [] (f_attrs f) = Some a → a_body a = Nonres lcn n alloc size init fl →
    lcn <= c < lcn + n → bit b c = true.

Definition metafiles (upcase : Z → Z) (m : mem) (v : volume) (sectors : Z) (ops : list vop) (res : list Z) : Prop :=
  let boot := mread m (v_off v) 512 in
  r64 boot 0x28 = sectors - 1 ∧ mread m (v_off v + r64 boot 0x28 * 512) 512 = boot ∧
  mread m (v_off v + r64 boot 0x38 * cluster_size) 4096 = mread m (v_mft v) 4096 ∧
  (∃ f, vol_open m v (file_ref 10) = Some f ∧ vol_data m v [] f = Some (upcase_bytes upcase)) ∧
  ∃ f b, vol_open m v (file_ref 6) = Some f ∧ vol_data m v [] f = Some b ∧ Forall2 (λ op ref, match op with OpFile _ _ _ _ _ => marked m v b ref | _ => True end) ops res ∧
    ∀ c, 0 <= c < (sectors - 1) / 8 → c < 2 ∨ v_mft v <= v_off v + c * cluster_size < v_mft v + v_count v * NTFS_MFT_RECSZ ∨ c = r64 boot 0x38 → bit b c = true.

(** ** What the calls left *)

(** The result of a call, on the volume. *)
Definition on_volume (upcase : Z → Z) (m : mem) (v : volume) (op : vop) (res : Z) : Prop :=
  match op with
  | OpDir p name _ _ => (name ≠ [] → leads upcase m v p name res) ∧ ∃ f, vol_open m v res = Some f ∧ f_flags f = 3
  | OpFile p name _ _ data => (name ≠ [] → leads upcase m v p name res) ∧ ∃ f, vol_open m v res = Some f ∧ f_flags f = 1 ∧ vol_data m v [] f = Some data
  | OpLink target p name _ _ _ => res = target ∧ (name ≠ [] → leads upcase m v p name target)
  | OpSec _ | OpReparse _ _ _ => True
  end.

(** The arguments of a call, against the kinds of the records at the end. *)
Definition op_at (K : list bool) (op : vop) : Prop :=
  match op with
  | OpDir p name short _ | OpFile p name short _ _ | OpLink _ p name short _ _ => is_parent K p = true ∧ name_fits name short
  | _ => True
  end.

Lemma is_parent_more K more p : is_parent K p = true → is_parent (K ++ more) p = true.
Proof.
  unfold is_parent. rewrite !andb_true_iff. intros [[H1 H2] H3]. split_and!; try done. rewrite app_nth1; [done|]. apply Nat.nle_gt. intros Hle. by rewrite nth_overflow in H2.
Qed.

Lemma op_at_more K more op : op_at K op → op_at (K ++ more) op.
Proof. destruct op; cbn [op_at]; try done; intros [H1 H2]; (split; [by apply is_parent_more|done]). Qed.

Lemma vops_at ops : ∀ K, vops_ok K ops = true → Forall (op_at (fold_left next_kinds ops K)) ops.
Proof.
  induction ops as [|op ops IH]; intros K H; [constructor|]. cbn [vops_ok] in H. apply andb_prop in H as [H1 H2]. cbn [fold_left]. constructor; [|by apply IH].
  destruct (next_kinds_more K op) as (m1 & E1). destruct (kinds_more ops (next_kinds K op)) as (m2 & ->). rewrite E1, <- app_assoc. apply op_at_more.
  destruct op; cbn [vop_ok op_at] in *; try done; rewrite !andb_true_iff in H1; (split; [tauto|apply names_check_ok; tauto]).
Qed.

(** ** Reading a closed volume *)

Section mounted.
Context {D : Type} `{HI : Image D} (upcase : Z → Z) (w : ntfs_writer) (d : D) (rs : runs) (sum big : Z) (kinds : list bool).
Context (l : ntfs_layout) (w' : ntfs_writer) (m : mem) (rs' rs2 : runs) (C : closed_state upcase w d rs big l w' m rs' rs2).
Context (V : vol_ok w rs sum big) (K : kinds_ok w (reserved_kinds ++ kinds)) (Hn : nrec w < 2 ^ 32).
Context (Htot : total_clusters w = (part_sectors w - 1) / 8 ∧ total_clusters w <= 8 * Z.of_nat (length (clbmp w))) (Hps : 32 <= part_sectors w < 2 ^ 50) (Hres : mftmirr_lcn w = reserve_lcn w ∧ mft_zone_end w <= reserve_lcn w ∧ reserve_lcn w + 1 <= total_clusters w).
Context (Hlen : Z.of_nat (length (clbmp w)) mod cluster_size = 0).

Let base := part_off w + mft_lcn l * cluster_size.
Definition vol_of : volume := mkVol (part_off w) base (nrec w).

Lemma rec_count : 26 < nrec w.
Proof using All. pose proof (vo_count _ _ _ _ V). lia. Qed.

(** A record, read where it was written. *)
Lemma slot_read i r : 0 <= i < nrec w → get_rec w' i = Some r → sized r → mread m (base + i * NTFS_MFT_RECSZ) (Z.to_nat NTFS_MFT_RECSZ) = put_bytes i r.
Proof using All.
  intros Hi Hr Hs. destruct (cl_written _ _ _ _ _ _ _ _ _ _ C) as (ws & Hw & Hh). pose proof (fd_rest _ _ _ _ _ _ _ _ _ (cl_state _ _ _ _ _ _ _ _ _ _ C)) as ((E1 & _) & _ & En).
  pose proof (fd_lay _ _ _ _ _ _ _ _ _ (cl_state _ _ _ _ _ _ _ _ _ _ C)) as [Lc _ _ _ _ _ _].
  pose proof (wr_slots _ _ _ _ Hw i r ltac:(rewrite Lc; lia) Hr) as Hin. unfold holds in Hh. rewrite list.Forall_forall in Hh. apply Hh in Hin. unfold slot in Hin. cbn [fst snd] in Hin.
  rewrite length_put_bytes, Hs, E1 in Hin. exact Hin.
Qed.

Lemma record_read i r al : 0 <= i < nrec w → get_rec w' i = Some r → tracks i r al → meta_ok r → vol_record m vol_of i = Some (file_of i r al).
Proof using All.
  intros Hi Hr T M. unfold vol_record. cbn [vol_of v_count v_mft]. rewrite (proj2 (Z.leb_le 0 i)), (proj2 (Z.ltb_lt i _)) by lia. cbn [andb].
  rewrite (slot_read i r Hi Hr (tracks_sized i r al T)). by apply (read_put i i r al (proj1 T) M).
Qed.

Lemma record_open i r al : 0 <= i < nrec w → get_rec w' i = Some r → tracks i r al → meta_ok r → r_seq r = seq_of i → Z.odd (r_flags r) = true →
  vol_open m vol_of (file_ref i) = Some (file_of i r al).
Proof using All.
  intros Hi Hr T M Hs Hf. unfold vol_open. rewrite parent_recno_ref, (record_read i r al) by (done || lia). cbn [mbind option_bind file_of f_flags f_recno f_seq].
  rewrite Hf, Z.eqb_refl, shiftr_ref, Hs, Z.eqb_refl by lia. done.
Qed.

(** A metafile's stream. *)
Lemma stream_read i name lcn n size : i ∈ fill_list → i ≠ 8 → meta_stream w l i = Some (name, lcn, n, size) →
  ∃ f, vol_open m vol_of (file_ref i) = Some f ∧ find_attr NTFS_AT_DATA name (f_attrs f) = Some (run_attr name 2 lcn n size) ∧
    vol_data m vol_of name f = Some (take (Z.to_nat size) (mread m (part_off w + lcn * cluster_size) (Z.to_nat (n * cluster_size)))).
Proof using All.
  intros Hi H8 Hm. destruct (fd_filled _ _ _ _ _ _ _ _ _ (cl_state _ _ _ _ _ _ _ _ _ _ C) i Hi) as (r & Hr & _ & Hf). rewrite (proj2 (Z.eqb_neq _ _)) in Hf by done.
  destruct Hf as (al & T & M & Hs & Hst). rewrite Hm in Hst. destruct Hst as [Hst Hodd]. pose proof rec_count.
  assert (0 <= i < 27) by (unfold fill_list in Hi; repeat (apply elem_of_cons in Hi as [->|Hi]; [lia|]); by apply elem_of_nil in Hi).
  exists (file_of i r al). split; [apply record_open; try done; lia|]. split; [exact Hst|]. unfold vol_data. cbn [file_of f_attrs]. rewrite Hst. reflexivity.
Qed.

Lemma boot_read : mread m (part_off w) 512 = ntfs_boot_sector w' (mft_lcn l) ∧ mread m (part_off w + (part_sectors w - 1) * 512) 512 = ntfs_boot_sector w' (mft_lcn l).
Proof using All.
  destruct (cl_written _ _ _ _ _ _ _ _ _ _ C) as (ws & Hw & Hh). pose proof (fd_rest _ _ _ _ _ _ _ _ _ (cl_state _ _ _ _ _ _ _ _ _ _ C)) as ((E1 & E2 & _) & _).
  pose proof (length_boot w' (mft_lcn l)) as Lb. pose proof (wr_boot _ _ _ _ Hw) as B. rewrite E1, E2 in B. revert Lb B. generalize (ntfs_boot_sector w' (mft_lcn l)). intros boot Lb [B1 B2].
  by rewrite <- Lb, (holds_in _ _ _ _ Hh B1), (holds_in _ _ _ _ Hh B2).
Qed.

Lemma mft_front : mft_lcn l = mft_at (nrec w) ∧ 4 <= mft_lcn l < 2 ^ 31.
Proof using All.
  pose proof (fd_lay _ _ _ _ _ _ _ _ _ (cl_state _ _ _ _ _ _ _ _ _ _ C)) as [_ [Lm _] _ _ _ _ _]. pose proof rec_count.
  destruct (front_spec (nrec w) ltac:(lia)) as (F1 & _ & _ & _ & _ & _ & F7 & _). rewrite Lm. lia.
Qed.

Lemma mount_ok : mount m (part_off w) = Some vol_of.
Proof using All.
  destruct boot_read as [B _]. destruct mft_front as [_ Hm]. unfold mount. rewrite B.
  destruct (boot_fields w' (mft_lcn l) ltac:(lia)) as (F1 & F2 & F3 & F4 & F5). rewrite F1, F2, F3, F4, F5, bool_decide_true by done. cbn [Z.eqb Pos.eqb andb].
  assert (meta_stream w l 0 = Some ([], mft_lcn l, mft_clusters l, mft_count l * NTFS_MFT_RECSZ)) as Es by reflexivity.
  destruct (fd_filled _ _ _ _ _ _ _ _ _ (cl_state _ _ _ _ _ _ _ _ _ _ C) 0 (list_elem_of_here _ _)) as (r & Hr & _ & Hf). cbn [Z.eqb] in Hf.
  destruct Hf as (al & T & M & _ & Hst). rewrite Es in Hst. destruct Hst as [Hst _]. pose proof rec_count.
  pose proof (slot_read 0 r ltac:(lia) Hr (tracks_sized 0 r al T)) as S0. rewrite Z.mul_0_l, Z.add_0_r in S0. fold base. rewrite S0.
  destruct (read_put 0 0 r al (proj1 T) M) as [-> _]. cbn [mbind option_bind file_of f_attrs]. rewrite Hst. cbn [mbind option_bind run_attr a_body]. unfold vol_of.
  pose proof (fd_lay _ _ _ _ _ _ _ _ _ (cl_state _ _ _ _ _ _ _ _ _ _ C)) as [-> _ _ _ _ _ _]. by rewrite Z.div_mul by (by vm_compute).
Qed.

(** A directory, complete. *)
Lemma dir_read j r : 0 <= j → get_rec w j = Some r → r_is_dir r = true → ∃ f h0, vol_open m vol_of (file_ref j) = Some f ∧ f_flags f = 3 ∧
  (∀ h e key, (h0 <= h)%nat → e ∈ listed w j r → folded upcase key = folded upcase (x_key e) → vol_find h upcase m vol_of f key = Some (Some (x_ref e))) ∧
  (∀ h key, (h0 <= h)%nat → folded upcase key ∉ names upcase (listed w j r) → vol_find h upcase m vol_of f key = Some None).
Proof using All.
  intros Hj Hr Hdir. assert (j ∉ fill_list) as Hni.
  { intros Hi. destruct (session_reserved _ _ _ _ _ V K j) as (r' & Hr' & R).
    { unfold fill_list in Hi. repeat (apply elem_of_cons in Hi as [->|Hi]; [lia|]). by apply elem_of_nil in Hi. }
    rewrite Hr in Hr'. injection Hr' as <-. rewrite (rv_dir _ _ R) in Hdir. unfold fill_list in Hi. repeat (apply elem_of_cons in Hi as [->|Hi]; [by vm_compute in Hdir|]). by apply elem_of_nil in Hi. }
  destruct (fd_recs _ _ _ _ _ _ _ _ _ (cl_state _ _ _ _ _ _ _ _ _ _ C) j r Hj Hr Hni) as (r2 & al & Hr2 & T & M & Hs & _ & Hd). destruct (Hd Hdir) as [Hf Hx].
  pose proof (lookup_lt_Some _ _ _ Hr) as Hlt. assert (0 <= j < nrec w) as Hjn by (unfold nrec; lia).
  destruct (indexed_lookup _ _ _ _ _ _ Hx) as (root & h0 & srt & Hp & Hso & Hroot & Hlook). exists (file_of j r2 al), h0.
  split; [apply record_open; try done; by rewrite Hf|]. split; [exact Hf|].
  assert (∀ h key, (h0 <= h)%nat → vol_find h upcase m vol_of (file_of j r2 al) key = Some (lookup_name (folded upcase) key (map payload (map leaf_in srt)))) as Hfind.
  { intros h key Hh. unfold vol_find. cbn [file_of f_attrs]. destruct (find_attr NTFS_AT_INDEX_ROOT I30 al) as [a|]; [|done]. cbn [fmap option_fmap option_map] in Hroot. injection Hroot as Ha.
    cbn [mbind option_bind]. rewrite Ha. apply (lookup_more h0 h); [done|]. apply Hlook. intros lcn n x1 x2 x3 x4 -> Hin. cbn [vol_of v_off].
    destruct (cl_alloc _ _ _ _ _ _ _ _ _ _ C) as (s & A). pose proof (fd_rest _ _ _ _ _ _ _ _ _ (cl_state _ _ _ _ _ _ _ _ _ _ C)) as ((E1 & _) & _).
    destruct (fd_runs _ _ _ _ _ _ _ _ _ (cl_state _ _ _ _ _ _ _ _ _ _ C)) as [(more & Ers) _].
    destruct (run_base _ w' rs' s big (lcn, n) A (cl_image _ _ _ _ _ _ _ _ _ _ C)) as (Eb & _); [rewrite Ers; apply elem_of_app; right; apply elem_of_app; by right|].
    cbn [fst] in Eb. by rewrite Eb, E1. }
  split.
  - intros h e key Hh He Hk. rewrite Hfind by done. f_equal. by apply (lookup_listed upcase srt (listed w j r) Hp Hso).
  - intros h key Hh Hk. rewrite Hfind by done. f_equal. by apply (lookup_listed upcase srt (listed w j r) Hp Hso).
Qed.

(** What the session promised of a name. *)
Lemma entry_leads p ref name : entry_holds w p ref name → is_parent (map r_is_dir (rec w)) p = true → Z.of_nat (length name) <= 255 → name ≠ [] →
  leads upcase m vol_of p name ref.
Proof using All.
  intros (r & e & Hr & He & Hx & Hk) Hp Hl Hne. destruct (is_parent_ok w _ p eq_refl Hn Hp) as (r' & Hr' & Hdir & _ & Ep & _).
  unfold get_rec in Hr. rewrite Hr in Hr'. injection Hr' as <-. assert (0 <= parent_recno p) as H0 by apply u32_range.
  destruct (dir_read (parent_recno p) r H0 Hr Hdir) as (f & h0 & Ho & Hf & Hin & _). exists f, h0. rewrite Ep. split; [exact Ho|]. split; [exact Hf|].
  intros h name' Hh Hu' Hc. rewrite <- Hx. apply (Hin h e _ Hh); [unfold listed; apply elem_of_app; by left|]. by apply (folded_key upcase name).
Qed.

(** The number of a file the session made. *)
Lemma entry_number p ref name : entry_holds w p ref name → ref = file_ref (parent_recno ref) ∧ 27 <= parent_recno ref < nrec w.
Proof using All.
  intros (r & e & Hr & He & Hx & _). destruct (session_rec w rs sum big V (parent_recno p) r ltac:(apply u32_range) Hr) as [(_ & _ & _ & Hf & _) _].
  rewrite list.Forall_forall in Hf. destruct (Hf e He) as ((k & Hk & E) & _). rewrite Hx in E. rewrite E, parent_recno_ref by lia. done.
Qed.

Lemma late_record i : 27 <= i → (i ∉ fill_list) ∧ (i ∉ named_recs).
Proof using. clear. intros Hi. unfold fill_list, named_recs, NTFS_REC_ROOT, NTFS_REC_EXTEND. rewrite !elem_of_cons, elem_of_nil. lia. Qed.

Lemma datas_find al b : datas al = [b] → ∃ a, find_attr NTFS_AT_DATA [] al = Some a ∧ a_body a = b.
Proof using.
  clear. unfold datas, find_attr. intros H. replace (filter (λ a, a_type a = NTFS_AT_DATA ∧ a_name a = []) al) with (filter is_data al) by (apply list_filter_iff; intros a; reflexivity).
  destruct (filter is_data al) as [|a []]; try done. injection H as <-. by exists a.
Qed.

(** A file, read back. *)
Lemma file_read ref data : file_holds w (img_view d) rs ref data → ref = file_ref (parent_recno ref) → 27 <= parent_recno ref < nrec w →
  ∃ f, vol_open m vol_of ref = Some f ∧ f_flags f = 1 ∧ vol_data m vol_of [] f = Some data.
Proof using All.
  intros (r & al & Hr & Hdir & T & Hst) Eref Hk. set (k := parent_recno ref) in *. destruct (late_record k ltac:(lia)) as [N1 N2].
  destruct (fd_recs _ _ _ _ _ _ _ _ _ (cl_state _ _ _ _ _ _ _ _ _ _ C) k r ltac:(lia) Hr N1) as (r2 & al2 & Hr2 & _ & M & Hs & Hsame & _).
  rewrite (Hsame N2 Hdir) in Hr2, M, Hs. destruct (session_rec w rs sum big V k r ltac:(lia) Hr) as [(_ & _ & Hfl & _) _]. rewrite Hdir in Hfl.
  exists (file_of k r al). rewrite Eref. split; [apply record_open; [lia|exact Hr2|exact T|exact M|exact Hs|by rewrite Hfl]|]. split; [exact Hfl|]. unfold vol_data. cbn [file_of f_attrs].
  unfold stored in Hst. destruct (datas al) as [|b []] eqn:Ed; [done| |by destruct b].
  destruct (datas_find al b Ed) as (a & -> & Ha). cbn [mbind option_bind]. rewrite Ha. destruct b as [val ix|lcn n alloc size init fl]; [by rewrite Hst|].
  destruct Hst as (Hin & -> & _ & _ & Hd). rewrite Nat2Z.id. f_equal. rewrite <- Hd at 2. f_equal.
  pose proof (fd_held _ _ _ _ _ _ _ _ _ (cl_state _ _ _ _ _ _ _ _ _ _ C)) as Hh. rewrite list.Forall_forall in Hh. rewrite <- (Hh (lcn, n) Hin).
  destruct (run_base _ w rs sum big (lcn, n) (vo_alloc _ _ _ _ V) (vo_off _ _ _ _ V) Hin) as (Eb & _). unfold run_bytes. rewrite Eb. reflexivity.
Qed.

(** What a call promised is on the volume. *)
Lemma op_on_volume op r : op_at (map r_is_dir (rec w)) op → promise w (img_view d) rs op r → on_volume upcase m vol_of op r.
Proof using All.
  intros Hat Hp. destruct op as [p name short t|p name short t data|target p name short t size|sd|ref tag data]; cbn [op_at promise on_volume] in *; try done.
  - destruct Hat as [Hpar (_ & Hl & _)]. destruct Hp as [He (rd & Hr & Hdir)]. split; [intros Hne; by apply entry_leads|].
    destruct (entry_number p r name He) as [Er Hk]. destruct (dir_read (parent_recno r) rd ltac:(clear - Hk; lia) Hr Hdir) as (f & _ & Ho & Hf & _).
    rewrite <- Er in Ho. by exists f.
  - destruct Hat as [Hpar (_ & Hl & _)]. destruct Hp as [He Hf]. split; [intros Hne; by apply entry_leads|]. destruct (entry_number p r name He) as [Er Hk]. by apply file_read.
  - destruct Hat as [Hpar (_ & Hl & _)]. destruct Hp as [-> He]. split; [done|]. intros Hne. by apply entry_leads.
Qed.

(** ** The metafiles *)

(** [$Bitmap] marks exactly the clusters in use. *)
Lemma bitmap_read : ∃ f b, vol_open m vol_of (file_ref 6) = Some f ∧ vol_data m vol_of [] f = Some b ∧
  ∀ c, 0 <= c < total_clusters w → bit b c = true ↔ front (nrec w) c ∨ c = reserve_lcn w ∨ Exists (run_has c) rs'.
Proof using All.
  pose proof (cl_state _ _ _ _ _ _ _ _ _ _ C) as F. pose proof (fd_rest _ _ _ _ _ _ _ _ _ F) as ((E1 & _ & E3 & _ & E5 & _ & E7) & _). destruct (cl_alloc _ _ _ _ _ _ _ _ _ _ C) as (s & A).
  assert (∀ (l0 : list Z) n c, 0 <= c < 8 * n → bit (take (Z.to_nat n) l0) c = bit l0 c) as Hbit.
  { clear. intros l0 n c Hc. unfold bit, bget. f_equal. assert (0 <= c / 8 < n) by dlia. rewrite <- (take_drop (Z.to_nat n) l0) at 2.
    destruct (decide (Z.to_nat (c / 8) < length (take (Z.to_nat n) l0))%nat) as [H1|H1]; [by rewrite app_nth1|].
    rewrite length_take in H1. rewrite drop_ge by lia. by rewrite app_nil_r. }
  assert (u64 (total_clusters w + 7) / 8 * 8 >= total_clusters w) as Ht by (clear - Htot Hps; destruct Htot as [-> _]; rewrite u64_small by dlia; dlia).
  destruct (stream_read 6 [] (bitmap_lcn l) (bitmap_clusters l) (u64 (total_clusters w + 7) / 8)) as (f & Ho & _ & Hd); [do 5 apply list_elem_of_further; apply list_elem_of_here|done|done|].
  exists f. eexists. split; [exact Ho|]. split; [exact Hd|]. destruct (cl_written _ _ _ _ _ _ _ _ _ _ C) as (ws & Hw & Hh). destruct (wr_bitmap _ _ _ _ Hw) as (b & Eb & Hin).
  assert (0 <= total_clusters w' <= 8 * Z.of_nat (length (clbmp w'))) as Hr' by (rewrite E3, E7; clear - Htot Hps; destruct Htot as [-> ?]; dlia).
  destruct (final_bitmap_ok w' Hr') as (b' & Eb' & Lb & B). rewrite Eb in Eb'. injection Eb' as <-. apply (holds_in _ _ _ _ Hh) in Hin. rewrite E1, Lb, E7 in Hin.
  pose proof (fd_lay _ _ _ _ _ _ _ _ _ F) as [_ _ _ _ _ _ ->]. intros c Hc.
  assert (bitmap_len w * cluster_size = Z.of_nat (length (clbmp w))) as -> by (clear - Hlen; unfold bitmap_len, cluster_size in *; dlia).
  rewrite Nat2Z.id, Hin, Hbit by (clear - Ht Hc; lia). rewrite B by (clear - Hc; lia). rewrite (ao_bits _ _ _ _ A) by (clear - Hc; lia). rewrite E3, E5. clear - Hc. intuition lia.
Qed.

(** [$UpCase] holds the table, [$MFTMirr] the first four records, and the last
    sector of the partition the boot sector. *)
Lemma upcase_read : ∃ f, vol_open m vol_of (file_ref 10) = Some f ∧ vol_data m vol_of [] f = Some (upcase_bytes upcase).
Proof using All.
  pose proof (cl_state _ _ _ _ _ _ _ _ _ _ C) as F. pose proof (fd_rest _ _ _ _ _ _ _ _ _ F) as ((E1 & _) & _).
  destruct (stream_read 10 [] (upcase_lcn l) 32 0x20000) as (f & Ho & _ & Hd); [do 9 apply list_elem_of_further; apply list_elem_of_here|done|done|].
  exists f. split; [exact Ho|]. rewrite Hd. destruct (cl_written _ _ _ _ _ _ _ _ _ _ C) as (ws & Hw & Hh). pose proof (wr_upcase _ _ _ _ Hw) as Hin. pose proof (length_upcase_bytes upcase) as Lu.
  revert Hin Lu. generalize (upcase_bytes upcase). intros up Hin Lu. apply (holds_in _ _ _ _ Hh) in Hin. rewrite E1 in Hin. change (32 * cluster_size) with 0x20000. rewrite <- Lu, Nat2Z.id, Hin.
  f_equal. apply take_ge. lia.
Qed.

(** Equal pieces make equal stretches. *)
Lemma mread_pieces a b k (ls : list (list Z)) : (∀ i r, ls !! i = Some r → length r = k ∧ mread m (b + Z.of_nat (i * k)) k = r) →
  mread m a (length ls * k) = concat ls → mread m a (length ls * k) = mread m b (length ls * k).
Proof using.
  clear. intros Hp ->. clear a. revert b Hp. induction ls as [|r ls IH]; intros b Hp; [done|]. cbn [length concat]. rewrite Nat.mul_succ_l, Nat.add_comm, mread_app.
  destruct (Hp 0%nat r eq_refl) as [Hl Hr]. rewrite Nat.mul_0_l, Z.add_0_r in Hr. rewrite Hr. f_equal. apply IH. intros i r' Hi. destruct (Hp (S i) r' Hi) as [Hl' Hr'].
  split; [done|]. etransitivity; [|exact Hr']. f_equal. lia.
Qed.

Lemma front_record i : 0 <= i < 4 → ∃ r, get_rec w' i = Some r ∧ sized r.
Proof using All.
  intros Hi. destruct (fd_filled _ _ _ _ _ _ _ _ _ (cl_state _ _ _ _ _ _ _ _ _ _ C) i) as (r & Hr & _ & Hf); [unfold fill_list; rewrite !elem_of_cons; clear - Hi; lia|].
  rewrite (proj2 (Z.eqb_neq _ _)) in Hf by (clear - Hi; lia). destruct Hf as (al & T & _). exists r. split; [done|]. by apply (tracks_sized i r al).
Qed.

Lemma mirror_read : mread m (part_off w + reserve_lcn w * cluster_size) 4096 = mread m base 4096.
Proof using All.
  pose proof (cl_state _ _ _ _ _ _ _ _ _ _ C) as F. pose proof (fd_rest _ _ _ _ _ _ _ _ _ F) as (S & _ & En). pose proof S as (E1 & _ & _ & _ & E5 & _ & _).
  destruct (cl_written _ _ _ _ _ _ _ _ _ _ C) as (ws & Hw & Hh). destruct (wr_mirror _ _ _ _ Hw) as (mir & Em & Hin). pose proof rec_count as Hc.
  assert (∀ i bs, map snd mir !! i = Some bs → length bs = 1024%nat ∧ mread m (base + Z.of_nat (i * 1024)) 1024 = bs) as Hp.
  { intros i bs Hi. change (map snd mir) with (snd <$> mir) in Hi. rewrite list_lookup_fmap in Hi. apply fmap_Some in Hi as (y & Hy & ->). apply mapM_Some in Em.
    destruct (Forall2_lookup_r _ _ _ _ _ Em Hy) as (x & Hx & Ey). apply lookup_seqZ in Hx as [-> Hi]. destruct (front_record (0 + Z.of_nat i) ltac:(clear - Hi; lia)) as (r & Hr & Hs).
    unfold put_record in Ey. rewrite Hr in Ey. cbn [mbind option_bind] in Ey. injection Ey as <-. cbn [snd]. split; [by rewrite length_put_bytes, Hs|].
    pose proof (slot_read (0 + Z.of_nat i) r ltac:(clear - Hi Hc; lia) Hr Hs) as Sl. rewrite <- Sl. f_equal. unfold NTFS_MFT_RECSZ. clear. lia. }
  apply (holds_in _ _ _ _ Hh) in Hin. rewrite E1, E5 in Hin. assert (length (map snd mir) = 4%nat) as L4.
  { rewrite length_map. apply mapM_Some, Forall2_length in Em. by rewrite <- Em. }
  assert (length (concat (map snd mir)) = (length (map snd mir) * 1024)%nat) as Lc.
  { clear - Hp. revert Hp. generalize base (map snd mir). intros b ls. revert b. induction ls as [|x ls IH]; intros b Hp; [done|]. cbn [concat length]. rewrite length_app, (IH (b + 1024)).
    - destruct (Hp 0%nat x eq_refl) as [-> _]. lia.
    - intros i bs Hi. destruct (Hp (S i) bs Hi) as [? H]. split; [done|]. etransitivity; [|exact H]. f_equal. lia. }
  rewrite Lc in Hin. pose proof (mread_pieces _ base 1024 (map snd mir) Hp Hin) as E. rewrite L4 in E. exact E.
Qed.
(** The run of a file is one of the allocator's. *)
Lemma file_run ref data f a lcn n alloc size init fl : file_holds w (img_view d) rs ref data → ref = file_ref (parent_recno ref) → 27 <= parent_recno ref < nrec w →
  vol_open m vol_of ref = Some f → find_attr NTFS_AT_DATA [] (f_attrs f) = Some a → a_body a = Nonres lcn n alloc size init fl → (lcn, n) ∈ rs.
Proof using All.
  intros (r & al & Hr & Hdir & T & Hst) Eref Hk Ho Ha Hb. set (k := parent_recno ref) in *. destruct (late_record k ltac:(clear - Hk; lia)) as [N1 N2].
  destruct (fd_recs _ _ _ _ _ _ _ _ _ (cl_state _ _ _ _ _ _ _ _ _ _ C) k r ltac:(clear - Hk; lia) Hr N1) as (r2 & al2 & Hr2 & _ & M & Hs & Hsame & _).
  rewrite (Hsame N2 Hdir) in Hr2, M, Hs. destruct (session_rec w rs sum big V k r ltac:(clear - Hk; lia) Hr) as [(_ & _ & Hfl & _) _]. rewrite Hdir in Hfl.
  rewrite Eref, (record_open k r al) in Ho; [|clear - Hk; lia|exact Hr2|exact T|exact M|exact Hs|by rewrite Hfl]. injection Ho as <-. cbn [file_of f_attrs] in Ha.
  unfold stored in Hst. destruct (datas al) as [|b []] eqn:Ed; [done| |by destruct b]. destruct (datas_find al b Ed) as (a' & Ea & Eb). rewrite Ha in Ea. injection Ea as <-. rewrite Eb in Hb.
  rewrite Hb in Hst. by destruct Hst.
Qed.

Lemma metafiles_ok ops res : next_lcn w <= total_clusters w → Forall (op_at (map r_is_dir (rec w))) ops → Forall2 (promise w (img_view d) rs) ops res →
  metafiles upcase m vol_of (part_sectors w) ops res.
Proof using All.
  intros Hnext Hat Hp. destruct boot_read as [B1 B2]. pose proof (fd_rest _ _ _ _ _ _ _ _ _ (cl_state _ _ _ _ _ _ _ _ _ _ C)) as ((_ & E2 & _) & (P1 & _) & _).
  destruct Hres as (R1 & R2 & R3). destruct Htot as [T1 T2]. pose proof (fd_runs _ _ _ _ _ _ _ _ _ (cl_state _ _ _ _ _ _ _ _ _ _ C)) as [(more & Ers) (more2 & Ers2)].
  assert (0 <= mftmirr_lcn w' < 2 ^ 62) as Hm. { rewrite P1, R1. destruct (ao_res _ _ _ _ (vo_alloc _ _ _ _ V)) as [H _]. clear - H. lia. }
  destruct (boot_geometry w' (mft_lcn l) ltac:(by rewrite E2) Hm) as [G1 G2]. rewrite P1, R1 in G2. rewrite E2 in G1.
  unfold metafiles. cbv zeta. cbn [vol_of v_off v_mft v_count]. rewrite B1, G1, G2. split_and!; [done|by rewrite B2|exact mirror_read|exact upcase_read|].
  destruct bitmap_read as (f & b & Ho & Hd & Hb). exists f, b. split; [exact Ho|]. split; [exact Hd|]. split.
  - apply Forall2_same_length_lookup. split; [by apply (Forall2_length _ _ _ Hp)|]. intros i op r Hi Hr. destruct op as [| p name short t data | | |]; try exact I.
    destruct (Forall2_lookup_lr _ _ _ _ _ _ Hp Hi Hr) as [He Hf]. destruct (entry_number p r name He) as [Er Hk]. intros f0 a lcn n alloc size init fl c Ho' Ha Hbd Hcc.
    pose proof (file_run r data f0 a lcn n alloc size init fl Hf Er Hk Ho' Ha Hbd) as Hin. pose proof (ao_runs _ _ _ _ (vo_alloc _ _ _ _ V)) as Hr0. rewrite list.Forall_forall in Hr0.
    destruct (Hr0 _ Hin) as (A1 & _ & A3 & _). cbn [fst snd] in A1, A3. pose proof (ao_zone _ _ _ _ (vo_alloc _ _ _ _ V)) as Hz.
    apply Hb; [clear - Hz A1 A3 Hnext Hcc; lia|]. right. right. apply Exists_exists. exists (lcn, n). split; [|exact Hcc]. rewrite Ers, Ers2. apply elem_of_app. right. apply elem_of_app. right. apply elem_of_app. by right.
  - intros c Hc Hor. rewrite <- T1 in Hc. apply Hb; [exact Hc|]. destruct mft_front as [F1 _]. pose proof rec_count as Hrc. destruct (front_spec (nrec w) ltac:(clear - Hrc Hn; lia)) as (_ & _ & _ & _ & _ & _ & _ & F8).
    destruct Hor as [H|[H|H]]; [left; left; exact H| |by right; left]. left. right. right. unfold base in H. rewrite F1 in H. clear - H F8 Hrc. revert H F8. unfold cluster_size, NTFS_MFT_RECSZ. lia.
Qed.
End mounted.

(** ** A session and its close *)

Lemma biggest_total ops : ∀ K, vops_ok K ops = true → biggest ops <= total_need ops.
Proof.
  unfold biggest, total_need. induction ops as [|op ops IH]; intros K H; [done|]. cbn [vops_ok] in H. apply andb_prop in H as [H1 H2]. cbn [foldr].
  pose proof (need_nonneg _ _ H1). pose proof (total_need_nonneg _ _ H2) as Ht. specialize (IH _ H2). unfold total_need in Ht. pose proof (biggest_nonneg ops) as Hb. unfold biggest in Hb. lia.
Qed.

Lemma close_need_nonneg w : 0 <= close_need w.
Proof.
  unfold close_need. pose proof (dirs_need_nonneg (rec w)).
  unfold plan_need, bitmap_len, logfile_size, sds_size. cbv zeta.
  assert (∀ x, 0 <= align_up x cluster_size / cluster_size) as Ha by (intros x; apply Z.div_pos; [by apply align_up_nonneg|done]).
  match goal with |- context [32 + 1 + align_up ?x cluster_size / cluster_size + align_up ?y cluster_size / cluster_size] => pose proof (Ha x); pose proof (Ha y) end.
  assert (0 <= Z.of_nat (length (clbmp w)) / cluster_size) by (apply Z.div_pos; [lia|done]). lia.
Qed.

Lemma close_need_min w : 32 <= part_sectors w < 2 ^ 50 → 289 <= close_need w.
Proof. intros Hps. unfold close_need. pose proof (plan_need_min w Hps). pose proof (dirs_need_nonneg (rec w)). lia. Qed.

Section volume.
Context {D : Type} `{HI : Image D} (upcase : Z → Z) (qsort : list idx_entry_t → list idx_entry_t) (qsort_sdh : list bentry_t → list bentry_t).
Context (Hq : ∀ l, qsort l ≡ₚ l ∧ Sorted (λ a b, idx_cmp upcase a b <= 0) (qsort l)) (Hq2 : ∀ l, qsort_sdh l ≡ₚ l).
Context (d : D) (part_lba sectors : Z) (lbl : list Z) (ops : list vop) (k : Z).
Context (w0 : ntfs_writer) (res : list Z) (w : ntfs_writer) (d1 : D).
Context (Hlba : 0 <= part_lba < 2 ^ 50) (Hsec : 32 <= sectors < 2 ^ 50) (Hops : vops_ok reserved_kinds ops = true) (Hlen : Z.of_nat (length ops) < 2 ^ 31).
Context (Hopen : ntfs_writer_open part_lba sectors lbl = Some w0) (Hrun : run_vops upcase w0 d ops = Some (res, w, d1)) (Hc : closable upcase w = true).
Context (Hd : img_ok d) (Hk : 0 <= k) (Hlive : img_live (total_need ops * cluster_size + close_bytes w + k) d).
Context (Hcap : 64 + (sectors - 1) / 8 / 8 + 2 * (total_need ops + close_need w) + 1 <= (sectors - 1) / 8).

Lemma volume_closed : ∃ w' lay d2 rs sum big rs' rs2 kinds, ntfs_writer_close upcase qsort qsort_sdh w d1 = Ok (w', lay, d2) ∧
  closed_state upcase w d1 rs big lay w' (img_view d2) rs' rs2 ∧ vol_ok w rs sum big ∧ kinds_ok w (reserved_kinds ++ kinds) ∧
  reserved_kinds ++ kinds = fold_left next_kinds ops reserved_kinds ∧ Forall2 (promise w (img_view d1) rs) ops res ∧ nrec w < 2 ^ 32 ∧ img_ok d2 ∧ img_live k d2 ∧
  part_off w = part_lba * 512 ∧ part_sectors w = sectors ∧ total_clusters w = (sectors - 1) / 8 ∧ total_clusters w <= 8 * Z.of_nat (length (clbmp w)) ∧
  (mftmirr_lcn w = reserve_lcn w ∧ mft_zone_end w <= reserve_lcn w ∧ reserve_lcn w + 1 <= total_clusters w) ∧ Z.of_nat (length (clbmp w)) mod cluster_size = 0 ∧
  next_lcn w <= total_clusters w.
Proof using All.
  set (big := total_need ops + close_need w). pose proof (total_need_nonneg _ _ Hops) as Ht0. pose proof (biggest_total _ _ Hops) as Hbt.
  pose proof (close_need_nonneg w) as Hc0. pose proof (close_need_min w) as Hmin.
  destruct (ntfs_writer_open_ok part_lba sectors lbl big Hlba Hsec ltac:(unfold big; lia)) as (w0' & E0 & V0 & K0 & N0 & P0 & T0 & Z0 & R0 & _ & C0 & M0 & S0 & I0 & L0).
  rewrite Hopen in E0. injection E0 as <-.
  destruct (run_vops_ok upcase ops w0 d [] 0 big (close_bytes w + k) reserved_kinds V0 K0) as (res' & w2 & d2 & rs & E & V & X & Hd1 & L & P & Hn & Kk);
    [rewrite N0; lia|done|done|unfold close_bytes, bmp_len, mft_len, bmp_bytes_of, NTFS_MFT_RECSZ, nrec, cluster_size; destruct (_ <=? _); dlia|by rewrite Z.add_assoc|unfold big; lia|rewrite Z0; unfold big; lia|].
  rewrite Hrun in E. injection E as -> <- <-. destruct (ex_vol _ _ _ _ _ _ X) as (X1 & X2 & X3 & X4 & X5 & X6 & X7). destruct (ex_plan _ _ _ _ _ _ X) as (Y1 & _ & Y3 & _).
  rewrite P0 in X1. rewrite S0 in X2. rewrite T0 in X3. rewrite Z0 in X4. rewrite R0 in X5. rewrite I0, R0 in Y1. rewrite <- X7 in C0, M0.
  rewrite X2 in Hmin. specialize (Hmin Hsec). destruct (kinds_more ops reserved_kinds) as (kinds & Ek). rewrite Ek in Kk.
  assert ((sectors - 1) / 8 < 2 ^ 47) as Ht47 by (clear - Hsec; dlia). assert (nrec w < 2 ^ 32) as Hnr by (rewrite N0 in Hn; lia).
  assert (64 + (sectors - 1) / 8 / 8 <= sectors / 16 ∧ sectors / 16 + 1 <= (sectors - 1) / 8) as Hres by (clear - Hcap Hmin Ht0 Hsec; dlia).
  destruct (close_ok upcase qsort qsort_sdh Hq Hq2 w d1 rs (0 + total_need ops) big k kinds V Kk Hnr Hc Hd1 Hk L) as (w' & lay & d3 & rs' & rs2 & Ec & Cs & Hd3 & L3);
    [unfold big; lia|rewrite X3, X4; unfold big; lia|by rewrite X2|rewrite X3, X2; split; [done|exact C0]|exact M0|rewrite Y1, X4, X5, X3; lia|by rewrite Y3|rewrite X1, X3; unfold OFF_MAX, cluster_size; lia|].
  pose proof (ao_next _ _ _ _ (vo_alloc _ _ _ _ V)) as [Hnx _].
  exists w', lay, d3, rs, (0 + total_need ops), big, rs', rs2, kinds. rewrite X3, X4, X5, Y1. split_and!; try done; lia.
Qed.

End volume.

(** The session of [NtfsOpen]'s sample, on a volume of five thousand clusters. *)
Definition sample_close (w : ntfs_writer) : bool :=
  closable ascii_upcase w && (64 + (40001 - 1) / 8 / 8 + 2 * (total_need sample_vops + close_need w) + 1 <=? (40001 - 1) / 8).

