(* ===== verification/Squashfs.v ===== *)
(** * Reading a squashfs image ([src/tools/iso-patch/engine/squashfs.c])

    The reader that feeds the Linux disk builder: the superblock, metadata
    blocks, the inode and directory tables kept decompressed in memory, the walk
    of the tree, the contents of files and their capability attribute.  The file
    is the list of its bytes.  XZ Embedded, third-party code, is the class
    [XzDec]; memory allocation succeeds, and logging is left out except for the
    one line whose arguments can be undefined. *)

From S2P Require Import Prelude Bytes Outcome.

(** ** Data *)

Definition SQFS_MAGIC : Z := 0x73717368.
Definition SQFS_METADATA_SIZE : Z := 8192.
Definition SQFS_COMP_GZIP : Z := 1.
Definition SQFS_COMP_XZ : Z := 4.

(** A field of a xz_packed structure. *)
Definition f16 (p : list Z) (off : nat) : Z := le_val (sub p off 2).
Definition f32 (p : list Z) (off : nat) : Z := le_val (sub p off 4).
Definition f64 (p : list Z) (off : nat) : Z := le_val (sub p off 8).

Record sqfs_superblock_t := mkSb {
  magic : Z;
  inode_count : Z;
  mod_time : Z;
  block_size : Z;
  fragment_entry_count : Z;
  compression_id : Z;
  block_log : Z;
  sb_flags : Z;
  sb_id_count : Z;
  version_major : Z;
  version_minor : Z;
  root_inode_ref : Z;
  bytes_used : Z;
  id_table_start : Z;
  xattr_id_table_start : Z;
  inode_table_start : Z;
  directory_table_start : Z;
  fragment_table_start : Z;
  lookup_table_start : Z;
}.

Definition sb_of (p : list Z) : sqfs_superblock_t :=
  mkSb (f32 p 0) (f32 p 4) (f32 p 8) (f32 p 12) (f32 p 16) (f16 p 20) (f16 p 22) (f16 p 24) (f16 p 26) (f16 p 28) (f16 p 30)
    (f64 p 32) (f64 p 40) (f64 p 48) (f64 p 56) (f64 p 64) (f64 p 72) (f64 p 80) (f64 p 88).

(** A table of metadata blocks, decompressed; [c_off] and [d_off] say where each
    block was (from the start of the table) and where it is in [s_buf]. *)
Record sqfs_stream := mkStream {
  s_buf : list Z;
  s_cap : Z;
  c_off : list Z;
  d_off : list Z;
  cap_blocks : Z;
  s_base : Z;
}.
Definition s_len (s : sqfs_stream) : Z := Z.of_nat (length (s_buf s)).
Definition n_blocks (s : sqfs_stream) : Z := Z.of_nat (length (c_off s)).

(** The tables of identifiers and fragments hold what was written to them. *)
Record sqfs_ctx := mkCtx {
  s_file : list Z;
  sb : sqfs_superblock_t;
  inode_stream : sqfs_stream;
  dir_stream : sqfs_stream;
  id_table : list Z;
  id_count : Z;
  fragment_index : list Z;
  fragment_count : Z;
}.

(** ** The decompressor *)

Inductive xz_ret :=
| XZ_OK | XZ_STREAM_END | XZ_UNSUPPORTED_CHECK | XZ_MEM_ERROR | XZ_MEMLIMIT_ERROR
| XZ_FORMAT_ERROR | XZ_OPTIONS_ERROR | XZ_DATA_ERROR | XZ_BUF_ERROR.

(** One call of [xz_dec_run], on what is left of the input and of the room for
    output: its result, the decoder, the bytes consumed and those produced. *)
Class XzDec := {
  xz_dec : Type;
  xz_dec_init : Z → xz_dec;
  xz_dec_reset : xz_dec → xz_dec;
  xz_dec_run : xz_dec → list Z → Z → xz_ret * xz_dec * Z * list Z;
}.

(** What [xz.h] says of the positions. *)
Class XzLaws (X : XzDec) : Prop := xz_bounds : ∀ d inp room r d' n out,
  bytes inp → 0 <= room → xz_dec_run d inp room = (r, d', n, out) →
  0 <= n <= Z.of_nat (length inp) ∧ Z.of_nat (length out) <= room ∧ bytes out.

Section reader.
Context `{X : XzDec}.

(** [for (;;)] around [xz_dec_run]: until the end of the stream, an error or a
    call that moves nothing. *)
Fixpoint xz_loop (fuel : nat) (d : xz_dec) (inp : list Z) (room : Z) : outcome (list Z) * xz_dec :=
  match fuel with
  | O => (Spin, d)
  | S fuel' =>
      let '(r, d, n, out) := xz_dec_run d inp room in
      match r with
      | XZ_STREAM_END => (Ok out, d)
      | XZ_OK =>
          if (n =? 0) && (Z.of_nat (length out) =? 0) then (Err (-1), d) else
          let '(o, d) := xz_loop fuel' d (drop (Z.to_nat n) inp) (room - Z.of_nat (length out)) in
          (rest ← o; Ok (out ++ rest), d)
      | _ => (Err (-1), d)
      end
  end.

Definition xz_all (d : xz_dec) (inp : list Z) (room : Z) : outcome (list Z) * xz_dec :=
  xz_loop (S (length inp + Z.to_nat room)) d inp room.

(** The decoder each thread keeps for data blocks. *)
Definition data_decompress (g : option xz_dec) (cbuf : list Z) (out_cap : Z) : outcome (list Z) * option xz_dec :=
  let d := match g with None => xz_dec_init (2 ^ 20) | Some d => xz_dec_reset d end in
  let '(o, d) := xz_all d cbuf out_cap in (o, Some d).

(** ** Reading the file *)

(** [len] bytes into a buffer of [room]. *)
Definition sqfs_read_raw (f : list Z) (off room len : Z) : outcome (list Z) :=
  let len := u32 len in
  if room <? len then Fault else
  if len =? 0 then Ok [] else
  if off + len <=? Z.of_nat (length f) then Ok (sub f (Z.to_nat off) (Z.to_nat len)) else Err (-1).

(** A metadata block at [off]: the offset past it, and its bytes. *)
Definition sqfs_read_metadata_block (f : list Z) (comp off : Z) : outcome (Z * list Z) :=
  h ← sqfs_read_raw f off 2 2;
  let hdr := f16 h 0 in
  let uncompressed := negb (Z.land hdr 0x8000 =? 0) in
  let disk_len := Z.land hdr 0x7fff in
  fail_if ((disk_len =? 0) || (SQFS_METADATA_SIZE <? disk_len)) (-1) (
  inbuf ← sqfs_read_raw f (u64 (off + 2)) SQFS_METADATA_SIZE disk_len;
  if (uncompressed : bool) then Ok (u64 (off + (2 + disk_len)), inbuf) else
  if comp =? SQFS_COMP_XZ then
    out ← fst (xz_all (xz_dec_init (2 ^ 16)) inbuf SQFS_METADATA_SIZE);
    Ok (u64 (off + (2 + disk_len)), out)
  else Err (-1)).

(** [memcpy] of [bs] behind [buf], in an allocation of [cap] bytes. *)
Definition put_in (cap : Z) (buf bs : list Z) : outcome (list Z) :=
  if cap <? Z.of_nat (length buf) + Z.of_nat (length bs) then Fault else Ok (buf ++ bs).

(** ** Streams *)

(** [while (newcap < need) newcap *= 2;] *)
Fixpoint grow (fuel : nat) (newcap need : Z) : outcome Z :=
  match fuel with
  | O => Spin
  | S fuel' => if newcap <? need then grow fuel' (u64 (newcap * 2)) need else Ok newcap
  end.

Definition grow_buf (s : sqfs_stream) : outcome Z :=
  let need := u64 (s_len s + SQFS_METADATA_SIZE) in
  if s_cap s <? need then grow 64 (if s_cap s =? 0 then 2 ^ 20 else u64 (s_cap s * 2)) need else Ok (s_cap s).

Definition grow_blocks (s : sqfs_stream) : Z :=
  if n_blocks s =? cap_blocks s then (if cap_blocks s =? 0 then 256 else u64 (cap_blocks s * 2)) else cap_blocks s.

(** The bytes consumed on the disk, and the stream with one more block. *)
Definition stream_append (f : list Z) (comp : Z) (s : sqfs_stream) (off : Z) : outcome (Z * sqfs_stream) :=
  cap ← grow_buf s;
  let cb := grow_blocks s in
  '(off', bs) ← sqfs_read_metadata_block f comp off;
  buf ← put_in cap (s_buf s) bs;
  if cb <=? n_blocks s then Fault else
  Ok (i32 (u64 (off' - off)), mkStream buf cap (c_off s ++ [u64 (off - s_base s)]) (d_off s ++ [s_len s]) cb (s_base s)).

Fixpoint load_loop (fuel : nat) (f : list Z) (comp : Z) (s : sqfs_stream) (cur end_ : Z) : outcome sqfs_stream :=
  if cur <? end_ then
    match fuel with
    | O => Spin
    | S fuel' =>
        '(adv, s) ← stream_append f comp s cur;
        fail_if (adv <=? 0) (-1) (load_loop fuel' f comp s (u64 (cur + adv)) end_)
    end
  else Ok s.

Definition stream_load_range (f : list Z) (comp : Z) (start end_ : Z) : outcome sqfs_stream :=
  load_loop (S (length f)) f comp (mkStream [] 0 [] [] 0 start) start end_.

(** The first block whose offset is [c_block_off]; [None] is [-1]. *)
Fixpoint resolve_in (cs ds : list Z) (c_block_off byte_off : Z) : option Z :=
  match cs, ds with
  | c :: cs, d :: ds => if c =? c_block_off then Some (d + byte_off) else resolve_in cs ds c_block_off byte_off
  | _, _ => None
  end.
Definition stream_resolve (s : sqfs_stream) (c_block_off byte_off : Z) : option Z := resolve_in (c_off s) (d_off s) c_block_off byte_off.

(** ** The tables of identifiers and fragments *)

(** [for (i = 0; i < n_blocks; i++)]: the blocks whose offsets are in [offs]. *)
Fixpoint table_loop (n : nat) (f : list Z) (comp cap : Z) (offs : list Z) (i : Z) (table : list Z) : outcome (list Z) :=
  match n with
  | O => Ok table
  | S n' =>
      o ← slice offs (i * 8) 8;
      '(_, tmp) ← sqfs_read_metadata_block f comp (le_val o);
      table ← put_in cap table tmp;
      table_loop n' f comp cap offs (i + 1) table
  end.

(** [n] entries of [size] bytes behind the index at [start]. *)
Definition load_table (f : list Z) (comp start n size : Z) : outcome (list Z) :=
  let nb := (n * size + SQFS_METADATA_SIZE - 1) / SQFS_METADATA_SIZE in
  if n =? 0 then Ok [] else
  offs ← sqfs_read_raw f start (nb * 8) (nb * 8);
  table_loop (Z.to_nat nb) f comp (nb * SQFS_METADATA_SIZE) offs 0 [].

Definition load_id_table (f : list Z) (s : sqfs_superblock_t) : outcome (list Z * Z) :=
  t ← load_table f (compression_id s) (id_table_start s) (sb_id_count s) 4;
  Ok (t, Z.of_nat (length t) / 4).

Definition load_fragment_table (f : list Z) (s : sqfs_superblock_t) : outcome (list Z * Z) :=
  t ← load_table f (compression_id s) (fragment_table_start s) (fragment_entry_count s) 16;
  Ok (t, Z.of_nat (length t) / 16).

Definition id_lookup (ctx : sqfs_ctx) (idx : Z) : outcome Z :=
  if id_count ctx <=? idx then Ok 0 else b ← slice (id_table ctx) (idx * 4) 4; Ok (le_val b).

(** ** Opening *)

(** [1u << n], undefined when [n] is at least the width. *)
Definition shl_one (n : Z) : outcome Z := if n <? 32 then Ok (Z.shiftl 1 n) else Fault.

(** [block_size], checked before anything divides by it; [||] stops at the first
    that holds. *)
Definition bad_block_size (s : sqfs_superblock_t) : bool :=
  (block_size s =? 0) || negb (Z.land (block_size s) (u32 (block_size s - 1)) =? 0) || (32 <=? block_log s) ||
  negb (block_size s =? Z.shiftl 1 (block_log s)) || (2 ^ 20 <? block_size s).

(** [None]: the file cannot be opened.  NULL is [Err (-1)].  The log of the
    superblock shifts by [block_log] before that is checked. *)
Definition sqfs_open (path : option (list Z)) : outcome sqfs_ctx :=
  match path with
  | None => Err (-1)
  | Some f =>
      h ← sqfs_read_raw f 0 96 96;
      let s := sb_of h in
      fail_if (negb (magic s =? SQFS_MAGIC)) (-1) (
      _ ← shl_one (block_log s);
      fail_if (negb (version_major s =? 4)) (-1) (
      fail_if (negb (compression_id s =? SQFS_COMP_XZ) && negb (compression_id s =? SQFS_COMP_GZIP)) (-1) (
      fail_if (bad_block_size s) (-1) (
      '(ids, ni) ← load_id_table f s;
      '(frags, nf) ← load_fragment_table f s;
      inodes ← stream_load_range f (compression_id s) (inode_table_start s) (directory_table_start s);
      dirs ← stream_load_range f (compression_id s) (directory_table_start s) (fragment_table_start s);
      Ok (mkCtx f s inodes dirs ids ni frags nf)))))
  end.

(** ** The capability attribute *)

Record sqfs_xattr_cursor_t := mkCur { next_block : Z; x_end : Z; x_pos : Z; x_data : list Z }.
Definition x_len (c : sqfs_xattr_cursor_t) : Z := Z.of_nat (length (x_data c)).
Definition set_pos (c : sqfs_xattr_cursor_t) (p : Z) : sqfs_xattr_cursor_t := mkCur (next_block c) (x_end c) p (x_data c).

Definition xattr_next_block (ctx : sqfs_ctx) (c : sqfs_xattr_cursor_t) : outcome sqfs_xattr_cursor_t :=
  fail_if ((x_end c <=? next_block c) || (x_end c - next_block c <? 2)) (-1) (
  h ← sqfs_read_raw (s_file ctx) (next_block c) 2 2;
  fail_if (x_end c - next_block c - 2 <? Z.land (f16 h 0) 0x7fff) (-1) (
  '(next, data) ← sqfs_read_metadata_block (s_file ctx) (compression_id (sb ctx)) (next_block c);
  let len := Z.of_nat (length data) in
  fail_if ((len =? 0) || (negb (next =? x_end c) && negb (len =? SQFS_METADATA_SIZE))) (-1) (
  Ok (mkCur next (x_end c) 0 data)))).

Definition xattr_cursor_start (ctx : sqfs_ctx) (start end_ offset : Z) : outcome sqfs_xattr_cursor_t :=
  fail_if ((bytes_used (sb ctx) <? end_) || (end_ <=? start) || (SQFS_METADATA_SIZE <=? offset)) (-1) (
  c ← xattr_next_block ctx (mkCur start end_ 0 []);
  fail_if (x_len c <=? offset) (-1) (Ok (set_pos c offset))).

(** [while (size)]: the next [size] bytes, across blocks. *)
Fixpoint xattr_loop (fuel : nat) (ctx : sqfs_ctx) (c : sqfs_xattr_cursor_t) (size : Z) : outcome (list Z * sqfs_xattr_cursor_t) :=
  if size =? 0 then Ok ([], c) else
  match fuel with
  | O => Spin
  | S fuel' =>
      c ← (if x_pos c =? x_len c then xattr_next_block ctx c else Ok c);
      let n := Z.min (x_len c - x_pos c) size in
      bs ← slice (x_data c) (x_pos c) n;
      '(rest, c) ← xattr_loop fuel' ctx (set_pos c (x_pos c + n)) (size - n);
      Ok (bs ++ rest, c)
  end.
Definition xattr_read (ctx : sqfs_ctx) (c : sqfs_xattr_cursor_t) (size : Z) : outcome (list Z * sqfs_xattr_cursor_t) :=
  xattr_loop (Z.to_nat size) ctx c size.

Definition SQFS_EREG_TYPE : Z := 9.
Definition UINT32_MAX : Z := 0xFFFFFFFF.
(** "capability" *)
Definition capability : list Z := [99; 97; 112; 97; 98; 105; 108; 105; 116; 121].

(** What is left of an attribute that matches: its value may be elsewhere. *)
Definition capability_value (ctx : sqfs_ctx) (c : sqfs_xattr_cursor_t) (attr0 value_size table_start xattr_end : Z) : outcome (list Z) :=
  '(value_size, c) ← (if negb (Z.land attr0 0x100 =? 0) then
      '(r, c) ← xattr_read ctx c 8;
      let ref := le_val r in
      fail_if (u64 (xattr_end - table_start) <=? Z.shiftr ref 16) (-1) (
      c ← xattr_cursor_start ctx (u64 (table_start + Z.shiftr ref 16)) xattr_end (Z.land ref 0xffff);
      '(v, c) ← xattr_read ctx c 4; Ok (le_val v, c))
    else Ok (value_size, c));
  fail_if (negb (value_size =? 12) && negb (value_size =? 20) && negb (value_size =? 24)) (-1) (
  '(v, _) ← xattr_read ctx c value_size; Ok v).

(** [char name[sizeof(capability) - 1]] *)
Definition NAME_BUF : Z := 10.

(** [for (i = 0; i < id.count; i++)]: [None] when no attribute matches.  The name
    is stored only when its length is that of the array. *)
Fixpoint xattr_scan (n : nat) (ctx : sqfs_ctx) (c : sqfs_xattr_cursor_t) (table_start xattr_end : Z) : outcome (option (list Z)) :=
  match n with
  | O => Ok None
  | S n' =>
      '(a, c) ← xattr_read ctx c 4;
      let attr0 := f16 a 0 in
      let attr1 := f16 a 2 in
      fail_if ((attr1 =? 0) || negb (Z.land attr0 (Z.lnot 0x1ff) =? 0)) (-1) (
      let match_ := (Z.land attr0 0xff =? 2) && (attr1 =? 10) in
      '(name, c) ← xattr_read ctx c attr1;
      name ← (if match_ then put_in NAME_BUF [] name else Ok name);
      '(v, c) ← xattr_read ctx c 4;
      let value_size := le_val v in
      fail_if (negb (Z.land attr0 0x100 =? 0) && negb (value_size =? 8)) (-1) (
      if negb match_ || negb (bool_decide (name = capability)) then
        '(_, c) ← xattr_read ctx c value_size; xattr_scan n' ctx c table_start xattr_end
      else v ← capability_value ctx c attr0 value_size table_start xattr_end; Ok (Some v)))
  end.

(** ** Entries *)

Record sqfs_entry_t := mkEnt {
  e_path : list Z;
  e_type : Z;
  e_mode : Z;
  e_uid : Z;
  e_gid : Z;
  e_mtime : Z;
  e_size : Z;
  e_rdev : Z;
  e_symlink_target : option (list Z);
  e_file_inode_off : Z;
  e_xattr_idx : Z;
}.

(** The value of the capability attribute; [None] when there is none. *)
Definition sqfs_read_capability (ctx : sqfs_ctx) (e : sqfs_entry_t) : outcome (option (list Z)) :=
  let used := bytes_used (sb ctx) in
  let off := xattr_id_table_start (sb ctx) in
  if negb (e_type e =? SQFS_EREG_TYPE) || (e_xattr_idx e =? UINT32_MAX) then Ok None else
  fail_if ((used <? off) || (used - off <? 16)) (-1) (
  t ← sqfs_read_raw (s_file ctx) off 16 16;
  let start := f64 t 0 in
  let count := f32 t 8 in
  fail_if (count <=? e_xattr_idx e) (-1) (
  let index_bytes := (count * 16 + SQFS_METADATA_SIZE - 1) / SQFS_METADATA_SIZE * 8 in
  let table_off := u64 (off + 16) in
  fail_if (negb (index_bytes =? u64 (used - table_off))) (-1) (
  let id_offset := e_xattr_idx e * 16 in
  b1 ← sqfs_read_raw (s_file ctx) table_off 8 8;
  b2 ← sqfs_read_raw (s_file ctx) (u64 (table_off + id_offset / SQFS_METADATA_SIZE * 8)) 8 8;
  let xattr_end := le_val b1 in
  let id_block := le_val b2 in
  fail_if ((start <? 96) || (xattr_end <=? start) || (id_block <? xattr_end) || (off <=? id_block)) (-1) (
  c ← xattr_cursor_start ctx id_block off (id_offset mod SQFS_METADATA_SIZE);
  '(id, c) ← xattr_read ctx c 16;
  let ref := f64 id 0 in
  let n := f32 id 8 in
  fail_if ((n =? 0) || (u64 (xattr_end - start) <=? Z.shiftr ref 16)) (-1) (
  c ← xattr_cursor_start ctx (u64 (start + Z.shiftr ref 16)) xattr_end (Z.land ref 0xffff);
  xattr_scan (Z.to_nat n) ctx c start xattr_end))))).

(** ** Inodes *)

Definition SQFS_DIR_TYPE : Z := 1.
Definition SQFS_REG_TYPE : Z := 2.
Definition SQFS_SYM_TYPE : Z := 3.
Definition SQFS_BLK_TYPE : Z := 4.
Definition SQFS_CHR_TYPE : Z := 5.
Definition SQFS_FIFO_TYPE : Z := 6.
Definition SQFS_SOCK_TYPE : Z := 7.
Definition SQFS_EDIR_TYPE : Z := 8.
Definition SQFS_ESYM_TYPE : Z := 10.
Definition SQFS_EBLK_TYPE : Z := 11.
Definition SQFS_ECHR_TYPE : Z := 12.
Definition SQFS_EFIFO_TYPE : Z := 13.
Definition SQFS_ESOCK_TYPE : Z := 14.
Definition WALK_MAX_DEPTH : Z := 64.
Definition PATH_BUF : Z := 4096.

Record sqfs_inode_common_t := mkHdr { h_type : Z; h_mode : Z; h_uid_idx : Z; h_gid_idx : Z; h_mtime : Z; h_number : Z }.
Definition hdr_of (p : list Z) : sqfs_inode_common_t := mkHdr (f16 p 0) (f16 p 2) (f16 p 4) (f16 p 6) (f32 p 8) (f32 p 12).

(** The offset of the inode in the table, and its header. *)
Definition read_inode_common (ctx : sqfs_ctx) (ref : Z) : outcome (Z * sqfs_inode_common_t) :=
  match stream_resolve (inode_stream ctx) (Z.shiftr ref 16) (Z.land ref 0xffff) with
  | None => Err (-1)
  | Some d =>
      fail_if (s_len (inode_stream ctx) <? d + 16) (-1) (
      h ← slice (s_buf (inode_stream ctx)) d 16; Ok (d, hdr_of h))
  end.

(** Block, offset and size of a directory, from the body of its inode. *)
Definition basic_dir (b : list Z) : Z * Z * Z := (f32 b 0, f16 b 10, f16 b 8).
Definition ext_dir (b : list Z) : Z * Z * Z := (f32 b 8, f16 b 18, f32 b 4).

(** Start, size, fragment and offset in it of a file. *)
Definition basic_file (b : list Z) : Z * Z * Z * Z := (f32 b 0, f32 b 12, f32 b 4, f32 b 8).
Definition ext_file (b : list Z) : Z * Z * Z * Z := (f64 b 0, f64 b 8, f32 b 28, f32 b 32).

(** ** The walk *)

Section walk.
Context {U : Type} (ctx : sqfs_ctx) (cb : sqfs_entry_t → U → Z * U).

Record walk_state := mkWalk {
  w_user : U;
  w_path : list Z;
  w_depth : Z;
  w_cb_rc : Z;
  w_files : Z;
  w_dirs : Z;
  w_syms : Z;
  w_special : Z;
}.
Definition with_path (w : walk_state) (p : list Z) : walk_state :=
  mkWalk (w_user w) p (w_depth w) (w_cb_rc w) (w_files w) (w_dirs w) (w_syms w) (w_special w).
Definition set_depth (w : walk_state) (d : Z) : walk_state :=
  mkWalk (w_user w) (w_path w) d (w_cb_rc w) (w_files w) (w_dirs w) (w_syms w) (w_special w).
Inductive stat := AFile | ADir | ASym | ASpecial.
Definition count (k : stat) (w : walk_state) : walk_state :=
  let n (k' : stat) (x : Z) := match k, k' with AFile, AFile | ADir, ADir | ASym, ASym | ASpecial, ASpecial => u64 (x + 1) | _, _ => x end in
  mkWalk (w_user w) (w_path w) (w_depth w) (w_cb_rc w) (n AFile (w_files w)) (n ADir (w_dirs w)) (n ASym (w_syms w)) (n ASpecial (w_special w)).

(** [if (w->cb_rc == 0) w->cb_rc = w->cb(&e, w->user);] *)
Definition report (e : sqfs_entry_t) (w : walk_state) : walk_state :=
  if w_cb_rc w =? 0 then
    let '(rc, u) := cb e (w_user w) in
    mkWalk u (w_path w) (w_depth w) rc (w_files w) (w_dirs w) (w_syms w) (w_special w)
  else w.

(** A name that does not fit is left out; one that does is stored with its
    terminator. *)
Definition path_push (w : walk_state) (name : list Z) : outcome walk_state :=
  let prev := Z.of_nat (length (w_path w)) in
  if PATH_BUF <? prev + 1 + Z.of_nat (length name) + 1 then Ok w else
  let p := if (1 <? prev) || ((prev =? 1) && negb (bget (w_path w) 0 =? 47)) || (prev =? 0) then w_path w ++ [47] else w_path w in
  _ ← put_in PATH_BUF p (name ++ [0]);
  Ok (with_path w (p ++ name)).
Definition path_pop (w : walk_state) (prev : Z) : walk_state := with_path w (take (Z.to_nat prev) (w_path w)).

(** A failure of a step is a result of the walk, with the state it left. *)
Definition catch {A B} (o : outcome A) (e : B) (k : A → outcome B) : outcome B :=
  match o with Ok a => k a | Err _ => Ok e | Fault => Fault | Spin => Spin end.

(** [char name[256]] in [walk_directory], for the name and its terminator. *)
Definition ENTRY_NAME_BUF : Z := 256.

(** [for (i = 0; i < count; i++)]: result (not zero when the walk returns),
    position and state. *)
Fixpoint entry_loop (child : Z → walk_state → outcome (Z * walk_state)) (n : nat) (buf : list Z) (start_block end_ p : Z) (w : walk_state) :
    outcome (Z * Z * walk_state) :=
  match n with
  | O => Ok (0, p, w)
  | S n' =>
      if end_ <? p + 8 then Ok (-1, p, w) else
      de ← slice buf p 8;
      let p := p + 8 in
      let name_len := f16 de 6 + 1 in
      if end_ <? p + name_len then Ok (-1, p, w) else
      name ← slice buf p (if name_len <? 255 then name_len else 255);
      _ ← put_in ENTRY_NAME_BUF name [0];
      let p := p + name_len in
      let child_ref := Z.lor (u64 (Z.shiftl start_block 16)) (f16 de 0) in
      let prev := Z.of_nat (length (w_path w)) in
      w ← path_push w name;
      '(rc, w) ← child child_ref w;
      let w := path_pop w prev in
      if negb (rc =? 0) then Ok (rc, p, w) else
      if negb (w_cb_rc w =? 0) then Ok (w_cb_rc w, p, w) else
      entry_loop child n' buf start_block end_ p w
  end.

(** [while (p < end)] *)
Fixpoint dir_loop (fuel : nat) (child : Z → walk_state → outcome (Z * walk_state)) (buf : list Z) (end_ p : Z) (w : walk_state) :
    outcome (Z * walk_state) :=
  if p <? end_ then
    match fuel with
    | O => Spin
    | S fuel' =>
        if end_ <? p + 12 then Ok (0, w) else
        dh ← slice buf p 12;
        '(rc, p, w) ← entry_loop child (Z.to_nat (u32 (f32 dh 0 + 1))) buf (f32 dh 4) end_ (p + 12) w;
        if negb (rc =? 0) then Ok (rc, w) else dir_loop fuel' child buf end_ p w
    end
  else Ok (0, w).

Definition walk_directory (child : Z → walk_state → outcome (Z * walk_state)) (dir_block_off byte_off dir_size : Z) (w : walk_state) :
    outcome (Z * walk_state) :=
  let s := dir_stream ctx in
  match stream_resolve s dir_block_off byte_off with
  | None => Ok (-1, w)
  | Some d =>
      if s_len s <? d then Ok (-1, w) else
      if dir_size <? 3 then Ok (0, w) else
      let bytes_left := Z.min (dir_size - 3) (s_len s - d) in
      dir_loop (Z.to_nat bytes_left) child (s_buf s) (d + bytes_left) d w
  end.

(** What the callback is told of the inode at [p], with its path. *)
Definition make_entry (hdr : sqfs_inode_common_t) (p uid gid size rdev xattr : Z) (target : option (list Z)) (w : walk_state) : sqfs_entry_t :=
  mkEnt (w_path w) (h_type hdr) (h_mode hdr) uid gid (h_mtime hdr) size rdev target p xattr.

(** An entry that is not a directory: report, count, return. *)
Definition leaf (k : stat) (e : sqfs_entry_t) (w : walk_state) : outcome (Z * walk_state) :=
  let w := count k (report e w) in Ok (w_cb_rc w, w).

Fixpoint walk_inode (fuel : nat) (inode_ref : Z) (w : walk_state) : outcome (Z * walk_state) :=
  match fuel with
  | O => Spin
  | S fuel' =>
      if WALK_MAX_DEPTH <=? w_depth w then Ok (0, w) else
      catch (read_inode_common ctx inode_ref) (-1, w) (λ '(p, hdr),
      let body := p + 16 in
      let buf := s_buf (inode_stream ctx) in
      let body_avail := s_len (inode_stream ctx) - body in
      uid ← id_lookup ctx (h_uid_idx hdr);
      gid ← id_lookup ctx (h_gid_idx hdr);
      let e := make_entry hdr p uid gid in
      let directory (size : Z) (fields : list Z → Z * Z * Z) :=
        if body_avail <? size then Ok (-1, w) else
        b ← slice buf body size;
        let '(block_idx, block_offset, file_size) := fields b in
        let w := report (e 0 0 UINT32_MAX None w) w in
        if negb (w_cb_rc w =? 0) then Ok (w_cb_rc w, w) else
        let w := count ADir w in
        '(rc, w) ← walk_directory (walk_inode fuel') block_idx block_offset file_size (set_depth w (w_depth w + 1));
        Ok (rc, set_depth w (w_depth w - 1)) in
      let t := h_type hdr in
      if t =? SQFS_DIR_TYPE then directory 16 basic_dir
      else if t =? SQFS_EDIR_TYPE then directory 24 ext_dir
      else if t =? SQFS_REG_TYPE then
        if body_avail <? 16 then Ok (-1, w) else
        b ← slice buf body 16;
        let '(_, file_size, _, _) := basic_file b in
        leaf AFile (e file_size 0 UINT32_MAX None w) w
      else if t =? SQFS_EREG_TYPE then
        if body_avail <? 40 then Ok (-1, w) else
        b ← slice buf body 40;
        let '(_, file_size, _, _) := ext_file b in
        leaf AFile (e file_size 0 (f32 b 36) None w) w
      else if (t =? SQFS_SYM_TYPE) || (t =? SQFS_ESYM_TYPE) then
        if body_avail <? 8 then Ok (-1, w) else
        b ← slice buf body 8;
        let n := f32 b 4 in
        if body_avail <? 8 + n then Ok (-1, w) else
        target ← slice buf (body + 8) n;
        leaf ASym (e n 0 UINT32_MAX (Some target) w) w
      else if (t =? SQFS_BLK_TYPE) || (t =? SQFS_CHR_TYPE) || (t =? SQFS_EBLK_TYPE) || (t =? SQFS_ECHR_TYPE) then
        if body_avail <? 8 then Ok (-1, w) else
        b ← slice buf body 8;
        leaf ASpecial (e 0 (f32 b 4) UINT32_MAX None w) w
      else if (t =? SQFS_FIFO_TYPE) || (t =? SQFS_SOCK_TYPE) || (t =? SQFS_EFIFO_TYPE) || (t =? SQFS_ESOCK_TYPE) then
        leaf ASpecial (e 0 0 UINT32_MAX None w) w
      else Ok (0, w))
  end.

(** One level of recursion per level of depth, and one that stops. *)
Definition sqfs_walk (user : U) : outcome (Z * U) :=
  '(rc, w) ← walk_inode (S (Z.to_nat WALK_MAX_DEPTH)) (root_inode_ref (sb ctx)) (mkWalk user [] 0 0 0 0 0 0);
  Ok (if negb (rc =? 0) then rc else w_cb_rc w, w_user w).
End walk.

(** ** The contents of a file *)

(** One block of [logical] bytes, stored as [bs] says, at [disk]; what is left of
    the output is [remaining].  Result: its bytes, and the bytes on the disk. *)
Definition read_block (ctx : sqfs_ctx) (g : option xz_dec) (bs logical remaining disk : Z) : outcome (list Z * Z) * option xz_dec :=
  let uncompressed := negb (Z.land bs 0x01000000 =? 0) in
  let on_disk := Z.land bs 0x00ffffff in
  if remaining <? logical then (Err (-1), g) else
  if on_disk =? 0 then (Ok (replicate (Z.to_nat logical) 0, 0), g) else
  if uncompressed then
    if negb (on_disk =? logical) then (Err (-1), g) else
    (b ← sqfs_read_raw (s_file ctx) disk remaining on_disk; Ok (b, on_disk), g)
  else
    match sqfs_read_raw (s_file ctx) disk on_disk on_disk with
    | Ok cbuf =>
        let '(o, g) := data_decompress g cbuf logical in
        (got ← o; fail_if (negb (Z.of_nat (length got) =? logical)) (-1) (Ok (got, on_disk)), g)
    | Err rc => (Err rc, g)
    | Fault => (Fault, g)
    | Spin => (Spin, g)
    end.

(** [for (i = 0; i < block_list_count; i++)] *)
Fixpoint file_loop (n : nat) (ctx : sqfs_ctx) (g : option xz_dec) (sizes i n_full tail file_size disk : Z) (out : list Z) :
    outcome (list Z) * option xz_dec :=
  match n with
  | O => (Ok out, g)
  | S n' =>
      match slice (s_buf (inode_stream ctx)) (sizes + i * 4) 4 with
      | Ok b =>
          let logical := if i <? n_full then block_size (sb ctx) else tail in
          let '(o, g) := read_block ctx g (le_val b) logical (file_size - Z.of_nat (length out)) disk in
          match o with
          | Ok (bs, on_disk) =>
              match put_in file_size out bs with
              | Ok out => file_loop n' ctx g sizes (i + 1) n_full tail file_size (u64 (disk + on_disk)) out
              | _ => (Fault, g)
              end
          | Err rc => (Err rc, g)
          | Fault => (Fault, g)
          | Spin => (Spin, g)
          end
      | _ => (Fault, g)
      end
  end.

(** The tail of a file, in a fragment. *)
Definition read_fragment (ctx : sqfs_ctx) (g : option xz_dec) (frag_idx frag_off tail : Z) : outcome (list Z) * option xz_dec :=
  if fragment_count ctx <=? frag_idx then (Err (-1), g) else
  match slice (fragment_index ctx) (frag_idx * 16) 16 with
  | Ok fe =>
      let uncompressed := negb (Z.land (f32 fe 8) 0x01000000 =? 0) in
      let on_disk := Z.land (f32 fe 8) 0x00ffffff in
      match sqfs_read_raw (s_file ctx) (f64 fe 0) on_disk on_disk with
      | Ok fragbuf =>
          let '(o, g) := if uncompressed then (Ok fragbuf, g) else data_decompress g fragbuf (block_size (sb ctx)) in
          (fragdec ← o;
           fail_if (Z.of_nat (length fragdec) <? frag_off + tail) (-1) (slice fragdec frag_off tail), g)
      | Err rc => (Err rc, g)
      | Fault => (Fault, g)
      | Spin => (Spin, g)
      end
  | _ => (Fault, g)
  end.

(** Type, body and fields of the inode of a regular file: offset of its list of
    blocks, blocks that can be there, start, size, fragment, offset in it. *)
Definition file_inode (ctx : sqfs_ctx) (off : Z) : outcome (Z * Z * (Z * Z * Z * Z)) :=
  let buf := s_buf (inode_stream ctx) in
  h ← slice buf off 16;
  let t := h_type (hdr_of h) in
  let body := off + 16 in
  fail_if (s_len (inode_stream ctx) <? body) (-1) (
  let avail := s_len (inode_stream ctx) - body in
  if t =? SQFS_REG_TYPE then
    fail_if (avail <? 16) (-1) (b ← slice buf body 16; Ok (body + 16, (avail - 16) / 4, basic_file b))
  else if t =? SQFS_EREG_TYPE then
    fail_if (avail <? 40) (-1) (b ← slice buf body 40; Ok (body + 40, (avail - 40) / 4, ext_file b))
  else Err (-1)).

Definition sqfs_read_file (ctx : sqfs_ctx) (g : option xz_dec) (e : sqfs_entry_t) : outcome (list Z) * option xz_dec :=
  match file_inode ctx (e_file_inode_off e) with
  | Ok (sizes, avail, (blocks_start, file_size, frag_idx, frag_off)) =>
      let bsz := block_size (sb ctx) in
      if bsz =? 0 then (Err (-1), g) else
      let n_full := file_size / bsz in
      let has_frag := negb (frag_idx =? 0xffffffff) in
      let tail := file_size mod bsz in
      let n := if has_frag then n_full else n_full + (if tail =? 0 then 0 else 1) in
      if avail <? n then (Err (-1), g) else
      let '(o, g) := file_loop (Z.to_nat n) ctx g sizes 0 n_full tail file_size blocks_start [] in
      match o with
      | Ok out =>
          let '(o, g) := if has_frag && (0 <? tail) then read_fragment ctx g frag_idx frag_off tail else (Ok [], g) in
          (t ← o; out ← put_in file_size out t;
           fail_if (negb (Z.of_nat (length out) =? file_size)) (-1) (Ok out), g)
      | o => (o, g)
      end
  | Err rc => (Err rc, g)
  | Fault => (Fault, g)
  | Spin => (Spin, g)
  end.
End reader.
Arguments walk_state : clear implicits.
