(* ===== verification/SqfsSafe.v ===== *)
(** * The squashfs reader is safe on every file
      ([src/tools/iso-patch/engine/squashfs.c])

    Whatever the bytes of the image, opening it, walking it with any callback,
    and reading the files and capabilities of the entries it reports never leave
    a buffer and always come to an end; the one undefined step is a shift in the
    log of the superblock ([sqfs_safe]). *)

From S2P Require Import Prelude Bytes Outcome Squashfs.

(** ** Small readers *)

Lemma f16_range p o : bytes p → 0 <= f16 p o < 65536.
Proof.
  intros H. unfold f16. pose proof (le_val_bound (sub p o 2) (sub_bytes _ _ _ H)) as B.
  assert (length (sub p o 2) <= 2)%nat as L by (unfold sub; rewrite length_take; lia).
  assert (256 ^ Z.of_nat (length (sub p o 2)) <= 256 ^ 2) by (apply Z.pow_le_mono_r; lia). lia.
Qed.
Lemma f32_range p o : bytes p → 0 <= f32 p o < 4294967296.
Proof.
  intros H. unfold f32. pose proof (le_val_bound (sub p o 4) (sub_bytes _ _ _ H)) as B.
  assert (length (sub p o 4) <= 4)%nat as L by (unfold sub; rewrite length_take; lia).
  assert (256 ^ Z.of_nat (length (sub p o 4)) <= 256 ^ 4) by (apply Z.pow_le_mono_r; lia). lia.
Qed.
Lemma f64_range p o : bytes p → 0 <= f64 p o < 18446744073709551616.
Proof.
  intros H. unfold f64. pose proof (le_val_bound (sub p o 8) (sub_bytes _ _ _ H)) as B.
  assert (length (sub p o 8) <= 8)%nat as L by (unfold sub; rewrite length_take; lia).
  assert (256 ^ Z.of_nat (length (sub p o 8)) <= 256 ^ 8) by (apply Z.pow_le_mono_r; lia). lia.
Qed.

Lemma le_val_range n l : bytes l → Z.of_nat (length l) = n → 0 <= le_val l < 256 ^ n.
Proof. intros H <-. by apply le_val_bound. Qed.

Lemma land_ones_range x m n : 0 <= x → m = Z.ones n → 0 <= n → 0 <= Z.land x m < 2 ^ n.
Proof. intros Hx -> Hn. rewrite Z.land_ones by done. apply Z.mod_pos_bound. lia. Qed.

Lemma safe_catch {A B} (P : A → Prop) (Q : B → Prop) o e (k : A → outcome B) :
  safe P o → Q e → (∀ a, P a → safe Q (k a)) → safe Q (catch o e k).
Proof. destruct o; cbn; auto. Qed.

Lemma safe_if {A} (P : A → Prop) (b : bool) o1 o2 : (b = true → safe P o1) → (b = false → safe P o2) → safe P (if b then o1 else o2).
Proof. destruct b; auto. Qed.

Lemma safe_put cap buf bs : bytes buf → bytes bs → Z.of_nat (length buf) + Z.of_nat (length bs) <= cap →
  safe (λ r, r = buf ++ bs ∧ bytes r) (put_in cap buf bs).
Proof. intros. unfold put_in. destruct (Z.ltb_spec cap (Z.of_nat (length buf) + Z.of_nat (length bs))); [lia|]. cbn. split; [done|]. by apply Forall_app. Qed.

(** ** Streams *)

(** The bytes fit in the allocation, every block has its two offsets, and there
    are no more blocks than [3] bytes of the file each allow. *)
Definition stream_ok (cur : Z) (s : sqfs_stream) : Prop :=
  bytes (s_buf s) ∧ s_len s <= s_cap s ∧ (s_cap s = 0 ∨ 2 ^ 20 <= s_cap s < 2 ^ 63) ∧ length (d_off s) = length (c_off s) ∧
  (cap_blocks s = 0 ∨ 256 <= cap_blocks s < 2 ^ 62) ∧ n_blocks s <= cap_blocks s ∧ 3 * n_blocks s <= cur ∧ s_len s <= 8192 * n_blocks s ∧
  Forall (λ d, 0 <= d <= s_len s) (d_off s).

Lemma grow_buf_safe s : s_len s <= 2 ^ 61 → s_len s <= s_cap s → s_cap s = 0 ∨ 2 ^ 20 <= s_cap s < 2 ^ 63 →
  safe (λ c, s_len s + 8192 <= c ∧ 2 ^ 20 <= c < 2 ^ 63) (grow_buf s).
Proof.
  intros H1 H2 H3. unfold grow_buf, SQFS_METADATA_SIZE. assert (0 <= s_len s) by (unfold s_len; lia). rewrite u64_small by lia.
  destruct (Z.ltb_spec (s_cap s) (s_len s + 8192)); [|cbn; lia].
  destruct (Z.eqb_spec (s_cap s) 0); cbn [grow].
  - destruct (Z.ltb_spec (2 ^ 20) (s_len s + 8192)); [lia|cbn; lia].
  - rewrite (u64_small (s_cap s * 2)) by lia. destruct (Z.ltb_spec (s_cap s * 2) (s_len s + 8192)); [lia|cbn; lia].
Qed.

Lemma grow_blocks_ok s cur : stream_ok cur s → cur < 2 ^ 48 → n_blocks s < grow_blocks s ∧ 256 <= grow_blocks s < 2 ^ 62.
Proof.
  intros (_ & _ & _ & _ & H1 & H2 & H3 & _) Hc. unfold grow_blocks. assert (0 <= n_blocks s) by (unfold n_blocks; lia).
  destruct (Z.eqb_spec (n_blocks s) (cap_blocks s)) as [E|]; [|lia]. destruct (Z.eqb_spec (cap_blocks s) 0); [lia|]. rewrite u64_small by lia. lia.
Qed.

Lemma safe_eq {A} (P : A → Prop) o : safe P o → safe (λ a, P a ∧ o = Ok a) o.
Proof. by destruct o. Qed.

Section safety.
Context `{X : XzDec} {XL : XzLaws X}.

(** ** The decompressor *)

Lemma xz_loop_safe fuel : ∀ d inp room, bytes inp → 0 <= room → (length inp + Z.to_nat room < fuel)%nat →
  safe (λ out, Z.of_nat (length out) <= room ∧ bytes out) (fst (xz_loop fuel d inp room)).
Proof.
  induction fuel as [|fuel IH]; intros d inp room Hi Hr Hf; [lia|]. cbn [xz_loop].
  destruct (xz_dec_run d inp room) as [[[r d'] n] out] eqn:E. destruct (XL d inp room r d' n out Hi Hr E) as (Hn & Ho & Hb).
  destruct r; cbn [fst]; try exact I; [|by split].
  destruct ((n =? 0) && (Z.of_nat (length out) =? 0)) eqn:E0; [exact I|]. apply andb_false_iff in E0. rewrite !Z.eqb_neq in E0.
  set (i := drop (Z.to_nat n) inp). set (r := room - Z.of_nat (length out)).
  specialize (IH d' i r ltac:(by apply Forall_drop) ltac:(lia) ltac:(unfold i; rewrite length_drop; lia)). destruct (xz_loop fuel d' i r) as [o d2]. cbn [fst] in *.
  eapply safe_bind; [exact IH|]; intros rest [Hl Hb2]; cbn; rewrite length_app; split; [lia|by apply Forall_app].
Qed.

Lemma data_decompress_safe g cbuf cap : bytes cbuf → 0 <= cap →
  safe (λ out, Z.of_nat (length out) <= cap ∧ bytes out) (fst (data_decompress g cbuf cap)).
Proof.
  intros Hc Hp. unfold data_decompress, xz_all. match goal with |- context [xz_loop ?n ?d cbuf cap] => pose proof (xz_loop_safe n d cbuf cap Hc Hp ltac:(lia)) as H; destruct (xz_loop n d cbuf cap) end. exact H.
Qed.

(** ** The file *)

Section file.
Context (f : list Z) (Hf : bytes f) (Hlen : Z.of_nat (length f) < 2 ^ 48).

Lemma raw_safe off room len : 0 <= off → 0 <= len < 4294967296 → len <= room →
  safe (λ b, Z.of_nat (length b) = len ∧ bytes b ∧ (len = 0 ∨ off + len <= Z.of_nat (length f))) (sqfs_read_raw f off room len).
Proof using Hf.
  intros Ho Hl Hr. unfold sqfs_read_raw. rewrite u32_small by done. destruct (Z.ltb_spec room len); [lia|].
  destruct (Z.eqb_spec len 0) as [->|]; [cbn; split_and!; [done|constructor|by left]|].
  destruct (Z.leb_spec (off + len) (Z.of_nat (length f))); [|exact I]. cbn. split_and!; [rewrite length_sub; lia|by apply sub_bytes|by right].
Qed.

Lemma metadata_safe comp off : 0 <= off < 18446744073709551616 →
  safe (λ '(off', bs), off + 3 <= off' <= off + 8194 ∧ off' <= Z.of_nat (length f) ∧ Z.of_nat (length bs) <= 8192 ∧ bytes bs)
    (sqfs_read_metadata_block f comp off).
Proof using All.
  intros Ho. unfold sqfs_read_metadata_block. eapply safe_bind; [apply raw_safe; lia|]. intros h (Lh & Bh & [|Hin]); [lia|].
  set (hdr := f16 h 0). pose proof (f16_range h 0 Bh) as Hh. fold hdr in Hh.
  pose proof (land_ones_range hdr 0x7fff 15 ltac:(lia) eq_refl ltac:(lia)) as Hd. set (n := Z.land hdr 0x7fff) in *. clearbody n.
  apply safe_fail_if. intros E. apply orb_false_elim in E as [E1 E2]. apply Z.eqb_neq in E1. unfold SQFS_METADATA_SIZE in *. apply Z.ltb_ge in E2.
  rewrite !(u64_small (off + _)) by lia.
  eapply safe_bind; [apply raw_safe; lia|]. intros inbuf (Lb & Bb & [|Hin2]); [lia|]. destruct (negb (Z.land hdr 0x8000 =? 0)).
  - cbn. split_and!; try done; lia.
  - destruct (comp =? SQFS_COMP_XZ); [|exact I]. unfold xz_all.
    eapply safe_bind; [apply (xz_loop_safe _ _ inbuf 8192); [done|lia|lia]|]. intros out [Lo Bo]. cbn. split_and!; try done; lia.
Qed.

(** ** Tables *)

Lemma append_safe comp s cur : 0 <= cur < 18446744073709551616 → stream_ok (Z.min cur (Z.of_nat (length f))) s →
  safe (λ '(adv, s'), 3 <= adv ∧ cur + adv <= Z.of_nat (length f) ∧ stream_ok (cur + adv) s' ∧ s_base s' = s_base s) (stream_append f comp s cur).
Proof using All.
  intros Hc Ok0. pose proof Ok0 as (Hb & Hl & Hcap & Hd & Hcb & Hn & Hk & Hs & HF). unfold stream_append.
  eapply safe_bind; [apply grow_buf_safe; try done; lia|]. intros c [Hc1 Hc2]. destruct (grow_blocks_ok s _ Ok0 ltac:(lia)) as [G1 G2].
  eapply safe_bind; [by apply metadata_safe|]. intros [off' bs] (M1 & M2 & M3 & M4).
  eapply safe_bind; [apply safe_put; try done; unfold s_len in *; lia|]. intros buf [-> Bb].
  destruct (Z.leb_spec (grow_blocks s) (n_blocks s)); [lia|]. rewrite u64_small by lia.
  assert (i32 (off' - cur) = off' - cur) as -> by (unfold i32; rewrite Z.mod_small; lia).
  cbn. split; [lia|]. split; [lia|]. split; [|done]. unfold stream_ok, s_len, n_blocks in *. cbn [s_buf s_cap c_off d_off cap_blocks].
  rewrite !length_app. cbn [length]. split_and!; try done; try lia.
  apply Forall_app. split; [|constructor; [lia|constructor]]. eapply Forall_impl; [exact HF|]. cbn. lia.
Qed.

Lemma load_loop_safe comp end_ fuel : ∀ s cur, 0 <= cur < 18446744073709551616 → stream_ok (Z.min cur (Z.of_nat (length f))) s →
  cur <= Z.of_nat (length f) < cur + Z.of_nat fuel ∨ (0 < fuel)%nat ∧ Z.of_nat (length f) < cur → safe (stream_ok (Z.of_nat (length f))) (load_loop fuel f comp s cur end_).
Proof using All.
  assert (∀ s cur, stream_ok (Z.min cur (Z.of_nat (length f))) s → stream_ok (Z.of_nat (length f)) s) as Hmin.
  { intros s cur (H1 & H2 & H3 & H4 & H5 & H6 & H7 & H8 & H9). unfold stream_ok. split_and!; try done; lia. }
  induction fuel as [|fuel IH]; intros s cur Hc Hs Hfu; cbn [load_loop]; (destruct (Z.ltb_spec cur end_) as [Hlt|Hge]; [|cbn; by apply (Hmin s cur)]); [lia|].
  eapply safe_bind; [by apply append_safe|]. intros [adv s'] (A1 & A2 & A3 & _). apply safe_fail_if. intros _. rewrite u64_small by lia.
  apply IH; [lia| |lia]. by rewrite Z.min_l by lia.
Qed.

Lemma stream_load_safe comp start end_ : 0 <= start < 18446744073709551616 → safe (stream_ok (Z.of_nat (length f))) (stream_load_range f comp start end_).
Proof using All.
  intros Hs. apply load_loop_safe; [done| |lia]. unfold stream_ok, s_len, n_blocks. cbn. split_and!; try constructor; lia.
Qed.

Lemma table_loop_safe comp cap offs : bytes offs → ∀ n i table, 0 <= i → 8 * (i + Z.of_nat n) <= Z.of_nat (length offs) → bytes table →
  Z.of_nat (length table) <= 8192 * i → 8192 * (i + Z.of_nat n) <= cap → safe bytes (table_loop n f comp cap offs i table).
Proof using All.
  intros Ho. induction n as [|n IH]; intros i table Hi Hn Ht Hl Hc; [exact Ht|]. cbn [table_loop].
  eapply safe_bind; [apply safe_slice; [done|lia|lia|lia]|]. intros o [Lo Bo]. pose proof (le_val_range 8 o Bo Lo) as Hv.
  eapply safe_bind; [by apply metadata_safe|]. intros [_ tmp] (_ & _ & M3 & M4).
  eapply safe_bind; [apply safe_put; try done; lia|]. intros t [-> Bt]. apply IH; try done; try lia. rewrite length_app. lia.
Qed.

Lemma load_table_safe comp start n size : 0 <= start → 0 <= n → 0 < size → n * size < 2 ^ 40 → safe bytes (load_table f comp start n size).
Proof using All.
  intros Hs Hn Hz Hb. unfold load_table. destruct (n =? 0); [constructor|]. assert (0 <= n * size) as H0 by nia. unfold SQFS_METADATA_SIZE. set (nb := (n * size + 8192 - 1) / 8192).
  assert (0 <= nb <= 2 ^ 28) as Hnb by (unfold nb; dlia). eapply safe_bind; [apply raw_safe; lia|]. intros offs (Lo & Bo & _).
  apply table_loop_safe; try done; try lia; constructor.
Qed.

Lemma id_lookup_safe ctx i : bytes (id_table ctx) → id_count ctx = Z.of_nat (length (id_table ctx)) / 4 → 0 <= i → safe (λ v, 0 <= v < 2 ^ 32) (id_lookup ctx i).
Proof using.
  clear. intros Hb Hc Hi. unfold id_lookup. destruct (Z.leb_spec (id_count ctx) i); [cbn; lia|]. assert (i * 4 + 4 <= Z.of_nat (length (id_table ctx))) by dlia.
  eapply safe_bind; [apply safe_slice; [done|lia|lia|lia]|]. intros b [Lb Bb]. exact (le_val_range 4 b Bb Lb).
Qed.

(** ** Opening *)

Record ctx_ok (ctx : sqfs_ctx) : Prop := {
  co_file : s_file ctx = f;
  co_inodes : stream_ok (Z.of_nat (length f)) (inode_stream ctx);
  co_dirs : stream_ok (Z.of_nat (length f)) (dir_stream ctx);
  co_ids : bytes (id_table ctx) ∧ id_count ctx = Z.of_nat (length (id_table ctx)) / 4;
  co_frags : bytes (fragment_index ctx) ∧ fragment_count ctx = Z.of_nat (length (fragment_index ctx)) / 16;
  co_block : 0 < block_size (sb ctx) <= 2 ^ 20;
  co_root : 0 <= root_inode_ref (sb ctx);
  co_used : 0 <= bytes_used (sb ctx) < 18446744073709551616 ∧ 0 <= xattr_id_table_start (sb ctx) < 18446744073709551616;
}.

Lemma sb_of_range h : bytes h →
  0 <= block_size (sb_of h) < 4294967296 ∧ 0 <= sb_id_count (sb_of h) < 65536 ∧ 0 <= fragment_entry_count (sb_of h) < 4294967296 ∧
  0 <= id_table_start (sb_of h) < 18446744073709551616 ∧ 0 <= fragment_table_start (sb_of h) < 18446744073709551616 ∧
  0 <= inode_table_start (sb_of h) < 18446744073709551616 ∧ 0 <= directory_table_start (sb_of h) < 18446744073709551616 ∧
  0 <= bytes_used (sb_of h) < 18446744073709551616 ∧ 0 <= xattr_id_table_start (sb_of h) < 18446744073709551616 ∧ 0 <= root_inode_ref (sb_of h) < 18446744073709551616.
Proof using. clear. intros H. unfold sb_of. cbn. split_and!; first [by apply f16_range|by apply f32_range|by apply f64_range]. Qed.

(** The superblock whose log shifts too far. *)
Definition wild_shift : bool :=
  (96 <=? Z.of_nat (length f)) && (magic (sb_of (sub f 0 96)) =? SQFS_MAGIC) && (32 <=? block_log (sb_of (sub f 0 96))).

Lemma sqfs_open_safe : if wild_shift then sqfs_open (Some f) = Fault else safe ctx_ok (sqfs_open (Some f)).
Proof using All.
  unfold wild_shift, sqfs_open. unfold sqfs_read_raw at 1 2. rewrite (u32_small 96) by lia. change (96 <? 96) with false. change (96 =? 0) with false. change (0 + 96) with 96. cbv iota.
  destruct (Z.leb_spec 96 (Z.of_nat (length f))) as [H96|]; [|exact I]. cbn [andb]. rewrite !bind_ok_eq. change (Z.to_nat 0) with 0%nat. change (Z.to_nat 96) with 96%nat.
  set (h := sub f 0 96). assert (bytes h) as Bh by by apply sub_bytes. clearbody h.
  destruct (magic (sb_of h) =? SQFS_MAGIC) eqn:Em; cbn [negb fail_if andb]; [|exact I]. unfold shl_one.
  destruct (Z.leb_spec 32 (block_log (sb_of h))) as [Hw|Hw]; [rewrite (proj2 (Z.ltb_ge _ _)) by done; reflexivity|]. rewrite (proj2 (Z.ltb_lt _ _)) by done. rewrite bind_ok_eq.
  destruct (sb_of_range h Bh) as (R1 & R2 & R3 & R4 & R5 & R6 & R7 & R8 & R9 & R10). set (s := sb_of h) in *.
  apply safe_fail_if. intros _. apply safe_fail_if. intros _. apply safe_fail_if. intros Eb. unfold bad_block_size in Eb. zbool.
  unfold load_id_table, load_fragment_table.
  eapply safe_bind; [eapply safe_bind; [apply load_table_safe; lia|]; intros t Ht; apply (safe_ok (λ x, bytes (fst x) ∧ snd x = Z.of_nat (length (fst x)) / 4)); by split|].
  intros [ids ni] [Hi Hni]. cbn [fst snd] in Hi, Hni.
  eapply safe_bind; [eapply safe_bind; [apply load_table_safe; lia|]; intros t Ht; apply (safe_ok (λ x, bytes (fst x) ∧ snd x = Z.of_nat (length (fst x)) / 16)); by split|].
  intros [frags nf] [Hfr Hnf]. cbn [fst snd] in Hfr, Hnf.
  eapply safe_bind; [by apply stream_load_safe|]. intros inodes Hin. eapply safe_bind; [by apply stream_load_safe|]. intros dirs Hdi.
  clearbody s. cbn [safe]. constructor; cbn [s_file sb inode_stream dir_stream id_table id_count fragment_index fragment_count]; try done; lia.
Qed.


(** ** The capability attribute *)

Context (ctx : sqfs_ctx) (C : ctx_ok ctx).

Definition cur_ok (c : sqfs_xattr_cursor_t) : Prop :=
  0 <= next_block c < 18446744073709551616 ∧ 0 <= x_end c < 18446744073709551616 ∧ bytes (x_data c) ∧ 0 <= x_pos c <= x_len c.

Lemma xattr_next_safe c : 0 <= next_block c < 18446744073709551616 → 0 <= x_end c < 18446744073709551616 →
  safe (λ c', cur_ok c' ∧ 0 < x_len c' ∧ x_pos c' = 0) (xattr_next_block ctx c).
Proof using All.
  intros Hn He. unfold xattr_next_block. rewrite (co_file ctx C). apply safe_fail_if. intros E. zbool.
  eapply safe_bind; [apply raw_safe; lia|]. intros h (Lh & Bh & _). apply safe_fail_if. intros _.
  eapply safe_bind; [by apply metadata_safe|]. intros [next data] (M1 & M2 & M3 & M4). apply safe_fail_if. intros E2. apply orb_false_iff in E2 as [E2 _]. apply Z.eqb_neq in E2.
  cbn. unfold cur_ok, x_len. cbn. split_and!; try done; lia.
Qed.

Lemma xattr_start_safe start end_ off : 0 <= start < 18446744073709551616 → 0 <= end_ < 18446744073709551616 → 0 <= off →
  safe cur_ok (xattr_cursor_start ctx start end_ off).
Proof using All.
  intros Hs He Ho. unfold xattr_cursor_start. apply safe_fail_if. intros _. eapply safe_bind; [by apply xattr_next_safe|]. intros c ((H1 & H2 & H3 & H4) & H5 & H6).
  apply safe_fail_if. intros E. zbool. cbn. unfold cur_ok, set_pos, x_len in *. cbn. split_and!; try done; lia.
Qed.

Lemma xattr_read_safe c size : cur_ok c → 0 <= size → safe (λ '(bs, c'), Z.of_nat (length bs) = size ∧ bytes bs ∧ cur_ok c') (xattr_read ctx c size).
Proof using All.
  intros Hc Hs. unfold xattr_read. assert (size <= Z.of_nat (Z.to_nat size)) as Hf' by lia. revert Hf'. generalize (Z.to_nat size) as fuel. intros fuel Hfuel.
  revert c size Hc Hs Hfuel. induction fuel as [|fuel IH]; intros c size Hc Hs Hfu; cbn [xattr_loop]; (destruct (Z.eqb_spec size 0) as [->|]; [cbn; split_and!; [done|constructor|done..]|]); [lia|].
  apply (safe_bind (λ c', cur_ok c' ∧ x_pos c' < x_len c')).
  - destruct (Z.eqb_spec (x_pos c) (x_len c)); [|cbn; split; [done|]; destruct Hc as (_ & _ & _ & ?); lia].
    destruct Hc as (H1 & H2 & _). eapply safe_mono; [by apply xattr_next_safe|]. cbn. intros c' (? & ? & ?). split; [done|lia].
  - intros c' [(H1 & H2 & H3 & H4) H5]. eapply safe_bind; [apply safe_slice; [done|lia|lia|unfold x_len in *; lia]|]. intros bs [Lb Bb].
    eapply safe_bind; [apply IH; [unfold cur_ok, set_pos, x_len in *; cbn; split_and!; try done; lia|lia|lia]|]. intros [rest c2] (L2 & B2 & C2). cbn. rewrite length_app. split_and!; [lia|by apply Forall_app|done].
Qed.

(** Read [size] bytes in a goal about the rest. *)
Ltac read_next c' := eapply safe_bind; [apply xattr_read_safe; [done|lia]|]; let b := fresh "b" in intros [b c'] (? & ? & ?).

Lemma capability_value_safe c a0 vs start end_ : cur_ok c → 0 <= vs → 0 <= end_ < 18446744073709551616 →
  safe (λ v, Z.of_nat (length v) ∈ [12; 20; 24]) (capability_value ctx c a0 vs start end_).
Proof using All.
  intros Hc Hv He. unfold capability_value. apply (safe_bind (λ '(v, c'), 0 <= v ∧ cur_ok c')).
  - destruct (negb _); [|done]. read_next c1. apply safe_fail_if. intros _. assert (0 <= le_val b < 256 ^ 8) as Hb by by apply le_val_range.
    eapply safe_bind; [apply xattr_start_safe; [apply u64_range|done|apply Z.land_nonneg; lia]|]. intros c2 C2. read_next c3. cbn. split; [|done]. by apply (le_val_range 4).
  - intros [v c'] [Hv' Hc']. apply safe_fail_if. intros E. apply andb_false_iff in E. rewrite andb_false_iff, !negb_false_iff, !Z.eqb_eq in E. read_next c2. cbn. rewrite !elem_of_cons. lia.
Qed.

Lemma xattr_scan_safe start end_ n : 0 <= end_ < 18446744073709551616 → ∀ c, cur_ok c →
  safe (λ v, ∀ x, v = Some x → Z.of_nat (length x) ∈ [12; 20; 24]) (xattr_scan n ctx c start end_).
Proof using All.
  intros He. induction n as [|n IH]; intros c Hc; [done|]. cbn [xattr_scan]. read_next c1. apply safe_fail_if. intros _.
  pose proof (f16_range b 2 ltac:(done)). read_next c2.
  eapply (safe_bind bytes); [|intros nm _].
  { destruct (_ && _) eqn:Em; [|done]. apply andb_true_iff in Em as [_ Em]. apply Z.eqb_eq in Em. eapply safe_mono; [apply safe_put; [constructor|done|cbn; unfold NAME_BUF; lia]|]. by intros ? [_ ?]. }
  read_next c3. pose proof (le_val_range 4 b1 ltac:(done) ltac:(done)). apply safe_fail_if. intros _.
  destruct (_ || _).
  - read_next c4. by apply IH.
  - eapply safe_bind; [apply capability_value_safe; [done|lia|done]|]. cbn. intros v Hv x [= <-]. exact Hv.
Qed.

Lemma capability_safe e : 0 <= e_xattr_idx e → safe (λ v, ∀ x, v = Some x → Z.of_nat (length x) ∈ [12; 20; 24]) (sqfs_read_capability ctx e).
Proof using All.
  intros Hx. unfold sqfs_read_capability. destruct (_ || _); [done|]. destruct (co_used ctx C) as [U1 U2]. apply safe_fail_if. intros E. zbool. rewrite (co_file ctx C).
  eapply safe_bind; [apply raw_safe; lia|]. intros t (Lt & Bt & _). pose proof (f64_range t 0 Bt). pose proof (f32_range t 8 Bt). apply safe_fail_if. intros E2. zbool. apply safe_fail_if. intros _.
  eapply safe_bind; [apply raw_safe; [apply u64_range|lia|lia]|]. intros b1 (L1 & B1 & _). eapply safe_bind; [apply raw_safe; [apply u64_range|lia|lia]|]. intros b2 (L2 & B2 & _).
  pose proof (le_val_range 8 b1 B1 L1). pose proof (le_val_range 8 b2 B2 L2). apply safe_fail_if. intros E3.
  eapply safe_bind; [apply xattr_start_safe; [lia|lia|apply Z.mod_pos_bound; unfold SQFS_METADATA_SIZE; lia]|]. intros c Hc. read_next c1. apply safe_fail_if. intros _.
  pose proof (f64_range b 0 ltac:(done)).
  eapply safe_bind; [apply xattr_start_safe; [apply u64_range|lia|apply Z.land_nonneg; lia]|]. intros c2 C2. apply xattr_scan_safe; [lia|done].
Qed.

(** ** The contents of a file *)

Lemma read_block_safe g bs logical remaining disk : 0 <= bs → 0 <= logical → 0 <= disk →
  safe (λ '(b, n), Z.of_nat (length b) = logical ∧ bytes b ∧ logical <= remaining) (fst (read_block ctx g bs logical remaining disk)).
Proof using All.
  intros Hb Hl Hd. unfold read_block. pose proof (land_ones_range bs 0x00ffffff 24 Hb eq_refl ltac:(lia)) as Hn. set (n := Z.land bs 0x00ffffff) in *. clearbody n. rewrite (co_file ctx C).
  destruct (Z.ltb_spec remaining logical); [exact I|]. destruct (n =? 0).
  { cbn. split_and!; [rewrite length_replicate; lia| |done]. apply Forall_replicate. unfold is_byte. lia. }
  destruct (negb (Z.land bs 0x01000000 =? 0)).
  - destruct (Z.eqb_spec n logical) as [->|]; [|exact I]. cbn [negb fst]. eapply safe_bind; [apply raw_safe; lia|]. intros b (Lb & Bb & _). cbn. by split_and!.
  - pose proof (raw_safe disk n n Hd ltac:(lia) ltac:(lia)) as Hr. destruct (sqfs_read_raw f disk n n) as [cbuf| | |]; [|exact I|destruct Hr|destruct Hr]. destruct Hr as (_ & Bc & _).
    pose proof (data_decompress_safe g cbuf logical Bc Hl) as Hdd. destruct (data_decompress g cbuf logical) as [o g']. cbn [fst] in *.
    eapply safe_bind; [exact Hdd|]. intros got [Lg Bg]. apply safe_fail_if. intros E. zbool. cbn. by split_and!.
Qed.

Lemma inodes_bytes : bytes (s_buf (inode_stream ctx)).
Proof using C. apply (co_inodes ctx C). Qed.

Lemma block_loop_safe sizes n_full tail fsize n : 0 <= tail → ∀ g i disk out, 0 <= i → 0 <= sizes → sizes + 4 * (i + Z.of_nat n) <= s_len (inode_stream ctx) →
  0 <= disk → bytes out → Z.of_nat (length out) <= fsize →
  safe (λ r, bytes r ∧ Z.of_nat (length r) <= fsize ∧ (i + Z.of_nat n <= n_full → Z.of_nat (length r) = Z.of_nat (length out) + Z.of_nat n * block_size (sb ctx)))
    (fst (file_loop n ctx g sizes i n_full tail fsize disk out)).
Proof using All.
  intros Ht. induction n as [|n IH]; intros g i disk out Hi Hs Hn Hd Ho Hl; [cbn; split_and!; [done|done|lia]|]. cbn [file_loop].
  pose proof (safe_slice (s_buf (inode_stream ctx)) (sizes + i * 4) 4 inodes_bytes ltac:(lia) ltac:(lia) ltac:(unfold s_len in *; lia)) as Hsl.
  rewrite slice_ok in Hsl |- * by (unfold s_len in *; lia). set (b := sub (s_buf _) _ _) in *. clearbody b. destruct Hsl as [Lb Bb]. pose proof (le_val_range 4 b Bb Lb) as Hv. pose proof (co_block ctx C) as Hbz.
  set (logical := if i <? n_full then block_size (sb ctx) else tail). assert (0 <= logical) as Hlog by (unfold logical; destruct (i <? n_full); lia).
  pose proof (read_block_safe g (le_val b) logical (fsize - Z.of_nat (length out)) disk ltac:(lia) Hlog Hd) as Hr. destruct (read_block _ _ _ _ _ _) as [o g']. cbn [fst] in Hr.
  destruct o as [[bs od]| | |]; [|done..]. destruct Hr as (L1 & B1 & R1). assert (put_in fsize out bs = Ok (out ++ bs)) as -> by (unfold put_in; by rewrite (proj2 (Z.ltb_ge _ _)) by lia).
  eapply safe_mono; [apply IH; [lia|done|lia|apply u64_range|by apply Forall_app|rewrite length_app; lia]|]. cbn beta. intros r (R2 & R3 & R4). split_and!; [done|done|]. intros Hf'.
  rewrite R4, length_app by lia. unfold logical in L1. rewrite (proj2 (Z.ltb_lt i n_full)) in L1 by lia. lia.
Qed.

Lemma read_fragment_safe g fi fo tail : 0 <= fi → 0 <= fo → 0 <= tail →
  safe (λ t, Z.of_nat (length t) = tail ∧ bytes t) (fst (read_fragment ctx g fi fo tail)).
Proof using All.
  intros H1 H2 H3. unfold read_fragment. destruct (co_frags ctx C) as [Bf Cf]. destruct (Z.leb_spec (fragment_count ctx) fi); [exact I|].
  pose proof (safe_slice (fragment_index ctx) (fi * 16) 16 Bf ltac:(lia) ltac:(lia) ltac:(dlia)) as Hs. rewrite slice_ok in Hs |- * by dlia. set (fe := sub (fragment_index _) _ _) in *. clearbody fe. destruct Hs as [_ Be].
  pose proof (f32_range fe 8 Be) as R8. pose proof (f64_range fe 0 Be) as R0. rewrite (co_file ctx C).
  pose proof (land_ones_range (f32 fe 8) 0x00ffffff 24 ltac:(lia) eq_refl ltac:(lia)) as Hn. set (n := Z.land (f32 fe 8) 0x00ffffff) in *. clearbody n.
  pose proof (raw_safe (f64 fe 0) n n ltac:(lia) ltac:(lia) ltac:(lia)) as Hr. destruct (sqfs_read_raw f _ n n) as [fb| | |]; [|done..]. destruct Hr as (_ & Bb & _).
  set (r := if negb _ then (Ok fb, g) else _). assert (safe bytes (fst r)) as Hd.
  { unfold r. destruct (negb _); [done|]. eapply safe_mono; [apply data_decompress_safe; [done|]|by intros ? [_ ?]]. destruct (co_block ctx C). lia. }
  destruct r as [o g']. cbn [fst] in *. eapply safe_bind; [exact Hd|]. intros fd Bd. apply safe_fail_if. intros E. zbool. apply safe_slice; try done; lia.
Qed.

Lemma file_inode_safe off : 0 <= off → off + 16 <= s_len (inode_stream ctx) →
  safe (λ '(sizes, avail, (st, sz, fi, fo)), 0 <= sizes ∧ 0 <= avail ∧ sizes + 4 * avail <= s_len (inode_stream ctx) ∧ 0 <= st ∧ 0 <= sz ∧ 0 <= fi ∧ 0 <= fo) (file_inode ctx off).
Proof using All.
  intros Ho Hl. unfold file_inode. pose proof inodes_bytes as Bi. eapply safe_bind; [apply safe_slice; [done|lia|lia|unfold s_len in *; lia]|]. intros h [_ Bh].
  apply safe_fail_if. intros _. unfold s_len in *. destruct (_ =? SQFS_REG_TYPE).
  - apply safe_fail_if. intros E. zbool. eapply safe_bind; [apply safe_slice; [done|lia|lia|lia]|]. intros b [_ Bb]. cbn.
    pose proof (f32_range b 0 Bb). pose proof (f32_range b 12 Bb). pose proof (f32_range b 4 Bb). pose proof (f32_range b 8 Bb). split_and!; dlia.
  - destruct (_ =? SQFS_EREG_TYPE); [|exact I]. apply safe_fail_if. intros E. zbool. eapply safe_bind; [apply safe_slice; [done|lia|lia|lia]|]. intros b [_ Bb]. cbn.
    pose proof (f64_range b 0 Bb). pose proof (f64_range b 8 Bb). pose proof (f32_range b 28 Bb). pose proof (f32_range b 32 Bb). split_and!; dlia.
Qed.

(** The size a result must have. *)
Definition inode_size (off size : Z) : Prop := ∀ x st sz fi fo, file_inode ctx off = Ok (x, (st, sz, fi, fo)) → sz = size.

Lemma read_file_safe g e : 0 <= e_file_inode_off e → e_file_inode_off e + 16 <= s_len (inode_stream ctx) → inode_size (e_file_inode_off e) (e_size e) →
  safe (λ out, Z.of_nat (length out) = e_size e ∧ bytes out) (fst (sqfs_read_file ctx g e)).
Proof using All.
  intros Ho Hl Hsz. unfold sqfs_read_file. pose proof (file_inode_safe _ Ho Hl) as Hi. unfold inode_size in Hsz.
  destruct (file_inode ctx (e_file_inode_off e)) as [[[sizes avail] [[[st sz] fi] fo]]| | |]; [|done..]. destruct Hi as (I1 & I2 & I3 & I4 & I5 & I6 & I7).
  specialize (Hsz (sizes, avail) st sz fi fo eq_refl) as <-. pose proof (co_block ctx C) as Hb. destruct (Z.eqb_spec (block_size (sb ctx)) 0); [lia|].
  remember (block_size (sb ctx)) as bz eqn:Ebz. assert (0 <= sz / bz) by (apply Z.div_pos; lia). pose proof (Z.mod_pos_bound sz bz ltac:(lia)) as Hm.
  set (frag := negb (fi =? 0xffffffff)). set (nb := if frag then sz / bz else sz / bz + (if sz mod bz =? 0 then 0 else 1)).
  assert (0 <= nb ∧ (frag = true → nb = sz / bz)) as [Hnb Hnf] by (unfold nb; split; [destruct frag, (sz mod bz =? 0); lia|by intros ->]). clearbody nb frag.
  destruct (Z.ltb_spec avail nb); [exact I|].
  pose proof (block_loop_safe sizes (sz / bz) (sz mod bz) sz (Z.to_nat nb) ltac:(lia) g 0 st [] ltac:(lia) I1 ltac:(lia) I4 ltac:(constructor) I5) as Hbl.
  destruct (file_loop _ _ _ _ _ _ _ _ _ _) as [o g']. cbn [fst] in Hbl. destruct o as [out| | |]; [|done..]. destruct Hbl as (Bo & Lo & Le).
  pose proof (Z.div_mod sz bz ltac:(lia)) as Hdm.
  set (r := if frag && (0 <? sz mod bz) then _ else _).
  assert (safe (λ t, bytes t ∧ Z.of_nat (length out) + Z.of_nat (length t) <= sz) (fst r)) as Hfr.
  { unfold r. destruct frag; cbn [andb]; [|cbn; split; [constructor|lia]]. destruct (Z.ltb_spec 0 (sz mod bz)); [|cbn; split; [constructor|lia]].
    eapply safe_mono; [apply read_fragment_safe; lia|]. cbn. intros t [Lt Bt]. split; [done|]. specialize (Hnf eq_refl). rewrite Le by lia. rewrite Z2Nat.id, Hnf, <- Ebz by done. cbn [length]. lia. }
  destruct r as [o g2]. cbn [fst] in *. eapply safe_bind; [exact Hfr|]. intros t [Bt Lt]. eapply safe_bind; [apply safe_put; [done|done|exact Lt]|]. intros r2 [-> B2].
  apply safe_fail_if. intros E. zbool. by split.
Qed.

(** ** The walk *)

(** What holds of every entry the walk reports. *)
Record entry_ok (e : sqfs_entry_t) : Prop := {
  eo_off : 0 <= e_file_inode_off e ∧ e_file_inode_off e + 16 <= s_len (inode_stream ctx);
  eo_size : inode_size (e_file_inode_off e) (e_size e);
  eo_path : Z.of_nat (length (e_path e)) < PATH_BUF;
  eo_target : ∀ t, e_symlink_target e = Some t → Z.of_nat (length t) = e_size e;
  eo_xattr : 0 <= e_xattr_idx e;
}.

Section walk.
Context {U : Type} (cb : sqfs_entry_t → U → Z * U) (P : U → Prop) (Hcb : ∀ e u, entry_ok e → P u → P (snd (cb e u))).

(** A state, with the path and depth a step has to give back. *)
Definition wok (path : list Z) (depth : Z) (w : walk_state U) : Prop :=
  P (w_user w) ∧ w_path w = path ∧ w_depth w = depth ∧ Z.of_nat (length path) < PATH_BUF.
Definition steps_back (w : walk_state U) (child : Z → walk_state U → outcome (Z * walk_state U)) : Prop := ∀ ref path,
  0 <= ref → ∀ w', wok path (w_depth w) w' → safe (λ '(_, w2), wok path (w_depth w) w2) (child ref w').

Lemma report_ok e w path depth : entry_ok e → wok path depth w → wok path depth (report cb e w).
Proof using Hcb. intros He (H1 & H2 & H3 & H4). unfold report. destruct (w_cb_rc w =? 0); [|by split_and!]. specialize (Hcb e (w_user w) He H1). destruct (cb e (w_user w)) as [rc u]. unfold wok. cbn in *. by split_and!. Qed.

Lemma count_ok k w path depth : wok path depth w → wok path depth (count k w).
Proof using. clear. done. Qed.

Lemma push_ok w name path depth : wok path depth w → safe (λ w', wok (w_path w') depth w' ∧ take (length path) (w_path w') = path) (path_push w name).
Proof using.
  clear. intros (H1 & H2 & H3 & H4). unfold path_push. subst path. destruct (Z.ltb_spec PATH_BUF (Z.of_nat (length (w_path w)) + 1 + Z.of_nat (length name) + 1)).
  - cbn [safe]. split; [by split_and!|]. by apply take_ge.
  - match goal with |- context [if ?b then w_path w ++ [47] else w_path w] => set (q := if b then w_path w ++ [47] else w_path w) end. assert (Z.of_nat (length q) <= Z.of_nat (length (w_path w)) + 1) as Hq by (unfold q; destruct (_ || _ || _); [rewrite length_app; cbn [length]|]; lia).
    assert (take (length (w_path w)) (q ++ name) = w_path w) as Ht by (unfold q; destruct (_ || _ || _); [rewrite <- app_assoc|]; by rewrite take_app_length). clearbody q.
    unfold put_in. rewrite length_app. cbn [length]. rewrite (proj2 (Z.ltb_ge _ _)) by lia. cbn. unfold wok. cbn [w_user w_path w_depth with_path]. split_and!; try done. rewrite length_app. lia.
Qed.

Lemma entry_loop_safe child buf start end_ n : bytes buf → end_ <= Z.of_nat (length buf) → 0 <= start → ∀ p w path depth,
  wok path depth w → steps_back w child → 0 <= p →
  safe (λ '(_, p', w'), wok path depth w' ∧ p <= p') (entry_loop child n buf start end_ p w).
Proof using All.
  intros Hb He Hst. induction n as [|n IH]; intros p w path depth Hw Hc Hp; [cbn; split; [done|lia]|]. cbn [entry_loop].
  destruct (Z.ltb_spec end_ (p + 8)); [cbn; split; [done|lia]|]. eapply safe_bind; [apply safe_slice; [done|lia|lia|lia]|]. intros de [_ Bd].
  pose proof (f16_range de 6 Bd) as R6. pose proof (f16_range de 0 Bd) as R0. set (nl := f16 de 6 + 1) in *. destruct (Z.ltb_spec end_ (p + 8 + nl)); [cbn; split; [done|lia]|].
  eapply safe_bind; [apply safe_slice; [done|lia|destruct (nl <? 255); lia|destruct (Z.ltb_spec nl 255); lia]|]. intros name [Ln Bn].
  eapply safe_bind; [apply safe_put; [exact Bn|constructor; [unfold is_byte; lia|constructor]|unfold ENTRY_NAME_BUF; cbn [length]; destruct (Z.ltb_spec nl 255); lia]|]. intros _ _.
  pose proof Hw as (_ & E2 & E3 & _). eapply safe_bind; [apply (push_ok w name path depth Hw)|]. intros w1 [Hw1 Ht].
  eapply safe_bind; [apply (Hc _ (w_path w1)); [|rewrite E3; exact Hw1]|].
  { apply Z.lor_nonneg. split; [apply u64_range|lia]. }
  intros [rc w2] (W1 & W2 & W3 & W4). set (w3 := path_pop w2 _). assert (wok path depth w3) as Hw3.
  { unfold w3, path_pop. destruct Hw as (_ & _ & _ & ?). unfold wok. cbn [w_user w_path w_depth with_path]. split_and!; try done; [|by rewrite W3, <- E3]. rewrite E2, Nat2Z.id, W2. exact Ht. }
  destruct (negb (rc =? 0)); [cbn; split; [done|lia]|]. destruct (negb (w_cb_rc w3 =? 0)); [cbn; split; [done|lia]|].
  eapply safe_mono; [apply (IH _ w3 path depth Hw3)|]; [|lia|].
  - intros ref path' Hr w' Hw'. destruct Hw3 as (_ & _ & D3 & _). rewrite D3, <- E3 in *. by apply Hc.
  - intros [[? p'] w'] [? ?]. split; [done|lia].
Qed.

Lemma dir_loop_safe child buf end_ fuel : bytes buf → end_ <= Z.of_nat (length buf) → ∀ p w path depth, wok path depth w → steps_back w child → 0 <= p →
  end_ - p <= Z.of_nat fuel → safe (λ '(_, w'), wok path depth w') (dir_loop fuel child buf end_ p w).
Proof using All.
  intros Hb He. induction fuel as [|fuel IH]; intros p w path depth Hw Hc Hp Hf'; cbn [dir_loop]; (destruct (Z.ltb_spec p end_); [|exact Hw]); [lia|].
  destruct (Z.ltb_spec end_ (p + 12)); [exact Hw|]. eapply safe_bind; [apply safe_slice; [done|lia|lia|lia]|]. intros dh [_ Bd].
  pose proof (f32_range dh 4 Bd). eapply safe_bind; [apply (entry_loop_safe child buf (f32 dh 4) end_ _ Hb He ltac:(lia) (p + 12) w path depth Hw Hc ltac:(lia))|].
  intros [[rc p'] w'] [Hw' Hp']. destruct (negb (rc =? 0)); [exact Hw'|]. apply IH; try done; try lia.
  intros ref path' Hr w2 Hw2. destruct Hw as (_ & _ & D & _). destruct Hw' as (_ & _ & D' & _). rewrite D', <- D in *. by apply Hc.
Qed.

Lemma resolve_range s c b d : stream_ok (Z.of_nat (length f)) s → 0 <= b → stream_resolve s c b = Some d → 0 <= d.
Proof using.
  clear. intros (_ & _ & _ & _ & _ & _ & _ & _ & HF) Hb. unfold stream_resolve. revert HF. generalize (d_off s) (c_off s). intros ds cs. revert ds. induction cs as [|x cs IH]; intros ds HF; cbn [resolve_in]; [done|].
  destruct ds as [|y ds]; [done|]. apply Forall_cons in HF as [H1 H2]. destruct (x =? c); [intros [= <-]; lia|by apply IH].
Qed.

Lemma walk_directory_safe child b o n w path depth : 0 <= o → wok path depth w → steps_back w child → safe (λ '(_, w'), wok path depth w') (walk_directory ctx child b o n w).
Proof using All.
  intros Ho Hw Hc. unfold walk_directory. pose proof (co_dirs ctx C) as Hs. destruct (stream_resolve _ b o) as [d|] eqn:E; [|exact Hw]. apply (resolve_range _ _ _ _ Hs Ho) in E.
  destruct (Z.ltb_spec (s_len (dir_stream ctx)) d); [exact Hw|]. destruct (Z.ltb_spec n 3); [exact Hw|]. destruct Hs as (Bb & _). unfold s_len in *. apply dir_loop_safe; try done; lia.
Qed.

Lemma read_inode_safe ref : 0 <= ref → safe (λ '(p, hdr), 0 <= p ∧ p + 16 <= s_len (inode_stream ctx) ∧
  ∃ h, slice (s_buf (inode_stream ctx)) p 16 = Ok h ∧ bytes h ∧ hdr = hdr_of h) (read_inode_common ctx ref).
Proof using C.
  intros Hr. unfold read_inode_common. destruct (stream_resolve _ _ _) as [d|] eqn:E; [|exact I]. apply (resolve_range _ _ _ _ (co_inodes ctx C)) in E; [|apply Z.land_nonneg; lia].
  apply safe_fail_if. intros E2. zbool. eapply safe_bind; [apply safe_eq, safe_slice; [apply inodes_bytes|done|lia|unfold s_len in *; lia]|]. intros h [[_ Bh] Eh]. cbn. split_and!; try done. by exists h.
Qed.

Lemma size_other p h : slice (s_buf (inode_stream ctx)) p 16 = Ok h → h_type (hdr_of h) ≠ SQFS_REG_TYPE → h_type (hdr_of h) ≠ SQFS_EREG_TYPE → ∀ n, inode_size p n.
Proof using. clear. intros E H1 H2 n x st sz fi fo. unfold file_inode. rewrite E, bind_ok_eq, (proj2 (Z.eqb_neq _ _) H1), (proj2 (Z.eqb_neq _ _) H2). unfold fail_if. by destruct (_ <? _). Qed.

Lemma size_basic p h b : slice (s_buf (inode_stream ctx)) p 16 = Ok h → h_type (hdr_of h) = SQFS_REG_TYPE → slice (s_buf (inode_stream ctx)) (p + 16) 16 = Ok b → inode_size p (f32 b 12).
Proof using. clear. intros E H1 H2 x st sz fi fo. unfold file_inode. rewrite E, bind_ok_eq, H1, H2. unfold fail_if. destruct (_ <? _); [done|]. cbn. destruct (_ <? _); [done|]. cbn. by intros [= _ _ <- _ _]. Qed.

Lemma size_ext p h b : slice (s_buf (inode_stream ctx)) p 16 = Ok h → h_type (hdr_of h) = SQFS_EREG_TYPE → slice (s_buf (inode_stream ctx)) (p + 16) 40 = Ok b → inode_size p (f64 b 8).
Proof using. clear. intros E H1 H2 x st sz fi fo. unfold file_inode. rewrite E, bind_ok_eq, H1, H2. unfold fail_if. destruct (_ <? _); [done|]. cbn. destruct (_ <? _); [done|]. cbn. by intros [= _ _ <- _ _]. Qed.

Lemma leaf_safe k e w path depth : entry_ok e → wok path depth w → safe (λ '(_, w'), wok path depth w') (leaf cb k e w).
Proof using Hcb. intros He Hw. unfold leaf. cbn. apply count_ok. by apply report_ok. Qed.

(** The next field of the body of an inode. *)
Ltac body_field b := eapply safe_bind; [apply safe_eq, safe_slice; [apply inodes_bytes|lia|lia|unfold s_len in *; lia]|]; let E := fresh "Eb" in intros b [[? ?] E].

Lemma walk_inode_safe n : ∀ ref w path depth, 0 <= ref → wok path depth w → 64 <= depth + Z.of_nat n → safe (λ '(_, w'), wok path depth w') (walk_inode ctx cb (S n) ref w).
Proof using All.
  assert (∀ fuel ref w path depth, 0 <= ref → wok path depth w →
    (∀ d, d = depth + 1 → depth < 64 → ∀ r p w', 0 <= r → wok p d w' → safe (λ '(_, w2), wok p d w2) (walk_inode ctx cb fuel r w')) →
    safe (λ '(_, w'), wok path depth w') (walk_inode ctx cb (S fuel) ref w)) as Hstep.
  2:{ induction n as [|n IH]; intros ref w path depth Hr Hw Hd; apply Hstep; try done; [lia|]. intros d -> Hlt r p w' Hr' Hw'. apply IH; try done. lia. }
  intros fuel ref w path depth Hr Hw Hrec. cbn [walk_inode]. pose proof Hw as (H1 & H2 & H3 & H4). unfold WALK_MAX_DEPTH. destruct (Z.leb_spec 64 (w_depth w)) as [|Hlt]; [exact Hw|].
  eapply safe_catch; [by apply read_inode_safe|exact Hw|]. intros [p hdr] (Hp & Hl & h & Eh & Bh & ->). destruct (co_ids ctx C) as [I1 I2].
  eapply safe_bind; [apply id_lookup_safe; try done; apply (f16_range h 4 Bh)|]. intros uid _. eapply safe_bind; [apply id_lookup_safe; try done; apply (f16_range h 6 Bh)|]. intros gid _.
  set (avail := s_len (inode_stream ctx) - (p + 16)). assert (0 <= s_len (inode_stream ctx)) by (unfold s_len; lia).
  assert (∀ size rdev x target, inode_size p size → (∀ t, target = Some t → Z.of_nat (length t) = size) → 0 <= x → entry_ok (make_entry (hdr_of h) p uid gid size rdev x target w)) as He.
  { intros size rdev x target Hs Ht Hx. constructor; cbn; try done. by rewrite H2. }
  assert (∀ size (fields : list Z → Z * Z * Z), 0 <= size → h_type (hdr_of h) ≠ SQFS_REG_TYPE → h_type (hdr_of h) ≠ SQFS_EREG_TYPE →
    (∀ b, bytes b → 0 <= snd (fst (fields b))) →
    safe (λ '(_, w'), wok path depth w') (if avail <? size then Ok (-1, w) else b ← slice (s_buf (inode_stream ctx)) (p + 16) size;
      let '(block_idx, block_offset, file_size) := fields b in
      if negb (w_cb_rc (report cb (make_entry (hdr_of h) p uid gid 0 0 UINT32_MAX None w) w) =? 0)
      then Ok (w_cb_rc (report cb (make_entry (hdr_of h) p uid gid 0 0 UINT32_MAX None w) w), report cb (make_entry (hdr_of h) p uid gid 0 0 UINT32_MAX None w) w)
      else '(rc, w0) ← walk_directory ctx (walk_inode ctx cb fuel) block_idx block_offset file_size
             (set_depth (count ADir (report cb (make_entry (hdr_of h) p uid gid 0 0 UINT32_MAX None w) w))
                (w_depth (count ADir (report cb (make_entry (hdr_of h) p uid gid 0 0 UINT32_MAX None w) w)) + 1));
           Ok (rc, set_depth w0 (w_depth w0 - 1)))) as Hdir.
  { intros size fields Hs N1 N2 Hfl. unfold avail. destruct (Z.ltb_spec (s_len (inode_stream ctx) - (p + 16)) size); [exact Hw|]. body_field b. specialize (Hfl b ltac:(done)).
    destruct (fields b) as [[bi bo] fs]. cbn [fst snd] in Hfl.
    pose proof (report_ok _ w path depth (He 0 0 UINT32_MAX None (size_other p h Eh N1 N2 0) ltac:(done) ltac:(by vm_compute)) Hw) as Hr1. set (w1 := report cb _ w) in *. clearbody w1.
    destruct (negb _); [exact Hr1|]. destruct Hr1 as (G1 & G2 & G3 & G4).
    eapply safe_bind; [apply (walk_directory_safe _ bi bo fs _ path (depth + 1) Hfl)|].
    - unfold wok. cbn. rewrite G3. by split_and!.
    - intros ref' path' Hr' w' Hw'. cbn [set_depth count w_depth] in *. rewrite G3 in *. apply Hrec; try done. lia.
    - intros [rc w2] (K1 & K2 & K3 & K4). unfold wok. cbn. split_and!; try done. lia. }
  destruct (Z.eqb_spec (h_type (hdr_of h)) SQFS_DIR_TYPE) as [E1|E1]; [apply (Hdir 16 basic_dir); [lia|by rewrite E1..|intros b Bb; apply (f16_range b 10 Bb)]|].
  destruct (Z.eqb_spec (h_type (hdr_of h)) SQFS_EDIR_TYPE) as [E2|E2]; [apply (Hdir 24 ext_dir); [lia|by rewrite E2..|intros b Bb; apply (f16_range b 18 Bb)]|].
  destruct (Z.eqb_spec (h_type (hdr_of h)) SQFS_REG_TYPE) as [E3|E3].
  { unfold avail. destruct (Z.ltb_spec (s_len (inode_stream ctx) - (p + 16)) 16); [exact Hw|]. body_field b. cbn. apply leaf_safe; [|done]. apply He; [by apply (size_basic p h b)|done|by vm_compute]. }
  destruct (Z.eqb_spec (h_type (hdr_of h)) SQFS_EREG_TYPE) as [E4|E4].
  { unfold avail. destruct (Z.ltb_spec (s_len (inode_stream ctx) - (p + 16)) 40); [exact Hw|]. body_field b. cbn. apply leaf_safe; [|done]. apply He; [by apply (size_ext p h b)|done|apply f32_range; done]. }
  pose proof (size_other p h Eh E3 E4) as Hso.
  destruct (_ || _).
  { unfold avail. destruct (Z.ltb_spec (s_len (inode_stream ctx) - (p + 16)) 8); [exact Hw|]. body_field b. pose proof (f32_range b 4 ltac:(done)). destruct (Z.ltb_spec (s_len (inode_stream ctx) - (p + 16)) (8 + f32 b 4)); [exact Hw|].
    body_field tg. apply leaf_safe; [|done]. apply He; [apply Hso|by intros t [= <-]|by vm_compute]. }
  destruct (_ || _).
  { unfold avail. destruct (Z.ltb_spec (s_len (inode_stream ctx) - (p + 16)) 8); [exact Hw|]. body_field b. apply leaf_safe; [|done]. apply He; [apply Hso|done|by vm_compute]. }
  destruct (_ || _); [|exact Hw]. apply leaf_safe; [|done]. apply He; [apply Hso|done|by vm_compute].
Qed.

Lemma walk_safe u : 0 <= root_inode_ref (sb ctx) → P u → safe (λ '(_, u'), P u') (sqfs_walk ctx cb u).
Proof using All.
  intros Hr Hu. unfold sqfs_walk. eapply safe_bind; [apply (walk_inode_safe 64 _ _ [] 0 Hr); [unfold wok, PATH_BUF; cbn; split_and!; done|lia]|]. intros [rc w] (H1 & _). exact H1.
Qed.
End walk.
End file.

(** C11. Reading an image is safe whatever its bytes.  Opening it never spins,
    and meets undefined behaviour exactly when the superblock has the magic
    number and a [block_log] of 32 or more (the shift in the log line).  On an
    opened image the walk comes to an end with every callback, inside its
    buffers, those of the path and of an entry's name included, and reports only entries whose inode, path and link target are
    inside theirs; reading the file of such an entry gives an error or exactly
    the size reported, and reading its capability an error, nothing, or 12, 20
    or 24 bytes. *)
Theorem sqfs_safe (f : list Z) : bytes f → Z.of_nat (length f) < 2 ^ 48 →
  (sqfs_open (Some f) = Fault ↔ wild_shift f = true) ∧ sqfs_open (Some f) ≠ Spin ∧
  ∀ ctx, sqfs_open (Some f) = Ok ctx →
    (∀ U (cb : sqfs_entry_t → U → Z * U) (P : U → Prop) u, (∀ e u, entry_ok ctx e → P u → P (snd (cb e u))) → P u →
       safe (λ '(_, u'), P u') (sqfs_walk ctx cb u)) ∧
    ∀ e, entry_ok ctx e →
      (∀ g, safe (λ data, Z.of_nat (length data) = e_size e) (fst (sqfs_read_file ctx g e))) ∧
      safe (λ v, ∀ x, v = Some x → Z.of_nat (length x) ∈ [12; 20; 24]) (sqfs_read_capability ctx e).
Proof.
  intros Hf Hlen. pose proof (sqfs_open_safe f Hf Hlen) as Ho. destruct (wild_shift f); [rewrite Ho; by split_and!|].
  destruct (sqfs_open (Some f)) as [ctx|rc| |]; cbn [safe] in Ho; [|by split_and!|done|done]. split; [by split|]. split; [done|]. intros ctx' [= <-]. split.
  - intros U cb P u Hcb Hu. apply (walk_safe f Hf Hlen ctx Ho cb P Hcb); [apply (co_root f ctx Ho)|done].
  - intros e He. destruct (eo_off ctx e He) as [H1 H2]. split.
    + intros g. eapply safe_mono; [apply (read_file_safe f Hf Hlen ctx Ho); [done|done|apply He]|]. by intros ? [? _].
    + apply (capability_safe f Hf Hlen ctx Ho). apply He.
Qed.
End safety.

(** ** A decoder for witnesses: streams are stored as they are *)

Definition plain_xz : XzDec := {|
  xz_dec := unit;
  xz_dec_init _ := tt;
  xz_dec_reset d := d;
  xz_dec_run d inp room := let n := Z.min (Z.of_nat (length inp)) (Z.max 0 room) in (XZ_STREAM_END, d, n, take (Z.to_nat n) inp)
|}.
#[local] Existing Instance plain_xz.

Lemma plain_laws : XzLaws plain_xz.
Proof. intros d inp room r d' n out Hi Hr [= <- _ <- <-]. rewrite length_take. split_and!; [lia|lia|lia|]. by apply Forall_take. Qed.

#[local] Existing Instance plain_laws.

(** A superblock and nothing else, with a shift of 40. *)
Definition wild_image : list Z :=
  le_bytes 4 SQFS_MAGIC ++ replicate 8 0 ++ le_bytes 4 0x20000 ++ replicate 6 0 ++ le_bytes 2 40 ++ replicate 72 0.

(** An empty root directory: one metadata block of inodes, and one of no
    directories. *)
Definition tiny_image : list Z :=
  le_bytes 4 SQFS_MAGIC ++ replicate 8 0 ++ le_bytes 4 0x20000 ++ replicate 4 0 ++ le_bytes 2 SQFS_COMP_XZ ++ le_bytes 2 17 ++ replicate 4 0 ++
  le_bytes 2 4 ++ replicate 34 0 ++ le_bytes 8 96 ++ le_bytes 8 130 ++ le_bytes 8 133 ++ replicate 8 0 ++
  le_bytes 2 0x8020 ++ le_bytes 2 SQFS_DIR_TYPE ++ replicate 14 0 ++ replicate 8 0 ++ le_bytes 2 3 ++ replicate 6 0 ++ le_bytes 2 0x8001 ++ [0].

Lemma sqfs_safe_witness : sqfs_open (Some wild_image) = Fault ∧
  match sqfs_open (Some tiny_image) with
  | Ok ctx => safe (λ '(_, n), 0 <= n) (sqfs_walk ctx (λ _ n, (0, n + 1)) 0)
  | _ => False
  end.
Proof.
  split.
  - destruct (sqfs_safe wild_image) as [[_ H] _]; [apply (bool_decide_unpack (bytes wild_image)); vm_compute; exact I|by vm_compute|]. by apply H.
  - destruct (sqfs_safe tiny_image) as (_ & _ & H); [apply (bool_decide_unpack (bytes tiny_image)); vm_compute; exact I|by vm_compute|]. assert (match sqfs_open (Some tiny_image) with Ok _ => true | _ => false end = true) as Hc by by vm_compute.
    destruct (sqfs_open (Some tiny_image)) as [ctx'| | |]; try discriminate Hc. destruct (H ctx' eq_refl) as [Hw _]. apply (Hw Z (λ _ n, (0, n + 1)) (λ n, 0 <= n) 0); [intros e u _ Hu; cbn; lia|lia].
Defined.

Example tiny_walk : match sqfs_open (Some tiny_image) with Ok ctx => sqfs_walk ctx (λ e l, (0, l ++ [(e_path e, e_type e)])) [] = Ok (0, [([], 1)]) | _ => False end.
Proof. vm_compute. reflexivity. Qed.
