(* ===== verification/SqfsOpen.v ===== *)
(** * Opening a squashfs image that is laid out as documented
      ([src/tools/iso-patch/engine/squashfs.c], [squashfs.h])

    The format the header describes, as an encoder: the superblock, metadata
    blocks (plain or compressed), chains of them and indexed tables.  Opening an
    image written so succeeds, with the tables decompressed in memory and every
    reference resolved to its place in them ([sqfs_open_image]). *)

From S2P Require Import Prelude Bytes Outcome Squashfs SqfsSafe.

(** ** The format *)

Definition sb_bytes (s : sqfs_superblock_t) : list Z :=
  le_bytes 4 (magic s) ++ le_bytes 4 (inode_count s) ++ le_bytes 4 (mod_time s) ++ le_bytes 4 (block_size s) ++ le_bytes 4 (fragment_entry_count s) ++
  le_bytes 2 (compression_id s) ++ le_bytes 2 (block_log s) ++ le_bytes 2 (sb_flags s) ++ le_bytes 2 (sb_id_count s) ++ le_bytes 2 (version_major s) ++
  le_bytes 2 (version_minor s) ++ le_bytes 8 (root_inode_ref s) ++ le_bytes 8 (bytes_used s) ++ le_bytes 8 (id_table_start s) ++ le_bytes 8 (xattr_id_table_start s) ++
  le_bytes 8 (inode_table_start s) ++ le_bytes 8 (directory_table_start s) ++ le_bytes 8 (fragment_table_start s) ++ le_bytes 8 (lookup_table_start s).

(** The fields fit, and say what the reader supports. *)
Record sb_valid (s : sqfs_superblock_t) : Prop := {
  sv_magic : magic s = SQFS_MAGIC;
  sv_words : Forall is_u32 [inode_count s; mod_time s; block_size s; fragment_entry_count s];
  sv_halves : Forall (λ x, 0 <= x < 65536) [compression_id s; block_log s; sb_flags s; sb_id_count s; version_major s; version_minor s];
  sv_longs : Forall is_u64 [root_inode_ref s; bytes_used s; id_table_start s; xattr_id_table_start s; inode_table_start s; directory_table_start s; fragment_table_start s; lookup_table_start s];
  sv_version : version_major s = 4;
  sv_comp : compression_id s = SQFS_COMP_XZ ∨ compression_id s = SQFS_COMP_GZIP;
  sv_block : block_log s <= 20 ∧ block_size s = 2 ^ block_log s;
}.

(** Membership in a list that is written out. *)
Ltac in_list := solve [repeat first [apply list_elem_of_here|apply list_elem_of_further]].

Lemma le_field n z : 0 <= z < 256 ^ Z.of_nat n → le_val (le_bytes n z) = z.
Proof. intros. by apply le_val_le_bytes_small. Qed.

Lemma sb_read s : sb_valid s → sb_of (sb_bytes s) = s.
Proof.
  intros V. pose proof (sv_words s V) as W. pose proof (sv_halves s V) as H. pose proof (sv_longs s V) as L. pose proof (sv_magic s V) as Hm.
  repeat (apply Forall_cons in W as [? W]). repeat (apply Forall_cons in H as [? H]). repeat (apply Forall_cons in L as [? L]). clear V W H L.
  destruct s. cbn in *. subst.
  unfold sb_of, f16, f32, f64. unfold is_u32, is_u64 in *.
  f_equal; first [apply (le_field 4); change (256 ^ Z.of_nat 4) with 4294967296; lia|apply (le_field 2); change (256 ^ Z.of_nat 2) with 65536; lia|apply (le_field 8); change (256 ^ Z.of_nat 8) with 18446744073709551616; lia|idtac].
Qed.

(** The top bit of a word. *)
Lemma flag_bit k x : 0 <= k → 0 <= x < 2 ^ (k + 1) → negb (Z.land x (2 ^ k) =? 0) = (2 ^ k <=? x).
Proof.
  intros Hk Hx. assert (Z.land x (2 ^ k) = if Z.testbit x k then 2 ^ k else 0) as ->.
  { apply Z.bits_inj'. intros i Hi. rewrite Z.land_spec. destruct (Z.eq_dec i k) as [->|Hn].
    - rewrite Z.pow2_bits_true, andb_true_r by done. destruct (Z.testbit x k); [by rewrite Z.pow2_bits_true|by rewrite Z.bits_0].
    - rewrite Z.pow2_bits_false, andb_false_r by lia. destruct (Z.testbit x k); [by rewrite Z.pow2_bits_false by lia|by rewrite Z.bits_0]. }
  pose proof (Z.testbit_spec' x k Hk) as E. rewrite Z.pow_add_r in Hx by lia. assert (0 < 2 ^ k) by lia. assert (0 <= x / 2 ^ k < 2) as Hd by (split; [apply Z.div_pos; lia|apply Z.div_lt_upper_bound; lia]).
  rewrite Z.mod_small in E by done. destruct (Z.leb_spec (2 ^ k) x) as [Hle|Hlt].
  - assert (1 <= x / 2 ^ k) by (apply Z.div_le_lower_bound; lia). destruct (Z.testbit x k); cbn in *; [|lia]. apply negb_true_iff, Z.eqb_neq. lia.
  - rewrite Z.div_small in E by lia. destruct (Z.testbit x k); cbn in *; [lia|done].
Qed.

Section format.
Context `{X : XzDec}.

(** A decoder that has been set up, and what it makes of a stream. *)
Definition fresh (d : xz_dec) : Prop := (∃ m, d = xz_dec_init m) ∨ ∃ d0, d = xz_dec_reset d0.
Definition inflates (cb bs : list Z) : Prop := ∀ d room, fresh d → Z.of_nat (length bs) <= room → fst (xz_all d cb room) = Ok bs.

(** A metadata block: its bytes on the disk and what they stand for. *)
Inductive stored (comp : Z) : list Z → list Z → Prop :=
| stored_plain c : 0 < Z.of_nat (length c) <= SQFS_METADATA_SIZE → stored comp (le_bytes 2 (0x8000 + Z.of_nat (length c)) ++ c) c
| stored_xz cb c : comp = SQFS_COMP_XZ → 0 < Z.of_nat (length cb) <= SQFS_METADATA_SIZE → Z.of_nat (length c) <= SQFS_METADATA_SIZE → inflates cb c →
    stored comp (le_bytes 2 (Z.of_nat (length cb)) ++ cb) c.

Lemma stored_length comp db c : stored comp db c → 2 < Z.of_nat (length db) <= 8194 ∧ Z.of_nat (length c) <= 8192.
Proof. intros [c' H|cb c' E H1 H2 H3]; unfold SQFS_METADATA_SIZE in *; rewrite length_app, length_le_bytes; lia. Qed.

(** Bytes [bs] are in [f] at [off]. *)
Definition in_file (f : list Z) (off : Z) (bs : list Z) : Prop := 0 <= off ∧ off + Z.of_nat (length bs) <= Z.of_nat (length f) ∧ sub f (Z.to_nat off) (length bs) = bs.

(** Where each piece of a concatenation piece_starts. *)
Fixpoint piece_starts (base : Z) (ls : list (list Z)) : list Z :=
  match ls with [] => [] | l :: ls => base :: piece_starts (base + Z.of_nat (length l)) ls end.

Context (f : list Z) (Hlen : Z.of_nat (length f) < 2 ^ 48).

Lemma in_file_app off a b : in_file f off (a ++ b) ↔ in_file f off a ∧ in_file f (off + Z.of_nat (length a)) b.
Proof.
  unfold in_file. rewrite length_app. split.
  - intros (H1 & H2 & H3). assert (sub f (Z.to_nat off) (length a) = a ∧ sub f (Z.to_nat off + length a) (length b) = b) as [E1 E2].
    { unfold sub in *. rewrite <- (take_drop (length a) (take (length a + length b) (drop (Z.to_nat off) f))) in H3. rewrite take_take, Nat.min_l in H3 by lia.
      rewrite skipn_firstn_comm, drop_drop in H3. replace (length a + length b - length a)%nat with (length b) in H3 by lia.
      apply app_inj_1 in H3 as [-> ->]; [done|]. rewrite length_take, length_drop. lia. }
    split_and!; try lia; [done|]. by rewrite Z2Nat.inj_add, Nat2Z.id by lia.
  - intros ((H1 & H2 & H3) & H4 & H5 & H6). split_and!; try lia. rewrite Z2Nat.inj_add, Nat2Z.id in H6 by lia. unfold sub in *.
    rewrite <- (take_drop (length a) (take (length a + length b) (drop (Z.to_nat off) f))). rewrite take_take, Nat.min_l, H3 by lia. f_equal.
    rewrite skipn_firstn_comm, drop_drop. by replace (length a + length b - length a)%nat with (length b) by lia.
Qed.

Lemma raw_read off bs room : in_file f off bs → Z.of_nat (length bs) < 4294967296 → Z.of_nat (length bs) <= room → sqfs_read_raw f off room (Z.of_nat (length bs)) = Ok bs.
Proof.
  intros (H1 & H2 & H3) Hb Hr. unfold sqfs_read_raw. rewrite u32_small by lia. rewrite (proj2 (Z.ltb_ge _ _)) by lia.
  destruct (Z.eqb_spec (Z.of_nat (length bs)) 0); [by destruct bs|]. by rewrite (proj2 (Z.leb_le _ _)), Nat2Z.id, H3 by lia.
Qed.

Lemma metadata_read comp off db c : stored comp db c → in_file f off db → sqfs_read_metadata_block f comp off = Ok (off + Z.of_nat (length db), c).
Proof using Hlen.
  intros St Hin. pose proof (stored_length comp db c St) as [L1 L2]. pose proof Hin as (P1 & P2 & _). unfold sqfs_read_metadata_block, SQFS_METADATA_SIZE in *.
  assert (∀ v cb, db = le_bytes 2 v ++ cb → 0 <= v < 65536 → Z.land v 0x7fff = Z.of_nat (length cb) → 0 < Z.of_nat (length cb) <= 8192 →
    sqfs_read_raw f off 2 2 = Ok (le_bytes 2 v) ∧ f16 (le_bytes 2 v) 0 = v ∧ sqfs_read_raw f (u64 (off + 2)) 8192 (Z.of_nat (length cb)) = Ok cb ∧
    u64 (off + (2 + Z.of_nat (length cb))) = off + Z.of_nat (length db)) as Hread.
  { intros v cb -> Hv Hland Hcb. apply in_file_app in Hin as [I1 I2]. rewrite length_app, length_le_bytes in *. rewrite !u64_small by lia. split_and!; [|by apply (le_field 2)| |lia].
    - by apply (raw_read off (le_bytes 2 v) 2 I1).
    - apply (raw_read (off + 2) cb 8192 I2); lia. }
  destruct St as [c H|cb c E H1 H2 H3]; unfold SQFS_METADATA_SIZE in *.
  - destruct (Hread _ c eq_refl ltac:(lia)) as (-> & F & R & U); [rewrite (land_mask _ _ 15) by done; rewrite Z.add_mod, Z.mod_same, Z.add_0_l, Z.mod_mod, Z.mod_small by lia; done|lia|].
    rewrite bind_ok_eq, F, (land_mask _ 0x7fff 15) by done. rewrite (flag_bit 15) by lia.
    replace ((32768 + Z.of_nat (length c)) mod 2 ^ 15) with (Z.of_nat (length c)) by dlia.
    rewrite (proj2 (Z.eqb_neq _ _)), (proj2 (Z.ltb_ge _ _)), (proj2 (Z.leb_le _ _)) by lia. cbn [orb fail_if]. by rewrite R, bind_ok_eq, U.
  - destruct (Hread _ cb eq_refl ltac:(lia)) as (-> & F & R & U); [rewrite (land_mask _ _ 15) by done; apply Z.mod_small; lia|lia|].
    rewrite bind_ok_eq, F, (land_mask _ 0x7fff 15) by done. rewrite (flag_bit 15) by lia. rewrite Z.mod_small by lia.
    rewrite (proj2 (Z.eqb_neq _ _)), (proj2 (Z.ltb_ge _ _)), (proj2 (Z.leb_gt _ _)) by lia. cbn [orb fail_if]. rewrite R, bind_ok_eq, E, Z.eqb_refl.
    rewrite (H3 _ 8192) by (first [by left; eexists|lia]). by rewrite bind_ok_eq, U.
Qed.

(** ** Chains of blocks *)

Lemma chain_total comp ds cs : Forall2 (stored comp) ds cs → 3 * Z.of_nat (length ds) <= Z.of_nat (length (concat ds)).
Proof using. clear. induction 1 as [|db c ds cs H _ IH]; [cbn; lia|]. apply stored_length in H. cbn [concat length]. rewrite length_app. lia. Qed.

(** The stream while a chain is loaded: the blocks so far, each at its place. *)
Definition filled (s : sqfs_stream) (start : Z) (ds cs : list (list Z)) : Prop :=
  s_buf s = concat cs ∧ c_off s = piece_starts 0 ds ∧ d_off s = piece_starts 0 cs ∧ s_base s = start ∧ stream_ok (start + Z.of_nat (length (concat ds))) s.

Lemma starts_snoc ls l : ∀ b, piece_starts b (ls ++ [l]) = piece_starts b ls ++ [b + Z.of_nat (length (concat ls))].
Proof using. clear. induction ls as [|x ls IH]; intros b; cbn [app piece_starts concat length]; [by rewrite Z.add_0_r|]. rewrite IH, length_app. cbn. do 3 f_equal. lia. Qed.

Lemma concat_snoc {A} (ls : list (list A)) l : concat (ls ++ [l]) = concat ls ++ l.
Proof using. clear. rewrite concat_app. cbn. by rewrite app_nil_r. Qed.

Lemma append_stored comp s start ds cs db c : bytes c → stored comp db c → 0 <= start → filled s start ds cs → in_file f (start + Z.of_nat (length (concat ds))) db →
  ∃ s', stream_append f comp s (start + Z.of_nat (length (concat ds))) = Ok (Z.of_nat (length db), s') ∧ filled s' start (ds ++ [db]) (cs ++ [c]).
Proof using Hlen.
  intros Bc St Hs0 (F1 & F2 & F3 & F4 & F5) Hin. set (cur := start + Z.of_nat (length (concat ds))) in *. pose proof (stored_length comp db c St) as [L1 L2]. pose proof Hin as (P1 & P2 & _).
  pose proof F5 as (Hb & Hl & Hcap & Hd & Hcb & Hn & Hk & Hs & HF). unfold stream_append.
  pose proof (grow_buf_safe s ltac:(lia) Hl Hcap) as Hg. destruct (grow_buf s) as [cap| | |] eqn:Eg; [|unfold grow_buf in Eg|done|done].
  2:{ exfalso. clear - Eg. revert Eg. destruct (_ <? _); [|done]. generalize (if s_cap s =? 0 then 2 ^ 20 else u64 (s_cap s * 2)). generalize 64%nat. intros n. induction n; intros z; [done|]. cbn [grow]. destruct (_ <? _); [apply IHn|done]. }
  destruct Hg as [G1 G2]. destruct (grow_blocks_ok s _ F5 ltac:(lia)) as [B1 B2]. rewrite bind_ok_eq, (metadata_read comp cur db c St Hin), bind_ok_eq. unfold put_in.
  rewrite (proj2 (Z.ltb_ge _ _)) by (unfold s_len in *; lia). rewrite bind_ok_eq, (proj2 (Z.leb_gt _ _)) by lia. rewrite u64_small by lia.
  assert (i32 (cur + Z.of_nat (length db) - cur) = Z.of_nat (length db)) as -> by (unfold i32; rewrite Z.mod_small; lia).
  eexists. split; [reflexivity|]. unfold filled. cbn [s_buf c_off d_off s_base]. rewrite !concat_snoc, !starts_snoc, F1, F2, F3, F4. split_and!; try done.
  - do 2 f_equal. unfold cur. rewrite u64_small; lia.
  - unfold s_len. by rewrite F1.
  - unfold stream_ok, s_len, n_blocks in *. cbn [s_buf s_cap c_off d_off cap_blocks]. rewrite F1, F2, F3 in *. rewrite !length_app. cbn [length]. split_and!; try done; try lia; [by apply Forall_app|].
    apply Forall_app. split; [|constructor; [lia|constructor]]. eapply Forall_impl; [exact HF|]. cbn. lia.
Qed.

Lemma load_chain comp start ds2 cs2 : Forall2 (stored comp) ds2 cs2 → Forall bytes cs2 → 0 <= start → ∀ fuel s ds cs,
  filled s start ds cs → in_file f (start + Z.of_nat (length (concat ds))) (concat ds2) → (length ds2 <= fuel)%nat →
  ∃ s', load_loop fuel f comp s (start + Z.of_nat (length (concat ds))) (start + Z.of_nat (length (concat (ds ++ ds2)))) = Ok s' ∧ filled s' start (ds ++ ds2) (cs ++ cs2).
Proof using Hlen.
  intros St. induction St as [|db c ds2 cs2 St1 St IH]; intros Bc Hs0 fuel s ds cs Hf Hin Hfu.
  - rewrite !app_nil_r. exists s. destruct fuel; cbn [load_loop]; rewrite Z.ltb_irrefl; done.
  - apply Forall_cons in Bc as [Bc1 Bc2]. cbn [concat] in Hin. apply in_file_app in Hin as [I1 I2]. pose proof (stored_length comp db c St1) as [L1 L2].
    destruct fuel as [|fuel]; [cbn in Hfu; lia|]. cbn [load_loop]. rewrite (proj2 (Z.ltb_lt _ _)) by (rewrite concat_app, length_app; cbn [concat]; rewrite length_app; lia).
    destruct (append_stored comp s start ds cs db c Bc1 St1 Hs0 Hf I1) as (s' & -> & Hf'). rewrite bind_ok_eq. unfold fail_if. rewrite (proj2 (Z.leb_gt _ _)) by lia.
    destruct I1 as (P1 & P2 & _). rewrite u64_small by lia.
    destruct (IH Bc2 Hs0 fuel s' (ds ++ [db]) (cs ++ [c]) Hf') as (s2 & E & F2); [by rewrite concat_snoc, length_app, Nat2Z.inj_add, Z.add_assoc|cbn in Hfu; lia|].
    rewrite <- !app_assoc in *. cbn [app] in *. exists s2. split; [|exact F2]. rewrite <- E. f_equal. rewrite concat_snoc, length_app. lia.
Qed.

(** A table: a chain of metadata blocks. *)
Definition chain_at (comp start end_ : Z) (ds cs : list (list Z)) : Prop :=
  Forall2 (stored comp) ds cs ∧ Forall bytes cs ∧ in_file f start (concat ds) ∧ end_ = start + Z.of_nat (length (concat ds)).

Lemma load_range_ok comp start end_ ds cs : chain_at comp start end_ ds cs → ∃ s, stream_load_range f comp start end_ = Ok s ∧ filled s start ds cs.
Proof using Hlen.
  intros (St & Bc & Hin & ->). pose proof Hin as (P1 & P2 & _). pose proof (chain_total comp ds cs St) as Ht.
  destruct (load_chain comp start ds cs St Bc P1 (S (length f)) (mkStream [] 0 [] [] 0 start) [] []) as (s & E & F).
  - unfold filled. cbn [concat length piece_starts s_buf c_off d_off s_base]. split_and!; try done. unfold stream_ok, s_len, n_blocks. cbn [s_buf s_cap c_off d_off cap_blocks length]. split_and!; try constructor; lia.
  - cbn [concat length]. by rewrite Z.add_0_r.
  - lia.
  - cbn [concat length app] in *. rewrite Z.add_0_r in E. by exists s.
Qed.

(** A reference into a loaded table: the block by its place on the disk, the
    byte by its place in the block. *)
Lemma resolve_starts ds : Forall (λ d, 0 < Z.of_nat (length d)) ds → ∀ cs k b c0 d0 db, length ds = length cs → ds !! k = Some db → 0 <= c0 →
  resolve_in (piece_starts c0 ds) (piece_starts d0 cs) (c0 + Z.of_nat (length (concat (take k ds)))) b = Some (d0 + Z.of_nat (length (concat (take k cs))) + b).
Proof using.
  clear. intros Hpos. induction ds as [|d ds IH]; intros cs k b c0 d0 db Hl Hk H0; [done|]. destruct cs as [|c cs]; [done|]. apply Forall_cons in Hpos as [Hd Hpos]. cbn [piece_starts resolve_in].
  destruct k as [|k]; cbn [take concat length].
  - rewrite !Z.add_0_r, Z.eqb_refl. done.
  - rewrite length_app, (proj2 (Z.eqb_neq _ _)) by lia. cbn in Hl, Hk. rewrite length_app.
    replace (c0 + Z.of_nat (length d + length (concat (take k ds)))) with (c0 + Z.of_nat (length d) + Z.of_nat (length (concat (take k ds)))) by lia.
    rewrite (IH Hpos cs k b (c0 + Z.of_nat (length d)) (d0 + Z.of_nat (length c)) db ltac:(lia) Hk ltac:(lia)). f_equal. lia.
Qed.

(** The place of byte [b] of block [k]. *)
Definition block_ref (ds : list (list Z)) (k : nat) : Z := Z.of_nat (length (concat (take k ds))).
Definition pos_of (cs : list (list Z)) (k : nat) (b : Z) : Z := Z.of_nat (length (concat (take k cs))) + b.

Lemma resolve_filled s comp start ds cs k b db : Forall2 (stored comp) ds cs → filled s start ds cs → ds !! k = Some db →
  stream_resolve s (block_ref ds k) b = Some (pos_of cs k b).
Proof using.
  clear. intros St (_ & F2 & F3 & _) Hk. unfold stream_resolve. rewrite F2, F3. change (block_ref ds k) with (0 + Z.of_nat (length (concat (take k ds)))).
  apply (resolve_starts ds) with (db := db); [|by apply Forall2_length in St|done|done]. clear - St. induction St as [|x y xs ys H _ IH]; constructor; [|done]. apply stored_length in H. lia.
Qed.

(** ** Indexed tables *)

Definition block_in (comp : Z) (off : Z) (c : list Z) : Prop := ∃ db, stored comp db c ∧ in_file f off db.

(** [n] entries of [size] bytes: an index of block offsets, the blocks where it
    says. *)
Definition table_at (comp start n size : Z) (offs : list Z) (cs : list (list Z)) : Prop :=
  Forall is_u64 offs ∧ Forall bytes cs ∧ in_file f start (concat (map (le_bytes 8) offs)) ∧ Forall2 (block_in comp) offs cs ∧
  Z.of_nat (length offs) = (n * size + SQFS_METADATA_SIZE - 1) / SQFS_METADATA_SIZE.

Lemma length_records {A} (enc : A → list Z) k l : (∀ x, length (enc x) = k) → length (concat (map enc l)) = (length l * k)%nat.
Proof using. clear. intros He. induction l as [|x l IH]; [done|]. cbn [map concat length]. by rewrite length_app, He, IH. Qed.

(** An entry of a table of entries of one size. *)
Lemma record_slice {A} (enc : A → list Z) k : (∀ x, length (enc x) = k) → ∀ l i x, l !! i = Some x →
  slice (concat (map enc l)) (Z.of_nat i * Z.of_nat k) (Z.of_nat k) = Ok (enc x).
Proof using.
  clear. intros He l i x Hi. pose proof (length_records enc k l He) as L. pose proof (lookup_lt_Some _ _ _ Hi) as Hlt.
  rewrite slice_ok by nia. f_equal. unfold sub. rewrite Nat2Z.id. replace (Z.to_nat (Z.of_nat i * Z.of_nat k)) with (i * k)%nat by nia. clear L Hlt.
  revert i Hi. induction l as [|y l IH]; intros i Hi; [done|]. cbn [map concat]. destruct i as [|i].
  - injection Hi as ->. rewrite Nat.mul_0_l, drop_0. by rewrite take_app_length' by (by rewrite He).
  - rewrite <- (IH i Hi). rewrite drop_app_ge by (rewrite He; nia). rewrite He. do 2 f_equal. nia.
Qed.

Lemma table_loop_ok comp cap offs cs : Forall2 (block_in comp) offs cs → Forall is_u64 offs → Forall bytes cs → Z.of_nat (length offs) * 8192 <= cap → ∀ n i,
  (i + n = length offs)%nat →
  table_loop n f comp cap (concat (map (le_bytes 8) offs)) (Z.of_nat i) (concat (take i cs)) = Ok (concat cs).
Proof using Hlen.
  intros H Hu Hb Hcap. assert (∀ k, Z.of_nat (length (concat (take k cs))) <= 8192 * Z.of_nat k) as Hle.
  { clear - H. induction H as [|o c offs cs (db & St & _) _ IH]; intros k; destruct k as [|k]; cbn [take concat length]; try lia. rewrite length_app. specialize (IH k). apply stored_length in St. lia. }
  induction n as [|n IH]; intros i Hi; cbn [table_loop].
  - rewrite take_ge; [done|]. apply Forall2_length in H. lia.
  - destruct (lookup_lt_is_Some_2 offs i ltac:(lia)) as [o Ho]. destruct (Forall2_lookup_l _ _ _ _ _ H Ho) as (c & Hc & db & St & Hin).
    rewrite (record_slice (le_bytes 8) 8 (length_le_bytes 8) offs i o Ho : slice _ (Z.of_nat i * 8) 8 = _), bind_ok_eq. rewrite list.Forall_forall in Hu. pose proof (Hu o (list_elem_of_lookup_2 _ _ _ Ho)) as Hou.
    rewrite (le_field 8) by exact Hou. rewrite (metadata_read comp o db c St Hin), bind_ok_eq. unfold put_in. pose proof (Hle i) as Hli. apply stored_length in St.
    rewrite (proj2 (Z.ltb_ge _ _)) by lia. rewrite bind_ok_eq. replace (concat (take i cs) ++ c) with (concat (take (S i) cs)).
    2:{ rewrite (take_S_r _ _ _ Hc), concat_app. cbn. by rewrite app_nil_r. }
    replace (Z.of_nat i + 1) with (Z.of_nat (S i)) by lia. apply IH. lia.
Qed.

Lemma load_table_ok comp start n size offs cs : 0 < n → 0 < size → n * size < 2 ^ 37 → table_at comp start n size offs cs → load_table f comp start n size = Ok (concat cs).
Proof using Hlen.
  intros Hn Hs Hb (Hu & Hc & Hin & H & Hl). unfold load_table. rewrite (proj2 (Z.eqb_neq _ _)) by lia. rewrite <- Hl.
  pose proof (length_records (le_bytes 8) 8 offs (length_le_bytes 8)) as L0.
  assert (Z.of_nat (length (concat (map (le_bytes 8) offs))) = Z.of_nat (length offs) * 8) as L by lia.
  assert (Z.of_nat (length offs) < 2 ^ 25) as Hk by (rewrite Hl; unfold SQFS_METADATA_SIZE; assert (0 < n * size) by nia; dlia).
  rewrite <- L, raw_read by (done || lia). rewrite bind_ok_eq, Nat2Z.id.
  apply (table_loop_ok comp (Z.of_nat (length offs) * SQFS_METADATA_SIZE) offs cs H Hu Hc ltac:(unfold SQFS_METADATA_SIZE; lia) (length offs) 0). lia.
Qed.

(** ** The image *)

(** What an image holds: identifiers, fragments (start and size word), and the
    two tables, on the disk and decompressed. *)
Record image := mkImg {
  im_uids : list Z;
  im_frags : list (Z * Z);
  im_inode_ds : list (list Z);
  im_inodes : list (list Z);
  im_dir_ds : list (list Z);
  im_dirs : list (list Z);
}.

Definition frag_bytes (e : Z * Z) : list Z := le_bytes 8 (fst e) ++ le_bytes 4 (snd e) ++ le_bytes 4 0.
Lemma length_frag_bytes e : length (frag_bytes e) = 16%nat.
Proof using. clear. done. Qed.

(** A table of entries, or none. *)
Definition entries_at {A} (comp start : Z) (enc : A → list Z) (size : Z) (l : list A) : Prop :=
  l = [] ∨ ∃ offs cs, table_at comp start (Z.of_nat (length l)) size offs cs ∧ concat cs = concat (map enc l).

(** The image is in the file as its superblock says. *)
Record laid (s : sqfs_superblock_t) (im : image) : Prop := {
  la_sb : sb_valid s ∧ in_file f 0 (sb_bytes s);
  la_uids : Forall is_u32 (im_uids im) ∧ sb_id_count s = Z.of_nat (length (im_uids im)) ∧ entries_at (compression_id s) (id_table_start s) (le_bytes 4) 4 (im_uids im);
  la_frags : fragment_entry_count s = Z.of_nat (length (im_frags im)) ∧ entries_at (compression_id s) (fragment_table_start s) frag_bytes 16 (im_frags im);
  la_inodes : chain_at (compression_id s) (inode_table_start s) (directory_table_start s) (im_inode_ds im) (im_inodes im);
  la_dirs : chain_at (compression_id s) (directory_table_start s) (fragment_table_start s) (im_dir_ds im) (im_dirs im);
}.

(** An opened image: the tables in memory, references resolved. *)
Record opened (ctx : sqfs_ctx) (s : sqfs_superblock_t) (im : image) : Prop := {
  op_file : s_file ctx = f;
  op_sb : sb ctx = s;
  op_inodes : s_buf (inode_stream ctx) = concat (im_inodes im);
  op_iref : ∀ k b db, im_inode_ds im !! k = Some db → stream_resolve (inode_stream ctx) (block_ref (im_inode_ds im) k) b = Some (pos_of (im_inodes im) k b);
  op_dirs : s_buf (dir_stream ctx) = concat (im_dirs im);
  op_dref : ∀ k b db, im_dir_ds im !! k = Some db → stream_resolve (dir_stream ctx) (block_ref (im_dir_ds im) k) b = Some (pos_of (im_dirs im) k b);
  op_uids : ∀ i, 0 <= i → id_lookup ctx i = Ok (nth (Z.to_nat i) (im_uids im) 0);
  op_frags : ∀ i e, im_frags im !! i = Some e → Z.of_nat i < fragment_count ctx ∧ slice (fragment_index ctx) (Z.of_nat i * 16) 16 = Ok (frag_bytes e);
}.

Lemma load_entries {A} comp start (enc : A → list Z) size l : (∀ x, length (enc x) = Z.to_nat size) → 0 < size → Z.of_nat (length l) * size < 2 ^ 37 → entries_at comp start enc size l →
  load_table f comp start (Z.of_nat (length l)) size = Ok (concat (map enc l)).
Proof using Hlen.
  intros He Hs Hb [->|(offs & cs & Ht & <-)]; [done|]. destruct l as [|x l].
  - destruct Ht as (_ & _ & _ & H & Hl). cbn [length] in Hl. change ((Z.of_nat 0 * size + SQFS_METADATA_SIZE - 1) / SQFS_METADATA_SIZE) with 0 in Hl.
    destruct offs; [|cbn in Hl; lia]. inversion H; subst. reflexivity.
  - apply (load_table_ok comp start _ size offs cs); done.
Qed.

(** An image laid out as the format says opens.  With any decompressor, when the file holds a valid superblock, tables of identifiers and fragments
    behind their indexes, and the tables of inodes and directories as chains of
    metadata blocks, each stored plainly or compressed, [sqfs_open] succeeds: both
    tables are in memory exactly as they were before compression, every
    reference (block on the disk, byte in the block) resolves to its place in
    them, and every identifier and fragment is found by its number. *)
Lemma sqfs_open_image s im : laid s im → ∃ ctx, sqfs_open (Some f) = Ok ctx ∧ opened ctx s im.
Proof using Hlen.
  intros [[V Hsb] (Hu & Nu & Tu) (Nf & Tf) Ci Cd]. pose proof (sb_read s V) as Es. unfold sqfs_open.
  assert (length (sb_bytes s) = 96%nat) as L96 by (unfold sb_bytes; by rewrite !length_app, !length_le_bytes).
  pose proof (raw_read 0 (sb_bytes s) 96 Hsb ltac:(lia) ltac:(lia)) as Hr. rewrite L96 in Hr. change (Z.of_nat 96) with 96 in Hr. rewrite Hr, bind_ok_eq, Es. clear Hr.
  pose proof (sv_block s V) as [B1 B2]. pose proof (sv_halves s V) as Hh. rewrite list.Forall_forall in Hh. pose proof (Hh (block_log s) ltac:(in_list)) as Hbl. cbn beta in Hbl.
  unfold shl_one, fail_if. rewrite (sv_magic s V), Z.eqb_refl, (proj2 (Z.ltb_lt _ 32)), bind_ok_eq, (sv_version s V) by lia. cbn [negb Z.eqb Pos.eqb].
  replace (negb (compression_id s =? SQFS_COMP_XZ) && negb (compression_id s =? SQFS_COMP_GZIP)) with false by (destruct (sv_comp s V) as [-> | ->]; done).
  assert (bad_block_size s = false) as ->.
  { unfold bad_block_size. rewrite B2, Z.shiftl_1_l. assert (0 < 2 ^ block_log s <= 2 ^ 20) as Hp by (split; [lia|apply Z.pow_le_mono_r; lia]).
    rewrite u32_small by lia. rewrite (proj2 (Z.eqb_neq _ 0)), Z.eqb_refl, (proj2 (Z.leb_gt _ _)), (proj2 (Z.ltb_ge _ _)) by lia.
    replace (2 ^ block_log s - 1) with (Z.ones (block_log s)) by (rewrite Z.ones_equiv; lia). rewrite Z.land_ones, Z.mod_same by lia. done. }
  unfold load_id_table, load_fragment_table. rewrite Nu, (load_entries _ _ (le_bytes 4) 4 (im_uids im) (length_le_bytes 4) ltac:(lia)) by first [exact Tu|pose proof (Hh (sb_id_count s) ltac:(in_list)); lia].
  pose proof (sv_words s V) as Hw. rewrite list.Forall_forall in Hw. pose proof (Hw (fragment_entry_count s) ltac:(in_list)) as Hfc. unfold is_u32 in Hfc.
  rewrite Nf, (load_entries _ _ frag_bytes 16 (im_frags im) length_frag_bytes ltac:(lia)) by first [exact Tf|lia]. rewrite !bind_ok_eq.
  destruct (load_range_ok _ _ _ _ _ Ci) as (si & -> & Fi). destruct (load_range_ok _ _ _ _ _ Cd) as (sd & -> & Fd). rewrite !bind_ok_eq.
  eexists. split; [reflexivity|]. pose proof (length_records (le_bytes 4) 4 (im_uids im) (length_le_bytes 4)) as Lu. pose proof (length_records frag_bytes 16 (im_frags im) length_frag_bytes) as Lf.
  constructor; cbn [s_file sb inode_stream dir_stream id_table id_count fragment_index fragment_count]; try done.
  - apply Fi.
  - intros k b db Hk. by apply (resolve_filled si _ _ _ _ k b db (proj1 Ci) Fi).
  - apply Fd.
  - intros k b db Hk. by apply (resolve_filled sd _ _ _ _ k b db (proj1 Cd) Fd).
  - intros i Hi. unfold id_lookup. cbn [id_table id_count]. rewrite Lu. destruct (Z.leb_spec (Z.of_nat (length (im_uids im) * 4) / 4) i) as [Hle|Hgt].
    + rewrite nth_overflow; [done|]. dlia.
    + destruct (lookup_lt_is_Some_2 (im_uids im) (Z.to_nat i)) as [v Hv]; [dlia|]. pose proof (record_slice (le_bytes 4) 4 (length_le_bytes 4) _ _ _ Hv) as Hs. rewrite Z2Nat.id in Hs by done.
      rewrite (Hs : slice _ (i * 4) 4 = _), bind_ok_eq. rewrite list.Forall_forall in Hu. rewrite (le_field 4) by (apply (Hu v), (list_elem_of_lookup_2 _ _ _ Hv)). f_equal. symmetry. by apply nth_lookup_Some.
  - intros i e Hi. split; [rewrite Lf; apply lookup_lt_Some in Hi; dlia|]. by apply (record_slice frag_bytes 16 length_frag_bytes).
Qed.
End format.
