(* ===== verification/SqfsTree.v ===== *)
(** * The tree of a squashfs image
      ([src/tools/iso-patch/engine/squashfs.c]: [sqfs_walk], [sqfs_read_file])

    An image that holds a tree of directories, files, links and devices in the
    documented layout: inodes in one table, listings in the other, file contents
    in blocks and fragments.  The walk calls back for exactly the nodes of the
    tree in order, and each file reads back its contents ([sqfs_tree_read]). *)

From S2P Require Import Prelude Bytes Outcome Squashfs SqfsSafe SqfsOpen.

(** ** Trees and their encoding *)

Record attrs := mkAttrs { a_mode : Z; a_uid : Z; a_gid : Z; a_mtime : Z; a_ino : Z }.

Inductive body :=
| BDir (blk nlink size off parent : Z)
| BDirExt (nlink size blk parent index_count off xattr : Z)
| BFile (start frag foff size : Z) (sizes : list Z)
| BFileExt (start size sparse nlink frag foff xattr : Z) (sizes : list Z)
| BSym (ext : bool) (nlink : Z) (target : list Z)
| BDev (kind nlink rdev : Z)
| BIpc (kind nlink : Z).

Definition body_type (b : body) : Z :=
  match b with
  | BDir _ _ _ _ _ => SQFS_DIR_TYPE
  | BDirExt _ _ _ _ _ _ _ => SQFS_EDIR_TYPE
  | BFile _ _ _ _ _ => SQFS_REG_TYPE
  | BFileExt _ _ _ _ _ _ _ _ => SQFS_EREG_TYPE
  | BSym ext _ _ => if ext then SQFS_ESYM_TYPE else SQFS_SYM_TYPE
  | BDev kind _ _ => kind
  | BIpc kind _ => kind
  end.

Definition hdr_bytes (b : body) (a : attrs) : list Z :=
  le_bytes 2 (body_type b) ++ le_bytes 2 (a_mode a) ++ le_bytes 2 (a_uid a) ++ le_bytes 2 (a_gid a) ++ le_bytes 4 (a_mtime a) ++ le_bytes 4 (a_ino a).

(** The fixed part of a body, and the list that follows it. *)
Definition body_bytes (b : body) : list Z :=
  match b with
  | BDir blk nlink size off parent => le_bytes 4 blk ++ le_bytes 4 nlink ++ le_bytes 2 size ++ le_bytes 2 off ++ le_bytes 4 parent
  | BDirExt nlink size blk parent ic off xattr =>
      le_bytes 4 nlink ++ le_bytes 4 size ++ le_bytes 4 blk ++ le_bytes 4 parent ++ le_bytes 2 ic ++ le_bytes 2 off ++ le_bytes 4 xattr
  | BFile start frag foff size _ => le_bytes 4 start ++ le_bytes 4 frag ++ le_bytes 4 foff ++ le_bytes 4 size
  | BFileExt start size sparse nlink frag foff xattr _ =>
      le_bytes 8 start ++ le_bytes 8 size ++ le_bytes 8 sparse ++ le_bytes 4 nlink ++ le_bytes 4 frag ++ le_bytes 4 foff ++ le_bytes 4 xattr
  | BSym _ nlink target => le_bytes 4 nlink ++ le_bytes 4 (Z.of_nat (length target))
  | BDev _ nlink rdev => le_bytes 4 nlink ++ le_bytes 4 rdev
  | BIpc _ nlink => le_bytes 4 nlink
  end.
Definition body_tail (b : body) : list Z :=
  match b with
  | BFile _ _ _ _ sizes | BFileExt _ _ _ _ _ _ _ sizes => concat (map (le_bytes 4) sizes)
  | BSym _ _ target => target
  | _ => []
  end.
Definition inode_bytes (a : attrs) (b : body) : list Z := hdr_bytes b a ++ body_bytes b ++ body_tail b.

(** The fields fit. *)
Definition is_u16 (z : Z) : Prop := 0 <= z < 65536.
Definition body_valid (b : body) : Prop :=
  match b with
  | BDir blk nlink size off parent => is_u32 blk ∧ is_u16 size ∧ is_u16 off
  | BDirExt nlink size blk parent ic off xattr => is_u32 size ∧ is_u32 blk ∧ is_u16 off
  | BFile start frag foff size sizes => is_u32 start ∧ is_u32 frag ∧ is_u32 foff ∧ is_u32 size ∧ Forall is_u32 sizes
  | BFileExt start size sparse nlink frag foff xattr sizes => is_u64 start ∧ is_u64 size ∧ is_u32 frag ∧ is_u32 foff ∧ is_u32 xattr ∧ Forall is_u32 sizes
  | BSym _ _ target => is_u32 (Z.of_nat (length target))
  | BDev kind _ rdev => kind ∈ [SQFS_BLK_TYPE; SQFS_CHR_TYPE; SQFS_EBLK_TYPE; SQFS_ECHR_TYPE] ∧ is_u32 rdev
  | BIpc kind _ => kind ∈ [SQFS_FIFO_TYPE; SQFS_SOCK_TYPE; SQFS_EFIFO_TYPE; SQFS_ESOCK_TYPE]
  end.
Definition attrs_valid (a : attrs) : Prop := is_u16 (a_mode a) ∧ is_u16 (a_uid a) ∧ is_u16 (a_gid a) ∧ is_u32 (a_mtime a) ∧ is_u32 (a_ino a).

(** A node: where its inode is, the inode, the contents of a file, the entries of
    a directory. *)
Inductive tree := Node (pos : Z) (a : attrs) (b : body) (data : list Z) (kids : list (list Z * tree)).

(** ** Listings *)

Record dirent := mkDe { de_off : Z; de_ioff : Z; de_type : Z; de_name : list Z }.
Definition de_head (d : dirent) : list Z :=
  le_bytes 2 (de_off d) ++ le_bytes 2 (de_ioff d) ++ le_bytes 2 (de_type d) ++ le_bytes 2 (Z.of_nat (length (de_name d)) - 1).
Definition dirent_bytes (d : dirent) : list Z := de_head d ++ de_name d.
Record dirgroup := mkDg { dg_start : Z; dg_ino : Z; dg_ents : list dirent }.
Definition dg_head (g : dirgroup) : list Z := le_bytes 4 (Z.of_nat (length (dg_ents g)) - 1) ++ le_bytes 4 (dg_start g) ++ le_bytes 4 (dg_ino g).
Definition group_bytes (g : dirgroup) : list Z := dg_head g ++ concat (map dirent_bytes (dg_ents g)).
Definition dirent_valid (d : dirent) : Prop := is_u16 (de_off d) ∧ 1 <= Z.of_nat (length (de_name d)) <= 255.
Definition group_valid (g : dirgroup) : Prop := is_u32 (dg_start g) ∧ 1 <= Z.of_nat (length (dg_ents g)) < 2 ^ 32 ∧ Forall dirent_valid (dg_ents g).

(** The names of a listing, each with the inode it refers to. *)
Definition group_refs (g : dirgroup) : list (list Z * Z) := map (λ d, (de_name d, dg_start g * 65536 + de_off d)) (dg_ents g).
Definition listing_refs (gs : list dirgroup) : list (list Z * Z) := concat (map group_refs gs).
Definition listing_bytes (gs : list dirgroup) : list Z := concat (map group_bytes gs).

(** ** What the walk reports *)

Definition report_size (b : body) : Z :=
  match b with BFile _ _ _ size _ => size | BFileExt _ size _ _ _ _ _ _ => size | BSym _ _ target => Z.of_nat (length target) | _ => 0 end.
Definition body_rdev (b : body) : Z := match b with BDev _ _ rdev => rdev | _ => 0 end.
Definition body_target (b : body) : option (list Z) := match b with BSym _ _ target => Some target | _ => None end.
Definition body_xattr (b : body) : Z := match b with BFileExt _ _ _ _ _ _ xattr _ => xattr | _ => UINT32_MAX end.
Definition is_file (b : body) : bool := match b with BFile _ _ _ _ _ | BFileExt _ _ _ _ _ _ _ _ => true | _ => false end.

Definition join (path name : list Z) : list Z := path ++ [47] ++ name.

(** The entries of a tree at a path, in the order of the walk, each with the
    contents it must read as. *)
Fixpoint contents (ids : list Z) (path : list Z) (t : tree) : list (sqfs_entry_t * option (list Z)) :=
  match t with
  | Node pos a b data kids =>
      let e := mkEnt path (body_type b) (a_mode a) (nth (Z.to_nat (a_uid a)) ids 0) (nth (Z.to_nat (a_gid a)) ids 0) (a_mtime a)
                 (report_size b) (body_rdev b) (body_target b) pos (body_xattr b) in
      (e, if is_file b then Some data else None) ::
      (fix go kids := match kids with [] => [] | (name, k) :: kids => contents ids (join path name) k ++ go kids end) kids
  end.
Definition entries (ids : list Z) (path : list Z) (t : tree) : list sqfs_entry_t := map fst (contents ids path t).

(** The walk goes no deeper than 64 levels and keeps paths in 4096 bytes. *)
Fixpoint fits (depth : Z) (path : list Z) (t : tree) : bool :=
  match t with
  | Node _ _ _ _ kids =>
      (depth <? WALK_MAX_DEPTH) &&
      (fix go kids := match kids with [] => true | (name, k) :: kids =>
         (Z.of_nat (length path) + 1 + Z.of_nat (length name) + 1 <=? PATH_BUF) && fits (depth + 1) (join path name) k && go kids end) kids
  end.

(** A callback run over a list of entries, until it returns something else than
    zero. *)
Fixpoint run_cb {U} (cb : sqfs_entry_t → U → Z * U) (es : list sqfs_entry_t) (u : U) : Z * U :=
  match es with [] => (0, u) | e :: es => let '(rc, u) := cb e u in if rc =? 0 then run_cb cb es u else (rc, u) end.

Lemma run_cb_app {U} (cb : sqfs_entry_t → U → Z * U) es es' u :
  run_cb cb (es ++ es') u = let '(rc, u') := run_cb cb es u in if rc =? 0 then run_cb cb es' u' else (rc, u').
Proof.
  revert u. induction es as [|e es IH]; intros u; cbn [app run_cb]; [done|]. destruct (cb e u) as [rc u']. destruct (rc =? 0) eqn:E; [apply IH|by rewrite E].
Qed.

Section tree.
Context `{X : XzDec} (f : list Z) (s : sqfs_superblock_t) (im : image).

(** ** Contents of files *)

(** A block of a file: zeros, plain bytes or a compressed stream. *)
Inductive block_here (disk : Z) : Z → list Z → Prop :=
| bh_sparse w n : 0 <= w → Z.land w 0x00ffffff = 0 → block_here disk w (replicate n 0)
| bh_plain b : 0 < Z.of_nat (length b) < 2 ^ 24 → in_file f disk b → block_here disk (2 ^ 24 + Z.of_nat (length b)) b
| bh_xz cb b : 0 < Z.of_nat (length cb) < 2 ^ 24 → in_file f disk cb → inflates cb b → block_here disk (Z.of_nat (length cb)) b.

(** The blocks one after the other from [disk]. *)
Fixpoint blocks_here (disk : Z) (ws : list Z) (bs : list (list Z)) : Prop :=
  match ws, bs with
  | [], [] => True
  | w :: ws, b :: bs => block_here disk w b ∧ blocks_here (disk + Z.land w 0x00ffffff) ws bs
  | _, _ => False
  end.

(** The tail of a file, inside a fragment block [fb]. *)
Definition fragment_here (frag foff : Z) (tail : list Z) : Prop := ∃ fstart w fb,
  0 <= frag ∧ im_frags im !! Z.to_nat frag = Some (fstart, w) ∧ is_u64 fstart ∧ is_u32 w ∧ Z.of_nat (length fb) <= block_size s ∧
  (w = 2 ^ 24 + Z.of_nat (length fb) ∧ Z.of_nat (length fb) < 2 ^ 24 ∧ in_file f fstart fb ∨
   ∃ cb, w = Z.of_nat (length cb) ∧ Z.of_nat (length cb) < 2 ^ 24 ∧ in_file f fstart cb ∧ inflates cb fb) ∧
  0 <= foff ∧ in_file fb foff tail.

(** The fields of a file, whichever kind of inode it has. *)
Definition file_fields (b : body) : option (Z * Z * Z * Z * list Z) :=
  match b with
  | BFile start frag foff size sizes => Some (start, size, frag, foff, sizes)
  | BFileExt start size _ _ frag foff _ sizes => Some (start, size, frag, foff, sizes)
  | _ => None
  end.

(** Full blocks of the block size, then the tail: in a last, shorter block, or
    in a fragment. *)
Definition file_here (b : body) (data : list Z) : Prop :=
  ∀ start size frag foff sizes, file_fields b = Some (start, size, frag, foff, sizes) →
    let n := Z.to_nat (size / block_size s) in
    let tail := size mod block_size s in
    size = Z.of_nat (length data) ∧
    ∃ bs last, data = concat bs ++ last ∧ blocks_here start sizes (if (frag =? 0xffffffff) && negb (tail =? 0) then bs ++ [last] else bs) ∧ length bs = n ∧
      Forall (λ x, Z.of_nat (length x) = block_size s) bs ∧ Z.of_nat (length last) = tail ∧ (frag ≠ 0xffffffff → 0 < tail → fragment_here frag foff last).

(** ** Trees in an image *)

(** The inode of a node is where the reference leads: a block of the table, by
    its place on the disk, and a byte of it. *)
Definition inode_here (ref pos : Z) (a : attrs) (b : body) : Prop := ∃ k db o,
  im_inode_ds im !! k = Some db ∧ is_u16 o ∧ ref = block_ref (im_inode_ds im) k * 65536 + o ∧ pos = pos_of (im_inodes im) k o ∧
  in_file (concat (im_inodes im)) pos (inode_bytes a b) ∧ attrs_valid a ∧ body_valid b.

(** The listing of a directory: [3] more than its bytes is the size. *)
Definition listing_here (blk off size : Z) (gs : list dirgroup) : Prop := ∃ k db,
  im_dir_ds im !! k = Some db ∧ blk = block_ref (im_dir_ds im) k ∧ in_file (concat (im_dirs im)) (pos_of (im_dirs im) k off) (listing_bytes gs) ∧
  size = 3 + Z.of_nat (length (listing_bytes gs)) ∧ Forall group_valid gs.

Definition dir_fields (b : body) : option (Z * Z * Z) :=
  match b with BDir blk _ size off _ => Some (blk, off, size) | BDirExt _ size blk _ _ off _ => Some (blk, off, size) | _ => None end.

Fixpoint describes (t : tree) (ref : Z) : Prop :=
  match t with
  | Node pos a b data kids =>
      inode_here ref pos a b ∧ file_here b data ∧
      match dir_fields b with
      | None => kids = []
      | Some (blk, off, size) => ∃ gs, listing_here blk off size gs ∧
          (fix go (kids : list (list Z * tree)) (refs : list (list Z * Z)) : Prop := match kids, refs with
           | [], [] => True
           | (name, k) :: kids, (name', r) :: refs => name = name' ∧ describes k r ∧ go kids refs
           | _, _ => False
           end) kids (listing_refs gs)
      end
  end.

(** ** The image, opened *)

Context (Hlen : Z.of_nat (length f) < 2 ^ 48) (ctx : sqfs_ctx) (O : opened f ctx s im).

Lemma inode_found ref pos a b : inode_here ref pos a b →
  stream_resolve (inode_stream ctx) (Z.shiftr ref 16) (Z.land ref 0xffff) = Some pos ∧ in_file (s_buf (inode_stream ctx)) pos (inode_bytes a b) ∧ attrs_valid a ∧ body_valid b.
Proof using O.
  intros (k & db & o & Hk & Ho & -> & -> & Hin & Va & Vb). rewrite (op_inodes f ctx s im O). split; [|done]. rewrite Z.shiftr_div_pow2 by lia. change (2 ^ 16) with 65536.
  rewrite (land_mask _ _ 16) by done. change (2 ^ 16) with 65536. replace ((block_ref (im_inode_ds im) k * 65536 + o) / 65536) with (block_ref (im_inode_ds im) k) by (unfold is_u16 in Ho; dlia).
  replace ((block_ref (im_inode_ds im) k * 65536 + o) mod 65536) with o by (unfold is_u16 in Ho; dlia). by apply (op_iref f ctx s im O k o db).
Qed.

Lemma listing_found blk off size gs : listing_here blk off size gs → ∃ dpos,
  stream_resolve (dir_stream ctx) blk off = Some dpos ∧ in_file (s_buf (dir_stream ctx)) dpos (listing_bytes gs) ∧ size = 3 + Z.of_nat (length (listing_bytes gs)) ∧ Forall group_valid gs.
Proof using O.
  intros (k & db & Hk & -> & H). exists (pos_of (im_dirs im) k off). rewrite (op_dirs f ctx s im O). split; [|done]. by apply (op_dref f ctx s im O k off db).
Qed.

(** ** Reading fields *)

Lemma slice_here buf pos x y n : in_file buf pos (x ++ y) → n = Z.of_nat (length x) → slice buf pos n = Ok x.
Proof using. clear. intros H ->. apply in_file_app in H as [(H1 & H2 & H3) _]. rewrite slice_ok by lia. by rewrite Nat2Z.id, H3. Qed.

Lemma f16_head v r : is_u16 v → f16 (le_bytes 2 v ++ r) 0 = v.
Proof using. clear. intros H. by apply (le_field 2). Qed.

Lemma hdr_read b a : attrs_valid a → is_u16 (body_type b) → hdr_of (hdr_bytes b a) = mkHdr (body_type b) (a_mode a) (a_uid a) (a_gid a) (a_mtime a) (a_ino a).
Proof using.
  clear. intros (H1 & H2 & H3 & H4 & H5) H6. unfold hdr_of, f16, f32. f_equal; first [by apply (le_field 2)|by apply (le_field 4)].
Qed.

Lemma type_small b : body_valid b → is_u16 (body_type b).
Proof using.
  clear. destruct b as [| | | |ext nl tg|kind nl rd|kind nl]; [intros _; by vm_compute..|intros _; destruct ext; by vm_compute|intros [H _]|intros H]; cbn in H; revert H; rewrite !elem_of_cons, elem_of_nil;
    unfold is_u16, body_type, SQFS_BLK_TYPE, SQFS_CHR_TYPE, SQFS_EBLK_TYPE, SQFS_ECHR_TYPE, SQFS_FIFO_TYPE, SQFS_SOCK_TYPE, SQFS_EFIFO_TYPE, SQFS_ESOCK_TYPE; lia.
Qed.

(** A stretch inside a stretch. *)
Lemma slice_inside buf pos l o n x : in_file buf pos l → slice l o n = Ok x → slice buf (pos + o) n = Ok x.
Proof using.
  clear. intros (H1 & H2 & H3) Hs. unfold slice in Hs. destruct (_ && _) eqn:E in Hs; [|done]. zbool. injection Hs as <-. rewrite slice_ok by lia. f_equal. rewrite <- H3. unfold sub.
  rewrite Z2Nat.inj_add by lia. rewrite skipn_firstn_comm, take_take, drop_drop, Nat.min_l by lia. done.
Qed.

(** ** Reading a file *)

Lemma decompress_ok g cb b cap : inflates cb b → Z.of_nat (length b) <= cap → ∃ g', data_decompress g cb cap = (Ok b, g').
Proof using.
  clear. intros Hi Hc. unfold data_decompress. set (d := match g with None => _ | Some d => _ end).
  assert (fresh d) as Hd by (unfold d, fresh; destruct g; eauto). specialize (Hi d cap Hd Hc). destruct (xz_all d cb cap) as [o d']. cbn in Hi. subst o. eauto.
Qed.

Lemma read_block_ok g w b remaining disk : block_here disk w b → 0 <= disk → Z.of_nat (length b) <= remaining →
  ∃ g', read_block ctx g w (Z.of_nat (length b)) remaining disk = (Ok (b, Z.land w 0x00ffffff), g') ∧ 0 <= Z.land w 0x00ffffff ∧
    (Z.land w 0x00ffffff = 0 ∨ disk + Z.land w 0x00ffffff <= Z.of_nat (length f)).
Proof using O.
  intros H Hd Hr. unfold read_block. rewrite (proj2 (Z.ltb_ge _ _)) by lia. rewrite (op_file f ctx s im O). destruct H as [w n Hw E|b Hb Hin|cb b Hb Hin Hi].
  - rewrite E. exists g. cbn [Z.eqb]. split; [|lia]. by rewrite length_replicate, Nat2Z.id.
  - rewrite (land_mask _ _ 24) by done. replace ((2 ^ 24 + Z.of_nat (length b)) mod 2 ^ 24) with (Z.of_nat (length b)) by dlia.
    rewrite (proj2 (Z.eqb_neq _ 0)) by lia. change 0x01000000 with (2 ^ 24). rewrite (flag_bit 24) by lia. rewrite (proj2 (Z.leb_le _ _)) by lia. rewrite Z.eqb_refl. cbn [negb].
    rewrite (raw_read f disk b) by (done || lia). exists g. split; [done|]. destruct Hin as (_ & ? & _). lia.
  - rewrite (land_mask _ _ 24) by done. rewrite Z.mod_small by lia. rewrite (proj2 (Z.eqb_neq _ 0)) by lia. change 0x01000000 with (2 ^ 24). rewrite (flag_bit 24) by lia. rewrite (proj2 (Z.leb_gt _ _)) by lia.
    rewrite (raw_read f disk cb) by (done || lia). destruct (decompress_ok g cb b (Z.of_nat (length b)) Hi ltac:(lia)) as (g' & ->). exists g'.
    unfold fail_if. rewrite bind_ok_eq, Z.eqb_refl. cbn [negb]. split; [done|]. destruct Hin as (_ & ? & _). lia.
Qed.

Lemma block_loop_ok so n_full tail fsize ws : ∀ bs g i disk out, blocks_here disk ws bs → 0 <= disk < 18446744073709551616 → Forall is_u32 ws →
  (∀ k w, ws !! k = Some w → slice (s_buf (inode_stream ctx)) (so + (i + Z.of_nat k) * 4) 4 = Ok (le_bytes 4 w)) →
  (∀ k b, bs !! k = Some b → Z.of_nat (length b) = if i + Z.of_nat k <? n_full then block_size s else tail) →
  Z.of_nat (length out) + Z.of_nat (length (concat bs)) <= fsize →
  ∃ g', file_loop (length ws) ctx g so i n_full tail fsize disk out = (Ok (out ++ concat bs), g').
Proof using O Hlen.
  induction ws as [|w ws IH]; intros bs g i disk out Hb Hd Hw Hsl Hlb Hl; (destruct bs as [|b bs]; [try done|try done]); [cbn; rewrite app_nil_r; eauto|].
  destruct Hb as [Hb1 Hb2]. apply Forall_cons in Hw as [Hw1 Hw2]. cbn [length file_loop]. pose proof (Hsl 0%nat w eq_refl) as H0. rewrite Z.add_0_r in H0. rewrite H0.
  pose proof (Hlb 0%nat b eq_refl) as Lb. rewrite Z.add_0_r in Lb. rewrite (op_sb f ctx s im O), <- Lb, (le_field 4) by exact Hw1. cbn [concat] in Hl. rewrite length_app in Hl.
  destruct (read_block_ok g w b (fsize - Z.of_nat (length out)) disk Hb1 ltac:(lia) ltac:(lia)) as (g' & -> & R1 & R2).
  unfold put_in. rewrite (proj2 (Z.ltb_ge _ _)) by lia. rewrite u64_small by lia.
  destruct (IH bs g' (i + 1) (disk + Z.land w 0x00ffffff) (out ++ b) Hb2 ltac:(lia) Hw2) as (g2 & E).
  - intros k w' Hk. rewrite <- (Hsl (S k) w' Hk). f_equal. lia.
  - intros k b' Hk. rewrite (Hlb (S k) b' Hk). replace (i + 1 + Z.of_nat k) with (i + Z.of_nat (S k)) by lia. done.
  - rewrite length_app. lia.
  - exists g2. rewrite E. cbn [concat]. by rewrite <- app_assoc.
Qed.

Lemma fragment_ok g frag foff tail : fragment_here frag foff tail → ∃ g', read_fragment ctx g frag foff (Z.of_nat (length tail)) = (Ok tail, g').
Proof using O.
  intros (fstart & w & fb & Hf & Hi & Hu & Hw & Hfb & Hst & Ho & Hin). destruct (op_frags f ctx s im O _ _ Hi) as [C1 C2]. rewrite Z2Nat.id in C1, C2 by done.
  unfold read_fragment. rewrite (proj2 (Z.leb_gt _ _)) by lia. rewrite C2. assert (f64 (frag_bytes (fstart, w)) 0 = fstart) as -> by by apply (le_field 8).
  assert (f32 (frag_bytes (fstart, w)) 8 = w) as -> by by apply (le_field 4). rewrite (op_file f ctx s im O). change 0x01000000 with (2 ^ 24).
  assert (∀ (o : outcome (list Z)) g', o = Ok fb → (fragdec ← o; fail_if (Z.of_nat (length fragdec) <? foff + Z.of_nat (length tail)) (-1) (slice fragdec foff (Z.of_nat (length tail))), g') = (Ok tail, g' : option xz_dec)) as Hend.
  { intros o g' ->. rewrite bind_ok_eq. unfold fail_if. destruct Hin as (_ & H2 & H3). rewrite (proj2 (Z.ltb_ge _ _)) by lia. rewrite slice_ok by lia. by rewrite Nat2Z.id, H3. }
  destruct Hst as [(-> & L & Hd)|(cb & -> & L & Hd & Hinf)]; rewrite (land_mask _ _ 24), (flag_bit 24) by (done || lia).
  - replace ((2 ^ 24 + Z.of_nat (length fb)) mod 2 ^ 24) with (Z.of_nat (length fb)) by dlia. rewrite (proj2 (Z.leb_le _ _)) by lia. rewrite (raw_read f fstart fb) by (done || lia). exists g. by apply Hend.
  - rewrite Z.mod_small by lia. rewrite (proj2 (Z.leb_gt _ _)) by lia. rewrite (raw_read f fstart cb) by (done || lia). rewrite (op_sb f ctx s im O).
    destruct (decompress_ok g cb fb (block_size s) Hinf Hfb) as (g' & ->). exists g'. by apply Hend.
Qed.

Lemma file_inode_ok ref pos a b start size frag foff sizes : inode_here ref pos a b → file_fields b = Some (start, size, frag, foff, sizes) →
  ∃ so avail, file_inode ctx pos = Ok (so, avail, (start, size, frag, foff)) ∧ Z.of_nat (length sizes) <= avail ∧
    ∀ k w, sizes !! k = Some w → slice (s_buf (inode_stream ctx)) (so + Z.of_nat k * 4) 4 = Ok (le_bytes 4 w).
Proof using O.
  intros Hhere Hf. destruct (inode_found ref pos a b Hhere) as (_ & Hin & Va & Vb). pose proof Hin as Hin0. unfold inode_bytes in Hin. apply in_file_app in Hin as Hin2. destruct Hin2 as [_ Hin2]. apply in_file_app in Hin2 as [Hin2 Hin3].
  assert (length (hdr_bytes b a) = 16%nat) as Lh by done. rewrite Lh in *. change (Z.of_nat 16) with 16 in *. pose proof (type_small b Vb) as Ht.
  assert (body_tail b = concat (map (le_bytes 4) sizes)) as Et by (destruct b; cbn in Hf; try done; by injection Hf as _ _ _ _ <-).
  pose proof (length_records (le_bytes 4) 4 sizes (length_le_bytes 4)) as Ls. rewrite Et in Hin3. pose proof Hin3 as (_ & Hend & _). pose proof Hin2 as (Hp & _).
  assert (∀ so, so = pos + 16 + Z.of_nat (length (body_bytes b)) → ∀ k w, sizes !! k = Some w → slice (s_buf (inode_stream ctx)) (so + Z.of_nat k * 4) 4 = Ok (le_bytes 4 w)) as Hsl.
  { intros so -> k w Hk. eapply slice_inside; [exact Hin3|]. by apply (record_slice (le_bytes 4) 4 (length_le_bytes 4)). }
  unfold file_inode. rewrite (slice_here _ pos (hdr_bytes b a) (body_bytes b ++ body_tail b) 16 Hin0 eq_refl), bind_ok_eq, (hdr_read b a Va Ht). cbn [h_type].
  assert (pos + 16 + Z.of_nat (length (body_bytes b)) + Z.of_nat (length (concat (map (le_bytes 4) sizes))) <= s_len (inode_stream ctx)) as Hend' by exact Hend.
  rewrite Ls in Hend'.
  rewrite <- (app_nil_r (body_bytes b)) in Hin2.
  destruct b as [| |st fr fo sz szs|st sz sp nl fr fo xa szs| | |]; cbn in Hf; try done; injection Hf as -> -> -> -> ->; cbn [body_type body_bytes] in *.
  - rewrite (slice_here _ _ _ _ 16 Hin2 eq_refl). unfold fail_if. rewrite !(proj2 (Z.ltb_ge _ _)) by (cbn [length le_bytes app] in Hend'; lia). change (SQFS_REG_TYPE =? SQFS_REG_TYPE) with true. rewrite bind_ok_eq.
    exists (pos + 16 + 16), ((s_len (inode_stream ctx) - (pos + 16) - 16) / 4). destruct Vb as (V1 & V2 & V3 & V4 & V5). split; [|split; [cbn [length le_bytes app] in Hend'; dlia|by apply Hsl]].
    unfold basic_file, f32. repeat f_equal; by apply (le_field 4).
  - rewrite (slice_here _ _ _ _ 40 Hin2 eq_refl). unfold fail_if. rewrite !(proj2 (Z.ltb_ge _ _)) by (cbn [length le_bytes app] in Hend'; lia).
    change (SQFS_EREG_TYPE =? SQFS_REG_TYPE) with false. change (SQFS_EREG_TYPE =? SQFS_EREG_TYPE) with true. cbv iota. rewrite bind_ok_eq.
    exists (pos + 16 + 40), ((s_len (inode_stream ctx) - (pos + 16) - 40) / 4). destruct Vb as (V1 & V2 & V3 & V4 & V5 & V6). split; [|split; [cbn [length le_bytes app] in Hend'; dlia|by apply Hsl]].
    unfold ext_file, f32, f64. repeat f_equal; first [by apply (le_field 8)|by apply (le_field 4)].
Qed.

Lemma blocks_count ws : ∀ disk bs, blocks_here disk ws bs → length ws = length bs.
Proof using. clear. induction ws as [|w ws IH]; intros disk [|b bs]; cbn; try done. intros [_ H]. f_equal. by eapply IH. Qed.

Lemma concat_full (bs : list (list Z)) n : Forall (λ x, Z.of_nat (length x) = n) bs → Z.of_nat (length (concat bs)) = Z.of_nat (length bs) * n.
Proof using. clear. induction 1 as [|b bs H _ IH]; [done|]. cbn [concat length]. rewrite length_app. lia. Qed.

Lemma read_file_ok ref pos a b data g e : inode_here ref pos a b → is_file b = true → file_here b data → e_file_inode_off e = pos → 0 < block_size s →
  fst (sqfs_read_file ctx g e) = Ok data.
Proof using O Hlen.
  intros Hi Hk Hfile He Hbz. destruct (file_fields b) as [[[[[start size] frag] foff] sizes]|] eqn:Ef; [|by destruct b].
  destruct (Hfile _ _ _ _ _ Ef) as (Esz & bs & last & Ed & Hb & Hn & Hfull & Hlast & Hfr).
  assert (is_u64 start ∧ is_u32 frag ∧ Forall is_u32 sizes) as (U1 & U2 & U3).
  { destruct (inode_found ref pos a b Hi) as (_ & _ & _ & Vb). destruct b; cbn in Ef; try done; injection Ef as -> -> -> -> ->; cbn in Vb; unfold is_u32, is_u64 in *; intuition lia. }
  destruct (file_inode_ok ref pos a b _ _ _ _ _ Hi Ef) as (so & avail & Ei & Ha & Hsl).
  unfold sqfs_read_file. rewrite He, Ei, (op_sb f ctx s im O). rewrite (proj2 (Z.eqb_neq _ 0)) by lia. set (bz := block_size s) in *.
  pose proof (concat_full bs bz Hfull) as Lc. pose proof (Z.div_mod size bz ltac:(lia)) as Hdm. pose proof (Z.mod_pos_bound size bz Hbz) as Hm. assert (0 <= size / bz) as H0 by (apply Z.div_pos; lia).
  set (n := Z.to_nat (size / bz)) in *. assert (size / bz = Z.of_nat n) as En by (unfold n; lia). set (tail := size mod bz) in *.
  set (bl := if (frag =? 0xffffffff) && negb (tail =? 0) then bs ++ [last] else bs) in *. pose proof (blocks_count _ _ _ Hb) as Hc.
  assert ((if negb (frag =? 0xffffffff) then size / bz else size / bz + (if tail =? 0 then 0 else 1)) = Z.of_nat (length sizes)) as ->.
  { rewrite Hc, En. unfold bl. destruct (frag =? 0xffffffff), (tail =? 0); cbn [negb andb]; rewrite ?length_app; cbn [length]; lia. }
  rewrite (proj2 (Z.ltb_ge _ _)) by lia. rewrite Nat2Z.id.
  destruct (block_loop_ok so (size / bz) tail size sizes bl g 0 start [] Hb U1 U3) as (g1 & ->).
  - intros k w Hw. rewrite Z.add_0_l. by apply Hsl.
  - intros k x Hx. rewrite Z.add_0_l. pose proof Hfull as Hfull'. rewrite list.Forall_forall in Hfull'. unfold bl in Hx. destruct (_ && _).
    + apply lookup_app_Some in Hx as [Hx|[Hx1 Hx2]].
      * rewrite (proj2 (Z.ltb_lt _ _)) by (apply lookup_lt_Some in Hx; lia). by apply Hfull', (list_elem_of_lookup_2 _ k).
      * destruct (k - length bs)%nat eqn:Ek; [|done]. injection Hx2 as <-. rewrite (proj2 (Z.ltb_ge _ _)) by lia. done.
    + rewrite (proj2 (Z.ltb_lt _ _)) by (apply lookup_lt_Some in Hx; lia). by apply Hfull', (list_elem_of_lookup_2 _ k).
  - unfold bl. cbn [length]. destruct (_ && _); [rewrite concat_snoc, length_app|]; lia.
  - cbn [app]. destruct ((negb (frag =? 0xffffffff)) && (0 <? tail)) eqn:Eft.
    + apply andb_prop in Eft as [E1 E2]. apply negb_true_iff in E1. unfold bl. rewrite E1. cbn [andb]. apply Z.eqb_neq in E1. apply Z.ltb_lt in E2.
      destruct (fragment_ok g1 frag foff last (Hfr E1 E2)) as (g2 & Efr). rewrite Hlast in Efr. rewrite Efr. cbn [fst]. rewrite bind_ok_eq. unfold put_in. rewrite (proj2 (Z.ltb_ge _ _)) by lia.
      rewrite bind_ok_eq, <- Ed. unfold fail_if. by rewrite <- Esz, Z.eqb_refl.
    + cbn [fst]. rewrite bind_ok_eq. unfold put_in. assert (concat bl = data) as ->.
      { rewrite Ed. unfold bl. destruct (Z.eqb_spec tail 0) as [Hz|Hz].
        - rewrite andb_false_r. destruct last; [by rewrite app_nil_r|cbn in Hlast; lia].
        - destruct (frag =? 0xffffffff); cbn [negb andb] in *; [by rewrite concat_snoc|]. apply Z.ltb_ge in Eft. lia. }
      rewrite app_nil_r. cbn [length]. rewrite (proj2 (Z.ltb_ge _ _)) by lia. rewrite bind_ok_eq. unfold fail_if. by rewrite <- Esz, Z.eqb_refl.
Qed.

(** ** The walk *)

Lemma lor_add16 a b : is_u16 b → a * 65536 + b = Z.lor (a * 65536) b.
Proof using.
  clear. intros Hb. rewrite <- Z.add_lor_land. enough (Z.land (a * 65536) b = 0) as -> by lia. change 65536 with (2 ^ 16). rewrite <- Z.shiftl_mul_pow2 by lia.
  apply Z.bits_inj'. intros i Hi. rewrite Z.land_spec, Z.bits_0. destruct (Z.ltb_spec i 16); [by rewrite Z.shiftl_spec_low|].
  rewrite <- (Z.mod_small b (2 ^ 16)) by exact Hb. rewrite Z.mod_pow2_bits_high by lia. apply andb_false_r.
Qed.

(** Evaluate the tests on the kind of an inode that is known. *)
Ltac kind_tests :=
  repeat match goal with
  | |- context [?a =? ?b] => first [change (a =? b) with true|change (a =? b) with false]
  end; cbn [orb].

Section walk.
Context {U : Type} (cb : sqfs_entry_t → U → Z * U).
Abbreviation ids := (im_uids im).

(** A step has reported the entries [es] and given back path and depth. *)
Definition walked (es : list sqfs_entry_t) (w : walk_state U) (rc : Z) (w' : walk_state U) : Prop :=
  (rc, w_user w') = run_cb cb es (w_user w) ∧ w_cb_rc w' = rc ∧ w_path w' = w_path w ∧ w_depth w' = w_depth w.

(** Paths of the walk: empty, or a slash and a name. *)
Definition path_ok (p : list Z) : Prop := p = [] ∨ (2 <= length p)%nat.

Lemma push_join (w : walk_state U) name : path_ok (w_path w) → Z.of_nat (length (w_path w)) + 1 + Z.of_nat (length name) + 1 <= PATH_BUF →
  path_push w name = Ok (with_path w (join (w_path w) name)).
Proof using.
  clear. intros Hp Hl. unfold path_push, join. rewrite (proj2 (Z.ltb_ge _ _)) by lia. assert ((1 <? Z.of_nat (length (w_path w))) || ((Z.of_nat (length (w_path w)) =? 1) && negb (bget (w_path w) 0 =? 47)) || (Z.of_nat (length (w_path w)) =? 0) = true) as ->.
  { destruct Hp as [-> |H]; [done|]. by rewrite (proj2 (Z.ltb_lt _ _)) by lia. }
  unfold put_in. rewrite !length_app. cbn [length]. rewrite (proj2 (Z.ltb_ge _ _)), bind_ok_eq by lia. by rewrite <- app_assoc.
Qed.

Section listing.
Context (child : Z → walk_state U → outcome (Z * walk_state U)) (path : list Z) (depth : Z) (Hpath : path_ok path).

(** The child of a name is walked as its tree says. *)
Definition child_ok (r : list Z * Z) (k : list Z * tree) : Prop :=
  fst r = fst k ∧ Z.of_nat (length path) + 1 + Z.of_nat (length (fst k)) + 1 <= PATH_BUF ∧
  ∀ w, w_cb_rc w = 0 → w_path w = join path (fst k) → w_depth w = depth →
    ∃ rc w', child (snd r) w = Ok (rc, w') ∧ walked (entries ids (join path (fst k)) (snd k)) w rc w'.
Definition kids_entries (kids : list (list Z * tree)) : list sqfs_entry_t := concat (map (λ k, entries ids (join path (fst k)) (snd k)) kids).

Lemma entry_loop_ok buf start end_ ds : is_u32 start → Forall dirent_valid ds → ∀ kids p w, Forall2 child_ok (map (λ d, (de_name d, start * 65536 + de_off d)) ds) kids →
  w_cb_rc w = 0 → w_path w = path → w_depth w = depth → in_file buf p (concat (map dirent_bytes ds)) → p + Z.of_nat (length (concat (map dirent_bytes ds))) <= end_ →
  ∃ rc p' w', entry_loop child (length ds) buf start end_ p w = Ok (rc, p', w') ∧ walked (kids_entries kids) w rc w' ∧ (rc = 0 → p' = p + Z.of_nat (length (concat (map dirent_bytes ds)))).
Proof using All.
  intros Hst. induction ds as [|d ds IH]; intros Hv kids p w Hk Hrc Hp Hd Hin He.
  { inversion Hk; subst. cbn [length entry_loop map concat]. exists 0, p, w. split; [done|]. split; [done|]. cbn. lia. }
  apply Forall_cons in Hv as [[Vo Vn] Hv]. cbn [map] in Hk. inversion Hk as [|r [nm k] rs kids' [Hn [Hf Hc]] Hk']; subst. cbn [fst snd] in *. subst nm.
  cbn [map concat length entry_loop] in *. rewrite length_app in He. apply in_file_app in Hin as [I1 I2].
  unfold dirent_bytes in I1. apply in_file_app in I1 as H1. destruct H1 as [_ I3]. change (Z.of_nat (length (de_head d))) with 8 in *. rewrite <- (app_nil_r (de_name d)) in I3.
  assert (Z.of_nat (length (dirent_bytes d)) = 8 + Z.of_nat (length (de_name d))) as Ld by (unfold dirent_bytes; rewrite length_app; change (length (de_head d)) with 8%nat; lia).
  rewrite (proj2 (Z.ltb_ge _ _)) by lia. rewrite (slice_here buf p (de_head d) (de_name d) 8 I1 eq_refl), bind_ok_eq.
  assert (f16 (de_head d) 6 = Z.of_nat (length (de_name d)) - 1) as -> by (apply (le_field 2); change (256 ^ Z.of_nat 2) with 65536; lia). assert (f16 (de_head d) 0 = de_off d) as -> by by apply (le_field 2).
  replace (Z.of_nat (length (de_name d)) - 1 + 1) with (Z.of_nat (length (de_name d))) by lia. rewrite (proj2 (Z.ltb_ge _ _)) by lia.
  replace (if Z.of_nat (length (de_name d)) <? 255 then Z.of_nat (length (de_name d)) else 255) with (Z.of_nat (length (de_name d))) by (destruct (Z.ltb_spec (Z.of_nat (length (de_name d))) 255); lia).
  rewrite (slice_here buf (p + 8) (de_name d) [] _ I3 eq_refl), bind_ok_eq.
  unfold put_in at 1. rewrite (proj2 (Z.ltb_ge _ _)), bind_ok_eq by (unfold ENTRY_NAME_BUF; cbn [length]; lia).
  assert (Z.lor (u64 (Z.shiftl start 16)) (de_off d) = start * 65536 + de_off d) as ->.
  { rewrite Z.shiftl_mul_pow2 by lia. change (2 ^ 16) with 65536. rewrite u64_small by (unfold is_u32 in Hst; lia). symmetry. apply (lor_add16 start). exact Vo. }
  rewrite push_join by (rewrite Hp; first [done|lia]). rewrite bind_ok_eq, Hp.
  destruct (Hc (with_path w (join path (de_name d)))) as (rc & w2 & -> & W1 & W2 & W3 & W4); [done|done|done|]. rewrite bind_ok_eq. cbn [w_path w_user w_depth with_path] in *.
  set (w3 := path_pop w2 _). assert (w_path w3 = path) as E3 by (unfold w3, path_pop; cbn [with_path w_path]; rewrite W3, Nat2Z.id; unfold join; apply take_app_length).
  assert (w_user w3 = w_user w2 ∧ w_cb_rc w3 = rc ∧ w_depth w3 = depth) as (E4 & E5 & E6) by (split_and!; try done; by rewrite <- Hd). clearbody w3.
  unfold walked, kids_entries. cbn [map concat fst snd]. rewrite run_cb_app, <- W1. destruct (Z.eqb_spec rc 0) as [->|Hne]; cbn [negb].
  - rewrite E5. cbn [Z.eqb negb]. replace (p + 8 + Z.of_nat (length (de_name d))) with (p + Z.of_nat (length (dirent_bytes d))) by lia.
    destruct (IH Hv kids' (p + Z.of_nat (length (dirent_bytes d))) w3 Hk' E5 E3 E6 I2 ltac:(lia)) as (rc & p' & w' & E & (A1 & A2 & A3 & A4) & A5).
    exists rc, p', w'. split; [exact E|]. unfold kids_entries in A1. rewrite E4 in A1. split; [split_and!; [done|done|congruence|congruence]|]. intros Hz. rewrite (A5 Hz), length_app. lia.
  - exists rc, (p + 8 + Z.of_nat (length (de_name d))), w3. split; [done|]. split; [split_and!; [by rewrite E4|done|congruence|congruence]|done].
Qed.

Lemma kids_entries_app k1 k2 : kids_entries (k1 ++ k2) = kids_entries k1 ++ kids_entries k2.
Proof using. clear. unfold kids_entries. by rewrite map_app, concat_app. Qed.

Lemma dir_loop_ok buf end_ gs : Forall group_valid gs → ∀ fuel kids p w, Forall2 child_ok (listing_refs gs) kids → w_cb_rc w = 0 → w_path w = path → w_depth w = depth →
  in_file buf p (listing_bytes gs) → end_ = p + Z.of_nat (length (listing_bytes gs)) → end_ - p <= Z.of_nat fuel →
  ∃ rc w', dir_loop fuel child buf end_ p w = Ok (rc, w') ∧ walked (kids_entries kids) w rc w'.
Proof using All.
  induction gs as [|g gs IH]; intros Hv fuel kids p w Hk Hrc Hp Hd Hin -> Hfu.
  { inversion Hk; subst. exists 0, w. cbn [listing_bytes map concat length]. rewrite Z.add_0_r. destruct fuel; cbn [dir_loop]; rewrite Z.ltb_irrefl; done. }
  apply Forall_cons in Hv as [(V1 & V2 & V3) Hv]. unfold listing_refs in Hk. cbn [map concat] in Hk. apply Forall2_app_inv_l in Hk as (ks1 & ks2 & Hk1 & Hk2 & ->).
  unfold listing_bytes in *. cbn [map concat] in *. rewrite length_app in *. apply in_file_app in Hin as [I1 I2]. pose proof I1 as I3. unfold group_bytes in I3. apply in_file_app in I3 as H3. destruct H3 as [_ I4].
  set (eb := concat (map dirent_bytes (dg_ents g))) in *. assert (Z.of_nat (length (group_bytes g)) = 12 + Z.of_nat (length eb)) as Lg by (unfold group_bytes; rewrite length_app; change (length (dg_head g)) with 12%nat; unfold eb; lia).
  change (Z.of_nat (length (dg_head g))) with 12 in *. destruct fuel as [|fuel]; [lia|]. cbn [dir_loop].
  rewrite (proj2 (Z.ltb_lt _ _)), (proj2 (Z.ltb_ge _ _)) by lia. rewrite (slice_here buf p (dg_head g) eb 12 I3 eq_refl), bind_ok_eq.
  assert (f32 (dg_head g) 0 = Z.of_nat (length (dg_ents g)) - 1) as -> by (apply (le_field 4); change (256 ^ Z.of_nat 4) with (2 ^ 32); lia). assert (f32 (dg_head g) 4 = dg_start g) as -> by by apply (le_field 4).
  replace (Z.of_nat (length (dg_ents g)) - 1 + 1) with (Z.of_nat (length (dg_ents g))) by lia. rewrite u32_small by lia. rewrite Nat2Z.id.
  destruct (entry_loop_ok buf (dg_start g) (p + Z.of_nat (length (group_bytes g) + length (concat (map group_bytes gs)))) (dg_ents g) V1 V3 ks1 (p + 12) w Hk1 Hrc Hp Hd I4 ltac:(unfold eb in *; lia))
    as (rc & p' & w1 & -> & (A1 & A2 & A3 & A4) & A5). rewrite bind_ok_eq. unfold walked. rewrite kids_entries_app, run_cb_app, <- A1.
  destruct (Z.eqb_spec rc 0) as [->|Hne]; cbn [negb].
  - rewrite (A5 eq_refl). replace (p + 12 + Z.of_nat (length (concat (map dirent_bytes (dg_ents g))))) with (p + Z.of_nat (length (group_bytes g))) by (unfold eb in *; lia).
    destruct (IH Hv fuel ks2 (p + Z.of_nat (length (group_bytes g))) w1 Hk2 A2 ltac:(congruence) ltac:(congruence) I2 ltac:(lia) ltac:(lia)) as (rc & w2 & E & B1 & B2 & B3 & B4).
    exists rc, w2. rewrite E || (replace (p + Z.of_nat (length (group_bytes g) + length (concat (map group_bytes gs)))) with (p + Z.of_nat (length (group_bytes g)) + Z.of_nat (length (concat (map group_bytes gs)))) by lia; rewrite E).
    split; [done|]. split_and!; [done|done|congruence|congruence].
  - exists rc, w1. split; [done|]. split_and!; done.
Qed.
End listing.

(** *** The recursive definitions, as relations on lists *)

Lemma describes_kids (kids : list (list Z * tree)) : ∀ refs : list (list Z * Z), (fix go (kids : list (list Z * tree)) (refs : list (list Z * Z)) : Prop := match kids, refs with
    | [], [] => True
    | (name, k) :: kids, (name', r) :: refs => name = name' ∧ describes k r ∧ go kids refs
    | _, _ => False
    end) kids refs ↔ Forall2 (λ r k, fst r = fst k ∧ describes (snd k) (snd r)) refs kids.
Proof using.
  induction kids as [|[nm k] kids IH]; intros [|[nm' r] refs]; cbn.
  - split; [constructor|done].
  - split; [done|]. intros H. inversion H.
  - split; [done|]. intros H. inversion H.
  - rewrite IH. split; [intros (-> & H1 & H2); by constructor|]. intros H. inversion H as [|? ? ? ? [? ?]]; subst. by split_and!.
Qed.

Lemma contents_kids path pos a b data kids : entries ids path (Node pos a b data kids) =
  mkEnt path (body_type b) (a_mode a) (nth (Z.to_nat (a_uid a)) ids 0) (nth (Z.to_nat (a_gid a)) ids 0) (a_mtime a) (report_size b) (body_rdev b) (body_target b) pos (body_xattr b) ::
  kids_entries path kids.
Proof using.
  unfold entries, kids_entries. cbn [contents map fst]. f_equal. induction kids as [|[nm k] kids IH]; [done|]. cbn [map concat fst snd]. by rewrite map_app, IH.
Qed.

Lemma fits_kids depth path pos a b data kids : fits depth path (Node pos a b data kids) = true →
  depth < 64 ∧ Forall (λ k, Z.of_nat (length path) + 1 + Z.of_nat (length (fst k)) + 1 <= PATH_BUF ∧ fits (depth + 1) (join path (fst k)) (snd k) = true) kids.
Proof using.
  clear. cbn [fits]. intros H. apply andb_prop in H as [H1 H2]. apply Z.ltb_lt in H1. split; [exact H1|]. induction kids as [|[nm k] kids IH]; [constructor|].
  apply andb_prop in H2 as [H2 H3]. apply andb_prop in H2 as [H2 H4]. apply Z.leb_le in H2. constructor; [by split|by apply IH].
Qed.

Lemma leaf_ok k e (w : walk_state U) : w_cb_rc w = 0 → ∃ rc w', leaf cb k e w = Ok (rc, w') ∧ walked [e] w rc w'.
Proof using.
  clear. intros Hrc. unfold leaf, report. rewrite Hrc, Z.eqb_refl. unfold walked. cbn [run_cb]. destruct (cb e (w_user w)) as [rc u]. eexists _, _. split; [reflexivity|]. cbn.
  destruct (Z.eqb_spec rc 0) as [->|]; by split_and!.
Qed.

Lemma listing_names gs : Forall group_valid gs → Forall (λ r, 1 <= Z.of_nat (length (fst r))) (listing_refs gs).
Proof using.
  clear. intros H. unfold listing_refs. apply Forall_concat, Forall_map. eapply Forall_impl; [exact H|]. intros g (_ & _ & Hd). apply Forall_map. eapply Forall_impl; [exact Hd|]. intros d [_ ?]. cbn. lia.
Qed.

(** A directory: report it, then its listing. *)
Lemma directory_ok fuel blk off size e kids gs path depth (w : walk_state U) : listing_here blk off size gs → w_cb_rc w = 0 → w_path w = path → w_depth w = depth → path_ok path →
  Forall2 (child_ok (walk_inode ctx cb fuel) path (depth + 1)) (listing_refs gs) kids →
  ∃ rc w', (let w := report cb e w in
      if negb (w_cb_rc w =? 0) then Ok (w_cb_rc w, w) else
      let w := count ADir w in
      '(rc, w) ← walk_directory ctx (walk_inode ctx cb fuel) blk off size (set_depth w (w_depth w + 1));
      Ok (rc, set_depth w (w_depth w - 1))) = Ok (rc, w') ∧ walked (e :: kids_entries path kids) w rc w'.
Proof using All.
  intros Hl Hrc Hp Hd Hpo Hk. destruct (listing_found blk off size gs Hl) as (dpos & Hr & Hin & Hsz & Hv). cbv zeta. unfold report. rewrite Hrc, Z.eqb_refl. unfold walked. cbn [run_cb]. destruct (cb e (w_user w)) as [rc u]. cbn [w_cb_rc].
  destruct (Z.eqb_spec rc 0) as [->|Hne]; cbn [negb]; [|eexists _, _; split; [reflexivity|]; by split_and!].
  set (w1 := set_depth _ _). assert (w_user w1 = u ∧ w_cb_rc w1 = 0 ∧ w_path w1 = path ∧ w_depth w1 = depth + 1) as (E1 & E2 & E3 & E4) by (unfold w1; cbn; rewrite Hd; by split_and!). clearbody w1.
  unfold walk_directory. rewrite Hr. destruct Hin as (I1 & I2 & I3). unfold s_len. rewrite (proj2 (Z.ltb_ge _ _)), (proj2 (Z.ltb_ge size 3)) by lia.
  replace (Z.min (size - 3) (Z.of_nat (length (s_buf (dir_stream ctx))) - dpos)) with (Z.of_nat (length (listing_bytes gs))) by lia.
  destruct (dir_loop_ok (walk_inode ctx cb fuel) path (depth + 1) Hpo (s_buf (dir_stream ctx)) (dpos + Z.of_nat (length (listing_bytes gs))) gs Hv (Z.to_nat (Z.of_nat (length (listing_bytes gs)))) kids dpos w1 Hk E2 E3 E4)
    as (rc & w2 & -> & W1 & W2 & W3 & W4); [by split_and!|done|lia|]. rewrite bind_ok_eq. eexists _, _. split; [reflexivity|]. cbn [set_depth w_user w_cb_rc w_path w_depth]. rewrite E1 in W1. split_and!; [exact W1|done|congruence|lia].
Qed.

Lemma walk_inode_ok n : ∀ t ref w path depth, describes t ref → fits depth path t = true → path_ok path → w_cb_rc w = 0 → w_path w = path → w_depth w = depth →
  64 <= depth + Z.of_nat n → ∃ rc w', walk_inode ctx cb (S n) ref w = Ok (rc, w') ∧ walked (entries ids path t) w rc w'.
Proof using All.
  induction n as [|n IH]; intros [pos a b data kids] ref w path depth Hdesc Hfit Hpo Hrc Hp Hd Hn; apply fits_kids in Hfit as [Hdep Hfk]; [lia|].
  destruct Hdesc as (Hhere & _ & Hkids). destruct (inode_found ref pos a b Hhere) as (Hres & Hin & Va & Vb). rewrite contents_kids. remember (S n) as fuel eqn:Efuel. cbn [walk_inode]. unfold WALK_MAX_DEPTH. rewrite (proj2 (Z.leb_gt _ _)) by lia.
  pose proof (type_small b Vb) as Ht. unfold inode_bytes in Hin. pose proof Hin as Hin1. apply in_file_app in Hin1 as [_ Hin1]. change (Z.of_nat (length (hdr_bytes b a))) with 16 in Hin1.
  pose proof Hin1 as (P1 & P2 & _). unfold read_inode_common. rewrite Hres. unfold fail_if. rewrite (proj2 (Z.ltb_ge _ _)) by (unfold s_len; lia).
  rewrite (slice_here _ pos (hdr_bytes b a) (body_bytes b ++ body_tail b) 16 Hin eq_refl), bind_ok_eq, (hdr_read b a Va Ht). cbn [catch h_uid_idx h_gid_idx h_type].
  rewrite (op_uids f ctx s im O (a_uid a)), (op_uids f ctx s im O (a_gid a)), !bind_ok_eq by apply Va. unfold make_entry. cbn [h_type h_mode h_mtime]. rewrite Hp.
  assert (∀ m, m <= Z.of_nat (length (body_bytes b)) → (s_len (inode_stream ctx) - (pos + 16) <? m) = false) as Hav by (intros m Hm; apply Z.ltb_ge; rewrite length_app in P2; unfold s_len; lia).
  assert (∀ blk off size gs, dir_fields b = Some (blk, off, size) → listing_here blk off size gs → Forall2 (λ r k, fst r = fst k ∧ describes (snd k) (snd r)) (listing_refs gs) kids →
    Forall2 (child_ok (walk_inode ctx cb fuel) path (depth + 1)) (listing_refs gs) kids) as Hch.
  { intros blk off size gs _ (_ & _ & _ & _ & _ & _ & Hv) H2. apply listing_names in Hv. subst fuel. clear - IH H2 Hv Hfk Hn. revert Hv. induction H2 as [|[nm r] [nm' k] refs kids' [Hnm Hds] H2 IH2]; intros Hv; [constructor|].
    apply Forall_cons in Hv as [Hv1 Hv2]. apply Forall_cons in Hfk as [[F1 F2] F3]. cbn [fst snd] in *. subst nm'. constructor; [|by apply IH2]. unfold child_ok. cbn [fst snd]. split_and!; [done|done|].
    intros w Hw1 Hw2 Hw3. apply (IH k r w (join path nm) (depth + 1) Hds F2); try done; [|lia]. right. unfold join. rewrite !length_app. cbn [length]. lia. }
  assert (∀ m, m = Z.of_nat (length (body_bytes b)) → slice (s_buf (inode_stream ctx)) (pos + 16) m = Ok (body_bytes b)) as Hsl by (intros m Hm; by apply (slice_here _ _ _ (body_tail b))).
  destruct b as [blk nl size off par|nl size blk par ic off xa|st fr fo sz szs|st sz sp nl fr fo xa szs|ext nl tg|kind nl rd|kind nl]; cbn [dir_fields body_type report_size body_rdev body_target body_xattr] in *.
  - destruct Hkids as (gs & Hl & Hk). apply describes_kids in Hk. kind_tests. rewrite (Hav 16), (Hsl 16), bind_ok_eq by done. destruct Vb as (V1 & V2 & V3).
    assert (basic_dir (body_bytes (BDir blk nl size off par)) = (blk, off, size)) as -> by (unfold basic_dir; repeat f_equal; first [by apply (le_field 4)|by apply (le_field 2)]).
    apply (directory_ok fuel blk off size _ kids gs path depth w Hl Hrc Hp Hd Hpo). by apply (Hch blk off size).
  - destruct Hkids as (gs & Hl & Hk). apply describes_kids in Hk. kind_tests. rewrite (Hav 24), (Hsl 24), bind_ok_eq by done. destruct Vb as (V1 & V2 & V3).
    assert (ext_dir (body_bytes (BDirExt nl size blk par ic off xa)) = (blk, off, size)) as -> by (unfold ext_dir; repeat f_equal; first [by apply (le_field 4)|by apply (le_field 2)]).
    apply (directory_ok fuel blk off size _ kids gs path depth w Hl Hrc Hp Hd Hpo). by apply (Hch blk off size).
  - subst kids. kind_tests. rewrite (Hav 16), (Hsl 16), bind_ok_eq by done. destruct Vb as (V1 & V2 & V3 & V4 & V5).
    assert (basic_file (body_bytes (BFile st fr fo sz szs)) = (st, sz, fr, fo)) as -> by (unfold basic_file; repeat f_equal; by apply (le_field 4)). by apply leaf_ok.
  - subst kids. kind_tests. rewrite (Hav 40), (Hsl 40), bind_ok_eq by done. destruct Vb as (V1 & V2 & V3 & V4 & V5 & V6).
    assert (ext_file (body_bytes (BFileExt st sz sp nl fr fo xa szs)) = (st, sz, fr, fo)) as -> by (unfold ext_file; repeat f_equal; first [by apply (le_field 4)|by apply (le_field 8)]).
    assert (f32 (body_bytes (BFileExt st sz sp nl fr fo xa szs)) 36 = xa) as -> by by apply (le_field 4). by apply leaf_ok.
  - subst kids. assert (∀ t, t = (if ext then SQFS_ESYM_TYPE else SQFS_SYM_TYPE) → (t =? SQFS_DIR_TYPE) = false ∧ (t =? SQFS_EDIR_TYPE) = false ∧ (t =? SQFS_REG_TYPE) = false ∧ (t =? SQFS_EREG_TYPE) = false ∧
      (t =? SQFS_SYM_TYPE) || (t =? SQFS_ESYM_TYPE) = true) as Hty by (intros t ->; by destruct ext).
    destruct (Hty _ eq_refl) as (-> & -> & -> & -> & ->). clear Hty. rewrite (Hav 8), (Hsl 8), bind_ok_eq by done.
    assert (f32 (body_bytes (BSym ext nl tg)) 4 = Z.of_nat (length tg)) as -> by by apply (le_field 4).
    rewrite (proj2 (Z.ltb_ge _ _)) by (rewrite length_app in P2; cbn [body_bytes body_tail le_bytes length app] in P2; unfold s_len; lia).
    apply in_file_app in Hin1 as [_ Hin2]. cbn [body_tail] in Hin2. change (Z.of_nat (length (body_bytes (BSym ext nl tg)))) with 8 in Hin2. rewrite <- (app_nil_r tg) in Hin2.
    rewrite (slice_here _ _ tg [] _ Hin2 eq_refl), bind_ok_eq. by apply leaf_ok.
  - subst kids. destruct Vb as [Vk Vr]. assert (f32 (body_bytes (BDev kind nl rd)) 4 = rd) as Er by by apply (le_field 4).
    repeat (apply elem_of_cons in Vk as [->|Vk]; [kind_tests; rewrite (Hav 8), (Hsl 8), bind_ok_eq, Er by done; by apply leaf_ok|]). by apply elem_of_nil in Vk.
  - subst kids. repeat (apply elem_of_cons in Vb as [->|Vb]; [kind_tests; by apply leaf_ok|]). by apply elem_of_nil in Vb.
Qed.

Lemma walk_ok t u : describes t (root_inode_ref s) → fits 0 [] t = true → sqfs_walk ctx cb u = Ok (run_cb cb (entries ids [] t) u).
Proof using All.
  intros Hd Hf. unfold sqfs_walk. rewrite (op_sb f ctx s im O).
  destruct (walk_inode_ok 64 t (root_inode_ref s) (mkWalk u [] 0 0 0 0 0 0) [] 0 Hd Hf) as (rc & w' & E & W1 & W2 & _); [by left|done|done|done|lia|].
  change (Z.to_nat WALK_MAX_DEPTH) with 64%nat. rewrite E, bind_ok_eq. cbn [w_user] in W1. rewrite <- W1, W2. by destruct (rc =? 0) eqn:Ez.
Qed.
End walk.

(** Every file of the tree reads back. *)
Lemma contents_ok t : 0 < block_size s → ∀ ref path, describes t ref → ∀ e data, (e, Some data) ∈ contents (im_uids im) path t → ∀ g, fst (sqfs_read_file ctx g e) = Ok data.
Proof using All.
  intros Hbz. revert t. fix IH 1. intros [pos a b d kids] ref path (Hhere & Hfile & Hkids) e data He g. cbn [contents] in He. apply elem_of_cons in He as [He|He].
  - injection He as -> He. destruct (is_file b) eqn:Ek; [|done]. injection He as <-. by apply (read_file_ok ref pos a b data).
  - destruct (dir_fields b) as [[[blk off] size]|]; [|subst kids; by apply elem_of_nil in He]. destruct Hkids as (gs & _ & Hk). revert He Hk. generalize (listing_refs gs).
    clear Hhere Hfile. revert kids. fix IHk 1. intros [|[nm k] kids] refs He Hk; [by apply elem_of_nil in He|]. destruct refs as [|[nm' r] refs]; [done|]. destruct Hk as (_ & Hk & Hks).
    apply elem_of_app in He as [He|He]; [exact (IH k r (join path nm) Hk e data He g)|exact (IHk kids refs He Hks)].
Qed.
End tree.

(** C30. An image laid out as the format says is read back.  With any
    decompressor, when the file holds a valid superblock, tables of identifiers
    and fragments behind their indexes, the tables of inodes and directories as
    chains of metadata blocks, each stored plainly or compressed, and in them a
    tree no deeper than 64 levels whose paths fit in 4096 bytes: opening it
    succeeds; the walk calls any callback for exactly the nodes of the tree,
    parents first, with their paths, attributes, owners and link targets, until
    the callback stops it, and returns what it returned; and reading the entry of
    any file, from sparse, plain and compressed blocks and a fragment, gives
    exactly its contents. *)
Theorem sqfs_tree_read `{X : XzDec} (f : list Z) (s : sqfs_superblock_t) (im : image) (t : tree) :
  Z.of_nat (length f) < 2 ^ 48 → laid f s im → describes f s im t (root_inode_ref s) → fits 0 [] t = true →
  ∃ ctx, sqfs_open (Some f) = Ok ctx ∧
    (∀ U (cb : sqfs_entry_t → U → Z * U) u, sqfs_walk ctx cb u = Ok (run_cb cb (entries (im_uids im) [] t) u)) ∧
    ∀ e data, (e, Some data) ∈ contents (im_uids im) [] t → ∀ g, fst (sqfs_read_file ctx g e) = Ok data.
Proof.
  intros Hlen Hl Hd Hf. destruct (sqfs_open_image f Hlen s im Hl) as (ctx & Ho & O). exists ctx. split; [exact Ho|]. split.
  - intros U cb u. by apply (walk_ok f s im Hlen ctx O).
  - intros e data He g. apply (contents_ok f s im Hlen ctx O t) with (ref := root_inode_ref s) (path := []); try done.
    destruct (la_sb f s im Hl) as [V _]. rewrite (proj2 (sv_block s V)). apply Z.pow_pos_nonneg; [lia|]. pose proof (sv_halves s V) as Hh. rewrite list.Forall_forall in Hh. by apply (Hh (block_log s) ltac:(in_list)).
Qed.

(** ** A sample image: a root with a file in a plain block, a sparse block and a
    fragment, and a link; inodes and fragments compressed *)

#[local] Existing Instance plain_xz.

Lemma plain_inflates c : inflates c c.
Proof.
  intros d room _ Hr. unfold xz_all. cbn [xz_loop xz_dec_run plain_xz]. rewrite Z.min_l by lia. cbn [fst]. by rewrite Nat2Z.id, take_ge by lia.
Qed.

Definition sample_attrs (ino : Z) : attrs := mkAttrs 0x1A4 1 0 1700000000 ino.
Definition sample_a : body := BFile 96 0 1 10 [2 ^ 24 + 4; 0].
Definition sample_b : body := BSym false 1 [97].
Definition sample_gs : list dirgroup := [mkDg 0 1 [mkDe 0 0 2 [97]; mkDe 40 1 3 [98]]].
Definition sample_root : body := BDir 0 2 33 0 4.
Definition sample_data : list Z := [1; 2; 3; 4; 0; 0; 0; 0; 5; 6].
Definition sample_tree : tree :=
  Node 65 (sample_attrs 3) sample_root [] [([97], Node 0 (sample_attrs 1) sample_a sample_data []); ([98], Node 40 (sample_attrs 2) sample_b [] [])].

Definition xz_packed (c : list Z) : list Z := le_bytes 2 (Z.of_nat (length c)) ++ c.
Definition plain (c : list Z) : list Z := le_bytes 2 (0x8000 + Z.of_nat (length c)) ++ c.
Definition sample_inodes : list Z := inode_bytes (sample_attrs 1) sample_a ++ inode_bytes (sample_attrs 2) sample_b ++ inode_bytes (sample_attrs 3) sample_root.
Definition sample_frag : Z * Z := (100, 3).
Definition sample_im : image :=
  mkImg [0; 1000] [sample_frag] [xz_packed sample_inodes] [sample_inodes] [plain (listing_bytes sample_gs); xz_packed (frag_bytes sample_frag)] [listing_bytes sample_gs; frag_bytes sample_frag].
Definition sample_sb : sqfs_superblock_t :=
  mkSb SQFS_MAGIC 3 0 4 1 SQFS_COMP_XZ 2 0 2 4 0 65 278 270 (2 ^ 64 - 1) 103 202 252 (2 ^ 64 - 1).
Definition sample_image : list Z :=
  sb_bytes sample_sb ++ [1; 2; 3; 4] ++ [9; 5; 6] ++ xz_packed sample_inodes ++ plain (listing_bytes sample_gs) ++ xz_packed (frag_bytes sample_frag) ++ le_bytes 8 234 ++
  plain (concat (map (le_bytes 4) [0; 1000])) ++ le_bytes 8 260.

Lemma sample_laid : laid sample_image sample_sb sample_im.
Proof.
  assert (∀ c, 0 < Z.of_nat (length c) <= 8192 → stored SQFS_COMP_XZ (xz_packed c) c) as Hp by (intros c Hc; apply stored_xz; [done|done|unfold SQFS_METADATA_SIZE; lia|apply plain_inflates]).
  assert (∀ c, 0 < Z.of_nat (length c) <= 8192 → stored SQFS_COMP_XZ (plain c) c) as Hs by (intros c Hc; by apply stored_plain).
  constructor.
  - split; [|by vm_compute]. constructor; [done|repeat (constructor; [by vm_compute|]); constructor..|done|by left|by vm_compute].
  - split; [repeat (constructor; [by vm_compute|]); constructor|]. split; [done|]. right. exists [260], [concat (map (le_bytes 4) [0; 1000])]. split; [|done].
    split; [repeat (constructor; [by vm_compute|]); constructor|]. split; [repeat constructor; by vm_compute|]. split; [by vm_compute|]. split; [|by vm_compute]. constructor; [|constructor].
    exists (plain (concat (map (le_bytes 4) [0; 1000]))). split; [apply Hs; by vm_compute|by vm_compute].
  - split; [done|]. right. exists [234], [frag_bytes sample_frag]. split; [|done].
    split; [repeat (constructor; [by vm_compute|]); constructor|]. split; [repeat constructor; by vm_compute|]. split; [by vm_compute|]. split; [|by vm_compute]. constructor; [|constructor].
    exists (xz_packed (frag_bytes sample_frag)). split; [apply Hp; by vm_compute|by vm_compute].
  - split; [constructor; [apply Hp; by vm_compute|constructor]|]. split; [constructor; [apply (bool_decide_unpack (bytes sample_inodes)); vm_compute; exact I|constructor]|]. split; [by vm_compute|by vm_compute].
  - split; [constructor; [apply Hs; by vm_compute|constructor; [apply Hp; by vm_compute|constructor]]|].
    split; [constructor; [|constructor; [|constructor]]|].
    + apply (bool_decide_unpack (bytes (listing_bytes sample_gs))). vm_compute. exact I.
    + apply (bool_decide_unpack (bytes (frag_bytes sample_frag))). vm_compute. exact I.
    + split; [by vm_compute|by vm_compute].
Qed.

Lemma sample_describes : describes sample_image sample_sb sample_im sample_tree 65.
Proof.
  assert (∀ ref pos a b o, is_u16 o → ref = o → pos = o → in_file sample_inodes pos (inode_bytes a b) → attrs_valid a → body_valid b → inode_here sample_im ref pos a b) as Hino.
  { intros ref pos a b o Ho -> -> Hin Ha Hb. exists 0%nat, (xz_packed sample_inodes), o. split_and!; try done. }
  assert (∀ i, i < 4 → 0 <= i → attrs_valid (sample_attrs i)) as Hat by (intros i H1 H2; unfold attrs_valid, is_u16, is_u32; cbn; lia).
  assert (body_valid sample_a) as Hva by (do 4 (split; [by vm_compute|]); repeat (constructor; [by vm_compute|]); constructor).
  cbn [describes sample_tree dir_fields sample_root]. split_and!.
  - apply (Hino _ _ _ _ 65); first [by apply Hat|by vm_compute].
  - intros ? ? ? ? ? ?. done.
  - exists sample_gs. split; [exists 0%nat, (plain (listing_bytes sample_gs)); do 4 (split; [by vm_compute|])|].
    + constructor; [|constructor]. split; [by vm_compute|]. split; [by vm_compute|]. repeat (constructor; [split; by vm_compute|]). constructor.
    + cbn. split_and!; try done.
      * apply (Hino _ _ _ _ 0); first [exact Hva|by apply Hat|by vm_compute].
      * intros start size frag foff sizes [= <- <- <- <- <-]. split; [done|]. exists [[1; 2; 3; 4]; [0; 0; 0; 0]], [5; 6]. split; [reflexivity|]. split; [|split; [reflexivity|split; [repeat constructor; done|split; [reflexivity|]]]].
        -- split; [apply (bh_plain _ _ [1; 2; 3; 4]); by vm_compute|]. split; [apply (bh_sparse _ _ 0 4); done|done].
        -- intros _ _. exists 100, 3, [9; 5; 6]. do 5 (split; [by vm_compute|]). split; [|split; by vm_compute]. right. exists [9; 5; 6]. do 3 (split; [by vm_compute|]). apply plain_inflates.
      * apply (Hino _ _ _ _ 40); first [by apply Hat|by vm_compute].
Qed.

Lemma sqfs_tree_read_witness : ∃ ctx, sqfs_open (Some sample_image) = Ok ctx ∧
  sqfs_walk ctx (λ e l, (0, l ++ [e_path e])) [] = Ok (0, [[]; [47; 97]; [47; 98]]) ∧
  ∃ e, e_path e = [47; 97] ∧ fst (sqfs_read_file ctx None e) = Ok sample_data.
Proof.
  destruct (sqfs_tree_read sample_image sample_sb sample_im sample_tree) as (ctx & Ho & Hw & Hf); [by vm_compute|apply sample_laid|apply sample_describes|by vm_compute|].
  exists ctx. split; [exact Ho|]. split; [rewrite Hw; by vm_compute|].
  eexists. split; [|apply Hf; apply list_elem_of_further, list_elem_of_here]. reflexivity.
Defined.
